(* ===== verification/_CoqProject ===== *)
-Q . S2P
Prelude.v
Common.v
Utf8.v
RawBlock.v
Param.v
Serializer.v
BlockRoundtrip.v
Stmt2.v
Stmt2Spec.v
Stmt2Bind.v
TmqRaw.v
JsonBuilder.v
BlockJson.v
Rest.v
Types.v
ConnectPool.v
CommonPool.v
CommonPoolSafe.v
CommonPoolSpec.v
Handle.v
HandlerPool.v
Stmt2Pool.v
Tools.v
Buffer.v
StmtConvert.v
CHeap.v
CStmt.v
CStmtSpec.v
StmtParse.v
StmtParseSpec.v
StmtParseScenarios.v
Text.v
Csv.v
CsvSpec.v
RestAuth.v
Upload.v
WsProg.v
WsHandlers.v
WsReplies.v
WsLogic.v
WsSafety.v
WsSession.v
WsDeadlock.v
WsScenarios.v
TmqProg.v
TmqHandlers.v
TmqLogic.v
TmqSafety.v
TmqSession.v
TmqSpec.v
TmqReplies.v
TmqScenarios.v
Statsd.v
StatsdCache.v
StatsdSpec.v
StatsdCacheSpec.v
StatsdStats.v
StatsdServer.v
StatsdServerSpec.v
StatsdScenarios.v
