(* ===== verification/Prelude.v ===== *)
(** * A verification library for taosAdapter

    taosAdapter is a companion of the TDengine database.  It accepts requests over HTTP and
    WebSocket and by the protocols of other systems, calls the C client library of TDengine, and
    turns results into JSON or into binary frames.  This library models the parts of it that
    compute by themselves - the binary formats, the JSON output, the readers of text, the pools
    and the sessions that goroutines share - and proves what makes them correct.

    ** The program and the files

    Results arrive from the C library as _raw blocks_: a header, column descriptions, a null
    bitmap or an offset array per column, and the data.
    - [Common] has the type codes, the dynamic values ([value] is a Go [driver.Value] with its
      type) and the time conversions ([src/driver/common], [src/driver/types/taostype.go]).
    - [RawBlock] reads blocks ([src/driver/common/parser/block.go], [src/tools/parseblock]):
      [ReadBlock], [ReadBlockWithTimeFormat], [ReadBlockSimple], [ReadRow], [ItemRawBlock].
    - [Serializer] makes them ([src/driver/common/serializer/block.go]: [SerializeRawBlock]), and
      [BlockRoundtrip] proves that reading what was made gives the values back; [Utf8] has the
      conversion between strings and runes that the NCHAR columns need.
    - [TmqRaw] parses the messages of a subscription ([src/driver/common/parser/raw.go]).

    Bind parameters go the other way.
    - [Param] has columns of parameters and lists of column types ([src/driver/common/param]).
    - [Stmt2] marshals them into one buffer ([src/driver/common/stmt]); [Stmt2Spec] states the
      layout of the buffer as a function of the data and proves the marshaller against it.
    - [Stmt2Bind] is the other end of the buffer, the C code of [src/driver/wrapper/stmt2binary.go]
      that turns it into bind structures; the two ends meet in one theorem.
    - [StmtConvert] turns a block into columns of bind values ([BlockConvert] of
      [src/controller/ws/stmt/convert.go]); [StmtParse] does this for the columns and tags of a json
      message ([StmtParseColumn], [StmtParseTag]), over any json iterator.
    - [CStmt] puts such values into structures of C ([src/driver/wrapper/stmt.go]:
      [TaosStmtBindParamBatch], [TaosStmtSetTags] and the like), over [CHeap], a heap of blocks that C
      allocates; [CStmtSpec] says what the C library reads in them.  [StmtParseSpec] follows a message
      through both, and [StmtParseScenarios] has concrete messages.

    The REST interface.
    - [JsonBuilder] is the stream of [src/tools/jsonbuilder]; [BlockJson] writes an item of a block
      without building its value ([src/tools/ctools/block.go]); [Rest] is the response of a query
      ([execute] of [src/controller/rest/restful.go] from the column metadata on), which composes
      the three.
    - [RestAuth] has the error responses, the login token and [CheckAuth] with its cache
      ([src/controller/rest/auth.go], [error_resp.go]); [Text] the functions of Go's [strings],
      [strconv] and [sort] that text handling uses.
    - [Csv] is the reader of uploaded files ([src/tools/csv/reader.go]), [CsvSpec] its theorems, and
      [Upload] the insertion of their rows ([upload] of [restful.go]).
    - [Types] has the nullable scan types and the error type ([src/driver/types/types.go],
      [src/driver/errors]).

    Goroutines share connections and callback handlers.
    - [ConnectPool] is the connection pool ([src/tools/connectpool]) as a transition system whose
      steps are the critical sections and channel operations of the code.
    - [CommonPool] is the pools of the users above it ([src/db/commonpool]), with the goroutines
      that watch for changed passwords and whitelists; [CommonPoolSafe] has its invariants and
      [CommonPoolSpec] its theorems.
    - [Handle] is the table of handles that stand for Go values in C
      ([src/driver/wrapper/cgo/handle.go]); [HandlerPool] the two pools of callback handlers
      ([src/db/async/handlerpool.go], [src/db/asynctmq/tmqhandle]); [Stmt2Pool] the pool of
      statement callbacks ([src/db/async/stmt2pool.go]).

    A WebSocket session is a set of goroutines that work on one handler.
    - [WsProg] has the operations on the shared state of [src/controller/ws/ws] (locks, lists of
      results and statements, the connection, the callback handlers), programs over them, and their
      interleaving; [WsHandlers] the program of every action and of closing; [WsReplies] counts the
      answers; [WsLogic] is a program logic (what a goroutine knows and owns at a point), [WsSafety]
      its soundness for whole sessions, [WsSession] the proof that every handler keeps to it;
      [WsDeadlock] and [WsScenarios] have the sessions that go wrong and the concrete ones.
    - [TmqProg], [TmqHandlers], [TmqLogic], [TmqSafety], [TmqSession], [TmqReplies], [TmqSpec] and
      [TmqScenarios] are the same for subscriptions ([src/controller/ws/tmq]), with three locks, the
      consumer and the last message.

    The statsd plugin ([src/plugin/statsd]).
    - [Statsd] parses packets, lines, names, tags and events; [StatsdCache] aggregates the metrics
      and gathers them, with the running statistics of timings; [StatsdServer] is the listeners, the
      handlers of connections, the parsers and [Stop].
    - [StatsdSpec], [StatsdCacheSpec], [StatsdStats] and [StatsdServerSpec] are their theorems,
      [StatsdScenarios] the concrete inputs.

    [Tools] has request numbers, byte arrays in JSON, basic authentication and AES padding;
    [Buffer] the resizing of slices and [ByteBuffer] ([src/tools]).

    ** How the code is modelled

    A Go function is a function in the monad [go] of this file: it returns ([Ret]), returns an
    error ([Err]), panics ([Panic]: an index out of range, a nil function, an explicit panic) or
    reads or writes memory out of bounds ([Fault]: the unsafe pointer accesses and the C code).
    Integers are [Z] with the wrap-around of their width written out ([u8] ... [i64]); floats are
    their bit patterns, or abstract where the code computes with them (the class [Floats] of
    [Statsd], with the laws of comparison and conversion, [FloatLaws], where a theorem needs them:
    nothing is assumed of the rounding arithmetic); strings and byte slices are lists of bytes; memory is a list of bytes and
    a pointer an index into it.  A loop over an index range is [for_upto], so no fuel is needed;
    the loops that are not bounded by a counter have fuel, with a theorem that enough fuel exists:
    the variable-length integers of [TmqRaw] (bounded by the memory), [ReadFrom] of [Buffer]
    (bounded by the reader's contract), and the loops of [Csv] (bounded by the rest of the input).
    Objects behind pointers are passed and returned.
    Concurrent code is a step function on states with one program counter per goroutine, or, for the
    sessions, a program of operations per goroutine; a property of all interleavings is one of all
    lists of steps, and what the C library, a client or a timer may answer is part of a step.

    What is outside the sources is a parameter: the C library, the formatting of floats and instants,
    the response writer, base64, the AES and DES block ciphers, the reader of a stream, the factory of
    connections, the decoding of JSON requests, the json iterator (a record of its operations with a
    class of laws), the graphite templates.

    ** What is proved

    - Formats: serialising then reading a block is the identity
      ([SerializeRawBlock_ReadBlock]); one row read alone is the row of the whole block
      ([ReadRow_ReadBlock]); the buffer of [MarshalStmt2Binary] binds to exactly the marshalled data
      ([MarshalStmt2Binary_TaosStmt2BindBinary]) and marshalling never panics, while the C reader
      trusts row counts it should check; a block becomes bind values ([BlockConvert_ReadBlock]); a
      subscription message is parsed into its blocks ([Parse_msg]).
    - Binds: the columns and tags of a json message that are not refused fit their fields, and the C
      library reads just their values, without an access outside of a block and without a leak
      ([json_columns_bind], [json_tags_bind]) - for columns, if the last one has as many rows as the
      first, which the code forgets to test ([last_column_overflows], [missing_column_unwritten]).
    - JSON: strings, integers and runes are written as a JSON reader needs them
      ([WriteString_scan], [WriteInt_decimal]); the block writer agrees with the block reader on every
      item ([JsonWriteRawBlock_ItemRawBlock]); the response of a query is complete and well-formed
      ([execute_response]), except that one NaN loses it.
    - Text: the CSV reader returns on every input ([Read_total]) and reads documents back
      ([ReadAll_document]); an upload inserts exactly the rows of its files ([upload_inserts]) with
      its cells quoted ([upload_quoting]); the token of a login authenticates
      ([login_token_authenticates]) and the cache changes no answer ([CheckAuth_cache]).
    - Pools: the connection pool never panics, never shares, loses or double-closes a connection,
      and keeps its bound, in every interleaving ([pool_safe]), and nobody gets stuck but waiters in
      the queue ([pool_progress]); yet a wake-up can be lost and a release can leak a connection.
      The handler pool is simulated by it ([HandlerPool_refines_ConnectPool]).  A user's connection is
      authorised, open and lent once ([connection_authorised]), the map of pools is current
      ([map_current]), requests stay answerable ([request_answerable]), and the one use of a closed
      connection is named ([common_bad_is_whitelist]).
    - Sessions: no call works on what was given back, nothing is freed twice, and everything is given
      back when the session is closed ([session_safe], [session_no_leak], [session_quiet],
      [session_lists_typed], [tmq_safe], [tmq_no_leak], [tmq_unsubscribe_only_open]).  Two steps of a
      websocket session are excepted, and [session_bad_is_late_or_stale] shows that there is no third:
      the error text of a failed fetch is read without the lock, and a result of a statement is used
      after the statement was closed, which frees it ([fetch_after_stmt_close]); [session_safe] excludes
      them by conditions on the answers and the messages.  Every request is answered once, with its
      action and number where the kind of message has room for them ([handleMessage_answers],
      [tmq_answers_once]); sessions that are closed at a bad moment never end
      ([close_connect_deadlock], [tmq_close_deadlock], [fetch_pool_deadlock]).
    - Statsd: a line is parsed into the metrics and tags that were written
      ([parseStatsdLine_counter]); modulo [2^64] no count is lost, and with [deleteCounters] none is
      emitted twice, if entries do not expire and hashes do not collide ([counters_conserved]); the
      running statistics are those of the values in their order, for any arithmetic of floats
      ([RunningStats_values]); connections keep to their maximum and no channel is misused
      ([server_safe]), and [Stop] ends ([Stop_completes]).
    - Tools: request numbers of concurrent calls are unique until the increment wraps
      ([GetReqID_unique]), where they can repeat ([GetReqID_wrap_repeats]); round trips of the nullable
      types, of timestamps and of AES; buffers; credentials and byte arrays.

    ** What is not modelled

    The older WebSocket endpoints ([ws/query], [ws/stmt], [ws/schemaless]) have the shape of the one
    that is modelled and are left for its logic to be carried over. The wrappers of single C calls
    (the other functions of [src/driver/wrapper/stmt.go] among them) and the asynchronous calls of
    subscriptions ([src/db/asynctmq]) are the alphabet of the session programs. The other ingestion
    plugins are network servers around a schemaless insert; the prometheus types are generated;
    logging, configuration, monitoring and start-up have no logic of their own; the WebSocket
    library is I/O. In [JsonBuilder] the two lossy float writers are left out, and in [Rest] the
    handling of the request before the result is read.

    ** This file

    Machine integers, the monad, lists indexed by integers, loops, memory, and the lemmas and
    tactics the components share. *)
From stdpp Require Export base list numbers strings.
From Stdlib Require Export Lia.

#[local] Open Scope Z_scope.

(** * Machine integers *)

(** Go's fixed-width conversions: the value modulo [2^w], unsigned or in two's complement. *)
Definition wrap_u (w z : Z) : Z := z mod 2 ^ w.
Definition wrap_s (w z : Z) : Z := (z + 2 ^ (w - 1)) mod 2 ^ w - 2 ^ (w - 1).

Abbreviation u8 := (wrap_u 8).
Abbreviation u16 := (wrap_u 16).
Abbreviation u32 := (wrap_u 32).
Abbreviation u64 := (wrap_u 64).
Abbreviation i8 := (wrap_s 8).
Abbreviation i16 := (wrap_s 16).
Abbreviation i32 := (wrap_s 32).
Abbreviation i64 := (wrap_s 64).

(** Ranges of the machine types. *)
Definition in_u (w z : Z) : Prop := 0 <= z < 2 ^ w.
Definition in_s (w z : Z) : Prop := - 2 ^ (w - 1) <= z < 2 ^ (w - 1).

(** Replaces the powers of two of the machine widths by literals, for [lia]. *)
Ltac norm_pow :=
  change (2 ^ 8) with 256 in *; change (2 ^ 16) with 65536 in *;
  change (2 ^ 32) with 4294967296 in *; change (2 ^ 64) with 18446744073709551616 in *;
  change (2 ^ (8 - 1)) with 128 in *; change (2 ^ (16 - 1)) with 32768 in *;
  change (2 ^ (32 - 1)) with 2147483648 in *;
  change (2 ^ (64 - 1)) with 9223372036854775808 in *;
  change (2 ^ 31) with 2147483648 in *; change (2 ^ 63) with 9223372036854775808 in *.

(** [lia] with division and remainder by constants. *)
Ltac div_lia := Z.to_euclidean_division_equations; lia.

(** Case analysis on the first condition of the goal. *)
Ltac case_if E := match goal with |- context [if ?c then _ else _] => destruct c eqn:E end.

Ltac range_lia := unfold in_u, in_s in *; norm_pow; first [lia | div_lia].

Lemma wrap_u_id w z : in_u w z -> wrap_u w z = z.
Proof. apply Z.mod_small. Qed.

Lemma pow_half w : 0 < w -> 2 ^ w = 2 * 2 ^ (w - 1).
Proof. intros H. rewrite <- Z.pow_succ_r by lia. f_equal. lia. Qed.

Lemma wrap_s_id w z : 0 < w -> in_s w z -> wrap_s w z = z.
Proof.
  intros Hw [H1 H2]. unfold wrap_s. rewrite Z.mod_small; [lia|].
  pose proof (pow_half w Hw). lia.
Qed.

Lemma wrap_u_range w z : 0 <= w -> in_u w (wrap_u w z).
Proof. intros. apply Z.mod_pos_bound, Z.pow_pos_nonneg; lia. Qed.

Lemma wrap_s_range w z : 0 < w -> in_s w (wrap_s w z).
Proof.
  intros Hw. unfold wrap_s, in_s.
  pose proof (Z.mod_pos_bound (z + 2 ^ (w - 1)) (2 ^ w) ltac:(apply Z.pow_pos_nonneg; lia)).
  pose proof (pow_half w Hw). lia.
Qed.

(** Reinterpreting a value through its unsigned pattern does not change its signed reading. *)
Lemma wrap_s_mod w z : 0 < w -> wrap_s w (z mod 2 ^ w) = wrap_s w z.
Proof. intros Hw. unfold wrap_s. by rewrite Z.add_mod_idemp_l by (apply Z.pow_nonzero; lia). Qed.

(** * Outcomes of Go code *)

(** A Go error value, by its message. *)
Definition error := string.

(** [Ret a]: the code returns [a].  [Err e]: it returns a non-nil error.  [Panic]: a run-time
    panic (index out of range, nil dereference, explicit [panic]).  [Fault]: a load through an
    [unsafe.Pointer] outside the block it points into, which Go does not check. *)
Inductive go (A : Type) : Type :=
| Ret (a : A)
| Err (e : error)
| Panic
| Fault.
Arguments Ret {A} a.
Arguments Err {A} e.
Arguments Panic {A}.
Arguments Fault {A}.

#[export] Instance go_mret : MRet go := @Ret.
#[export] Instance go_mbind : MBind go := fun A B f x =>
  match x with Ret a => f a | Err e => Err e | Panic => Panic | Fault => Fault end.
#[export] Instance go_fmap : FMap go := fun A B f x =>
  match x with Ret a => Ret (f a) | Err e => Err e | Panic => Panic | Fault => Fault end.

Lemma go_bind_ret {A B} (x : A) (f : A -> go B) : (Ret x ≫= f) = f x.
Proof. done. Qed.

Lemma go_bind_Ret_inv {A B} (x : go A) (f : A -> go B) b :
  (x ≫= f) = Ret b -> exists a, x = Ret a /\ f a = Ret b.
Proof. destruct x; simpl; try discriminate. eauto. Qed.

Lemma go_fmap_Ret_inv {A B} (x : go A) (f : A -> B) b :
  (f <$> x) = Ret b -> exists a, x = Ret a /\ b = f a.
Proof. destruct x; simpl; try discriminate. inversion 1; eauto. Qed.

Lemma go_bind_assoc {A B C} (x : go A) (f : A -> go B) (g : B -> go C) :
  ((x ≫= f) ≫= g) = (x ≫= fun a => f a ≫= g).
Proof. by destruct x. Qed.

Lemma go_bind_ext {A B} (x : go A) (f g : A -> go B) : (forall a, f a = g a) -> (x ≫= f) = (x ≫= g).
Proof. intros H. destruct x; simpl; auto. Qed.

Lemma mapM_go_cons {A B} (f : A -> go B) x l :
  mapM f (x :: l) = (y ← f x; k ← mapM f l; Ret (y :: k)).
Proof. done. Qed.

Definition is_ret {A} (x : go A) : bool := match x with Ret _ => true | _ => false end.

Lemma Forall_filter_1 {A} (P Q : A -> Prop) `{!forall x, Decision (Q x)} l :
  Forall P l -> Forall P (filter Q l).
Proof.
  rewrite !Forall_forall. intros Hl x Hx. apply list_elem_of_filter in Hx as [_ Hx]. by apply Hl.
Qed.

(** * Slices indexed by Go's [int] *)

Definition zlen {A} (l : list A) : Z := Z.of_nat (length l).

Definition zget {A} (l : list A) (i : Z) : go A :=
  if bool_decide (0 <= i) then
    match l !! Z.to_nat i with Some x => Ret x | None => Panic end
  else Panic.

Definition zset {A} (l : list A) (i : Z) (x : A) : go (list A) :=
  if bool_decide (0 <= i < zlen l) then Ret (<[Z.to_nat i := x]> l) else Panic.

Definition zdrop {A} (n : Z) (l : list A) : list A := drop (Z.to_nat n) l.
Definition ztake {A} (n : Z) (l : list A) : list A := take (Z.to_nat n) l.

(** [l[lo:hi]]. *)
Definition zslice {A} (l : list A) (lo hi : Z) : go (list A) :=
  if bool_decide (0 <= lo <= hi /\ hi <= zlen l) then Ret (ztake (hi - lo) (zdrop lo l)) else Panic.

(** Overwriting [length bs] cells of [l] from [off]: the whole write is in range or it panics
    (the [binary.LittleEndian.Put*] functions check the last index first). *)
Definition zput {A} (l : list A) (off : Z) (bs : list A) : go (list A) :=
  if bool_decide (0 <= off /\ off + zlen bs <= zlen l)
  then Ret (ztake off l ++ bs ++ zdrop (off + zlen bs) l) else Panic.

(** [copy(l[off:], src)]: copies as much as fits. *)
Definition zcopy {A} (l : list A) (off : Z) (src : list A) : go (list A) :=
  if bool_decide (0 <= off <= zlen l)
  then let n := Z.min (zlen src) (zlen l - off) in
       Ret (ztake off l ++ ztake n src ++ zdrop (off + n) l)
  else Panic.

Lemma zlen_nonneg {A} (l : list A) : 0 <= zlen l.
Proof. unfold zlen. lia. Qed.

Lemma zlen_nil {A} : zlen (@nil A) = 0.
Proof. done. Qed.

Lemma zlen_cons {A} (x : A) l : zlen (x :: l) = 1 + zlen l.
Proof. unfold zlen. simpl. lia. Qed.

Lemma zlen_app {A} (l k : list A) : zlen (l ++ k) = zlen l + zlen k.
Proof. unfold zlen. rewrite length_app. lia. Qed.

Lemma zlen_snoc {A} (l : list A) x : zlen (l ++ [x]) = zlen l + 1.
Proof. rewrite zlen_app. done. Qed.

Lemma zlen_replicate {A} n (x : A) : zlen (replicate n x) = Z.of_nat n.
Proof. unfold zlen. by rewrite length_replicate. Qed.

Lemma zlen_insert {A} (l : list A) i x : zlen (<[i:=x]> l) = zlen l.
Proof. unfold zlen. by rewrite length_insert. Qed.

Lemma zlen_fmap {A B} (f : A -> B) l : zlen (f <$> l) = zlen l.
Proof. unfold zlen. by rewrite length_fmap. Qed.

Lemma zlen_ztake {A} n (l : list A) : 0 <= n <= zlen l -> zlen (ztake n l) = n.
Proof. unfold zlen, ztake. intros. rewrite length_take. lia. Qed.

Lemma zlen_zdrop {A} n (l : list A) : 0 <= n <= zlen l -> zlen (zdrop n l) = zlen l - n.
Proof. unfold zlen, zdrop. intros. rewrite length_drop. lia. Qed.

Lemma zget_Ret {A} (l : list A) i x : zget l i = Ret x <-> 0 <= i /\ l !! Z.to_nat i = Some x.
Proof.
  unfold zget. case_bool_decide; [|split; [discriminate|lia]].
  destruct (l !! Z.to_nat i) eqn:E; split.
  - intros [= ->]. done.
  - intros [_ [= ->]]. done.
  - discriminate.
  - intros [_ ?]. discriminate.
Qed.

Lemma zget_lookup {A} (l : list A) (i : nat) x : l !! i = Some x -> zget l (Z.of_nat i) = Ret x.
Proof. intros. apply zget_Ret. split; [lia|by rewrite Nat2Z.id]. Qed.

Lemma zset_in {A} (l : list A) i x :
  0 <= i < zlen l -> zset l i x = Ret (<[Z.to_nat i := x]> l).
Proof. intros. unfold zset. by rewrite bool_decide_eq_true_2. Qed.

Lemma zlen_zset {A} (l l' : list A) i x : zset l i x = Ret l' -> zlen l' = zlen l.
Proof. unfold zset. case_bool_decide; intros; simplify_eq. apply zlen_insert. Qed.

Lemma zput_in {A} (l : list A) off bs :
  0 <= off -> off + zlen bs <= zlen l ->
  zput l off bs = Ret (ztake off l ++ bs ++ zdrop (off + zlen bs) l).
Proof. intros. unfold zput. by rewrite bool_decide_eq_true_2. Qed.

Lemma zlen_zput {A} (l l' : list A) off bs : zput l off bs = Ret l' -> zlen l' = zlen l.
Proof.
  unfold zput. case_bool_decide as H; intros; simplify_eq. pose proof (zlen_nonneg bs).
  rewrite !zlen_app, zlen_ztake, zlen_zdrop by lia. lia.
Qed.

Lemma ztake_app_len {A} (l k : list A) n : n = zlen l -> ztake n (l ++ k) = l.
Proof. intros ->. unfold ztake, zlen. rewrite Nat2Z.id. by rewrite take_app_length. Qed.

Lemma zdrop_app_len {A} (l k : list A) n : n = zlen l -> zdrop n (l ++ k) = k.
Proof. intros ->. unfold zdrop, zlen. rewrite Nat2Z.id. by rewrite drop_app_length. Qed.

(** A write into the middle part of a list, in the shape the layout proofs use. *)
Lemma zput_mid {A} (pre old new post : list A) off :
  off = zlen pre -> zlen old = zlen new ->
  zput (pre ++ old ++ post) off new = Ret (pre ++ new ++ post).
Proof.
  intros -> Hl. rewrite zput_in; [|apply zlen_nonneg|rewrite !zlen_app; pose proof (zlen_nonneg post); lia].
  rewrite ztake_app_len by done. rewrite (app_assoc pre old post).
  by rewrite (zdrop_app_len (pre ++ old)) by (rewrite zlen_app; lia).
Qed.

Lemma zcopy_mid {A} (pre old new post : list A) off :
  off = zlen pre -> zlen old = zlen new ->
  zcopy (pre ++ old ++ post) off new = Ret (pre ++ new ++ post).
Proof.
  intros -> Hl. unfold zcopy. pose proof (zlen_nonneg pre). pose proof (zlen_nonneg post).
  pose proof (zlen_nonneg old).
  rewrite !zlen_app, bool_decide_eq_true_2 by lia.
  rewrite Z.min_l by lia. rewrite ztake_app_len by done.
  unfold ztake at 1. rewrite take_ge by (unfold zlen in *; lia).
  rewrite (app_assoc pre old post).
  by rewrite (zdrop_app_len (pre ++ old)) by (rewrite zlen_app; lia).
Qed.

(** Reading the element after a known prefix. *)
Lemma zget_middle {A} (pre post : list A) x : zget (pre ++ x :: post) (zlen pre) = Ret x.
Proof.
  apply zget_Ret. split; [apply zlen_nonneg|]. unfold zlen. rewrite Nat2Z.id.
  by apply list_lookup_middle.
Qed.

(** * Loops *)

(** [for i := lo; ...; i++ { body }] run [n] times. *)
Fixpoint for_loop {St} (n : nat) (i : Z) (body : Z -> St -> go St) (s : St) : go St :=
  match n with
  | O => Ret s
  | S n' => body i s ≫= for_loop n' (i + 1) body
  end.

(** [for i := 0; i < n; i++ { body }]. *)
Definition for_upto {St} (n : Z) (body : Z -> St -> go St) (s : St) : go St :=
  for_loop (Z.to_nat n) 0 body s.

Lemma for_loop_inv {St} (P : Z -> St -> Prop) (body : Z -> St -> go St) n i s :
  P i s ->
  (forall j s, i <= j < i + Z.of_nat n -> P j s -> exists s', body j s = Ret s' /\ P (j + 1) s') ->
  exists s', for_loop n i body s = Ret s' /\ P (i + Z.of_nat n) s'.
Proof.
  revert i s. induction n as [|n IH]; intros i s HP Hstep.
  - exists s. by rewrite Z.add_0_r.
  - destruct (Hstep i s) as (s1 & E1 & HP1); [lia|done|].
    simpl. rewrite E1. simpl.
    destruct (IH (i + 1) s1 HP1) as (s' & E & HP'); [intros; apply Hstep; [lia|done]|].
    exists s'. split; [done|]. by replace (i + Z.of_nat (S n)) with (i + 1 + Z.of_nat n) by lia.
Qed.

Lemma for_upto_inv {St} (P : Z -> St -> Prop) (body : Z -> St -> go St) n s :
  0 <= n -> P 0 s ->
  (forall j s, 0 <= j < n -> P j s -> exists s', body j s = Ret s' /\ P (j + 1) s') ->
  exists s', for_upto n body s = Ret s' /\ P n s'.
Proof.
  intros Hn HP Hstep. unfold for_upto.
  destruct (for_loop_inv P body (Z.to_nat n) 0 s HP) as (s' & E & HP').
  - intros j s0 Hj. apply Hstep. lia.
  - exists s'. split; [done|]. by replace n with (0 + Z.of_nat (Z.to_nat n)) by lia.
Qed.

(** The invariant of a loop that did return. *)
Lemma for_loop_ret_inv {St} (P : Z -> St -> Prop) (body : Z -> St -> go St) n i s s' :
  for_loop n i body s = Ret s' -> P i s ->
  (forall j s s', i <= j < i + Z.of_nat n -> P j s -> body j s = Ret s' -> P (j + 1) s') ->
  P (i + Z.of_nat n) s'.
Proof.
  revert i s. induction n as [|n IH]; intros i s; simpl.
  - intros [= ->] ? _. by rewrite Z.add_0_r.
  - intros (s1 & E1 & E2)%go_bind_Ret_inv HP Hstep.
    replace (i + Z.of_nat (S n)) with (i + 1 + Z.of_nat n) by lia.
    apply (IH (i + 1) s1 E2).
    + apply (Hstep i s s1); [lia|done|done].
    + intros j s2 s3 Hj. apply Hstep. lia.
Qed.

Lemma for_upto_ret_inv {St} (P : Z -> St -> Prop) (body : Z -> St -> go St) n s s' :
  0 <= n -> for_upto n body s = Ret s' -> P 0 s ->
  (forall j s s', 0 <= j < n -> P j s -> body j s = Ret s' -> P (j + 1) s') ->
  P n s'.
Proof.
  intros Hn E HP Hstep.
  replace n with (0 + Z.of_nat (Z.to_nat n)) by lia.
  apply (for_loop_ret_inv P body _ 0 s s' E HP). intros j s0 s1 Hj. apply Hstep. lia.
Qed.

Lemma for_loop_ext {St} (f g : Z -> St -> go St) n i s :
  (forall j s, i <= j < i + Z.of_nat n -> f j s = g j s) ->
  for_loop n i f s = for_loop n i g s.
Proof.
  revert i s. induction n as [|n IH]; intros i s H; [done|]. simpl.
  rewrite (H i s) by lia. destruct (g i s) as [s1| | |]; simpl; try done.
  apply IH. intros j s2 Hj. apply H. lia.
Qed.

Lemma for_loop_ext_inv {St} (P : St -> Prop) (f g : Z -> St -> go St) n i s :
  P s -> (forall j s, P s -> f j s = g j s) ->
  (forall j s s', P s -> g j s = Ret s' -> P s') ->
  for_loop n i f s = for_loop n i g s.
Proof.
  intros HP Hfg Hg. revert i s HP. induction n as [|n IH]; intros i s HP; [done|]. simpl.
  rewrite (Hfg i s HP). destruct (g i s) as [s1| | |] eqn:E; simpl; try done.
  apply IH. by eapply Hg.
Qed.

(** * Bytes and little-endian words *)

(** A byte is an integer in [0, 256); [byte z] is Go's conversion [byte(z)]. *)
Abbreviation byte := (wrap_u 8).

Definition is_byte (b : Z) : Prop := 0 <= b < 256.
Definition is_bytes (l : list Z) : Prop := Forall is_byte l.

(** The [n] low-order bytes of [z], least significant first. *)
Fixpoint le_bytes (n : nat) (z : Z) : list Z :=
  match n with
  | O => []
  | S n' => byte z :: le_bytes n' (Z.shiftr z 8)
  end.

(** The unsigned integer a little-endian byte sequence denotes. *)
Fixpoint le_val (l : list Z) : Z :=
  match l with
  | [] => 0
  | b :: l' => b + 256 * le_val l'
  end.

Lemma zlen_le_bytes n z : zlen (le_bytes n z) = Z.of_nat n.
Proof.
  unfold zlen. f_equal. revert z. induction n; intros; simpl; [done|]. by rewrite IHn.
Qed.

Lemma le_val_le_bytes n z : le_val (le_bytes n z) = z mod 2 ^ (8 * Z.of_nat n).
Proof.
  revert z. induction n as [|n IH]; intros z; cbn [le_bytes le_val].
  - by rewrite Z.mod_1_r.
  - rewrite IH, Z.shiftr_div_pow2 by lia. unfold wrap_u.
    replace (8 * Z.of_nat (S n)) with (8 + 8 * Z.of_nat n) by lia.
    rewrite Z.pow_add_r by lia. change (2 ^ 8) with 256.
    rewrite Z.rem_mul_r by (try apply Z.pow_nonzero; lia). done.
Qed.

Lemma le_bytes_is_bytes n z : is_bytes (le_bytes n z).
Proof.
  revert z. induction n; intros; simpl; constructor; [|apply IHn].
  apply (wrap_u_range 8). lia.
Qed.

Lemma le_bytes_le_val l : is_bytes l -> le_bytes (length l) (le_val l) = l.
Proof.
  unfold is_bytes, is_byte. induction 1 as [|b l Hb Hl IH]; cbn [le_val le_bytes length]; [done|].
  f_equal.
  - unfold wrap_u. change (2 ^ 8) with 256. rewrite Z.mul_comm, Z.mod_add by lia.
    by apply Z.mod_small.
  - rewrite Z.shiftr_div_pow2 by lia. change (2 ^ 8) with 256.
    rewrite Z.mul_comm, Z.div_add by lia. rewrite (Z.div_small b) by lia. by rewrite Z.add_0_l.
Qed.

Lemma le_val_nonneg l : is_bytes l -> 0 <= le_val l < 256 ^ zlen l.
Proof.
  unfold is_bytes, is_byte. induction 1 as [|b l Hb Hl IH]; cbn [le_val].
  - split; [lia|done].
  - rewrite zlen_cons, Z.pow_add_r by (pose proof (zlen_nonneg l); lia). lia.
Qed.

Lemma le_bytes_wrap n z : le_bytes n (wrap_u (8 * Z.of_nat n) z) = le_bytes n z.
Proof.
  unfold wrap_u. rewrite <- le_val_le_bytes.
  rewrite <- (le_bytes_le_val (le_bytes n z) (le_bytes_is_bytes n z)) at 2.
  f_equal. pose proof (zlen_le_bytes n z). unfold zlen in *. lia.
Qed.

Lemma le_bytes_0 n : le_bytes n 0 = replicate n 0.
Proof.
  induction n as [|n IH]; [done|]. cbn [le_bytes replicate]. change (Z.shiftr 0 8) with 0.
  by rewrite IH.
Qed.

(** * Memory behind an [unsafe.Pointer] *)

(** A block is its list of bytes and a pointer into it is an offset from its first byte;
    [tools.AddPointer] adds in [uintptr] arithmetic. *)
Abbreviation mem := (list Z) (only parsing).

Definition AddPointer (pointer offset : Z) : Z := u64 (pointer + offset).

(** A load of [n] bytes; outside the block it is a [Fault]. *)
Definition load (m : mem) (p n : Z) : go (list Z) :=
  if bool_decide (0 <= p /\ p + n <= zlen m) then Ret (ztake n (zdrop p m)) else Fault.

(** Typed loads: dereferencing a pointer to [uintN] or [intN] on a little-endian machine. *)
Definition load_u (n : nat) (m : mem) (p : Z) : go Z := le_val <$> load m p (Z.of_nat n).
Definition load_s (n : nat) (m : mem) (p : Z) : go Z :=
  (fun l => wrap_s (8 * Z.of_nat n) (le_val l)) <$> load m p (Z.of_nat n).

Lemma AddPointer_small p off : 0 <= p + off < 2 ^ 64 -> AddPointer p off = p + off.
Proof. apply wrap_u_id. Qed.

Lemma load_mid (pre l post : list Z) p n :
  p = zlen pre -> n = zlen l -> load (pre ++ l ++ post) p n = Ret l.
Proof.
  intros -> ->. unfold load. pose proof (zlen_nonneg pre). pose proof (zlen_nonneg post).
  rewrite bool_decide_eq_true_2 by (rewrite !zlen_app; lia).
  by rewrite zdrop_app_len, ztake_app_len.
Qed.

Lemma load_u_mid n (pre post : list Z) p z :
  p = zlen pre -> load_u n (pre ++ le_bytes n z ++ post) p = Ret (wrap_u (8 * Z.of_nat n) z).
Proof.
  intros ->. unfold load_u. rewrite load_mid by (rewrite ?zlen_le_bytes; done).
  simpl. by rewrite le_val_le_bytes.
Qed.

Lemma load_s_mid n (pre post : list Z) p z :
  (0 < n)%nat -> p = zlen pre ->
  load_s n (pre ++ le_bytes n z ++ post) p = Ret (wrap_s (8 * Z.of_nat n) z).
Proof.
  intros Hn ->. unfold load_s. rewrite load_mid by (rewrite ?zlen_le_bytes; done).
  cbn [fmap go_fmap]. f_equal. rewrite le_val_le_bytes. apply wrap_s_mod. lia.
Qed.

(** Sequences of chunks of equal size, as columns and tables are laid out. *)
Lemma zlen_concat_size {A} s (chunks : list (list A)) :
  Forall (fun c => zlen c = s) chunks -> zlen (concat chunks) = zlen chunks * s.
Proof.
  induction 1 as [|c l Hc Hl IH]; [done|]. cbn [concat]. rewrite zlen_app, zlen_cons, IH. lia.
Qed.

Lemma concat_lookup_split {A} (chunks : list (list A)) i c :
  chunks !! i = Some c ->
  concat chunks = concat (take i chunks) ++ c ++ concat (drop (S i) chunks).
Proof.
  intros H. rewrite <- (take_drop_middle chunks i c H) at 1.
  by rewrite concat_app.
Qed.

Lemma load_chunk (pre post : list Z) chunks i c s p :
  chunks !! i = Some c -> Forall (fun c => zlen c = s) chunks ->
  p = zlen pre + Z.of_nat i * s ->
  load (pre ++ concat chunks ++ post) p s = Ret c.
Proof.
  intros Hi Hs ->. pose proof (lookup_lt_Some _ _ _ Hi) as Hlt.
  rewrite (concat_lookup_split _ _ _ Hi).
  rewrite <- !app_assoc, (app_assoc pre).
  apply load_mid.
  - rewrite zlen_app. rewrite (zlen_concat_size s) by (by apply Forall_take).
    unfold zlen at 3. rewrite length_take. f_equal. f_equal. lia.
  - symmetry. by eapply Forall_lookup_1 in Hs.
Qed.

Lemma zset_app_r {A} (pre l : list A) k x i :
  i = zlen pre + Z.of_nat k -> (k < length l)%nat ->
  zset (pre ++ l) i x = Ret (pre ++ <[k := x]> l).
Proof.
  intros -> Hk. rewrite zset_in by (rewrite zlen_app; unfold zlen; lia). f_equal.
  replace (Z.to_nat (zlen pre + Z.of_nat k)) with (length pre + k)%nat by (unfold zlen; lia).
  apply insert_app_r.
Qed.

Lemma zset_mid {A} (pre post : list A) x y i :
  i = zlen pre -> zset (pre ++ x :: post) i y = Ret (pre ++ y :: post).
Proof.
  intros ->. rewrite (zset_app_r pre (x :: post) 0) by (rewrite ?length_cons; lia). done.
Qed.

(** The same with the split of the list as a premise, closed by [list_assoc]. *)
Lemma zset_at {A} (l pre post : list A) x y i :
  l = pre ++ x :: post -> i = zlen pre -> zset l i y = Ret (pre ++ y :: post).
Proof. intros ->. apply zset_mid. Qed.

Lemma zput_at {A} (l pre old new post : list A) off :
  l = pre ++ old ++ post -> off = zlen pre -> zlen old = zlen new ->
  zput l off new = Ret (pre ++ new ++ post).
Proof. intros ->. apply zput_mid. Qed.

Lemma zcopy_at {A} (l pre old new post : list A) off :
  l = pre ++ old ++ post -> off = zlen pre -> zlen old = zlen new ->
  zcopy l off new = Ret (pre ++ new ++ post).
Proof. intros ->. apply zcopy_mid. Qed.

(** A number that was written stays where it is when only what follows it is written. *)
Lemma load_u_zput n (l l' : list Z) p z : zput l p (le_bytes n z) = Ret l' -> load_u n l' p = Ret (wrap_u (8 * Z.of_nat n) z).
Proof.
  unfold zput. case_bool_decide as H; [|done]. intros [= <-]. pose proof (zlen_nonneg (le_bytes n z)).
  apply load_u_mid. rewrite zlen_ztake; lia.
Qed.

Lemma load_u_prefix n (l rest : list Z) k p v :
  load_u n l p = Ret v -> p + Z.of_nat n <= k -> load_u n (ztake k l ++ rest) p = Ret v.
Proof.
  unfold load_u, load. case_bool_decide as H; [|done]. intros [= <-] Hk. pose proof (zlen_nonneg rest).
  assert (Hm : p + Z.of_nat n <= zlen (ztake k l)) by (unfold ztake, zlen in *; rewrite length_take; lia).
  rewrite bool_decide_eq_true_2 by (rewrite zlen_app; lia). simpl. do 2 f_equal.
  unfold ztake, zdrop, zlen in *. rewrite drop_app_le by lia. rewrite take_app_le by (rewrite length_drop; lia).
  rewrite !take_drop_commute, take_take. do 2 f_equal. lia.
Qed.

Lemma load_u_zput_after n (l l' bs : list Z) p off v :
  zput l off bs = Ret l' -> p + Z.of_nat n <= off -> load_u n l p = Ret v -> load_u n l' p = Ret v.
Proof. unfold zput. case_bool_decide; [|done]. intros [= <-] ? ?. by apply load_u_prefix. Qed.

Lemma load_u_zcopy_after n (l l' bs : list Z) p off v :
  zcopy l off bs = Ret l' -> p + Z.of_nat n <= off -> load_u n l p = Ret v -> load_u n l' p = Ret v.
Proof. unfold zcopy. case_bool_decide; [|done]. intros [= <-] ? ?. by apply load_u_prefix. Qed.

Lemma load_u_zset_after n (l l' : list Z) p off x v :
  zset l off x = Ret l' -> p + Z.of_nat n <= off -> load_u n l p = Ret v -> load_u n l' p = Ret v.
Proof.
  unfold zset. case_bool_decide as H; [|done]. intros [= <-] ? ?.
  rewrite insert_take_drop by (unfold zlen in H; lia). by apply (load_u_prefix n l _ off).
Qed.

(** Finds the write of a number below writes that follow it. *)
Ltac written :=
  first [by eapply (load_u_zput 8) | eapply load_u_zput_after; [eassumption|lia|written] |
         eapply load_u_zcopy_after; [eassumption|lia|written] | eapply load_u_zset_after; [eassumption|lia|written]].

Lemma load_at (l pre x post : list Z) p n :
  l = pre ++ x ++ post -> p = zlen pre -> n = zlen x -> load l p n = Ret x.
Proof. intros ->. apply load_mid. Qed.

(** Equality of concatenations up to associativity. *)
Ltac list_assoc :=
  repeat first [rewrite <- app_assoc | progress cbn [app]]; first [done | rewrite ?app_nil_r; done].

(** * Text *)

(** A Go string is its bytes. *)
Fixpoint bytes_of_string (s : string) : list Z :=
  match s with
  | EmptyString => []
  | String c s' => Z.of_nat (Ascii.nat_of_ascii c) :: bytes_of_string s'
  end.

(** * Strings *)

(** The bytes of an ASCII string literal. *)
Definition str (s : string) : list Z := (fun a => Z.of_nat (Ascii.nat_of_ascii a)) <$> String.list_ascii_of_string s.

(** * Automation *)

(** Lengths of lists built from others. *)
Create HintDb zlen.
#[export] Hint Rewrite @zlen_app @zlen_cons @zlen_nil @zlen_snoc @zlen_fmap : zlen.

(** Running a computation whose parts have returned. *)
Create HintDb go.
#[export] Hint Rewrite @go_bind_ret @go_bind_assoc : go.
#[export] Hint Resolve wrap_u_range wrap_s_range zlen_nonneg : go.
Ltac go_run := autorewrite with go; cbn [fst snd].
