(* ===== verification/Common.v ===== *)
(** * Common: constants, column types, dynamic values and time conversion

    Models [src/driver/common] ([const.go], [datatype.go], [column.go], [change.go]) and
    [src/driver/types/taostype.go]: the numeric type codes of TDengine, the maps between codes,
    names, widths and Go types, the Go values a [driver.Value] (an empty interface) can hold, and
    the conversion between timestamps and [time.Time]. *)
From S2P Require Import Prelude.
#[local] Open Scope Z_scope.

(** ** Type codes ([datatype.go]) *)

Definition TSDB_DATA_TYPE_NULL : Z := 0.
Definition TSDB_DATA_TYPE_BOOL : Z := 1.
Definition TSDB_DATA_TYPE_TINYINT : Z := 2.
Definition TSDB_DATA_TYPE_SMALLINT : Z := 3.
Definition TSDB_DATA_TYPE_INT : Z := 4.
Definition TSDB_DATA_TYPE_BIGINT : Z := 5.
Definition TSDB_DATA_TYPE_FLOAT : Z := 6.
Definition TSDB_DATA_TYPE_DOUBLE : Z := 7.
Definition TSDB_DATA_TYPE_BINARY : Z := 8.
Definition TSDB_DATA_TYPE_TIMESTAMP : Z := 9.
Definition TSDB_DATA_TYPE_NCHAR : Z := 10.
Definition TSDB_DATA_TYPE_UTINYINT : Z := 11.
Definition TSDB_DATA_TYPE_USMALLINT : Z := 12.
Definition TSDB_DATA_TYPE_UINT : Z := 13.
Definition TSDB_DATA_TYPE_UBIGINT : Z := 14.
Definition TSDB_DATA_TYPE_JSON : Z := 15.
Definition TSDB_DATA_TYPE_VARBINARY : Z := 16.
Definition TSDB_DATA_TYPE_DECIMAL : Z := 17.
Definition TSDB_DATA_TYPE_BLOB : Z := 18.
Definition TSDB_DATA_TYPE_MEDIUMBLOB : Z := 19.
Definition TSDB_DATA_TYPE_GEOMETRY : Z := 20.

(** A Go map literal is its list of entries; reading a missing key gives the zero value. *)
Fixpoint map_get {K V} `{EqDecision K} (m : list (K * V)) (k : K) : option V :=
  match m with
  | [] => None
  | (k', v) :: m' => if decide (k = k') then Some v else map_get m' k
  end.

Lemma map_get_In {K V} `{EqDecision K} (m : list (K * V)) k v : map_get m k = Some v -> In (k, v) m.
Proof.
  induction m as [|[k' v'] m IH]; simpl; [discriminate|].
  case_decide; intros; simplify_eq; auto.
Qed.

Definition TypeLengthMap : list (Z * Z) :=
  [ (TSDB_DATA_TYPE_NULL, 1); (TSDB_DATA_TYPE_BOOL, 1); (TSDB_DATA_TYPE_TINYINT, 1);
    (TSDB_DATA_TYPE_SMALLINT, 2); (TSDB_DATA_TYPE_INT, 4); (TSDB_DATA_TYPE_BIGINT, 8);
    (TSDB_DATA_TYPE_FLOAT, 4); (TSDB_DATA_TYPE_DOUBLE, 8); (TSDB_DATA_TYPE_TIMESTAMP, 8);
    (TSDB_DATA_TYPE_UTINYINT, 1); (TSDB_DATA_TYPE_USMALLINT, 2); (TSDB_DATA_TYPE_UINT, 4);
    (TSDB_DATA_TYPE_UBIGINT, 8) ].

(** [common.TypeLengthMap[t]]. *)
Definition TypeLength (t : Z) : Z := default 0 (map_get TypeLengthMap t).

Definition TypeNameMap : list (Z * string) :=
  [ (TSDB_DATA_TYPE_NULL, "NULL"); (TSDB_DATA_TYPE_BOOL, "BOOL");
    (TSDB_DATA_TYPE_TINYINT, "TINYINT"); (TSDB_DATA_TYPE_SMALLINT, "SMALLINT");
    (TSDB_DATA_TYPE_INT, "INT"); (TSDB_DATA_TYPE_BIGINT, "BIGINT");
    (TSDB_DATA_TYPE_FLOAT, "FLOAT"); (TSDB_DATA_TYPE_DOUBLE, "DOUBLE");
    (TSDB_DATA_TYPE_BINARY, "VARCHAR"); (TSDB_DATA_TYPE_TIMESTAMP, "TIMESTAMP");
    (TSDB_DATA_TYPE_NCHAR, "NCHAR"); (TSDB_DATA_TYPE_UTINYINT, "TINYINT UNSIGNED");
    (TSDB_DATA_TYPE_USMALLINT, "SMALLINT UNSIGNED"); (TSDB_DATA_TYPE_UINT, "INT UNSIGNED");
    (TSDB_DATA_TYPE_UBIGINT, "BIGINT UNSIGNED"); (TSDB_DATA_TYPE_JSON, "JSON");
    (TSDB_DATA_TYPE_VARBINARY, "VARBINARY"); (TSDB_DATA_TYPE_GEOMETRY, "GEOMETRY") ]%string.

Definition NameTypeMap : list (string * Z) :=
  [ ("NULL", TSDB_DATA_TYPE_NULL); ("BOOL", TSDB_DATA_TYPE_BOOL);
    ("TINYINT", TSDB_DATA_TYPE_TINYINT); ("SMALLINT", TSDB_DATA_TYPE_SMALLINT);
    ("INT", TSDB_DATA_TYPE_INT); ("BIGINT", TSDB_DATA_TYPE_BIGINT);
    ("FLOAT", TSDB_DATA_TYPE_FLOAT); ("DOUBLE", TSDB_DATA_TYPE_DOUBLE);
    ("VARCHAR", TSDB_DATA_TYPE_BINARY); ("TIMESTAMP", TSDB_DATA_TYPE_TIMESTAMP);
    ("NCHAR", TSDB_DATA_TYPE_NCHAR); ("TINYINT UNSIGNED", TSDB_DATA_TYPE_UTINYINT);
    ("SMALLINT UNSIGNED", TSDB_DATA_TYPE_USMALLINT); ("INT UNSIGNED", TSDB_DATA_TYPE_UINT);
    ("BIGINT UNSIGNED", TSDB_DATA_TYPE_UBIGINT); ("JSON", TSDB_DATA_TYPE_JSON);
    ("VARBINARY", TSDB_DATA_TYPE_VARBINARY); ("GEOMETRY", TSDB_DATA_TYPE_GEOMETRY) ]%string.

(** ** Go types and dynamic values ([types/taostype.go], [column.go]) *)

(** The [reflect.Type]s the code compares: the bind types of [taostype.go] and the scan types of
    [column.go]. *)
Inductive rtype : Type :=
| TaosBoolType | TaosTinyintType | TaosSmallintType | TaosIntType | TaosBigintType
| TaosUTinyintType | TaosUSmallintType | TaosUIntType | TaosUBigintType
| TaosFloatType | TaosDoubleType | TaosBinaryType | TaosVarBinaryType | TaosNcharType
| TaosTimestampType | TaosJsonType | TaosGeometryType
| NullInt8Type | NullInt16Type | NullInt32Type | NullInt64Type
| NullUInt8Type | NullUInt16Type | NullUInt32Type | NullUInt64Type
| NullFloat32Type | NullFloat64Type | NullTimeType | NullBoolType | NullStringType
| BytesType | NullJsonType.

#[export] Instance rtype_eq_dec : EqDecision rtype.
Proof. solve_decision. Defined.

(** [types.ColumnType]. *)
Record ColumnType := mkColumnType { ct_Type : rtype; ct_MaxLen : Z }.

(** [common.ColumnTypeMap]. *)
Definition ColumnTypeMap : list (Z * rtype) :=
  [ (TSDB_DATA_TYPE_BOOL, NullBoolType); (TSDB_DATA_TYPE_TINYINT, NullInt8Type);
    (TSDB_DATA_TYPE_SMALLINT, NullInt16Type); (TSDB_DATA_TYPE_INT, NullInt32Type);
    (TSDB_DATA_TYPE_BIGINT, NullInt64Type); (TSDB_DATA_TYPE_UTINYINT, NullUInt8Type);
    (TSDB_DATA_TYPE_USMALLINT, NullUInt16Type); (TSDB_DATA_TYPE_UINT, NullUInt32Type);
    (TSDB_DATA_TYPE_UBIGINT, NullUInt64Type); (TSDB_DATA_TYPE_FLOAT, NullFloat32Type);
    (TSDB_DATA_TYPE_DOUBLE, NullFloat64Type); (TSDB_DATA_TYPE_BINARY, NullStringType);
    (TSDB_DATA_TYPE_NCHAR, NullStringType); (TSDB_DATA_TYPE_TIMESTAMP, NullTimeType);
    (TSDB_DATA_TYPE_JSON, NullJsonType); (TSDB_DATA_TYPE_VARBINARY, BytesType);
    (TSDB_DATA_TYPE_GEOMETRY, BytesType) ].

(** A [driver.Value] with its dynamic type.  Integers are within their type's range (see
    [value_ok]), floats are their IEEE bit patterns ([math.Float32bits]), strings and byte slices
    are byte lists, and a [time.Time] is its instant in nanoseconds since the Unix epoch. *)
Inductive value : Type :=
| VNil
| VBool (b : bool)
| VInt8 (z : Z) | VInt16 (z : Z) | VInt32 (z : Z) | VInt64 (z : Z)
| VUint8 (z : Z) | VUint16 (z : Z) | VUint32 (z : Z) | VUint64 (z : Z)
| VFloat32 (bits : Z) | VFloat64 (bits : Z)
| VString (s : list Z) | VBytes (s : list Z) | VTime (t : Z) | VRawMessage (s : list Z)
| TaosBool (b : bool)
| TaosTinyint (z : Z) | TaosSmallint (z : Z) | TaosInt (z : Z) | TaosBigint (z : Z)
| TaosUTinyint (z : Z) | TaosUSmallint (z : Z) | TaosUInt (z : Z) | TaosUBigint (z : Z)
| TaosFloat (bits : Z) | TaosDouble (bits : Z)
| TaosBinary (s : list Z) | TaosVarBinary (s : list Z) | TaosNchar (s : list Z)
| TaosTimestamp (t : Z) (precision : Z)
| TaosJson (s : list Z) | TaosGeometry (s : list Z).

#[export] Instance value_eq_dec : EqDecision value.
Proof. solve_decision. Defined.

(** The value [nil] of the empty interface. *)
Definition is_nil (v : value) : bool := match v with VNil => true | _ => false end.

(** What Go's type system guarantees of a value: integers and bit patterns of their width,
    strings made of bytes. *)
Definition value_ok (v : value) : Prop :=
  match v with
  | VInt8 z | TaosTinyint z => in_s 8 z
  | VInt16 z | TaosSmallint z => in_s 16 z
  | VInt32 z | TaosInt z => in_s 32 z
  | VInt64 z | TaosBigint z => in_s 64 z
  | VUint8 z | TaosUTinyint z => in_u 8 z
  | VUint16 z | TaosUSmallint z => in_u 16 z
  | VUint32 z | TaosUInt z | VFloat32 z | TaosFloat z => in_u 32 z
  | VUint64 z | TaosUBigint z | VFloat64 z | TaosDouble z => in_u 64 z
  | VString s | VBytes s | VRawMessage s | TaosBinary s | TaosVarBinary s | TaosNchar s
  | TaosJson s | TaosGeometry s => is_bytes s
  | _ => True
  end.

(** ** Time ([change.go]) *)

Definition PrecisionMilliSecond : Z := 0.
Definition PrecisionMicroSecond : Z := 1.
Definition PrecisionNanoSecond : Z := 2.

(** [time.Unix(sec, nsec)]: the instant, with the nanoseconds normalised into the seconds. *)
Definition time_Unix (sec nsec : Z) : Z := sec * 1000000000 + nsec.

(** [t.UnixNano()] is an [int64]: it wraps for instants too far from the epoch. *)
Definition UnixNano (t : Z) : Z := i64 t.

Definition TimestampConvertToTime (timestamp precision : Z) : go Z :=
  if decide (precision = PrecisionMilliSecond) then Ret (time_Unix 0 (i64 (timestamp * 1000000)))
  else if decide (precision = PrecisionMicroSecond) then Ret (time_Unix 0 (i64 (timestamp * 1000)))
  else if decide (precision = PrecisionNanoSecond) then Ret (time_Unix 0 timestamp)
  else Panic.

(** Go's integer division truncates towards zero. *)
Definition TimeToTimestamp (t precision : Z) : go Z :=
  if decide (precision = PrecisionMilliSecond) then Ret (Z.quot (UnixNano t) 1000000)
  else if decide (precision = PrecisionMicroSecond) then Ret (Z.quot (UnixNano t) 1000)
  else if decide (precision = PrecisionNanoSecond) then Ret (UnixNano t)
  else Panic.

(** Nanoseconds per tick of a precision. *)
Definition tick (precision : Z) : Z :=
  if decide (precision = PrecisionMilliSecond) then 1000000
  else if decide (precision = PrecisionMicroSecond) then 1000 else 1.

Definition precision_ok (precision : Z) : Prop := 0 <= precision <= 2.

Lemma precision_cases p : precision_ok p -> p = 0 \/ p = 1 \/ p = 2.
Proof. unfold precision_ok. lia. Qed.

Lemma TimestampConvertToTime_ok ts p :
  precision_ok p -> in_s 64 (ts * tick p) -> TimestampConvertToTime ts p = Ret (ts * tick p).
Proof.
  intros Hp Hr. unfold TimestampConvertToTime, tick, time_Unix in *.
  destruct (precision_cases p Hp) as [->|[->| ->]]; simpl in *;
    rewrite ?wrap_s_id by (done || lia); f_equal; lia.
Qed.

Lemma TimeToTimestamp_tick ts p :
  precision_ok p -> in_s 64 (ts * tick p) -> TimeToTimestamp (ts * tick p) p = Ret ts.
Proof.
  intros Hp Hr. unfold TimeToTimestamp, UnixNano. rewrite wrap_s_id by (done || lia).
  unfold tick in *. destruct (precision_cases p Hp) as [->|[->| ->]]; simpl in *.
  - by rewrite Z.quot_mul by lia.
  - by rewrite Z.quot_mul by lia.
  - f_equal; lia.
Qed.

(** [TimeToTimestamp] always fits an [int64] (its result is a field of a block). *)
Lemma TimeToTimestamp_range t p ts : TimeToTimestamp t p = Ret ts -> in_s 64 ts.
Proof.
  unfold TimeToTimestamp, UnixNano. pose proof (wrap_s_range 64 t ltac:(lia)) as H.
  repeat case_decide; intros [= <-]; Z.to_euclidean_division_equations; range_lia.
Qed.

(** Timestamps survive the conversion to an instant and back, in every precision, as long as
    the instant is representable in nanoseconds. *)
Theorem TimeToTimestamp_TimestampConvertToTime ts p :
  precision_ok p -> in_s 64 (ts * tick p) ->
  exists t, TimestampConvertToTime ts p = Ret t /\ t = ts * tick p /\ TimeToTimestamp t p = Ret ts.
Proof.
  intros Hp Hr. exists (ts * tick p). split; [by apply TimestampConvertToTime_ok|]. split; [done|].
  by apply TimeToTimestamp_tick.
Qed.

Lemma TimeToTimestamp_TimestampConvertToTime_witness :
  exists t, TimestampConvertToTime 1700000000123 PrecisionMilliSecond = Ret t /\
    t = 1700000000123 * tick PrecisionMilliSecond /\ TimeToTimestamp t PrecisionMilliSecond = Ret 1700000000123.
Proof.
  apply (TimeToTimestamp_TimestampConvertToTime 1700000000123 PrecisionMilliSecond).
  - unfold precision_ok, PrecisionMilliSecond. lia.
  - split; vm_compute; [discriminate|reflexivity].
Defined.

(** Outside that range the conversion is wrong: one millisecond past the last instant that
    fits (in April 2262) a timestamp of millisecond precision becomes an instant before the epoch,
    because the multiplication to nanoseconds wraps; the same instant is representable as a
    [time.Time], as the seconds and nanoseconds of [time.Unix]. *)
Theorem TimestampConvertToTime_wraps :
  exists ts t, 0 < ts /\ in_s 64 ts /\ TimestampConvertToTime ts PrecisionMilliSecond = Ret t /\ t < 0 /\
    time_Unix (Z.quot ts 1000) (Z.rem ts 1000 * 1000000) = ts * tick PrecisionMilliSecond.
Proof.
  exists 9223372036855, (-9223372036854551616). split; [lia|]. split; [split; vm_compute; [discriminate|reflexivity]|].
  split; [vm_compute; reflexivity|]. split; [lia|]. vm_compute. reflexivity.
Qed.

(** The tables of type names are inverse to each other and have the same types: a type code
    has a name exactly when that name is mapped back to the code. *)
Theorem TypeNameMap_NameTypeMap t name : map_get TypeNameMap t = Some name <-> map_get NameTypeMap name = Some t.
Proof.
  assert (H1 : Forall (fun e => map_get NameTypeMap (snd e) = Some (fst e)) TypeNameMap) by (by repeat constructor).
  assert (H2 : Forall (fun e => map_get TypeNameMap (snd e) = Some (fst e)) NameTypeMap) by (by repeat constructor).
  rewrite List.Forall_forall in H1. rewrite List.Forall_forall in H2. split; intros E%map_get_In.
  - exact (H1 (t, name) E).
  - exact (H2 (name, t) E).
Qed.
