(* ===== verification/Utf8.v ===== *)
(** * Utf8: Go's conversions between strings and runes

    Go's [[]rune(s)], [string(runes)] and [utf8.AppendRune], as the block serializer, the block
    parser and the JSON builder use them for NCHAR data.  A rune is an integer; a string is its
    bytes. *)
From S2P Require Import Prelude.
#[local] Open Scope Z_scope.

Definition RuneError : Z := 65533.   (* U+FFFD *)
Definition MaxRune : Z := 1114111.   (* U+10FFFF *)

(** Unicode scalar values: the runes that have a UTF-8 encoding. *)
Definition is_scalar (r : Z) : bool :=
  (0 <=? r) && (r <=? MaxRune) && negb ((55296 <=? r) && (r <=? 57343)).

(** The UTF-8 encoding of a scalar value. *)
Definition encode_scalar (r : Z) : list Z :=
  if r <=? 127 then [r]
  else if r <=? 2047 then [192 + r / 64; 128 + r mod 64]
  else if r <=? 65535 then [224 + r / 4096; 128 + (r / 64) mod 64; 128 + r mod 64]
  else [240 + r / 262144; 128 + (r / 4096) mod 64; 128 + (r / 64) mod 64; 128 + r mod 64].

(** [utf8.AppendRune]: runes without an encoding become U+FFFD. *)
Definition encode_rune (r : Z) : list Z :=
  encode_scalar (if is_scalar r then r else RuneError).

(** [string(rs)] for a rune slice. *)
Definition string_of_runes (rs : list Z) : list Z := concat (encode_rune <$> rs).

Definition in_range (lo b hi : Z) : bool := (lo <=? b) && (b <=? hi).

(** [utf8.DecodeRune]: the first rune of a non-empty string and the bytes it takes; a byte that
    does not start a shortest-form encoding of a scalar value is [RuneError] of width one. *)
Definition decode_rune (s : list Z) : Z * nat :=
  match s with
  | [] => (RuneError, 0%nat)
  | b0 :: s1 =>
    if b0 <? 128 then (b0, 1%nat)
    else match s1 with
    | [] => (RuneError, 1%nat)
    | b1 :: s2 =>
      if in_range 194 b0 223 then
        if in_range 128 b1 191 then ((b0 - 192) * 64 + (b1 - 128), 2%nat) else (RuneError, 1%nat)
      else match s2 with
      | [] => (RuneError, 1%nat)
      | b2 :: s3 =>
        if in_range 224 b0 239 then
          if in_range (if b0 =? 224 then 160 else 128) b1 (if b0 =? 237 then 159 else 191)
             && in_range 128 b2 191
          then ((b0 - 224) * 4096 + (b1 - 128) * 64 + (b2 - 128), 3%nat)
          else (RuneError, 1%nat)
        else match s3 with
        | [] => (RuneError, 1%nat)
        | b3 :: _ =>
          if in_range 240 b0 244
             && in_range (if b0 =? 240 then 144 else 128) b1 (if b0 =? 244 then 143 else 191)
             && in_range 128 b2 191 && in_range 128 b3 191
          then ((b0 - 240) * 262144 + (b1 - 128) * 4096 + (b2 - 128) * 64 + (b3 - 128), 4%nat)
          else (RuneError, 1%nat)
        end
      end
    end
  end.

(** [[]rune(s)]; [skip] counts the bytes of the current rune still to be passed over. *)
Fixpoint runes_from (skip : nat) (s : list Z) : list Z :=
  match s with
  | [] => []
  | _ :: s' =>
    match skip with
    | S k => runes_from k s'
    | O => let '(r, n) := decode_rune s in r :: runes_from (Nat.pred n) s'
    end
  end.

Definition runes (s : list Z) : list Z := runes_from 0 s.

Lemma encode_scalar_width r :
  is_scalar r = true -> exists b s, encode_scalar r = b :: s /\ (length s <= 3)%nat.
Proof. intros. unfold encode_scalar. repeat case_match; eexists _, _; split; eauto; simpl; lia. Qed.

Lemma decode_encode r s :
  is_scalar r = true ->
  decode_rune (encode_scalar r ++ s) = (r, length (encode_scalar r)).
Proof.
  unfold is_scalar, encode_scalar, MaxRune. intros H.
  destruct (r <=? 127) eqn:E1; [|destruct (r <=? 2047) eqn:E2; [|destruct (r <=? 65535) eqn:E3]];
    cbn [app length decode_rune]; unfold in_range.
  - by replace (r <? 128) with true by lia.
  - replace (192 + r / 64 <? 128) with false by div_lia.
    replace (_ && _) with true by div_lia.
    replace (_ && _) with true by div_lia. f_equal. div_lia.
  - replace (224 + r / 4096 <? 128) with false by div_lia.
    replace ((194 <=? 224 + r / 4096) && _) with false by div_lia.
    replace ((224 <=? 224 + r / 4096) && _) with true by div_lia.
    assert (Hlo : (if 224 + r / 4096 =? 224 then 160 else 128) <= 128 + (r / 64) mod 64).
    { destruct (_ =? 224) eqn:E; div_lia. }
    assert (Hhi : 128 + (r / 64) mod 64 <= (if 224 + r / 4096 =? 237 then 159 else 191)).
    { destruct (_ =? 237) eqn:E; div_lia. }
    replace (_ && _ && _) with true by div_lia. f_equal. div_lia.
  - replace (240 + r / 262144 <? 128) with false by div_lia.
    replace ((194 <=? 240 + r / 262144) && _) with false by div_lia.
    replace ((224 <=? 240 + r / 262144) && _) with false by div_lia.
    assert (Hlo : (if 240 + r / 262144 =? 240 then 144 else 128) <= 128 + (r / 4096) mod 64).
    { destruct (_ =? 240) eqn:E; div_lia. }
    assert (Hhi : 128 + (r / 4096) mod 64 <= (if 240 + r / 262144 =? 244 then 143 else 191)).
    { destruct (_ =? 244) eqn:E; div_lia. }
    assert (H0 : 240 <= 240 + r / 262144 <= 244) by div_lia.
    replace (_ && _ && _ && _) with true by div_lia. f_equal. div_lia.
Qed.

Lemma runes_from_skip k s t : length s = k -> runes_from k (s ++ t) = runes_from 0 t.
Proof.
  revert k. induction s as [|b s IH]; intros k <-; simpl; [done|]. by apply IH.
Qed.

Lemma encode_rune_scalar r : is_scalar r = true -> encode_rune r = encode_scalar r.
Proof. intros H. unfold encode_rune. by rewrite H. Qed.

(** Decoding the encoding of scalar values gives them back. *)
Lemma runes_string_of_runes rs :
  Forall (fun r => is_scalar r = true) rs -> runes (string_of_runes rs) = rs.
Proof.
  unfold runes, string_of_runes. induction 1 as [|r rs Hr Hrs IH]; [done|].
  cbn [fmap list_fmap concat]. rewrite encode_rune_scalar by done.
  destruct (encode_scalar_width r Hr) as (b & s & E & _).
  pose proof (decode_encode r (concat (encode_rune <$> rs)) Hr) as Hd.
  rewrite E in Hd |- *. cbn [app runes_from]. cbn [app] in Hd. rewrite Hd. f_equal.
  cbn [length Nat.pred]. by rewrite runes_from_skip.
Qed.

(** A string is valid UTF-8 when it is the encoding of scalar values. *)
Definition valid_utf8 (s : list Z) : Prop :=
  exists rs, Forall (fun r => is_scalar r = true) rs /\ s = string_of_runes rs.

Lemma string_of_runes_runes s : valid_utf8 s -> string_of_runes (runes s) = s.
Proof. intros (rs & Hrs & ->). by rewrite runes_string_of_runes. Qed.

Lemma encode_scalar_bytes r : is_scalar r = true -> is_bytes (encode_scalar r).
Proof.
  unfold is_scalar, encode_scalar, MaxRune, is_bytes, is_byte. intros H.
  repeat case_match; repeat constructor; div_lia.
Qed.

Lemma encode_rune_bytes r : is_bytes (encode_rune r).
Proof.
  apply encode_scalar_bytes. destruct (is_scalar r) eqn:E; [done|reflexivity].
Qed.

(** Every rune decoded from a string is a scalar value. *)
Lemma decode_rune_scalar s : is_bytes s -> is_scalar (fst (decode_rune s)) = true.
Proof.
  unfold is_bytes, is_byte. intros Hs. destruct s as [|b0 s]; [done|]. cbn [decode_rune].
  apply Forall_cons_1 in Hs as [H0 Hs]. unfold in_range.
  destruct (b0 <? 128) eqn:E0; [simpl; unfold is_scalar, MaxRune; lia|].
  destruct s as [|b1 s]; [done|].
  destruct ((194 <=? b0) && _) eqn:E1.
  { case_if E2; [simpl; unfold is_scalar, MaxRune; lia|done]. }
  destruct s as [|b2 s]; [done|].
  destruct ((224 <=? b0) && _) eqn:E3.
  { destruct ((_ <=? b1) && _ && _) eqn:E4; [|done]. simpl. unfold is_scalar, MaxRune.
    destruct (b0 =? 224) eqn:?, (b0 =? 237) eqn:?; lia. }
  destruct s as [|b3 s]; [done|].
  destruct ((_ <=? b0) && _ && _ && _ && _) eqn:E4; [|done]. simpl. unfold is_scalar, MaxRune.
  destruct (b0 =? 240) eqn:?, (b0 =? 244) eqn:?; lia.
Qed.

Lemma runes_from_scalar k s : is_bytes s -> Forall (fun r => is_scalar r = true) (runes_from k s).
Proof.
  intros Hs. revert k. induction Hs as [|b s Hb Hs IH]; intros k; [constructor|].
  cbn [runes_from]. destruct k as [|k]; [|apply IH].
  pose proof (decode_rune_scalar (b :: s) ltac:(by constructor)) as Hd.
  destruct (decode_rune (b :: s)) as [r n]. constructor; [done|apply IH].
Qed.

Lemma runes_scalar s : is_bytes s -> Forall (fun r => is_scalar r = true) (runes s).
Proof. apply runes_from_scalar. Qed.

Example runes_ex : runes [104; 195; 169; 228; 184; 173; 240; 159; 152; 128; 255]
                   = [104; 233; 20013; 128512; RuneError].
Proof. reflexivity. Qed.
