(* ===== verification/RawBlock.v ===== *)
(** * RawBlock: reading a result block

    Models [src/driver/common/parser/block.go] (and [src/tools/parseblock/parse.go], which frames
    it): the accessors of the block header, the null bitmap, the per-type conversions and the
    three traversals [ReadBlock], [ReadRow] and [ReadBlockWithTimeFormat].

    A block is a byte list [m]; the [unsafe.Pointer] argument [block] is an offset into it.  A
    column is laid out as a header (null bitmap, or one [int32] offset per row for variable-length
    types) at [pHeader] followed by its data at [pStart]. *)
From S2P Require Import Prelude Common Utf8.
#[local] Open Scope Z_scope.

(** ** Header accessors *)

Definition Int8Size : Z := 1.
Definition Int16Size : Z := 2.
Definition Int32Size : Z := 4.
Definition Int64Size : Z := 8.
Definition UInt8Size : Z := 1.
Definition UInt16Size : Z := 2.
Definition UInt32Size : Z := 4.
Definition UInt64Size : Z := 8.
Definition Float32Size : Z := 4.
Definition Float64Size : Z := 8.

Definition ColInfoSize : Z := Int8Size + Int32Size.
Definition RawBlockVersionOffset : Z := 0.
Definition RawBlockLengthOffset : Z := RawBlockVersionOffset + Int32Size.
Definition NumOfRowsOffset : Z := RawBlockLengthOffset + Int32Size.
Definition NumOfColsOffset : Z := NumOfRowsOffset + Int32Size.
Definition HasColumnSegmentOffset : Z := NumOfColsOffset + Int32Size.
Definition GroupIDOffset : Z := HasColumnSegmentOffset + Int32Size.
Definition ColInfoOffset : Z := GroupIDOffset + UInt64Size.

Definition RawBlockGetVersion (m : mem) (rawBlock : Z) : go Z :=
  load_s 4 m (AddPointer rawBlock RawBlockVersionOffset).
Definition RawBlockGetLength (m : mem) (rawBlock : Z) : go Z :=
  load_s 4 m (AddPointer rawBlock RawBlockLengthOffset).
Definition RawBlockGetNumOfRows (m : mem) (rawBlock : Z) : go Z :=
  load_s 4 m (AddPointer rawBlock NumOfRowsOffset).
Definition RawBlockGetNumOfCols (m : mem) (rawBlock : Z) : go Z :=
  load_s 4 m (AddPointer rawBlock NumOfColsOffset).
Definition RawBlockGetHasColumnSegment (m : mem) (rawBlock : Z) : go Z :=
  load_s 4 m (AddPointer rawBlock HasColumnSegmentOffset).
Definition RawBlockGetGroupID (m : mem) (rawBlock : Z) : go Z :=
  load_u 8 m (AddPointer rawBlock GroupIDOffset).

Record RawBlockColInfo := mkRawBlockColInfo { ci_ColType : Z; ci_Bytes : Z }.

(** Fills the [infos] slice in place; only its length matters on entry. *)
Definition RawBlockGetColInfo (m : mem) (rawBlock : Z) (infos : list RawBlockColInfo)
  : go (list RawBlockColInfo) :=
  for_upto (zlen infos) (fun i infos =>
    let offset := ColInfoOffset + ColInfoSize * i in
    ty ← load_s 1 m (AddPointer rawBlock offset);
    bytes ← load_s 4 m (AddPointer rawBlock (offset + Int8Size));
    zset infos i (mkRawBlockColInfo ty bytes)) infos.

Definition RawBlockGetColumnLengthOffset (colCount : Z) : Z :=
  u64 (ColInfoOffset + colCount * ColInfoSize).
Definition RawBlockGetColDataOffset (colCount : Z) : Z :=
  u64 (ColInfoOffset + colCount * ColInfoSize + colCount * Int32Size).

(** ** Null bitmap *)

Definition IsVarDataType (colType : Z) : bool :=
  (colType =? TSDB_DATA_TYPE_BINARY) || (colType =? TSDB_DATA_TYPE_NCHAR) ||
  (colType =? TSDB_DATA_TYPE_JSON) || (colType =? TSDB_DATA_TYPE_VARBINARY) ||
  (colType =? TSDB_DATA_TYPE_GEOMETRY).

Definition BitmapLen (n : Z) : Z := Z.shiftr (n + (Z.shiftl 1 3 - 1)) 3.
Definition BitPos (n : Z) : Z := Z.land n (Z.shiftl 1 3 - 1).
Definition CharOffset (n : Z) : Z := Z.shiftr n 3.
Definition BMIsNull (c n : Z) : bool :=
  Z.land c (Z.shiftl 1 (7 - BitPos n)) =? Z.shiftl 1 (7 - BitPos n).

Definition ItemIsNull (m : mem) (pHeader row : Z) : go bool :=
  let offset := CharOffset row in
  c ← load_u 1 m (AddPointer pHeader offset);
  Ret (BMIsNull c row).

(** ** Conversions of one item *)

Definition rawConvertBool (m : mem) (pStart row : Z) : go value :=
  b ← load_u 1 m (AddPointer pStart (row * 1)); Ret (VBool (negb (b =? 0))).
Definition rawConvertTinyint (m : mem) (pStart row : Z) : go value :=
  VInt8 <$> load_s 1 m (AddPointer pStart (row * Int8Size)).
Definition rawConvertSmallint (m : mem) (pStart row : Z) : go value :=
  VInt16 <$> load_s 2 m (AddPointer pStart (row * Int16Size)).
Definition rawConvertInt (m : mem) (pStart row : Z) : go value :=
  VInt32 <$> load_s 4 m (AddPointer pStart (row * Int32Size)).
Definition rawConvertBigint (m : mem) (pStart row : Z) : go value :=
  VInt64 <$> load_s 8 m (AddPointer pStart (row * Int64Size)).
Definition rawConvertUTinyint (m : mem) (pStart row : Z) : go value :=
  VUint8 <$> load_u 1 m (AddPointer pStart (row * UInt8Size)).
Definition rawConvertUSmallint (m : mem) (pStart row : Z) : go value :=
  VUint16 <$> load_u 2 m (AddPointer pStart (row * UInt16Size)).
Definition rawConvertUInt (m : mem) (pStart row : Z) : go value :=
  VUint32 <$> load_u 4 m (AddPointer pStart (row * UInt32Size)).
Definition rawConvertUBigint (m : mem) (pStart row : Z) : go value :=
  VUint64 <$> load_u 8 m (AddPointer pStart (row * UInt64Size)).
Definition rawConvertFloat (m : mem) (pStart row : Z) : go value :=
  VFloat32 <$> load_u 4 m (AddPointer pStart (row * Float32Size)).
Definition rawConvertDouble (m : mem) (pStart row : Z) : go value :=
  VFloat64 <$> load_u 8 m (AddPointer pStart (row * Float64Size)).

(** [FormatTimeFunc]. *)
Definition FormatTimeFunc : Type := Z -> Z -> value.

(** The variadic argument: the precision, then possibly a format function. *)
Definition convert_args : Type := Z * option FormatTimeFunc.

Definition rawConvertTime (m : mem) (pStart row : Z) (arg : convert_args) : go value :=
  match arg with
  | (precision, None) =>
    ts ← load_s 8 m (AddPointer pStart (row * Int64Size));
    VTime <$> TimestampConvertToTime ts precision
  | (precision, Some f) =>
    ts ← load_s 8 m (AddPointer pStart (row * Int64Size));
    Ret (f ts precision)
  end.

(** [Copy(source, data, 0, length)] into a fresh slice of [length] bytes. *)
Definition Copy (m : mem) (source length : Z) : go (list Z) := load m source length.

(** [None] is the nil slice. *)
Definition rawGetBytes (m : mem) (pHeader pStart row : Z) : go (option (list Z)) :=
  offset ← load_s 4 m (AddPointer pHeader (row * 4));
  if offset =? -1 then Ret None
  else
    let currentRow := AddPointer pStart offset in
    clen ← load_u 2 m currentRow;
    if clen =? 0 then Ret (Some [])
    else
      let currentRow := AddPointer currentRow 2 in
      Some <$> Copy m currentRow clen.

Definition rawConvertVarBinary (m : mem) (pHeader pStart row : Z) : go value :=
  result ← rawGetBytes m pHeader pStart row;
  match result with None => Ret VNil | Some b => Ret (VBytes b) end.

Definition rawConvertGeometry := rawConvertVarBinary.

Definition rawConvertBinary (m : mem) (pHeader pStart row : Z) : go value :=
  result ← rawGetBytes m pHeader pStart row;
  match result with None => Ret VNil | Some b => Ret (VString b) end.

(** The byte index [index*4] is computed in [uint16]. *)
Definition rawConvertNchar (m : mem) (pHeader pStart row : Z) : go value :=
  offset ← load_s 4 m (AddPointer pHeader (row * 4));
  if offset =? -1 then Ret VNil
  else
    let currentRow := AddPointer pStart offset in
    l ← load_u 2 m currentRow;
    let clen := l / 4 in
    if clen =? 0 then Ret (VString [])
    else
      let currentRow := AddPointer currentRow 2 in
      binaryVal ← for_upto clen (fun index binaryVal =>
        r ← load_s 4 m (AddPointer currentRow (u16 (index * 4)));
        zset binaryVal index r) (replicate (Z.to_nat clen) 0);
      Ret (VString (string_of_runes binaryVal)).

Definition rawConvertJson := rawConvertVarBinary.

(** ** Dispatch tables *)

Definition rawConvertFunc : Type := mem -> Z -> Z -> convert_args -> go value.
Definition rawConvertVarDataFunc : Type := mem -> Z -> Z -> Z -> go value.

(** Entries of the table; the others are nil functions. *)
Definition rawConvertFuncTable (t : Z) : option rawConvertFunc :=
  if t =? TSDB_DATA_TYPE_BOOL then Some (fun m p r _ => rawConvertBool m p r)
  else if t =? TSDB_DATA_TYPE_TINYINT then Some (fun m p r _ => rawConvertTinyint m p r)
  else if t =? TSDB_DATA_TYPE_SMALLINT then Some (fun m p r _ => rawConvertSmallint m p r)
  else if t =? TSDB_DATA_TYPE_INT then Some (fun m p r _ => rawConvertInt m p r)
  else if t =? TSDB_DATA_TYPE_BIGINT then Some (fun m p r _ => rawConvertBigint m p r)
  else if t =? TSDB_DATA_TYPE_UTINYINT then Some (fun m p r _ => rawConvertUTinyint m p r)
  else if t =? TSDB_DATA_TYPE_USMALLINT then Some (fun m p r _ => rawConvertUSmallint m p r)
  else if t =? TSDB_DATA_TYPE_UINT then Some (fun m p r _ => rawConvertUInt m p r)
  else if t =? TSDB_DATA_TYPE_UBIGINT then Some (fun m p r _ => rawConvertUBigint m p r)
  else if t =? TSDB_DATA_TYPE_FLOAT then Some (fun m p r _ => rawConvertFloat m p r)
  else if t =? TSDB_DATA_TYPE_DOUBLE then Some (fun m p r _ => rawConvertDouble m p r)
  else if t =? TSDB_DATA_TYPE_TIMESTAMP then Some rawConvertTime
  else None.

Definition rawConvertVarDataTable (t : Z) : option rawConvertVarDataFunc :=
  if t =? TSDB_DATA_TYPE_BINARY then Some rawConvertBinary
  else if t =? TSDB_DATA_TYPE_NCHAR then Some rawConvertNchar
  else if t =? TSDB_DATA_TYPE_JSON then Some rawConvertJson
  else if t =? TSDB_DATA_TYPE_VARBINARY then Some rawConvertVarBinary
  else if t =? TSDB_DATA_TYPE_GEOMETRY then Some rawConvertGeometry
  else None.

(** Indexing the arrays [rawConvertFuncSlice [15]] and [rawConvertVarDataSlice [21]]. *)
Definition rawConvertFuncSlice (t : Z) : go (option rawConvertFunc) :=
  if t <? 15 then Ret (rawConvertFuncTable t) else Panic.
Definition rawConvertVarDataSlice (t : Z) : go (option rawConvertVarDataFunc) :=
  if t <? 21 then Ret (rawConvertVarDataTable t) else Panic.

(** Calling a nil function panics. *)
Definition call_fixed (f : option rawConvertFunc) (m : mem) (pStart row : Z) (arg : convert_args)
  : go value := match f with Some g => g m pStart row arg | None => Panic end.
Definition call_var (f : option rawConvertVarDataFunc) (m : mem) (pHeader pStart row : Z)
  : go value := match f with Some g => g m pHeader pStart row | None => Panic end.

(** ** Traversals *)

(** The column loop of [ReadBlock] and of [ReadBlockWithTimeFormat], which differ only in the
    argument they pass to the conversion functions. *)
Definition read_column (m : mem) (block blockSize : Z) (colTypes : list Z) (arg : convert_args)
    (column : Z) (st : list (list value) * Z) : go (list (list value) * Z) :=
  let colCount := zlen colTypes in
  let nullBitMapOffset := BitmapLen blockSize in
  let lengthOffset := RawBlockGetColumnLengthOffset colCount in
  let '(r, pHeader) := st in
  let fresh_row row r :=
    if column =? 0 then zset r row (replicate (Z.to_nat colCount) VNil) else Ret r in
  let put row r v :=
    cells ← zget r row; cells ← zset cells column v; zset r row cells in
  colLength ← load_s 4 m (AddPointer block (lengthOffset + column * Int32Size));
  colType ← zget colTypes column;
  if IsVarDataType colType then
    convertF ← rawConvertVarDataSlice colType;
    let pStart := AddPointer pHeader (Int32Size * blockSize) in
    r ← for_upto blockSize (fun row r =>
      r ← fresh_row row r;
      v ← call_var convertF m pHeader pStart row;
      put row r v) r;
    Ret (r, AddPointer pStart colLength)
  else
    convertF ← rawConvertFuncSlice colType;
    let pStart := AddPointer pHeader nullBitMapOffset in
    r ← for_upto blockSize (fun row r =>
      r ← fresh_row row r;
      isNull ← ItemIsNull m pHeader row;
      if (isNull : bool) then put row r VNil
      else
        v ← call_fixed convertF m pStart row arg;
        put row r v) r;
    Ret (r, AddPointer pStart colLength).

(** [make] panics on a negative length. *)
Definition read_block (m : mem) (block blockSize : Z) (colTypes : list Z) (arg : convert_args)
  : go (list (list value)) :=
  if blockSize <? 0 then Panic
  else
    let r := replicate (Z.to_nat blockSize) [] in
    let colCount := zlen colTypes in
    let pHeader := AddPointer block (RawBlockGetColDataOffset colCount) in
    st ← for_upto colCount (read_column m block blockSize colTypes arg) (r, pHeader);
    Ret (fst st).

Definition ReadBlock (m : mem) (block blockSize : Z) (colTypes : list Z) (precision : Z)
  : go (list (list value)) := read_block m block blockSize colTypes (precision, None).

Definition ReadBlockWithTimeFormat (m : mem) (block blockSize : Z) (colTypes : list Z)
    (precision : Z) (formatFunc : FormatTimeFunc) : go (list (list value)) :=
  read_block m block blockSize colTypes (precision, Some formatFunc).

Definition ReadBlockSimple (m : mem) (block precision : Z) : go (list (list value)) :=
  blockSize ← RawBlockGetNumOfRows m block;
  colCount ← RawBlockGetNumOfCols m block;
  if colCount <? 0 then Panic
  else
    colInfo ← RawBlockGetColInfo m block (replicate (Z.to_nat colCount) (mkRawBlockColInfo 0 0));
    let colTypes := (fun i => u8 (ci_ColType i)) <$> colInfo in
    ReadBlock m block blockSize colTypes precision.

Definition ReadRow (dest : list value) (m : mem) (block blockSize row : Z) (colTypes : list Z)
    (precision : Z) : go (list value) :=
  let colCount := zlen colTypes in
  let nullBitMapOffset := BitmapLen blockSize in
  let lengthOffset := RawBlockGetColumnLengthOffset colCount in
  let pHeader := AddPointer block (RawBlockGetColDataOffset colCount) in
  st ← for_upto colCount (fun column st =>
    let '(dest, pHeader) := st in
    colLength ← load_s 4 m (AddPointer block (lengthOffset + column * Int32Size));
    colType ← zget colTypes column;
    if IsVarDataType colType then
      convertF ← rawConvertVarDataSlice colType;
      let pStart := AddPointer pHeader (Int32Size * blockSize) in
      v ← call_var convertF m pHeader pStart row;
      dest ← zset dest column v;
      Ret (dest, AddPointer pStart colLength)
    else
      convertF ← rawConvertFuncSlice colType;
      let pStart := AddPointer pHeader nullBitMapOffset in
      isNull ← ItemIsNull m pHeader row;
      dest ← (if (isNull : bool) then zset dest column VNil
              else v ← call_fixed convertF m pStart row (precision, None); zset dest column v);
      Ret (dest, AddPointer pStart colLength)) (dest, pHeader);
  Ret (fst st).

Definition ItemRawBlock (m : mem) (colType pHeader pStart row precision : Z)
    (timeFormat : FormatTimeFunc) : go value :=
  if IsVarDataType colType then
    f ← rawConvertVarDataSlice colType; call_var f m pHeader pStart row
  else
    isNull ← ItemIsNull m pHeader row;
    if (isNull : bool) then Ret VNil
    else f ← rawConvertFuncSlice colType; call_fixed f m pStart row (precision, Some timeFormat).

(** ** Framed blocks ([parseblock]) *)

(** [&data[0]] panics on an empty slice. *)
Definition ParseBlock (data : list Z) (colTypes : list Z) (rows precision : Z)
  : go (Z * list (list value)) :=
  if zlen data =? 0 then Panic
  else
    id ← load_u 8 data 0;
    result ← ReadBlock data (AddPointer 0 8) rows colTypes precision;
    Ret (id, result).

Definition ParseTmqBlock (data : list Z) (colTypes : list Z) (rows precision : Z)
  : go (Z * Z * list (list value)) :=
  if zlen data =? 0 then Panic
  else
    id ← load_u 8 data 0;
    messageID ← load_u 8 data (AddPointer 0 8);
    result ← ReadBlock data (AddPointer 0 16) rows colTypes precision;
    Ret (id, messageID, result).

(** ** What the traversals compute *)

(** The address of a column's data, from the address of its header. *)
Definition data_start (n t pHeader : Z) : Z :=
  if IsVarDataType t then AddPointer pHeader (Int32Size * n) else AddPointer pHeader (BitmapLen n).

(** Whether the dispatch table of type [t] has an entry at its index (possibly nil). *)
Definition table_ok (t : Z) : bool := if IsVarDataType t then t <? 21 else t <? 15.

(** The item of one row of a column. *)
Definition item (m : mem) (arg : convert_args) (n t pHeader row : Z) : go value :=
  if IsVarDataType t then call_var (rawConvertVarDataTable t) m pHeader (data_start n t pHeader) row
  else
    isNull ← ItemIsNull m pHeader row;
    if (isNull : bool) then Ret VNil
    else call_fixed (rawConvertFuncTable t) m (data_start n t pHeader) row arg.

(** One iteration of a row loop, writing the item of [row] into the cell of [column]. *)
Definition fill_cell (column colCount : Z) (itm : Z -> go value) (row : Z) (r : list (list value))
  : go (list (list value)) :=
  r ← (if column =? 0 then zset r row (replicate (Z.to_nat colCount) VNil) else Ret r);
  v ← itm row;
  cells ← zget r row; cells ← zset cells column v; zset r row cells.

Lemma read_column_eq m block n tys arg c r p :
  read_column m block n tys arg c (r, p) =
  (colLength ← load_s 4 m (AddPointer block
     (RawBlockGetColumnLengthOffset (zlen tys) + c * Int32Size));
   t ← zget tys c;
   if table_ok t then
     r ← for_upto n (fill_cell c (zlen tys) (item m arg n t p)) r;
     Ret (r, AddPointer (data_start n t p) colLength)
   else Panic).
Proof.
  unfold read_column. destruct (load_s _ _ _) as [len| | |]; simpl; try done.
  destruct (zget tys c) as [t| | |]; simpl; try done.
  unfold table_ok, rawConvertVarDataSlice, rawConvertFuncSlice.
  destruct (IsVarDataType t) eqn:Ev; [destruct (t <? 21)|destruct (t <? 15)]; simpl; try done.
  all: unfold data_start at 1; rewrite Ev; f_equal.
  all: apply for_loop_ext; intros j s _; unfold fill_cell, item, data_start; rewrite Ev.
  all: destruct (if c =? 0 then _ else _); simpl; try done.
  destruct (ItemIsNull m p j) as [[]| | |]; done.
Qed.

(** The cells of [row] when the columns [cols] have been read, out of [k] columns; a row is
    allocated by its first column. *)
Definition row_cells (cols : list (list value)) (row : nat) : list value :=
  (fun vs => default VNil (vs !! row)) <$> cols.

Definition part_row (k : nat) (cols : list (list value)) (row : nat) : list value :=
  match cols with
  | [] => []
  | _ => row_cells cols row ++ replicate (k - length cols) VNil
  end.

Definition rows_of (n k : nat) (cols : list (list value)) : list (list value) :=
  part_row k cols <$> seq 0 n.

Lemma length_row_cells cols row : length (row_cells cols row) = length cols.
Proof. apply length_fmap. Qed.

Lemma rows_of_full n cols : cols <> [] -> rows_of n (length cols) cols = row_cells cols <$> seq 0 n.
Proof.
  intros Hne. unfold rows_of. apply list_fmap_ext. intros i row _.
  unfold part_row. destruct cols; [done|].
  by rewrite Nat.sub_diag, app_nil_r.
Qed.

Lemma part_row_put k cols vs row :
  (length cols < k)%nat ->
  exists cells,
    (if Z.of_nat (length cols) =? 0 then replicate k VNil else part_row k cols row) = cells /\
    length cells = k /\
    <[length cols := default VNil (vs !! row)]> cells = part_row k (cols ++ [vs]) row.
Proof.
  intros Hk. eexists. split; [done|].
  assert (E : (if Z.of_nat (length cols) =? 0 then replicate k VNil else part_row k cols row)
              = row_cells cols row ++ replicate (k - length cols) VNil).
  { destruct cols; simpl; [by rewrite Nat.sub_0_r|done]. }
  rewrite E. split.
  { rewrite length_app, length_row_cells, length_replicate. lia. }
  unfold part_row. destruct (cols ++ [vs]) eqn:Ec; [by destruct cols|]. rewrite <- Ec.
  unfold row_cells at 2. rewrite fmap_app, <- app_assoc. cbn [fmap list_fmap app].
  rewrite length_app. cbn [length].
  replace (k - length cols)%nat with (S (k - (length cols + 1)))%nat by lia.
  cbn [replicate]. rewrite insert_app_r_alt by (rewrite length_row_cells; lia).
  rewrite length_row_cells, Nat.sub_diag. done.
Qed.

(** The row loop of one column, on a state where the previous columns are filled. *)
Lemma fill_column n k (cols : list (list value)) vs itm :
  (length cols < k)%nat -> length vs = n ->
  (forall row v, vs !! row = Some v -> itm (Z.of_nat row) = Ret v) ->
  for_upto (Z.of_nat n) (fill_cell (Z.of_nat (length cols)) (Z.of_nat k) itm) (rows_of n k cols)
  = Ret (rows_of n k (cols ++ [vs])).
Proof.
  intros Hk Hn Hitm.
  set (st j := (fun row => part_row k (if (row <? j)%nat then cols ++ [vs] else cols) row) <$> seq 0 n).
  destruct (for_upto_inv (fun j s => s = st (Z.to_nat j))
    (fill_cell (Z.of_nat (length cols)) (Z.of_nat k) itm) (Z.of_nat n) (rows_of n k cols))
    as (s & E & ->); [lia|done| |].
  - intros j s Hj ->.
    assert (exists row, j = Z.of_nat row /\ (row < n)%nat) as (row & -> & Hrow).
    { exists (Z.to_nat j). lia. }
    assert (Hst : st row !! row = Some (part_row k cols row)).
    { unfold st. rewrite list_lookup_fmap, lookup_seq_lt by lia. simpl.
      by rewrite Nat.ltb_irrefl. }
    assert (Hlen : length (st row) = n) by (unfold st; by rewrite length_fmap, length_seq).
    destruct (lookup_lt_is_Some_2 vs row ltac:(lia)) as [v Hv].
    destruct (part_row_put k cols vs row Hk) as (cells & Hc & Hcl & Hput).
    rewrite Nat2Z.id. eexists. split.
    + unfold fill_cell. rewrite Nat2Z.id.
      assert (Hfresh : (if Z.of_nat (length cols) =? 0
                then zset (st row) (Z.of_nat row) (replicate k VNil) else Ret (st row))
              = Ret (<[row := cells]> (st row))).
      { subst cells. destruct (Z.of_nat (length cols) =? 0) eqn:E0.
        - rewrite zset_in by (unfold zlen; lia). by rewrite Nat2Z.id.
        - by rewrite list_insert_id. }
      rewrite Hfresh. cbn [mbind go_mbind]. rewrite (Hitm row v Hv). cbn [mbind go_mbind].
      erewrite (zget_lookup _ row) by (by apply list_lookup_insert_eq; lia).
      cbn [mbind go_mbind]. rewrite zset_in by (unfold zlen; lia).
      cbn [mbind go_mbind]. rewrite zset_in by (rewrite zlen_insert; unfold zlen; lia).
      rewrite !Nat2Z.id, list_insert_insert_eq. reflexivity.
    + rewrite Hv in Hput. simpl in Hput. rewrite Hput.
      replace (Z.to_nat (Z.of_nat row + 1)) with (S row) by lia.
      apply list_eq. intros i. destruct (decide (i = row)) as [->|Hne].
      * rewrite list_lookup_insert_eq by lia. unfold st.
        rewrite list_lookup_fmap, lookup_seq_lt by lia. simpl.
        by replace (row <? S row)%nat with true by (symmetry; apply Nat.ltb_lt; lia).
      * rewrite list_lookup_insert_ne by done. unfold st. rewrite !list_lookup_fmap.
        destruct (decide (i < n)%nat).
        -- rewrite !lookup_seq_lt by lia. simpl. do 2 f_equal.
           by replace (i <? S row)%nat with (i <? row)%nat
             by (apply eq_true_iff_eq; rewrite !Nat.ltb_lt; lia).
        -- by rewrite !lookup_seq_ge by lia.
  - rewrite E. f_equal. unfold st, rows_of. apply list_fmap_ext. intros i row Hi.
    apply lookup_seq in Hi as [-> Hi]. rewrite Nat2Z.id.
    by replace (0 + i <? n)%nat with true by (symmetry; apply Nat.ltb_lt; lia).
Qed.

(** A row loop that returned has read every item of the column. *)
Lemma fill_column_inv n c k itm r r' :
  for_upto (Z.of_nat n) (fill_cell c k itm) r = Ret r' ->
  exists vs, length vs = n /\ forall row v, vs !! row = Some v -> itm (Z.of_nat row) = Ret v.
Proof.
  intros E.
  pose proof (for_upto_ret_inv (fun j _ => exists vs, length vs = Z.to_nat j /\
    forall row v, vs !! row = Some v -> itm (Z.of_nat row) = Ret v) _ (Z.of_nat n) _ _ ltac:(lia) E) as H.
  cbv beta in H. rewrite Nat2Z.id in H. apply H.
  - exists []. split; [done|]. intros row v Hv. by rewrite lookup_nil in Hv.
  - intros j s s' Hj (vs & Hl & Hvs) Eb. unfold fill_cell in Eb.
    apply go_bind_Ret_inv in Eb as (r1 & _ & Eb).
    apply go_bind_Ret_inv in Eb as (v & Ev & _).
    exists (vs ++ [v]). split; [rewrite length_app; simpl; lia|].
    intros row w. rewrite lookup_app. destruct (vs !! row) eqn:Er.
    + intros [= <-]. by apply Hvs.
    + intros Hw. apply lookup_ge_None in Er.
      destruct (row - length vs)%nat eqn:Ed; simpl in Hw; [|by rewrite lookup_nil in Hw].
      injection Hw as <-. by replace (Z.of_nat row) with j by lia.
Qed.

(** The layout the traversals walk: for the types [tys] of the columns from [column] on, with the
    header of the first at [pHeader], every item can be read and [cols] are the columns' values. *)
Inductive cols_at (m : mem) (block : Z) (n k : nat) (arg : convert_args)
  : Z -> list Z -> Z -> list (list value) -> Prop :=
| cols_at_nil c p : cols_at m block n k arg c [] p []
| cols_at_cons c t tys p colLength vs cols :
    load_s 4 m (AddPointer block
      (RawBlockGetColumnLengthOffset (Z.of_nat k) + c * Int32Size)) = Ret colLength ->
    table_ok t = true ->
    length vs = n ->
    (forall row v, vs !! row = Some v -> item m arg (Z.of_nat n) t p (Z.of_nat row) = Ret v) ->
    cols_at m block n k arg (c + 1) tys (AddPointer (data_start (Z.of_nat n) t p) colLength) cols ->
    cols_at m block n k arg c (t :: tys) p (vs :: cols).

Lemma cols_at_length m block n k arg c tys p cols :
  cols_at m block n k arg c tys p cols -> length cols = length tys.
Proof. induction 1; simpl; lia. Qed.

(** A suffix of the column loop, forwards and backwards. *)
Lemma read_columns_fwd m block n arg tys0 tys p cols0 cols :
  cols_at m block n (length (tys0 ++ tys)) arg (zlen cols0) tys p cols ->
  length cols0 = length tys0 ->
  exists p',
    for_loop (length tys) (zlen cols0) (read_column m block (Z.of_nat n) (tys0 ++ tys) arg)
      (rows_of n (length (tys0 ++ tys)) cols0, p)
    = Ret (rows_of n (length (tys0 ++ tys)) (cols0 ++ cols), p').
Proof.
  revert tys0 p cols0 cols. induction tys as [|t tys IH]; intros tys0 p cols0 cols H Hl.
  - inversion H; subst. exists p. by rewrite (app_nil_r cols0).
  - inversion H as [|c t' tys' p' colLength vs cols' Hlen Ht Hn Hit Hrest]; subst.
    cbn [for_loop length]. rewrite read_column_eq. change (zlen (tys0 ++ t :: tys))
      with (Z.of_nat (length (tys0 ++ t :: tys))). rewrite Hlen. cbn [mbind go_mbind].
    rewrite (zget_lookup _ (length cols0) t) by (apply list_lookup_middle; lia).
    cbn [mbind go_mbind]. rewrite Ht.
    change (zlen cols0) with (Z.of_nat (length cols0)).
    assert (Hk : (length cols0 < length (tys0 ++ t :: tys))%nat) by (rewrite length_app; simpl; lia).
    rewrite (fill_column (length vs) _ cols0 vs _ Hk eq_refl Hit).
    cbn [mbind go_mbind].
    destruct (IH (tys0 ++ [t]) (AddPointer (data_start (Z.of_nat (length vs)) t p) colLength)
                (cols0 ++ [vs]) cols') as [p' E].
    + rewrite <- app_assoc. cbn [app].
      rewrite zlen_app. change (zlen [vs]) with 1. done.
    + rewrite !length_app. simpl. lia.
    + exists p'. rewrite <- !app_assoc in E. cbn [app] in E. rewrite zlen_app in E.
      change (zlen [vs]) with 1 in E. exact E.
Qed.

Lemma read_columns_bwd m block n arg tys0 tys p cols0 st' :
  length cols0 = length tys0 ->
  for_loop (length tys) (zlen cols0) (read_column m block (Z.of_nat n) (tys0 ++ tys) arg)
    (rows_of n (length (tys0 ++ tys)) cols0, p) = Ret st' ->
  exists cols, cols_at m block n (length (tys0 ++ tys)) arg (zlen cols0) tys p cols /\
    fst st' = rows_of n (length (tys0 ++ tys)) (cols0 ++ cols).
Proof.
  revert tys0 p cols0. induction tys as [|t tys IH]; intros tys0 p cols0 Hl E.
  - exists []. injection E as <-. rewrite (app_nil_r cols0). split; [constructor|done].
  - cbn [for_loop length] in E. rewrite read_column_eq in E.
    apply go_bind_Ret_inv in E as (st1 & E1 & E).
    apply go_bind_Ret_inv in E1 as (colLength & Hlen & E1).
    rewrite (zget_lookup _ (length cols0) t) in E1 by (apply list_lookup_middle; lia).
    cbn [mbind go_mbind] in E1. destruct (table_ok t) eqn:Ht; [|discriminate].
    apply go_bind_Ret_inv in E1 as (r1 & Er & E1). injection E1 as <-.
    destruct (fill_column_inv _ _ _ _ _ _ Er) as (vs & Hn & Hit).
    change (zlen cols0) with (Z.of_nat (length cols0)) in Er.
    change (zlen (tys0 ++ t :: tys)) with (Z.of_nat (length (tys0 ++ t :: tys))) in Er.
    assert (Hk : (length cols0 < length (tys0 ++ t :: tys))%nat) by (rewrite length_app; simpl; lia).
    rewrite (fill_column n _ cols0 vs _ Hk Hn Hit) in Er.
    injection Er as <-.
    replace (tys0 ++ t :: tys) with ((tys0 ++ [t]) ++ tys) in * by (by rewrite <- app_assoc).
    replace (zlen cols0 + 1) with (zlen (cols0 ++ [vs])) in E by (by rewrite zlen_app).
    apply IH in E as (cols & Hc & Hf); [|rewrite !length_app; simpl; lia].
    exists (vs :: cols). split.
    + econstructor; eauto. rewrite zlen_app in Hc. exact Hc.
    + rewrite Hf. by rewrite <- (app_assoc cols0).
Qed.

(** [ReadBlock] is determined by the layout. *)
Lemma read_block_spec m block n arg tys r :
  read_block m block (Z.of_nat n) tys arg = Ret r <->
  exists cols,
    cols_at m block n (length tys) arg 0 tys
      (AddPointer block (RawBlockGetColDataOffset (zlen tys))) cols /\
    r = rows_of n (length tys) cols.
Proof.
  unfold read_block. rewrite (proj2 (Z.ltb_ge _ _)) by lia. rewrite Nat2Z.id.
  assert (E0 : replicate n [] = rows_of n (length tys) []).
  { unfold rows_of. cbn [part_row]. change (fun _ : nat => []) with (fun _ : nat => @nil value).
    apply list_eq. intros i. destruct (decide (i < n)%nat).
    - rewrite lookup_replicate_2 by done. by rewrite list_lookup_fmap, lookup_seq_lt by done.
    - rewrite list_lookup_fmap, lookup_seq_ge by lia. apply lookup_ge_None. rewrite length_replicate. lia. }
  rewrite E0. unfold for_upto. replace (Z.to_nat (zlen tys)) with (length tys) by (unfold zlen; lia).
  split.
  - intros (st & E & [= <-])%go_bind_Ret_inv.
    apply (read_columns_bwd m block n arg [] tys _ [] st eq_refl) in E as (cols & Hc & ->). eauto.
  - intros (cols & Hc & ->).
    destruct (read_columns_fwd m block n arg [] tys _ [] cols Hc eq_refl) as [p' E].
    cbn [app] in E. rewrite zlen_nil in E. rewrite E. done.
Qed.

(** The column loop of [ReadRow], in terms of [item]. *)
Definition read_row_column (m : mem) (block n row : Z) (tys : list Z) (arg : convert_args)
    (column : Z) (st : list value * Z) : go (list value * Z) :=
  colLength ← load_s 4 m (AddPointer block
     (RawBlockGetColumnLengthOffset (zlen tys) + column * Int32Size));
  t ← zget tys column;
  if table_ok t then
    v ← item m arg n t (snd st) row;
    dest ← zset (fst st) column v;
    Ret (dest, AddPointer (data_start n t (snd st)) colLength)
  else Panic.

Lemma ReadRow_eq dest m block n row tys prec :
  ReadRow dest m block n row tys prec =
  (st ← for_upto (zlen tys) (read_row_column m block n row tys (prec, None))
     (dest, AddPointer block (RawBlockGetColDataOffset (zlen tys)));
   Ret (fst st)).
Proof.
  unfold ReadRow. f_equal. apply for_loop_ext. intros c [d p] _. unfold read_row_column. simpl.
  destruct (load_s _ _ _) as [len| | |]; simpl; try done.
  destruct (zget tys c) as [t| | |]; simpl; try done.
  unfold table_ok, rawConvertVarDataSlice, rawConvertFuncSlice, item, data_start.
  destruct (IsVarDataType t) eqn:Ev; [destruct (t <? 21)|destruct (t <? 15)]; simpl; try done.
  destruct (ItemIsNull m p row) as [[]| | |]; simpl; try done.
  by destruct (call_fixed _ _ _ _ _).
Qed.

Lemma read_row_columns m block n arg (row : nat) tys0 tys p cells0 rest cols :
  cols_at m block n (length (tys0 ++ tys)) arg (zlen tys0) tys p cols ->
  (row < n)%nat -> length cells0 = length tys0 -> length rest = length tys ->
  exists p',
    for_loop (length tys) (zlen tys0) (read_row_column m block (Z.of_nat n) (Z.of_nat row) (tys0 ++ tys) arg)
      (cells0 ++ rest, p) = Ret (cells0 ++ row_cells cols row, p').
Proof.
  intros H Hrow. revert tys0 p cells0 rest cols H.
  induction tys as [|t tys IH]; intros tys0 p cells0 rest cols H Hl Hr.
  - inversion H; subst. destruct rest; [|done]. by exists p.
  - inversion H as [|c t' tys' p' colLength vs cols' Hlen Ht Hn Hit Hrest]; subst.
    destruct rest as [|x rest]; [done|].
    destruct (lookup_lt_is_Some_2 vs row ltac:(lia)) as [v Hv].
    assert (Hb : read_row_column m block (Z.of_nat (length vs)) (Z.of_nat row) (tys0 ++ t :: tys) arg
                   (zlen tys0) (cells0 ++ x :: rest, p)
                 = Ret (cells0 ++ v :: rest,
                        AddPointer (data_start (Z.of_nat (length vs)) t p) colLength)).
    { unfold read_row_column.
      change (zlen (tys0 ++ t :: tys)) with (Z.of_nat (length (tys0 ++ t :: tys))).
      rewrite Hlen. cbn [mbind go_mbind].
      rewrite (zget_lookup _ (length tys0) t) by (apply list_lookup_middle; lia).
      cbn [mbind go_mbind fst snd]. rewrite Ht, (Hit row v Hv). cbn [mbind go_mbind].
      rewrite zset_in by (rewrite zlen_app, zlen_cons; unfold zlen; lia).
      cbn [mbind go_mbind].
      replace (Z.to_nat (zlen tys0)) with (length cells0 + 0)%nat by (unfold zlen; lia).
      by rewrite insert_app_r. }
    cbn [for_loop length]. rewrite Hb. cbn [mbind go_mbind].
    destruct (IH (tys0 ++ [t]) (AddPointer (data_start (Z.of_nat (length vs)) t p) colLength)
                (cells0 ++ [v]) rest cols') as [p' E].
    + rewrite <- app_assoc. rewrite zlen_app. exact Hrest.
    + rewrite !length_app. simpl. lia.
    + simpl in Hr. lia.
    + exists p'. rewrite <- !app_assoc in E. cbn [app] in E. rewrite zlen_app in E.
      change (zlen [t]) with 1 in E. rewrite E. cbn [row_cells fmap list_fmap]. by rewrite Hv.
Qed.

Lemma rows_of_lookup n cols (row : nat) :
  (row < n)%nat -> rows_of n (length cols) cols !! row = Some (row_cells cols row).
Proof.
  intros Hrow. unfold rows_of. rewrite list_lookup_fmap, lookup_seq_lt by done. simpl. f_equal.
  unfold part_row. destruct cols; [done|]. by rewrite Nat.sub_diag, app_nil_r.
Qed.

(** [ReadBlock] and [ReadBlockWithTimeFormat] read the same columns: with the format function
    [VTime . convert] they return the same rows. *)
Lemma item_time_format m n t p row prec (f : FormatTimeFunc) :
  (forall ts, TimestampConvertToTime ts prec = Ret (match f ts prec with VTime x => x | _ => 0 end)
              /\ exists x, f ts prec = VTime x) ->
  item m (prec, Some f) n t p row = item m (prec, None) n t p row.
Proof.
  intros Hf. unfold item. destruct (IsVarDataType t); [done|].
  destruct (ItemIsNull m p row) as [[]| | |]; simpl; try done.
  unfold rawConvertFuncTable. repeat case_match; try done.
  simpl. destruct (load_s _ _ _) as [ts| | |]; simpl; try done.
  destruct (Hf ts) as [-> [x ->]]. done.
Qed.

(** [rawConvertNchar] computes byte indices in [uint16]; they never wrap. *)
Lemma nchar_index_no_wrap l index : in_u 16 l -> 0 <= index < l / 4 -> u16 (index * 4) = index * 4.
Proof. intros Hl Hi. apply wrap_u_id. range_lia. Qed.

(** ** Properties *)

(** Reading one row of a block with [ReadRow] gives exactly the row that [ReadBlock] returns
    for it, whatever the block, the types and the precision: if the whole block can be read, so
    can every row of it, into any destination with one cell per column. *)
Theorem ReadRow_ReadBlock m block (n row : nat) tys prec r dest :
  ReadBlock m block (Z.of_nat n) tys prec = Ret r ->
  (row < n)%nat -> length dest = length tys ->
  ReadRow dest m block (Z.of_nat n) (Z.of_nat row) tys prec
  = match r !! row with Some cells => Ret cells | None => Panic end.
Proof.
  unfold ReadBlock. rewrite read_block_spec. intros (cols & Hc & ->) Hrow Hd.
  rewrite <- (cols_at_length _ _ _ _ _ _ _ _ _ Hc), rows_of_lookup by done.
  rewrite ReadRow_eq. unfold for_upto.
  replace (Z.to_nat (zlen tys)) with (length tys) by (unfold zlen; lia).
  destruct (read_row_columns m block n (prec, None) row [] tys _ [] dest cols Hc Hrow eq_refl Hd)
    as [p' E].
  cbn [app] in E. rewrite zlen_nil in E. by rewrite E.
Qed.

(** A block of one [INT] column with the rows 7 and null. *)
Definition ex_row_block : mem :=
  replicate 28 0 ++ [4; 4; 0; 0; 0] ++ le_bytes 4 8 ++ [64] ++ le_bytes 4 7 ++ le_bytes 4 0.

Lemma ReadRow_ReadBlock_witness :
  ReadRow [VBool true] ex_row_block 0 2 1 [TSDB_DATA_TYPE_INT] 0 = Ret [VNil].
Proof.
  apply (ReadRow_ReadBlock ex_row_block 0 2 1 [TSDB_DATA_TYPE_INT] 0 [[VInt32 7]; [VNil]] [VBool true]);
    [vm_compute; reflexivity|lia|reflexivity].
Defined.
