(* ===== verification/Param.v ===== *)
(** * Param: bind parameters and column type lists

    Models [src/driver/common/param/param.go] and [column.go]: a [Param] is a fixed-size column of
    values filled by position ([Set*]) or in order ([Add*]); a [ColumnType] list is filled in
    order.  The receivers are pointers: an operation returns the updated object. *)
From S2P Require Import Prelude Common.
#[local] Open Scope Z_scope.

(** ** [Param] *)

Record Param := mkParam { p_size : Z; p_value : list value; p_offset : Z }.

(** [make] panics on a negative size. *)
Definition NewParam (size : Z) : go Param :=
  if size <? 0 then Panic else Ret (mkParam size (replicate (Z.to_nat size) VNil) 0).

(** The body shared by the [Set*] methods. *)
Definition set_param (p : Param) (offset : Z) (v : value) : go Param :=
  if offset >=? p_size p then Ret p
  else
    l ← zset (p_value p) offset v;
    Ret (mkParam (p_size p) l (p_offset p)).

(** The body shared by the [Add*] methods. *)
Definition AddValue (p : Param) (v : value) : go Param :=
  if p_offset p >=? p_size p then Ret p
  else
    l ← zset (p_value p) (p_offset p) v;
    Ret (mkParam (p_size p) l (p_offset p + 1)).

Definition SetBool p offset (v : bool) := set_param p offset (TaosBool v).
Definition SetNull p offset := set_param p offset VNil.
Definition SetTinyint p offset v := set_param p offset (TaosTinyint (i8 v)).
Definition SetSmallint p offset v := set_param p offset (TaosSmallint (i16 v)).
Definition SetInt p offset v := set_param p offset (TaosInt (i32 v)).
Definition SetBigint p offset v := set_param p offset (TaosBigint (i64 v)).
Definition SetUTinyint p offset v := set_param p offset (TaosUTinyint (u8 v)).
Definition SetUSmallint p offset v := set_param p offset (TaosUSmallint (u16 v)).
Definition SetUInt p offset v := set_param p offset (TaosUInt (u32 v)).
Definition SetUBigint p offset v := set_param p offset (TaosUBigint (u64 v)).
Definition SetFloat p offset bits := set_param p offset (TaosFloat bits).
Definition SetDouble p offset bits := set_param p offset (TaosDouble bits).
Definition SetBinary p offset v := set_param p offset (TaosBinary v).
Definition SetVarBinary p offset v := set_param p offset (TaosVarBinary v).
Definition SetNchar p offset v := set_param p offset (TaosNchar v).
Definition SetTimestamp p offset t precision := set_param p offset (TaosTimestamp t precision).
Definition SetJson p offset v := set_param p offset (TaosJson v).
Definition SetGeometry p offset v := set_param p offset (TaosGeometry v).

Definition AddBool p (v : bool) := AddValue p (TaosBool v).
Definition AddNull p := AddValue p VNil.
Definition AddTinyint p v := AddValue p (TaosTinyint (i8 v)).
Definition AddSmallint p v := AddValue p (TaosSmallint (i16 v)).
Definition AddInt p v := AddValue p (TaosInt (i32 v)).
Definition AddBigint p v := AddValue p (TaosBigint (i64 v)).
Definition AddUTinyint p v := AddValue p (TaosUTinyint (u8 v)).
Definition AddUSmallint p v := AddValue p (TaosUSmallint (u16 v)).
Definition AddUInt p v := AddValue p (TaosUInt (u32 v)).
Definition AddUBigint p v := AddValue p (TaosUBigint (u64 v)).
Definition AddFloat p bits := AddValue p (TaosFloat bits).
Definition AddDouble p bits := AddValue p (TaosDouble bits).
Definition AddBinary p v := AddValue p (TaosBinary v).
Definition AddVarBinary p v := AddValue p (TaosVarBinary v).
Definition AddNchar p v := AddValue p (TaosNchar v).
Definition AddTimestamp p t precision := AddValue p (TaosTimestamp t precision).
Definition AddJson p v := AddValue p (TaosJson v).
Definition AddGeometry p v := AddValue p (TaosGeometry v).

Definition GetValues (p : Param) : list value := p_value p.

(** Adding a list of values in order. *)
Fixpoint AddValues (p : Param) (vs : list value) : go Param :=
  match vs with
  | [] => Ret p
  | v :: vs' => AddValue p v ≫= fun p => AddValues p vs'
  end.

(** One single-value [Param] per value of a row. *)
Fixpoint NewParamsWithRowValue (vs : list value) : go (list Param) :=
  match vs with
  | [] => Ret []
  | d :: vs' =>
    p ← NewParam 1; p ← AddValue p d;
    ps ← NewParamsWithRowValue vs'; Ret (p :: ps)
  end.

(** ** [ColumnType] lists *)

Record ColumnTypes := mkColumnTypes { c_size : Z; c_value : list (option ColumnType); c_column : Z }.

Definition NewColumnType (size : Z) : go ColumnTypes :=
  if size <? 0 then Panic else Ret (mkColumnTypes size (replicate (Z.to_nat size) None) 0).

Definition NewColumnTypeWithValue (v : list (option ColumnType)) : ColumnTypes :=
  mkColumnTypes (zlen v) v (zlen v).

(** The body shared by the [Add*] methods. *)
Definition add_column (c : ColumnTypes) (t : ColumnType) : go ColumnTypes :=
  if c_column c >=? c_size c then Ret c
  else
    l ← zset (c_value c) (c_column c) (Some t);
    Ret (mkColumnTypes (c_size c) l (c_column c + 1)).

Definition CAddBool c := add_column c (mkColumnType TaosBoolType 0).
Definition CAddTinyint c := add_column c (mkColumnType TaosTinyintType 0).
Definition CAddSmallint c := add_column c (mkColumnType TaosSmallintType 0).
Definition CAddInt c := add_column c (mkColumnType TaosIntType 0).
Definition CAddBigint c := add_column c (mkColumnType TaosBigintType 0).
Definition CAddUTinyint c := add_column c (mkColumnType TaosUTinyintType 0).
Definition CAddUSmallint c := add_column c (mkColumnType TaosUSmallintType 0).
Definition CAddUInt c := add_column c (mkColumnType TaosUIntType 0).
Definition CAddUBigint c := add_column c (mkColumnType TaosUBigintType 0).
Definition CAddFloat c := add_column c (mkColumnType TaosFloatType 0).
Definition CAddDouble c := add_column c (mkColumnType TaosDoubleType 0).
Definition CAddBinary c strMaxLen := add_column c (mkColumnType TaosBinaryType strMaxLen).
Definition CAddVarBinary c strMaxLen := add_column c (mkColumnType TaosVarBinaryType strMaxLen).
Definition CAddNchar c strMaxLen := add_column c (mkColumnType TaosNcharType strMaxLen).
Definition CAddTimestamp c := add_column c (mkColumnType TaosTimestampType 0).
Definition CAddJson c strMaxLen := add_column c (mkColumnType TaosJsonType strMaxLen).
Definition CAddGeometry c strMaxLen := add_column c (mkColumnType TaosGeometryType strMaxLen).

Definition ErrIncompleteColumn : error := "incomplete column"%string.

Definition GetValue (c : ColumnTypes) : go (list (option ColumnType)) :=
  if c_size c =? c_column c then Ret (c_value c) else Err ErrIncompleteColumn.

(** ** Invariant *)

(** The values fill the declared size and the cursor stays inside it. *)
Definition Param_wf (p : Param) : Prop :=
  zlen (p_value p) = p_size p /\ 0 <= p_offset p <= p_size p.

Definition ColumnTypes_wf (c : ColumnTypes) : Prop :=
  zlen (c_value c) = c_size c /\ 0 <= c_column c <= c_size c.

Lemma NewParam_wf size p : NewParam size = Ret p -> Param_wf p.
Proof.
  unfold NewParam. destruct (Z.ltb_spec size 0); [discriminate|]. intros [= <-].
  unfold Param_wf. simpl. rewrite zlen_replicate. lia.
Qed.

Lemma AddValue_eq p v :
  Param_wf p ->
  AddValue p v = Ret (if p_offset p <? p_size p
    then mkParam (p_size p) (<[Z.to_nat (p_offset p) := v]> (p_value p)) (p_offset p + 1) else p).
Proof.
  intros [Hl Ho]. unfold AddValue.
  destruct (Z.ltb_spec (p_offset p) (p_size p)) as [H|H].
  - rewrite Z.geb_leb, (proj2 (Z.leb_gt _ _)) by lia. by rewrite zset_in by lia.
  - by rewrite Z.geb_leb, (proj2 (Z.leb_le _ _)) by lia.
Qed.

Lemma AddValue_wf p v p' : Param_wf p -> AddValue p v = Ret p' -> Param_wf p'.
Proof.
  intros Hwf. rewrite (AddValue_eq p v Hwf). intros [= <-]. destruct Hwf as [Hl Ho].
  destruct (Z.ltb_spec (p_offset p) (p_size p)); [|done].
  unfold Param_wf. simpl. rewrite zlen_insert. lia.
Qed.

Lemma set_param_wf p off v p' : Param_wf p -> set_param p off v = Ret p' -> Param_wf p'.
Proof.
  intros [Hl Ho]. unfold set_param. destruct (off >=? p_size p); [intros [= <-]; done|].
  intros (l & El & [= <-])%go_bind_Ret_inv. unfold Param_wf. simpl.
  rewrite (zlen_zset _ _ _ _ El). done.
Qed.

Lemma set_param_neg p off v : Param_wf p -> off < 0 -> set_param p off v = Panic.
Proof.
  intros [Hl Ho] Hneg. unfold set_param, zset. rewrite Z.geb_leb, (proj2 (Z.leb_gt _ _)) by lia.
  by rewrite bool_decide_eq_false_2 by lia.
Qed.

(** The cells before the cursor are what was added, those after it are untouched. *)
Lemma AddValues_spec vs : forall p, Param_wf p ->
  AddValues p vs = Ret (mkParam (p_size p)
    (ztake (p_offset p) (p_value p) ++ ztake (p_size p - p_offset p) vs
       ++ zdrop (p_offset p + zlen vs) (p_value p))
    (Z.min (p_size p) (p_offset p + zlen vs))).
Proof.
  induction vs as [|v vs IH]; intros p Hwf; destruct Hwf as [Hl Ho] eqn:Hwf'.
  - simpl. f_equal. destruct p as [sz l off]; simpl in *. rewrite zlen_nil, Z.add_0_r.
    unfold ztake at 2. rewrite take_nil. cbn [app]. unfold ztake, zdrop. rewrite take_drop.
    f_equal. lia.
  - cbn [AddValues]. rewrite (AddValue_eq p v Hwf). cbn [mbind go_mbind].
    destruct (Z.ltb_spec (p_offset p) (p_size p)) as [H|H].
    + assert (Hwf1 : Param_wf (mkParam (p_size p)
          (<[Z.to_nat (p_offset p):=v]> (p_value p)) (p_offset p + 1))).
      { unfold Param_wf. simpl. rewrite zlen_insert. lia. }
      rewrite (IH _ Hwf1). simpl. f_equal. unfold ztake, zdrop. rewrite zlen_cons.
      pose proof (zlen_nonneg vs). f_equal; [|lia].
      replace (Z.to_nat (p_offset p + 1)) with (S (Z.to_nat (p_offset p))) by lia.
      erewrite take_S_r by (apply list_lookup_insert_eq; unfold zlen in *; lia).
      rewrite take_insert_ge, drop_insert_lt by lia.
      replace (Z.to_nat (p_size p - p_offset p)) with (S (Z.to_nat (p_size p - (p_offset p + 1)))) by lia.
      cbn [take]. rewrite <- app_assoc. cbn [app]. do 4 f_equal. lia.
    + rewrite (IH p Hwf). f_equal. pose proof (zlen_nonneg vs). rewrite zlen_cons.
      replace (p_size p - p_offset p) with 0 by lia. unfold ztake, zdrop. simpl.
      rewrite !drop_ge by (unfold zlen in *; lia). f_equal. lia.
Qed.

Lemma AddValues_fresh vs p :
  NewParam (zlen vs) = Ret p -> AddValues p vs = Ret (mkParam (zlen vs) vs (zlen vs)).
Proof.
  intros H. rewrite (AddValues_spec vs p (NewParam_wf _ _ H)).
  revert H. unfold NewParam. pose proof (zlen_nonneg vs).
  rewrite (proj2 (Z.ltb_ge _ _)) by lia. intros [= <-]. simpl. f_equal.
  unfold ztake, zdrop. simpl.
  rewrite take_ge by (unfold zlen; lia). rewrite drop_ge by (rewrite length_replicate; lia).
  rewrite app_nil_r. f_equal. lia.
Qed.

(** The shared body of the [Add*] methods of the two types, on a list with a cursor: what is left
    of [n] cells after adding [l] from the start. *)
Definition filled {A} (n : Z) (d : A) (l : list A) : list A :=
  ztake n l ++ replicate (Z.to_nat (n - zlen l)) d.

Lemma NewParam_Ret n : 0 <= n -> NewParam n = Ret (mkParam n (replicate (Z.to_nat n) VNil) 0).
Proof. intros Hn. unfold NewParam. by rewrite (proj2 (Z.ltb_ge _ _)). Qed.

Lemma drop_filled {A} (n : Z) (d : A) (l : list A) : 0 <= n ->
  ztake (n - 0) l ++ zdrop (0 + zlen l) (replicate (Z.to_nat n) d) = filled n d l.
Proof.
  intros Hn. unfold filled, ztake, zdrop. rewrite Z.sub_0_r, Z.add_0_l, drop_replicate. do 2 f_equal. unfold zlen. lia.
Qed.

Lemma NewParamsWithRowValue_spec row : NewParamsWithRowValue row = Ret ((fun v => mkParam 1 [v] 1) <$> row).
Proof.
  induction row as [|v row IH]; [done|]. cbn [NewParamsWithRowValue]. rewrite NewParam_Ret, go_bind_ret by lia.
  change (AddValue _ v) with (Ret (mkParam 1 [v] 1)). rewrite IH. by go_run.
Qed.

(** A column of bind parameters of size [n] that is filled in order holds exactly the values
    added: the first [n] of them in order, NULL in the cells that were not reached, and the values
    beyond the size are ignored without an error.  [NewParamsWithRowValue] makes one column of one
    value for each value of a row. *)
Theorem Param_filled n vs row :
  0 <= n ->
  (exists p p', NewParam n = Ret p /\ AddValues p vs = Ret p' /\ Param_wf p' /\ GetValues p' = filled n VNil vs) /\
  exists ps, NewParamsWithRowValue row = Ret ps /\ GetValues <$> ps = (fun v => [v]) <$> row.
Proof.
  intros Hn. split.
  - assert (Hwf : Param_wf (mkParam n (replicate (Z.to_nat n) VNil) 0)) by (by apply (NewParam_wf n), NewParam_Ret).
    eexists _, _. split; [by apply NewParam_Ret|]. rewrite (AddValues_spec vs _ Hwf). split; [done|].
    pose proof (zlen_nonneg vs).
    assert (Hv : ztake 0 (replicate (Z.to_nat n) VNil) ++ ztake (n - 0) vs ++ zdrop (0 + zlen vs) (replicate (Z.to_nat n) VNil)
      = filled n VNil vs) by (by rewrite <- drop_filled).
    cbn [p_size p_offset p_value] in *. rewrite Hv. split; [|done].
    split; cbn; [|lia]. unfold filled, ztake. rewrite zlen_app. unfold zlen in *. rewrite length_take, length_replicate. lia.
  - rewrite NewParamsWithRowValue_spec. eexists. split; [done|]. rewrite <- list_fmap_compose. done.
Qed.

Lemma Param_filled_witness :
  (exists p p', NewParam 2 = Ret p /\ AddValues p [TaosInt 1; VNil; TaosInt 3] = Ret p' /\ Param_wf p' /\
    GetValues p' = [TaosInt 1; VNil]) /\
  exists ps, NewParamsWithRowValue [TaosInt 4] = Ret ps /\ GetValues <$> ps = [[TaosInt 4]].
Proof. exact (Param_filled 2 [TaosInt 1; VNil; TaosInt 3] [TaosInt 4] ltac:(discriminate)). Defined.

(** Adding a list of column types in order. *)
Fixpoint AddColumns (c : ColumnTypes) (ts : list ColumnType) : go ColumnTypes :=
  match ts with
  | [] => Ret c
  | t :: ts' => c ← add_column c t; AddColumns c ts'
  end.

Lemma add_column_eq c t :
  ColumnTypes_wf c ->
  add_column c t = Ret (if c_column c <? c_size c
    then mkColumnTypes (c_size c) (<[Z.to_nat (c_column c) := Some t]> (c_value c)) (c_column c + 1) else c).
Proof.
  intros [Hl Ho]. unfold add_column.
  destruct (Z.ltb_spec (c_column c) (c_size c)) as [H|H].
  - rewrite Z.geb_leb, (proj2 (Z.leb_gt _ _)) by lia. by rewrite zset_in by lia.
  - by rewrite Z.geb_leb, (proj2 (Z.leb_le _ _)) by lia.
Qed.

Lemma AddColumns_spec ts : forall pre n,
  zlen pre <= n ->
  AddColumns (mkColumnTypes n (pre ++ replicate (Z.to_nat (n - zlen pre)) None) (zlen pre)) ts
  = Ret (mkColumnTypes n (pre ++ filled (n - zlen pre) None (Some <$> ts)) (Z.min n (zlen pre + zlen ts))).
Proof.
  induction ts as [|t ts IH]; intros pre n Hn; cbn [AddColumns]; pose proof (zlen_nonneg pre).
  - unfold filled, ztake. cbn [fmap list_fmap]. rewrite take_nil, !zlen_nil, Z.add_0_r, Z.min_r by lia. cbn [app].
    by rewrite Z.sub_0_r.
  - assert (Hwf : ColumnTypes_wf (mkColumnTypes n (pre ++ replicate (Z.to_nat (n - zlen pre)) None) (zlen pre))).
    { split; cbn; [|lia]. rewrite zlen_app. unfold zlen. rewrite length_replicate. unfold zlen in *. lia. }
    rewrite (add_column_eq _ t Hwf), go_bind_ret. cbn [c_column c_size c_value]. pose proof (zlen_nonneg ts).
    destruct (Z.ltb_spec (zlen pre) n) as [Hlt|Hge].
    + assert (Hins : <[Z.to_nat (zlen pre) := Some t]> (pre ++ replicate (Z.to_nat (n - zlen pre)) None)
        = (pre ++ [Some t]) ++ replicate (Z.to_nat (n - zlen (pre ++ [Some t]))) None).
      { rewrite zlen_snoc. replace (Z.to_nat (n - zlen pre)) with (S (Z.to_nat (n - (zlen pre + 1)))) by lia.
        unfold zlen at 1. rewrite Nat2Z.id. cbn [replicate]. rewrite insert_app_r_alt by lia. rewrite Nat.sub_diag.
        cbn. by rewrite <- app_assoc. }
      rewrite Hins, <- (zlen_snoc pre (Some t)). rewrite IH by (rewrite zlen_snoc; lia).
      rewrite zlen_snoc, zlen_cons. f_equal. f_equal; [|lia]. rewrite <- app_assoc. f_equal. unfold filled, ztake.
      rewrite fmap_cons, zlen_cons. replace (Z.to_nat (n - zlen pre)) with (S (Z.to_nat (n - (zlen pre + 1)))) by lia.
      cbn [take app]. do 3 f_equal. lia.
    + rewrite IH by lia. rewrite zlen_cons. f_equal. f_equal; [|lia]. unfold filled, ztake.
      replace (n - zlen pre) with 0 by lia. rewrite !take_0. do 3 f_equal. rewrite !zlen_fmap, zlen_cons. lia.
Qed.

(** A list of column types of size [n] is handed out only when it is complete: with at least
    [n] types added [GetValue] gives the first [n] in order, with fewer it fails. *)
Theorem ColumnTypes_complete n ts :
  0 <= n ->
  exists c c', NewColumnType n = Ret c /\ AddColumns c ts = Ret c' /\
    GetValue c' = if zlen ts <? n then Err ErrIncompleteColumn else Ret (Some <$> ztake n ts).
Proof.
  intros Hn. unfold NewColumnType. rewrite (proj2 (Z.ltb_ge _ _)) by lia. eexists _, _. split; [done|].
  pose proof (AddColumns_spec ts [] n Hn) as E. rewrite zlen_nil, Z.sub_0_r in E. cbn [app] in E. rewrite E.
  split; [done|]. unfold GetValue. cbn [c_size c_column c_value]. destruct (Z.ltb_spec (zlen ts) n).
  - by rewrite (proj2 (Z.eqb_neq _ _)) by lia.
  - rewrite (proj2 (Z.eqb_eq _ _)) by lia. unfold filled. rewrite zlen_fmap.
    replace (Z.to_nat (n - zlen ts)) with 0%nat by lia. cbn [replicate]. rewrite app_nil_r. unfold ztake.
    by rewrite fmap_take.
Qed.

Lemma ColumnTypes_complete_witness :
  exists c c', NewColumnType 2 = Ret c /\ AddColumns c [mkColumnType TaosIntType 0] = Ret c' /\
    GetValue c' = Err ErrIncompleteColumn.
Proof. exact (ColumnTypes_complete 2 [mkColumnType TaosIntType 0] ltac:(discriminate)). Defined.
