(* ===== verification/Serializer.v ===== *)
(** * Serializer: writing a raw block

    Models [src/driver/common/serializer/block.go]: [SerializeRawBlock] writes bind parameters in
    the block format that [RawBlock] reads.  Each [case] of its type switch is a definition below,
    built from the loop that the fixed-width cases share ([fixed_column]) or the one that the
    variable-length cases share ([var_column]). *)
From S2P Require Import Prelude Common Utf8 RawBlock Param.
#[local] Open Scope Z_scope.

Module Ser.

Definition BitmapLen (n : Z) : Z := Z.shiftr (n + (Z.shiftl 1 3 - 1)) 3.
Definition BitPos (n : Z) : Z := Z.land n (Z.shiftl 1 3 - 1).
Definition CharOffset (n : Z) : Z := Z.shiftr n 3.
Definition BMSetNull (c n : Z) : Z := byte (c + Z.shiftl 1 (7 - BitPos n)).

Definition ErrColumnNumberNotMatch : error := "number of columns does not match"%string.
Definition ErrDataTypeWrong : error := "wrong data type"%string.

Definition appendUint16 (b : list Z) (v : Z) : list Z := b ++ [byte v; byte (Z.shiftr v 8)].
Definition appendUint32 (b : list Z) (v : Z) : list Z :=
  b ++ [byte v; byte (Z.shiftr v 8); byte (Z.shiftr v 16); byte (Z.shiftr v 24)].
Definition appendUint64 (b : list Z) (v : Z) : list Z :=
  b ++ [byte v; byte (Z.shiftr v 8); byte (Z.shiftr v 16); byte (Z.shiftr v 24);
        byte (Z.shiftr v 32); byte (Z.shiftr v 40); byte (Z.shiftr v 48); byte (Z.shiftr v 56)].

(** What one case of the switch appends to [colInfoData], [lengthData] and [data]. *)
Record col_out := mkColOut { co_info : list Z; co_length : list Z; co_data : list Z }.

(** The cases of fixed-width types: [dataTmp] starts as zeroes, a nil value sets its bit of the
    null bitmap, another value is stored by [put] at its offset. *)
Definition fixed_column (ty size : Z) (put : list Z -> Z -> value -> go (list Z))
    (rows bitMapLen : Z) (rowData : list value) : go col_out :=
  let length := TypeLength ty in
  dataTmp ← for_upto rows (fun rowIndex dataTmp =>
    v ← zget rowData rowIndex;
    if is_nil v then
      let charOffset := CharOffset rowIndex in
      c ← zget dataTmp charOffset;
      zset dataTmp charOffset (BMSetNull c rowIndex)
    else put dataTmp (rowIndex * size + bitMapLen) v)
    (replicate (Z.to_nat (bitMapLen + rows * size)) 0);
  Ret (mkColOut (appendUint32 [byte ty] (u32 length)) (appendUint32 [] (u32 (length * rows))) dataTmp).

(** The stores [dataTmp[offset+k] = byte(v >> (8*k))]. *)
Definition put2 (d : list Z) (offset v : Z) : go (list Z) :=
  d ← zset d offset (byte v);
  zset d (offset + 1) (byte (Z.shiftr v 8)).
Definition put4 (d : list Z) (offset v : Z) : go (list Z) :=
  d ← zset d offset (byte v);
  d ← zset d (offset + 1) (byte (Z.shiftr v 8));
  d ← zset d (offset + 2) (byte (Z.shiftr v 16));
  zset d (offset + 3) (byte (Z.shiftr v 24)).
Definition put8 (d : list Z) (offset v : Z) : go (list Z) :=
  d ← zset d offset (byte v);
  d ← zset d (offset + 1) (byte (Z.shiftr v 8));
  d ← zset d (offset + 2) (byte (Z.shiftr v 16));
  d ← zset d (offset + 3) (byte (Z.shiftr v 24));
  d ← zset d (offset + 4) (byte (Z.shiftr v 32));
  d ← zset d (offset + 5) (byte (Z.shiftr v 40));
  d ← zset d (offset + 6) (byte (Z.shiftr v 48));
  zset d (offset + 7) (byte (Z.shiftr v 56)).

Definition bool_column := fixed_column TSDB_DATA_TYPE_BOOL 1 (fun d off v =>
  match v with TaosBool b => if b then zset d off 1 else Ret d | _ => Err ErrDataTypeWrong end).
Definition tinyint_column := fixed_column TSDB_DATA_TYPE_TINYINT 1 (fun d off v =>
  match v with TaosTinyint z => zset d off (byte z) | _ => Err ErrDataTypeWrong end).
Definition smallint_column := fixed_column TSDB_DATA_TYPE_SMALLINT Int16Size (fun d off v =>
  match v with TaosSmallint z => put2 d off z | _ => Err ErrDataTypeWrong end).
Definition int_column := fixed_column TSDB_DATA_TYPE_INT Int32Size (fun d off v =>
  match v with TaosInt z => put4 d off z | _ => Err ErrDataTypeWrong end).
Definition bigint_column := fixed_column TSDB_DATA_TYPE_BIGINT Int64Size (fun d off v =>
  match v with TaosBigint z => put8 d off z | _ => Err ErrDataTypeWrong end).
Definition utinyint_column := fixed_column TSDB_DATA_TYPE_UTINYINT 1 (fun d off v =>
  match v with TaosUTinyint z => zset d off (u8 z) | _ => Err ErrDataTypeWrong end).
Definition usmallint_column := fixed_column TSDB_DATA_TYPE_USMALLINT UInt16Size (fun d off v =>
  match v with TaosUSmallint z => put2 d off z | _ => Err ErrDataTypeWrong end).
Definition uint_column := fixed_column TSDB_DATA_TYPE_UINT UInt32Size (fun d off v =>
  match v with TaosUInt z => put4 d off z | _ => Err ErrDataTypeWrong end).
Definition ubigint_column := fixed_column TSDB_DATA_TYPE_UBIGINT UInt64Size (fun d off v =>
  match v with TaosUBigint z => put8 d off z | _ => Err ErrDataTypeWrong end).
Definition float_column := fixed_column TSDB_DATA_TYPE_FLOAT Float32Size (fun d off v =>
  match v with TaosFloat vv => put4 d off vv | _ => Err ErrDataTypeWrong end).
Definition double_column := fixed_column TSDB_DATA_TYPE_DOUBLE Float64Size (fun d off v =>
  match v with TaosDouble vv => put8 d off vv | _ => Err ErrDataTypeWrong end).
Definition timestamp_column := fixed_column TSDB_DATA_TYPE_TIMESTAMP Int64Size (fun d off v =>
  match v with
  | TaosTimestamp t p => vv ← TimeToTimestamp t p; put8 d off vv
  | _ => Err ErrDataTypeWrong
  end).

(** The cases of variable-length types: an [int32] offset per row (-1 for nil), then for each
    value its [uint16] length and its bytes; [payload] is the type assertion and the encoding. *)
Definition var_column (ty : Z) (payload : value -> option (list Z)) (rows bitMapLen : Z)
    (rowData : list value) : go col_out :=
  st ← for_upto rows (fun rowIndex st =>
    let '(dataTmp, length) := st in
    let offset := Int32Size * rowIndex in
    v ← zget rowData rowIndex;
    if is_nil v then
      dataTmp ← for_upto Int32Size (fun i d => zset d (offset + i) (byte 255)) dataTmp;
      Ret (dataTmp, length)
    else match payload v with
    | None => Err ErrDataTypeWrong
    | Some pl =>
      dataTmp ← for_upto Int32Size (fun i d =>
        zset d (offset + i) (byte (Z.shiftr length (8 * i)))) dataTmp;
      let dataTmp := appendUint16 dataTmp (u16 (zlen pl)) in
      let dataTmp := dataTmp ++ pl in
      Ret (dataTmp, length + (zlen pl + Int16Size))
    end) (replicate (Z.to_nat (Int32Size * rows)) 0, 0);
  let '(dataTmp, length) := st in
  Ret (mkColOut (appendUint32 [byte ty] (u32 0)) (appendUint32 [] (u32 length)) dataTmp).

Definition binary_column := var_column TSDB_DATA_TYPE_BINARY (fun v =>
  match v with TaosBinary s => Some s | _ => None end).
Definition varbinary_column := var_column TSDB_DATA_TYPE_VARBINARY (fun v =>
  match v with TaosVarBinary s => Some s | _ => None end).
Definition geometry_column := var_column TSDB_DATA_TYPE_GEOMETRY (fun v =>
  match v with TaosGeometry s => Some s | _ => None end).
Definition nchar_column := var_column TSDB_DATA_TYPE_NCHAR (fun v =>
  match v with
  | TaosNchar s => Some (foldl (fun d r => appendUint32 d (u32 r)) [] (runes s))
  | _ => None
  end).
Definition json_column := var_column TSDB_DATA_TYPE_JSON (fun v =>
  match v with TaosJson s => Some s | _ => None end).

(** The type switch; a type outside it appends nothing. *)
Definition serialize_column (ty : rtype) (rows bitMapLen : Z) (rowData : list value) : go col_out :=
  match ty with
  | TaosBoolType => bool_column rows bitMapLen rowData
  | TaosTinyintType => tinyint_column rows bitMapLen rowData
  | TaosSmallintType => smallint_column rows bitMapLen rowData
  | TaosIntType => int_column rows bitMapLen rowData
  | TaosBigintType => bigint_column rows bitMapLen rowData
  | TaosUTinyintType => utinyint_column rows bitMapLen rowData
  | TaosUSmallintType => usmallint_column rows bitMapLen rowData
  | TaosUIntType => uint_column rows bitMapLen rowData
  | TaosUBigintType => ubigint_column rows bitMapLen rowData
  | TaosFloatType => float_column rows bitMapLen rowData
  | TaosDoubleType => double_column rows bitMapLen rowData
  | TaosBinaryType => binary_column rows bitMapLen rowData
  | TaosVarBinaryType => varbinary_column rows bitMapLen rowData
  | TaosGeometryType => geometry_column rows bitMapLen rowData
  | TaosNcharType => nchar_column rows bitMapLen rowData
  | TaosTimestampType => timestamp_column rows bitMapLen rowData
  | TaosJsonType => json_column rows bitMapLen rowData
  | _ => Ret (mkColOut [] [] [])
  end.

Definition SerializeRawBlock (params : list Param) (colType : ColumnTypes) : go (list Z) :=
  let columns := zlen params in
  p0 ← zget params 0;
  let rows := zlen (GetValues p0) in
  colTypes ← GetValue colType;
  if negb (zlen colTypes =? columns) then Err ErrColumnNumberNotMatch
  else
    let block := appendUint32 [] 1 in
    let block := appendUint32 block 0 in
    let block := appendUint32 block (u32 rows) in
    let block := appendUint32 block (u32 columns) in
    let block := appendUint32 block 0 in
    let block := appendUint64 block 0 in
    let bitMapLen := BitmapLen rows in
    st ← for_upto columns (fun colIndex st =>
      let '(colInfoData, lengthData, data) := st in
      ct ← zget colTypes colIndex;
      match ct with
      | None => Panic
      | Some ct =>
        p ← zget params colIndex;
        out ← serialize_column (ct_Type ct) rows bitMapLen (GetValues p);
        Ret (colInfoData ++ co_info out, lengthData ++ co_length out, data ++ co_data out)
      end) ([], [], []);
    let '(colInfoData, lengthData, data) := st in
    let block := block ++ colInfoData ++ lengthData ++ data in
    for_upto Int32Size (fun i block =>
      zset block (4 + i) (byte (Z.shiftr (zlen block) (8 * i)))) block.

End Ser.

