(* ===== verification/BlockRoundtrip.v ===== *)
(** * BlockRoundtrip: what the serializer writes, the parser reads back

    Proves that [Ser.SerializeRawBlock] followed by [ReadBlock] is the identity on well-typed
    columns, and the facts about the null bitmap and the column layouts this rests on. *)
From S2P Require Import Prelude Common Utf8 RawBlock Param Serializer.
#[local] Open Scope Z_scope.

(** ** The null bitmap *)

Definition bit_of (i : Z) : Z := 7 - i mod 8.

Lemma BitPos_mod n : Ser.BitPos n = n mod 8.
Proof. unfold Ser.BitPos. change (Z.shiftl 1 3 - 1) with (Z.ones 3). by rewrite Z.land_ones. Qed.

Lemma CharOffset_div n : Ser.CharOffset n = n / 8.
Proof. unfold Ser.CharOffset. by rewrite Z.shiftr_div_pow2. Qed.

Lemma BitmapLen_div n : Ser.BitmapLen n = (n + 7) / 8.
Proof. unfold Ser.BitmapLen. change (n + (Z.shiftl 1 3 - 1)) with (n + 7). by rewrite Z.shiftr_div_pow2. Qed.

(** The reader tests the bit of the row. *)
Lemma BMIsNull_testbit c i : BMIsNull c i = Z.testbit c (bit_of i).
Proof.
  unfold BMIsNull, bit_of. change (BitPos i) with (Ser.BitPos i). rewrite BitPos_mod.
  pose proof (Z.mod_pos_bound i 8 ltac:(lia)) as Hk. set (k := 7 - i mod 8) in *.
  rewrite Z.shiftl_1_l. assert (H0 : 0 <= k) by lia. clearbody k.
  assert (E : Z.land c (2 ^ k) = if Z.testbit c k then 2 ^ k else 0).
  { apply Z.bits_inj'. intros j Hj. rewrite Z.land_spec, Z.pow2_bits_eqb by lia.
    destruct (Z.eqb_spec k j) as [<-|Hne].
    - destruct (Z.testbit c k); rewrite ?Z.pow2_bits_true, ?Z.bits_0 by lia; done.
    - rewrite andb_false_r. destruct (Z.testbit c k); rewrite ?Z.pow2_bits_false, ?Z.bits_0 by lia; done. }
  rewrite E. pose proof (Z.pow_pos_nonneg 2 k ltac:(lia) H0).
  destruct (Z.testbit c k); [by rewrite Z.eqb_refl|]. apply Z.eqb_neq. lia.
Qed.

(** The writer adds the bit of the row; the sum neither carries nor overflows the byte while the
    bit is clear (all 256 bytes and 8 bits are checked). *)
Definition add_bit_sets (c k : Z) : bool :=
  Z.testbit c k || (byte (c + Z.shiftl 1 k) =? Z.setbit c k).

Lemma add_bit_sets_all : forallb (fun c => forallb (add_bit_sets c) (seqZ 0 8)) (seqZ 0 256) = true.
Proof. vm_compute. reflexivity. Qed.

Lemma BMSetNull_setbit c i :
  is_byte c -> Z.testbit c (bit_of i) = false -> Ser.BMSetNull c i = Z.setbit c (bit_of i).
Proof.
  intros Hc Hb. unfold Ser.BMSetNull. rewrite BitPos_mod. fold (bit_of i).
  pose proof (proj1 (forallb_forall _ _) add_bit_sets_all c) as H.
  rewrite <- list_elem_of_In, elem_of_seqZ in H. specialize (H ltac:(unfold is_byte in Hc; lia)).
  pose proof (proj1 (forallb_forall _ _) H (bit_of i)) as H2.
  rewrite <- list_elem_of_In, elem_of_seqZ in H2.
  assert (Hr : 0 <= bit_of i < 8) by (unfold bit_of; div_lia). specialize (H2 ltac:(lia)).
  unfold add_bit_sets in H2. rewrite Hb in H2. simpl in H2. by apply Z.eqb_eq in H2.
Qed.

Lemma BMSetNull_byte c i : is_byte (Ser.BMSetNull c i).
Proof. unfold Ser.BMSetNull. apply (wrap_u_range 8). lia. Qed.

(** [bm] is the bitmap of the first [j] of the values [vs]: the other bits are clear. *)
Definition bitmap_of (bm : list Z) (vs : list value) (j : nat) : Prop :=
  zlen bm = Ser.BitmapLen (zlen vs) /\ is_bytes bm /\ forall i v, vs !! i = Some v ->
    exists c, bm !! (Nat.div i 8) = Some c /\ Z.testbit c (bit_of (Z.of_nat i)) = ((i <? j)%nat && is_nil v).

Lemma bitmap_of_empty vs :
  bitmap_of (replicate (Z.to_nat (Ser.BitmapLen (zlen vs))) 0) vs 0.
Proof.
  rewrite BitmapLen_div. pose proof (zlen_nonneg vs). split; [|split].
  - rewrite zlen_replicate, BitmapLen_div. div_lia.
  - apply Forall_replicate. unfold is_byte. lia.
  - intros i v Hi. apply lookup_lt_Some in Hi. exists 0. split.
    + apply lookup_replicate_2. unfold zlen in *.
      pose proof (Nat.div_mod_eq i 8). pose proof (Nat.mod_upper_bound i 8 ltac:(lia)). div_lia.
    + rewrite Z.bits_0. by replace (i <? 0)%nat with false.
Qed.

(** Two rows share a byte and a bit only when they are the same row. *)
Lemma bit_of_inj (i j : nat) :
  Nat.div i 8 = Nat.div j 8 -> bit_of (Z.of_nat i) = bit_of (Z.of_nat j) -> i = j.
Proof.
  unfold bit_of. intros Hd Hm.
  pose proof (Nat.div_mod_eq i 8). pose proof (Nat.div_mod_eq j 8).
  pose proof (Nat2Z.inj_mod i 8). pose proof (Nat2Z.inj_mod j 8). simpl in *. lia.
Qed.

Lemma bitmap_of_step_val bm vs j v :
  bitmap_of bm vs j -> vs !! j = Some v -> is_nil v = false -> bitmap_of bm vs (S j).
Proof.
  intros (Hl & Hb & Hbits) Hj Hv. split; [done|]. split; [done|]. intros i w Hi.
  destruct (Hbits i w Hi) as (c & Hc & Ht). exists c. split; [done|]. rewrite Ht.
  destruct (decide (i = j)) as [->|].
  - replace w with v by congruence. by rewrite Hv, !andb_false_r.
  - f_equal. apply eq_true_iff_eq. rewrite !Nat.ltb_lt. lia.
Qed.

Lemma bitmap_of_step_nil bm vs j :
  bitmap_of bm vs j -> vs !! j = Some VNil ->
  exists c, bm !! (Nat.div j 8) = Some c /\ bitmap_of (<[Nat.div j 8 := Ser.BMSetNull c (Z.of_nat j)]> bm) vs (S j).
Proof.
  intros (Hl & Hb & Hbits) Hj. destruct (Hbits j VNil Hj) as (c & Hc & Ht).
  rewrite Nat.ltb_irrefl in Ht. exists c. split; [done|].
  assert (Hcb : is_byte c) by (by eapply Forall_lookup_1 in Hb).
  pose proof (lookup_lt_Some _ _ _ Hc) as Hlt.
  split; [by rewrite zlen_insert|]. split.
  { apply Forall_insert; [done|apply BMSetNull_byte]. }
  intros i w Hi. destruct (Hbits i w Hi) as (c' & Hc' & Ht').
  rewrite BMSetNull_setbit by done.
  destruct (decide (Nat.div j 8 = Nat.div i 8)) as [Hd|Hd].
  - exists (Z.setbit c (bit_of (Z.of_nat j))). rewrite <- Hd, list_lookup_insert_eq by done.
    split; [done|]. rewrite <- Hd in Hc'. replace c' with c in Ht' by congruence.
    rewrite Z.setbit_eqb by (unfold bit_of; div_lia).
    destruct (Z.eqb_spec (bit_of (Z.of_nat j)) (bit_of (Z.of_nat i))) as [He|He].
    + pose proof (bit_of_inj j i Hd He). subst i. replace w with VNil by congruence. simpl.
      by replace (j <? S j)%nat with true by (symmetry; apply Nat.ltb_lt; lia).
    + simpl. rewrite Ht'. f_equal. apply eq_true_iff_eq. rewrite !Nat.ltb_lt.
      assert (i <> j) by congruence. lia.
  - exists c'. rewrite list_lookup_insert_ne by done. split; [done|]. rewrite Ht'.
    f_equal. apply eq_true_iff_eq. rewrite !Nat.ltb_lt. assert (i <> j) by congruence. lia.
Qed.

(** ** Little-endian appends and stores *)

Lemma appendUint16_le b v : Ser.appendUint16 b v = b ++ le_bytes 2 v.
Proof. done. Qed.

Lemma appendUint32_le b v : Ser.appendUint32 b v = b ++ le_bytes 4 v.
Proof. unfold Ser.appendUint32. cbn [le_bytes]. by rewrite !Z.shiftr_shiftr by lia. Qed.

Lemma appendUint64_le b v : Ser.appendUint64 b v = b ++ le_bytes 8 v.
Proof. unfold Ser.appendUint64. cbn [le_bytes]. by rewrite !Z.shiftr_shiftr by lia. Qed.

Lemma appendUint32_u32 b v : Ser.appendUint32 b (u32 v) = b ++ le_bytes 4 v.
Proof. rewrite appendUint32_le. f_equal. apply (le_bytes_wrap 4). Qed.

(** A chain of stores at consecutive offsets from the end of [pre]. *)
Ltac store_chain :=
  repeat first
    [ erewrite (zset_app_r _ _ 0) by (simpl; lia)
    | erewrite (zset_app_r _ _ 1) by (simpl; lia)
    | erewrite (zset_app_r _ _ 2) by (simpl; lia)
    | erewrite (zset_app_r _ _ 3) by (simpl; lia)
    | erewrite (zset_app_r _ _ 4) by (simpl; lia)
    | erewrite (zset_app_r _ _ 5) by (simpl; lia)
    | erewrite (zset_app_r _ _ 6) by (simpl; lia)
    | erewrite (zset_app_r _ _ 7) by (simpl; lia) ]; cbn [mbind go_mbind].

Lemma put2_mid pre post v :
  Ser.put2 (pre ++ replicate 2 0 ++ post) (zlen pre) v = Ret (pre ++ le_bytes 2 v ++ post).
Proof. unfold Ser.put2. cbn [replicate app]. do 2 store_chain. done. Qed.

Lemma put4_mid pre post v :
  Ser.put4 (pre ++ replicate 4 0 ++ post) (zlen pre) v = Ret (pre ++ le_bytes 4 v ++ post).
Proof.
  unfold Ser.put4. cbn [replicate app]. do 4 store_chain.
  cbn [le_bytes app]. by rewrite !Z.shiftr_shiftr by lia.
Qed.

Lemma put8_mid pre post v :
  Ser.put8 (pre ++ replicate 8 0 ++ post) (zlen pre) v = Ret (pre ++ le_bytes 8 v ++ post).
Proof.
  unfold Ser.put8. cbn [replicate app]. do 8 store_chain.
  cbn [le_bytes app]. by rewrite !Z.shiftr_shiftr by lia.
Qed.

(** ** Fixed-width columns *)

Definition cell (size : nat) (bits : value -> Z) (v : value) : list Z :=
  if is_nil v then replicate size 0 else le_bytes size (bits v).

Lemma zlen_cell size bits v : zlen (cell size bits v) = Z.of_nat size.
Proof. unfold cell. destruct (is_nil v); [apply zlen_replicate|apply zlen_le_bytes]. Qed.

Lemma cells_sizes size bits vs : Forall (fun c => zlen c = Z.of_nat size) (cell size bits <$> vs).
Proof. apply Forall_fmap, Forall_true. intros. apply zlen_cell. Qed.

(** A store that writes the [size] bytes of [bits v]. *)
Definition put_ok (size : nat) (bits : value -> Z) (put : list Z -> Z -> value -> go (list Z))
    (v : value) : Prop :=
  forall pre post, put (pre ++ replicate size 0 ++ post) (zlen pre) v
                   = Ret (pre ++ le_bytes size (bits v) ++ post).

Lemma fixed_column_spec ty size put bits vs :
  Forall (fun v => is_nil v = true \/ put_ok size bits put v) vs ->
  exists bm, bitmap_of bm vs (length vs) /\
    Ser.fixed_column ty (Z.of_nat size) put (zlen vs) (Ser.BitmapLen (zlen vs)) vs
    = Ret (Ser.mkColOut (byte ty :: le_bytes 4 (TypeLength ty))
             (le_bytes 4 (TypeLength ty * zlen vs)) (bm ++ concat (cell size bits <$> vs))).
Proof.
  intros Hvs. unfold Ser.fixed_column. set (n := length vs).
  pose proof (zlen_nonneg vs) as Hn0.
  assert (Hbl : 0 <= Ser.BitmapLen (zlen vs)) by (rewrite BitmapLen_div; div_lia).
  match goal with |- context [for_upto _ ?b ?s] =>
    destruct (for_upto_inv (fun j d => exists bm, bitmap_of bm vs (Z.to_nat j) /\
      d = bm ++ concat (cell size bits <$> take (Z.to_nat j) vs)
             ++ replicate ((n - Z.to_nat j) * size) 0) b (zlen vs) s)
      as (s' & E & bm & Hbm & ->)
  end; [done| | |].
  - eexists. split; [apply bitmap_of_empty|]. change (Z.to_nat 0) with 0%nat.
    rewrite take_0. cbn [fmap list_fmap concat app].
    rewrite <- replicate_add. f_equal. unfold n, zlen in *. lia.
  - intros j s Hj (bm & Hbm & ->). set (i := Z.to_nat j) in *.
    assert (Hi : (i < n)%nat) by (unfold i, n, zlen in *; lia).
    destruct (lookup_lt_is_Some_2 vs i Hi) as [v Hv].
    replace j with (Z.of_nat i) in * by lia.
    rewrite (zget_lookup _ _ _ Hv). cbn [mbind go_mbind].
    replace (Z.to_nat (Z.of_nat i + 1)) with (S i) by lia.
    rewrite (take_S_r _ _ _ Hv), fmap_app, concat_app. cbn [fmap list_fmap concat].
    rewrite app_nil_r.
    replace (n - i)%nat with (S (n - S i)) by lia. cbn [Nat.mul].
    rewrite replicate_add.
    destruct (is_nil v) eqn:Env.
    + assert (v = VNil) as -> by (by destruct v).
      destruct (bitmap_of_step_nil bm vs i Hbm Hv) as (c & Hc & Hbm').
      pose proof (lookup_lt_Some _ _ _ Hc) as Hlt.
      rewrite CharOffset_div. replace (Z.of_nat i / 8) with (Z.of_nat (i / 8)) by (by rewrite Nat2Z.inj_div).
      rewrite (zget_lookup _ _ c) by (by rewrite lookup_app_l).
      cbn [mbind go_mbind]. rewrite zset_in by (rewrite zlen_app; unfold zlen; lia).
      eexists. split; [done|]. eexists. split; [exact Hbm'|].
      rewrite Nat2Z.id, insert_app_l by done. unfold cell. simpl. by rewrite <- !app_assoc.
    + assert (Hp : put_ok size bits put v).
      { destruct (Forall_lookup_1 _ _ _ _ Hvs Hv) as [?|?]; [congruence|done]. }
      assert (Hoff : Z.of_nat i * Z.of_nat size + Ser.BitmapLen (zlen vs)
                     = zlen (bm ++ concat (cell size bits <$> take i vs))).
      { rewrite zlen_app, (zlen_concat_size _ _ (cells_sizes size bits _)), zlen_fmap.
        destruct Hbm as [-> _]. unfold zlen at 3. rewrite length_take. lia. }
      rewrite Hoff, app_assoc, Hp. eexists. split; [done|].
      eexists. split; [eapply bitmap_of_step_val; eauto|].
      unfold cell at 3. rewrite Env. by rewrite <- !app_assoc.
  - exists bm. replace (Z.to_nat (zlen vs)) with n in * by (unfold zlen; lia). split; [done|].
    rewrite E. cbn [mbind go_mbind]. rewrite !appendUint32_u32.
    unfold n. rewrite firstn_all, Nat.sub_diag. cbn [replicate Nat.mul]. by rewrite app_nil_r.
Qed.

(** ** Variable-length columns *)

Lemma store4_mid (f : Z -> Z) (pre post : list Z) off a0 a1 a2 a3 :
  off = zlen pre ->
  for_upto Int32Size (fun i d => zset d (off + i) (f i)) (pre ++ a0 :: a1 :: a2 :: a3 :: post)
  = Ret (pre ++ f 0 :: f 1 :: f 2 :: f 3 :: post).
Proof.
  intros ->. unfold for_upto. change (Z.to_nat Int32Size) with 4%nat. cbn [for_loop].
  change (0 + 1) with 1. change (1 + 1) with 2. change (2 + 1) with 3. do 4 store_chain. done.
Qed.

Lemma le_bytes_4_shift z :
  [byte (Z.shiftr z (8 * 0)); byte (Z.shiftr z (8 * 1)); byte (Z.shiftr z (8 * 2));
   byte (Z.shiftr z (8 * 3))] = le_bytes 4 z.
Proof. cbn [le_bytes]. by rewrite !Z.shiftr_shiftr by lia. Qed.

Section VarColumn.
Context (payload : value -> option (list Z)).

Definition var_bytes (v : value) : list Z := default [] (payload v).
Definition var_chunk (v : value) : list Z :=
  if is_nil v then [] else le_bytes 2 (zlen (var_bytes v)) ++ var_bytes v.
Definition var_blob (vs : list value) : list Z := concat (var_chunk <$> vs).
Definition var_head (vs : list value) (i : nat) : list Z :=
  le_bytes 4 (if is_nil (default VNil (vs !! i)) then -1 else zlen (var_blob (take i vs))).
Definition var_heads (vs : list value) : list (list Z) := var_head vs <$> seq 0 (length vs).

Lemma var_heads_sizes vs : Forall (fun c => zlen c = 4) (var_heads vs).
Proof. apply Forall_fmap, Forall_true. intros. apply (zlen_le_bytes 4). Qed.

Lemma zlen_heads_prefix vs j : zlen (concat (var_head vs <$> seq 0 j)) = Z.of_nat j * 4.
Proof.
  rewrite (zlen_concat_size 4).
  - rewrite zlen_fmap. unfold zlen. by rewrite length_seq.
  - apply Forall_fmap, Forall_true. intros. apply (zlen_le_bytes 4).
Qed.

Lemma var_blob_snoc vs i v :
  vs !! i = Some v -> var_blob (take (S i) vs) = var_blob (take i vs) ++ var_chunk v.
Proof.
  intros Hv. unfold var_blob. rewrite (take_S_r _ _ _ Hv), fmap_app, concat_app. simpl.
  by rewrite app_nil_r.
Qed.

Lemma var_column_spec ty bitMapLen vs :
  Forall (fun v => is_nil v = true \/ exists pl, payload v = Some pl) vs ->
  Ser.var_column ty payload (zlen vs) bitMapLen vs
  = Ret (Ser.mkColOut (byte ty :: le_bytes 4 0) (le_bytes 4 (zlen (var_blob vs)))
           (concat (var_heads vs) ++ var_blob vs)).
Proof.
  intros Hvs. unfold Ser.var_column. set (n := length vs). pose proof (zlen_nonneg vs) as Hn0.
  match goal with |- context [for_upto _ ?b ?s] =>
    destruct (for_upto_inv (fun j st => exists i, j = Z.of_nat i /\
      st = (concat (var_head vs <$> seq 0 i) ++ replicate (4 * (n - i)) 0 ++ var_blob (take i vs),
            zlen (var_blob (take i vs)))) b (zlen vs) s)
      as (s' & E & i & Hi & ->)
  end; [done| | |].
  - exists 0%nat. split; [done|]. rewrite Nat.sub_0_r. cbn [seq fmap list_fmap concat app].
    rewrite take_0. unfold var_blob. cbn [fmap list_fmap concat]. rewrite app_nil_r.
    f_equal. f_equal. unfold n, zlen, Int32Size. lia.
  - intros j s Hj (i & -> & ->).
    assert (Hi : (i < n)%nat) by (unfold n, zlen in *; lia).
    destruct (lookup_lt_is_Some_2 vs i Hi) as [v Hv].
    rewrite (zget_lookup _ _ _ Hv). cbn [mbind go_mbind].
    replace (4 * (n - i))%nat with (4 + 4 * (n - S i))%nat by lia.
    cbn [Nat.add replicate app].
    assert (Hoff : Int32Size * Z.of_nat i = zlen (concat (var_head vs <$> seq 0 i))).
    { rewrite zlen_heads_prefix. unfold Int32Size. lia. }
    assert (Hhd : concat (var_head vs <$> seq 0 (S i))
                  = concat (var_head vs <$> seq 0 i) ++ var_head vs i).
    { rewrite seq_S, fmap_app, concat_app. cbn [fmap list_fmap concat Nat.add]. by rewrite app_nil_r. }
    destruct (is_nil v) eqn:Env.
    + rewrite (store4_mid (fun _ => byte 255)) by exact Hoff. cbn [mbind go_mbind].
      eexists. split; [done|]. exists (S i). split; [lia|].
      assert (Hch : var_chunk v = []) by (unfold var_chunk; by rewrite Env).
      assert (Hh : var_head vs i = le_bytes 4 (-1)).
      { unfold var_head. rewrite Hv. simpl default. by rewrite Env. }
      rewrite Hhd, (var_blob_snoc _ _ _ Hv), Hch, app_nil_r, Hh, <- app_assoc. done.
    + destruct (Forall_lookup_1 _ _ _ _ Hvs Hv) as [?|[pl Hpl]]; [congruence|].
      rewrite Hpl.
      rewrite (store4_mid (fun i0 => byte (Z.shiftr (zlen (var_blob (take i vs))) (8 * i0))))
        by exact Hoff.
      cbn [mbind go_mbind]. eexists. split; [done|]. exists (S i). split; [lia|].
      assert (Hch : var_chunk v = le_bytes 2 (zlen pl) ++ pl).
      { unfold var_chunk, var_bytes. by rewrite Env, Hpl. }
      assert (Hh : var_head vs i = le_bytes 4 (zlen (var_blob (take i vs)))).
      { unfold var_head. rewrite Hv. simpl default. by rewrite Env. }
      rewrite Hhd, (var_blob_snoc _ _ _ Hv), Hch, Hh, <- le_bytes_4_shift.
      rewrite appendUint16_le, (le_bytes_wrap 2).
      f_equal.
      * rewrite <- !app_assoc. cbn [app]. by rewrite <- !app_assoc.
      * rewrite !zlen_app, zlen_le_bytes. unfold Int16Size. lia.
  - rewrite E. cbn [mbind go_mbind]. assert (i = n) as -> by (unfold n, zlen in *; lia).
    rewrite !appendUint32_u32, Nat.sub_diag. unfold n. rewrite firstn_all. done.
Qed.

(** Reading the head of a row. *)
Lemma var_heads_lookup vs i v :
  vs !! i = Some v ->
  var_heads vs !! i = Some (le_bytes 4 (if is_nil v then -1 else zlen (var_blob (take i vs)))).
Proof.
  intros Hv. pose proof (lookup_lt_Some _ _ _ Hv). unfold var_heads.
  rewrite list_lookup_fmap, lookup_seq_lt by done. simpl. unfold var_head. by rewrite Hv.
Qed.

Lemma var_blob_split vs i v :
  vs !! i = Some v ->
  var_blob vs = var_blob (take i vs) ++ var_chunk v ++ var_blob (drop (S i) vs).
Proof.
  intros Hv. rewrite <- (take_drop_middle vs i v Hv) at 1. unfold var_blob.
  rewrite fmap_app, concat_app. done.
Qed.
End VarColumn.

(** ** Reading a column back *)

(** The type code the serializer writes for a bind type. *)
Definition type_code (ty : rtype) : option Z :=
  match ty with
  | TaosBoolType => Some TSDB_DATA_TYPE_BOOL
  | TaosTinyintType => Some TSDB_DATA_TYPE_TINYINT
  | TaosSmallintType => Some TSDB_DATA_TYPE_SMALLINT
  | TaosIntType => Some TSDB_DATA_TYPE_INT
  | TaosBigintType => Some TSDB_DATA_TYPE_BIGINT
  | TaosUTinyintType => Some TSDB_DATA_TYPE_UTINYINT
  | TaosUSmallintType => Some TSDB_DATA_TYPE_USMALLINT
  | TaosUIntType => Some TSDB_DATA_TYPE_UINT
  | TaosUBigintType => Some TSDB_DATA_TYPE_UBIGINT
  | TaosFloatType => Some TSDB_DATA_TYPE_FLOAT
  | TaosDoubleType => Some TSDB_DATA_TYPE_DOUBLE
  | TaosBinaryType => Some TSDB_DATA_TYPE_BINARY
  | TaosVarBinaryType => Some TSDB_DATA_TYPE_VARBINARY
  | TaosNcharType => Some TSDB_DATA_TYPE_NCHAR
  | TaosTimestampType => Some TSDB_DATA_TYPE_TIMESTAMP
  | TaosJsonType => Some TSDB_DATA_TYPE_JSON
  | TaosGeometryType => Some TSDB_DATA_TYPE_GEOMETRY
  | _ => None
  end.

(** A cell a column of type [ty] can hold and give back: nil, or a value of the bind type whose
    encoding fits the format (16-bit lengths; times representable at the precision of the block). *)
Definition cell_ok (prec : Z) (ty : rtype) (v : value) : Prop :=
  value_ok v /\
  match ty, v with
  | _, VNil => True
  | TaosBoolType, TaosBool _ | TaosTinyintType, TaosTinyint _ | TaosSmallintType, TaosSmallint _
  | TaosIntType, TaosInt _ | TaosBigintType, TaosBigint _ | TaosUTinyintType, TaosUTinyint _
  | TaosUSmallintType, TaosUSmallint _ | TaosUIntType, TaosUInt _ | TaosUBigintType, TaosUBigint _
  | TaosFloatType, TaosFloat _ | TaosDoubleType, TaosDouble _ => True
  | TaosBinaryType, TaosBinary s | TaosVarBinaryType, TaosVarBinary s
  | TaosJsonType, TaosJson s | TaosGeometryType, TaosGeometry s => zlen s < 65536
  | TaosNcharType, TaosNchar s => zlen (runes s) * 4 < 65536
  | TaosTimestampType, TaosTimestamp t p =>
      p = prec /\ precision_ok prec /\ exists ts, t = ts * tick prec /\ in_s 64 (ts * tick prec)
  | _, _ => False
  end.

(** The value the parser returns for a cell. *)
Definition read_back (v : value) : value :=
  match v with
  | TaosBool b => VBool b
  | TaosTinyint z => VInt8 z | TaosSmallint z => VInt16 z | TaosInt z => VInt32 z
  | TaosBigint z => VInt64 z | TaosUTinyint z => VUint8 z | TaosUSmallint z => VUint16 z
  | TaosUInt z => VUint32 z | TaosUBigint z => VUint64 z
  | TaosFloat z => VFloat32 z | TaosDouble z => VFloat64 z
  | TaosBinary s => VString s
  | TaosVarBinary s | TaosJson s | TaosGeometry s => VBytes s
  | TaosNchar s => VString (string_of_runes (runes s))
  | TaosTimestamp t _ => VTime t
  | v => v
  end.

(** The size of a column's header. *)
Definition header_size (t n : Z) : Z := if IsVarDataType t then 4 * n else Ser.BitmapLen n.

(** What the output of a case guarantees to the reader. *)
Record col_reads (prec t : Z) (vs : list value) (out : Ser.col_out) : Prop := {
  cr_table : table_ok t = true;
  cr_code : 0 <= t < 128;
  cr_info : exists b, Ser.co_info out = byte t :: le_bytes 4 b;
  cr_length : exists len, Ser.co_length out = le_bytes 4 len /\ 0 <= len /\
    zlen (Ser.co_data out) = header_size t (zlen vs) + len;
  cr_item : forall pre post row v,
    zlen (pre ++ Ser.co_data out ++ post) < 2 ^ 31 -> vs !! row = Some v ->
    item (pre ++ Ser.co_data out ++ post) (prec, None) (zlen vs) t (zlen pre) (Z.of_nat row)
    = Ret (read_back v)
}.

Lemma load_byte (pre l post : list Z) k c :
  l !! k = Some c -> load_u 1 (pre ++ l ++ post) (zlen pre + Z.of_nat k) = Ret c.
Proof.
  intros Hk. unfold load_u. pose proof (lookup_lt_Some _ _ _ Hk).
  rewrite <- (take_drop_middle l k c Hk), <- app_assoc, app_assoc. cbn [app].
  change (c :: drop (S k) l ++ post) with ([c] ++ drop (S k) l ++ post).
  rewrite load_mid.
  - cbn. f_equal. lia.
  - rewrite zlen_app. unfold zlen at 3. rewrite length_take. lia.
  - done.
Qed.

(** The items of a fixed-width column: [conv] is what the conversion function of the type does
    with the stored bytes. *)
Lemma fixed_col_reads prec t size put bits vs out :
  IsVarDataType t = false -> table_ok t = true -> 0 <= t < 128 ->
  TypeLength t = Z.of_nat size ->
  Forall (fun v => is_nil v = true \/ put_ok size bits put v) vs ->
  (forall v m pStart row, v ∈ vs -> is_nil v = false ->
    0 <= pStart -> 0 <= row -> pStart + row * Z.of_nat size < 2 ^ 31 ->
    load m (pStart + row * Z.of_nat size) (Z.of_nat size) = Ret (le_bytes size (bits v)) ->
    call_fixed (rawConvertFuncTable t) m pStart row (prec, None) = Ret (read_back v)) ->
  Ser.fixed_column t (Z.of_nat size) put (zlen vs) (Ser.BitmapLen (zlen vs)) vs = Ret out ->
  col_reads prec t vs out.
Proof.
  intros Hvar Ht Hc Hsz Hvs Hconv E.
  destruct (fixed_column_spec t size put bits vs Hvs) as (bm & Hbm & E').
  rewrite E in E'. injection E' as ->. clear E.
  destruct Hbm as (Hbl & Hbytes & Hbits).
  assert (Hcl : zlen (concat (cell size bits <$> vs)) = zlen vs * Z.of_nat size).
  { rewrite (zlen_concat_size _ _ (cells_sizes size bits vs)). by rewrite zlen_fmap. }
  assert (Hb0 : 0 <= Ser.BitmapLen (zlen vs)) by (rewrite <- Hbl; apply zlen_nonneg).
  split; [done|done| | |]; cbn [Ser.co_info Ser.co_length Ser.co_data].
  - eauto.
  - eexists. split; [done|]. rewrite Hsz. pose proof (zlen_nonneg vs).
    unfold header_size. rewrite Hvar, zlen_app, Hbl, Hcl. lia.
  - intros pre post row v Hlen Hv. unfold item, data_start. rewrite Hvar.
    destruct (Hbits row v Hv) as (c & Hcc & Htb). pose proof (lookup_lt_Some _ _ _ Hv) as Hrow.
    pose proof (lookup_lt_Some _ _ _ Hcc) as Hdiv.
    rewrite !zlen_app, Hbl, Hcl in Hlen. pose proof (zlen_nonneg pre). pose proof (zlen_nonneg post).
    change (BitmapLen (zlen vs)) with (Ser.BitmapLen (zlen vs)).
    unfold ItemIsNull. change (CharOffset (Z.of_nat row)) with (Ser.CharOffset (Z.of_nat row)).
    assert (Hrn : Z.of_nat row < zlen vs) by (unfold zlen; lia).
    assert (Hrz : Z.of_nat (row / 8) < Ser.BitmapLen (zlen vs)) by (rewrite <- Hbl; unfold zlen; lia).
    assert (Hms : Z.of_nat row * Z.of_nat size <= zlen vs * Z.of_nat size).
    { apply Z.mul_le_mono_nonneg_r; lia. }
    rewrite CharOffset_div. replace (Z.of_nat row / 8) with (Z.of_nat (row / 8)) by (by rewrite Nat2Z.inj_div).
    rewrite !AddPointer_small by (norm_pow; lia).
    rewrite <- !app_assoc. rewrite (load_byte pre bm _ _ c Hcc). cbn [mbind go_mbind].
    rewrite BMIsNull_testbit, Htb, (proj2 (Nat.ltb_lt _ _)) by done. simpl andb.
    destruct (is_nil v) eqn:Env; [by destruct v|].
    assert (Hve : v ∈ vs) by (apply list_elem_of_lookup; eauto).
    apply Hconv; try done; [lia|lia|norm_pow; lia|].
    rewrite app_assoc. eapply load_chunk with (i := row) (s := Z.of_nat size).
    + rewrite list_lookup_fmap, Hv. simpl. unfold cell. by rewrite Env.
    + apply cells_sizes.
    + rewrite zlen_app, Hbl. done.
Qed.

Section VarReads.
Context (payload : value -> option (list Z)).
Context (pre post : list Z) (vs : list value) (row : nat) (v : value).
Let m : mem := pre ++ (concat (var_heads payload vs) ++ var_blob payload vs) ++ post.
Hypothesis Hlen : zlen m < 2 ^ 31.
Hypothesis Hv : vs !! row = Some v.

Lemma zlen_var_heads : zlen (concat (var_heads payload vs)) = 4 * zlen vs.
Proof.
  rewrite (zlen_concat_size 4) by apply var_heads_sizes.
  unfold var_heads. rewrite zlen_fmap. unfold zlen. rewrite length_seq. lia.
Qed.

Lemma var_room : zlen pre + 4 * zlen vs + zlen (var_blob payload vs) + zlen post < 2 ^ 31.
Proof. unfold m in Hlen. rewrite !zlen_app, zlen_var_heads in Hlen. lia. Qed.

Lemma var_load_head :
  load_s 4 m (AddPointer (zlen pre) (Z.of_nat row * 4))
  = Ret (i32 (if is_nil v then -1 else zlen (var_blob payload (take row vs)))).
Proof.
  pose proof var_room. pose proof (zlen_nonneg pre). pose proof (zlen_nonneg post).
  pose proof (zlen_nonneg (var_blob payload vs)).
  assert (Z.of_nat row < zlen vs) by (apply lookup_lt_Some in Hv; unfold zlen; lia).
  rewrite AddPointer_small by (norm_pow; lia).
  unfold load_s, m. rewrite <- !app_assoc.
  rewrite (load_chunk pre _ (var_heads payload vs) row
    (le_bytes 4 (if is_nil v then -1 else zlen (var_blob payload (take row vs)))) 4).
  - cbn [fmap go_fmap]. f_equal. rewrite le_val_le_bytes. apply wrap_s_mod. lia.
  - by apply var_heads_lookup.
  - apply var_heads_sizes.
  - done.
Qed.

Context (pl : list Z).
Hypothesis Hpl : payload v = Some pl.
Hypothesis Hnil : is_nil v = false.
Hypothesis Hsmall : zlen pl < 65536.

Lemma var_memory : m = (pre ++ concat (var_heads payload vs) ++ var_blob payload (take row vs))
  ++ le_bytes 2 (zlen pl) ++ pl ++ var_blob payload (drop (S row) vs) ++ post.
Proof.
  unfold m. rewrite (var_blob_split payload vs row v Hv). unfold var_chunk, var_bytes.
  rewrite Hnil, Hpl. cbn [default from_option id]. by rewrite <- !app_assoc.
Qed.

Lemma var_off_bound :
  0 <= zlen (var_blob payload (take row vs)) /\
  zlen (var_blob payload (take row vs)) + 2 + zlen pl <= zlen (var_blob payload vs).
Proof.
  split; [apply zlen_nonneg|]. rewrite (var_blob_split payload vs row v Hv), !zlen_app.
  unfold var_chunk, var_bytes. rewrite Hnil, Hpl. cbn [default from_option id].
  rewrite zlen_app, (zlen_le_bytes 2). pose proof (zlen_nonneg (var_blob payload (drop (S row) vs))).
  lia.
Qed.

Let off : Z := zlen (var_blob payload (take row vs)).
Let pStart : Z := AddPointer (zlen pre) (Int32Size * zlen vs).

Lemma var_off_i32 : i32 off = off.
Proof.
  apply wrap_s_id; [lia|]. pose proof var_off_bound. pose proof var_room. pose proof (zlen_nonneg pre).
  pose proof (zlen_nonneg post). pose proof (zlen_nonneg vs). pose proof (zlen_nonneg pl).
  unfold off. range_lia.
Qed.

Lemma var_addr : AddPointer pStart off = zlen pre + 4 * zlen vs + off.
Proof.
  pose proof var_off_bound. pose proof var_room. pose proof (zlen_nonneg pre).
  pose proof (zlen_nonneg post). pose proof (zlen_nonneg vs). pose proof (zlen_nonneg pl).
  unfold pStart, off, Int32Size in *. rewrite (AddPointer_small (zlen pre)) by (norm_pow; lia).
  rewrite AddPointer_small; norm_pow; lia.
Qed.

Lemma var_load_len : load_u 2 m (AddPointer pStart off) = Ret (zlen pl).
Proof.
  rewrite var_addr, var_memory. rewrite load_u_mid.
  - f_equal. apply wrap_u_id. pose proof (zlen_nonneg pl). range_lia.
  - rewrite !zlen_app, zlen_var_heads. unfold off. lia.
Qed.

Lemma var_addr2 : AddPointer (AddPointer pStart off) 2 = zlen pre + 4 * zlen vs + off + 2.
Proof.
  rewrite var_addr. pose proof var_off_bound. pose proof var_room. pose proof (zlen_nonneg pre).
  pose proof (zlen_nonneg post). pose proof (zlen_nonneg vs). pose proof (zlen_nonneg pl).
  unfold off in *. rewrite AddPointer_small; norm_pow; lia.
Qed.

Lemma var_memory2 : exists pre2 post2,
  m = pre2 ++ pl ++ post2 /\ zlen pre2 = zlen pre + 4 * zlen vs + off + 2.
Proof.
  eexists ((pre ++ concat (var_heads payload vs) ++ var_blob payload (take row vs))
           ++ le_bytes 2 (zlen pl)), _.
  split; [rewrite var_memory; by rewrite <- !app_assoc|].
  rewrite !zlen_app, zlen_var_heads, zlen_le_bytes. unfold off. lia.
Qed.

Lemma rawGetBytes_var : rawGetBytes m (zlen pre) pStart (Z.of_nat row) = Ret (Some pl).
Proof.
  unfold rawGetBytes. rewrite var_load_head, Hnil. cbn [mbind go_mbind].
  change (zlen (var_blob payload (take row vs))) with off. rewrite var_off_i32.
  pose proof var_off_bound as [Hoff _].
  rewrite (proj2 (Z.eqb_neq _ _)) by (unfold off; lia).
  rewrite var_load_len. cbn [mbind go_mbind].
  destruct (Z.eqb_spec (zlen pl) 0) as [Hz|Hz].
  - destruct pl; [done|]. rewrite zlen_cons in Hz. pose proof (zlen_nonneg l). lia.
  - unfold Copy. rewrite var_addr2. destruct var_memory2 as (p2 & q2 & E & Hp2).
    rewrite E, load_mid by done. done.
Qed.

Lemma rawConvertNchar_var rs :
  pl = concat (le_bytes 4 <$> rs) -> Forall (fun r => is_scalar r = true) rs ->
  rawConvertNchar m (zlen pre) pStart (Z.of_nat row) = Ret (VString (string_of_runes rs)).
Proof.
  intros Epl Hrs. unfold rawConvertNchar. rewrite var_load_head, Hnil. cbn [mbind go_mbind].
  change (zlen (var_blob payload (take row vs))) with off. rewrite var_off_i32.
  pose proof var_off_bound as [Hoff Hoff2].
  rewrite (proj2 (Z.eqb_neq _ _)) by (unfold off; lia).
  rewrite var_load_len. cbn [mbind go_mbind].
  assert (Hsz : Forall (fun c => zlen c = 4) (le_bytes 4 <$> rs)).
  { apply Forall_fmap, Forall_true. intros. apply (zlen_le_bytes 4). }
  assert (Hl : zlen pl = zlen rs * 4) by (by rewrite Epl, (zlen_concat_size 4), zlen_fmap).
  rewrite Hl, Z.div_mul by lia.
  destruct (Z.eqb_spec (zlen rs) 0) as [Hz|Hz].
  { destruct rs; [done|]. rewrite zlen_cons in Hz. pose proof (zlen_nonneg rs). lia. }
  rewrite var_addr2. destruct var_memory2 as (p2 & q2 & E & Hp2).
  pose proof (zlen_nonneg rs) as Hr0.
  destruct (for_upto_inv (fun j d => exists i, j = Z.of_nat i /\
     d = take i rs ++ replicate (length rs - i) 0)
    (fun index binaryVal =>
      r ← load_s 4 m (AddPointer (zlen pre + 4 * zlen vs + off + 2) (u16 (index * 4)));
      zset binaryVal index r) (zlen rs) (replicate (Z.to_nat (zlen rs)) 0))
    as (d & Ed & i & Hi & ->); [done| | |].
  - exists 0%nat. split; [done|]. rewrite take_0. cbn [app]. f_equal. unfold zlen. lia.
  - intros j d Hj (i & -> & ->).
    assert (Hi : (i < length rs)%nat) by (unfold zlen in *; lia).
    destruct (lookup_lt_is_Some_2 rs i Hi) as [r Hr].
    assert (Hiz : Z.of_nat i < zlen rs) by lia.
    rewrite (wrap_u_id 16) by range_lia.
    pose proof var_room. pose proof (zlen_nonneg pre). pose proof (zlen_nonneg post).
    pose proof (zlen_nonneg vs).
    rewrite AddPointer_small by (unfold off in *; norm_pow; lia).
    rewrite <- Hp2. unfold load_s. rewrite E, Epl.
    rewrite (load_chunk p2 q2 _ i (le_bytes 4 r) 4); [|by rewrite list_lookup_fmap, Hr|done|done].
    cbn [fmap go_fmap mbind go_mbind].
    assert (Hsc : is_scalar r = true) by (by eapply Forall_lookup_1 in Hrs).
    rewrite le_val_le_bytes. change (2 ^ (8 * Z.of_nat 4)) with (2 ^ 32).
    change (8 * Z.of_nat 4) with 32. rewrite wrap_s_mod, wrap_s_id
      by (try lia; unfold is_scalar, MaxRune in Hsc; range_lia).
    replace (length rs - i)%nat with (S (length rs - S i)) by lia. cbn [replicate].
    rewrite (zset_app_r _ _ 0) by (simpl; unfold zlen in *; rewrite ?length_take; lia).
    eexists. split; [done|]. exists (S i). split; [lia|].
    rewrite (take_S_r _ _ _ Hr), <- app_assoc. done.
  - rewrite Ed. cbn [mbind go_mbind]. assert (i = length rs) as -> by (unfold zlen in *; lia).
    rewrite firstn_all, Nat.sub_diag. cbn [replicate]. by rewrite app_nil_r.
Qed.
End VarReads.

Lemma var_col_reads prec t payload vs out :
  IsVarDataType t = true -> table_ok t = true -> 0 <= t < 128 ->
  Forall (fun v => is_nil v = true \/ exists pl, payload v = Some pl /\ zlen pl < 65536) vs ->
  (forall m pHeader pStart row, load_s 4 m (AddPointer pHeader (row * 4)) = Ret (-1) ->
    call_var (rawConvertVarDataTable t) m pHeader pStart row = Ret VNil) ->
  (forall pre post row v pl,
    let m := pre ++ (concat (var_heads payload vs) ++ var_blob payload vs) ++ post in
    zlen m < 2 ^ 31 -> vs !! row = Some v -> is_nil v = false ->
    payload v = Some pl -> zlen pl < 65536 ->
    call_var (rawConvertVarDataTable t) m (zlen pre)
      (AddPointer (zlen pre) (Int32Size * zlen vs)) (Z.of_nat row) = Ret (read_back v)) ->
  Ser.var_column t payload (zlen vs) (Ser.BitmapLen (zlen vs)) vs = Ret out ->
  col_reads prec t vs out.
Proof.
  intros Hvar Ht Hc Hvs Hnil Hconv E.
  assert (Hvs' : Forall (fun v => is_nil v = true \/ exists pl, payload v = Some pl) vs).
  { eapply Forall_impl; [exact Hvs|]. intros v [?|(pl & ? & _)]; eauto. }
  rewrite var_column_spec in E by done.
  injection E as <-. split; [done|done| | |]; cbn [Ser.co_info Ser.co_length Ser.co_data].
  - eauto.
  - eexists. split; [done|]. split; [apply zlen_nonneg|].
    unfold header_size. rewrite Hvar, zlen_app, zlen_var_heads. lia.
  - intros pre post row v Hlen Hv. unfold item, data_start. rewrite Hvar.
    destruct (is_nil v) eqn:Env.
    + assert (v = VNil) as -> by (by destruct v). apply Hnil.
      by rewrite (var_load_head payload pre post vs row VNil Hlen Hv).
    + destruct (Forall_lookup_1 _ _ _ _ Hvs Hv) as [?|(pl & Hpl & Hs)]; [congruence|].
      by apply (Hconv pre post row v pl).
Qed.

(** The integer a fixed-width cell stores. *)
Definition fixed_bits (v : value) : Z :=
  match v with
  | TaosBool b => Z.b2z b
  | TaosTinyint z | TaosSmallint z | TaosInt z | TaosBigint z | TaosUTinyint z | TaosUSmallint z
  | TaosUInt z | TaosUBigint z | TaosFloat z | TaosDouble z => z
  | TaosTimestamp t p => match TimeToTimestamp t p with Ret ts => ts | _ => 0 end
  | _ => 0
  end.

Lemma zset1_ok z pre post :
  zset (pre ++ replicate 1 0 ++ post) (zlen pre) (byte z) = Ret (pre ++ le_bytes 1 z ++ post).
Proof. by rewrite (zset_app_r _ _ 0) by (simpl; lia). Qed.

Lemma bool_put_ok b pre post :
  (if b : bool then zset (pre ++ replicate 1 0 ++ post) (zlen pre) 1
   else Ret (pre ++ replicate 1 0 ++ post)) = Ret (pre ++ le_bytes 1 (Z.b2z b) ++ post).
Proof. destruct b; [apply (zset1_ok 1)|done]. Qed.

Lemma timestamp_put_ok prec t p ts pre post :
  p = prec -> precision_ok prec -> t = ts * tick prec -> in_s 64 (ts * tick prec) ->
  (vv ← TimeToTimestamp t p; Ser.put8 (pre ++ replicate 8 0 ++ post) (zlen pre) vv)
  = Ret (pre ++ le_bytes 8 (fixed_bits (TaosTimestamp t p)) ++ post).
Proof.
  intros -> Hp -> Hr. simpl fixed_bits. rewrite TimeToTimestamp_tick by done.
  cbn [mbind go_mbind]. apply put8_mid.
Qed.

Lemma load_s_of_load n m p z :
  (0 < n)%nat -> in_s (8 * Z.of_nat n) z -> load m p (Z.of_nat n) = Ret (le_bytes n z) ->
  load_s n m p = Ret z.
Proof.
  intros Hn Hz E. unfold load_s. rewrite E. cbn [fmap go_fmap].
  rewrite le_val_le_bytes, wrap_s_mod, wrap_s_id by (done || lia). done.
Qed.

Lemma load_u_of_load n m p z :
  in_u (8 * Z.of_nat n) z -> load m p (Z.of_nat n) = Ret (le_bytes n z) -> load_u n m p = Ret z.
Proof.
  intros Hz E. unfold load_u. rewrite E. cbn [fmap go_fmap].
  rewrite le_val_le_bytes. by rewrite Z.mod_small.
Qed.

(** The cases of fixed-width types: the store, then the conversion of the stored cell. *)
Ltac solve_put :=
  eapply Forall_impl; [eassumption|]; intros v [Hok Hty]; destruct v; try done;
  (left; reflexivity) || (right; intros pre post;
    first [apply zset1_ok | apply bool_put_ok | apply put2_mid | apply put4_mid | apply put8_mid
          | destruct Hty as (? & ? & ts & ? & ?); eapply timestamp_put_ok; eassumption ]).

Ltac solve_conv Hvs :=
  intros v m pStart row Hve Hn Hp Hr Hb Hload;
  pose proof (proj1 (Forall_forall _ _) Hvs v Hve) as [Hok Hty]; destruct v; try done;
  simpl in Hok;
  cbv [call_fixed rawConvertFuncTable Z.eqb Pos.eqb TSDB_DATA_TYPE_BOOL TSDB_DATA_TYPE_TINYINT
    TSDB_DATA_TYPE_SMALLINT TSDB_DATA_TYPE_INT TSDB_DATA_TYPE_BIGINT TSDB_DATA_TYPE_FLOAT
    TSDB_DATA_TYPE_DOUBLE TSDB_DATA_TYPE_TIMESTAMP TSDB_DATA_TYPE_UTINYINT TSDB_DATA_TYPE_USMALLINT
    TSDB_DATA_TYPE_UINT TSDB_DATA_TYPE_UBIGINT];
  unfold rawConvertBool, rawConvertTinyint, rawConvertSmallint, rawConvertInt, rawConvertBigint,
    rawConvertUTinyint, rawConvertUSmallint, rawConvertUInt, rawConvertUBigint, rawConvertFloat,
    rawConvertDouble, rawConvertTime, Int8Size, Int16Size, Int32Size, Int64Size, UInt8Size,
    UInt16Size, UInt32Size, UInt64Size, Float32Size, Float64Size;
  rewrite AddPointer_small by (norm_pow; lia);
  first [ erewrite load_s_of_load; [done|lia|exact Hok|exact Hload]
        | erewrite load_u_of_load; [done|exact Hok|exact Hload] ].

Lemma fixed_column_reads prec ty t size put vs :
  type_code ty = Some t -> IsVarDataType t = false -> TypeLength t = Z.of_nat size ->
  Forall (cell_ok prec ty) vs ->
  Forall (fun v => is_nil v = true \/ put_ok size fixed_bits put v) vs ->
  (forall v m pStart row, v ∈ vs -> is_nil v = false ->
    0 <= pStart -> 0 <= row -> pStart + row * Z.of_nat size < 2 ^ 31 ->
    load m (pStart + row * Z.of_nat size) (Z.of_nat size) = Ret (le_bytes size (fixed_bits v)) ->
    call_fixed (rawConvertFuncTable t) m pStart row (prec, None) = Ret (read_back v)) ->
  exists out,
    Ser.fixed_column t (Z.of_nat size) put (zlen vs) (Ser.BitmapLen (zlen vs)) vs = Ret out /\
    col_reads prec t vs out.
Proof.
  intros Ht Hvar Hsz Hvs Hput Hconv.
  destruct (fixed_column_spec t size put fixed_bits vs Hput) as (bm & Hbm & E).
  eexists. split; [exact E|].
  eapply fixed_col_reads; try exact Hconv; try exact E; try done.
  - destruct ty; try discriminate Ht; injection Ht as <-; done.
  - destruct ty; try discriminate Ht; injection Ht as <-; split; done.
Qed.

(** The cases of variable-length types. *)
Lemma var_column_reads prec ty t payload vs :
  type_code ty = Some t -> IsVarDataType t = true ->
  Forall (fun v => is_nil v = true \/ exists pl, payload v = Some pl /\ zlen pl < 65536) vs ->
  (forall m pHeader pStart row, load_s 4 m (AddPointer pHeader (row * 4)) = Ret (-1) ->
    call_var (rawConvertVarDataTable t) m pHeader pStart row = Ret VNil) ->
  (forall pre post row v pl,
    let m := pre ++ (concat (var_heads payload vs) ++ var_blob payload vs) ++ post in
    zlen m < 2 ^ 31 -> vs !! row = Some v -> is_nil v = false ->
    payload v = Some pl -> zlen pl < 65536 ->
    call_var (rawConvertVarDataTable t) m (zlen pre)
      (AddPointer (zlen pre) (Int32Size * zlen vs)) (Z.of_nat row) = Ret (read_back v)) ->
  exists out,
    Ser.var_column t payload (zlen vs) (Ser.BitmapLen (zlen vs)) vs = Ret out /\
    col_reads prec t vs out.
Proof.
  intros Ht Hvar Hvs Hnil Hconv.
  assert (Hvs' : Forall (fun v => is_nil v = true \/ exists pl, payload v = Some pl) vs).
  { eapply Forall_impl; [exact Hvs|]. intros v [?|(pl & ? & _)]; eauto. }
  eexists. split; [by apply var_column_spec|].
  eapply var_col_reads; try done; [| |by apply var_column_spec].
  - destruct ty; try discriminate Ht; injection Ht as <-; done.
  - destruct ty; try discriminate Ht; injection Ht as <-; split; done.
Qed.

Lemma nchar_payload_concat rs d :
  foldl (fun d r => Ser.appendUint32 d (u32 r)) d rs = d ++ concat (le_bytes 4 <$> rs).
Proof.
  revert d. induction rs as [|r rs IH]; intros d; cbn [foldl fmap list_fmap concat].
  - by rewrite app_nil_r.
  - rewrite IH, appendUint32_u32. by rewrite <- app_assoc.
Qed.

Lemma zlen_nchar_payload rs : zlen (concat (le_bytes 4 <$> rs)) = zlen rs * 4.
Proof.
  rewrite (zlen_concat_size 4), zlen_fmap; [done|].
  apply Forall_fmap, Forall_true. intros. apply (zlen_le_bytes 4).
Qed.

Ltac solve_payload :=
  eapply Forall_impl; [eassumption|]; intros v [Hok Hty]; destruct v; try done;
  (left; reflexivity) || (right; eexists; split; [reflexivity|]; assumption).

Ltac solve_var_nil :=
  intros m pHeader pStart row Hl; cbn [call_var];
  unfold call_var; simpl rawConvertVarDataTable;
  cbv [rawConvertVarDataTable Z.eqb Pos.eqb TSDB_DATA_TYPE_BINARY TSDB_DATA_TYPE_NCHAR
    TSDB_DATA_TYPE_JSON TSDB_DATA_TYPE_VARBINARY TSDB_DATA_TYPE_GEOMETRY];
  unfold rawConvertGeometry, rawConvertJson, rawConvertVarBinary, rawConvertBinary, rawConvertNchar,
    rawGetBytes; rewrite Hl; reflexivity.

Ltac solve_var_conv Hvs :=
  intros pre post row v pl m Hm Hv Hn Hpl Hs;
  pose proof (Forall_lookup_1 _ _ _ _ Hvs Hv) as [Hok Hty]; destruct v; try done;
  cbv [call_var rawConvertVarDataTable Z.eqb Pos.eqb TSDB_DATA_TYPE_BINARY TSDB_DATA_TYPE_NCHAR
    TSDB_DATA_TYPE_JSON TSDB_DATA_TYPE_VARBINARY TSDB_DATA_TYPE_GEOMETRY];
  unfold rawConvertGeometry, rawConvertJson, rawConvertVarBinary, rawConvertBinary;
  unfold m; erewrite rawGetBytes_var by eassumption; injection Hpl as <-; reflexivity.

Lemma serialize_column_reads prec ty t vs :
  type_code ty = Some t -> Forall (cell_ok prec ty) vs ->
  exists out, Ser.serialize_column ty (zlen vs) (Ser.BitmapLen (zlen vs)) vs = Ret out /\
    col_reads prec t vs out.
Proof.
  intros Ht Hvs. pose proof Ht as Ht0.
  destruct ty; try discriminate Ht; injection Ht as <-; cbn [Ser.serialize_column].
  - apply (fixed_column_reads prec TaosBoolType _ 1); [done|done|done|done|solve_put|].
    intros v m pStart row Hve Hn Hp Hr Hb Hload.
    pose proof (proj1 (Forall_forall _ _) Hvs v Hve) as [_ Hty]; destruct v; try done.
    simpl. unfold rawConvertBool. rewrite AddPointer_small by (norm_pow; lia).
    change (row * 1) with (row * Z.of_nat 1).
    rewrite (load_u_of_load 1 m _ (Z.b2z b)); [by destruct b| |done].
    destruct b; split; done.
  - apply (fixed_column_reads prec TaosTinyintType _ 1); [done|done|done|done|solve_put|solve_conv Hvs].
  - apply (fixed_column_reads prec TaosSmallintType _ 2); [done|done|done|done|solve_put|solve_conv Hvs].
  - apply (fixed_column_reads prec TaosIntType _ 4); [done|done|done|done|solve_put|solve_conv Hvs].
  - apply (fixed_column_reads prec TaosBigintType _ 8); [done|done|done|done|solve_put|solve_conv Hvs].
  - apply (fixed_column_reads prec TaosUTinyintType _ 1); [done|done|done|done|solve_put|solve_conv Hvs].
  - apply (fixed_column_reads prec TaosUSmallintType _ 2); [done|done|done|done|solve_put|solve_conv Hvs].
  - apply (fixed_column_reads prec TaosUIntType _ 4); [done|done|done|done|solve_put|solve_conv Hvs].
  - apply (fixed_column_reads prec TaosUBigintType _ 8); [done|done|done|done|solve_put|solve_conv Hvs].
  - apply (fixed_column_reads prec TaosFloatType _ 4); [done|done|done|done|solve_put|solve_conv Hvs].
  - apply (fixed_column_reads prec TaosDoubleType _ 8); [done|done|done|done|solve_put|solve_conv Hvs].
  - apply (var_column_reads prec TaosBinaryType); [done|done|solve_payload|solve_var_nil|solve_var_conv Hvs].
  - apply (var_column_reads prec TaosVarBinaryType); [done|done|solve_payload|solve_var_nil|solve_var_conv Hvs].
  - apply (var_column_reads prec TaosNcharType); [done|done| |solve_var_nil|].
    + eapply Forall_impl; [exact Hvs|]. intros v [Hok Hty]. destruct v; try done; [by left|].
      right. eexists. split; [reflexivity|].
      rewrite nchar_payload_concat. cbn [app]. by rewrite zlen_nchar_payload.
    + intros pre post row v pl m Hm Hv Hn Hpl Hs.
      pose proof (Forall_lookup_1 _ _ _ _ Hvs Hv) as [Hok Hty]; destruct v; try done.
      simpl. apply (rawConvertNchar_var _ pre post vs row (TaosNchar s) Hm Hv pl Hpl eq_refl Hs (runes s)).
      * injection Hpl as <-. by rewrite nchar_payload_concat.
      * by apply runes_scalar.
  - apply (fixed_column_reads prec TaosTimestampType _ 8); [done|done|done|done|solve_put|].
    intros v m pStart row Hve Hn Hp Hr Hb Hload.
    pose proof (proj1 (Forall_forall _ _) Hvs v Hve) as [_ Hty]; destruct v; try done.
    destruct Hty as (-> & Hp2 & ts & -> & Hts). simpl. unfold Int64Size.
    rewrite AddPointer_small by (norm_pow; lia). simpl fixed_bits in Hload.
    rewrite TimeToTimestamp_tick in Hload by done.
    rewrite (load_s_of_load 8 m _ ts); [| lia| |done].
    + cbn [mbind go_mbind]. by rewrite TimestampConvertToTime_ok by done.
    + pose proof (TimeToTimestamp_range (ts * tick prec) prec ts) as H.
      rewrite TimeToTimestamp_tick in H by done. by apply H.
  - apply (var_column_reads prec TaosJsonType); [done|done|solve_payload|solve_var_nil|solve_var_conv Hvs].
  - apply (var_column_reads prec TaosGeometryType); [done|done|solve_payload|solve_var_nil|solve_var_conv Hvs].
Qed.

(** ** The whole block *)

Lemma outs_cols_at prec m n (k : nat) base (outs0 outs : list Ser.col_out) codes vals :
  m = base ++ concat (Ser.co_data <$> (outs0 ++ outs)) ->
  zlen m < 2 ^ 31 ->
  (forall i out len, (outs0 ++ outs) !! i = Some out -> Ser.co_length out = le_bytes 4 len ->
    load_s 4 m (AddPointer 0 (RawBlockGetColumnLengthOffset (Z.of_nat k) + Z.of_nat i * Int32Size))
    = Ret (i32 len)) ->
  Forall3 (col_reads prec) codes vals outs ->
  Forall (fun vs => length vs = n) vals ->
  cols_at m 0 n k (prec, None) (zlen outs0) codes
    (zlen base + zlen (concat (Ser.co_data <$> outs0))) ((fun vs : list value => read_back <$> vs) <$> vals).
Proof.
  intros Em Hm Hlens H. revert outs0 Em Hlens.
  induction H as [|t vs out codes vals outs Hcr H IH]; intros outs0 Em Hlens Hn; [constructor|].
  apply Forall_cons_1 in Hn as [Hvn Hn]. destruct Hcr as [Htab Hcode _ (len & Hlen & Hl0 & Hdl) Hit].
  assert (Em' : m = (base ++ concat (Ser.co_data <$> outs0)) ++ Ser.co_data out
                    ++ concat (Ser.co_data <$> outs)).
  { rewrite Em, fmap_app, concat_app. by rewrite <- app_assoc. }
  set (p := zlen base + zlen (concat (Ser.co_data <$> outs0))).
  assert (Ep : p = zlen (base ++ concat (Ser.co_data <$> outs0))) by (unfold p; by rewrite zlen_app).
  assert (Hvz : zlen vs = Z.of_nat n) by (unfold zlen; lia).
  assert (Hroom : p + zlen (Ser.co_data out) <= zlen m).
  { rewrite Em', zlen_app, (zlen_app (Ser.co_data out)), <- Ep.
    pose proof (zlen_nonneg (concat (Ser.co_data <$> outs))). lia. }
  assert (Hp0 : 0 <= p) by (rewrite Ep; apply zlen_nonneg).
  assert (Hh0 : 0 <= header_size t (zlen vs)).
  { unfold header_size. rewrite BitmapLen_div, Hvz. destruct (IsVarDataType t); div_lia. }
  assert (Hds : data_start (Z.of_nat n) t p = p + header_size t (zlen vs)).
  { unfold data_start, header_size in *. rewrite Hvz in *.
    change (BitmapLen (Z.of_nat n)) with (Ser.BitmapLen (Z.of_nat n)).
    destruct (IsVarDataType t); apply AddPointer_small; unfold Int32Size; norm_pow; lia. }
  cbn [fmap list_fmap]. econstructor.
  - change (zlen outs0) with (Z.of_nat (length outs0)).
    apply (Hlens (length outs0) out len); [by apply list_lookup_middle|done].
  - done.
  - by rewrite length_fmap.
  - intros row v Hv. rewrite list_lookup_fmap in Hv.
    destruct (vs !! row) as [v0|] eqn:Ev; [|done]. injection Hv as <-.
    rewrite <- Hvz, Em', Ep. apply Hit; [by rewrite <- Em'|done].
  - assert (Hl : i32 len = len) by (apply wrap_s_id; range_lia).
    rewrite Hl, Hds, AddPointer_small by (norm_pow; lia).
    replace (p + header_size t (zlen vs) + len)
      with (zlen base + zlen (concat (Ser.co_data <$> (outs0 ++ [out])))).
    2: { unfold p. rewrite fmap_app, concat_app, zlen_app. cbn [fmap list_fmap concat].
         rewrite app_nil_r. lia. }
    replace (zlen outs0 + 1) with (zlen (outs0 ++ [out])) by (by rewrite zlen_app).
    apply IH; [by rewrite <- app_assoc|by rewrite <- app_assoc|done].
Qed.

(** The inputs of the round trip: one type per column, every column [n] rows long, every cell
    representable. *)
Record serializable (prec : Z) (params : list Param) (colType : ColumnTypes)
    (tys : list ColumnType) (codes : list Z) (n : nat) : Prop := {
  sz_nonempty : params <> [];
  sz_types : GetValue colType = Ret (Some <$> tys);
  sz_rows : Forall (fun p => length (GetValues p) = n) params;
  sz_cells : Forall2 (fun t p => Forall (cell_ok prec (ct_Type t)) (GetValues p)) tys params;
  sz_codes : Forall2 (fun t c => type_code (ct_Type t) = Some c) tys codes
}.

(** The rows the parser returns for bind parameters. *)
Definition rows_read (params : list Param) (n : nat) : list (list value) :=
  row_cells ((fun p => read_back <$> GetValues p) <$> params) <$> seq 0 n.

Definition block_header (rows cols len : Z) : list Z :=
  le_bytes 4 1 ++ le_bytes 4 len ++ le_bytes 4 rows ++ le_bytes 4 cols ++ le_bytes 4 0 ++ le_bytes 8 0.

Lemma zlen_block_header rows cols len : zlen (block_header rows cols len) = 28.
Proof. unfold block_header. by rewrite !zlen_app, !zlen_le_bytes. Qed.

(** The shape of the block. *)
Lemma SerializeRawBlock_shape prec params colType tys codes n :
  serializable prec params colType tys codes n ->
  exists outs,
    Forall3 (col_reads prec) codes (GetValues <$> params) outs /\
    let body := concat (Ser.co_info <$> outs) ++ concat (Ser.co_length <$> outs)
                ++ concat (Ser.co_data <$> outs) in
    Ser.SerializeRawBlock params colType
    = Ret (block_header (Z.of_nat n) (zlen params) (28 + zlen body) ++ body).
Proof.
  intros [Hne Hty Hrows Hcells Hcodes].
  assert (Hlen : length tys = length params) by (by eapply Forall2_length).
  assert (Hlenc : length tys = length codes) by (by eapply Forall2_length).
  unfold Ser.SerializeRawBlock.
  assert (exists p0, params !! 0%nat = Some p0) as [p0 Hp0] by (destruct params; [done|eauto]).
  pose proof (zget_lookup params 0 p0 Hp0) as Eg. change (Z.of_nat 0) with 0 in Eg. rewrite Eg. cbn [mbind go_mbind].
  assert (Hn : zlen (GetValues p0) = Z.of_nat n).
  { unfold zlen. by rewrite (Forall_lookup_1 _ _ _ _ Hrows Hp0). }
  rewrite Hn, Hty. cbn [mbind go_mbind].
  rewrite zlen_fmap. replace (zlen tys) with (zlen params) by (unfold zlen; lia).
  rewrite Z.eqb_refl. cbn [negb].
  match goal with |- context [for_upto (zlen params) ?b ?s] =>
    destruct (for_upto_inv (fun j st => exists i outs, j = Z.of_nat i /\
      Forall3 (col_reads prec) (take i codes) (GetValues <$> take i params) outs /\
      st = (concat (Ser.co_info <$> outs), concat (Ser.co_length <$> outs),
            concat (Ser.co_data <$> outs))) b (zlen params) s)
      as (st & E & i & outs & Hi & Houts & ->)
  end; [apply zlen_nonneg| | |].
  - exists 0%nat, []. split; [done|]. split; [constructor|done].
  - intros j st Hj (i & outs & -> & Houts & ->).
    destruct (lookup_lt_is_Some_2 params i ltac:(unfold zlen in *; lia)) as [p Hp].
    destruct (lookup_lt_is_Some_2 tys i ltac:(unfold zlen in *; lia)) as [ct Hct].
    destruct (lookup_lt_is_Some_2 codes i ltac:(unfold zlen in *; lia)) as [c Hc].
    rewrite (zget_lookup _ i (Some ct)) by (by rewrite list_lookup_fmap, Hct).
    cbn [mbind go_mbind]. rewrite (zget_lookup _ _ _ Hp). cbn [mbind go_mbind].
    pose proof (Forall_lookup_1 _ _ _ _ Hrows Hp) as Hpn. cbv beta in Hpn.
    destruct (serialize_column_reads prec (ct_Type ct) c (GetValues p)) as (out & Eo & Hcr).
    { by eapply (Forall2_lookup_lr _ _ _ _ _ _ Hcodes). }
    { by eapply (Forall2_lookup_lr _ _ _ _ _ _ Hcells). }
    replace (zlen (GetValues p)) with (Z.of_nat n) in Eo by (unfold zlen; lia).
    rewrite Eo. cbn [mbind go_mbind]. eexists. split; [done|].
    exists (S i), (outs ++ [out]). split; [lia|]. split.
    + rewrite (take_S_r _ _ _ Hc), (take_S_r _ _ _ Hp), fmap_app.
      apply Forall3_app; [done|]. constructor; [done|constructor].
    + by rewrite !fmap_app, !concat_app; cbn [fmap list_fmap concat]; rewrite !app_nil_r.
  - assert (i = length params) as -> by (unfold zlen in *; lia).
    exists outs. split.
    { rewrite !firstn_all2 in Houts by lia. done. }
    rewrite E. cbn [mbind go_mbind].
    set (body := concat (Ser.co_info <$> outs) ++ _). rewrite !appendUint32_u32, !appendUint32_le, appendUint64_le.
    set (blk := ((((((_ ++ _) ++ _) ++ _) ++ _) ++ _) ++ body)).
    assert (Eb : blk = le_bytes 4 1 ++ 0 :: 0 :: 0 :: 0 :: (le_bytes 4 (Z.of_nat n)
      ++ le_bytes 4 (zlen params) ++ le_bytes 4 0 ++ le_bytes 8 0 ++ body)).
    { unfold blk. rewrite <- !app_assoc. done. }
    assert (Hbl : zlen blk = 28 + zlen body).
    { rewrite Eb, zlen_app, !zlen_cons, !zlen_app, !zlen_le_bytes. lia. }
    clearbody body. unfold for_upto. rewrite (for_loop_ext_inv (fun b => zlen b = zlen blk) _
      (fun i d => zset d (4 + i) (byte (Z.shiftr (zlen blk) (8 * i))))); [|done| |].
    + change (for_loop (Z.to_nat Int32Size) 0) with (@for_upto (list Z) Int32Size).
      clearbody blk. rewrite <- Hbl. generalize (zlen blk). intros L. subst blk.
      rewrite (store4_mid (fun i => byte (Z.shiftr L (8 * i)))) by done.
      reflexivity.
    + intros j s ->. done.
    + intros j s s' Hs Hz. by rewrite (zlen_zset _ _ _ _ Hz).
Qed.

Section Shape.
Context (prec : Z) (codes : list Z) (vals : list (list value)) (outs : list Ser.col_out) (n : nat).
Hypothesis Houts : Forall3 (col_reads prec) codes vals outs.
Hypothesis Hn : Forall (fun vs => length vs = n) vals.
Let body : list Z := concat (Ser.co_info <$> outs) ++ concat (Ser.co_length <$> outs)
                     ++ concat (Ser.co_data <$> outs).
Let m : mem := block_header (Z.of_nat n) (zlen codes) (28 + zlen body) ++ body.
Hypothesis Hm : zlen m < 2 ^ 31.

Lemma shape_infos : Forall (fun c => zlen c = 5) (Ser.co_info <$> outs).
Proof.
  clear -Houts. induction Houts as [|t vs out cs' vs' os' Hcr HF IH]; [constructor|].
  cbn [fmap list_fmap]; constructor; [|apply IH; done].
  destruct (cr_info _ _ _ _ Hcr) as [b ->]. by rewrite zlen_cons, (zlen_le_bytes 4).
Qed.

Lemma shape_lengths : Forall (fun c => zlen c = 4) (Ser.co_length <$> outs).
Proof.
  clear -Houts. induction Houts as [|t vs out cs' vs' os' Hcr HF IH]; [constructor|].
  cbn [fmap list_fmap]; constructor; [|apply IH; done].
  destruct (cr_length _ _ _ _ Hcr) as (len & -> & _). apply (zlen_le_bytes 4).
Qed.

Lemma shape_codes : length codes = length outs /\ length vals = length outs.
Proof.
  pose proof (Forall3_length_lm _ _ _ _ Houts). pose proof (Forall3_length_lr _ _ _ _ Houts). lia.
Qed.

Let base : list Z := block_header (Z.of_nat n) (zlen codes) (28 + zlen body)
  ++ concat (Ser.co_info <$> outs) ++ concat (Ser.co_length <$> outs).

Lemma zlen_base : zlen base = 28 + 9 * zlen codes.
Proof.
  unfold base. rewrite !zlen_app, zlen_block_header.
  rewrite (zlen_concat_size 5 _ shape_infos), (zlen_concat_size 4 _ shape_lengths), !zlen_fmap.
  pose proof shape_codes. unfold zlen. lia.
Qed.

Lemma m_base : m = base ++ concat (Ser.co_data <$> outs).
Proof. unfold m, base, body. by rewrite <- !app_assoc. Qed.

Lemma zlen_m : 28 + 9 * zlen codes <= zlen m.
Proof. rewrite m_base, zlen_app, zlen_base. pose proof (zlen_nonneg (concat (Ser.co_data <$> outs))). lia. Qed.

Lemma shape_load_length i out len :
  outs !! i = Some out -> Ser.co_length out = le_bytes 4 len ->
  load_s 4 m (AddPointer 0 (RawBlockGetColumnLengthOffset (zlen codes) + Z.of_nat i * Int32Size))
  = Ret (i32 len).
Proof.
  intros Hi Hl. pose proof zlen_m. pose proof (zlen_nonneg codes).
  assert (Z.of_nat i < zlen codes).
  { apply lookup_lt_Some in Hi. pose proof shape_codes. unfold zlen. lia. }
  unfold RawBlockGetColumnLengthOffset. change ColInfoOffset with 28. change ColInfoSize with 5.
  unfold Int32Size. rewrite (wrap_u_id 64) by range_lia.
  rewrite AddPointer_small by (norm_pow; lia). unfold load_s, m, body.
  rewrite app_assoc.
  rewrite (load_chunk _ _ (Ser.co_length <$> outs) i (le_bytes 4 len) 4).
  - cbn [fmap go_fmap]. f_equal. rewrite le_val_le_bytes. apply wrap_s_mod. lia.
  - rewrite list_lookup_fmap, Hi. simpl. by rewrite Hl.
  - apply shape_lengths.
  - rewrite zlen_app, zlen_block_header, (zlen_concat_size 5 _ shape_infos), zlen_fmap.
    pose proof shape_codes. unfold zlen. lia.
Qed.

Lemma shape_ReadBlock :
  ReadBlock m 0 (Z.of_nat n) codes prec
  = Ret (rows_of n (length codes) ((fun vs : list value => read_back <$> vs) <$> vals)).
Proof.
  unfold ReadBlock. apply read_block_spec. eexists. split; [|done].
  pose proof (zlen_nonneg codes). pose proof zlen_m.
  assert (Ep : AddPointer 0 (RawBlockGetColDataOffset (zlen codes)) = zlen base + 0).
  { rewrite zlen_base. unfold RawBlockGetColDataOffset, Int32Size. change ColInfoOffset with 28.
    change ColInfoSize with 5. rewrite (wrap_u_id 64), AddPointer_small by range_lia. lia. }
  rewrite Ep. apply (outs_cols_at prec m n (length codes) base [] outs codes vals).
  - apply m_base.
  - done.
  - intros i out len Hi Hl. by apply (shape_load_length i out len).
  - done.
  - done.
Qed.

Lemma load_header k (f : Z) (pre post : list Z) :
  block_header (Z.of_nat n) (zlen codes) (28 + zlen body) = pre ++ le_bytes 4 f ++ post ->
  0 <= k < 2 ^ 31 -> zlen pre = k -> load_s 4 m (AddPointer 0 k) = Ret (i32 f).
Proof.
  intros E Hk Hp. rewrite AddPointer_small by (norm_pow; lia). unfold m. rewrite E.
  rewrite <- !app_assoc. apply load_s_mid; lia.
Qed.

Lemma shape_infos_read :
  exists infos, RawBlockGetColInfo m 0 (replicate (length codes) (mkRawBlockColInfo 0 0)) = Ret infos /\
    (fun i : RawBlockColInfo => u8 (ci_ColType i)) <$> infos = codes.
Proof.
  unfold RawBlockGetColInfo. rewrite zlen_replicate.
  match goal with |- context [for_upto _ ?b ?s] =>
    destruct (for_upto_inv (fun j infos => exists i done rest, j = Z.of_nat i /\
      infos = done ++ rest /\ length done = i /\ length rest = (length codes - i)%nat /\
      (fun c : RawBlockColInfo => u8 (ci_ColType c)) <$> done = take i codes) b (Z.of_nat (length codes)) s)
      as (infos & E & i & dn & rest & Hi & -> & Hd & Hr & Hc)
  end; [lia| | |].
  - exists 0%nat, [], (replicate (length codes) (mkRawBlockColInfo 0 0)).
    rewrite length_replicate. repeat split; try done. simpl. lia.
  - intros j infos Hj (i & dn & rest & -> & -> & Hd & Hr & Hc).
    pose proof shape_codes as [Hco _]. pose proof zlen_m.
    destruct (lookup_lt_is_Some_2 outs i ltac:(lia)) as [out Ho].
    destruct (lookup_lt_is_Some_2 codes i ltac:(lia)) as [t Ht].
    assert (exists vs, vals !! i = Some vs) as [vs Hvs].
    { apply lookup_lt_is_Some_2. pose proof shape_codes. lia. }
    pose proof (Forall3_lookup_lmr _ _ _ _ _ _ _ _ Houts Ht Hvs Ho) as Hcr.
    destruct (cr_info _ _ _ _ Hcr) as [b Hb]. pose proof (cr_code _ _ _ _ Hcr) as Hcode.
    change ColInfoOffset with 28. change ColInfoSize with 5. unfold Int8Size.
    assert (Hmem : exists pre post, m = pre ++ (byte t :: le_bytes 4 b) ++ post /\
              zlen pre = 28 + 5 * Z.of_nat i).
    { exists (block_header (Z.of_nat n) (zlen codes) (28 + zlen body)
              ++ concat (take i (Ser.co_info <$> outs))),
        (concat (drop (S i) (Ser.co_info <$> outs)) ++ concat (Ser.co_length <$> outs)
           ++ concat (Ser.co_data <$> outs)). split.
      - unfold m. set (h := block_header _ _ _). clearbody h. unfold body.
        rewrite (concat_lookup_split (Ser.co_info <$> outs) i (byte t :: le_bytes 4 b)) at 1
          by (rewrite list_lookup_fmap, Ho; simpl; by rewrite Hb).
        by rewrite <- !app_assoc.
      - rewrite zlen_app, zlen_block_header.
        rewrite (zlen_concat_size 5) by (apply Forall_take, shape_infos).
        unfold zlen. rewrite length_take, length_fmap. lia. }
    destruct Hmem as (pre & post & Em & Hpre).
    assert (Z.of_nat i < zlen codes) by (unfold zlen; lia).
    rewrite !AddPointer_small by (norm_pow; lia). rewrite Em.
    rewrite (load_s_mid 1 pre (le_bytes 4 b ++ post) _ t) by lia. cbn [mbind go_mbind].
    change (pre ++ (byte t :: le_bytes 4 b) ++ post) with (pre ++ [byte t] ++ le_bytes 4 b ++ post).
    rewrite (app_assoc pre), (load_s_mid 4 (pre ++ [byte t]) post _ b)
      by (rewrite ?zlen_app; change (zlen [byte t]) with 1; lia).
    cbn [mbind go_mbind]. destruct rest as [|x rest]; [simpl in Hr; lia|].
    rewrite (zset_app_r _ _ 0) by (simpl; unfold zlen; lia).
    eexists. split; [done|]. exists (S i), (dn ++ [mkRawBlockColInfo (i8 t) (i32 b)]), rest.
    split; [lia|]. split; [by rewrite <- app_assoc|]. rewrite length_app. simpl in Hr.
    split; [simpl; lia|]. split; [lia|].
    rewrite fmap_app, Hc, (take_S_r _ _ _ Ht). cbn [fmap list_fmap ci_ColType]. do 2 f_equal.
    rewrite wrap_s_id, wrap_u_id by range_lia. done.
  - assert (i = length codes) as -> by lia. exists (dn ++ rest). split; [done|].
    destruct rest; [|simpl in Hr; lia]. rewrite app_nil_r, Hc. by rewrite firstn_all.
Qed.

Hypothesis Hrows : Z.of_nat n < 2 ^ 31.

Lemma shape_header :
  RawBlockGetVersion m 0 = Ret 1 /\ RawBlockGetLength m 0 = Ret (zlen m) /\
  RawBlockGetNumOfRows m 0 = Ret (Z.of_nat n) /\ RawBlockGetNumOfCols m 0 = Ret (zlen codes).
Proof.
  pose proof zlen_m. pose proof (zlen_nonneg codes).
  assert (Hml : zlen m = 28 + zlen body) by (unfold m; by rewrite zlen_app, zlen_block_header).
  unfold RawBlockGetVersion, RawBlockGetLength, RawBlockGetNumOfRows, RawBlockGetNumOfCols.
  split; [|split; [|split]].
  - erewrite (load_header _ 1 []); [done|reflexivity|split; done|done].
  - erewrite (load_header _ (28 + zlen body) (le_bytes 4 1)); [|reflexivity|split; done|done].
    rewrite wrap_s_id by range_lia. by rewrite Hml.
  - erewrite (load_header _ (Z.of_nat n) (le_bytes 4 1 ++ le_bytes 4 (28 + zlen body)));
      [|by rewrite <- app_assoc|split; done|done].
    by rewrite wrap_s_id by range_lia.
  - erewrite (load_header _ (zlen codes)
      (le_bytes 4 1 ++ le_bytes 4 (28 + zlen body) ++ le_bytes 4 (Z.of_nat n)));
      [|by rewrite <- !app_assoc|split; done|done].
    by rewrite wrap_s_id by range_lia.
Qed.

Lemma shape_ReadBlockSimple :
  ReadBlockSimple m 0 prec
  = Ret (rows_of n (length codes) ((fun vs : list value => read_back <$> vs) <$> vals)).
Proof.
  destruct shape_header as (_ & _ & Hr & Hc). unfold ReadBlockSimple. rewrite Hr, Hc.
  cbn [mbind go_mbind]. pose proof (zlen_nonneg codes).
  rewrite (proj2 (Z.ltb_ge _ _)) by lia.
  replace (Z.to_nat (zlen codes)) with (length codes) by (unfold zlen; lia).
  destruct shape_infos_read as (infos & -> & Hi). cbn [mbind go_mbind]. rewrite Hi.
  apply shape_ReadBlock.
Qed.
End Shape.

(** C5. Round trip of the raw block format: for bind parameters whose columns have equal length
    and whose cells are nil or representable values of the declared bind types (any of the 17),
    [SerializeRawBlock] succeeds, and as long as the block and its row count fit the format's
    32-bit fields, [ReadBlock] with the corresponding type codes, and [ReadBlockSimple] with the
    types stored in the block, return exactly the bound values row by row, and the length field of
    the block is its size. *)
Theorem SerializeRawBlock_ReadBlock prec params colType tys codes n :
  serializable prec params colType tys codes n ->
  exists block, Ser.SerializeRawBlock params colType = Ret block /\
    (zlen block < 2 ^ 31 -> Z.of_nat n < 2 ^ 31 ->
     ReadBlock block 0 (Z.of_nat n) codes prec = Ret (rows_read params n) /\
     ReadBlockSimple block 0 prec = Ret (rows_read params n) /\
     RawBlockGetLength block 0 = Ret (zlen block)).
Proof.
  intros H. destruct (SerializeRawBlock_shape _ _ _ _ _ _ H) as (outs & Houts & E).
  eexists. split; [exact E|]. intros Hb Hn. destruct H as [Hne Hty Hrows Hcells Hcodes].
  assert (Hl : zlen params = zlen codes).
  { unfold zlen. rewrite <- (Forall2_length _ _ _ Hcells). by rewrite (Forall2_length _ _ _ Hcodes). }
  assert (Hvals : Forall (fun vs => length vs = n) (GetValues <$> params)) by (by apply Forall_fmap).
  rewrite Hl in *.
  assert (Er : rows_of n (length codes)
      ((fun vs : list value => read_back <$> vs) <$> (GetValues <$> params)) = rows_read params n).
  { rewrite <- list_fmap_compose. unfold rows_read.
    replace (length codes) with (length ((fun p => read_back <$> GetValues p) <$> params))
      by (rewrite length_fmap; unfold zlen in Hl; lia).
    rewrite <- rows_of_full by (by destruct params). done. }
  rewrite <- Er. split; [|split].
  - by apply shape_ReadBlock with (outs := outs).
  - by apply shape_ReadBlockSimple with (outs := outs).
  - by apply (shape_header prec codes (GetValues <$> params) outs n Houts Hb).
Qed.

(** A block of three rows with integer, NCHAR and timestamp columns, with nulls in each. *)
Definition ex_params : list Param :=
  [ mkParam 3 [TaosInt (-2); VNil; TaosInt 7] 3;
    mkParam 3 [TaosNchar [228; 184; 173]; TaosNchar []; VNil] 3;
    mkParam 3 [TaosTimestamp 5000000 0; VNil; TaosTimestamp (-1000000) 0] 3 ].
Definition ex_tys : list ColumnType :=
  [mkColumnType TaosIntType 0; mkColumnType TaosNcharType 10; mkColumnType TaosTimestampType 0].
Definition ex_codes : list Z := [TSDB_DATA_TYPE_INT; TSDB_DATA_TYPE_NCHAR; TSDB_DATA_TYPE_TIMESTAMP].

Lemma ex_serializable :
  serializable 0 ex_params (NewColumnTypeWithValue (Some <$> ex_tys)) ex_tys ex_codes 3.
Proof.
  split; [done|done|repeat constructor|repeat constructor; try done|repeat constructor].
  - exists 5. split; [done|split; done].
  - exists (-1). split; [done|split; done].
Qed.

Lemma SerializeRawBlock_ReadBlock_witness :
  exists block, Ser.SerializeRawBlock ex_params (NewColumnTypeWithValue (Some <$> ex_tys)) = Ret block /\
    ReadBlock block 0 3 ex_codes 0
    = Ret [[VInt32 (-2); VString [228; 184; 173]; VTime 5000000];
           [VNil; VString []; VNil]; [VInt32 7; VNil; VTime (-1000000)]].
Proof.
  destruct (SerializeRawBlock_ReadBlock 0 ex_params _ ex_tys ex_codes 3 ex_serializable)
    as (block & E & H).
  exists block. split; [exact E|].
  assert (Hb : zlen block < 2 ^ 31) by (vm_compute in E; injection E as <-; vm_compute; reflexivity).
  destruct (H Hb ltac:(lia)) as (Hr & _ & _). exact Hr.
Defined.
