(* ===== verification/Stmt2.v ===== *)
(** * Stmt2: the binary bind format, written by the client side

    Models [src/driver/common/stmt/stmt2.go] and [field.go]: [MarshalStmt2Binary] packs table
    names, tags and columns into one buffer,
    [header(28) | name lengths, names | tag lengths, tags | column lengths, columns],
    where each tag or column is a bind record written by [generateBindColData] or
    [generateBindQueryData]. *)
From S2P Require Import Prelude Common.
#[local] Open Scope Z_scope.

(** ** Data ([field.go]) *)

Definition TAOS_FIELD_COL : Z := 1.
Definition TAOS_FIELD_TAG : Z := 2.
Definition TAOS_FIELD_QUERY : Z := 3.
Definition TAOS_FIELD_TBNAME : Z := 4.

Record StmtField := mkStmtField {
  sf_Name : list Z; sf_FieldType : Z; sf_Precision : Z; sf_Scale : Z; sf_Bytes : Z }.

Record Stmt2AllField := mkStmt2AllField {
  f_Name : list Z; f_FieldType : Z; f_Precision : Z; f_Scale : Z; f_Bytes : Z; f_BindType : Z }.

Record TaosStmt2BindData := mkBindData {
  TableName : list Z; Tags : list value; Cols : list (list value) }.

Definition ErrUnsupportedType : error := "unsupported type"%string.

(** [StmtField.GetType]. *)
Definition GetType (s : StmtField) : go ColumnType :=
  let t := sf_FieldType s in
  if t =? TSDB_DATA_TYPE_BOOL then Ret (mkColumnType TaosBoolType 0)
  else if t =? TSDB_DATA_TYPE_TINYINT then Ret (mkColumnType TaosTinyintType 0)
  else if t =? TSDB_DATA_TYPE_SMALLINT then Ret (mkColumnType TaosSmallintType 0)
  else if t =? TSDB_DATA_TYPE_INT then Ret (mkColumnType TaosIntType 0)
  else if t =? TSDB_DATA_TYPE_BIGINT then Ret (mkColumnType TaosBigintType 0)
  else if t =? TSDB_DATA_TYPE_UTINYINT then Ret (mkColumnType TaosUTinyintType 0)
  else if t =? TSDB_DATA_TYPE_USMALLINT then Ret (mkColumnType TaosUSmallintType 0)
  else if t =? TSDB_DATA_TYPE_UINT then Ret (mkColumnType TaosUIntType 0)
  else if t =? TSDB_DATA_TYPE_UBIGINT then Ret (mkColumnType TaosUBigintType 0)
  else if t =? TSDB_DATA_TYPE_FLOAT then Ret (mkColumnType TaosFloatType 0)
  else if t =? TSDB_DATA_TYPE_DOUBLE then Ret (mkColumnType TaosDoubleType 0)
  else if t =? TSDB_DATA_TYPE_BINARY then Ret (mkColumnType TaosBinaryType 0)
  else if t =? TSDB_DATA_TYPE_VARBINARY then Ret (mkColumnType TaosVarBinaryType 0)
  else if t =? TSDB_DATA_TYPE_NCHAR then Ret (mkColumnType TaosNcharType 0)
  else if t =? TSDB_DATA_TYPE_TIMESTAMP then Ret (mkColumnType TaosTimestampType 0)
  else if t =? TSDB_DATA_TYPE_JSON then Ret (mkColumnType TaosJsonType 0)
  else if t =? TSDB_DATA_TYPE_GEOMETRY then Ret (mkColumnType TaosGeometryType 0)
  else Err ErrUnsupportedType.

(** ** Positions *)

Definition TotalLengthPosition : Z := 0.
Definition CountPosition : Z := TotalLengthPosition + 4.
Definition TagCountPosition : Z := CountPosition + 4.
Definition ColCountPosition : Z := TagCountPosition + 4.
Definition TableNamesOffsetPosition : Z := ColCountPosition + 4.
Definition TagsOffsetPosition : Z := TableNamesOffsetPosition + 4.
Definition ColsOffsetPosition : Z := TagsOffsetPosition + 4.
Definition DataPosition : Z := ColsOffsetPosition + 4.

Definition BindDataTotalLengthOffset : Z := 0.
Definition BindDataTypeOffset : Z := BindDataTotalLengthOffset + 4.
Definition BindDataNumOffset : Z := BindDataTypeOffset + 4.
Definition BindDataIsNullOffset : Z := BindDataNumOffset + 4.

(** [binary.LittleEndian.PutUint16(b[off:], v)] and [PutUint32]. *)
Definition PutUint16 (b : list Z) (off v : Z) : go (list Z) := zput b off (le_bytes 2 (u16 v)).
Definition PutUint32 (b : list Z) (off v : Z) : go (list Z) := zput b off (le_bytes 4 (u32 v)).

(** ** Bind records *)

Definition getBindDataHeaderLength (num : Z) (needLength : bool) : Z :=
  let length := 17 + num in
  if needLength then length + num * 4 else length.

Definition writeUint16 (buffer : list Z) (v : Z) : list Z :=
  buffer ++ [byte v] ++ [byte (Z.shiftr v 8)].
Definition writeUint32 (buffer : list Z) (v : Z) : list Z :=
  buffer ++ [byte v] ++ [byte (Z.shiftr v 8)] ++ [byte (Z.shiftr v 16)] ++ [byte (Z.shiftr v 24)].
Definition writeUint64 (buffer : list Z) (v : Z) : list Z :=
  buffer ++ [byte v] ++ [byte (Z.shiftr v 8)] ++ [byte (Z.shiftr v 16)] ++ [byte (Z.shiftr v 24)]
         ++ [byte (Z.shiftr v 32)] ++ [byte (Z.shiftr v 40)] ++ [byte (Z.shiftr v 48)]
         ++ [byte (Z.shiftr v 56)].
Definition WriteByte (buffer : list Z) (v : Z) : list Z := buffer ++ [byte v].

Definition needLength (colType : Z) : bool :=
  (colType =? TSDB_DATA_TYPE_BINARY) || (colType =? TSDB_DATA_TYPE_NCHAR) ||
  (colType =? TSDB_DATA_TYPE_JSON) || (colType =? TSDB_DATA_TYPE_VARBINARY) ||
  (colType =? TSDB_DATA_TYPE_GEOMETRY).

Definition checkAllNull (data : list value) : bool := forallb is_nil data.

Definition ErrDataType : error := "data type not match"%string.

(** The header being filled and the data buffer. *)
Definition bind_state : Type := list Z * list Z.

(** A case of the type switch for fixed-width types: [write] appends to the buffer, [conv] is the
    type assertion. *)
Definition fixed_step (write : list Z -> Z -> list Z) (conv : value -> go Z) (data : list value)
    (i : Z) (st : bind_state) : go bind_state :=
  let '(tmpHeader, tmpBuffer) := st in
  v ← zget data i;
  if is_nil v then
    tmpHeader ← zset tmpHeader (BindDataIsNullOffset + i) 1;
    Ret (tmpHeader, write tmpBuffer 0)
  else
    x ← conv v;
    Ret (tmpHeader, write tmpBuffer x).

Definition fixed_case (write : list Z -> Z -> list Z) (conv : value -> go Z) (data : list value)
    (st : bind_state) : go bind_state :=
  for_upto (zlen data) (fixed_step write conv data) st.

(** The case of the variable-length types. *)
Definition var_step (data : list value) (i : Z) (st : bind_state) : go bind_state :=
  let bufferLengthOffset := BindDataIsNullOffset + zlen data + 1 in
  let '(tmpHeader, tmpBuffer) := st in
  v ← zget data i;
  match v with
  | VNil =>
    tmpHeader ← zset tmpHeader (BindDataIsNullOffset + i) 1;
    Ret (tmpHeader, tmpBuffer)
  | VString s | VBytes s =>
    tmpHeader ← PutUint32 tmpHeader (bufferLengthOffset + i * 4) (zlen s);
    Ret (tmpHeader, tmpBuffer ++ s)
  | _ => Err ErrDataType
  end.

Definition var_case (data : list value) (st : bind_state) : go bind_state :=
  for_upto (zlen data) (var_step data) st.

Definition conv_bool (v : value) : go Z :=
  match v with VBool b => Ret (if b then 1 else 0) | _ => Err ErrDataType end.
Definition conv_int8 (v : value) : go Z := match v with VInt8 z => Ret z | _ => Err ErrDataType end.
Definition conv_int16 (v : value) : go Z := match v with VInt16 z => Ret (u16 z) | _ => Err ErrDataType end.
Definition conv_int32 (v : value) : go Z := match v with VInt32 z => Ret (u32 z) | _ => Err ErrDataType end.
Definition conv_int64 (v : value) : go Z := match v with VInt64 z => Ret (u64 z) | _ => Err ErrDataType end.
Definition conv_float32 (v : value) : go Z := match v with VFloat32 z => Ret z | _ => Err ErrDataType end.
Definition conv_float64 (v : value) : go Z := match v with VFloat64 z => Ret z | _ => Err ErrDataType end.
Definition conv_timestamp (precision : Z) (v : value) : go Z :=
  match v with
  | VInt64 z => Ret (u64 z)
  | VTime t => ts ← TimeToTimestamp t precision; Ret (u64 ts)
  | _ => Err ErrDataType
  end.
Definition conv_uint8 (v : value) : go Z := match v with VUint8 z => Ret z | _ => Err ErrDataType end.
Definition conv_uint16 (v : value) : go Z := match v with VUint16 z => Ret z | _ => Err ErrDataType end.
Definition conv_uint32 (v : value) : go Z := match v with VUint32 z => Ret z | _ => Err ErrDataType end.
Definition conv_uint64 (v : value) : go Z := match v with VUint64 z => Ret z | _ => Err ErrDataType end.

(** The type switch. *)
Definition bind_switch (colType : Stmt2AllField) (data : list value) (st : bind_state) : go bind_state :=
  let t := f_FieldType colType in
  if t =? TSDB_DATA_TYPE_BOOL then fixed_case WriteByte conv_bool data st
  else if t =? TSDB_DATA_TYPE_TINYINT then fixed_case WriteByte conv_int8 data st
  else if t =? TSDB_DATA_TYPE_SMALLINT then fixed_case writeUint16 conv_int16 data st
  else if t =? TSDB_DATA_TYPE_INT then fixed_case writeUint32 conv_int32 data st
  else if t =? TSDB_DATA_TYPE_BIGINT then fixed_case writeUint64 conv_int64 data st
  else if t =? TSDB_DATA_TYPE_FLOAT then fixed_case writeUint32 conv_float32 data st
  else if t =? TSDB_DATA_TYPE_DOUBLE then fixed_case writeUint64 conv_float64 data st
  else if t =? TSDB_DATA_TYPE_TIMESTAMP then
    fixed_case writeUint64 (conv_timestamp (f_Precision colType)) data st
  else if needLength t then var_case data st
  else if t =? TSDB_DATA_TYPE_UTINYINT then fixed_case WriteByte conv_uint8 data st
  else if t =? TSDB_DATA_TYPE_USMALLINT then fixed_case writeUint16 conv_uint16 data st
  else if t =? TSDB_DATA_TYPE_UINT then fixed_case writeUint32 conv_uint32 data st
  else if t =? TSDB_DATA_TYPE_UBIGINT then fixed_case writeUint64 conv_uint64 data st
  else Err ErrUnsupportedType.

(** The temporary buffer is reset on entry, so it is not an argument. *)
Definition generateBindColData (data : list value) (colType : Stmt2AllField) : go (list Z) :=
  let num := zlen data in
  let needLength := needLength (f_FieldType colType) in
  let headerLength := getBindDataHeaderLength num needLength in
  let tmpHeader := replicate (Z.to_nat headerLength) 0 in
  tmpHeader ← PutUint32 tmpHeader BindDataTypeOffset (f_FieldType colType);
  tmpHeader ← PutUint32 tmpHeader BindDataNumOffset num;
  tmpHeader ← (if needLength then zset tmpHeader (BindDataIsNullOffset + num) 1 else Ret tmpHeader);
  st ← (if checkAllNull data then
          tmpHeader ← for_upto num (fun i h => zset h (BindDataIsNullOffset + i) 1) tmpHeader;
          Ret (tmpHeader, [])
        else bind_switch colType data (tmpHeader, []));
  let '(tmpHeader, buffer) := (st : bind_state) in
  tmpHeader ← PutUint32 tmpHeader (headerLength - 4) (zlen buffer);
  let totalLength := zlen buffer + headerLength in
  tmpHeader ← PutUint32 tmpHeader BindDataTotalLengthOffset totalLength;
  let dataBuffer := replicate (Z.to_nat totalLength) 0 in
  dataBuffer ← zcopy dataBuffer 0 tmpHeader;
  zcopy dataBuffer headerLength buffer.

Section Query.
(** [t.AppendFormat(buf, time.RFC3339Nano)], which depends on the time zone of [t]. *)
Context (format_RFC3339Nano : Z -> list Z).

(** The type, the [haveLength] flag and the bytes of a query parameter. *)
Definition query_param (data : value) : go (Z * bool * list Z) :=
  match data with
  | VString v | VBytes v => Ret (TSDB_DATA_TYPE_BINARY, true, v)
  | VInt8 v => Ret (TSDB_DATA_TYPE_TINYINT, false, [byte v])
  | VInt16 v => Ret (TSDB_DATA_TYPE_SMALLINT, false, le_bytes 2 (u16 v))
  | VInt32 v => Ret (TSDB_DATA_TYPE_INT, false, le_bytes 4 (u32 v))
  | VInt64 v => Ret (TSDB_DATA_TYPE_BIGINT, false, le_bytes 8 (u64 v))
  | VUint8 v => Ret (TSDB_DATA_TYPE_UTINYINT, false, [byte v])
  | VUint16 v => Ret (TSDB_DATA_TYPE_USMALLINT, false, le_bytes 2 v)
  | VUint32 v => Ret (TSDB_DATA_TYPE_UINT, false, le_bytes 4 v)
  | VUint64 v => Ret (TSDB_DATA_TYPE_UBIGINT, false, le_bytes 8 v)
  | VFloat32 v => Ret (TSDB_DATA_TYPE_FLOAT, false, le_bytes 4 v)
  | VFloat64 v => Ret (TSDB_DATA_TYPE_DOUBLE, false, le_bytes 8 v)
  | VBool v => Ret (TSDB_DATA_TYPE_BOOL, false, [if v then 1 else 0])
  | VTime v => Ret (TSDB_DATA_TYPE_BINARY, true, format_RFC3339Nano v)
  | _ => Err ErrUnsupportedType
  end.

Definition generateBindQueryData (data : value) : go (list Z) :=
  '(colType, haveLength, buf) ← query_param data;
  let headerLength := getBindDataHeaderLength 1 haveLength in
  let totalLength := zlen buf + headerLength in
  let dataBuf := replicate (Z.to_nat totalLength) 0 in
  dataBuf ← PutUint32 dataBuf BindDataTypeOffset colType;
  dataBuf ← PutUint32 dataBuf BindDataNumOffset 1;
  dataBuf ← zset dataBuf BindDataIsNullOffset 0;
  dataBuf ← (if (haveLength : bool) then
               dataBuf ← zset dataBuf (BindDataIsNullOffset + 1) 1;
               PutUint32 dataBuf (BindDataIsNullOffset + 2) (zlen buf)
             else Ret dataBuf);
  dataBuf ← PutUint32 dataBuf (headerLength - 4) (zlen buf);
  dataBuf ← zcopy dataBuf headerLength buf;
  PutUint32 dataBuf BindDataTotalLengthOffset totalLength.

(** ** The whole buffer *)

Definition ErrEmptyData : error := "empty data"%string.
Definition ErrTagCount : error := "tag count not match"%string.
Definition ErrColCount : error := "col count not match"%string.
Definition ErrQueryTagTypes : error := "query not need tag types"%string.
Definition ErrQueryColTypes : error := "query not need col types"%string.
Definition ErrQueryOneData : error := "query only need one data"%string.
Definition ErrQueryTableName : error := "query not need table name"%string.
Definition ErrQueryTag : error := "query not need tag"%string.
Definition ErrQueryCol : error := "query need col"%string.
Definition ErrQueryRow : error := "query col data must be one row"%string.
Definition ErrNoData : error := "no data"%string.
Definition ErrNameTooLong : error := "table name too long"%string.

Definition is_empty (s : list Z) : bool := match s with [] => true | _ => false end.

(** The validation of the arguments: [needTableNames] and [colCount]. *)
Fixpoint check_insert (bindData : list TaosStmt2BindData) (tagCount colCount : Z)
    (needTableNames : bool) : go bool :=
  match bindData with
  | [] => Ret needTableNames
  | data :: rest =>
    let needTableNames := needTableNames || negb (is_empty (TableName data)) in
    if negb (zlen (Tags data) =? tagCount) then Err ErrTagCount
    else if negb (zlen (Cols data) =? colCount) then Err ErrColCount
    else check_insert rest tagCount colCount needTableNames
  end.

Definition check_query (bindData : list TaosStmt2BindData) (tagCount colCount : Z) : go Z :=
  if negb (tagCount =? 0) then Err ErrQueryTagTypes
  else if negb (colCount =? 0) then Err ErrQueryColTypes
  else if negb (zlen bindData =? 1) then Err ErrQueryOneData
  else
    data ← zget bindData 0;
    if negb (is_empty (TableName data)) then Err ErrQueryTableName
    else if negb (zlen (Tags data) =? 0) then Err ErrQueryTag
    else if zlen (Cols data) =? 0 then Err ErrQueryCol
    else if forallb (fun col => zlen col =? 1) (Cols data) then Ret (zlen (Cols data))
    else Err ErrQueryRow.

(** The loops over the tags and the columns of one table: the records and their total length. *)
Fixpoint bind_tags (tags : list value) (tagType : list Stmt2AllField) : go (list Z) :=
  match tags, tagType with
  | [], _ => Ret []
  | tag :: tags, ty :: tagType =>
    b ← generateBindColData [tag] ty; rest ← bind_tags tags tagType; Ret (b ++ rest)
  | _ :: _, [] => Panic
  end.

Fixpoint bind_cols (isInsert : bool) (cols : list (list value)) (colType : list Stmt2AllField)
  : go (list Z) :=
  match cols with
  | [] => Ret []
  | col :: cols =>
    b ← (if isInsert then
           match colType with ty :: _ => generateBindColData col ty | [] => Panic end
         else v ← zget col 0; generateBindQueryData v);
    rest ← bind_cols isInsert cols (tail colType); Ret (b ++ rest)
  end.

(** The sections of the buffer, each with the lengths of its entries. *)
Record sections := mkSections {
  s_names : list Z; s_name_lens : list Z;
  s_tags : list Z; s_tag_lens : list Z;
  s_cols : list Z; s_col_lens : list Z }.

(** The loop over the tables. *)
Definition bind_table (isInsert needTableNames needTags needCols : bool)
    (tagType colType : list Stmt2AllField) (s : sections) (data : TaosStmt2BindData) : go sections :=
  '(names, name_lens) ← (if needTableNames then
      if zlen (TableName data) >? 65535 - 1 then Err ErrNameTooLong
      else Ret (s_names s ++ TableName data ++ [0], s_name_lens s ++ [u16 (zlen (TableName data) + 1)])
    else Ret (s_names s, s_name_lens s));
  '(tags, tag_lens) ← (if needTags then
      b ← bind_tags (Tags data) tagType;
      Ret (s_tags s ++ b, s_tag_lens s ++ [u32 (zlen b)])
    else Ret (s_tags s, s_tag_lens s));
  '(cols, col_lens) ← (if needCols then
      b ← bind_cols isInsert (Cols data) colType;
      Ret (s_cols s ++ b, s_col_lens s ++ [u32 (zlen b)])
    else Ret (s_cols s, s_col_lens s));
  Ret (mkSections names name_lens tags tag_lens cols col_lens).

Fixpoint bind_tables (isInsert needTableNames needTags needCols : bool)
    (tagType colType : list Stmt2AllField) (bindData : list TaosStmt2BindData) (s : sections)
  : go sections :=
  match bindData with
  | [] => Ret s
  | data :: rest =>
    s ← bind_table isInsert needTableNames needTags needCols tagType colType s data;
    bind_tables isInsert needTableNames needTags needCols tagType colType rest s
  end.

(** Writing the lengths of a section and then its bytes. *)
Definition write_section (buffer : list Z) (offset : Z) (width : nat) (lens bytes : list Z)
  : go (list Z) :=
  st ← foldl (fun st len =>
    '(buffer, offset) ← (st : go (list Z * Z));
    buffer ← zput buffer offset (le_bytes width len);
    Ret (buffer, offset + Z.of_nat width)) (Ret (buffer, offset)) lens;
  let '(buffer, offset) := (st : list Z * Z) in
  zcopy buffer offset bytes.

Definition MarshalStmt2Binary (bindData : list TaosStmt2BindData) (isInsert : bool)
    (fields : list Stmt2AllField) : go (list Z) :=
  let colType := filter (fun f => f_BindType f = TAOS_FIELD_COL) fields in
  let tagType := filter (fun f => f_BindType f = TAOS_FIELD_TAG) fields in
  let count := zlen bindData in
  if count =? 0 then Err ErrEmptyData
  else
    let tagCount := zlen tagType in
    '(needTableNames, colCount) ← (if isInsert then
        b ← check_insert bindData tagCount (zlen colType) false; Ret (b, zlen colType)
      else c ← check_query bindData tagCount (zlen colType); Ret (false, c));
    let header := replicate (Z.to_nat DataPosition) 0 in
    header ← PutUint32 header CountPosition count;
    let needTags := negb (tagCount =? 0) in
    header ← (if needTags then PutUint32 header TagCountPosition tagCount else Ret header);
    let needCols := negb (colCount =? 0) in
    header ← (if needCols then PutUint32 header ColCountPosition colCount else Ret header);
    if negb (needTableNames : bool) && negb needTags && negb needCols then Err ErrNoData
    else
      s ← bind_tables isInsert needTableNames needTags needCols tagType colType bindData
            (mkSections [] [] [] [] [] []);
      let tagOffset := DataPosition + zlen (s_names s) + zlen (s_name_lens s) * 2 in
      let colOffset := tagOffset + zlen (s_tags s) + zlen (s_tag_lens s) * 4 in
      let totalLength := colOffset + zlen (s_cols s) + zlen (s_col_lens s) * 4 in
      header ← (if (needTableNames : bool) then PutUint32 header TableNamesOffsetPosition DataPosition
                else Ret header);
      header ← (if needTags then PutUint32 header TagsOffsetPosition tagOffset else Ret header);
      header ← (if needCols then PutUint32 header ColsOffsetPosition colOffset else Ret header);
      header ← PutUint32 header TotalLengthPosition totalLength;
      let buffer := replicate (Z.to_nat totalLength) 0 in
      buffer ← zcopy buffer 0 header;
      buffer ← (if (needTableNames : bool)
                then write_section buffer DataPosition 2 (s_name_lens s) (s_names s) else Ret buffer);
      buffer ← (if needTags then write_section buffer tagOffset 4 (s_tag_lens s) (s_tags s)
                else Ret buffer);
      (if needCols then write_section buffer colOffset 4 (s_col_lens s) (s_cols s) else Ret buffer).
End Query.
