(* ===== verification/Stmt2Spec.v ===== *)
(** * Stmt2Spec: what the bind records and the buffer of [stmt2.go] contain

    A record is described by an [enc] (its type, null flags, lengths and data); the records are
    the bytes [enc_bytes] of it, and the buffer is the concatenation of its sections.  The lemmas
    equate the imperative writers of [Stmt2] with these descriptions on every input, error
    outcomes included. *)
From S2P Require Import Prelude Common Stmt2.
#[local] Open Scope Z_scope.

(** ** Records *)

Record enc := mkEnc {
  e_type : Z;
  e_nulls : list Z;              (** one flag per row *)
  e_lens : option (list Z);      (** one length per row, for the variable-length types *)
  e_buf : list Z }.

Definition e_num (e : enc) : Z := zlen (e_nulls e).

Definition words (n : nat) (l : list Z) : list Z := concat (le_bytes n <$> l).

Definition lens_bytes (o : option (list Z)) : list Z :=
  match o with None => [] | Some l => words 4 l end.
Definition has_lens (o : option (list Z)) : Z := match o with None => 0 | Some _ => 1 end.

Definition enc_size (e : enc) : Z :=
  17 + e_num e + zlen (lens_bytes (e_lens e)) + zlen (e_buf e).

Definition enc_header (e : enc) : list Z :=
  le_bytes 4 (u32 (enc_size e)) ++ le_bytes 4 (u32 (e_type e)) ++ le_bytes 4 (u32 (e_num e)) ++
  e_nulls e ++ [has_lens (e_lens e)] ++ lens_bytes (e_lens e) ++ le_bytes 4 (u32 (zlen (e_buf e))).

Definition enc_bytes (e : enc) : list Z := enc_header e ++ e_buf e.

(** ** Columns *)

(** The width of a fixed-width type and the pattern of a value of it. *)
Definition fixed_type (colType : Stmt2AllField) : option (nat * (value -> go Z)) :=
  let t := f_FieldType colType in
  if t =? TSDB_DATA_TYPE_BOOL then Some (1%nat, conv_bool)
  else if t =? TSDB_DATA_TYPE_TINYINT then Some (1%nat, conv_int8)
  else if t =? TSDB_DATA_TYPE_SMALLINT then Some (2%nat, conv_int16)
  else if t =? TSDB_DATA_TYPE_INT then Some (4%nat, conv_int32)
  else if t =? TSDB_DATA_TYPE_BIGINT then Some (8%nat, conv_int64)
  else if t =? TSDB_DATA_TYPE_FLOAT then Some (4%nat, conv_float32)
  else if t =? TSDB_DATA_TYPE_DOUBLE then Some (8%nat, conv_float64)
  else if t =? TSDB_DATA_TYPE_TIMESTAMP then Some (8%nat, conv_timestamp (f_Precision colType))
  else if t =? TSDB_DATA_TYPE_UTINYINT then Some (1%nat, conv_uint8)
  else if t =? TSDB_DATA_TYPE_USMALLINT then Some (2%nat, conv_uint16)
  else if t =? TSDB_DATA_TYPE_UINT then Some (4%nat, conv_uint32)
  else if t =? TSDB_DATA_TYPE_UBIGINT then Some (8%nat, conv_uint64)
  else None.

(** The bytes of one cell. *)
Definition fixed_cell (n : nat) (conv : value -> go Z) (v : value) : go (list Z) :=
  if is_nil v then Ret (le_bytes n 0) else x ← conv v; Ret (le_bytes n x).

Definition var_cell (v : value) : go (list Z) :=
  match v with VNil => Ret [] | VString s | VBytes s => Ret s | _ => Err ErrDataType end.

Definition null_flag (v : value) : Z := if is_nil v then 1 else 0.

(** The description of a column: a column of nulls only has no data, whatever its type. *)
Definition col_enc (colType : Stmt2AllField) (data : list value) : go enc :=
  let t := f_FieldType colType in
  let nulls := null_flag <$> data in
  if checkAllNull data then
    Ret (mkEnc t nulls (if needLength t then Some (replicate (length data) 0) else None) [])
  else if needLength t then
    cells ← mapM var_cell data;
    Ret (mkEnc t nulls (Some (zlen <$> cells)) (concat cells))
  else match fixed_type colType with
       | Some (n, conv) =>
         cells ← mapM (fixed_cell n conv) data;
         Ret (mkEnc t nulls None (concat cells))
       | None => Err ErrUnsupportedType
       end.

(** ** Writers *)

Lemma writeUint16_spec b v : writeUint16 b v = b ++ le_bytes 2 v.
Proof. done. Qed.

Lemma writeUint32_spec b v : writeUint32 b v = b ++ le_bytes 4 v.
Proof. unfold writeUint32. cbn [le_bytes app]. by rewrite !Z.shiftr_shiftr by lia. Qed.

Lemma writeUint64_spec b v : writeUint64 b v = b ++ le_bytes 8 v.
Proof. unfold writeUint64. cbn [le_bytes app]. by rewrite !Z.shiftr_shiftr by lia. Qed.

(** Flagging row [length dn] in a header whose null flags are
    [flags of dn ++ zeros]. *)
Lemma zset_flag pre (dn : list value) x post :
  zlen pre = BindDataIsNullOffset ->
  zset (pre ++ (null_flag <$> dn) ++ x :: post) (BindDataIsNullOffset + zlen dn) 1
  = Ret (pre ++ (null_flag <$> dn) ++ 1 :: post).
Proof.
  intros Hpre. rewrite !app_assoc. apply zset_mid. rewrite zlen_app, zlen_fmap. lia.
Qed.

Lemma fixed_step_at write conv dn v rest h b :
  fixed_step write conv (dn ++ v :: rest) (zlen dn) (h, b) =
  if is_nil v then h ← zset h (BindDataIsNullOffset + zlen dn) 1; Ret (h, write b 0)
  else x ← conv v; Ret (h, write b x).
Proof. unfold fixed_step. by rewrite zget_middle. Qed.

(** The fixed-width loop, started in row [length dn]. *)
Lemma fixed_loop_spec write n conv pre post :
  (forall b x, write b x = b ++ le_bytes n x) -> zlen pre = BindDataIsNullOffset ->
  forall rest dn buf,
  for_loop (length rest) (zlen dn) (fixed_step write conv (dn ++ rest))
    (pre ++ (null_flag <$> dn) ++ replicate (length rest) 0 ++ post, buf)
  = (cells ← mapM (fixed_cell n conv) rest;
     Ret (pre ++ (null_flag <$> dn ++ rest) ++ post, buf ++ concat cells)).
Proof.
  intros Hw Hpre. induction rest as [|v rest IH]; intros dn buf.
  { cbn [length for_loop replicate mapM mret go_mret mbind go_mbind concat].
    by rewrite !app_nil_r, app_nil_l. }
  rewrite mapM_go_cons. cbn [length for_loop replicate app].
  assert (Hgo : forall cell b,
    for_loop (length rest) (zlen dn + 1) (fixed_step write conv (dn ++ v :: rest))
      (pre ++ (null_flag <$> dn) ++ null_flag v :: replicate (length rest) 0 ++ post, b ++ cell) =
    (k ← mapM (fixed_cell n conv) rest;
     Ret (pre ++ (null_flag <$> dn ++ v :: rest) ++ post, b ++ concat (cell :: k)))).
  { intros cell b. specialize (IH (dn ++ [v]) (b ++ cell)).
    rewrite <- (app_assoc dn [v] rest), zlen_snoc, fmap_app in IH.
    cbn [fmap list_fmap app] in IH. rewrite <- (app_assoc (null_flag <$> dn)) in IH.
    cbn [app] in IH. rewrite IH. apply go_bind_ext. intros k.
    cbn [concat]. by rewrite <- (app_assoc b cell). }
  rewrite fixed_step_at.
  assert (Hc : fixed_cell n conv v =
    if is_nil v then Ret (le_bytes n 0) else x ← conv v; Ret (le_bytes n x)) by done.
  rewrite Hc. clear Hc. unfold null_flag in Hgo at 2. destruct (is_nil v) eqn:Ev.
  - rewrite zset_flag by done. rewrite !go_bind_ret, Hw, Hgo. by rewrite go_bind_assoc.
  - destruct (conv v) as [x| | |]; try done. rewrite !go_bind_ret, Hw, Hgo. by rewrite go_bind_assoc.
Qed.

(** The variable-length loop. *)
Lemma words_snoc n l x : words n (l ++ [x]) = words n l ++ le_bytes n x.
Proof. unfold words. rewrite fmap_app, concat_app. simpl. by rewrite app_nil_r. Qed.

Lemma zlen_words n l : zlen (words n l) = Z.of_nat n * zlen l.
Proof.
  unfold words. rewrite (zlen_concat_size (Z.of_nat n)).
  - rewrite zlen_fmap. lia.
  - apply Forall_fmap, Forall_forall. intros x _. apply zlen_le_bytes.
Qed.

Lemma words_cons n x l : words n (x :: l) = le_bytes n x ++ words n l.
Proof. done. Qed.

Lemma var_step_at dn v rest h b :
  var_step (dn ++ v :: rest) (zlen dn) (h, b) =
  match v with
  | VNil => h ← zset h (BindDataIsNullOffset + zlen dn) 1; Ret (h, b)
  | VString s | VBytes s =>
    h ← PutUint32 h (BindDataIsNullOffset + zlen (dn ++ v :: rest) + 1 + zlen dn * 4) (zlen s);
    Ret (h, b ++ s)
  | _ => Err ErrDataType
  end.
Proof. unfold var_step. by rewrite zget_middle. Qed.

Lemma var_loop_spec pre post :
  zlen pre = BindDataIsNullOffset ->
  forall rest dn lens buf, zlen lens = zlen dn ->
  for_loop (length rest) (zlen dn) (var_step (dn ++ rest))
    (pre ++ ((null_flag <$> dn) ++ replicate (length rest) 0) ++ [1] ++
       (words 4 (u32 <$> lens) ++ words 4 (replicate (length rest) 0)) ++ post, buf)
  = (cells ← mapM var_cell rest;
     Ret (pre ++ (null_flag <$> dn ++ rest) ++ [1] ++
            words 4 (u32 <$> lens ++ (zlen <$> cells)) ++ post, buf ++ concat cells)).
Proof.
  intros Hpre. induction rest as [|v rest IH]; intros dn lens buf Hl.
  { cbn [length for_loop replicate mapM mret go_mret mbind go_mbind concat fmap list_fmap].
    change (words 4 []) with (@nil Z). by rewrite !app_nil_r. }
  rewrite mapM_go_cons. cbn [length for_loop replicate].
  assert (Hgo : forall s b,
    for_loop (length rest) (zlen dn + 1) (var_step (dn ++ v :: rest))
      (pre ++ ((null_flag <$> dn) ++ null_flag v :: replicate (length rest) 0) ++ [1] ++
       (words 4 (u32 <$> lens) ++ le_bytes 4 (u32 (zlen s)) ++ words 4 (replicate (length rest) 0)) ++
       post, b ++ s) =
    (k ← mapM var_cell rest;
     Ret (pre ++ (null_flag <$> dn ++ v :: rest) ++ [1] ++
            words 4 (u32 <$> lens ++ (zlen <$> s :: k)) ++ post, b ++ concat (s :: k)))).
  { intros s b. specialize (IH (dn ++ [v]) (lens ++ [zlen s]) (b ++ s)).
    rewrite <- (app_assoc dn [v] rest), !zlen_snoc in IH.
    rewrite !(fmap_app null_flag dn), (fmap_app u32 lens [_]) in IH.
    cbn [fmap list_fmap app] in IH. rewrite words_snoc in IH.
    rewrite <- (app_assoc (null_flag <$> dn)) in IH.
    rewrite <- (app_assoc (words 4 _) (le_bytes _ _)) in IH.
    cbn [app] in IH |- *. rewrite IH by lia. apply go_bind_ext. intros k.
    cbn [concat fmap list_fmap]. rewrite <- (app_assoc b s), <- (app_assoc lens).
    by rewrite (fmap_app null_flag dn). }
  rewrite var_step_at.
  assert (Hput : forall s, PutUint32
    (pre ++ ((null_flag <$> dn) ++ 0 :: replicate (length rest) 0) ++ [1] ++
       (words 4 (u32 <$> lens) ++ words 4 (0 :: replicate (length rest) 0)) ++ post)
    (BindDataIsNullOffset + zlen (dn ++ v :: rest) + 1 + zlen dn * 4) s =
    Ret (pre ++ ((null_flag <$> dn) ++ 0 :: replicate (length rest) 0) ++ [1] ++
       (words 4 (u32 <$> lens) ++ le_bytes 4 (u32 s) ++ words 4 (replicate (length rest) 0)) ++ post)).
  { intros s. unfold PutUint32. rewrite words_cons.
    rewrite <- !(app_assoc (words 4 (u32 <$> lens))), <- !(app_assoc (le_bytes 4 _)).
    set (X := (null_flag <$> dn) ++ 0 :: _).
    rewrite !(app_assoc pre X), !(app_assoc (pre ++ X) [1]),
      !(app_assoc ((pre ++ X) ++ [1]) (words 4 (u32 <$> lens))).
    apply zput_mid; [|by rewrite !zlen_le_bytes].
    subst X. rewrite !zlen_app, zlen_words, !zlen_fmap, !zlen_cons, zlen_replicate, zlen_nil, Hpre.
    unfold zlen in *. lia. }
  destruct v; try done.
  all: cbn [var_cell]; rewrite go_bind_assoc, go_bind_ret, go_bind_assoc.
  - rewrite <- (app_assoc (null_flag <$> dn)). cbn [app]. rewrite zset_flag by done.
    rewrite go_bind_ret. specialize (Hgo [] buf).
    rewrite <- (app_assoc (null_flag <$> dn)), (app_nil_r buf) in Hgo. exact Hgo.
  - rewrite Hput, go_bind_ret. apply Hgo.
  - rewrite Hput, go_bind_ret. apply Hgo.
Qed.

(** ** [generateBindColData] *)

(** The header of a column before and after the cells are written. *)
Definition col_header (t num total blen : Z) (nulls : list Z) (o : option (list Z)) : list Z :=
  le_bytes 4 (u32 total) ++ le_bytes 4 (u32 t) ++ le_bytes 4 (u32 num) ++
  nulls ++ [has_lens o] ++ lens_bytes o ++ le_bytes 4 (u32 blen).

Lemma zlen_col_header t num total blen nulls o :
  zlen (col_header t num total blen nulls o) = 17 + zlen nulls + zlen (lens_bytes o).
Proof. unfold col_header. rewrite !zlen_app, !zlen_le_bytes. change (zlen [_]) with 1. lia. Qed.

Lemma PutUint32_mid pre old post off v :
  off = zlen pre -> PutUint32 (pre ++ le_bytes 4 old ++ post) off v = Ret (pre ++ le_bytes 4 (u32 v) ++ post).
Proof. intros. unfold PutUint32. apply zput_mid; [done|]. by rewrite !zlen_le_bytes. Qed.

Lemma words_zeros n k : words n (replicate k 0) = replicate (n * k) 0.
Proof.
  induction k as [|k IH]; cbn [replicate]; [by rewrite Nat.mul_0_r|].
  rewrite words_cons, IH, le_bytes_0, <- replicate_add. f_equal. lia.
Qed.

Definition zero_lens (t : Z) (n : nat) : option (list Z) :=
  if needLength t then Some (replicate n 0) else None.

Lemma header_zeros (t : Z) (n : nat) :
  replicate (Z.to_nat (getBindDataHeaderLength (Z.of_nat n) (needLength t))) 0 =
    le_bytes 4 0 ++ le_bytes 4 0 ++ le_bytes 4 0 ++ replicate n 0 ++ [0] ++
    lens_bytes (zero_lens t n) ++ le_bytes 4 0.
Proof.
  unfold getBindDataHeaderLength, zero_lens. rewrite !le_bytes_0.
  change [0] with (replicate 1 0). destruct (needLength t); cbn [lens_bytes].
  - rewrite words_zeros, <- !replicate_add. f_equal. lia.
  - rewrite app_nil_l, <- !replicate_add. f_equal. lia.
Qed.

Lemma words_u32 l : words 4 (u32 <$> l) = words 4 l.
Proof.
  induction l as [|x l IH]; [done|]. cbn [fmap list_fmap]. rewrite !words_cons, IH.
  by rewrite (le_bytes_wrap 4).
Qed.

Lemma col_prologue t (n : nat) :
  (let headerLength := getBindDataHeaderLength (Z.of_nat n) (needLength t) in
   tmpHeader ← PutUint32 (replicate (Z.to_nat headerLength) 0) BindDataTypeOffset t;
   tmpHeader ← PutUint32 tmpHeader BindDataNumOffset (Z.of_nat n);
   if needLength t then zset tmpHeader (BindDataIsNullOffset + Z.of_nat n) 1 else Ret tmpHeader)
  = Ret (col_header t (Z.of_nat n) 0 0 (replicate n 0) (zero_lens t n)).
Proof.
  cbv zeta. rewrite header_zeros.
  rewrite (PutUint32_mid (le_bytes 4 0)) by done. rewrite go_bind_ret.
  rewrite (app_assoc (le_bytes 4 0)), (PutUint32_mid (le_bytes 4 0 ++ _)) by done.
  rewrite go_bind_ret, <- app_assoc. unfold col_header, zero_lens.
  destruct (needLength t); cbn [has_lens]; [|done].
  erewrite (zset_at _ (le_bytes 4 0 ++ le_bytes 4 (u32 t) ++ le_bytes 4 (u32 (Z.of_nat n)) ++
    replicate n 0)); [|list_assoc|].
  - done.
  - rewrite !zlen_app, !zlen_le_bytes, zlen_replicate. unfold BindDataIsNullOffset, BindDataNumOffset,
      BindDataTypeOffset, BindDataTotalLengthOffset. lia.
Qed.

Lemma col_epilogue e :
  (let headerLength := 17 + e_num e + zlen (lens_bytes (e_lens e)) in
   tmpHeader ← PutUint32 (col_header (e_type e) (e_num e) 0 0 (e_nulls e) (e_lens e))
                 (headerLength - 4) (zlen (e_buf e));
   let totalLength := zlen (e_buf e) + headerLength in
   tmpHeader ← PutUint32 tmpHeader BindDataTotalLengthOffset totalLength;
   dataBuffer ← zcopy (replicate (Z.to_nat totalLength) 0) 0 tmpHeader;
   zcopy dataBuffer headerLength (e_buf e))
  = Ret (enc_bytes e).
Proof.
  cbv zeta. set (hl := 17 + e_num e + zlen (lens_bytes (e_lens e))).
  assert (Hhl : forall total blen,
    zlen (col_header (e_type e) (e_num e) total blen (e_nulls e) (e_lens e)) = hl)
    by (intros; apply zlen_col_header).
  assert (0 <= hl) by (rewrite <- (Hhl 0 0); apply zlen_nonneg).
  pose proof (zlen_nonneg (e_buf e)).
  unfold PutUint32.
  erewrite (zput_at _ (le_bytes 4 (u32 0) ++ le_bytes 4 (u32 (e_type e)) ++ le_bytes 4 (u32 (e_num e)) ++
    e_nulls e ++ [has_lens (e_lens e)] ++ lens_bytes (e_lens e)) (le_bytes 4 (u32 0)) _ []);
    [|unfold col_header; list_assoc| |by rewrite !zlen_le_bytes].
  2:{ rewrite !zlen_app, !zlen_le_bytes. change (zlen [_]) with 1. unfold hl, e_num. lia. }
  rewrite go_bind_ret, <- !app_assoc.
  erewrite (zput_at _ [] (le_bytes 4 (u32 0))); [|list_assoc|done|by rewrite !zlen_le_bytes].
  rewrite go_bind_ret, (app_nil_r (le_bytes 4 (u32 (zlen _)))), app_nil_l.
  replace (zlen (e_buf e) + hl) with (enc_size e) by (unfold enc_size, hl; lia).
  match goal with |- context [zcopy _ 0 ?h] => change h with (enc_header e) end.
  replace (Z.to_nat (enc_size e)) with (Z.to_nat hl + Z.to_nat (zlen (e_buf e)))%nat
    by (unfold enc_size, hl in *; lia).
  rewrite replicate_add.
  assert (Hh : zlen (enc_header e) = hl) by apply zlen_col_header.
  erewrite (zcopy_at _ [] (replicate (Z.to_nat hl) 0)); [|done|done|rewrite zlen_replicate, Hh; lia].
  rewrite go_bind_ret, app_nil_l.
  erewrite (zcopy_at _ (enc_header e) (replicate (Z.to_nat (zlen (e_buf e))) 0) _ []);
    [|list_assoc|lia|rewrite zlen_replicate; lia].
  by rewrite app_nil_r.
Qed.

Lemma col_flags data :
  checkAllNull data = true -> (null_flag <$> data) = replicate (length data) 1.
Proof.
  unfold checkAllNull. induction data as [|v data IH]; [done|]. cbn [forallb fmap list_fmap length replicate].
  intros [Hv Hd]%andb_prop. rewrite IH by done. unfold null_flag. by rewrite Hv.
Qed.

(** Setting every null flag. *)
Lemma all_null_loop pre post :
  zlen pre = BindDataIsNullOffset -> forall n k,
  for_loop n (Z.of_nat k) (fun i h => zset h (BindDataIsNullOffset + i) 1)
    (pre ++ replicate k 1 ++ replicate n 0 ++ post)
  = Ret (pre ++ replicate (k + n) 1 ++ post).
Proof.
  intros Hpre. induction n as [|n IH]; intros k; cbn [for_loop].
  { by rewrite Nat.add_0_r, app_nil_l. }
  erewrite (zset_at _ (pre ++ replicate k 1) (replicate n 0 ++ post) 0); [|list_assoc|].
  2:{ rewrite zlen_app, zlen_replicate. lia. }
  rewrite go_bind_ret. specialize (IH (S k)).
  replace (Z.of_nat k + 1) with (Z.of_nat (S k)) by lia.
  replace (k + S n)%nat with (S k + n)%nat by lia. rewrite <- IH. f_equal.
  rewrite <- app_assoc. f_equal. change (1 :: ?l) with ([1] ++ l).
  rewrite (app_assoc (replicate k 1)). f_equal. change [1] with (replicate 1 1).
  rewrite <- replicate_add. f_equal. lia.
Qed.

Lemma fixed_case_spec write n conv data pre post buf :
  (forall b x, write b x = b ++ le_bytes n x) -> zlen pre = BindDataIsNullOffset ->
  fixed_case write conv data (pre ++ replicate (length data) 0 ++ post, buf)
  = (cells ← mapM (fixed_cell n conv) data;
     Ret (pre ++ (null_flag <$> data) ++ post, buf ++ concat cells)).
Proof.
  intros Hw Hpre. pose proof (fixed_loop_spec write n conv pre post Hw Hpre data [] buf) as H.
  unfold fixed_case, for_upto. unfold zlen at 1. rewrite Nat2Z.id. exact H.
Qed.

Lemma var_case_spec data pre post buf :
  zlen pre = BindDataIsNullOffset ->
  var_case data (pre ++ replicate (length data) 0 ++ [1] ++ words 4 (replicate (length data) 0) ++ post, buf)
  = (cells ← mapM var_cell data;
     Ret (pre ++ (null_flag <$> data) ++ [1] ++ words 4 (zlen <$> cells) ++ post, buf ++ concat cells)).
Proof.
  intros Hpre. pose proof (var_loop_spec pre post Hpre data [] [] buf eq_refl) as H.
  unfold var_case, for_upto. unfold zlen at 1. rewrite Nat2Z.id.
  refine (eq_trans H _). apply go_bind_ext. intros cells. by rewrite app_nil_l, words_u32.
Qed.

(** The part of the header before the null flags. *)
Definition col_prefix (t num : Z) : list Z :=
  le_bytes 4 (u32 0) ++ le_bytes 4 (u32 t) ++ le_bytes 4 (u32 num).

Lemma col_header_split t num nulls o :
  col_header t num 0 0 nulls o =
  col_prefix t num ++ nulls ++ [has_lens o] ++ lens_bytes o ++ le_bytes 4 (u32 0).
Proof. unfold col_header, col_prefix. list_assoc. Qed.

Lemma zlen_col_prefix t num : zlen (col_prefix t num) = BindDataIsNullOffset.
Proof. unfold col_prefix. by rewrite !zlen_app, !zlen_le_bytes. Qed.

(** The type switch, by the kind of the type. *)
Lemma bind_switch_var colType data st :
  needLength (f_FieldType colType) = true -> bind_switch colType data st = var_case data st.
Proof.
  intros H. unfold bind_switch.
  repeat (let E := fresh "E" in case_if E;
          [first [done | apply Z.eqb_eq in E; rewrite E in H; discriminate]|]).
  congruence.
Qed.

Lemma bind_switch_fixed colType data pre post buf :
  needLength (f_FieldType colType) = false -> zlen pre = BindDataIsNullOffset ->
  bind_switch colType data (pre ++ replicate (length data) 0 ++ post, buf) =
  match fixed_type colType with
  | Some (n, conv) =>
    cells ← mapM (fixed_cell n conv) data;
    Ret (pre ++ (null_flag <$> data) ++ post, buf ++ concat cells)
  | None => Err ErrUnsupportedType
  end.
Proof.
  intros H Hpre. unfold bind_switch, fixed_type. rewrite H.
  repeat (let E := fresh "E" in case_if E; [apply fixed_case_spec; [|done];
    first [done | apply writeUint32_spec | apply writeUint64_spec]|]).
  done.
Qed.

(** The type switch writes the cells of [col_enc]. *)
Lemma bind_switch_spec colType data :
  checkAllNull data = false ->
  let t := f_FieldType colType in
  let num := zlen data in
  bind_switch colType data (col_header t num 0 0 (replicate (length data) 0) (zero_lens t (length data)), [])
  = (e ← col_enc colType data;
     Ret (col_header t num 0 0 (e_nulls e) (e_lens e), e_buf e)).
Proof.
  intros Hn. cbv zeta. unfold col_enc, zero_lens. rewrite Hn, col_header_split.
  destruct (needLength (f_FieldType colType)) eqn:E.
  - rewrite bind_switch_var by done. cbn [has_lens lens_bytes].
    rewrite var_case_spec by apply zlen_col_prefix. rewrite go_bind_assoc. apply go_bind_ext.
    intros cells. cbn [mbind go_mbind]. by rewrite col_header_split.
  - rewrite bind_switch_fixed by (done || apply zlen_col_prefix).
    destruct (fixed_type colType) as [[n conv]|]; [|done]. rewrite go_bind_assoc. apply go_bind_ext.
    intros cells. cbn [mbind go_mbind]. by rewrite col_header_split.
Qed.

(** [col_enc] describes as many rows as the column has. *)
Lemma mapM_go_length {A B} (f : A -> go B) l k : mapM f l = Ret k -> length k = length l.
Proof.
  revert k. induction l as [|x l IH]; intros k; [by intros [= <-]|].
  rewrite mapM_go_cons. intros (y & _ & (k' & Hk & [= <-])%go_bind_Ret_inv)%go_bind_Ret_inv.
  simpl. by rewrite (IH k').
Qed.

Definition enc_wf (e : enc) : Prop :=
  match e_lens e with Some l => zlen l = e_num e | None => True end.

Lemma col_enc_facts colType data e :
  col_enc colType data = Ret e ->
  e_type e = f_FieldType colType /\ e_nulls e = null_flag <$> data /\ enc_wf e /\
  zlen (lens_bytes (e_lens e)) =
    (if needLength (f_FieldType colType) then 4 * zlen data else 0).
Proof.
  unfold col_enc, enc_wf, e_num. intros H.
  destruct (checkAllNull data); [|destruct (needLength _) eqn:En;
    [|destruct (fixed_type colType) as [[n conv]|]; [|discriminate]]].
  - injection H as <-. cbn [e_type e_nulls e_lens].
    destruct (needLength _); cbn [lens_bytes]; rewrite ?zlen_words, ?zlen_fmap, ?zlen_replicate; done.
  - apply go_bind_Ret_inv in H as (cells & Hc & [= <-]). apply mapM_go_length in Hc.
    cbn [e_type e_nulls e_lens lens_bytes]. rewrite zlen_words, !zlen_fmap. unfold zlen. by rewrite Hc.
  - apply go_bind_Ret_inv in H as (cells & Hc & [= <-]). done.
Qed.

(** The whole record, on every input. *)
Lemma generateBindColData_spec colType data :
  generateBindColData data colType = (e ← col_enc colType data; Ret (enc_bytes e)).
Proof.
  unfold generateBindColData. pose proof (col_prologue (f_FieldType colType) (length data)) as Hp.
  cbv zeta in Hp |- *. change (Z.of_nat (length data)) with (zlen data) in Hp.
  apply go_bind_Ret_inv in Hp as (h1 & E1 & (h2 & E2 & E3)%go_bind_Ret_inv).
  rewrite E1, go_bind_ret, E2, go_bind_ret, E3, go_bind_ret. clear h1 h2 E1 E2 E3.
  assert (Hst : (if checkAllNull data
     then tmpHeader ← for_upto (zlen data) (fun i h => zset h (BindDataIsNullOffset + i) 1)
            (col_header (f_FieldType colType) (zlen data) 0 0 (replicate (length data) 0)
               (zero_lens (f_FieldType colType) (length data)));
          Ret (tmpHeader, [])
     else bind_switch colType data (col_header (f_FieldType colType) (zlen data) 0 0
            (replicate (length data) 0) (zero_lens (f_FieldType colType) (length data)), []))
     = (e ← col_enc colType data;
        Ret (col_header (f_FieldType colType) (zlen data) 0 0 (e_nulls e) (e_lens e), e_buf e))).
  { destruct (checkAllNull data) eqn:Hn; [|by apply bind_switch_spec].
    rewrite col_header_split. unfold for_upto. unfold zlen at 1. rewrite Nat2Z.id.
    pose proof (all_null_loop (col_prefix (f_FieldType colType) (zlen data))
      ([has_lens (zero_lens (f_FieldType colType) (length data))] ++
       lens_bytes (zero_lens (f_FieldType colType) (length data)) ++ le_bytes 4 (u32 0))
      (zlen_col_prefix _ _) (length data) 0) as Hl.
    change (Z.of_nat 0) with 0 in Hl. cbn [replicate Nat.add] in Hl. rewrite app_nil_l in Hl.
    rewrite Hl, go_bind_ret. unfold col_enc. rewrite Hn, go_bind_ret. cbn [e_nulls e_lens e_buf].
    by rewrite col_flags, col_header_split. }
  rewrite Hst, go_bind_assoc. destruct (col_enc colType data) as [e| | |] eqn:Ee; try done.
  rewrite !go_bind_ret. apply col_enc_facts in Ee as (Ht & Hnl & _ & Hls).
  pose proof (col_epilogue e) as He. cbv zeta in He.
  replace (getBindDataHeaderLength (zlen data) (needLength (f_FieldType colType)))
    with (17 + e_num e + zlen (lens_bytes (e_lens e))).
  2:{ unfold getBindDataHeaderLength, e_num. rewrite Hls, Hnl, zlen_fmap. destruct (needLength _); lia. }
  replace (zlen data) with (e_num e) by (unfold e_num; by rewrite Hnl, zlen_fmap).
  rewrite <- Ht. exact He.
Qed.

(** ** Queries, tables and the buffer *)

Section Query.
Context (format_RFC3339Nano : Z -> list Z).
#[local] Abbreviation query_param := (query_param format_RFC3339Nano).

Definition query_enc (v : value) : go enc :=
  '(t, haveLength, b) ← query_param v;
  Ret (mkEnc t [0] (if (haveLength : bool) then Some [zlen b] else None) b).

Lemma generateBindQueryData_spec v :
  generateBindQueryData format_RFC3339Nano v = (e ← query_enc v; Ret (enc_bytes e)).
Proof.
  unfold generateBindQueryData, query_enc. rewrite go_bind_assoc. apply go_bind_ext.
  intros [[t hl] b]. rewrite go_bind_ret. cbv zeta.
  set (e := mkEnc t [0] (if hl then Some [zlen b] else None) b).
  assert (Hsz : zlen b + getBindDataHeaderLength 1 hl = enc_size e).
  { unfold enc_size, getBindDataHeaderLength, e_num, e. cbn [e_nulls e_lens e_buf].
    destruct hl; cbn [lens_bytes]; rewrite ?zlen_words; change (zlen [_]) with 1;
      change (zlen (@nil Z)) with 0; lia. }
  rewrite Hsz.
  assert (Hz : replicate (Z.to_nat (enc_size e)) 0 =
    le_bytes 4 0 ++ le_bytes 4 0 ++ le_bytes 4 0 ++ [0] ++ [0] ++
    lens_bytes (if hl then Some [0] else None) ++ le_bytes 4 0 ++ replicate (length b) 0).
  { rewrite !le_bytes_0. change [0] with (replicate 1 0). rewrite <- Hsz.
    unfold getBindDataHeaderLength, zlen. destruct hl; cbn [lens_bytes].
    - rewrite words_zeros, <- !replicate_add. f_equal. lia.
    - rewrite app_nil_l, <- !replicate_add. f_equal. lia. }
  rewrite Hz. clear Hz Hsz. unfold PutUint32.
  erewrite (zput_at _ (le_bytes 4 0) (le_bytes 4 0)); [|list_assoc|done|done]. rewrite go_bind_ret.
  erewrite (zput_at _ (le_bytes 4 0 ++ le_bytes 4 (u32 t)) (le_bytes 4 0)); [|list_assoc|done|done].
  rewrite go_bind_ret.
  erewrite (zset_at _ (le_bytes 4 0 ++ le_bytes 4 (u32 t) ++ le_bytes 4 (u32 1)));
    [|list_assoc|done].
  rewrite go_bind_ret.
  destruct hl; cbn [lens_bytes].
  - erewrite (zset_at _ (le_bytes 4 0 ++ le_bytes 4 (u32 t) ++ le_bytes 4 (u32 1) ++ [0]));
      [|list_assoc|done].
    rewrite go_bind_ret. unfold words at 1. cbn [fmap list_fmap concat].
    erewrite (zput_at _ (le_bytes 4 0 ++ le_bytes 4 (u32 t) ++ le_bytes 4 (u32 1) ++ [0] ++ [1])
      (le_bytes 4 0)); [|list_assoc|done|done].
    rewrite go_bind_ret.
    erewrite (zput_at _ (le_bytes 4 0 ++ le_bytes 4 (u32 t) ++ le_bytes 4 (u32 1) ++ [0] ++ [1] ++
      le_bytes 4 (u32 (zlen b))) (le_bytes 4 0)); [|list_assoc|done|done].
    rewrite go_bind_ret.
    erewrite (zcopy_at _ (le_bytes 4 0 ++ le_bytes 4 (u32 t) ++ le_bytes 4 (u32 1) ++ [0] ++ [1] ++
      le_bytes 4 (u32 (zlen b)) ++ le_bytes 4 (u32 (zlen b))) (replicate (length b) 0) b []);
      [|list_assoc|done|by rewrite zlen_replicate].
    rewrite go_bind_ret.
    erewrite (zput_at _ [] (le_bytes 4 0)); [|list_assoc|done|done].
    unfold enc_bytes, enc_header, e. cbn [e_nulls e_lens e_buf e_type has_lens lens_bytes].
    unfold words. cbn [fmap list_fmap concat]. rewrite !(le_bytes_wrap 4). f_equal. list_assoc.
  - rewrite go_bind_ret.
    erewrite (zput_at _ (le_bytes 4 0 ++ le_bytes 4 (u32 t) ++ le_bytes 4 (u32 1) ++ [0] ++ [0])
      (le_bytes 4 0)); [|list_assoc|done|done].
    rewrite go_bind_ret.
    erewrite (zcopy_at _ (le_bytes 4 0 ++ le_bytes 4 (u32 t) ++ le_bytes 4 (u32 1) ++ [0] ++ [0] ++
      le_bytes 4 (u32 (zlen b))) (replicate (length b) 0) b []);
      [|list_assoc|done|by rewrite zlen_replicate].
    rewrite go_bind_ret.
    erewrite (zput_at _ [] (le_bytes 4 0)); [|list_assoc|done|done].
    unfold enc_bytes, enc_header, e. cbn [e_nulls e_lens e_buf e_type has_lens lens_bytes].
    rewrite !(le_bytes_wrap 4). f_equal. list_assoc.
Qed.

(** The records of the tags and the columns of a table. *)
Fixpoint tag_encs (tags : list value) (tagType : list Stmt2AllField) : go (list enc) :=
  match tags, tagType with
  | [], _ => Ret []
  | tag :: tags, ty :: tagType => e ← col_enc ty [tag]; es ← tag_encs tags tagType; Ret (e :: es)
  | _ :: _, [] => Panic
  end.

Fixpoint col_encs (isInsert : bool) (cols : list (list value)) (colType : list Stmt2AllField)
  : go (list enc) :=
  match cols with
  | [] => Ret []
  | col :: cols =>
    e ← (if isInsert then match colType with ty :: _ => col_enc ty col | [] => Panic end
         else v ← zget col 0; query_enc v);
    es ← col_encs isInsert cols (tail colType); Ret (e :: es)
  end.

Definition encs_bytes (es : list enc) : list Z := concat (enc_bytes <$> es).

Lemma bind_tags_spec tags tagType :
  bind_tags tags tagType = (es ← tag_encs tags tagType; Ret (encs_bytes es)).
Proof.
  revert tagType. induction tags as [|tag tags IH]; intros [|ty tagType]; try done.
  cbn [bind_tags tag_encs]. rewrite generateBindColData_spec, !go_bind_assoc. apply go_bind_ext.
  intros e. rewrite go_bind_ret, IH, !go_bind_assoc. by apply go_bind_ext.
Qed.

Lemma bind_cols_spec isInsert cols colType :
  bind_cols format_RFC3339Nano isInsert cols colType =
  (es ← col_encs isInsert cols colType; Ret (encs_bytes es)).
Proof.
  revert colType. induction cols as [|col cols IH]; intros colType; [done|].
  cbn [bind_cols col_encs]. rewrite go_bind_assoc.
  transitivity ((e ← (if isInsert then match colType with ty :: _ => col_enc ty col | [] => Panic end
         else v ← zget col 0; query_enc v); Ret (enc_bytes e)) ≫= fun b =>
      rest ← bind_cols format_RFC3339Nano isInsert cols (tail colType); Ret (b ++ rest)).
  - f_equal. destruct isInsert.
    + destruct colType; [done|]. apply generateBindColData_spec.
    + rewrite go_bind_assoc. apply go_bind_ext. intros v. apply generateBindQueryData_spec.
  - rewrite go_bind_assoc. apply go_bind_ext. intros e.
    rewrite go_bind_ret, IH, !go_bind_assoc. by apply go_bind_ext.
Qed.

(** A table: its name with the terminator, its tags and its columns. *)
Record table := mkTable { t_name : list Z; t_tags : list enc; t_cols : list enc }.

Definition table_enc (isInsert needNames needTags needCols : bool)
    (tagType colType : list Stmt2AllField) (d : TaosStmt2BindData) : go table :=
  name ← (if needNames then
            if zlen (TableName d) >? 65534 then Err ErrNameTooLong else Ret (TableName d ++ [0])
          else Ret []);
  tags ← (if needTags then tag_encs (Tags d) tagType else Ret []);
  cols ← (if needCols then col_encs isInsert (Cols d) colType else Ret []);
  Ret (mkTable name tags cols).

(** A section of entries, when there is one. *)
Definition entry_lens (need : bool) (w : Z) (entries : list (list Z)) : list Z :=
  if need then (fun b => wrap_u w (zlen b)) <$> entries else [].
Definition entry_bytes (need : bool) (entries : list (list Z)) : list Z :=
  if need then concat entries else [].

Definition sections_of (needNames needTags needCols : bool) (ts : list table) : sections :=
  mkSections
    (entry_bytes needNames (t_name <$> ts)) (entry_lens needNames 16 (t_name <$> ts))
    (entry_bytes needTags ((fun t => encs_bytes (t_tags t)) <$> ts))
    (entry_lens needTags 32 ((fun t => encs_bytes (t_tags t)) <$> ts))
    (entry_bytes needCols ((fun t => encs_bytes (t_cols t)) <$> ts))
    (entry_lens needCols 32 ((fun t => encs_bytes (t_cols t)) <$> ts)).

Definition sections_app (a b : sections) : sections :=
  mkSections (s_names a ++ s_names b) (s_name_lens a ++ s_name_lens b)
    (s_tags a ++ s_tags b) (s_tag_lens a ++ s_tag_lens b)
    (s_cols a ++ s_cols b) (s_col_lens a ++ s_col_lens b).

Lemma sections_app_assoc a b c : sections_app a (sections_app b c) = sections_app (sections_app a b) c.
Proof. unfold sections_app. cbn. by rewrite !app_assoc. Qed.

Lemma sections_of_cons nn nt nc t ts :
  sections_of nn nt nc (t :: ts) = sections_app (sections_of nn nt nc [t]) (sections_of nn nt nc ts).
Proof.
  unfold sections_of, sections_app. cbn [fmap list_fmap concat]. unfold entry_lens, entry_bytes.
  destruct nn, nt, nc; cbn; by rewrite ?app_nil_r.
Qed.

Lemma bind_table_spec ins nn nt nc tagType colType s d :
  bind_table format_RFC3339Nano ins nn nt nc tagType colType s d =
  (t ← table_enc ins nn nt nc tagType colType d; Ret (sections_app s (sections_of nn nt nc [t]))).
Proof.
  unfold bind_table, table_enc.
  assert (Hname : (if nn then if zlen (TableName d) >? 65535 - 1 then Err ErrNameTooLong
      else Ret (s_names s ++ TableName d ++ [0], s_name_lens s ++ [u16 (zlen (TableName d) + 1)])
    else Ret (s_names s, s_name_lens s)) =
    (name ← (if nn then if zlen (TableName d) >? 65534 then Err ErrNameTooLong
                        else Ret (TableName d ++ [0]) else Ret []);
     Ret (s_names s ++ entry_bytes nn [name], s_name_lens s ++ entry_lens nn 16 [name]))).
  { destruct nn; [|cbn; by rewrite !app_nil_r]. change (65535 - 1) with 65534.
    destruct (_ >? _); [done|]. cbn. by rewrite zlen_snoc, app_nil_r. }
  assert (Htags : (if nt then b ← bind_tags (Tags d) tagType;
                      Ret (s_tags s ++ b, s_tag_lens s ++ [u32 (zlen b)])
                   else Ret (s_tags s, s_tag_lens s)) =
    (es ← (if nt then tag_encs (Tags d) tagType else Ret []);
     Ret (s_tags s ++ entry_bytes nt [encs_bytes es], s_tag_lens s ++ entry_lens nt 32 [encs_bytes es]))).
  { destruct nt; [|cbn; by rewrite !app_nil_r]. rewrite bind_tags_spec, go_bind_assoc.
    apply go_bind_ext. intros es. cbn. by rewrite !app_nil_r. }
  assert (Hcols : (if nc then b ← bind_cols format_RFC3339Nano ins (Cols d) colType;
                      Ret (s_cols s ++ b, s_col_lens s ++ [u32 (zlen b)])
                   else Ret (s_cols s, s_col_lens s)) =
    (es ← (if nc then col_encs ins (Cols d) colType else Ret []);
     Ret (s_cols s ++ entry_bytes nc [encs_bytes es], s_col_lens s ++ entry_lens nc 32 [encs_bytes es]))).
  { destruct nc; [|cbn; by rewrite !app_nil_r]. rewrite bind_cols_spec, go_bind_assoc.
    apply go_bind_ext. intros es. cbn. by rewrite !app_nil_r. }
  rewrite Hname, Htags, Hcols. clear Hname Htags Hcols.
  rewrite !go_bind_assoc. apply go_bind_ext. intros name.
  rewrite go_bind_ret, !go_bind_assoc. apply go_bind_ext. intros tags.
  rewrite go_bind_ret, !go_bind_assoc. apply go_bind_ext. intros cols.
  rewrite !go_bind_ret. unfold sections_app, sections_of. cbn [fmap list_fmap concat t_name t_tags t_cols
    s_names s_name_lens s_tags s_tag_lens s_cols s_col_lens]. done.
Qed.

Lemma bind_tables_spec ins nn nt nc tagType colType ds s :
  bind_tables format_RFC3339Nano ins nn nt nc tagType colType ds s =
  (ts ← mapM (table_enc ins nn nt nc tagType colType) ds;
   Ret (sections_app s (sections_of nn nt nc ts))).
Proof.
  revert s. induction ds as [|d ds IH]; intros s.
  - cbn. unfold sections_of, sections_app, entry_lens, entry_bytes. destruct s, nn, nt, nc; cbn; by rewrite !app_nil_r.
  - cbn [bind_tables]. rewrite mapM_go_cons, bind_table_spec, !go_bind_assoc. apply go_bind_ext.
    intros t. rewrite go_bind_ret, IH, go_bind_assoc. apply go_bind_ext. intros ts.
    rewrite go_bind_ret. by rewrite (sections_of_cons _ _ _ t ts), sections_app_assoc.
Qed.

(** The buffer. *)
Definition buffer_header (total count tagCount colCount nameOff tagOff colOff : Z) : list Z :=
  words 4 [total; count; tagCount; colCount; nameOff; tagOff; colOff].

Definition section_bytes (w : nat) (lens bytes : list Z) : list Z := words w lens ++ bytes.

Definition buffer_of (needNames needTags needCols : bool) (count tagCount colCount : Z) (s : sections)
  : list Z :=
  let tagOffset := 28 + zlen (section_bytes 2 (s_name_lens s) (s_names s)) in
  let colOffset := tagOffset + zlen (section_bytes 4 (s_tag_lens s) (s_tags s)) in
  let total := colOffset + zlen (section_bytes 4 (s_col_lens s) (s_cols s)) in
  buffer_header (u32 total) (u32 count) (u32 tagCount) (u32 colCount)
    (if needNames then 28 else 0) (if needTags then u32 tagOffset else 0)
    (if needCols then u32 colOffset else 0) ++
  section_bytes 2 (s_name_lens s) (s_names s) ++ section_bytes 4 (s_tag_lens s) (s_tags s) ++
  section_bytes 4 (s_col_lens s) (s_cols s).

Lemma write_section_spec pre lens bytes post (n : nat) w off :
  off = zlen pre -> Z.of_nat n = zlen (section_bytes w lens bytes) ->
  write_section (pre ++ replicate n 0 ++ post) off w lens bytes =
  Ret (pre ++ section_bytes w lens bytes ++ post).
Proof.
  intros -> Hn. unfold write_section, section_bytes in *.
  assert (Hfold : forall lens pre n, (w * length lens <= n)%nat ->
    foldl (fun st len => '(buffer, offset) ← (st : go (list Z * Z));
      buffer ← zput buffer offset (le_bytes w len); Ret (buffer, offset + Z.of_nat w))
      (Ret (pre ++ replicate n 0 ++ post, zlen pre)) lens =
    Ret (pre ++ words w lens ++ replicate (n - w * length lens) 0 ++ post,
         zlen pre + zlen (words w lens))).
  { clear. induction lens as [|x lens IH]; intros pre n Hn; cbn [foldl length] in *.
    - change (words w []) with (@nil Z). change (zlen []) with 0.
      by rewrite Z.add_0_r, Nat.mul_0_r, Nat.sub_0_r.
    - rewrite go_bind_ret. replace n with (w + (n - w))%nat at 1 by lia. rewrite replicate_add.
      erewrite (zput_at _ pre (replicate w 0)); [|list_assoc|done|by rewrite zlen_replicate, zlen_le_bytes].
      rewrite go_bind_ret. replace (zlen pre + Z.of_nat w) with (zlen (pre ++ le_bytes w x))
        by (by rewrite zlen_app, zlen_le_bytes).
      rewrite (app_assoc pre), IH by lia. rewrite words_cons, !zlen_app, zlen_le_bytes.
      replace (n - w * S (length lens))%nat with (n - w - w * length lens)%nat by lia.
      f_equal. f_equal; [list_assoc|lia]. }
  rewrite zlen_app, zlen_words in Hn. pose proof (zlen_nonneg bytes).
  rewrite Hfold by (unfold zlen in *; lia). rewrite go_bind_ret.
  erewrite (zcopy_at _ (pre ++ words w lens) (replicate (n - w * length lens) 0) bytes post).
  - f_equal. list_assoc.
  - list_assoc.
  - by rewrite zlen_app.
  - rewrite zlen_replicate. unfold zlen in *. lia.
Qed.

Lemma header_put l (k : nat) v :
  (k < length l)%nat -> PutUint32 (words 4 l) (4 * Z.of_nat k) v = Ret (words 4 (<[k := u32 v]> l)).
Proof.
  intros Hk. destruct (lookup_lt_is_Some_2 l k Hk) as [x Hx].
  rewrite insert_take_drop by done. rewrite <- (take_drop_middle l k x Hx) at 1.
  unfold words. rewrite !fmap_app, !concat_app. cbn [fmap list_fmap concat]. unfold PutUint32.
  apply zput_mid; [|by rewrite !zlen_le_bytes].
  fold (words 4 (take k l)). rewrite zlen_words. unfold zlen. rewrite length_take. lia.
Qed.

Lemma header_maybe (b : bool) l (k : nat) v x off :
  l !! k = Some x -> off = 4 * Z.of_nat k ->
  (if b then PutUint32 (words 4 l) off v else Ret (words 4 l)) =
  Ret (words 4 (<[k := if b then u32 v else x]> l)).
Proof.
  intros Hx ->. destruct b.
  - apply header_put. by eapply lookup_lt_Some.
  - by rewrite list_insert_id.
Qed.

Lemma write_section_maybe (b : bool) pre lens bytes post n w off :
  (b = false -> lens = [] /\ bytes = []) ->
  off = zlen pre -> Z.of_nat n = zlen (section_bytes w lens bytes) ->
  (if b then write_section (pre ++ replicate n 0 ++ post) off w lens bytes
   else Ret (pre ++ replicate n 0 ++ post)) =
  Ret (pre ++ section_bytes w lens bytes ++ post).
Proof.
  intros Hb Hoff Hn. destruct b; [by apply write_section_spec|].
  destruct (Hb eq_refl) as [-> ->]. by destruct n.
Qed.

(** The sizes of the sections as [MarshalStmt2Binary] computes them. *)
Lemma zlen_section w lens bytes : zlen (section_bytes w lens bytes) = zlen bytes + zlen lens * Z.of_nat w.
Proof. unfold section_bytes. rewrite zlen_app, zlen_words. lia. Qed.

Definition layout (needNames needTags needCols : bool) (count tagCount colCount : Z) (ts : list table)
  : list Z :=
  buffer_of needNames needTags needCols count tagCount colCount
    (sections_of needNames needTags needCols ts).

Lemma MarshalStmt2Binary_spec bindData isInsert fields :
  let colType := filter (fun f => f_BindType f = TAOS_FIELD_COL) fields in
  let tagType := filter (fun f => f_BindType f = TAOS_FIELD_TAG) fields in
  MarshalStmt2Binary format_RFC3339Nano bindData isInsert fields =
  if zlen bindData =? 0 then Err ErrEmptyData
  else
    '(nn, colCount) ← (if isInsert then
        b ← check_insert bindData (zlen tagType) (zlen colType) false; Ret (b, zlen colType)
      else c ← check_query bindData (zlen tagType) (zlen colType); Ret (false, c));
    let nt := negb (zlen tagType =? 0) in
    let nc := negb (colCount =? 0) in
    if negb nn && negb nt && negb nc then Err ErrNoData
    else ts ← mapM (table_enc isInsert nn nt nc tagType colType) bindData;
         Ret (layout nn nt nc (zlen bindData) (zlen tagType) colCount ts).
Proof.
  cbv zeta. unfold MarshalStmt2Binary. destruct (zlen bindData =? 0); [done|].
  set (tagType := filter _ fields). set (colType := filter _ fields). cbv zeta.
  apply go_bind_ext. intros [nn cc].
  set (nt := negb (zlen tagType =? 0)). set (nc := negb (cc =? 0)).
  change (replicate (Z.to_nat DataPosition) 0) with (words 4 (replicate 7 0)).
  change CountPosition with (4 * Z.of_nat 1). rewrite header_put by (cbn; lia). rewrite go_bind_ret.
  cbn [replicate insert list_insert].
  rewrite (header_maybe nt _ 2 _ 0), go_bind_ret by done.
  rewrite (header_maybe nc _ 3 _ 0), go_bind_ret by done. cbn [insert list_insert].
  replace (if nt then u32 (zlen tagType) else 0) with (u32 (zlen tagType)).
  2:{ unfold nt. destruct (zlen tagType =? 0) eqn:E; [|done]. apply Z.eqb_eq in E. by rewrite E. }
  replace (if nc then u32 cc else 0) with (u32 cc).
  2:{ unfold nc. destruct (cc =? 0) eqn:E; [|done]. apply Z.eqb_eq in E. by rewrite E. }
  destruct (negb nn && negb nt && negb nc); [done|].
  rewrite bind_tables_spec, go_bind_assoc. apply go_bind_ext. intros ts. rewrite go_bind_ret.
  unfold layout. assert (Hs : sections_app (mkSections [] [] [] [] [] []) (sections_of nn nt nc ts) =
    sections_of nn nt nc ts) by done.
  rewrite Hs. clear Hs. set (s := sections_of nn nt nc ts). cbv zeta.
  assert (Hnn : nn = false -> s_name_lens s = [] /\ s_names s = []) by (intros E; unfold s; by rewrite E).
  assert (Hnt : nt = false -> s_tag_lens s = [] /\ s_tags s = []) by (intros E; unfold s; by rewrite E).
  assert (Hnc : nc = false -> s_col_lens s = [] /\ s_cols s = []) by (intros E; unfold s; by rewrite E).
  clearbody s nt nc. unfold buffer_of, buffer_header. rewrite !zlen_section.
  change (Z.of_nat 2) with 2. change (Z.of_nat 4) with 4. change DataPosition with 28.
  set (tagOffset := 28 + zlen (s_names s) + zlen (s_name_lens s) * 2).
  replace (28 + (zlen (s_names s) + zlen (s_name_lens s) * 2)) with tagOffset by (unfold tagOffset; lia).
  rewrite (Z.add_assoc tagOffset). set (colOffset := tagOffset + zlen (s_tags s) + _).
  rewrite (Z.add_assoc colOffset). set (total := colOffset + zlen (s_cols s) + _).
  rewrite (header_maybe nn _ 4 _ 0), go_bind_ret by done.
  rewrite (header_maybe nt _ 5 _ 0), go_bind_ret by done.
  rewrite (header_maybe nc _ 6 _ 0), go_bind_ret by done.
  change TotalLengthPosition with (4 * Z.of_nat 0). rewrite header_put by (cbn; lia). rewrite go_bind_ret.
  cbn [insert list_insert]. change (u32 28) with 28. set (h := words 4 _).
  pose proof (zlen_section 2 (s_name_lens s) (s_names s)) as Hz1.
  pose proof (zlen_section 4 (s_tag_lens s) (s_tags s)) as Hz2.
  pose proof (zlen_section 4 (s_col_lens s) (s_cols s)) as Hz3.
  set (b1 := section_bytes 2 _ _) in *. set (b2 := section_bytes 4 (s_tag_lens s) _) in *.
  set (b3 := section_bytes 4 (s_col_lens s) _) in *.
  replace (Z.to_nat total) with (28 + (length b1 + (length b2 + length b3)))%nat
    by (unfold total, colOffset, tagOffset, zlen in *; lia).
  rewrite !(replicate_add). erewrite (zcopy_at _ [] (replicate 28 0) h); [|done|done|].
  2:{ unfold h. by rewrite zlen_words. }
  rewrite go_bind_ret, app_nil_l.
  rewrite (write_section_maybe nn h); [|done|unfold h; by rewrite zlen_words|done].
  rewrite go_bind_ret, (app_assoc h).
  rewrite (write_section_maybe nt (h ++ b1)); [|done| |done].
  2:{ rewrite zlen_app. unfold h. rewrite zlen_words. change (zlen [_;_;_;_;_;_;_]) with 7.
      unfold tagOffset. lia. }
  rewrite go_bind_ret. rewrite <- (app_nil_r (replicate (length b3) 0)), (app_assoc (h ++ b1)).
  rewrite (write_section_maybe nc ((h ++ b1) ++ b2)); [|done| |done].
  2:{ rewrite !zlen_app. unfold h. rewrite zlen_words. change (zlen [_;_;_;_;_;_;_]) with 7.
      unfold colOffset, tagOffset. lia. }
  f_equal. list_assoc.
Qed.
End Query.
