(* ===== verification/Stmt2Bind.v ===== *)
(** * Stmt2Bind: decoding the binary bind format

    Models [src/driver/wrapper/stmt2binary.go]: [TaosStmt2BindBinary] and the C functions of its
    preamble, which check the offsets of a bind buffer and turn it into the [TAOS_STMT2_BINDV]
    that [taos_stmt2_bind_param] takes.  The buffer is the block of memory [C.CBytes] makes of it,
    so a C pointer into it is an offset and a load outside it is a [Fault]; [uint32_t] arithmetic
    wraps; the two [malloc]ed arrays have their allocated size, and a store outside of them is a
    [Fault] too, as is an overflowing [int] product. *)
From S2P Require Import Prelude Common Stmt2 Stmt2Spec.
#[local] Open Scope Z_scope.

(** [TAOS_STMT2_BIND]; its pointers are offsets into the data. *)
Record TAOS_STMT2_BIND := mkBind {
  buffer_type : Z; buffer : option Z; b_length : option Z; is_null : Z; num : Z }.

(** [TAOS_STMT2_BINDV] with the memory its pointers lead to: the data, the array of binds and the
    array of pointers to binds ([tags] and [bind_cols] point into the latter). *)
Record TAOS_STMT2_BINDV := mkBindv {
  v_count : Z;
  v_tbnames : option (list Z);
  v_tags : option Z;
  v_bind_cols : option Z;
  v_ptrs : list Z;
  v_structs : list TAOS_STMT2_BIND;
  v_data : mem }.

(** A store to a C array. *)
Definition store {A} (l : list A) (i : Z) (x : A) : go (list A) :=
  if bool_decide (0 <= i < zlen l) then Ret (<[Z.to_nat i := x]> l) else Fault.

Definition ErrBindLength : error := "bind data length error"%string.

(** The body of the inner loop of [go_generate_stmt2_binds]: one bind and the next [data_ptr]. *)
Definition parse_bind (data : mem) (data_ptr : Z) : go (TAOS_STMT2_BIND * Z) :=
  let bind_data_ptr := data_ptr in
  bind_data_totalLength ← load_u 4 data bind_data_ptr;
  let bind_data_ptr := bind_data_ptr + 4 in
  buffer_type ← load_s 4 data bind_data_ptr;
  let bind_data_ptr := bind_data_ptr + 4 in
  num ← load_s 4 data bind_data_ptr;
  let bind_data_ptr := bind_data_ptr + 4 in
  let is_null := bind_data_ptr in
  let bind_data_ptr := bind_data_ptr + num in
  have_length ← load_s 1 data bind_data_ptr;
  let bind_data_ptr := bind_data_ptr + 1 in
  '(b_length, bind_data_ptr) ← (if have_length =? 0 then Ret (None, bind_data_ptr)
     else if bool_decide (- 2 ^ 31 <= num * 4 < 2 ^ 31) then Ret (Some bind_data_ptr, bind_data_ptr + num * 4)
     else Fault);
  buffer_length ← load_s 4 data bind_data_ptr;
  let bind_data_ptr := bind_data_ptr + 4 in
  let '(buffer, bind_data_ptr) :=
    if buffer_length >? 0 then (Some bind_data_ptr, bind_data_ptr + buffer_length)
    else (None, bind_data_ptr) in
  if negb (bind_data_ptr - data_ptr =? bind_data_totalLength) then Err ErrBindLength
  else Ret (mkBind buffer_type buffer b_length is_null num, bind_data_ptr).

Definition binds_state : Type := Z * list TAOS_STMT2_BIND * list Z.

(** The loop over the fields of the table whose binds start at [bind_ptr_t]. *)
Definition bind_field (data : mem) (bind_ptr_t : Z) (field_index : Z)
    (st : Z * list TAOS_STMT2_BIND) : go (Z * list TAOS_STMT2_BIND) :=
  let '(data_ptr, bind_struct) := st in
  '(bind, data_ptr) ← parse_bind data data_ptr;
  bind_struct ← store bind_struct (bind_ptr_t + field_index) bind;
  Ret (data_ptr, bind_struct).

Definition bind_one_table (data : mem) (field_count struct_base ptr_base : Z) (table_index : Z)
    (st : binds_state) : go binds_state :=
  let '(data_ptr, bind_struct, bind_ptr) := st in
  let bind_ptr_t := struct_base + u32 (table_index * field_count) in
  bind_ptr ← store bind_ptr (ptr_base + table_index) bind_ptr_t;
  '(data_ptr, bind_struct) ← for_upto field_count (bind_field data bind_ptr_t) (data_ptr, bind_struct);
  Ret (data_ptr, bind_struct, bind_ptr).

(** [struct_base] and [ptr_base] are the indices of the [bind_struct] and [bind_ptr] arguments in
    the allocated arrays. *)
Definition go_generate_stmt2_binds (data : mem) (count field_count field_offset : Z)
    (struct_base ptr_base : Z) (bind_struct : list TAOS_STMT2_BIND) (bind_ptr : list Z)
  : go (list TAOS_STMT2_BIND * list Z) :=
  let data_ptr := field_offset + 4 * count in
  '(_, bind_struct, bind_ptr) ← for_upto count (bind_one_table data field_count struct_base ptr_base)
                                  (data_ptr, bind_struct, bind_ptr);
  Ret (bind_struct, bind_ptr).

(** The check of one section: [base_end] is [offset + count * width] and grows by every length. *)
Definition check_section (data : mem) (total_length count offset : Z) (width : nat)
    (err_range err_zero err_total : error) : go unit :=
  let end_ := u32 (offset + u32 (count * Z.of_nat width)) in
  if end_ >? total_length then Err err_range
  else
    end_ ← for_upto count (fun i end_ =>
      len ← load_u width data (offset + Z.of_nat width * i);
      if len =? 0 then Err err_zero else Ret (u32 (end_ + len))) end_;
    if end_ >? total_length then Err err_total else Ret tt.

Definition ErrNameLengths : error := "table name lengths out of range"%string.
Definition ErrNameZero : error := "table name length is 0"%string.
Definition ErrNames : error := "table names out of range"%string.
Definition ErrTagCountZero : error := "tag count is 0, but tags offset is not 0"%string.
Definition ErrTags : error := "tags out of range"%string.
Definition ErrTagZero : error := "tag length is 0"%string.
Definition ErrColCountZero : error := "col count is 0, but cols offset is not 0"%string.
Definition ErrCols : error := "cols out of range"%string.
Definition ErrColZero : error := "col length is 0"%string.
Definition ErrMallocName : error := "malloc tableName error"%string.
Definition ErrMallocStruct : error := "malloc bind struct error"%string.
Definition ErrMallocPtr : error := "malloc bind pointer error"%string.

(** The pointers to the table names. *)
Definition table_names (data : mem) (count table_names_offset : Z) : go (list Z) :=
  '(names, _) ← for_upto count (fun i st =>
     let '(names, ptr) := (st : list Z * Z) in
     len ← load_u 2 data (table_names_offset + 2 * i);
     Ret (names ++ [ptr], ptr + len)) ([], table_names_offset + 2 * count);
  Ret names.

Section Bind.
(** Whether an allocation of [n] elements succeeds; what uninitialised memory holds; and
    [taos_stmt2_bind_param], which returns a code, with [taos_stmt2_error]. *)
Context (malloc_names malloc_struct malloc_ptr : Z -> bool).
Context (junk_bind : TAOS_STMT2_BIND) (junk_ptr : Z).
Context (taos_stmt2_bind_param : TAOS_STMT2_BINDV -> Z -> Z * error).

(** Building the [TAOS_STMT2_BINDV]; an [Err] is a return of -1 with the message in [err_msg]. *)
Definition make_bindv (data : mem) : go TAOS_STMT2_BINDV :=
  total_length ← load_u 4 data 0;
  count ← load_u 4 data 4;
  tag_count ← load_u 4 data 8;
  col_count ← load_u 4 data 12;
  table_names_offset ← load_u 4 data 16;
  tags_offset ← load_u 4 data 20;
  cols_offset ← load_u 4 data 24;
  _ ← (if table_names_offset >? 0 then
         check_section data total_length count table_names_offset 2 ErrNameLengths ErrNameZero ErrNames
       else Ret tt);
  _ ← (if tags_offset >? 0 then
         if tag_count =? 0 then Err ErrTagCountZero
         else check_section data total_length count tags_offset 4 ErrTags ErrTagZero ErrTags
       else Ret tt);
  _ ← (if cols_offset >? 0 then
         if col_count =? 0 then Err ErrColCountZero
         else check_section data total_length count cols_offset 4 ErrCols ErrColZero ErrCols
       else Ret tt);
  tbnames ← (if table_names_offset >? 0 then
               if malloc_names count then names ← table_names data count table_names_offset; Ret (Some names)
               else Err ErrMallocName
             else Ret None);
  let bind_struct_count := u32 ((if tags_offset =? 0 then 0 else u32 (count * tag_count)) +
                                (if cols_offset =? 0 then 0 else u32 (count * col_count))) in
  let bind_ptr_count := u32 ((if tags_offset =? 0 then 0 else count) +
                             (if cols_offset =? 0 then 0 else count)) in
  if bind_struct_count =? 0 then Ret (mkBindv (i32 count) tbnames None None [] [] data)
  else if negb (malloc_struct bind_struct_count) then Err ErrMallocStruct
  else if negb (malloc_ptr bind_ptr_count) then Err ErrMallocPtr
  else
    let bind_struct := replicate (Z.to_nat bind_struct_count) junk_bind in
    let bind_ptr := replicate (Z.to_nat bind_ptr_count) junk_ptr in
    '(tags, struct_index, ptr_index, bind_struct, bind_ptr) ← (if tags_offset >? 0 then
        '(bind_struct, bind_ptr) ←
           go_generate_stmt2_binds data count tag_count tags_offset 0 0 bind_struct bind_ptr;
        Ret (Some 0, u32 (count * tag_count), count, bind_struct, bind_ptr)
      else Ret (None, 0, 0, bind_struct, bind_ptr));
    '(cols, bind_struct, bind_ptr) ← (if cols_offset >? 0 then
        '(bind_struct, bind_ptr) ←
           go_generate_stmt2_binds data count col_count cols_offset struct_index ptr_index bind_struct bind_ptr;
        Ret (Some ptr_index, bind_struct, bind_ptr)
      else Ret (None, bind_struct, bind_ptr));
    Ret (mkBindv (i32 count) tbnames tags cols bind_ptr bind_struct data).

(** What [snprintf] leaves in [err_msg], which has room for 128 bytes, one of them the zero at the end. *)
Definition err_msg (msg : error) : error := String.substring 0 127 msg.

(** The returned code and the contents of [err_msg]. *)
Definition go_stmt2_bind_binary (data : mem) (col_idx : Z) : go (Z * error) :=
  match make_bindv data with
  | Ret bind_v =>
    let '(code, msg) := taos_stmt2_bind_param bind_v col_idx in
    Ret (code, if code =? 0 then ""%string else err_msg msg)
  | Err e => Ret (-1, err_msg e)
  | Panic => Panic
  | Fault => Fault
  end.

Definition ErrDataLength : error := "data length is less than 28"%string.
Definition ErrTotalLength : error := "total length not match"%string.

(** [errors.NewError]: the code and the text of a [TaosError]. *)
Definition NewError (code : Z) (errStr : error) : Z * error := (Z.land (i32 code) 65535, errStr).

(** [Ret None] is a nil error, [Ret (Some (code, msg))] the [TaosError] of a failing C call. *)
Definition TaosStmt2BindBinary (data : list Z) (colIdx : Z) : go (option (Z * error)) :=
  if zlen data <? DataPosition then Err ErrDataLength
  else
    totalLength ← le_val <$> zslice data TotalLengthPosition (TotalLengthPosition + 4);
    if negb (totalLength =? u32 (zlen data)) then Err ErrTotalLength
    else
      '(code, msg) ← go_stmt2_bind_binary data colIdx;
      Ret (if code =? 0 then None else Some (NewError code msg)).
End Bind.

(** ** Decoding one record *)

(** The bind of a record that starts at [p]. *)
Definition bind_at (p : Z) (e : enc) : TAOS_STMT2_BIND :=
  mkBind (e_type e)
    (if zlen (e_buf e) >? 0 then Some (p + 17 + e_num e + zlen (lens_bytes (e_lens e))) else None)
    (match e_lens e with Some _ => Some (p + 13 + e_num e) | None => None end)
    (p + 12) (e_num e).

Lemma zlen_enc_bytes e : zlen (enc_bytes e) = enc_size e.
Proof.
  unfold enc_bytes, enc_size. rewrite zlen_app.
  replace (zlen (enc_header e)) with (17 + e_num e + zlen (lens_bytes (e_lens e))); [done|].
  symmetry. apply zlen_col_header.
Qed.

Lemma load_u_at n (l pre post : list Z) p z :
  l = pre ++ le_bytes n z ++ post -> p = zlen pre -> load_u n l p = Ret (wrap_u (8 * Z.of_nat n) z).
Proof. intros ->. apply load_u_mid. Qed.

Lemma load_s_at n (l pre post : list Z) p z :
  l = pre ++ le_bytes n z ++ post -> p = zlen pre -> (0 < n)%nat ->
  load_s n l p = Ret (wrap_s (8 * Z.of_nat n) z).
Proof. intros -> ? ?. by apply load_s_mid. Qed.

Lemma wrap_s_u w z : 0 < w -> wrap_s w (wrap_u w z) = wrap_s w z.
Proof. apply wrap_s_mod. Qed.

(** A record in memory: its type fits an [int], it is well formed and smaller than 2 GiB. *)
Definition enc_fits (e : enc) : Prop := in_s 32 (e_type e) /\ enc_wf e /\ enc_size e < 2 ^ 31.

Lemma enc_sizes e : enc_wf e -> 0 <= e_num e /\ 0 <= zlen (e_buf e) /\ 0 <= zlen (lens_bytes (e_lens e)) /\
  match e_lens e with Some l => zlen (lens_bytes (e_lens e)) = 4 * e_num e | None => True end.
Proof.
  intros Hwf. unfold enc_wf, e_num in *. repeat split; try apply zlen_nonneg.
  destruct (e_lens e); [|done]. cbn [lens_bytes]. rewrite zlen_words. lia.
Qed.

Lemma parse_bind_enc pre post e :
  enc_fits e ->
  parse_bind (pre ++ enc_bytes e ++ post) (zlen pre) =
  Ret (bind_at (zlen pre) e, zlen pre + enc_size e).
Proof.
  intros (Ht & Hwf & Hsz). destruct (enc_sizes e Hwf) as (Hn & Hb & Hl & Hl4).
  pose proof Hsz as Hsz'. unfold enc_size in Hsz'.
  unfold parse_bind, enc_bytes, enc_header. rewrite <- !app_assoc. cbv zeta.
  erewrite (load_u_at 4 _ pre); [|list_assoc|done]. rewrite go_bind_ret.
  erewrite (load_s_at 4 _ (pre ++ le_bytes 4 (u32 (enc_size e))) _ (zlen pre + 4)); [|list_assoc| |lia].
  2:{ rewrite zlen_app, zlen_le_bytes. lia. }
  rewrite go_bind_ret.
  erewrite (load_s_at 4 _ (pre ++ le_bytes 4 (u32 (enc_size e)) ++ le_bytes 4 (u32 (e_type e)))
    _ (zlen pre + 4 + 4));
    [|list_assoc| |lia].
  2:{ rewrite !zlen_app, !zlen_le_bytes. lia. }
  rewrite go_bind_ret. change (8 * Z.of_nat 4) with 32. rewrite !wrap_s_u by lia.
  rewrite (wrap_s_id 32 (e_type e)) by (done || lia).
  rewrite (wrap_s_id 32 (e_num e)) by (lia || range_lia).
  set (A := pre ++ le_bytes 4 (u32 (enc_size e)) ++ le_bytes 4 (u32 (e_type e)) ++ le_bytes 4 (u32 (e_num e))).
  assert (HA : zlen A = zlen pre + 12) by (unfold A; rewrite !zlen_app, !zlen_le_bytes; lia).
  replace [has_lens (e_lens e)] with (le_bytes 1 (has_lens (e_lens e))) by (by destruct (e_lens e)).
  erewrite (load_s_at 1 _ (A ++ e_nulls e)); [|unfold A; list_assoc| |lia].
  2:{ rewrite zlen_app, HA. unfold e_num. lia. }
  rewrite go_bind_ret.
  assert (Hlen : (if wrap_s (8 * Z.of_nat 1) (has_lens (e_lens e)) =? 0
      then Ret (None, zlen pre + 4 + 4 + 4 + e_num e + 1)
      else if bool_decide (- 2 ^ 31 <= e_num e * 4 < 2 ^ 31)
           then Ret (Some (zlen pre + 4 + 4 + 4 + e_num e + 1), zlen pre + 4 + 4 + 4 + e_num e + 1 + e_num e * 4)
           else Fault) =
    Ret (match e_lens e with Some _ => Some (zlen pre + 13 + e_num e) | None => None end,
         zlen pre + 13 + e_num e + zlen (lens_bytes (e_lens e)))).
  { destruct (e_lens e); cbn [has_lens].
    - change (wrap_s (8 * Z.of_nat 1) 1 =? 0) with false. cbv iota.
      rewrite bool_decide_eq_true_2 by range_lia. rewrite Hl4. f_equal. f_equal; [f_equal|]; lia.
    - change (wrap_s (8 * Z.of_nat 1) 0 =? 0) with true. cbv iota. f_equal. f_equal.
      cbn [lens_bytes]. change (zlen []) with 0. lia. }
  rewrite Hlen, go_bind_ret.
  erewrite (load_s_at 4 _ (A ++ e_nulls e ++ le_bytes 1 (has_lens (e_lens e)) ++ lens_bytes (e_lens e)));
    [|unfold A; list_assoc| |lia].
  2:{ rewrite !zlen_app, HA, zlen_le_bytes. unfold e_num. lia. }
  rewrite go_bind_ret. change (8 * Z.of_nat 4) with 32. rewrite !wrap_s_u by lia.
  rewrite (wrap_s_id 32 (zlen (e_buf e))) by (lia || range_lia).
  rewrite wrap_u_id by (apply wrap_u_range; lia). rewrite (wrap_u_id 32 (enc_size e)) by (unfold enc_size in *; range_lia).
  unfold bind_at, enc_size. destruct (zlen (e_buf e) >? 0) eqn:Eb.
  - rewrite (proj2 (Z.eqb_eq _ _)) by lia. cbn [negb]. f_equal. f_equal; [f_equal; [f_equal|]|]; lia.
  - rewrite (proj2 (Z.eqb_eq _ _)) by lia. cbn [negb]. f_equal. f_equal; [f_equal|]; lia.
Qed.

(** ** Decoding the records of a section *)

(** The binds of consecutive records. *)
Fixpoint binds_at (p : Z) (es : list enc) : list TAOS_STMT2_BIND :=
  match es with
  | [] => []
  | e :: es => bind_at p e :: binds_at (p + enc_size e) es
  end.

Lemma length_binds_at p es : length (binds_at p es) = length es.
Proof. revert p. induction es as [|e es IH]; intros p; [done|]. simpl. by rewrite IH. Qed.

Lemma store_mid {A} (pre post : list A) x y i :
  i = zlen pre -> store (pre ++ x :: post) i y = Ret (pre ++ y :: post).
Proof.
  intros ->. unfold store. rewrite bool_decide_eq_true_2.
  - f_equal. unfold zlen. rewrite Nat2Z.id, insert_app_r_alt by lia. by rewrite Nat.sub_diag.
  - rewrite zlen_app, zlen_cons. pose proof (zlen_nonneg pre). pose proof (zlen_nonneg post). lia.
Qed.

Lemma encs_bytes_cons e es : encs_bytes (e :: es) = enc_bytes e ++ encs_bytes es.
Proof. done. Qed.

Lemma bind_field_loop bp es : forall pre post fi A old B,
  Forall enc_fits es -> length old = length es -> bp + fi = zlen A ->
  for_loop (length es) fi (bind_field (pre ++ encs_bytes es ++ post) bp) (zlen pre, A ++ old ++ B) =
  Ret (zlen pre + zlen (encs_bytes es), A ++ binds_at (zlen pre) es ++ B).
Proof.
  induction es as [|e es IH]; intros pre post fi A old B Hfit Hlen Hbp.
  { destruct old; [|done]. cbn. by rewrite Z.add_0_r. }
  destruct old as [|x old]; [done|]. apply Forall_cons_1 in Hfit as [He Hes].
  cbn [length for_loop bind_field]. rewrite encs_bytes_cons, <- !(app_assoc (enc_bytes e)).
  unfold bind_field at 1. rewrite parse_bind_enc by done. rewrite go_bind_ret.
  cbn [app]. rewrite store_mid by done. rewrite go_bind_ret.
  specialize (IH (pre ++ enc_bytes e) post (fi + 1) (A ++ [bind_at (zlen pre) e]) old B Hes).
  rewrite (zlen_app pre), zlen_enc_bytes, zlen_snoc, <- !app_assoc in IH. cbn [app] in IH.
  refine (eq_trans (IH _ _) _); [by injection Hlen|lia|]. cbn [binds_at].
  by rewrite zlen_app, zlen_enc_bytes, Z.add_assoc.
Qed.

(** The tables of a section, each of [fc] records. *)
Fixpoint tables_at (p : Z) (tss : list (list enc)) : list TAOS_STMT2_BIND :=
  match tss with
  | [] => []
  | es :: tss => binds_at p es ++ tables_at (p + zlen (encs_bytes es)) tss
  end.

Fixpoint ptrs_from (b fc : Z) (n : nat) : list Z :=
  match n with O => [] | S n' => b :: ptrs_from (b + fc) fc n' end.

Lemma zlen_ptrs_from b fc n : zlen (ptrs_from b fc n) = Z.of_nat n.
Proof. revert b. induction n as [|n IH]; intros b; [done|]. cbn [ptrs_from]. rewrite zlen_cons, IH. lia. Qed.

Lemma zlen_tables_at fc p tss :
  Forall (fun es => zlen es = fc) tss -> zlen (tables_at p tss) = zlen tss * fc.
Proof.
  intros H. revert p. induction H as [|es tss Hes _ IH]; intros p; [done|].
  cbn [tables_at]. rewrite zlen_app, IH, zlen_cons. unfold zlen at 1. rewrite length_binds_at.
  fold (zlen es). lia.
Qed.

Lemma bind_one_table_eq data fc sb pb ti dp structs ptrs :
  bind_one_table data fc sb pb ti (dp, structs, ptrs) =
  (ptrs ← store ptrs (pb + ti) (sb + u32 (ti * fc));
   '(dp, structs) ← for_upto fc (bind_field data (sb + u32 (ti * fc))) (dp, structs);
   Ret (dp, structs, ptrs)).
Proof. done. Qed.

Lemma bind_tables_loop fc sb pb tss : forall pre post ti A old B P oldp Q,
  Forall (Forall enc_fits) tss -> Forall (fun es => zlen es = fc) tss ->
  0 <= ti -> (ti + zlen tss) * fc < 2 ^ 32 ->
  zlen old = zlen tss * fc -> sb + ti * fc = zlen A ->
  length oldp = length tss -> pb + ti = zlen P ->
  for_loop (length tss) ti
    (bind_one_table (pre ++ concat (encs_bytes <$> tss) ++ post) fc sb pb)
    (zlen pre, A ++ old ++ B, P ++ oldp ++ Q) =
  Ret (zlen pre + zlen (concat (encs_bytes <$> tss)), A ++ tables_at (zlen pre) tss ++ B,
       P ++ ptrs_from (sb + ti * fc) fc (length tss) ++ Q).
Proof.
  induction tss as [|es tss IH]; intros pre post ti A old B P oldp Q Hfit Hfc Hti Hmax Hold HA Holdp HP.
  { destruct oldp; [|done]. change (zlen (@nil (list enc))) with 0 in Hold. destruct old; [|rewrite zlen_cons in Hold;
      pose proof (zlen_nonneg old); lia]. cbn. by rewrite Z.add_0_r. }
  destruct oldp as [|x oldp]; [done|].
  apply Forall_cons_1 in Hfit as [Hes Hfit]. apply Forall_cons_1 in Hfc as [Hfce Hfc].
  rewrite zlen_cons in Hold, Hmax. pose proof (zlen_nonneg es). pose proof (zlen_nonneg tss).
  cbn [length for_loop fmap list_fmap concat]. rewrite <- !(app_assoc (encs_bytes es)).
  rewrite bind_one_table_eq.
  rewrite (wrap_u_id 32 (ti * fc)) by (split; nia).
  cbn [app]. rewrite store_mid by done. rewrite go_bind_ret.
  unfold for_upto. replace (Z.to_nat fc) with (length es) by (unfold zlen in *; lia).
  rewrite <- (take_drop (length es) old), <- (app_assoc (take (length es) old)).
  assert (Hle : (length es <= length old)%nat) by (unfold zlen in *; nia).
  rewrite bind_field_loop; [|done|by rewrite length_take; lia|lia].
  rewrite go_bind_ret.
  specialize (IH (pre ++ encs_bytes es) post (ti + 1) (A ++ binds_at (zlen pre) es)
    (drop (length es) old) B (P ++ [sb + ti * fc]) oldp Q Hfit Hfc).
  rewrite (zlen_app pre), (zlen_app A), zlen_snoc, <- !app_assoc in IH. cbn [app] in IH.
  refine (eq_trans (IH _ _ _ _ _ _) _).
  - lia.
  - lia.
  - unfold zlen in *. rewrite length_drop. lia.
  - unfold zlen. rewrite length_binds_at. fold (zlen A) (zlen es). lia.
  - by injection Holdp.
  - lia.
  - cbn [tables_at ptrs_from]. rewrite zlen_app, Z.add_assoc.
    replace (sb + (ti + 1) * fc) with (sb + ti * fc + fc) by lia. by rewrite <- app_assoc.
Qed.

(** ** The checks of the sections *)

Fixpoint zsum (l : list Z) : Z := match l with [] => 0 | x :: l => x + zsum l end.

Lemma zlen_concat {A} (ls : list (list A)) : zlen (concat ls) = zsum (zlen <$> ls).
Proof. induction ls as [|l ls IH]; [done|]. cbn [concat fmap list_fmap zsum]. by rewrite zlen_app, IH. Qed.

Lemma zsum_nonneg l : Forall (fun x => 0 < x) l -> 0 <= zsum l.
Proof. induction 1; cbn [zsum]; lia. Qed.

(** Entry lengths of a section of [w]-byte words. *)
Definition lens_ok (w : nat) (lens : list Z) : Prop :=
  Forall (fun x => 0 < x < 2 ^ (8 * Z.of_nat w)) lens.

Lemma lens_ok_pos w lens : lens_ok w lens -> Forall (fun x => 0 < x) lens.
Proof. intros H. eapply Forall_impl; [exact H|]. simpl. lia. Qed.

Lemma load_word w pre dn x rest post off i :
  0 < x < 2 ^ (8 * Z.of_nat w) -> off = zlen pre -> i = zlen dn ->
  load_u w (pre ++ words w (dn ++ x :: rest) ++ post) (off + Z.of_nat w * i) = Ret x.
Proof.
  intros Hx -> ->. unfold words. rewrite fmap_app, concat_app. cbn [fmap list_fmap concat].
  erewrite (load_u_at w _ (pre ++ words w dn) _ _ x).
  - by rewrite wrap_u_id by (unfold in_u; lia).
  - unfold words. list_assoc.
  - rewrite zlen_app, zlen_words. lia.
Qed.

Lemma check_loop w pre post err_zero lens : forall dn rest end_,
  lens = dn ++ rest -> lens_ok w lens -> 0 <= end_ -> end_ + zsum rest < 2 ^ 32 ->
  for_loop (length rest) (zlen dn) (fun i end_ =>
      len ← load_u w (pre ++ words w lens ++ post) (zlen pre + Z.of_nat w * i);
      if len =? 0 then Err err_zero else Ret (u32 (end_ + len))) end_
  = Ret (end_ + zsum rest).
Proof.
  intros dn rest. revert dn. induction rest as [|x rest IH]; intros dn end_ Hl Hok He Hs.
  { cbn. by rewrite Z.add_0_r. }
  cbn [zsum] in *. assert (Hok' := Hok). rewrite Hl in Hok'.
  apply Forall_app in Hok' as [_ Hok']. apply Forall_cons_1 in Hok' as [Hx Hr].
  cbv beta in Hx. pose proof (zsum_nonneg rest (lens_ok_pos w rest Hr)) as Hpos.
  cbn [length for_loop]. rewrite Hl at 1. rewrite load_word by done. rewrite go_bind_ret.
  rewrite (proj2 (Z.eqb_neq x 0)) by lia. rewrite wrap_u_id by (unfold in_u; lia). rewrite go_bind_ret.
  replace (zlen dn + 1) with (zlen (dn ++ [x])) by apply zlen_snoc.
  rewrite (IH (dn ++ [x])); [f_equal; lia|by rewrite <- app_assoc|done|lia|lia].
Qed.

Lemma check_section_ok w pre lens post total off e1 e2 e3 :
  off = zlen pre -> lens_ok w lens -> 0 <= total < 2 ^ 32 ->
  off + zlen (words w lens) + zsum lens <= total ->
  check_section (pre ++ words w lens ++ post) total (zlen lens) off w e1 e2 e3 = Ret tt.
Proof.
  intros -> Hok Ht Hle. unfold check_section. cbv zeta. rewrite zlen_words in Hle.
  pose proof (zsum_nonneg lens (lens_ok_pos w lens Hok)). pose proof (zlen_nonneg lens).
  pose proof (zlen_nonneg pre).
  rewrite (wrap_u_id 32 (zlen lens * _)) by (unfold in_u; lia).
  rewrite wrap_u_id by (unfold in_u; lia).
  case_if E1; [lia|]. unfold for_upto. unfold zlen at 1. rewrite Nat2Z.id.
  pose proof (check_loop w pre post e2 lens [] lens (zlen pre + zlen lens * Z.of_nat w) eq_refl Hok) as Hl.
  change (zlen []) with 0 in Hl. rewrite Hl by lia. rewrite go_bind_ret.
  case_if E2; [lia|done].
Qed.

(** Pointers to consecutive entries. *)
Fixpoint entry_ptrs (p : Z) (lens : list Z) : list Z :=
  match lens with [] => [] | x :: lens => p :: entry_ptrs (p + x) lens end.

Lemma names_loop pre post lens : forall dn rest acc p,
  lens = dn ++ rest -> lens_ok 2 lens ->
  for_loop (length rest) (zlen dn) (fun i st =>
     let '(names, ptr) := (st : list Z * Z) in
     len ← load_u 2 (pre ++ words 2 lens ++ post) (zlen pre + 2 * i);
     Ret (names ++ [ptr], ptr + len)) (acc, p)
  = Ret (acc ++ entry_ptrs p rest, p + zsum rest).
Proof.
  intros dn rest. revert dn. induction rest as [|x rest IH]; intros dn acc p Hl Hok.
  { cbn. by rewrite Z.add_0_r, app_nil_r. }
  assert (Hok' := Hok). rewrite Hl in Hok'.
  apply Forall_app in Hok' as [_ Hok']. apply Forall_cons_1 in Hok' as [Hx _].
  cbn [length for_loop]. rewrite Hl at 1. rewrite (load_word 2) by done. rewrite !go_bind_ret.
  replace (zlen dn + 1) with (zlen (dn ++ [x])) by apply zlen_snoc.
  rewrite (IH (dn ++ [x])); [|by rewrite <- app_assoc|done].
  cbn [entry_ptrs zsum]. f_equal. f_equal; [list_assoc|lia].
Qed.

Lemma table_names_ok pre lens post off :
  off = zlen pre -> lens_ok 2 lens ->
  table_names (pre ++ words 2 lens ++ post) (zlen lens) off =
  Ret (entry_ptrs (off + zlen (words 2 lens)) lens).
Proof.
  intros -> Hok. unfold table_names, for_upto. unfold zlen at 1. rewrite Nat2Z.id.
  pose proof (names_loop pre post lens [] lens [] (zlen pre + 2 * zlen lens) eq_refl Hok) as Hl.
  change (zlen []) with 0 in Hl. rewrite Hl, go_bind_ret, app_nil_l. by rewrite zlen_words.
Qed.

(** ** Decoding a whole buffer *)

Lemma go_generate_ok pre lens tss post fc (A old B : list TAOS_STMT2_BIND) (P oldp Q : list Z) off sb pb :
  off = zlen pre -> zlen lens = zlen tss ->
  Forall (Forall enc_fits) tss -> Forall (fun es => zlen es = fc) tss -> zlen tss * fc < 2 ^ 32 ->
  zlen old = zlen tss * fc -> sb = zlen A -> zlen oldp = zlen tss -> pb = zlen P ->
  go_generate_stmt2_binds (pre ++ words 4 lens ++ concat (encs_bytes <$> tss) ++ post)
    (zlen tss) fc off sb pb (A ++ old ++ B) (P ++ oldp ++ Q) =
  Ret (A ++ tables_at (off + zlen (words 4 lens)) tss ++ B, P ++ ptrs_from sb fc (length tss) ++ Q).
Proof.
  intros -> Hlens Hfit Hfc Hmax Hold -> Holdp ->. unfold go_generate_stmt2_binds, for_upto. cbv zeta.
  unfold zlen at 1. rewrite Nat2Z.id.
  replace (zlen pre + 4 * zlen tss) with (zlen (pre ++ words 4 lens))
    by (rewrite zlen_app, zlen_words; lia).
  rewrite (app_assoc pre).
  rewrite (bind_tables_loop fc (zlen A) (zlen P) tss (pre ++ words 4 lens) post 0 A old B P oldp Q);
    try done; try lia; [|unfold zlen in *; lia].
  rewrite go_bind_ret. rewrite zlen_app, Z.mul_0_l, Z.add_0_r. done.
Qed.

Lemma load_u_header l (k : nat) x rest :
  l !! k = Some x -> in_u 32 x -> load_u 4 (words 4 l ++ rest) (4 * Z.of_nat k) = Ret x.
Proof.
  intros Hk Hx. rewrite <- (take_drop_middle l k x Hk) at 1.
  unfold words. rewrite fmap_app, concat_app. cbn [fmap list_fmap concat].
  erewrite (load_u_at 4 _ (words 4 (take k l)) _ _ x).
  - by rewrite wrap_u_id.
  - unfold words. list_assoc.
  - rewrite zlen_words. unfold zlen. rewrite length_take. apply lookup_lt_Some in Hk. lia.
Qed.

Lemma elem_zlen_concat {A} (ls : list (list A)) l : l ∈ ls -> zlen l <= zlen (concat ls).
Proof.
  induction 1 as [l ls|l x ls _ IH]; cbn [concat]; rewrite zlen_app.
  - pose proof (zlen_nonneg (concat ls)). lia.
  - pose proof (zlen_nonneg x). lia.
Qed.

Lemma entry_lens_id w (entries : list (list Z)) :
  Forall (fun b => zlen b < 2 ^ w) entries -> entry_lens true w entries = zlen <$> entries.
Proof.
  unfold entry_lens. intros H. apply list_fmap_ext. intros i b Hb.
  apply wrap_u_id. split; [apply zlen_nonneg|]. by eapply Forall_lookup_1 in H.
Qed.

Definition enc_shape (e : enc) : Prop := in_s 32 (e_type e) /\ enc_wf e.

(** What a section of records needs: shaped records, [fc] of them for every table. *)
Definition recs_ok (fc : Z) (tss : list (list enc)) : Prop :=
  Forall (fun es => zlen es = fc /\ Forall enc_shape es) tss.

Lemma enc_size_17 e : enc_wf e -> 17 <= enc_size e.
Proof. intros H. destruct (enc_sizes e H) as (? & ? & ? & _). unfold enc_size. lia. Qed.

Lemma encs_bytes_17 es : Forall enc_shape es -> 17 * zlen es <= zlen (encs_bytes es).
Proof.
  induction 1 as [|e es [_ Hwf] _ IH]; [done|]. rewrite encs_bytes_cons, zlen_app, zlen_cons, zlen_enc_bytes.
  pose proof (enc_size_17 e Hwf). lia.
Qed.

Lemma recs_size fc tss :
  recs_ok fc tss -> 17 * (zlen tss * fc) <= zlen (concat (encs_bytes <$> tss)).
Proof.
  induction 1 as [|es tss [Hfc Hes] _ IH]; [done|]. cbn [fmap list_fmap concat].
  rewrite zlen_app, zlen_cons. pose proof (encs_bytes_17 es Hes). lia.
Qed.

Lemma recs_fit fc tss :
  recs_ok fc tss -> zlen (concat (encs_bytes <$> tss)) < 2 ^ 31 -> Forall (Forall enc_fits) tss.
Proof.
  intros H Hsz. apply Forall_forall. intros es Hes. apply Forall_forall. intros e He.
  pose proof (proj1 (Forall_forall _ _) H es Hes) as [_ Hsh].
  pose proof (proj1 (Forall_forall _ _) Hsh e He) as [Ht Hwf].
  split; [done|]. split; [done|]. rewrite <- zlen_enc_bytes.
  assert (zlen (enc_bytes e) <= zlen (encs_bytes es)) by (apply elem_zlen_concat, list_elem_of_fmap_2, He).
  assert (zlen (encs_bytes es) <= zlen (concat (encs_bytes <$> tss)))
    by (apply elem_zlen_concat, list_elem_of_fmap_2, Hes). lia.
Qed.

Lemma recs_lens fc tss :
  0 < fc -> recs_ok fc tss -> zlen (concat (encs_bytes <$> tss)) < 2 ^ 31 ->
  entry_lens true 32 (encs_bytes <$> tss) = zlen <$> (encs_bytes <$> tss) /\
  lens_ok 4 (zlen <$> (encs_bytes <$> tss)).
Proof.
  intros Hfc H Hsz.
  assert (Hb : Forall (fun b => 0 < zlen b < 2 ^ 32) (encs_bytes <$> tss)).
  { apply Forall_fmap, Forall_forall. intros es Hes. simpl.
    pose proof (proj1 (Forall_forall _ _) H es Hes) as [Hlen Hsh].
    pose proof (encs_bytes_17 es Hsh).
    assert (zlen (encs_bytes es) <= zlen (concat (encs_bytes <$> tss)))
      by (apply elem_zlen_concat, list_elem_of_fmap_2, Hes). lia. }
  split.
  - apply entry_lens_id. eapply Forall_impl; [exact Hb|]. simpl. lia.
  - apply Forall_fmap. eapply Forall_impl; [exact Hb|]. simpl. lia.
Qed.

(** ** What the library reads *)

(** The bind [b] leads, in the memory [m], to the record [e]: its type and row count, one null flag
    per row, one length per row if it has lengths, and its data ([NULL] when there is none). *)
Definition bind_reads (m : mem) (b : TAOS_STMT2_BIND) (e : enc) : Prop :=
  buffer_type b = e_type e /\ num b = e_num e /\
  load m (is_null b) (e_num e) = Ret (e_nulls e) /\
  match e_lens e with
  | None => b_length b = None
  | Some lens => exists p, b_length b = Some p /\
      forall i len, lens !! i = Some len -> load_s 4 m (p + 4 * Z.of_nat i) = Ret (i32 len)
  end /\
  match buffer b with
  | None => e_buf e = []
  | Some p => load m p (zlen (e_buf e)) = Ret (e_buf e)
  end.

(** The binds of a section: entry [k] of the pointer array, from [base] on, leads to the binds of
    table [k]. *)
Definition section_reads (v : TAOS_STMT2_BINDV) (base : option Z) (need : bool) (tss : list (list enc)) : Prop :=
  match base with
  | None => need = false
  | Some b => need = true /\ 0 <= b /\ forall k es, tss !! k = Some es ->
      exists q, v_ptrs v !! (Z.to_nat b + k)%nat = Some q /\ 0 <= q /\
      forall j e, es !! j = Some e ->
        exists bind, v_structs v !! (Z.to_nat q + j)%nat = Some bind /\ bind_reads (v_data v) bind e
  end.

Definition bindv_reads (v : TAOS_STMT2_BINDV) (nn nt nc : bool) (ts : list table) : Prop :=
  v_count v = zlen ts /\
  match v_tbnames v with
  | None => nn = false
  | Some ps => nn = true /\ forall k t, ts !! k = Some t ->
      exists p, ps !! k = Some p /\ load (v_data v) p (zlen (t_name t)) = Ret (t_name t)
  end /\
  section_reads v (v_tags v) nt (t_tags <$> ts) /\ section_reads v (v_bind_cols v) nc (t_cols <$> ts).

Lemma bind_at_reads pre e post :
  enc_fits e -> bind_reads (pre ++ enc_bytes e ++ post) (bind_at (zlen pre) e) e.
Proof.
  intros (_ & Hwf & Hsz). unfold bind_reads, bind_at. cbn [buffer_type num is_null b_length buffer].
  unfold enc_bytes, enc_header. rewrite <- !app_assoc.
  set (A := le_bytes 4 (u32 (enc_size e)) ++ le_bytes 4 (u32 (e_type e)) ++ le_bytes 4 (u32 (e_num e))).
  assert (HA : zlen A = 12) by (unfold A; by rewrite !zlen_app, !zlen_le_bytes).
  destruct (enc_sizes e Hwf) as (Hn & Hb & Hl & Hl4).
  split; [done|]. split; [done|]. split; [|split].
  - apply (load_at _ (pre ++ A) _ ([has_lens (e_lens e)] ++ lens_bytes (e_lens e) ++
      le_bytes 4 (u32 (zlen (e_buf e))) ++ e_buf e ++ post)); [unfold A; list_assoc| |done].
    rewrite zlen_app. lia.
  - unfold enc_wf in Hwf. destruct (e_lens e) as [lens|]; [|done]. eexists; split; [done|].
    intros i len Hi. cbn [lens_bytes has_lens]. rewrite <- (take_drop_middle lens i len Hi) at 1.
    unfold words. rewrite fmap_app, concat_app. cbn [fmap list_fmap concat].
    apply (load_s_at 4 _ (pre ++ A ++ e_nulls e ++ [1] ++ words 4 (take i lens)) (words 4 (drop (S i) lens) ++
      le_bytes 4 (u32 (zlen (e_buf e))) ++ e_buf e ++ post)); [unfold A, words; list_assoc| |lia].
    rewrite !zlen_app, zlen_words, HA. change (zlen [_]) with 1. unfold e_num, zlen. rewrite length_take.
    apply lookup_lt_Some in Hi. lia.
  - destruct (zlen (e_buf e) >? 0) eqn:Eb.
    + set (L := le_bytes 4 (u32 (zlen (e_buf e)))).
      apply (load_at _ (pre ++ A ++ e_nulls e ++ [has_lens (e_lens e)] ++ lens_bytes (e_lens e) ++ L)
        _ post); [unfold A; list_assoc| |done]. unfold L.
      rewrite !zlen_app, zlen_le_bytes, HA. change (zlen [_]) with 1. unfold e_num. lia.
    + destruct (e_buf e); [done|]. rewrite zlen_cons in *. pose proof (zlen_nonneg l). lia.
Qed.

Lemma binds_at_lookup p es j e :
  es !! j = Some e -> binds_at p es !! j = Some (bind_at (p + zlen (encs_bytes (take j es))) e).
Proof.
  revert p j. induction es as [|x es IH]; intros p [|j]; cbn [lookup list_lookup binds_at take]; try done.
  - intros [= ->]. by rewrite Z.add_0_r.
  - intros Hj. rewrite (IH _ j Hj), encs_bytes_cons, zlen_app, zlen_enc_bytes. by rewrite Z.add_assoc.
Qed.

Lemma tables_at_lookup fc p tss k es j e :
  Forall (fun es => zlen es = fc) tss -> tss !! k = Some es -> es !! j = Some e ->
  tables_at p tss !! (Z.to_nat (Z.of_nat k * fc) + j)%nat =
  Some (bind_at (p + zlen (concat (encs_bytes <$> take k tss)) + zlen (encs_bytes (take j es))) e).
Proof.
  intros Hfc. revert p k. induction Hfc as [|x tss Hx _ IH]; intros p [|k]; try done;
    cbn [lookup list_lookup tables_at take fmap list_fmap concat].
  - intros [= ->] Hj. change (zlen []) with 0. rewrite Z.add_0_r, Z.mul_0_l.
    rewrite lookup_app_l; [by apply binds_at_lookup|]. rewrite length_binds_at. by eapply lookup_lt_Some.
  - intros Hk Hj. rewrite lookup_app_r; rewrite length_binds_at.
    2:{ unfold zlen in Hx. lia. }
    replace (Z.to_nat (Z.of_nat (S k) * fc) + j - length x)%nat with (Z.to_nat (Z.of_nat k * fc) + j)%nat
      by (unfold zlen in Hx; lia).
    rewrite (IH _ k Hk Hj), zlen_app. do 2 f_equal. lia.
Qed.

Lemma ptrs_from_lookup b fc n k : (k < n)%nat -> ptrs_from b fc n !! k = Some (b + Z.of_nat k * fc).
Proof.
  revert b k. induction n as [|n IH]; intros b [|k] Hk; try lia; cbn [ptrs_from lookup list_lookup].
  - f_equal. lia.
  - rewrite IH by lia. f_equal. lia.
Qed.

Lemma entry_ptrs_lookup p lens k : (k < length lens)%nat ->
  entry_ptrs p lens !! k = Some (p + zsum (take k lens)).
Proof.
  revert p k. induction lens as [|x lens IH]; intros p [|k] Hk; cbn [length] in Hk; try lia;
    cbn [entry_ptrs lookup list_lookup take zsum].
  - f_equal. lia.
  - rewrite IH by lia. f_equal. lia.
Qed.

(** A section of records in memory, decoded as [tables_at] and [ptrs_from], reads back. *)
Lemma section_reads_ok v fc tss pre lens post (A B : list TAOS_STMT2_BIND) (P Q : list Z) :
  Forall (Forall enc_fits) tss -> Forall (fun es => zlen es = fc) tss -> 0 <= fc ->
  v_data v = pre ++ words 4 lens ++ concat (encs_bytes <$> tss) ++ post ->
  v_structs v = A ++ tables_at (zlen pre + zlen (words 4 lens)) tss ++ B ->
  v_ptrs v = P ++ ptrs_from (zlen A) fc (length tss) ++ Q ->
  section_reads v (Some (zlen P)) true tss.
Proof.
  intros Hfit Hfc Hfc0 Hd Hst Hp. split; [done|]. split; [apply zlen_nonneg|]. intros k es Hk.
  pose proof (lookup_lt_Some _ _ _ Hk) as Hlt.
  exists (zlen A + Z.of_nat k * fc). split; [|split].
  - rewrite Hp. unfold zlen at 1. rewrite Nat2Z.id.
    rewrite lookup_app_r by lia. replace (length P + k - length P)%nat with k by lia.
    rewrite lookup_app_l by (pose proof (zlen_ptrs_from (zlen A) fc (length tss)); unfold zlen in *; lia).
    by apply ptrs_from_lookup.
  - pose proof (zlen_nonneg A). nia.
  - intros j e Hj. pose proof (tables_at_lookup fc (zlen pre + zlen (words 4 lens)) tss k es j e Hfc Hk Hj) as Hl.
    eexists. split.
    + rewrite Hst. rewrite lookup_app_r by (unfold zlen; lia).
      replace (Z.to_nat (zlen A + Z.of_nat k * fc) + j - length A)%nat
        with (Z.to_nat (Z.of_nat k * fc) + j)%nat by (unfold zlen; nia).
      rewrite lookup_app_l by (by eapply lookup_lt_Some). exact Hl.
    + rewrite Hd. assert (Hf : enc_fits e).
      { eapply Forall_lookup_1 in Hfit; [|exact Hk]. by eapply Forall_lookup_1 in Hfit. }
      rewrite (concat_lookup_split (encs_bytes <$> tss) k (encs_bytes es)) by (by rewrite list_lookup_fmap, Hk).
      rewrite <- fmap_take.
      assert (Hes : encs_bytes es = encs_bytes (take j es) ++ enc_bytes e ++ concat (drop (S j) (enc_bytes <$> es))).
      { unfold encs_bytes. rewrite fmap_take. apply concat_lookup_split. by rewrite list_lookup_fmap, Hj. }
      rewrite Hes.
      pose proof (bind_at_reads (pre ++ words 4 lens ++ concat (encs_bytes <$> take k tss) ++ encs_bytes (take j es))
        e (concat (drop (S j) (enc_bytes <$> es)) ++ concat (drop (S k) (encs_bytes <$> tss)) ++ post) Hf) as Hr.
      rewrite !zlen_app, !Z.add_assoc in Hr. repeat rewrite <- app_assoc in Hr. repeat rewrite <- app_assoc. exact Hr.
Qed.

Section Decode.
Context (malloc_names malloc_struct malloc_ptr : Z -> bool).
Context (junk_bind : TAOS_STMT2_BIND) (junk_ptr : Z).
Hypothesis malloc_names_ok : forall n, malloc_names n = true.
Hypothesis malloc_struct_ok : forall n, malloc_struct n = true.
Hypothesis malloc_ptr_ok : forall n, malloc_ptr n = true.

Context (nn nt nc : bool) (tagCount colCount : Z) (ts : list table).
#[local] Abbreviation names := (t_name <$> ts).
#[local] Abbreviation tagss := (t_tags <$> ts).
#[local] Abbreviation colss := (t_cols <$> ts).
#[local] Abbreviation count := (zlen ts).
#[local] Abbreviation data := (layout nn nt nc count tagCount colCount ts).

Hypothesis Hnames : nn = true -> Forall (fun n => 0 < zlen n < 2 ^ 16) names.
Hypothesis Htags : if nt then 0 < tagCount /\ recs_ok tagCount tagss else tagCount = 0.
Hypothesis Hcols : if nc then 0 < colCount /\ recs_ok colCount colss else colCount = 0.
Hypothesis Hne : ts <> [].
Hypothesis Hsome : nn || nt || nc = true.
Hypothesis Hsize : zlen data < 2 ^ 31.

(** The sections of the buffer and where they start. *)
Definition S1 : list Z :=
  if nn then words 2 (zlen <$> names) ++ concat names else [].
Definition S2 : list Z :=
  if nt then words 4 (zlen <$> (encs_bytes <$> tagss)) ++ concat (encs_bytes <$> tagss) else [].
Definition S3 : list Z :=
  if nc then words 4 (zlen <$> (encs_bytes <$> colss)) ++ concat (encs_bytes <$> colss) else [].
Definition tagOff : Z := 28 + zlen S1.
Definition colOff : Z := tagOff + zlen S2.
Definition total : Z := colOff + zlen S3.
Definition hdr : list Z :=
  [total; count; tagCount; colCount; if nn then 28 else 0; if nt then tagOff else 0; if nc then colOff else 0].

Lemma layout_raw :
  exists h1 h2 h3, data = words 4 [u32 h1; u32 count; u32 tagCount; u32 colCount; if nn then 28 else 0;
      if nt then u32 h2 else 0; if nc then u32 h3 else 0] ++
    section_bytes 2 (entry_lens nn 16 names) (entry_bytes nn names) ++
    section_bytes 4 (entry_lens nt 32 (encs_bytes <$> tagss)) (entry_bytes nt (encs_bytes <$> tagss)) ++
    section_bytes 4 (entry_lens nc 32 (encs_bytes <$> colss)) (entry_bytes nc (encs_bytes <$> colss)) /\
    h2 = 28 + zlen (section_bytes 2 (entry_lens nn 16 names) (entry_bytes nn names)) /\
    h3 = h2 + zlen (section_bytes 4 (entry_lens nt 32 (encs_bytes <$> tagss)) (entry_bytes nt (encs_bytes <$> tagss))) /\
    h1 = h3 + zlen (section_bytes 4 (entry_lens nc 32 (encs_bytes <$> colss)) (entry_bytes nc (encs_bytes <$> colss))).
Proof.
  rewrite <- !list_fmap_compose. unfold layout, buffer_of, buffer_header. cbn [s_names s_name_lens s_tags
    s_tag_lens s_cols s_col_lens sections_of]. eauto 10.
Qed.

Lemma section_names : section_bytes 2 (entry_lens nn 16 names) (entry_bytes nn names) = S1.
Proof.
  unfold section_bytes, S1. destruct nn; [|done]. rewrite entry_lens_id; [done|].
  eapply Forall_impl; [by apply Hnames|]. simpl. lia.
Qed.

Lemma section_recs (need : bool) fc tss :
  (if need then 0 < fc /\ recs_ok fc tss else fc = 0) ->
  zlen (entry_bytes need (encs_bytes <$> tss)) < 2 ^ 31 ->
  section_bytes 4 (entry_lens need 32 (encs_bytes <$> tss)) (entry_bytes need (encs_bytes <$> tss)) =
  if need then words 4 (zlen <$> (encs_bytes <$> tss)) ++ concat (encs_bytes <$> tss) else [].
Proof.
  unfold section_bytes. destruct need; [|done]. intros [Hfc Hok] Hsz.
  by rewrite (proj1 (recs_lens fc tss Hfc Hok Hsz)).
Qed.

(** Every count is small in a buffer below 2 GiB. *)
Lemma recs_count (need : bool) fc (f : table -> list enc) :
  (if need then 0 < fc /\ recs_ok fc (f <$> ts) else fc = 0) ->
  0 <= fc /\
  17 * (count * fc) <= zlen (if need then words 4 (zlen <$> (encs_bytes <$> (f <$> ts))) ++
                                concat (encs_bytes <$> (f <$> ts)) else []).
Proof.
  destruct need; [|intros ->; change (zlen []) with 0; lia]. intros [Hfc Hok]. split; [lia|].
  apply recs_size in Hok. rewrite zlen_fmap in Hok. rewrite zlen_app.
  pose proof (zlen_nonneg (words 4 (zlen <$> (encs_bytes <$> (f <$> ts))))). lia.
Qed.

Lemma count_pos : 0 < count.
Proof. destruct ts; [done|]. rewrite zlen_cons. pose proof (zlen_nonneg l). lia. Qed.

Lemma counts_small :
  total < 2 ^ 31 ->
  (0 < count < 2 ^ 31) /\ 0 <= tagCount < 2 ^ 31 /\ 0 <= colCount < 2 ^ 31.
Proof.
  intros Ht. unfold total, colOff, tagOff in Ht. pose proof count_pos as Hp.
  pose proof (zlen_nonneg S1). pose proof (zlen_nonneg S2). pose proof (zlen_nonneg S3).
  destruct (recs_count nt tagCount t_tags Htags) as [Ha1 Ha2]. fold S2 in Ha2.
  destruct (recs_count nc colCount t_cols Hcols) as [Ha3 Ha4]. fold S3 in Ha4.
  assert (Hn : nn = true -> 2 * count <= zlen S1).
  { intros E. unfold S1. rewrite E, zlen_app, zlen_words, !zlen_fmap.
    pose proof (zlen_nonneg (concat names)). lia. }
  assert (Hnt : nt = true -> 0 < tagCount) by (intros E; rewrite E in Htags; apply Htags).
  assert (Hnc : nc = true -> 0 < colCount) by (intros E; rewrite E in Hcols; apply Hcols).
  split; [|split; nia]. split; [done|].
  destruct nn; [lia|]. destruct nt; [nia|]. destruct nc; [nia|]. discriminate.
Qed.

Lemma layout_eq : data = words 4 hdr ++ S1 ++ S2 ++ S3 /\ zlen data = total.
Proof.
  destruct layout_raw as (h1 & h2 & h3 & E & E2 & E3 & E1).
  assert (Hlen : zlen data = h1).
  { rewrite E, !zlen_app, zlen_words. change (zlen [_;_;_;_;_;_;_]) with 7. lia. }
  pose proof Hsize as Hsz. rewrite Hlen in Hsz. rewrite section_names in *.
  pose proof (zlen_section 4 (entry_lens nt 32 (encs_bytes <$> tagss)) (entry_bytes nt (encs_bytes <$> tagss))) as Z2.
  pose proof (zlen_section 4 (entry_lens nc 32 (encs_bytes <$> colss)) (entry_bytes nc (encs_bytes <$> colss))) as Z3.
  pose proof (zlen_nonneg S1).
  pose proof (zlen_nonneg (entry_lens nt 32 (encs_bytes <$> tagss))).
  pose proof (zlen_nonneg (entry_lens nc 32 (encs_bytes <$> colss))).
  pose proof (zlen_nonneg (entry_bytes nt (encs_bytes <$> tagss))).
  pose proof (zlen_nonneg (entry_bytes nc (encs_bytes <$> colss))).
  assert (B2 := section_recs nt tagCount tagss Htags ltac:(lia)). fold S2 in B2.
  assert (B3 := section_recs nc colCount colss Hcols ltac:(lia)). fold S3 in B3.
  rewrite B2 in E, E3. rewrite B3 in E, E1.
  unfold hdr, total, colOff, tagOff. rewrite <- E2, <- E3, <- E1. split; [|done].
  pose proof (zlen_nonneg S2). pose proof (zlen_nonneg S3).
  destruct counts_small as (Hc & Htc & Hcc); [unfold total, colOff, tagOff; lia|].
  rewrite E. rewrite (wrap_u_id 32 h1), (wrap_u_id 32 count), (wrap_u_id 32 tagCount), (wrap_u_id 32 colCount),
    (wrap_u_id 32 h2), (wrap_u_id 32 h3); unfold in_u; try done; lia.
Qed.

Lemma total_small : 28 <= tagOff <= colOff /\ colOff <= total < 2 ^ 31.
Proof.
  pose proof Hsize as H. rewrite (proj2 layout_eq) in H. unfold total, colOff, tagOff in *.
  pose proof (zlen_nonneg S1). pose proof (zlen_nonneg S2). pose proof (zlen_nonneg S3). lia.
Qed.

(** The header as the decoder reads it. *)
Lemma load_hdr (k : nat) x rest :
  hdr !! k = Some x -> load_u 4 (words 4 hdr ++ rest) (4 * Z.of_nat k) = Ret x.
Proof.
  intros Hk. apply load_u_header; [done|]. destruct total_small as [H1 H2].
  destruct counts_small as (Hc & Htc & Hcc); [lia|]. unfold in_u.
  do 7 (destruct k as [|k]; [injection Hk as <-; try case_if E; lia|]). done.
Qed.

(** The struct the library is given. *)
Definition bindv_of : TAOS_STMT2_BINDV :=
  mkBindv count
    (if nn then Some (entry_ptrs (28 + 2 * count) (zlen <$> names)) else None)
    (if nt then Some 0 else None)
    (if nc then Some (if nt then count else 0) else None)
    ((if nt then ptrs_from 0 tagCount (length ts) else []) ++
     (if nc then ptrs_from (if nt then count * tagCount else 0) colCount (length ts) else []))
    ((if nt then tables_at (tagOff + 4 * count) tagss else []) ++
     (if nc then tables_at (colOff + 4 * count) colss else []))
    data.

Lemma check_names :
  (if (if nn then 28 else 0) >? 0
   then check_section data total count (if nn then 28 else 0) 2 ErrNameLengths ErrNameZero ErrNames
   else Ret tt) = Ret tt.
Proof.
  destruct layout_eq as [-> _]. destruct total_small as [H1 H2]. pose proof (zlen_nonneg S2) as Z2.
  pose proof (zlen_nonneg S3) as Z3.
  unfold total, colOff, tagOff, S1 in *. destruct nn; [|done]. cbn [Z.gtb Z.compare].
  rewrite <- (zlen_fmap t_name ts), <- (zlen_fmap zlen), <- !(app_assoc (words 2 _)).
  apply check_section_ok; [by rewrite zlen_words| |lia|].
  - apply Forall_fmap. by apply Hnames.
  - rewrite zlen_app, zlen_concat in *. lia.
Qed.

(** The bytes of a section of records. *)
Definition recs_bytes (need : bool) (tss : list (list enc)) : list Z :=
  if need then words 4 (zlen <$> (encs_bytes <$> tss)) ++ concat (encs_bytes <$> tss) else [].

Lemma check_recs (need : bool) fc tss pre post off tot e0 e1 e2 e3 :
  (if need then 0 < fc /\ recs_ok fc tss else fc = 0) ->
  off = zlen pre -> 0 < off -> off + zlen (recs_bytes need tss) <= tot -> 0 <= tot < 2 ^ 31 ->
  (if (if need then off else 0) >? 0 then
     if fc =? 0 then Err e0
     else check_section (pre ++ recs_bytes need tss ++ post) tot (zlen tss)
            (if need then off else 0) 4 e1 e2 e3
   else Ret tt) = Ret tt.
Proof.
  unfold recs_bytes. destruct need; [|done]. intros [Hfc Hok] -> Hoff Hend Htot. rewrite zlen_app in Hend.
  pose proof (zlen_nonneg (words 4 (zlen <$> (encs_bytes <$> tss)))).
  destruct (recs_lens fc tss Hfc Hok) as [_ Hl]; [lia|].
  case_if E1; [|done]. rewrite (proj2 (Z.eqb_neq fc 0)) by lia.
  rewrite <- !(app_assoc (words 4 _)).
  rewrite <- (zlen_fmap encs_bytes tss), <- (zlen_fmap zlen (encs_bytes <$> tss)).
  apply check_section_ok; [done|done|lia|]. rewrite zlen_concat in Hend. lia.
Qed.

(** Filling the arrays from a section of records. *)
Lemma generate_recs fc tss pre post off (A B : list TAOS_STMT2_BIND) (P Q : list Z) sb pb n m :
  0 < fc -> recs_ok fc tss -> off = zlen pre ->
  zlen (recs_bytes true tss) < 2 ^ 31 ->
  Z.of_nat n = zlen tss * fc -> m = length tss -> sb = zlen A -> pb = zlen P ->
  go_generate_stmt2_binds (pre ++ recs_bytes true tss ++ post) (zlen tss) fc off sb pb
    (A ++ replicate n junk_bind ++ B) (P ++ replicate m junk_ptr ++ Q) =
  Ret (A ++ tables_at (off + 4 * zlen tss) tss ++ B, P ++ ptrs_from sb fc m ++ Q).
Proof.
  intros Hfc Hok -> Hsz Hn -> -> ->. unfold recs_bytes in *. rewrite zlen_app in Hsz.
  pose proof (zlen_nonneg (words 4 (zlen <$> (encs_bytes <$> tss)))).
  pose proof (recs_size fc tss Hok). rewrite <- !(app_assoc (words 4 _)).
  rewrite go_generate_ok; try done; rewrite ?zlen_fmap, ?zlen_replicate; try done; try lia.
  - by rewrite zlen_words, !zlen_fmap.
  - apply (recs_fit fc); [done|lia].
  - eapply Forall_impl; [exact Hok|]. by intros es [? _].
Qed.

Lemma fill_arrays :
  zlen (words 4 hdr ++ S1) = tagOff -> zlen ((words 4 hdr ++ S1) ++ S2) = colOff ->
  zlen S1 + zlen S2 + zlen S3 < 2 ^ 31 ->
  17 * (count * tagCount) <= zlen S2 -> 17 * (count * colCount) <= zlen S3 ->
  let sc := u32 ((if negb nt then 0 else count * tagCount) + (if negb nc then 0 else count * colCount)) in
  let pc := u32 ((if negb nt then 0 else count) + (if negb nc then 0 else count)) in
  (if sc =? 0 then Ret (mkBindv count (v_tbnames bindv_of) None None [] [] data)
   else
    '(tags, struct_index, ptr_index, bind_struct, bind_ptr) ← (if nt then
        '(bind_struct, bind_ptr) ← go_generate_stmt2_binds data count tagCount (if nt then tagOff else 0) 0 0
           (replicate (Z.to_nat sc) junk_bind) (replicate (Z.to_nat pc) junk_ptr);
        Ret (Some 0, count * tagCount, count, bind_struct, bind_ptr)
      else Ret (None, 0, 0, replicate (Z.to_nat sc) junk_bind, replicate (Z.to_nat pc) junk_ptr));
    '(cols, bind_struct, bind_ptr) ← (if nc then
        '(bind_struct, bind_ptr) ← go_generate_stmt2_binds data count colCount (if nc then colOff else 0)
           struct_index ptr_index bind_struct bind_ptr;
        Ret (Some ptr_index, bind_struct, bind_ptr)
      else Ret (None, bind_struct, bind_ptr));
    Ret (mkBindv count (v_tbnames bindv_of) tags cols bind_ptr bind_struct data)) = Ret bindv_of.
Proof.
  intros Z1 Z2 Hsum G2 G4. cbv zeta. pose proof count_pos as Hc.
  pose proof (zlen_nonneg S1). pose proof (zlen_nonneg S2). pose proof (zlen_nonneg S3).
  pose proof (proj1 layout_eq) as Heq. pose proof (zlen_nonneg ts) as Hts.
  assert (Gt : nt = true -> forall n m B Q, Z.of_nat n = count * tagCount -> m = length ts ->
    go_generate_stmt2_binds data count tagCount tagOff 0 0 (replicate n junk_bind ++ B) (replicate m junk_ptr ++ Q)
    = Ret (tables_at (tagOff + 4 * count) tagss ++ B, ptrs_from 0 tagCount (length ts) ++ Q)).
  { intros Ent n m B Q Hn ->. rewrite Heq, (app_assoc (words 4 hdr) S1).
    assert (ES2 : S2 = recs_bytes true tagss) by (unfold S2, recs_bytes; by rewrite Ent).
    rewrite ES2 in *. rewrite Ent in Htags.
    pose proof (generate_recs tagCount tagss (words 4 hdr ++ S1) S3 tagOff [] B [] Q 0 0 n (length ts)) as Hg.
    rewrite !app_nil_l, zlen_fmap in Hg. apply Hg; try done; try lia; [apply Htags|].
    by rewrite length_fmap. }
  assert (Gc : nc = true -> forall n m A P sb pb, Z.of_nat n = count * colCount -> m = length ts ->
    sb = zlen A -> pb = zlen P ->
    go_generate_stmt2_binds data count colCount colOff sb pb (A ++ replicate n junk_bind) (P ++ replicate m junk_ptr)
    = Ret (A ++ tables_at (colOff + 4 * count) colss, P ++ ptrs_from sb colCount (length ts))).
  { intros Enc n m A P sb pb Hn -> Hsb Hpb.
    rewrite Heq, (app_assoc (words 4 hdr) S1), (app_assoc (words 4 hdr ++ S1) S2).
    assert (ES3 : S3 = recs_bytes true colss) by (unfold S3, recs_bytes; by rewrite Enc).
    rewrite ES3 in *. rewrite Enc in Hcols.
    pose proof (generate_recs colCount colss ((words 4 hdr ++ S1) ++ S2) [] colOff A [] P [] sb pb n (length ts)) as Hg.
    rewrite !app_nil_r, zlen_fmap in Hg. apply Hg; try done; try lia; [apply Hcols|].
    by rewrite length_fmap. }
  clear Heq Z1 Z2. unfold bindv_of. cbn [v_tbnames].
  assert (Hpt : nt = true -> 0 < count * tagCount) by (intros E; rewrite E in Htags; nia).
  assert (Hpc : nc = true -> 0 < count * colCount) by (intros E; rewrite E in Hcols; nia).
  destruct nt eqn:Ent, nc eqn:Enc; cbn [negb].
  - rewrite (wrap_u_id 32 (count * tagCount + _)) by (unfold in_u; nia).
    rewrite (wrap_u_id 32 (count + _)) by (unfold in_u; nia).
    rewrite (proj2 (Z.eqb_neq (_ + _) 0)) by lia.
    replace (Z.to_nat (count * tagCount + count * colCount))
      with (Z.to_nat (count * tagCount) + Z.to_nat (count * colCount))%nat by lia.
    replace (Z.to_nat (count + count)) with (length ts + length ts)%nat by (unfold zlen; lia).
    rewrite !replicate_add, Gt by (done || lia). rewrite !go_bind_ret, Gc; try done; try lia.
    + symmetry. rewrite (zlen_tables_at tagCount); [by rewrite zlen_fmap|].
      eapply Forall_impl; [apply Htags|]. by intros es [? _].
    + symmetry. apply zlen_ptrs_from.
  - rewrite !Z.add_0_r. rewrite (wrap_u_id 32 (count * tagCount)) by (unfold in_u; nia).
    rewrite (wrap_u_id 32 count) by (unfold in_u; nia).
    rewrite (proj2 (Z.eqb_neq (_ * _) 0)) by lia.
    rewrite <- (app_nil_r (replicate _ junk_bind)), <- (app_nil_r (replicate _ junk_ptr)).
    rewrite Gt by (unfold zlen in *; lia). done.
  - rewrite !Z.add_0_l. rewrite (wrap_u_id 32 (count * colCount)) by (unfold in_u; nia).
    rewrite (wrap_u_id 32 count) by (unfold in_u; nia).
    rewrite (proj2 (Z.eqb_neq (_ * _) 0)) by lia.
    rewrite go_bind_ret. specialize (Gc eq_refl (Z.to_nat (count * colCount)) (Z.to_nat count) [] [] 0 0).
    rewrite !app_nil_l in Gc. rewrite Gc by (unfold zlen in *; lia || done). done.
  - done.
Qed.

Lemma make_bindv_layout :
  make_bindv malloc_names malloc_struct malloc_ptr junk_bind junk_ptr data = Ret bindv_of.
Proof.
  destruct layout_eq as [Heq _]. destruct total_small as [H1 H2].
  destruct counts_small as (Hc & Htc & Hcc); [lia|].
  unfold make_bindv. pose proof check_names as Hn. rewrite Heq in Hn |- *.
  change 0 with (4 * Z.of_nat 0) at 1. rewrite (load_hdr 0 total), go_bind_ret by done.
  change 4 with (4 * Z.of_nat 1) at 2. rewrite (load_hdr 1 count), go_bind_ret by done.
  change 8 with (4 * Z.of_nat 2) at 1. rewrite (load_hdr 2 tagCount), go_bind_ret by done.
  change 12 with (4 * Z.of_nat 3) at 1. rewrite (load_hdr 3 colCount), go_bind_ret by done.
  change 16 with (4 * Z.of_nat 4) at 1. rewrite (load_hdr 4 (if nn then 28 else 0)), go_bind_ret by done.
  change 20 with (4 * Z.of_nat 5) at 1. rewrite (load_hdr 5 (if nt then tagOff else 0)), go_bind_ret by done.
  change 24 with (4 * Z.of_nat 6) at 1. rewrite (load_hdr 6 (if nc then colOff else 0)), go_bind_ret by done.
  rewrite Hn, go_bind_ret.
  assert (Z1 : zlen (words 4 hdr ++ S1) = tagOff) by (rewrite zlen_app, zlen_words; done).
  assert (Z2 : zlen ((words 4 hdr ++ S1) ++ S2) = colOff) by (rewrite zlen_app, Z1; done).
  assert (Ht : forall e0 e1 e2 e3, (if (if nt then tagOff else 0) >? 0 then if tagCount =? 0 then Err e0
      else check_section (words 4 hdr ++ S1 ++ S2 ++ S3) total count (if nt then tagOff else 0) 4 e1 e2 e3
      else Ret tt) = Ret tt).
  { intros. rewrite (app_assoc (words 4 hdr) S1), <- (zlen_fmap t_tags ts).
    apply (check_recs nt tagCount tagss); [done|done|lia| |lia]. change (recs_bytes nt tagss) with S2.
    unfold total, colOff in *. lia. }
  assert (Hcl : forall e0 e1 e2 e3, (if (if nc then colOff else 0) >? 0 then if colCount =? 0 then Err e0
      else check_section (words 4 hdr ++ S1 ++ S2 ++ S3) total count (if nc then colOff else 0) 4 e1 e2 e3
      else Ret tt) = Ret tt).
  { intros. rewrite (app_assoc (words 4 hdr) S1), (app_assoc (words 4 hdr ++ S1) S2),
      <- (zlen_fmap t_cols ts), <- (app_nil_r S3).
    apply (check_recs nc colCount colss); [done|done|lia| |lia]. change (recs_bytes nc colss) with S3.
    unfold total in *. lia. }
  rewrite Ht, go_bind_ret, Hcl, go_bind_ret. clear Ht Hcl Hn.
  assert (Htb : (if (if nn then 28 else 0) >? 0 then
      if malloc_names count then names0 ← table_names (words 4 hdr ++ S1 ++ S2 ++ S3) count
           (if nn then 28 else 0); Ret (Some names0) else Err ErrMallocName
      else Ret None) = Ret (v_tbnames bindv_of)).
  { unfold bindv_of, S1. cbn [v_tbnames]. destruct nn; [|done]. cbn [Z.gtb Z.compare].
    rewrite malloc_names_ok. rewrite <- !(app_assoc (words 2 _)).
    rewrite <- (zlen_fmap t_name ts), <- (zlen_fmap zlen (t_name <$> ts)).
    rewrite table_names_ok; [|by rewrite zlen_words|by apply Forall_fmap, Hnames].
    by rewrite zlen_words. }
  rewrite Htb, go_bind_ret. clear Htb.
  change (4 * Z.of_nat 0) with 0.
  assert (F1 : ((if nt then tagOff else 0) =? 0) = negb nt) by (destruct nt; [apply Z.eqb_neq; lia|done]).
  assert (F2 : ((if nc then colOff else 0) =? 0) = negb nc) by (destruct nc; [apply Z.eqb_neq; lia|done]).
  assert (F3 : ((if nt then tagOff else 0) >? 0) = nt)
    by (destruct nt; [destruct (Z.gtb_spec tagOff 0); [done|lia]|done]).
  assert (F4 : ((if nc then colOff else 0) >? 0) = nc)
    by (destruct nc; [destruct (Z.gtb_spec colOff 0); [done|lia]|done]).
  rewrite F1, F2, F3, F4. clear F1 F2 F3 F4.
  destruct (recs_count nt tagCount t_tags Htags) as [_ G2]. fold S2 in G2.
  destruct (recs_count nc colCount t_cols Hcols) as [_ G4]. fold S3 in G4.
  pose proof (zlen_nonneg S1). pose proof (zlen_nonneg S2). pose proof (zlen_nonneg S3).
  assert (Hsum : zlen S1 + zlen S2 + zlen S3 < 2 ^ 31) by (unfold total, colOff, tagOff in *; lia).
  rewrite (wrap_u_id 32 (count * tagCount)), (wrap_u_id 32 (count * colCount)) by (unfold in_u; nia).
  rewrite (wrap_s_id 32 count) by (lia || range_lia).
  rewrite malloc_struct_ok, malloc_ptr_ok. cbn [negb].
  rewrite <- Heq. exact (fill_arrays Z1 Z2 Hsum G2 G4).
Qed.

Lemma names_read k t :
  nn = true -> ts !! k = Some t ->
  exists p, entry_ptrs (28 + 2 * count) (zlen <$> names) !! k = Some p /\
            load data p (zlen (t_name t)) = Ret (t_name t).
Proof.
  intros Enn Hk. pose proof (lookup_lt_Some _ _ _ Hk) as Hlt.
  exists (28 + 2 * count + zsum (take k (zlen <$> names))).
  split; [apply entry_ptrs_lookup; by rewrite !length_fmap|].
  rewrite (proj1 layout_eq). unfold S1. rewrite Enn.
  rewrite (concat_lookup_split names k (t_name t)) by (by rewrite list_lookup_fmap, Hk).
  apply (load_at _ (words 4 hdr ++ words 2 (zlen <$> names) ++ concat (take k names)) _
    (concat (drop (S k) names) ++ S2 ++ S3)); [list_assoc| |done].
  rewrite !zlen_app, !zlen_words, zlen_concat, fmap_take, !zlen_fmap. change (zlen hdr) with 7. lia.
Qed.

Lemma bindv_of_reads : bindv_reads bindv_of nn nt nc ts.
Proof.
  destruct layout_eq as [Heq Hlen]. destruct total_small as [H1 H2].
  assert (Z1 : zlen (words 4 hdr ++ S1) = tagOff) by (rewrite zlen_app, zlen_words; done).
  assert (Z2 : zlen ((words 4 hdr ++ S1) ++ S2) = colOff) by (rewrite zlen_app, Z1; done).
  pose proof (zlen_nonneg S1) as N1. pose proof (zlen_nonneg S2) as N2. pose proof (zlen_nonneg S3) as N3.
  assert (Hw : forall (f : table -> list enc), zlen (words 4 (zlen <$> (encs_bytes <$> (f <$> ts)))) = 4 * count)
    by (intros; by rewrite zlen_words, !zlen_fmap).
  assert (Hrec : forall fc tss, 0 < fc /\ recs_ok fc tss -> zlen (recs_bytes true tss) < 2 ^ 31 ->
    Forall (Forall enc_fits) tss /\ Forall (fun es => zlen es = fc) tss /\ 0 <= fc).
  { intros fc tss [Hfc Hok] Hsz. unfold recs_bytes in Hsz. rewrite zlen_app in Hsz.
    pose proof (zlen_nonneg (words 4 (zlen <$> (encs_bytes <$> tss)))).
    split; [apply (recs_fit fc); [done|lia]|split; [|lia]].
    eapply Forall_impl; [exact Hok|]. by intros es [? _]. }
  split; [done|]. split; [|split].
  - pose proof names_read as Hnr. unfold bindv_of. cbn [v_tbnames v_data].
    case_if Enn; [|done]. split; [done|]. intros k t Hk. by apply Hnr.
  - destruct (Bool.bool_dec nt true) as [Ent|Ent%not_true_is_false];
      [|rewrite Ent; unfold bindv_of; cbn [v_tags]; by rewrite Ent].
    assert (ES2 : S2 = recs_bytes true tagss) by (unfold S2, recs_bytes; by rewrite Ent).
    destruct (Hrec tagCount tagss) as (R1 & R2 & R3);
      [by rewrite Ent in Htags|rewrite <- ES2; unfold total, colOff, tagOff in *; lia|].
    pose proof (section_reads_ok bindv_of tagCount tagss (words 4 hdr ++ S1)
      (zlen <$> (encs_bytes <$> tagss)) S3 [] (if nc then tables_at (colOff + 4 * count) colss else [])
      [] (if nc then ptrs_from (count * tagCount) colCount (length ts) else []) R1 R2 R3) as Hr.
    replace (v_tags bindv_of) with (Some (zlen (@nil Z))) by (unfold bindv_of; cbn; by rewrite Ent).
    rewrite Ent. apply Hr.
    + unfold bindv_of. cbn [v_data]. rewrite Heq, ES2. unfold recs_bytes. list_assoc.
    + unfold bindv_of. cbn [v_structs]. rewrite Ent, Z1, Hw. done.
    + unfold bindv_of. cbn [v_ptrs]. rewrite Ent, length_fmap. done.
  - destruct (Bool.bool_dec nc true) as [Enc|Enc%not_true_is_false];
      [|rewrite Enc; unfold bindv_of; cbn [v_bind_cols]; by rewrite Enc].
    assert (ES3 : S3 = recs_bytes true colss) by (unfold S3, recs_bytes; by rewrite Enc).
    destruct (Hrec colCount colss) as (R1 & R2 & R3);
      [by rewrite Enc in Hcols|rewrite <- ES3; unfold total, colOff, tagOff in *; lia|].
    pose proof (section_reads_ok bindv_of colCount colss ((words 4 hdr ++ S1) ++ S2)
      (zlen <$> (encs_bytes <$> colss)) [] (if nt then tables_at (tagOff + 4 * count) tagss else []) []
      (if nt then ptrs_from 0 tagCount (length ts) else []) [] R1 R2 R3) as Hr.
    replace (v_bind_cols bindv_of) with (Some (zlen (if nt then ptrs_from 0 tagCount (length ts) else []))).
    2:{ unfold bindv_of. cbn [v_bind_cols]. rewrite Enc. f_equal. case_if E; [apply zlen_ptrs_from|done]. }
    rewrite Enc. apply Hr.
    + unfold bindv_of. cbn [v_data]. rewrite Heq, ES3. unfold recs_bytes. list_assoc.
    + unfold bindv_of. cbn [v_structs]. rewrite Enc, Z2, Hw, app_nil_r. done.
    + unfold bindv_of. cbn [v_ptrs]. rewrite Enc, length_fmap, app_nil_r. f_equal. f_equal.
      case_if E; [|done]. rewrite (zlen_tables_at tagCount), zlen_fmap; [done|].
      eapply Forall_impl; [apply Htags|]. by intros es [? _].
Qed.
End Decode.

(** ** The facts of the described tables *)

Section Refine.
Context (format_RFC3339Nano : Z -> list Z).

(** What Go's [int8] guarantees of a field type. *)
Definition field_ok (f : Stmt2AllField) : Prop := in_s 8 (f_FieldType f).

Lemma col_enc_shape f data e : field_ok f -> col_enc f data = Ret e -> enc_shape e.
Proof.
  intros Hf He. apply col_enc_facts in He as (Ht & _ & Hwf & _). split; [|done].
  rewrite Ht. unfold field_ok in Hf. range_lia.
Qed.

Lemma query_enc_shape v e : query_enc format_RFC3339Nano v = Ret e -> enc_shape e.
Proof.
  unfold query_enc. intros ([[t hl] b] & Hq & [= <-])%go_bind_Ret_inv.
  split; [|unfold enc_wf; by destruct hl]. cbn [e_type].
  destruct v; cbn [query_param] in Hq; try discriminate; injection Hq as <- _ _;
    unfold in_s; vm_compute; split; congruence.
Qed.

Lemma tag_encs_ok tags tys es :
  Forall field_ok tys -> tag_encs tags tys = Ret es -> zlen es = zlen tags /\ Forall enc_shape es.
Proof.
  revert tys es. induction tags as [|v tags IH]; intros [|ty tys] es Hf; cbn [tag_encs]; try discriminate.
  1,2: by intros [= <-].
  apply Forall_cons_1 in Hf as [Hty Hf].
  intros (e & He & (es' & Hes & [= <-])%go_bind_Ret_inv)%go_bind_Ret_inv.
  destruct (IH tys es' Hf Hes) as [Hl Hs]. rewrite !zlen_cons, Hl. split; [done|].
  constructor; [by eapply col_enc_shape|done].
Qed.

Lemma col_encs_ok ins cols tys es :
  Forall field_ok tys -> col_encs format_RFC3339Nano ins cols tys = Ret es ->
  zlen es = zlen cols /\ Forall enc_shape es.
Proof.
  revert tys es. induction cols as [|c cols IH]; intros tys es Hf; cbn [col_encs]; [by intros [= <-]|].
  intros (e & He & (es' & Hes & [= <-])%go_bind_Ret_inv)%go_bind_Ret_inv.
  assert (Hf' : Forall field_ok (tail tys)) by (destruct tys; [done|by inversion Hf]).
  destruct (IH (tail tys) es' Hf' Hes) as [Hl Hs]. rewrite !zlen_cons, Hl. split; [done|].
  apply Forall_cons_2; [|done]. destruct ins.
  - destruct tys as [|ty tys]; [done|]. apply Forall_cons_1 in Hf as [Hty _]. by eapply col_enc_shape.
  - apply go_bind_Ret_inv in He as (v & _ & He). by eapply query_enc_shape.
Qed.

(** The tables [MarshalStmt2Binary] describes satisfy what the decoder needs. *)
Definition tables_ok (nn nt nc : bool) (tagCount colCount : Z) (ts : list table) : Prop :=
  (nn = true -> Forall (fun n => 0 < zlen n < 2 ^ 16) (t_name <$> ts)) /\
  (nt = true -> recs_ok tagCount (t_tags <$> ts)) /\ (nc = true -> recs_ok colCount (t_cols <$> ts)).

Lemma table_enc_ok ins nn nt nc tagType colType d t :
  Forall field_ok tagType -> Forall field_ok colType ->
  table_enc format_RFC3339Nano ins nn nt nc tagType colType d = Ret t ->
  (nn = true -> 0 < zlen (t_name t) < 2 ^ 16) /\
  (nt = true -> zlen (t_tags t) = zlen (Tags d) /\ Forall enc_shape (t_tags t)) /\
  (nc = true -> zlen (t_cols t) = zlen (Cols d) /\ Forall enc_shape (t_cols t)).
Proof.
  intros Hft Hfc. unfold table_enc.
  intros (name & Hn & (tags & Ht & (cols & Hc & [= <-])%go_bind_Ret_inv)%go_bind_Ret_inv)%go_bind_Ret_inv.
  cbn [t_name t_tags t_cols]. split; [|split].
  - intros ->. destruct (_ >? 65534) eqn:E in Hn; [discriminate|]. injection Hn as <-.
    rewrite zlen_snoc. pose proof (zlen_nonneg (TableName d)). norm_pow. lia.
  - intros ->. by apply tag_encs_ok in Ht.
  - intros ->. by apply col_encs_ok in Hc.
Qed.

Lemma tables_enc_ok ins nn nt nc tagType colType tagCount colCount ds ts :
  Forall field_ok tagType -> Forall field_ok colType ->
  Forall (fun d => zlen (Tags d) = tagCount /\ zlen (Cols d) = colCount) ds ->
  mapM (table_enc format_RFC3339Nano ins nn nt nc tagType colType) ds = Ret ts ->
  tables_ok nn nt nc tagCount colCount ts /\ length ts = length ds.
Proof.
  intros Hft Hfc Hd. revert ts. induction Hd as [|d ds [Hdt Hdc] _ IH]; intros ts.
  - intros [= <-]. split; [|done]. split; [|split]; intros _; apply Forall_nil_2.
  - rewrite mapM_go_cons. intros (t & Ht & (ts' & Hts & [= <-])%go_bind_Ret_inv)%go_bind_Ret_inv.
    destruct (IH ts' Hts) as [(H1 & H2 & H3) Hl].
    apply table_enc_ok in Ht as (G1 & G2 & G3); [|done|done]. rewrite Hdt in G2. rewrite Hdc in G3.
    split; [|cbn [length]; by rewrite Hl].
    split; [|split]; intros E; apply Forall_cons_2.
    all: first [by apply G1 | by apply G2 | by apply G3 | by apply H1 | by apply H2 | by apply H3].
Qed.

(** The arguments [MarshalStmt2Binary] accepts. *)
Lemma check_insert_ok ds tc cc nn b :
  check_insert ds tc cc nn = Ret b ->
  Forall (fun d => zlen (Tags d) = tc /\ zlen (Cols d) = cc) ds.
Proof.
  revert nn. induction ds as [|d ds IH]; intros nn; cbn [check_insert]; [done|].
  destruct (zlen (Tags d) =? tc) eqn:E1; [|done]. destruct (zlen (Cols d) =? cc) eqn:E2; [|done].
  cbn [negb]. intros H. constructor; [|by eapply IH]. lia.
Qed.

Lemma check_query_ok ds tc cc c :
  check_query ds tc cc = Ret c ->
  tc = 0 /\ Forall (fun d => zlen (Tags d) = tc /\ zlen (Cols d) = c) ds.
Proof.
  unfold check_query. destruct (tc =? 0) eqn:E1; [|done]. destruct (cc =? 0); [|done].
  destruct (zlen ds =? 1) eqn:E2; [|done]. cbn [negb].
  intros (d & Hd & H)%go_bind_Ret_inv. destruct (is_empty _); [|done]. cbn [negb] in H.
  destruct (zlen (Tags d) =? 0) eqn:E3; [|done]. destruct (zlen (Cols d) =? 0); [done|].
  destruct (forallb _ _); [|done]. injection H as <-. split; [lia|].
  destruct ds as [|d' [|d'' ds]]; [discriminate| |rewrite !zlen_cons in E2; pose proof (zlen_nonneg ds); lia].
  apply zget_Ret in Hd as [_ [= ->]]. constructor; [lia|done].
Qed.

Lemma check_insert_names ds tc cc nn b :
  check_insert ds tc cc nn = Ret b -> b = nn || existsb (fun d => negb (is_empty (TableName d))) ds.
Proof.
  revert nn. induction ds as [|d ds IH]; intros nn; cbn [check_insert existsb].
  - intros [= ->]. by rewrite orb_false_r.
  - destruct (zlen (Tags d) =? tc); [|done]. destruct (zlen (Cols d) =? cc); [|done].
    cbn [negb]. intros H. rewrite (IH _ H). by rewrite orb_assoc.
Qed.

Lemma check_query_cols ds tc cc c : check_query ds tc cc = Ret c -> c <> 0.
Proof.
  unfold check_query. destruct (tc =? 0); [|done]. destruct (cc =? 0); [|done].
  destruct (zlen ds =? 1); [|done]. cbn [negb]. intros (d & _ & H)%go_bind_Ret_inv.
  destruct (is_empty _); [|done]. cbn [negb] in H. destruct (zlen (Tags d) =? 0); [|done].
  destruct (zlen (Cols d) =? 0) eqn:E; [done|]. destruct (forallb _ _); [|done].
  injection H as <-. by apply Z.eqb_neq.
Qed.

(** The sections a buffer has. *)
Definition has_names (isInsert : bool) (ds : list TaosStmt2BindData) : bool :=
  isInsert && existsb (fun d => negb (is_empty (TableName d))) ds.

(** A successful marshalling is the layout of well-formed tables. *)
Lemma MarshalStmt2Binary_tables bindData isInsert fields buf :
  let colType := filter (fun f => f_BindType f = TAOS_FIELD_COL) fields in
  let tagType := filter (fun f => f_BindType f = TAOS_FIELD_TAG) fields in
  Forall field_ok fields ->
  MarshalStmt2Binary format_RFC3339Nano bindData isInsert fields = Ret buf ->
  exists colCount ts,
    let nn := has_names isInsert bindData in
    let nt := negb (zlen tagType =? 0) in
    let nc := negb (colCount =? 0) in
    (colCount = if isInsert then zlen colType else colCount) /\ (isInsert = false -> colCount <> 0) /\
    mapM (table_enc format_RFC3339Nano isInsert nn nt nc tagType colType) bindData = Ret ts /\
    buf = layout nn nt nc (zlen ts) (zlen tagType) colCount ts /\
    tables_ok nn nt nc (zlen tagType) colCount ts /\ nn || nt || nc = true /\ ts <> [] /\
    0 <= colCount.
Proof.
  cbv zeta. intros Hf. rewrite MarshalStmt2Binary_spec. cbv zeta.
  destruct (zlen bindData =? 0) eqn:E0; [done|].
  set (tagType := filter _ fields). set (colType := filter _ fields).
  intros ([nn cc] & Hchk & H)%go_bind_Ret_inv.
  assert (Hft : Forall field_ok tagType) by (by apply Forall_filter_1).
  assert (Hfc : Forall field_ok colType) by (by apply Forall_filter_1).
  assert (Hc : nn = has_names isInsert bindData /\ (cc = if isInsert then zlen colType else cc) /\
    (isInsert = false -> cc <> 0) /\ 0 <= cc /\
    Forall (fun d => zlen (Tags d) = zlen tagType /\ zlen (Cols d) = cc) bindData).
  { destruct isInsert.
    - apply go_bind_Ret_inv in Hchk as (b & Hb & [= <- <-]). split; [by apply check_insert_names in Hb|].
      repeat split; [done|apply zlen_nonneg|by apply check_insert_ok in Hb].
    - apply go_bind_Ret_inv in Hchk as (c & Hb & [= <- <-]). split; [done|]. split; [done|].
      split; [intros _; by apply check_query_cols in Hb|].
      apply check_query_ok in Hb as [-> Hall]. split; [|done].
      destruct bindData as [|d ds]; [done|]. apply Forall_cons_1 in Hall as [[_ <-] _]. apply zlen_nonneg. }
  destruct Hc as (-> & Hcc & Hq & Hcc0 & Hall).
  set (nn := has_names isInsert bindData) in *. set (nt := negb (zlen tagType =? 0)) in *. set (nc := negb (cc =? 0)) in *.
  destruct (negb nn && negb nt && negb nc) eqn:Esome; [done|].
  apply go_bind_Ret_inv in H as (ts & Hts & [= <-]).
  destruct (tables_enc_ok _ _ _ _ _ _ _ _ _ _ Hft Hfc Hall Hts) as [Hok Hlen].
  exists cc, ts. cbv zeta. fold nc. repeat split; try done; try apply Hok.
  - unfold zlen. by rewrite Hlen.
  - by destruct nn, nt, nc.
  - intros ->. destruct bindData; [|done]. done.
Qed.
End Refine.

(** C7.  What a client marshals, the server binds: whenever [MarshalStmt2Binary] returns a buffer
    (smaller than 2 GiB, for fields whose types are [int8]s, allocations succeeding),
    [TaosStmt2BindBinary] accepts that buffer and calls [taos_stmt2_bind_param] on a
    [TAOS_STMT2_BINDV] through which every table name, null flag, length and value of the data
    that was marshalled is read back from memory, with no access outside the buffer or the
    allocated arrays. *)
Theorem MarshalStmt2Binary_TaosStmt2BindBinary
    (format_RFC3339Nano : Z -> list Z) (malloc_names malloc_struct malloc_ptr : Z -> bool)
    (junk_bind : TAOS_STMT2_BIND) (junk_ptr : Z)
    (taos_stmt2_bind_param : TAOS_STMT2_BINDV -> Z -> Z * error)
    (bindData : list TaosStmt2BindData) (isInsert : bool) (fields : list Stmt2AllField)
    (buf : list Z) (colIdx : Z) :
  let colType := filter (fun f => f_BindType f = TAOS_FIELD_COL) fields in
  let tagType := filter (fun f => f_BindType f = TAOS_FIELD_TAG) fields in
  let nn := has_names isInsert bindData in
  let nt := negb (zlen tagType =? 0) in
  let nc := if isInsert then negb (zlen colType =? 0) else true in
  (forall n, malloc_names n = true) -> (forall n, malloc_struct n = true) ->
  (forall n, malloc_ptr n = true) ->
  Forall field_ok fields ->
  MarshalStmt2Binary format_RFC3339Nano bindData isInsert fields = Ret buf ->
  zlen buf < 2 ^ 31 ->
  exists v ts,
    mapM (table_enc format_RFC3339Nano isInsert nn nt nc tagType colType) bindData = Ret ts /\
    bindv_reads v nn nt nc ts /\ v_data v = buf /\
    TaosStmt2BindBinary malloc_names malloc_struct malloc_ptr junk_bind junk_ptr
      taos_stmt2_bind_param buf colIdx =
    Ret (let '(code, msg) := taos_stmt2_bind_param v colIdx in
         if code =? 0 then None else Some (NewError code (err_msg msg))).
Proof.
  cbv zeta. intros Hm1 Hm2 Hm3 Hf HM Hsz.
  destruct (MarshalStmt2Binary_tables _ _ _ _ _ Hf HM) as (cc & ts & Hcc & Hq & Hts & Hbuf & (Hn & Ht & Hc) & Hsome & Hne & Hcc0).
  set (tagType := filter (fun f => f_BindType f = TAOS_FIELD_TAG) fields) in *.
  set (colType := filter (fun f => f_BindType f = TAOS_FIELD_COL) fields) in *.
  set (nn := has_names isInsert bindData) in *. set (nt := negb (zlen tagType =? 0)) in *.
  replace (if isInsert then negb (zlen colType =? 0) else true) with (negb (cc =? 0)).
  2:{ destruct isInsert; [by rewrite Hcc|]. rewrite (proj2 (Z.eqb_neq cc 0)); [done|by apply Hq]. }
  set (nc := negb (cc =? 0)) in *. pose proof (zlen_nonneg tagType) as Htt.
  assert (Htags : if nt then 0 < zlen tagType /\ recs_ok (zlen tagType) (t_tags <$> ts) else zlen tagType = 0).
  { unfold nt in *. destruct (zlen tagType =? 0) eqn:E; cbn [negb]; [lia|]. split; [lia|by apply Ht]. }
  assert (Hcols : if nc then 0 < cc /\ recs_ok cc (t_cols <$> ts) else cc = 0).
  { unfold nc in *. destruct (cc =? 0) eqn:E; cbn [negb]; [lia|]. split; [lia|by apply Hc]. }
  subst buf.
  pose proof (make_bindv_layout malloc_names malloc_struct malloc_ptr junk_bind junk_ptr Hm1 Hm2 Hm3
    nn nt nc (zlen tagType) cc ts Hn Htags Hcols Hne Hsome Hsz) as Hmk.
  pose proof (bindv_of_reads nn nt nc (zlen tagType) cc ts Hn Htags Hcols Hne Hsome Hsz) as Hrd.
  pose proof (layout_eq nn nt nc (zlen tagType) cc ts Hn Htags Hcols Hne Hsome Hsz) as [Heq Hlen].
  pose proof (total_small nn nt nc (zlen tagType) cc ts Hn Htags Hcols Hne Hsome Hsz) as [Hb1 Hb2].
  exists (bindv_of nn nt nc (zlen tagType) cc ts), ts.
  split; [done|]. split; [done|]. split; [done|].
  unfold TaosStmt2BindBinary, go_stmt2_bind_binary. rewrite Hmk.
  change DataPosition with 28. rewrite (proj2 (Z.ltb_ge _ 28)) by lia.
  pose proof (load_hdr nn nt nc (zlen tagType) cc ts Hn Htags Hcols Hne Hsome Hsz 0
    (total nn nt nc ts) (S1 nn ts ++ S2 nt ts ++ S3 nc ts) eq_refl) as Hl.
  rewrite <- Heq in Hl. unfold load_u in Hl. change (4 * Z.of_nat 0) with 0 in Hl.
  assert (Hzs : zslice (layout nn nt nc (zlen ts) (zlen tagType) cc ts) TotalLengthPosition
      (TotalLengthPosition + 4) = load (layout nn nt nc (zlen ts) (zlen tagType) cc ts) 0 4).
  { unfold zslice, load. change TotalLengthPosition with 0. rewrite !bool_decide_eq_true_2 by lia. done. }
  change (Z.of_nat 4) with 4 in Hl. rewrite Hzs, Hl, go_bind_ret, Hlen.
  rewrite (wrap_u_id 32 (total _ _ _ _)) by (unfold in_u; lia). rewrite Z.eqb_refl. cbn [negb].
  destruct (taos_stmt2_bind_param _ colIdx) as [code msg]. rewrite go_bind_ret.
  by destruct (code =? 0).
Qed.

(** ** An example *)

Definition ex_fields : list Stmt2AllField :=
  [ mkStmt2AllField [] TSDB_DATA_TYPE_TIMESTAMP 0 0 8 TAOS_FIELD_COL;
    mkStmt2AllField [] TSDB_DATA_TYPE_BINARY 0 0 8 TAOS_FIELD_COL;
    mkStmt2AllField [] TSDB_DATA_TYPE_INT 0 0 4 TAOS_FIELD_TAG ].
Definition ex_bind : list TaosStmt2BindData :=
  [ mkBindData [116; 49] [VInt32 7] [[VInt64 1; VInt64 2]; [VString [97; 98]; VNil]];
    mkBindData [116; 50] [VNil] [[VInt64 3]; [VNil]] ].
Definition ex_buf : list Z :=
  match MarshalStmt2Binary (fun _ => []) ex_bind true ex_fields with Ret b => b | _ => [] end.
Definition ex_junk : TAOS_STMT2_BIND := mkBind 0 None None 0 0.
(** A library that accepts two tables and reports the number it got otherwise. *)
Definition ex_param (v : TAOS_STMT2_BINDV) (_ : Z) : Z * error :=
  if v_count v =? 2 then (0, ""%string) else (v_count v, "count"%string).

Lemma MarshalStmt2Binary_TaosStmt2BindBinary_witness :
  exists v ts,
    mapM (table_enc (fun _ => []) true true true true (drop 2 ex_fields) (take 2 ex_fields)) ex_bind = Ret ts /\
    bindv_reads v true true true ts /\ v_data v = ex_buf /\
    TaosStmt2BindBinary (fun _ => true) (fun _ => true) (fun _ => true) ex_junk 0 ex_param ex_buf (-1) =
    Ret (let '(code, msg) := ex_param v (-1) in if code =? 0 then None else Some (NewError code (err_msg msg))).
Proof.
  apply (MarshalStmt2Binary_TaosStmt2BindBinary (fun _ => []) (fun _ => true) (fun _ => true) (fun _ => true)
    ex_junk 0 ex_param ex_bind true ex_fields ex_buf (-1)); try reflexivity.
  repeat constructor; vm_compute; congruence.
Defined.

(** ** Buffers that were not marshalled *)

(** A buffer of one table and one column whose record claims [2^20] rows. *)
Definition hostile_buf : list Z :=
  words 4 [49; 1; 0; 1; 0; 0; 28] ++ words 4 [17] ++ words 4 [17; TSDB_DATA_TYPE_INT; 2 ^ 20] ++ [0] ++ words 4 [0].

(**  The checks of [go_stmt2_bind_binary] cover the length tables only: a buffer whose total
    length and section lengths are consistent, but whose record claims more rows than it has, is
    read outside its memory block, whatever the library and the allocator do. *)
Theorem TaosStmt2BindBinary_unchecked_rows malloc_names junk_bind junk_ptr taos_stmt2_bind_param colIdx :
  is_bytes hostile_buf /\ zlen hostile_buf = 49 /\
  TaosStmt2BindBinary malloc_names (fun _ => true) (fun _ => true) junk_bind junk_ptr
    taos_stmt2_bind_param hostile_buf colIdx = Fault.
Proof.
  split; [|split; [reflexivity|reflexivity]].
  apply Forall_forall. intros x Hx. unfold is_byte.
  assert (H : forallb (fun b => (0 <=? b) && (b <? 256)) hostile_buf = true) by reflexivity.
  rewrite forallb_forall in H. apply list_elem_of_In, H in Hx. lia.
Qed.

(** ** [MarshalStmt2Binary] does not panic *)

Definition not_panic {A} (x : go A) : Prop := x <> Panic /\ x <> Fault.

Lemma bind_not_panic {A B} (x : go A) (f : A -> go B) :
  not_panic x -> (forall a, x = Ret a -> not_panic (f a)) -> not_panic (x ≫= f).
Proof. intros [H1 H2] H. destruct x; simpl; [by apply H|by split|done|done]. Qed.

Lemma mapM_not_panic {A B} (f : A -> go B) l :
  Forall (fun x => not_panic (f x)) l -> not_panic (mapM f l).
Proof.
  induction 1 as [|x l Hx _ IH]; [by split|]. rewrite mapM_go_cons.
  apply bind_not_panic; [done|]. intros y _. apply bind_not_panic; [done|]. intros k _. by split.
Qed.

(** A timestamp field has one of the three precisions. *)
Definition field_precision_ok (f : Stmt2AllField) : Prop :=
  f_FieldType f = TSDB_DATA_TYPE_TIMESTAMP -> precision_ok (f_Precision f).

Lemma TimeToTimestamp_not_panic t p : precision_ok p -> not_panic (TimeToTimestamp t p).
Proof. intros Hp. unfold TimeToTimestamp. by destruct (precision_cases p Hp) as [->|[->| ->]]. Qed.

Lemma fixed_cell_not_panic f n conv v :
  field_precision_ok f -> fixed_type f = Some (n, conv) -> not_panic (fixed_cell n conv v).
Proof.
  intros Hf Hft. unfold fixed_cell. destruct (is_nil v); [by split|].
  apply bind_not_panic; [|by split]. unfold fixed_type in Hft.
  destruct (f_FieldType f =? TSDB_DATA_TYPE_TIMESTAMP) eqn:Et.
  - apply Z.eqb_eq in Et. specialize (Hf Et). rewrite Et in Hft. injection Hft as <- <-.
    destruct v; try by split. apply bind_not_panic; [by apply TimeToTimestamp_not_panic|by split].
  - repeat match type of Hft with
           | (if ?c then _ else _) = _ => destruct c; [injection Hft as <- <-; by destruct v|]
           end.
    done.
Qed.

Lemma col_enc_not_panic f data : field_precision_ok f -> not_panic (col_enc f data).
Proof.
  intros Hf. unfold col_enc. destruct (checkAllNull data); [by split|].
  destruct (needLength _).
  - apply bind_not_panic; [|by split]. apply mapM_not_panic, Forall_forall. intros v _. by destruct v.
  - destruct (fixed_type f) as [[n conv]|] eqn:E; [|by split]. apply bind_not_panic; [|by split].
    apply mapM_not_panic, Forall_forall. intros v _. by eapply fixed_cell_not_panic.
Qed.

Lemma tag_encs_not_panic tags tys :
  Forall field_precision_ok tys -> zlen tags = zlen tys -> not_panic (tag_encs tags tys).
Proof.
  intros Hf. revert tags. induction Hf as [|f tys Hf _ IH]; intros [|v tags] Hl; try by split.
  rewrite !zlen_cons in Hl. cbn [tag_encs]. apply bind_not_panic; [by apply col_enc_not_panic|].
  intros e _. apply bind_not_panic; [apply IH; lia|by split].
Qed.

Lemma col_encs_not_panic fmt (ins : bool) cols (tys : list Stmt2AllField) :
  Forall field_precision_ok tys -> (if ins then zlen cols = zlen tys else Forall (fun c : list value => zlen c = 1) cols) ->
  not_panic (col_encs fmt ins cols tys).
Proof.
  intros Hf. revert tys Hf. induction cols as [|c cols IH]; intros tys Hf Hl; [by split|].
  cbn [col_encs]. apply bind_not_panic.
  - destruct ins.
    + destruct tys as [|ty tys]; [done|]. apply Forall_cons_1 in Hf as [Hf _]. by apply col_enc_not_panic.
    + apply Forall_cons_1 in Hl as [Hc _]. destruct c as [|v c]; [done|].
      change (zget (v :: c) 0) with (Ret v). rewrite go_bind_ret. unfold query_enc.
      apply bind_not_panic; [by destruct v|]. intros [[t hl] b] _. by split.
  - intros e _. apply bind_not_panic; [|by split]. apply IH.
    + destruct tys; [done|by inversion Hf].
    + destruct ins; [|by inversion Hl]. destruct tys; [done|]. rewrite !zlen_cons in Hl. cbn [tail]. lia.
Qed.

Lemma check_query_rows ds tc cc c :
  check_query ds tc cc = Ret c -> Forall (fun d => Forall (fun col => zlen col = 1) (Cols d)) ds.
Proof.
  unfold check_query. destruct (tc =? 0); [|done]. destruct (cc =? 0); [|done].
  destruct (zlen ds =? 1) eqn:E2; [|done]. cbn [negb].
  intros (d & Hd & H)%go_bind_Ret_inv. destruct (is_empty _); [|done]. cbn [negb] in H.
  destruct (zlen (Tags d) =? 0); [|done]. destruct (zlen (Cols d) =? 0); [done|].
  destruct (forallb _ _) eqn:Ef; [|done].
  destruct ds as [|d' [|d'' ds]]; [discriminate| |rewrite !zlen_cons in E2; pose proof (zlen_nonneg ds); lia].
  apply zget_Ret in Hd as [_ [= ->]]. constructor; [|done]. apply Forall_forall. intros col Hc.
  rewrite forallb_forall in Ef. apply list_elem_of_In, Ef in Hc. lia.
Qed.

Lemma check_insert_not_panic ds tc cc nn : not_panic (check_insert ds tc cc nn).
Proof.
  revert nn. induction ds as [|d ds IH]; intros nn; cbn [check_insert]; [by split|].
  destruct (negb _); [by split|]. destruct (negb _); [by split|]. apply IH.
Qed.

Lemma check_query_not_panic ds tc cc : ds <> [] -> not_panic (check_query ds tc cc).
Proof.
  intros Hne. unfold check_query. destruct (negb _); [by split|]. destruct (negb _); [by split|].
  destruct (negb _); [by split|]. destruct ds as [|d ds]; [done|].
  change (zget (d :: ds) 0) with (Ret d). rewrite go_bind_ret.
  repeat (match goal with |- not_panic (if ?c then _ else _) => destruct c; [by split|] end).
  by split.
Qed.

(**  [MarshalStmt2Binary] never panics, whatever the bind data: it returns a buffer or an
    error (timestamp fields having a known precision). *)
Theorem MarshalStmt2Binary_no_panic fmt bindData isInsert fields :
  Forall field_precision_ok fields ->
  (exists buf, MarshalStmt2Binary fmt bindData isInsert fields = Ret buf) \/
  (exists e, MarshalStmt2Binary fmt bindData isInsert fields = Err e).
Proof.
  intros Hf. assert (H : not_panic (MarshalStmt2Binary fmt bindData isInsert fields)).
  2:{ destruct (MarshalStmt2Binary fmt bindData isInsert fields) as [b|e| |]; [left; by exists b|right; by exists e|by destruct H..]. }
  rewrite MarshalStmt2Binary_spec. cbv zeta. destruct (zlen bindData =? 0) eqn:E0; [by split|].
  assert (Hft := Forall_filter_1 _ (fun f => f_BindType f = TAOS_FIELD_TAG) _ Hf).
  assert (Hfc := Forall_filter_1 _ (fun f => f_BindType f = TAOS_FIELD_COL) _ Hf).
  set (tagType := filter (fun f => f_BindType f = TAOS_FIELD_TAG) fields) in *.
  set (colType := filter (fun f => f_BindType f = TAOS_FIELD_COL) fields) in *.
  apply bind_not_panic.
  { destruct isInsert; (apply bind_not_panic; [|by split]); [apply check_insert_not_panic|].
    apply check_query_not_panic. by intros ->. }
  intros [nn cc] Hchk. destruct (_ && _); [by split|]. apply bind_not_panic; [|by split].
  apply mapM_not_panic.
  assert (Hd : Forall (fun d => zlen (Tags d) = zlen tagType /\
    (if isInsert then zlen (Cols d) = zlen colType else Forall (fun c => zlen c = 1) (Cols d))) bindData).
  { destruct isInsert.
    - apply go_bind_Ret_inv in Hchk as (b & Hb & _). by apply check_insert_ok in Hb.
    - apply go_bind_Ret_inv in Hchk as (c & Hb & _). pose proof (check_query_rows _ _ _ _ Hb) as Hr.
      apply check_query_ok in Hb as [_ Ha]. rewrite Forall_forall in *. intros d Hin.
      split; [by apply Ha|by apply Hr]. }
  eapply Forall_impl; [exact Hd|]. intros d [Hdt Hdc]. cbv beta. unfold table_enc.
  apply bind_not_panic; [destruct nn; [destruct (_ >? _)|]; by split|]. intros name _.
  apply bind_not_panic; [destruct (negb _); [by apply tag_encs_not_panic|by split]|]. intros tags _.
  apply bind_not_panic; [destruct (negb _); [by apply col_encs_not_panic|by split]|]. by split.
Qed.

Lemma MarshalStmt2Binary_no_panic_witness :
  (exists buf, MarshalStmt2Binary (fun _ => []) ex_bind true ex_fields = Ret buf) \/
  (exists e, MarshalStmt2Binary (fun _ => []) ex_bind true ex_fields = Err e).
Proof.
  apply (MarshalStmt2Binary_no_panic (fun _ => []) ex_bind true ex_fields).
  unfold ex_fields. repeat apply Forall_cons_2; try apply Forall_nil_2.
  all: intros _; vm_compute; split; congruence.
Defined.
