(* ===== verification/TmqRaw.v ===== *)
(** * TmqRaw: parsing the raw data of a TMQ message

    Models [src/driver/common/parser/raw.go]: [TMQRawDataParser] walks a message of the TMQ raw
    data format with a cursor and returns one [TMQBlockInfo] per block of the message, each with a
    pointer to its raw block (read by [RawBlock]), its precision, its schema and its table name.

    The parser object is a record threaded through a state monad over [go]; [uintptr] and [int]
    arithmetic wraps at 64 bits. *)
From S2P Require Import Prelude Common RawBlock.
#[local] Open Scope Z_scope.

Module Tmq.

(** ** Data *)

Record TMQRawDataParser := mkParser { block : Z; offset : Z }.

Record TMQRawDataSchema := mkSchema {
  s_ColType : Z; s_Flag : Z; s_Bytes : Z; s_ColID : Z; s_Name : list Z }.

Record TMQBlockInfo := mkBlockInfo {
  RawBlock : Z; Precision : Z; Schema : list TMQRawDataSchema; b_TableName : list Z }.

(** Code that reads the memory [m] through the parser and moves its cursor. *)
Definition parse (A : Type) : Type := mem -> TMQRawDataParser -> go (A * TMQRawDataParser).

#[export] Instance parse_mret : MRet parse := fun A a _ p => Ret (a, p).
#[export] Instance parse_mbind : MBind parse := fun A B f x m p =>
  '(a, p) ← x m p; f a m p.

Definition panic {A} : parse A := fun _ _ => Panic.
Definition fail {A} (e : error) : parse A := fun _ _ => Err e.

(** ** Cursor and scalars *)

Definition NewTMQRawDataParser : TMQRawDataParser := mkParser 0 0.

Definition reset (b : Z) : parse unit := fun _ _ => Ret (tt, mkParser b 0).

Definition skip (count : Z) : parse unit := fun _ p =>
  Ret (tt, mkParser (block p) (u64 (offset p + u64 count))).

(** [tools.AddPointer(p.block, p.offset)] and a load through it. *)
Definition cursor (p : TMQRawDataParser) : Z := AddPointer (block p) (offset p).
Definition peek_u (n : nat) : parse Z := fun m p => v ← load_u n m (cursor p); Ret (v, p).
Definition peek_s (n : nat) : parse Z := fun m p => v ← load_s n m (cursor p); Ret (v, p).

Definition parseBool : parse bool :=
  v ← peek_s 1; _ ← skip 1; mret (negb (v =? 0)).
Definition parseUint8 : parse Z := v ← peek_u 1; _ ← skip 1; mret v.
Definition parseInt8 : parse Z := v ← peek_s 1; _ ← skip 1; mret v.
Definition parseInt32 : parse Z := v ← peek_s 4; _ ← skip 4; mret v.

(** ** Variable-length integers *)

(** The loop of [parseVariableByteInteger]; [Panic] is running out of fuel. *)
Fixpoint varint_loop (fuel : nat) (multiplier value : Z) : parse Z :=
  match fuel with
  | O => panic
  | S fuel' =>
    encodedByte ← parseUint8;
    let value := i64 (value + i64 (Z.land encodedByte 127 * multiplier)) in
    if Z.land encodedByte 128 =? 0 then mret value
    else varint_loop fuel' (i64 (multiplier * 128)) value
  end.

(** Every iteration consumes a byte of the memory, so its size bounds the iterations. *)
Definition parseVariableByteInteger : parse Z := fun m p =>
  varint_loop (S (length m)) 1 0 m p.

Definition zigzagDecode (n : Z) : Z := Z.lxor (Z.shiftr n 1) (- (Z.land n 1)).

Definition parseZigzagVariableByteInteger : parse Z :=
  v ← parseVariableByteInteger; mret (zigzagDecode v).

(** ** Names, schemas, blocks *)

(** [make([]byte, nameLen-1)] panics when [nameLen] is 0 (or negative). *)
Definition parseName : parse (list Z) :=
  nameLen ← parseVariableByteInteger;
  if nameLen - 1 <? 0 then panic
  else
    name ← (fun m p =>
      name ← for_upto (nameLen - 1) (fun i name =>
        b ← load_u 1 m (AddPointer (block p) (u64 (offset p + i)));
        zset name i b) (replicate (Z.to_nat (nameLen - 1)) 0);
      Ret (name, p));
    _ ← skip nameLen;
    mret name.

Definition parseSchema : parse TMQRawDataSchema :=
  colType ← parseUint8;
  flag ← parseInt8;
  bytes ← parseZigzagVariableByteInteger;
  colID ← parseZigzagVariableByteInteger;
  name ← parseName;
  mret (mkSchema colType flag bytes colID name).

(** [n] results in order. *)
Fixpoint repeat_parse {A} (n : nat) (x : parse A) : parse (list A) :=
  match n with
  | O => mret []
  | S n' => a ← x; l ← repeat_parse n' x; mret (a :: l)
  end.

(** The body of the block loop. *)
Definition parseBlockInfo (withTableName withSchema : bool) : parse TMQBlockInfo :=
  blockTotalLen ← parseVariableByteInteger;
  _ ← skip 17;
  precision ← parseUint8;
  rawBlock ← (fun _ p => Ret (cursor p, p));
  _ ← skip (blockTotalLen - 18);
  schema ← (if withSchema then
      cols ← parseZigzagVariableByteInteger;
      _ ← parseZigzagVariableByteInteger;
      if cols <? 0 then panic else repeat_parse (Z.to_nat cols) parseSchema
    else mret []);
  name ← (if withTableName then parseName else mret []);
  mret (mkBlockInfo rawBlock precision schema name).

Definition parseBlockInfos : parse (list TMQBlockInfo) :=
  blockNum ← parseInt32;
  if blockNum <? 0 then panic
  else
    withTableName ← parseBool;
    withSchema ← parseBool;
    repeat_parse (Z.to_nat blockNum) (parseBlockInfo withTableName withSchema).

Definition ErrUnknownType : error := "unknown type"%string.

Definition getTypeSkip (t : Z) : parse Z :=
  if t =? 1 then mret 8 else if (t =? 2) || (t =? 3) then mret 16 else fail ErrUnknownType.

Definition skipHead : parse unit :=
  v ← parseInt8;
  if v >=? 100 then n ← parseInt32; skip n
  else
    n ← getTypeSkip v;
    _ ← skip n;
    v ← parseInt8;
    n ← getTypeSkip v;
    skip n.

Definition Parse (b : Z) : parse (list TMQBlockInfo) :=
  _ ← reset b;
  _ ← skipHead;
  parseBlockInfos.

(** ** The message format *)

(** [parses x bs a]: wherever the bytes [bs] stand in a memory, [x] run with its cursor on their
    first byte returns [a] (of the position) and leaves the cursor after their last byte. *)
Definition parses {A} (x : parse A) (bs : list Z) (a : Z -> A) : Prop :=
  forall pre post b, 0 <= b <= zlen pre -> zlen (pre ++ bs ++ post) < 2 ^ 63 ->
  x (pre ++ bs ++ post) (mkParser b (zlen pre - b)) =
  Ret (a (zlen pre), mkParser b (zlen pre + zlen bs - b)).

Lemma parses_ret {A} (a : A) : parses (mret a) [] (fun _ => a).
Proof. intros pre post b Hb Hm. cbn. change (zlen []) with 0. by rewrite Z.add_0_r. Qed.

Lemma parses_bind {A B} (x : parse A) (f : A -> parse B) bs1 bs2 a c :
  parses x bs1 a -> (forall pos, parses (f (a pos)) bs2 (c pos)) ->
  parses (x ≫= f) (bs1 ++ bs2) (fun pos => c pos (pos + zlen bs1)).
Proof.
  intros Hx Hf pre post b Hb Hm. unfold mbind, parse_mbind.
  rewrite <- (app_assoc bs1). rewrite <- (app_assoc bs1) in Hm.
  rewrite Hx by done. rewrite go_bind_ret.
  specialize (Hf (zlen pre) (pre ++ bs1) post b). rewrite (zlen_app pre bs1) in Hf.
  pose proof (zlen_nonneg bs1). rewrite <- (app_assoc pre bs1) in Hf. rewrite Hf by (done || lia).
  by rewrite zlen_app, Z.add_assoc.
Qed.

(** The common case of a result that does not depend on the position. *)
Lemma parses_bind_const {A B} (x : parse A) (f : A -> parse B) bs1 bs2 a c :
  parses x bs1 (fun _ => a) -> parses (f a) bs2 (fun _ => c) ->
  parses (x ≫= f) (bs1 ++ bs2) (fun _ => c).
Proof. intros Hx Hf. exact (parses_bind x f bs1 bs2 (fun _ => a) (fun _ _ => c) Hx (fun _ => Hf)). Qed.

Lemma cursor_pos b z : 0 <= b <= z -> z < 2 ^ 63 -> cursor (mkParser b (z - b)) = z.
Proof. intros. unfold cursor. cbn [block offset]. rewrite AddPointer_small; norm_pow; lia. Qed.

Lemma skip_pos b z n m : 0 <= b <= z -> 0 <= n -> z + n < 2 ^ 63 ->
  skip n m (mkParser b (z - b)) = Ret (tt, mkParser b (z + n - b)).
Proof.
  intros Hb Hn Hz. unfold skip. cbn [block offset].
  rewrite (wrap_u_id 64 n), wrap_u_id by (unfold in_u; norm_pow; lia). do 3 f_equal. lia.
Qed.

Lemma parses_skip bs n : n = zlen bs -> parses (skip n) bs (fun _ => tt).
Proof.
  intros -> pre post b Hb Hm. rewrite !zlen_app in Hm. pose proof (zlen_nonneg post).
  apply skip_pos; [done|apply zlen_nonneg|lia].
Qed.

Lemma parses_u8 x : is_byte x -> parses parseUint8 [x] (fun _ => x).
Proof.
  intros Hx pre post b Hb Hm. rewrite !zlen_app in Hm. change (zlen [x]) with 1 in *.
  pose proof (zlen_nonneg post). pose proof (zlen_nonneg pre).
  unfold parseUint8, peek_u, mbind, parse_mbind. rewrite cursor_pos by lia.
  unfold load_u. rewrite load_mid by done. cbn [fmap go_fmap mbind go_mbind le_val].
  rewrite skip_pos by lia. cbn [mbind go_mbind mret parse_mret]. by rewrite Z.mul_0_r, Z.add_0_r.
Qed.

Lemma parses_s8 x : in_s 8 x -> parses parseInt8 (le_bytes 1 x) (fun _ => x).
Proof.
  intros Hx pre post b Hb Hm. rewrite !zlen_app, zlen_le_bytes in Hm.
  pose proof (zlen_nonneg post). pose proof (zlen_nonneg pre).
  unfold parseInt8, peek_s, mbind, parse_mbind. rewrite cursor_pos by lia.
  rewrite load_s_mid by (done || lia). cbn [mbind go_mbind].
  rewrite skip_pos by lia. cbn [mbind go_mbind mret parse_mret].
  rewrite wrap_s_id by (done || lia). by rewrite zlen_le_bytes.
Qed.

Lemma parses_s32 x : in_s 32 x -> parses parseInt32 (le_bytes 4 x) (fun _ => x).
Proof.
  intros Hx pre post b Hb Hm. rewrite !zlen_app, zlen_le_bytes in Hm.
  pose proof (zlen_nonneg post). pose proof (zlen_nonneg pre).
  unfold parseInt32, peek_s, mbind, parse_mbind. rewrite cursor_pos by lia.
  rewrite load_s_mid by (done || lia). cbn [mbind go_mbind].
  rewrite skip_pos by lia. cbn [mbind go_mbind mret parse_mret].
  rewrite wrap_s_id by (done || lia). by rewrite zlen_le_bytes.
Qed.

Definition bool_byte (x : bool) : Z := if x then 1 else 0.

Lemma parses_bool x : parses parseBool [bool_byte x] (fun _ => x).
Proof.
  intros pre post b Hb Hm. rewrite !zlen_app in Hm. change (zlen [_]) with 1 in *.
  pose proof (zlen_nonneg post). pose proof (zlen_nonneg pre).
  unfold parseBool, peek_s, mbind, parse_mbind. rewrite cursor_pos by lia.
  unfold load_s. rewrite load_mid by done. cbn [fmap go_fmap mbind go_mbind le_val].
  rewrite skip_pos by lia. cbn [mbind go_mbind mret parse_mret]. by destruct x.
Qed.

(** ** Variable-length integers: encoding *)

(** At most [S fuel] groups of seven bits, least significant first. *)
Fixpoint varint_enc (fuel : nat) (n : Z) : list Z :=
  match fuel with
  | O => [n]
  | S fuel' => if n <? 128 then [n] else (128 + n mod 128) :: varint_enc fuel' (n / 128)
  end.

(** Nine groups are enough for a non-negative [int]. *)
Definition varint (n : Z) : list Z := varint_enc 8 n.
Definition zigzag (n : Z) : Z := if 0 <=? n then 2 * n else - 2 * n - 1.

Lemma land_127 x : is_byte x -> Z.land x 127 = x mod 128 /\ Z.land x 128 = 128 * (x / 128).
Proof.
  intros Hx. split.
  - change 127 with (Z.ones 7). by rewrite Z.land_ones by lia.
  - assert (H : forallb (fun k => Z.land (Z.of_nat k) 128 =? 128 * (Z.of_nat k / 128)) (seq 0 256) = true)
      by (vm_compute; reflexivity).
    rewrite forallb_forall in H. specialize (H (Z.to_nat x)). rewrite Z2Nat.id in H by (unfold is_byte in Hx; lia).
    apply Z.eqb_eq, H, in_seq. unfold is_byte in Hx. lia.
Qed.

Lemma varint_enc_length k n : (1 <= length (varint_enc k n))%nat.
Proof. destruct k; simpl; [lia|]. destruct (n <? 128); simpl; lia. Qed.

Lemma varint_loop_spec k : forall fuel n mult value,
  0 <= n < 128 ^ Z.of_nat (S k) -> 0 < mult -> 0 <= value -> value + n * mult < 2 ^ 63 ->
  (length (varint_enc k n) <= fuel)%nat ->
  parses (varint_loop fuel mult value) (varint_enc k n) (fun _ => value + n * mult).
Proof.
  induction k as [|k IH]; intros fuel n mult value Hn Hm Hv Hmax Hf.
  all: destruct fuel as [|fuel];
    [match type of Hf with (length (varint_enc ?j _) <= _)%nat => pose proof (varint_enc_length j n); lia end|].
  all: cbn [varint_loop varint_enc].
  - change (128 ^ Z.of_nat 1) with 128 in Hn. destruct (land_127 n) as [E1 E2]; [unfold is_byte; lia|].
    rewrite <- (app_nil_r [n]). eapply parses_bind_const; [apply parses_u8; unfold is_byte; lia|].
    cbv beta zeta. rewrite E1, E2, Z.mod_small, Z.div_small by lia. cbn [Z.eqb Z.mul].
    rewrite (wrap_s_id 64 (n * mult)), wrap_s_id by (unfold in_s; norm_pow; nia). apply parses_ret.
  - destruct (Z.ltb_spec n 128) as [Hlt|Hge].
    + destruct (land_127 n) as [E1 E2]; [unfold is_byte; lia|].
      rewrite <- (app_nil_r [n]). eapply parses_bind_const; [apply parses_u8; unfold is_byte; lia|].
      cbv beta zeta. rewrite E1, E2, Z.mod_small, Z.div_small by lia. cbn [Z.eqb Z.mul].
      rewrite (wrap_s_id 64 (n * mult)), wrap_s_id by (unfold in_s; norm_pow; nia). apply parses_ret.
    + pose proof (Z.mod_pos_bound n 128 ltac:(lia)) as Hmod. pose proof (Z.div_mod n 128 ltac:(lia)) as Hdm.
      assert (Hbyte : is_byte (128 + n mod 128)) by (unfold is_byte; lia).
      destruct (land_127 _ Hbyte) as [E1 E2].
      replace ((128 + n mod 128) mod 128) with (n mod 128) in E1
        by (rewrite <- Z.add_mod_idemp_l, Z.mod_same, Z.add_0_l, Z.mod_mod by lia; done).
      replace ((128 + n mod 128) / 128) with 1 in E2 by (apply Z.div_unique with (n mod 128); lia).
      change (?x :: ?l) with ([x] ++ l).
      eapply parses_bind_const; [by apply parses_u8|]. cbv beta zeta. rewrite E1, E2. cbn [Z.eqb Z.mul].
      assert (1 <= n / 128) by (apply Z.div_le_lower_bound; lia).
      rewrite (wrap_s_id 64 (n mod 128 * mult)), (wrap_s_id 64 (value + _)), (wrap_s_id 64 (mult * 128))
        by (unfold in_s; norm_pow; nia).
      replace (value + n * mult) with (value + n mod 128 * mult + n / 128 * (mult * 128)) by nia.
      apply IH; [|lia|nia|nia|].
      * split; [lia|]. apply Z.div_lt_upper_bound; [lia|].
        rewrite Nat2Z.inj_succ, Z.pow_succ_r in Hn by lia. lia.
      * cbn [varint_enc] in Hf. rewrite (proj2 (Z.ltb_ge n 128)) in Hf by lia. cbn [length] in Hf. lia.
Qed.

Lemma parses_varint n : 0 <= n < 2 ^ 63 -> parses parseVariableByteInteger (varint n) (fun _ => n).
Proof.
  intros Hn pre post b Hb Hm. unfold parseVariableByteInteger.
  rewrite (varint_loop_spec 8 _ n 1 0); try done; try lia.
  - do 2 f_equal. lia.
  - unfold varint. rewrite !length_app. lia.
Qed.

Lemma zigzag_decode n : zigzagDecode (zigzag n) = n.
Proof.
  assert (Hl : forall k, Z.land k 1 = k mod 2) by (intros k; exact (Z.land_ones k 1 ltac:(lia))).
  unfold zigzagDecode, zigzag. rewrite Hl, Z.shiftr_div_pow2 by lia. change (2 ^ 1) with 2.
  destruct (Z.leb_spec 0 n).
  - rewrite Z.mul_comm, Z.div_mul, Z.mod_mul by lia. apply Z.lxor_0_r.
  - replace (- 2 * n - 1) with (1 + (- n - 1) * 2) by lia.
    rewrite Z.div_add, Z.mod_add by lia. change (1 / 2) with 0. change (- (1 mod 2)) with (-1).
    rewrite Z.lxor_m1_r. unfold Z.lnot. lia.
Qed.

Lemma parses_zigzag n :
  - 2 ^ 62 <= n < 2 ^ 62 -> parses parseZigzagVariableByteInteger (varint (zigzag n)) (fun _ => n).
Proof.
  intros Hn. unfold parseZigzagVariableByteInteger. rewrite <- (app_nil_r (varint _)).
  eapply parses_bind_const.
  - apply parses_varint. unfold zigzag. change (2 ^ 62) with 4611686018427387904 in Hn. norm_pow.
    destruct (0 <=? n) eqn:E; lia.
  - cbv beta. rewrite zigzag_decode. apply parses_ret.
Qed.

(** ** Termination of the integer loop *)

Lemma cursor_skip_1 p m : 0 <= cursor p < 2 ^ 64 - 1 ->
  exists p', skip 1 m p = Ret (tt, p') /\ cursor p' = cursor p + 1.
Proof.
  intros Hc. eexists. split; [done|]. unfold cursor, AddPointer in *. cbn [block offset].
  change (u64 1) with 1. unfold wrap_u in *. rewrite Z.add_mod_idemp_r, Z.add_assoc by done.
  rewrite <- Z.add_mod_idemp_l by done. apply Z.mod_small. lia.
Qed.

Lemma varint_loop_terminates fuel : forall m p mult value,
  zlen m < 2 ^ 64 -> zlen m - cursor p <= Z.of_nat fuel -> varint_loop (S fuel) mult value m p <> Panic.
Proof.
  induction fuel as [|fuel IH]; intros m p mult value Hm Hf; cbn [varint_loop].
  all: unfold parseUint8, peek_u, mbind, parse_mbind, load_u, load.
  all: assert (Hc : 0 <= cursor p < 2 ^ 64) by apply (wrap_u_range 64 (block p + offset p) ltac:(lia)).
  all: case_bool_decide as Hin; cbn [fmap go_fmap mbind go_mbind]; [|done]; change (Z.of_nat 1) with 1 in Hin.
  - lia.
  - destruct (cursor_skip_1 p m) as (p' & Es & Ec); [lia|]. rewrite Es. cbn [mbind go_mbind mret parse_mret].
    cbv zeta. case_if E; [done|]. apply IH; [done|lia].
Qed.

Lemma varint_loop_no_err fuel : forall m p mult value e, varint_loop fuel mult value m p <> Err e.
Proof.
  induction fuel as [|fuel IH]; intros m p mult value e; cbn [varint_loop]; [done|].
  unfold parseUint8, peek_u, mbind, parse_mbind, load_u, load.
  case_bool_decide; cbn [fmap go_fmap mbind go_mbind]; [|done].
  cbv zeta. unfold skip. cbn [mbind go_mbind mret parse_mret]. case_if E; [done|]. apply IH.
Qed.

(** ** Messages *)

Definition name_bytes (name : list Z) : list Z := varint (zlen name + 1) ++ name ++ [0].

Definition schema_bytes (s : TMQRawDataSchema) : list Z :=
  [s_ColType s] ++ le_bytes 1 (s_Flag s) ++ varint (zigzag (s_Bytes s)) ++
  varint (zigzag (s_ColID s)) ++ name_bytes (s_Name s).

(** A block of a message: 17 bytes the parser skips, the precision, the raw block, and what the
    flags of the message say follows it. *)
Record block_msg := mkBlockMsg {
  m_head : list Z; m_precision : Z; m_raw : list Z;
  m_version : Z; m_schema : list TMQRawDataSchema; m_name : list Z }.

Definition block_bytes (withName withSchema : bool) (b : block_msg) : list Z :=
  varint (18 + zlen (m_raw b)) ++ m_head b ++ [m_precision b] ++ m_raw b ++
  (if withSchema then varint (zigzag (zlen (m_schema b))) ++ varint (zigzag (m_version b)) ++
     concat (schema_bytes <$> m_schema b) else []) ++
  (if withName then name_bytes (m_name b) else []).

(** The two forms of the head of a message. *)
Inductive head_bytes : list Z -> Prop :=
| head_types t1 s1 t2 s2 :
    (t1 = 1 /\ zlen s1 = 8 \/ (t1 = 2 \/ t1 = 3) /\ zlen s1 = 16) ->
    (t2 = 1 /\ zlen s2 = 8 \/ (t2 = 2 \/ t2 = 3) /\ zlen s2 = 16) ->
    head_bytes (le_bytes 1 t1 ++ s1 ++ le_bytes 1 t2 ++ s2)
| head_version v s :
    100 <= v < 128 -> zlen s < 2 ^ 31 -> head_bytes (le_bytes 1 v ++ le_bytes 4 (zlen s) ++ s).

Definition msg_bytes (head : list Z) (withName withSchema : bool) (bs : list block_msg) : list Z :=
  head ++ le_bytes 4 (zlen bs) ++ [bool_byte withName] ++ [bool_byte withSchema] ++
  concat (block_bytes withName withSchema <$> bs).

(** The ranges the format can carry. *)
Definition schema_ok (s : TMQRawDataSchema) : Prop :=
  is_byte (s_ColType s) /\ in_s 8 (s_Flag s) /\ - 2 ^ 62 <= s_Bytes s < 2 ^ 62 /\
  - 2 ^ 62 <= s_ColID s < 2 ^ 62 /\ is_bytes (s_Name s).

Definition block_ok (b : block_msg) : Prop :=
  zlen (m_head b) = 17 /\ is_byte (m_precision b) /\ - 2 ^ 62 <= m_version b < 2 ^ 62 /\
  Forall schema_ok (m_schema b) /\ is_bytes (m_name b).

(** The result for a block that starts at [pos]. *)
Definition info_at (withName withSchema : bool) (b : block_msg) (pos : Z) : TMQBlockInfo :=
  mkBlockInfo (pos + zlen (varint (18 + zlen (m_raw b))) + 18) (m_precision b)
    (if withSchema then m_schema b else []) (if withName then m_name b else []).

Fixpoint infos_at (withName withSchema : bool) (bs : list block_msg) (pos : Z) : list TMQBlockInfo :=
  match bs with
  | [] => []
  | b :: bs =>
    info_at withName withSchema b pos ::
    infos_at withName withSchema bs (pos + zlen (block_bytes withName withSchema b))
  end.

(** ** Parsing the parts *)

Lemma name_loop pre name post b : is_bytes name -> 0 <= b <= zlen pre ->
  zlen (pre ++ name ++ post) < 2 ^ 63 ->
  for_upto (zlen name) (fun i acc =>
    x ← load_u 1 (pre ++ name ++ post) (AddPointer b (u64 (zlen pre - b + i)));
    zset acc i x) (replicate (length name) 0) = Ret name.
Proof.
  intros Hn Hb Hm. rewrite !zlen_app in Hm. pose proof (zlen_nonneg post).
  assert (Hgo : forall rest dn, name = dn ++ rest ->
    for_loop (length rest) (zlen dn) (fun i acc =>
      x ← load_u 1 (pre ++ name ++ post) (AddPointer b (u64 (zlen pre - b + i)));
      zset acc i x) (dn ++ replicate (length rest) 0) = Ret name).
  { induction rest as [|x rest IH]; intros dn E.
    - cbn. rewrite E. by rewrite !app_nil_r.
    - cbn [length for_loop replicate]. assert (El : zlen name = zlen dn + 1 + zlen rest)
        by (rewrite E, zlen_app, zlen_cons; lia).
      pose proof (zlen_nonneg dn). pose proof (zlen_nonneg rest).
      rewrite wrap_u_id by (unfold in_u; norm_pow; lia). rewrite AddPointer_small by (norm_pow; lia).
      unfold load_u. erewrite (load_at _ (pre ++ dn) [x]); [|rewrite E; list_assoc|rewrite zlen_app; lia|done].
      cbn [fmap go_fmap mbind go_mbind le_val]. rewrite Z.mul_0_r, Z.add_0_r.
      rewrite zset_mid by done. cbn [mbind go_mbind].
      specialize (IH (dn ++ [x])). rewrite zlen_snoc, <- !app_assoc in IH. by apply IH. }
  unfold for_upto. unfold zlen at 1. rewrite Nat2Z.id. by apply (Hgo name []).
Qed.

(** A bound on the size of what is parsed may be assumed: it is in memory. *)
Lemma parses_sized {A} (x : parse A) bs a : (zlen bs < 2 ^ 63 -> parses x bs a) -> parses x bs a.
Proof.
  intros H pre post b Hb Hm. apply H; [|done|done]. rewrite !zlen_app in Hm.
  pose proof (zlen_nonneg pre). pose proof (zlen_nonneg post). lia.
Qed.

Lemma parses_name name : is_bytes name -> parses parseName (name_bytes name) (fun _ => name).
Proof.
  intros Hn. apply parses_sized. unfold name_bytes. intros Hlen.
  rewrite !zlen_app in Hlen. change (zlen [0]) with 1 in Hlen.
  pose proof (zlen_nonneg name). pose proof (zlen_nonneg (varint (zlen name + 1))).
  unfold parseName. eapply parses_bind_const; [apply parses_varint; lia|]. cbv beta.
  rewrite Z.add_simpl_r, (proj2 (Z.ltb_ge _ 0)) by lia.
  intros pre post b Hb Hm. unfold mbind, parse_mbind. cbn [block offset].
  rewrite <- (app_assoc name) in Hm |- *. pose proof (name_loop pre name ([0] ++ post) b Hn Hb Hm) as Hl.
  change (Z.to_nat (zlen name)) with (Z.to_nat (Z.of_nat (length name))). rewrite Nat2Z.id.
  unfold mbind in Hl. rewrite Hl. cbn [go_mbind]. rewrite go_bind_ret.
  rewrite !zlen_app in Hm. pose proof (zlen_nonneg post). change (zlen [0]) with 1 in Hm.
  rewrite skip_pos by lia. rewrite go_bind_ret, zlen_snoc. done.
Qed.

Lemma parses_schema s : schema_ok s -> parses parseSchema (schema_bytes s) (fun _ => s).
Proof.
  intros (Ht & Hf & Hb & Hc & Hn). unfold parseSchema, schema_bytes.
  eapply parses_bind_const; [by apply parses_u8|]. eapply parses_bind_const; [by apply parses_s8|].
  eapply parses_bind_const; [by apply parses_zigzag|]. eapply parses_bind_const; [by apply parses_zigzag|].
  rewrite <- (app_nil_r (name_bytes _)). eapply parses_bind_const; [by apply parses_name|].
  destruct s. apply parses_ret.
Qed.

Lemma parses_repeat_const {A} (x : parse A) (enc : A -> list Z) l :
  Forall (fun a => parses x (enc a) (fun _ => a)) l ->
  parses (repeat_parse (length l) x) (concat (enc <$> l)) (fun _ => l).
Proof.
  induction 1 as [|a l Ha _ IH]; cbn [length repeat_parse fmap list_fmap concat]; [apply parses_ret|].
  eapply parses_bind_const; [exact Ha|]. rewrite <- (app_nil_r (concat _)).
  eapply parses_bind_const; [exact IH|]. apply parses_ret.
Qed.

Lemma parses_ext {A} (x : parse A) bs bs' (a a' : Z -> A) :
  bs = bs' -> (forall pos, a pos = a' pos) -> parses x bs a -> parses x bs' a'.
Proof. intros <- Ha H pre post b Hb Hm. rewrite H by done. by rewrite Ha. Qed.

Lemma parses_bind_shift {A B} (x : parse A) (f : A -> parse B) bs1 bs2 a c :
  parses x bs1 (fun _ => a) -> parses (f a) bs2 c ->
  parses (x ≫= f) (bs1 ++ bs2) (fun pos => c (pos + zlen bs1)).
Proof. intros Hx Hf. exact (parses_bind x f bs1 bs2 (fun _ => a) (fun _ => c) Hx (fun _ => Hf)). Qed.

Lemma parses_cursor : parses (fun _ p => Ret (cursor p, p)) [] (fun pos => pos).
Proof.
  intros pre post b Hb Hm. rewrite app_nil_l, zlen_app in Hm. pose proof (zlen_nonneg post).
  rewrite cursor_pos by lia. change (zlen []) with 0. by rewrite Z.add_0_r.
Qed.

Lemma schema_bytes_5 s : 5 <= zlen (schema_bytes s).
Proof.
  unfold schema_bytes, name_bytes. rewrite !zlen_app, zlen_le_bytes.
  pose proof (varint_enc_length 8 (zigzag (s_Bytes s))). pose proof (varint_enc_length 8 (zigzag (s_ColID s))).
  pose proof (varint_enc_length 8 (zlen (s_Name s) + 1)). pose proof (zlen_nonneg (s_Name s)).
  unfold zlen, varint in *. cbn [length]. lia.
Qed.

Lemma parses_block_schema (ws : bool) bm :
  block_ok bm ->
  parses (if ws then
      cols ← parseZigzagVariableByteInteger;
      _ ← parseZigzagVariableByteInteger;
      if cols <? 0 then panic else repeat_parse (Z.to_nat cols) parseSchema
    else mret [])
    (if ws then varint (zigzag (zlen (m_schema bm))) ++ varint (zigzag (m_version bm)) ++
       concat (schema_bytes <$> m_schema bm) else [])
    (fun _ => if ws then m_schema bm else []).
Proof.
  intros (_ & _ & Hv & Hs & _). destruct ws; [|apply parses_ret]. apply parses_sized. intros Hsz.
  assert (Hc : zlen (m_schema bm) < 2 ^ 62).
  { assert (5 * zlen (m_schema bm) <= zlen (concat (schema_bytes <$> m_schema bm))).
    { clear. induction (m_schema bm) as [|s l IH]; [done|]. cbn [fmap list_fmap concat].
      rewrite zlen_app, zlen_cons. pose proof (schema_bytes_5 s). lia. }
    rewrite !zlen_app in Hsz. pose proof (zlen_nonneg (varint (zigzag (zlen (m_schema bm))))).
    pose proof (zlen_nonneg (varint (zigzag (m_version bm)))).
    change (2 ^ 62) with 4611686018427387904. norm_pow. lia. }
  pose proof (zlen_nonneg (m_schema bm)).
  eapply parses_bind_const; [apply parses_zigzag; lia|]. eapply parses_bind_const; [by apply parses_zigzag|].
  cbv beta. rewrite (proj2 (Z.ltb_ge _ 0)) by lia. unfold zlen. rewrite Nat2Z.id.
  apply parses_repeat_const. eapply Forall_impl; [exact Hs|]. intros s Hok. by apply parses_schema.
Qed.

Lemma parses_block wn ws bm :
  block_ok bm -> parses (parseBlockInfo wn ws) (block_bytes wn ws bm) (info_at wn ws bm).
Proof.
  intros Hok. pose proof Hok as (Hh & Hp & _ & _ & Hn). apply parses_sized. unfold block_bytes. intros Hsz.
  rewrite !zlen_app in Hsz. change (zlen [_]) with 1 in Hsz. pose proof (zlen_nonneg (m_raw bm)).
  pose proof (zlen_nonneg (varint (18 + zlen (m_raw bm)))).
  set (tl := (if wn then name_bytes (m_name bm) else [])) in *.
  set (sc := (if ws then _ else [])) in *. pose proof (zlen_nonneg tl). pose proof (zlen_nonneg sc).
  unfold parseBlockInfo. eapply parses_ext; [done| |
    eapply parses_bind_shift; [apply parses_varint; lia|];
    eapply parses_bind_shift; [by apply parses_skip|];
    eapply parses_bind_shift; [by apply parses_u8|]; cbv beta;
    rewrite <- (app_nil_l (m_raw bm ++ _));
    apply (parses_bind _ _ [] _ _ (fun pos _ => mkBlockInfo pos (m_precision bm)
      (if ws then m_schema bm else []) (if wn then m_name bm else [])) parses_cursor); intros pos;
    eapply parses_bind_const; [apply parses_skip; lia|];
    eapply parses_bind_const; [by apply parses_block_schema|]; cbv beta;
    rewrite <- (app_nil_r tl); eapply parses_bind_const; [|apply parses_ret]].
  - intros pos. unfold info_at. f_equal. rewrite Hh. change (zlen [_]) with 1. lia.
  - unfold tl. destruct wn; [by apply parses_name|apply parses_ret].
Qed.

Lemma parses_blocks wn ws bs :
  Forall block_ok bs ->
  parses (repeat_parse (length bs) (parseBlockInfo wn ws)) (concat (block_bytes wn ws <$> bs)) (infos_at wn ws bs).
Proof.
  induction 1 as [|bm bs Hb _ IH]; cbn [length repeat_parse fmap list_fmap concat]; [apply parses_ret|].
  apply (parses_bind _ _ _ _ _ (fun pos q => info_at wn ws bm pos :: infos_at wn ws bs q)
    (parses_block wn ws bm Hb)). intros pos.
  rewrite <- (app_nil_r (concat _)).
  apply (parses_bind _ _ _ _ _ (fun q _ => info_at wn ws bm pos :: infos_at wn ws bs q) IH). intros q.
  apply parses_ret.
Qed.

Lemma parses_type_skip t (s : list Z) : (t = 1 /\ zlen s = 8 \/ (t = 2 \/ t = 3) /\ zlen s = 16) ->
  in_s 8 t /\ (t >=? 100) = false /\ parses (getTypeSkip t) [] (fun _ => zlen s).
Proof.
  intros H. split; [unfold in_s; norm_pow; lia|]. split.
  - destruct H as [[-> _]|[[-> | ->] _]]; reflexivity.
  - destruct H as [[-> ->]|[[-> | ->] ->]]; apply parses_ret.
Qed.

Lemma parses_head head : head_bytes head -> parses skipHead head (fun _ => tt).
Proof.
  intros H. apply parses_sized. unfold skipHead.
  destruct H as [t1 s1 t2 s2 H1 H2|v s Hv Hs]; intros Hsz.
  - destruct (parses_type_skip _ _ H1) as (R1 & G1 & P1). destruct (parses_type_skip _ _ H2) as (R2 & G2 & P2).
    eapply parses_bind_const; [by apply parses_s8|]. cbv beta. rewrite G1.
    rewrite <- (app_nil_l (s1 ++ _)). eapply parses_bind_const; [exact P1|].
    eapply parses_bind_const; [by apply parses_skip|]. eapply parses_bind_const; [by apply parses_s8|]. cbv beta.
    rewrite <- (app_nil_l s2). eapply parses_bind_const; [exact P2|]. by apply parses_skip.
  - eapply parses_bind_const; [apply parses_s8; unfold in_s; norm_pow; lia|]. cbv beta.
    rewrite Z.geb_leb, (proj2 (Z.leb_le 100 v)) by lia.
    eapply parses_bind_const; [apply parses_s32; unfold in_s; pose proof (zlen_nonneg s); norm_pow; lia|].
    by apply parses_skip.
Qed.

Lemma parses_infos wn ws bs :
  Forall block_ok bs -> zlen bs < 2 ^ 31 ->
  parses parseBlockInfos
    (le_bytes 4 (zlen bs) ++ [bool_byte wn] ++ [bool_byte ws] ++ concat (block_bytes wn ws <$> bs))
    (fun pos => infos_at wn ws bs (pos + 6)).
Proof.
  intros Hbs Hn. pose proof (zlen_nonneg bs). unfold parseBlockInfos.
  eapply parses_ext; [done| |eapply parses_bind_shift; [apply parses_s32; unfold in_s; norm_pow; lia|]; cbv beta;
    rewrite (proj2 (Z.ltb_ge _ 0)) by lia;
    eapply parses_bind_shift; [apply parses_bool|]; eapply parses_bind_shift; [apply parses_bool|]; cbv beta;
    unfold zlen; rewrite Nat2Z.id; by apply parses_blocks].
  intros pos. cbv beta. rewrite zlen_le_bytes. f_equal. unfold zlen. cbn [length]. lia.
Qed.

(** The results hold what was written, and point to the raw blocks of the message. *)
Lemma infos_at_raw (wn ws : bool) bs : forall pre post,
  Forall block_ok bs ->
  Forall2 (fun bm info =>
      Precision info = m_precision bm /\ Schema info = (if ws then m_schema bm else []) /\
      b_TableName info = (if wn then m_name bm else []) /\
      load (pre ++ concat (block_bytes wn ws <$> bs) ++ post) (RawBlock info) (zlen (m_raw bm)) = Ret (m_raw bm))
    bs (infos_at wn ws bs (zlen pre)).
Proof.
  induction bs as [|bm bs IH]; intros pre post Hok; [constructor|].
  apply Forall_cons_1 in Hok as [Hb Hok]. cbn [fmap list_fmap concat infos_at]. constructor.
  - destruct Hb as (Hh & _). split; [done|]. split; [done|]. split; [done|]. unfold info_at, block_bytes. cbn [RawBlock].
    eapply (load_at _ (pre ++ varint (18 + zlen (m_raw bm)) ++ m_head bm ++ [m_precision bm])); [list_assoc| |done].
    rewrite !zlen_app, Hh. change (zlen [_]) with 1. lia.
  - rewrite <- (zlen_app pre). specialize (IH (pre ++ block_bytes wn ws bm) post Hok).
    eapply Forall2_impl; [exact IH|]. intros bm' info (H1 & H2 & H3 & Hl).
    repeat split; try done. rewrite <- Hl. f_equal. list_assoc.
Qed.

(** C29.  Parsing is the inverse of the TMQ raw data format: for a message (either form of the head)
    anywhere in memory, [Parse] returns one [TMQBlockInfo] per block, in order, with the precision,
    the schema and the table name that were written (when the message carries them) and a pointer
    from which the raw block is read back. *)
Theorem Parse_msg head (wn ws : bool) bs pre post p :
  head_bytes head -> Forall block_ok bs -> zlen bs < 2 ^ 31 ->
  zlen (pre ++ msg_bytes head wn ws bs ++ post) < 2 ^ 63 ->
  exists infos p', Parse (zlen pre) (pre ++ msg_bytes head wn ws bs ++ post) p = Ret (infos, p') /\
    Forall2 (fun bm info =>
      Precision info = m_precision bm /\ Schema info = (if ws then m_schema bm else []) /\
      b_TableName info = (if wn then m_name bm else []) /\
      load (pre ++ msg_bytes head wn ws bs ++ post) (RawBlock info) (zlen (m_raw bm)) = Ret (m_raw bm)) bs infos.
Proof.
  intros Hh Hbs Hn Hm. unfold msg_bytes in *.
  assert (Hp : parses (skipHead ≫= fun _ => parseBlockInfos)
    (head ++ le_bytes 4 (zlen bs) ++ [bool_byte wn] ++ [bool_byte ws] ++ concat (block_bytes wn ws <$> bs))
    (fun pos => infos_at wn ws bs (pos + zlen head + 6))).
  { exact (parses_bind_shift _ (fun _ => parseBlockInfos) _ _ tt _ (parses_head head Hh)
      (parses_infos wn ws bs Hbs Hn)). }
  do 2 eexists. split.
  - unfold Parse, reset. unfold mbind at 1, parse_mbind at 1. rewrite go_bind_ret.
    replace 0 with (zlen pre - zlen pre) at 1 by lia.
    apply Hp; [pose proof (zlen_nonneg pre); lia|exact Hm].
  - pose proof (infos_at_raw wn ws bs (pre ++ head ++ le_bytes 4 (zlen bs) ++ [bool_byte wn] ++ [bool_byte ws])
      post Hbs) as Hr.
    replace (zlen (pre ++ head ++ _)) with (zlen pre + zlen head + 6) in Hr
      by (rewrite !zlen_app, zlen_le_bytes; unfold zlen; cbn [length]; lia).
    eapply Forall2_impl; [exact Hr|]. intros bm info (H1 & H2 & H3 & H4). repeat split; try done.
    rewrite <- H4. f_equal. list_assoc.
Qed.

(** A message of one block with a name and a one-column schema. *)
Definition ex_msg_blocks : list block_msg :=
  [mkBlockMsg (replicate 17 0) 2 [9; 9; 9] 1 [mkSchema 9 0 8 1 [116; 115]] [116; 49]].

Lemma Parse_msg_witness :
  exists infos p', Parse 2 ([7; 7] ++ msg_bytes (le_bytes 1 1 ++ replicate 8 0 ++ le_bytes 1 1 ++ replicate 8 0)
      true true ex_msg_blocks ++ []) NewTMQRawDataParser = Ret (infos, p') /\
    Precision <$> infos = [2] /\ b_TableName <$> infos = [[116; 49]].
Proof.
  destruct (Parse_msg (le_bytes 1 1 ++ replicate 8 0 ++ le_bytes 1 1 ++ replicate 8 0) true true ex_msg_blocks
    [7; 7] [] NewTMQRawDataParser) as (infos & p' & E & H).
  - apply (head_types 1 (replicate 8 0) 1 (replicate 8 0)); left; done.
  - apply Forall_cons_2; [|apply Forall_nil_2]. repeat split; cbn; try lia; try (unfold is_byte; lia);
      repeat first [apply Forall_cons_2 | apply Forall_nil_2]; repeat split; cbn; try (norm_pow; lia);
      repeat first [apply Forall_cons_2 | apply Forall_nil_2]; unfold is_byte; lia.
  - reflexivity.
  - reflexivity.
  - exists infos, p'. split; [exact E|]. vm_compute in E. injection E as <- _. split; reflexivity.
Defined.

(**  Decoding a variable-length integer always terminates: whatever the memory and the cursor,
    the loop ends by returning a value or by running off the memory, never by exhausting its bound
    of one iteration per byte of memory. *)
Theorem parseVariableByteInteger_terminates m p :
  zlen m < 2 ^ 64 ->
  (exists v p', parseVariableByteInteger m p = Ret (v, p')) \/ parseVariableByteInteger m p = Fault.
Proof.
  intros Hm. assert (Hc : 0 <= cursor p) by apply (wrap_u_range 64 (block p + offset p) ltac:(lia)).
  pose proof (varint_loop_terminates (length m) m p 1 0 Hm ltac:(unfold zlen in *; lia)) as Hp.
  pose proof (varint_loop_no_err (S (length m)) m p 1 0) as He. unfold parseVariableByteInteger.
  destruct (varint_loop (S (length m)) 1 0 m p) as [[v p']|e| |]; [left; eauto|by destruct (He e)|done|by right].
Qed.

Lemma parseVariableByteInteger_terminates_witness :
  (exists v p', parseVariableByteInteger [129; 1] (mkParser 0 0) = Ret (v, p')) \/
  parseVariableByteInteger [129; 1] (mkParser 0 0) = Fault.
Proof. apply (parseVariableByteInteger_terminates [129; 1] (mkParser 0 0)). reflexivity. Defined.

End Tmq.
