(* ===== verification/JsonBuilder.v ===== *)
(** * JsonBuilder: the JSON output stream

    Models [src/tools/jsonbuilder]: a [Stream] appends JSON tokens to a buffer.  The integer
    writers work in groups of three digits taken from a table; the string writer escapes in two
    paths; the rune writers encode UTF-8.  [strconv.AppendFloat] is a parameter, floats are their
    IEEE bit patterns, and the [io.Writer] of a stream is a value with a [Write] parameter. *)
From S2P Require Import Prelude Utf8.
#[local] Open Scope Z_scope.

Module Json.

(** ** The stream ([stream.go], [builder.go]) *)

Record JsonConfig := mkJsonConfig { indentionStep : Z }.
Definition NewJsonConfig (step : Z) : JsonConfig := mkJsonConfig step.
Definition defaultConfig : JsonConfig := NewJsonConfig 0.

Record Stream {W : Type} := mkStream {
  cfg : JsonConfig; out : option W; buf : list Z; Error : option error; indention : Z }.
Arguments Stream : clear implicits.
Arguments mkStream {W} cfg out buf Error indention.

Section Stream.
Context {W : Type}.
#[local] Abbreviation stream := (Stream W).

(** [out.Write(p)]: the writer after it, the number of bytes it took and its error. *)
Context (out_Write : W -> list Z -> W * Z * option error).

Definition NewStream (c : JsonConfig) (o : option W) : stream := mkStream c o [] None 0.

Definition Reset (s : stream) (o : option W) : stream := mkStream (cfg s) o [] (Error s) (indention s).

(** [stream.buf = append(stream.buf, bs...)]. *)
Definition WritePure (s : stream) (bs : list Z) : stream :=
  mkStream (cfg s) (out s) (buf s ++ bs) (Error s) (indention s).
Definition set_buf (s : stream) (b : list Z) : stream :=
  mkStream (cfg s) (out s) b (Error s) (indention s).
Definition set_out (s : stream) (o : option W) : stream :=
  mkStream (cfg s) o (buf s) (Error s) (indention s).
Definition set_Error (s : stream) (e : option error) : stream :=
  mkStream (cfg s) (out s) (buf s) e (indention s).
Definition set_indention (s : stream) (n : Z) : stream :=
  mkStream (cfg s) (out s) (buf s) (Error s) n.

Definition Buffered (s : stream) : Z := zlen (buf s).
Definition Buffer (s : stream) : list Z := buf s.
Definition SetBuffer (s : stream) (b : list Z) : stream := set_buf s b.

(** A stream of the pool is reset when borrowed; returning it clears its writer and error. *)
Definition BorrowStream (pooled : stream) (writer : option W) : stream := Reset pooled writer.
Definition ReturnStream (s : stream) : stream := set_Error (set_out s None) None.

Definition Write (s : stream) (p : list Z) : go (stream * Z * option error) :=
  let s := WritePure s p in
  match out s with
  | Some w =>
    let '(w, nn, err) := out_Write w (buf s) in
    rest ← zslice (buf s) nn (zlen (buf s));
    Ret (set_buf (set_out s (Some w)) rest, nn, err)
  | None => Ret (s, zlen p, None)
  end.

Definition Flush (s : stream) : stream * option error :=
  match out s with
  | None => (s, None)
  | Some w =>
    match Error s with
    | Some e => (s, Some e)
    | None =>
      let '(w, _, err) := out_Write w (buf s) in
      let s := set_out s (Some w) in
      match err with
      | Some e => (set_Error s (Some e), Some e)
      | None => (set_buf s [], None)
      end
    end
  end.

Definition writeByte (s : stream) (c : Z) : stream := WritePure s [c].
Definition AddByte := writeByte.
Definition writeTwoBytes (s : stream) (c1 c2 : Z) : stream := WritePure s [c1; c2].
Definition writeThreeBytes (s : stream) (c1 c2 c3 : Z) : stream := WritePure s [c1; c2; c3].
Definition writeFourBytes (s : stream) (c1 c2 c3 c4 : Z) : stream := WritePure s [c1; c2; c3; c4].
Definition writeFiveBytes (s : stream) (c1 c2 c3 c4 c5 : Z) : stream := WritePure s [c1; c2; c3; c4; c5].
Definition WriteRaw (s : stream) (str : list Z) : stream := WritePure s str.
Definition WriteNil (s : stream) : stream := writeFourBytes s 110 117 108 108.
Definition WriteTrue (s : stream) : stream := writeFourBytes s 116 114 117 101.
Definition WriteFalse (s : stream) : stream := writeFiveBytes s 102 97 108 115 101.
Definition WriteBool (s : stream) (val : bool) : stream := if val then WriteTrue s else WriteFalse s.

Definition writeIndention (s : stream) (delta : Z) : stream :=
  if indention s =? 0 then s
  else
    let s := writeByte s 10 in
    let toWrite := indention s - delta in
    WritePure s (replicate (Z.to_nat toWrite) 32).

Definition WriteObjectStart (s : stream) : stream :=
  let s := set_indention s (indention s + indentionStep (cfg s)) in
  writeIndention (writeByte s 123) 0.
Definition WriteObjectEnd (s : stream) : stream :=
  let s := writeIndention s (indentionStep (cfg s)) in
  writeByte (set_indention s (indention s - indentionStep (cfg s))) 125.
Definition WriteEmptyObject (s : stream) : stream := writeByte (writeByte s 123) 125.
Definition WriteMore (s : stream) : stream := writeIndention (writeByte s 44) 0.
Definition WriteArrayStart (s : stream) : stream :=
  let s := set_indention s (indention s + indentionStep (cfg s)) in
  writeIndention (writeByte s 91) 0.
Definition WriteEmptyArray (s : stream) : stream := writeTwoBytes s 91 93.
Definition WriteArrayEnd (s : stream) : stream :=
  let s := writeIndention s (indentionStep (cfg s)) in
  writeByte (set_indention s (indention s - indentionStep (cfg s))) 93.

(** ** Integers ([stream_int.go]) *)

(** The entry [i] of the table: three digits and, in the top byte, how many of them to drop. *)
Definition digit_entry (i : Z) : Z :=
  let d := u32 (u32 (Z.shiftl (i / 100 + 48) 16) + u32 (Z.shiftl ((i / 10) mod 10 + 48) 8) + i mod 10 + 48) in
  if i <? 10 then u32 (d + Z.shiftl 2 24) else if i <? 100 then u32 (d + Z.shiftl 1 24) else d.

Definition digits : list Z := (fun i => digit_entry (Z.of_nat i)) <$> seq 0 1000.

Definition writeFirstBuf (space : list Z) (v : Z) : list Z :=
  let start := Z.shiftr v 24 in
  let space :=
    if start =? 0 then space ++ [byte (Z.shiftr v 16); byte (Z.shiftr v 8)]
    else if start =? 1 then space ++ [byte (Z.shiftr v 8)]
    else space in
  space ++ [byte v].

Definition writeBuf (b : list Z) (v : Z) : list Z :=
  b ++ [byte (Z.shiftr v 16); byte (Z.shiftr v 8); byte v].

(** [stream.buf = writeFirstBuf(stream.buf, digits[i])] and the same with [writeBuf]. *)
Definition put_first (s : stream) (i : Z) : go stream :=
  d ← zget digits i; Ret (set_buf s (writeFirstBuf (buf s) d)).
Definition put_next (s : stream) (i : Z) : go stream :=
  d ← zget digits i; Ret (set_buf s (writeBuf (buf s) d)).

Definition WriteUint8 (s : stream) (val : Z) : go stream := put_first s val.

Definition WriteInt8 (s : stream) (nval : Z) : go stream :=
  if nval <? 0 then
    let val := u8 (i8 (- nval)) in
    put_first (WritePure s [45]) val
  else put_first s (u8 nval).

Definition WriteUint16 (s : stream) (val : Z) : go stream :=
  let q1 := val / 1000 in
  if q1 =? 0 then put_first s val
  else
    let r1 := u16 (val - u16 (q1 * 1000)) in
    s ← put_first s q1; put_next s r1.

Definition WriteInt16 (s : stream) (nval : Z) : go stream :=
  if nval <? 0 then WriteUint16 (WritePure s [45]) (u16 (i16 (- nval))) else WriteUint16 s (u16 nval).

Definition WriteUint32 (s : stream) (val : Z) : go stream :=
  let q1 := val / 1000 in
  if q1 =? 0 then put_first s val
  else
    let r1 := u32 (val - u32 (q1 * 1000)) in
    let q2 := q1 / 1000 in
    if q2 =? 0 then s ← put_first s q1; put_next s r1
    else
      let r2 := u32 (q1 - u32 (q2 * 1000)) in
      let q3 := q2 / 1000 in
      s ← (if q3 =? 0 then put_first s q2
           else
             let r3 := u32 (q2 - u32 (q3 * 1000)) in
             put_next (WritePure s [byte (u32 (q3 + 48))]) r3);
      s ← put_next s r2;
      put_next s r1.

Definition WriteInt32 (s : stream) (nval : Z) : go stream :=
  if nval <? 0 then WriteUint32 (WritePure s [45]) (u32 (i32 (- nval))) else WriteUint32 s (u32 nval).

Definition WriteUint64 (s : stream) (val : Z) : go stream :=
  let q1 := val / 1000 in
  if q1 =? 0 then put_first s val
  else
    let r1 := u64 (val - u64 (q1 * 1000)) in
    let q2 := q1 / 1000 in
    if q2 =? 0 then s ← put_first s q1; put_next s r1
    else
      let r2 := u64 (q1 - u64 (q2 * 1000)) in
      let q3 := q2 / 1000 in
      if q3 =? 0 then s ← put_first s q2; s ← put_next s r2; put_next s r1
      else
        let r3 := u64 (q2 - u64 (q3 * 1000)) in
        let q4 := q3 / 1000 in
        if q4 =? 0 then s ← put_first s q3; s ← put_next s r3; s ← put_next s r2; put_next s r1
        else
          let r4 := u64 (q3 - u64 (q4 * 1000)) in
          let q5 := q4 / 1000 in
          if q5 =? 0 then
            s ← put_first s q4; s ← put_next s r4; s ← put_next s r3; s ← put_next s r2; put_next s r1
          else
            let r5 := u64 (q4 - u64 (q5 * 1000)) in
            let q6 := q5 / 1000 in
            s ← (if q6 =? 0 then put_first s q5
                 else
                   s ← put_first s q6;
                   let r6 := u64 (q5 - u64 (q6 * 1000)) in
                   put_next s r6);
            s ← put_next s r5; s ← put_next s r4; s ← put_next s r3; s ← put_next s r2; put_next s r1.

Definition WriteInt64 (s : stream) (nval : Z) : go stream :=
  if nval <? 0 then WriteUint64 (WritePure s [45]) (u64 (i64 (- nval))) else WriteUint64 s (u64 nval).

Definition WriteInt (s : stream) (val : Z) : go stream := WriteInt64 s (i64 val).
Definition WriteUint (s : stream) (val : Z) : go stream := WriteUint64 s (u64 val).

(** ** Floats ([stream_float.go]) *)

Definition ErrUnsupportedValue : error := "unsupported value"%string.

(** [strconv.AppendFloat(buf, val, fmt, -1, size)]: the text of the float with the given bits. *)
Context (format_float32 format_float64 : Z -> Z -> list Z).

(** An exponent of ones is an infinity or a NaN; on the other absolute values, the order of the
    bit patterns is the order of the floats.  The bounds are the patterns of 1e-6 and 1e21. *)
Definition WriteFloat32 (s : stream) (val : Z) : stream :=
  let abs := val mod 2 ^ 31 in
  if abs >=? 2139095040 then set_Error s (Some ErrUnsupportedValue)
  else
    let fmt := if negb (abs =? 0) && ((abs <? 897988541) || (abs >=? 1649989415)) then 101 else 102 in
    WritePure s (format_float32 val fmt).

Definition WriteFloat64 (s : stream) (val : Z) : stream :=
  let abs := val mod 2 ^ 63 in
  if abs >=? 9218868437227405312 then set_Error s (Some ErrUnsupportedValue)
  else
    let fmt := if negb (abs =? 0) && ((abs <? 4517329193108106637) || (abs >=? 4921056587992461136)) then 101 else 102 in
    WritePure s (format_float64 val fmt).

(** ** Strings ([stream_str.go]) *)

Definition RuneSelf : Z := 128.

(** The ASCII bytes that need no escaping. *)
Definition safeSet : list bool :=
  (fun c => (32 <=? Z.of_nat c) && negb (Z.of_nat c =? 34) && negb (Z.of_nat c =? 92)) <$> seq 0 128.

Definition hex : list Z := bytes_of_string "0123456789abcdef".

(** The bytes the fast path copies. *)
Definition plain (c : Z) : bool := (c >? 31) && negb (c =? 34) && negb (c =? 92).

(** The escape of a byte that is not safe (the [switch] of both writers). *)
Definition write_escape (s : stream) (b : Z) : go stream :=
  if (b =? 92) || (b =? 34) then Ret (writeTwoBytes s 92 b)
  else if b =? 10 then Ret (writeTwoBytes s 92 110)
  else if b =? 13 then Ret (writeTwoBytes s 92 114)
  else if b =? 9 then Ret (writeTwoBytes s 92 116)
  else
    let s := WriteRaw s [92; 117; 48; 48] in
    h ← zget hex (Z.shiftr b 4); l ← zget hex (Z.land b 15);
    Ret (writeTwoBytes s h l).

(** One iteration of the slow path, at index [i], with the bytes from [start] still to be copied. *)
Definition slow_step (str : list Z) (i : Z) (st : stream * Z) : go (stream * Z) :=
  let '(s, start) := st in
  b ← zget str i;
  if b <? RuneSelf then
    safe ← zget safeSet b;
    if (safe : bool) then Ret (s, start)
    else
      s ← (if start <? i then raw ← zslice str start i; Ret (WriteRaw s raw) else Ret s);
      s ← write_escape s b;
      Ret (s, i + 1)
  else Ret (s, start).

Definition writeStringSlowPath (s : stream) (i : Z) (str : list Z) (valLen : Z) : go stream :=
  '(s, start) ← for_loop (Z.to_nat (valLen - i)) i (slow_step str) (s, i);
  s ← (if start <? zlen str then raw ← zslice str start (zlen str); Ret (WriteRaw s raw) else Ret s);
  Ret (writeByte s 34).

(** The fast path: the bytes before the first one that is not plain, and its index. *)
Fixpoint fast_path (s : stream) (i : Z) (rest : list Z) : stream * Z :=
  match rest with
  | c :: rest' => if plain c then fast_path (WritePure s [c]) (i + 1) rest' else (s, i)
  | [] => (s, i)
  end.

Definition WriteString (s : stream) (str : list Z) : go stream :=
  let valLen := zlen str in
  let s := WritePure s [34] in
  let '(s, i) := fast_path s 0 str in
  if i =? valLen then Ret (WritePure s [34]) else writeStringSlowPath s i str valLen.

Definition WriteObjectField (s : stream) (field : list Z) : go stream :=
  s ← WriteString s field;
  Ret (if indention s >? 0 then writeTwoBytes s 58 32 else writeByte s 58).

Definition WriteStringByte (s : stream) (c : Z) : go stream :=
  if plain c then Ret (WritePure s [c])
  else if c <? RuneSelf then
    safe ← zget safeSet c;
    if (safe : bool) then Ret (writeByte s c) else write_escape s c
  else Ret s.

(** ** Runes ([stream_rune.go]) *)

(** The bytes both rune writers emit. *)
Definition rune_bytes (r : Z) : list Z :=
  let i := u32 r in
  if i <=? 127 then [byte r]
  else if i <=? 2047 then
    [Z.lor 192 (byte (Z.shiftr r 6)); Z.lor 128 (Z.land (byte r) 63)]
  else
    let bad := (i >? 1114111) || ((55296 <=? i) && (i <=? 57343)) in
    if bad || (i <=? 65535) then
      let r := if bad then 65533 else r in
      [Z.lor 224 (byte (Z.shiftr r 12)); Z.lor 128 (Z.land (byte (Z.shiftr r 6)) 63); Z.lor 128 (Z.land (byte r) 63)]
    else
      [Z.lor 240 (byte (Z.shiftr r 18)); Z.lor 128 (Z.land (byte (Z.shiftr r 12)) 63);
       Z.lor 128 (Z.land (byte (Z.shiftr r 6)) 63); Z.lor 128 (Z.land (byte r) 63)].

Definition WriteRune (s : stream) (r : Z) : stream := foldl writeByte s (rune_bytes r).

Definition WriteRuneString (s : stream) (r : Z) : go stream :=
  foldl (fun s b => s ← (s : go stream); WriteStringByte s b) (Ret s) (rune_bytes r).

End Stream.

(** ** Decimal numbers *)

Definition is_digit (c : Z) : Prop := 48 <= c <= 57.
Definition dec_val (l : list Z) : Z := foldl (fun a c => a * 10 + (c - 48)) 0 l.

(** [l] is the decimal representation of [v]: its digits denote [v], without leading zeros. *)
Definition is_decimal (l : list Z) (v : Z) : Prop :=
  Forall is_digit l /\ dec_val l = v /\ l <> [] /\ (head l = Some 48 -> l = [48]).

(** A group of three digits. *)
Definition is_group (l : list Z) (v : Z) : Prop := Forall is_digit l /\ length l = 3%nat /\ dec_val l = v.

Lemma dec_val_snoc l c : dec_val (l ++ [c]) = dec_val l * 10 + (c - 48).
Proof. unfold dec_val. by rewrite foldl_app. Qed.

Lemma dec_val_group l k : length k = 3%nat -> dec_val (l ++ k) = dec_val l * 1000 + dec_val k.
Proof.
  intros Hk. destruct k as [|a [|b [|c [|]]]]; try done.
  unfold dec_val. rewrite foldl_app. cbn. lia.
Qed.

Lemma is_decimal_group l k q r :
  is_decimal l q -> 0 < q -> is_group k r -> is_decimal (l ++ k) (q * 1000 + r).
Proof.
  intros (Hd & Hv & Hne & Hz) Hq (Hkd & Hk & Hkv). split; [by apply Forall_app|].
  split; [by rewrite dec_val_group, Hv, Hkv|]. split; [by destruct l|].
  intros Hh. destruct l as [|c l]; [done|]. exfalso.
  assert (E : c :: l = [48]) by (apply Hz; cbn in Hh; done). rewrite E in Hv. unfold dec_val in Hv. cbn in Hv. lia.
Qed.

(** What the table holds, for every entry. *)
Definition digit_b (c : Z) : bool := (48 <=? c) && (c <=? 57).
Definition check_entry (i : nat) : bool :=
  match digits !! i with
  | None => false
  | Some d =>
    let l := writeFirstBuf [] d in
    let k := writeBuf [] d in
    forallb digit_b l && (dec_val l =? Z.of_nat i) && negb (length l =? 0)%nat &&
    (negb (bool_decide (head l = Some 48)) || bool_decide (l = [48])) &&
    forallb digit_b k && (length k =? 3)%nat && (dec_val k =? Z.of_nat i)
  end.

Lemma check_entries : forallb check_entry (seq 0 1000) = true.
Proof. vm_compute. reflexivity. Qed.

Lemma digit_b_spec l : forallb digit_b l = true -> Forall is_digit l.
Proof.
  intros H. apply Forall_forall. intros c Hc. rewrite forallb_forall in H.
  apply list_elem_of_In, H in Hc. unfold digit_b, is_digit in *. lia.
Qed.

Lemma digits_entry i : 0 <= i < 1000 ->
  exists d, zget digits i = Ret d /\ is_decimal (writeFirstBuf [] d) i /\ is_group (writeBuf [] d) i.
Proof.
  intros Hi. pose proof check_entries as H. rewrite forallb_forall in H.
  specialize (H (Z.to_nat i)). unfold check_entry in H.
  destruct (digits !! Z.to_nat i) as [d|] eqn:Ed; [|discriminate H; apply in_seq; lia].
  exists d. split; [apply zget_Ret; split; [lia|done]|].
  assert (Hc : In (Z.to_nat i) (seq 0 1000)) by (apply in_seq; lia). specialize (H Hc). cbv zeta in H.
  rewrite !andb_true_iff, orb_true_iff, !negb_true_iff in H.
  destruct H as ((((((H1 & H2) & H3) & H4) & H5) & H6) & H7).
  apply Z.eqb_eq in H2, H7. rewrite Z2Nat.id in H2, H7 by lia. repeat split.
  - by apply digit_b_spec.
  - exact H2.
  - intros E. by rewrite E in H3.
  - intros E. destruct H4 as [H4|H4]; [by apply bool_decide_eq_false in H4|by apply bool_decide_eq_true in H4].
  - by apply digit_b_spec.
  - exact H7.
Qed.

Lemma writeFirstBuf_app b d : writeFirstBuf b d = b ++ writeFirstBuf [] d.
Proof. unfold writeFirstBuf. destruct (_ =? 0); [|destruct (_ =? 1)]; by rewrite <- ?app_assoc. Qed.

Lemma writeBuf_app b d : writeBuf b d = b ++ writeBuf [] d.
Proof. done. Qed.

Section Props.
Context {W : Type}.
#[local] Abbreviation stream := (Stream W).

(** The outcome appends the decimal representation of [v] to [s]. *)
Definition writes_dec (s : stream) (x : go stream) (v : Z) : Prop :=
  exists l, x = Ret (WritePure s l) /\ is_decimal l v.

Lemma put_first_dec (s : stream) i : 0 <= i < 1000 -> writes_dec s (put_first s i) i.
Proof.
  intros Hi. destruct (digits_entry i Hi) as (d & Hd & Hdec & _). exists (writeFirstBuf [] d).
  split; [|done]. unfold put_first. rewrite Hd. cbn [mbind go_mbind]. by rewrite writeFirstBuf_app.
Qed.

Lemma WritePure_WritePure (s : stream) a b : WritePure (WritePure s a) b = WritePure s (a ++ b).
Proof. unfold WritePure. cbn. by rewrite app_assoc. Qed.

Lemma put_next_dec (s : stream) x q r :
  writes_dec s x q -> 0 < q -> 0 <= r < 1000 -> writes_dec s (x ≫= fun s => put_next s r) (q * 1000 + r).
Proof.
  intros (l & -> & Hl) Hq Hr. destruct (digits_entry r Hr) as (d & Hd & _ & Hg).
  exists (l ++ writeBuf [] d). rewrite go_bind_ret. unfold put_next. rewrite Hd, go_bind_ret. split.
  - change (set_buf ?s (writeBuf (buf ?s) d)) with (WritePure s (writeBuf [] d)). by rewrite WritePure_WritePure.
  - by apply is_decimal_group.
Qed.

(** The remainder of a division by 1000 in unsigned arithmetic. *)
Lemma rem_1000 w v : 0 < w -> in_u w v -> wrap_u w (v - wrap_u w (v / 1000 * 1000)) = v mod 1000.
Proof.
  intros Hw [H1 H2]. pose proof (Z.div_mod v 1000 ltac:(lia)). pose proof (Z.mod_pos_bound v 1000 ltac:(lia)).
  pose proof (Z.div_pos v 1000 H1 ltac:(lia)).
  rewrite (wrap_u_id w (v / 1000 * 1000)) by (unfold in_u; lia). rewrite wrap_u_id by (unfold in_u; lia). lia.
Qed.

Lemma put_next_div (s : stream) x v :
  writes_dec s x (v / 1000) -> 0 < v / 1000 ->
  writes_dec s (x ≫= fun s => put_next s (v mod 1000)) v.
Proof.
  intros Hx Hq. pose proof (Z.mod_pos_bound v 1000 ltac:(lia)) as Hr.
  pose proof (put_next_dec s x _ _ Hx Hq Hr) as H.
  by replace (v / 1000 * 1000 + v mod 1000) with v in H by (pose proof (Z.div_mod v 1000 ltac:(lia)); lia).
Qed.

Lemma put_first_small (s : stream) v : 0 <= v -> v / 1000 = 0 -> writes_dec s (put_first s v) v.
Proof. intros H0 Hq. apply put_first_dec. pose proof (Z.div_mod v 1000 ltac:(lia)). 
  pose proof (Z.mod_pos_bound v 1000 ltac:(lia)). lia. Qed.

(** Solves a chain of [put_next] after a first group. *)
Ltac dec_chain :=
  rewrite <- ?go_bind_assoc;
  repeat (apply put_next_div; [|lia]);
  first [apply put_first_small; lia | apply put_first_dec; lia].

Lemma div_range w v : 0 < w -> in_u w v -> in_u w (v / 1000).
Proof.
  intros Hw [H1 H2]. split; [apply Z.div_pos; lia|]. apply Z.le_lt_trans with v; [|done].
  apply Z.div_le_upper_bound; lia.
Qed.

Lemma WriteUint16_dec (s : stream) v : in_u 16 v -> writes_dec s (WriteUint16 s v) v.
Proof.
  intros Hv. pose proof (div_range 16 v ltac:(lia) Hv) as H1. unfold WriteUint16. cbv zeta.
  rewrite rem_1000 by (done || lia). unfold in_u in *.
  destruct (Z.eqb_spec (v / 1000) 0); [dec_chain|].
  apply put_next_div; [|lia]. apply put_first_dec. norm_pow. div_lia.
Qed.

Lemma WriteUint32_dec (s : stream) v : in_u 32 v -> writes_dec s (WriteUint32 s v) v.
Proof.
  intros Hv. pose proof (div_range 32 v ltac:(lia) Hv) as H1.
  pose proof (div_range 32 _ ltac:(lia) H1) as H2. unfold WriteUint32. cbv zeta.
  rewrite !rem_1000 by (done || lia). unfold in_u in *.
  destruct (Z.eqb_spec (v / 1000) 0); [dec_chain|].
  destruct (Z.eqb_spec (v / 1000 / 1000) 0); [dec_chain|].
  rewrite <- !go_bind_assoc. do 2 (apply put_next_div; [|lia]).
  destruct (Z.eqb_spec (v / 1000 / 1000 / 1000) 0); [apply put_first_small; lia|].
  set (q3 := v / 1000 / 1000 / 1000) in *. assert (Hq3 : 0 < q3 < 10).
  { split; [|unfold q3; norm_pow; div_lia]. assert (0 <= q3) by (unfold q3; div_lia). lia. }
  rewrite <- (go_bind_ret (WritePure s [byte (u32 (q3 + 48))]) (fun s => put_next s _)).
  apply put_next_div; [|unfold q3 in *; lia]. fold q3. exists [byte (u32 (q3 + 48))]. split; [done|].
  rewrite (wrap_u_id 32), (wrap_u_id 8) by (unfold in_u; norm_pow; lia).
  split; [constructor; [unfold is_digit; lia|done]|]. split; [unfold dec_val; cbn; lia|]. split; [done|].
  cbn. intros [= E]. lia.
Qed.

Lemma WriteUint64_dec (s : stream) v : in_u 64 v -> writes_dec s (WriteUint64 s v) v.
Proof.
  intros Hv. pose proof (div_range 64 v ltac:(lia) Hv) as H1.
  pose proof (div_range 64 _ ltac:(lia) H1) as H2. pose proof (div_range 64 _ ltac:(lia) H2) as H3.
  pose proof (div_range 64 _ ltac:(lia) H3) as H4. pose proof (div_range 64 _ ltac:(lia) H4) as H5.
  unfold WriteUint64. cbv zeta. rewrite !rem_1000 by (done || lia). unfold in_u in *.
  assert (Hq5 : v / 1000 / 1000 / 1000 / 1000 / 1000 < 100000).
  { rewrite !Z.div_div by lia. norm_pow. apply Z.div_lt_upper_bound; lia. }
  do 5 (let E := fresh "E" in case_if E; [apply Z.eqb_eq in E; dec_chain|apply Z.eqb_neq in E]).
  rewrite <- !go_bind_assoc. do 5 (apply put_next_div; [|lia]).
  case_if E6; [apply Z.eqb_eq in E6; apply put_first_small; lia|apply Z.eqb_neq in E6].
  assert (0 <= v / 1000 / 1000 / 1000 / 1000 / 1000 / 1000) by (apply Z.div_pos; lia).
  apply put_next_div; [|lia]. apply put_first_dec. split; [lia|]. apply Z.div_lt_upper_bound; lia.
Qed.

(** ** Signed integers *)

Definition is_integer (l : list Z) (v : Z) : Prop :=
  if v <? 0 then exists l', l = 45 :: l' /\ is_decimal l' (- v) else is_decimal l v.

Definition writes_int (s : stream) (x : go stream) (v : Z) : Prop :=
  exists l, x = Ret (WritePure s l) /\ is_integer l v.

(** The absolute value in the code's arithmetic, the minimum of the type included. *)
Lemma neg_abs w v : 0 < w -> in_s w v -> v < 0 -> wrap_u w (wrap_s w (- v)) = - v.
Proof.
  intros Hw [H1 H2] Hv. unfold wrap_u, wrap_s. rewrite Zminus_mod_idemp_l.
  replace (- v + 2 ^ (w - 1) - 2 ^ (w - 1)) with (- v) by lia. apply Z.mod_small.
  pose proof (pow_half w Hw). lia.
Qed.

Lemma writes_unsigned s x v : 0 <= v -> writes_dec s x v -> writes_int s x v.
Proof.
  intros Hv (l & Hx & Hl). exists l. split; [done|]. unfold is_integer.
  by rewrite (proj2 (Z.ltb_ge v 0)) by lia.
Qed.

Lemma writes_signed w s v (f : stream -> Z -> go stream) :
  0 < w -> in_s w v -> (forall s u, in_u w u -> writes_dec s (f s u) u) ->
  writes_int s (if v <? 0 then f (WritePure s [45]) (wrap_u w (wrap_s w (- v))) else f s (wrap_u w v)) v.
Proof.
  intros Hw Hv Hf. pose proof (pow_half w Hw). destruct (Z.ltb_spec v 0) as [Hn|Hp].
  - rewrite neg_abs by done. destruct (Hf (WritePure s [45]) (- v)) as (l & E & Hl);
      [unfold in_u, in_s in *; lia|].
    exists (45 :: l). split; [by rewrite E, WritePure_WritePure|]. unfold is_integer.
    rewrite (proj2 (Z.ltb_lt v 0)) by lia. by exists l.
  - assert (Hu : in_u w v) by (unfold in_u, in_s in *; lia).
    rewrite wrap_u_id by done. apply writes_unsigned; [lia|by apply Hf].
Qed.

Lemma WriteUint8_dec (s : stream) v : in_u 8 v -> writes_dec s (WriteUint8 s v) v.
Proof. intros [H1 H2]. apply put_first_dec. norm_pow. lia. Qed.

Lemma WriteUint8_int (s : stream) v : in_u 8 v -> writes_int s (WriteUint8 s v) v.
Proof. intros Hv. apply writes_unsigned; [apply Hv|by apply WriteUint8_dec]. Qed.
Lemma WriteUint16_int (s : stream) v : in_u 16 v -> writes_int s (WriteUint16 s v) v.
Proof. intros Hv. apply writes_unsigned; [apply Hv|by apply WriteUint16_dec]. Qed.
Lemma WriteUint32_int (s : stream) v : in_u 32 v -> writes_int s (WriteUint32 s v) v.
Proof. intros Hv. apply writes_unsigned; [apply Hv|by apply WriteUint32_dec]. Qed.
Lemma WriteUint64_int (s : stream) v : in_u 64 v -> writes_int s (WriteUint64 s v) v.
Proof. intros Hv. apply writes_unsigned; [apply Hv|by apply WriteUint64_dec]. Qed.
Lemma WriteInt8_int (s : stream) v : in_s 8 v -> writes_int s (WriteInt8 s v) v.
Proof. intros Hv. apply (writes_signed 8 s v WriteUint8); [lia|done|apply WriteUint8_dec]. Qed.
Lemma WriteInt16_int (s : stream) v : in_s 16 v -> writes_int s (WriteInt16 s v) v.
Proof. intros Hv. apply (writes_signed 16 s v WriteUint16); [lia|done|apply WriteUint16_dec]. Qed.
Lemma WriteInt32_int (s : stream) v : in_s 32 v -> writes_int s (WriteInt32 s v) v.
Proof. intros Hv. apply (writes_signed 32 s v WriteUint32); [lia|done|apply WriteUint32_dec]. Qed.
Lemma WriteInt64_int (s : stream) v : in_s 64 v -> writes_int s (WriteInt64 s v) v.
Proof. intros Hv. apply (writes_signed 64 s v WriteUint64); [lia|done|apply WriteUint64_dec]. Qed.

(**  Every integer writer of the stream appends the decimal representation of its argument,
    for all values of its type: the digits denote the value, there is no leading zero, and a
    negative value (the minimum of the type included) has a minus sign. *)
Theorem WriteInt_decimal (s : stream) (v : Z) :
  (in_u 8 v -> writes_int s (WriteUint8 s v) v) /\ (in_s 8 v -> writes_int s (WriteInt8 s v) v) /\
  (in_u 16 v -> writes_int s (WriteUint16 s v) v) /\ (in_s 16 v -> writes_int s (WriteInt16 s v) v) /\
  (in_u 32 v -> writes_int s (WriteUint32 s v) v) /\ (in_s 32 v -> writes_int s (WriteInt32 s v) v) /\
  (in_u 64 v -> writes_int s (WriteUint64 s v) v) /\ (in_s 64 v -> writes_int s (WriteInt64 s v) v) /\
  (in_u 64 v -> writes_int s (WriteUint s v) v) /\ (in_s 64 v -> writes_int s (WriteInt s v) v).
Proof.
  repeat split; intros Hv.
  - by apply WriteUint8_int.
  - by apply WriteInt8_int.
  - by apply WriteUint16_int.
  - by apply WriteInt16_int.
  - by apply WriteUint32_int.
  - by apply WriteInt32_int.
  - by apply WriteUint64_int.
  - by apply WriteInt64_int.
  - unfold WriteUint. rewrite wrap_u_id by done. by apply WriteUint64_int.
  - unfold WriteInt. rewrite wrap_s_id by (done || lia). by apply WriteInt64_int.
Qed.

(** ** Strings *)

(** The JSON escape of a byte. *)
Definition escape (b : Z) : list Z :=
  if (b =? 92) || (b =? 34) then [92; b]
  else if b =? 10 then [92; 110]
  else if b =? 13 then [92; 114]
  else if b =? 9 then [92; 116]
  else if b <? 32 then [92; 117; 48; 48; default 0 (hex !! Z.to_nat (b / 16)); default 0 (hex !! Z.to_nat (b mod 16))]
  else [b].

Definition escape_string (str : list Z) : list Z := concat (escape <$> str).

Lemma escape_plain b : plain b = true -> escape b = [b].
Proof.
  unfold plain, escape. intros H. rewrite !andb_true_iff, !negb_true_iff, !Z.eqb_neq in H.
  destruct H as [[H1 H2] H3]. rewrite (proj2 (Z.eqb_neq b 92)), (proj2 (Z.eqb_neq b 34)) by lia.
  cbn [orb]. rewrite (proj2 (Z.eqb_neq b 10)), (proj2 (Z.eqb_neq b 13)), (proj2 (Z.eqb_neq b 9)),
    (proj2 (Z.ltb_ge b 32)) by lia. done.
Qed.

Lemma zget_safeSet b : 0 <= b < 128 -> zget safeSet b = Ret (plain b).
Proof.
  intros Hb. apply zget_Ret. split; [lia|]. unfold safeSet. rewrite list_lookup_fmap, lookup_seq_lt by lia.
  cbn [fmap option_fmap option_map]. rewrite Nat.add_0_l, Z2Nat.id by lia. f_equal. unfold plain.
  rewrite Z.gtb_ltb. destruct (Z.leb_spec 32 b), (Z.ltb_spec 31 b); try lia; done.
Qed.

Lemma write_escape_spec (s : stream) b :
  0 <= b < 128 -> plain b = false -> write_escape s b = Ret (WritePure s (escape b)).
Proof.
  intros Hb Hp. unfold write_escape, escape. destruct ((b =? 92) || (b =? 34)) eqn:E1; [done|].
  destruct (b =? 10); [done|]. destruct (b =? 13); [done|]. destruct (b =? 9); [done|].
  apply orb_false_iff in E1 as [E1 E2]. unfold plain in Hp. rewrite E1, E2 in Hp. cbn [negb] in Hp.
  rewrite !andb_true_r in Hp. rewrite (proj2 (Z.ltb_lt b 32)) by lia.
  rewrite Z.shiftr_div_pow2 by lia. change (2 ^ 4) with 16.
  replace (Z.land b 15) with (b mod 16) by (change 15 with (Z.ones 4); by rewrite Z.land_ones by lia).
  assert (Hget : forall i, 0 <= i < 16 -> zget hex i = Ret (default 0 (hex !! Z.to_nat i))).
  { intros i Hi. assert (Hl : (Z.to_nat i < length hex)%nat) by (change (length hex) with 16%nat; lia).
    apply lookup_lt_is_Some_2 in Hl as [x Hx]. rewrite Hx. apply zget_Ret. split; [lia|done]. }
  rewrite !Hget by (split; [apply Z.div_pos || apply Z.mod_pos_bound; lia|
    first [apply Z.div_lt_upper_bound; lia | apply Z.mod_pos_bound; lia]]).
  cbn [mbind go_mbind]. unfold writeTwoBytes, WriteRaw. by rewrite WritePure_WritePure.
Qed.

(** The fast path stops at the first byte to escape. *)
Lemma fast_path_spec (s : stream) i str :
  exists pre post, str = pre ++ post /\ fast_path s i str = (WritePure s pre, i + zlen pre) /\
    forallb plain pre = true.
Proof.
  revert s i. induction str as [|c str IH]; intros s i; cbn [fast_path].
  - exists [], []. destruct s. cbn. change (zlen []) with 0. unfold WritePure. cbn. by rewrite app_nil_r, Z.add_0_r.
  - destruct (plain c) eqn:Ec.
    + destruct (IH (WritePure s [c]) (i + 1)) as (pre & post & -> & Hf & Hp).
      exists (c :: pre), post. rewrite Hf, WritePure_WritePure, zlen_cons. cbn [forallb]. rewrite Ec.
      repeat split; try done. f_equal. lia.
    + exists [], (c :: str). destruct s. cbn. change (zlen []) with 0. unfold WritePure. cbn.
      by rewrite app_nil_r, Z.add_0_r.
Qed.

Lemma escape_string_plain str : forallb plain str = true -> escape_string str = str.
Proof.
  unfold escape_string. induction str as [|c str IH]; [done|]. cbn [forallb fmap list_fmap concat].
  intros [Hc Hs]%andb_prop. by rewrite escape_plain, IH.
Qed.

Lemma escape_string_app a b : escape_string (a ++ b) = escape_string a ++ escape_string b.
Proof. unfold escape_string. by rewrite fmap_app, concat_app. Qed.

Lemma WritePure_nil (s : stream) : WritePure s [] = s.
Proof. destruct s. unfold WritePure. cbn. by rewrite app_nil_r. Qed.

Lemma zslice_mid {A} (pre l post : list A) lo hi :
  lo = zlen pre -> hi = zlen pre + zlen l -> zslice (pre ++ l ++ post) lo hi = Ret l.
Proof.
  intros -> ->. unfold zslice. pose proof (zlen_nonneg pre). pose proof (zlen_nonneg l). pose proof (zlen_nonneg post).
  rewrite bool_decide_eq_true_2 by (rewrite !zlen_app; lia).
  rewrite zdrop_app_len by done. f_equal. apply ztake_app_len. lia.
Qed.

Lemma slow_step_at str i (s : stream) start b :
  zget str i = Ret b ->
  slow_step str i (s, start) =
  if b <? RuneSelf then
    safe ← zget safeSet b;
    if (safe : bool) then Ret (s, start)
    else
      s ← (if start <? i then raw ← zslice str start i; Ret (WriteRaw s raw) else Ret s);
      s ← write_escape s b;
      Ret (s, i + 1)
  else Ret (s, start).
Proof. intros H. unfold slow_step. by rewrite H. Qed.

(** The slow path: the bytes before [start] are written, those from [start] on are plain. *)
Lemma slow_loop str : forall rest dn mid (s : stream),
  str = dn ++ mid ++ rest -> forallb plain mid = true -> is_bytes rest ->
  exists s' dn' mid', for_loop (length rest) (zlen (dn ++ mid)) (slow_step str) (s, zlen dn) = Ret (s', zlen dn') /\
    str = dn' ++ mid' /\ WritePure s' mid' = WritePure s (escape_string (mid ++ rest)).
Proof.
  induction rest as [|b rest IH]; intros dn mid s Hs Hm Hb.
  { exists s, dn, mid. cbn [length for_loop]. rewrite !app_nil_r in *. by rewrite escape_string_plain. }
  apply Forall_cons_1 in Hb as [Hb Hr]. cbn [length for_loop].
  assert (Hget : zget str (zlen (dn ++ mid)) = Ret b) by (rewrite Hs, (app_assoc dn); apply zget_middle).
  rewrite (slow_step_at _ _ _ _ _ Hget). unfold is_byte in Hb.
  assert (Hkeep : plain b = true ->
    exists s' dn' mid', for_loop (length rest) (zlen (dn ++ mid) + 1) (slow_step str) (s, zlen dn) = Ret (s', zlen dn') /\
    str = dn' ++ mid' /\ WritePure s' mid' = WritePure s (escape_string (mid ++ b :: rest))).
  { intros Hp. destruct (IH dn (mid ++ [b]) s) as (s' & dn' & mid' & Hl & H1 & H2).
    - rewrite Hs. list_assoc.
    - rewrite forallb_app, Hm. cbn. by rewrite Hp.
    - done.
    - rewrite app_assoc, zlen_snoc in Hl. exists s', dn', mid'. split; [exact Hl|]. split; [done|].
      rewrite H2. f_equal. f_equal. list_assoc. }
  destruct (Z.ltb_spec b RuneSelf) as [Hlt|Hge]; unfold RuneSelf in *.
  - rewrite zget_safeSet, go_bind_ret by lia. destruct (plain b) eqn:Hp; [by apply Hkeep|].
    assert (Hraw : (if zlen dn <? zlen (dn ++ mid) then raw ← zslice str (zlen dn) (zlen (dn ++ mid));
        Ret (WriteRaw s raw) else Ret s) = Ret (WritePure s mid)).
    { rewrite zlen_app. destruct mid as [|c mid].
      - change (zlen []) with 0. rewrite Z.add_0_r, Z.ltb_irrefl. by rewrite WritePure_nil.
      - rewrite zlen_cons, (proj2 (Z.ltb_lt _ _)) by (pose proof (zlen_nonneg mid); lia).
        rewrite Hs, zslice_mid by (done || by rewrite zlen_cons). done. }
    rewrite Hraw, go_bind_ret, write_escape_spec, go_bind_ret by (done || lia).
    destruct (IH (dn ++ mid ++ [b]) [] (WritePure (WritePure s mid) (escape b))) as (s' & dn' & mid' & Hl & H1 & H2).
    + rewrite Hs. list_assoc.
    + done.
    + done.
    + rewrite app_nil_r in Hl. rewrite (app_assoc dn mid [b]), zlen_snoc in Hl.
      exists s', dn', mid'. split; [exact Hl|]. split; [done|]. rewrite H2, !WritePure_WritePure.
      f_equal. rewrite !escape_string_app, (escape_string_plain mid) by done. cbn. list_assoc.
  - apply Hkeep. unfold plain. rewrite (proj2 (Z.eqb_neq b 34)), (proj2 (Z.eqb_neq b 92)) by lia.
    rewrite Z.gtb_ltb, (proj2 (Z.ltb_lt 31 b)) by lia. done.
Qed.

Lemma WriteString_spec (s : stream) str :
  is_bytes str -> WriteString s str = Ret (WritePure s (34 :: escape_string str ++ [34])).
Proof.
  intros Hb. unfold WriteString. cbv zeta.
  destruct (fast_path_spec (WritePure s [34]) 0 str) as (pre & post & Hs & Hf & Hp).
  rewrite Hf, Z.add_0_l. destruct (Z.eqb_spec (zlen pre) (zlen str)) as [He|Hne].
  - destruct post as [|c post]; [|rewrite Hs, zlen_app, zlen_cons in He; pose proof (zlen_nonneg post); lia].
    rewrite app_nil_r in Hs. subst str. rewrite escape_string_plain by done. by rewrite !WritePure_WritePure.
  - unfold writeStringSlowPath.
    replace (Z.to_nat (zlen str - zlen pre)) with (length post)
      by (rewrite Hs, zlen_app; unfold zlen; lia).
    assert (Hbp : is_bytes post) by (rewrite Hs in Hb; by apply Forall_app in Hb as [_ ?]).
    destruct (slow_loop str post pre [] (WritePure (WritePure s [34]) pre)) as (s' & dn' & mid' & Hl & H1 & H2);
      [by rewrite Hs|done|done|].
    rewrite app_nil_r in Hl. rewrite Hl, go_bind_ret.
    assert (Hraw : (if zlen dn' <? zlen str then raw ← zslice str (zlen dn') (zlen str); Ret (WriteRaw s' raw)
        else Ret s') = Ret (WritePure s' mid')).
    { rewrite H1, zlen_app. destruct mid' as [|c mid'].
      - change (zlen []) with 0. rewrite Z.add_0_r, Z.ltb_irrefl. by rewrite WritePure_nil.
      - rewrite zlen_cons, (proj2 (Z.ltb_lt _ _)) by (pose proof (zlen_nonneg mid'); lia).
        rewrite <- (app_nil_r (c :: mid')) at 1. rewrite zslice_mid by (done || by rewrite zlen_cons). done. }
    rewrite Hraw, go_bind_ret, H2. unfold writeByte. rewrite !WritePure_WritePure. f_equal. f_equal.
    rewrite app_nil_l, Hs, escape_string_app, (escape_string_plain pre) by done. list_assoc.
Qed.

Lemma WriteStringByte_spec (s : stream) c :
  is_byte c -> WriteStringByte s c = Ret (WritePure s (escape c)).
Proof.
  intros Hc. unfold WriteStringByte, is_byte in *. destruct (plain c) eqn:Hp; [by rewrite escape_plain|].
  assert (Hlt : c < 128).
  { unfold plain in Hp. destruct (Z.lt_ge_cases c 128); [done|].
    rewrite (proj2 (Z.eqb_neq c 34)), (proj2 (Z.eqb_neq c 92)) in Hp by lia. cbn in Hp. lia. }
  unfold RuneSelf. rewrite (proj2 (Z.ltb_lt c 128)) by done.
  rewrite zget_safeSet, go_bind_ret by lia. rewrite Hp. apply write_escape_spec; [lia|done].
Qed.

(** ** Reading a JSON string back *)

Definition hex_val (c : Z) : option Z :=
  if (48 <=? c) && (c <=? 57) then Some (c - 48)
  else if (97 <=? c) && (c <=? 102) then Some (c - 87)
  else if (65 <=? c) && (c <=? 70) then Some (c - 55)
  else None.

(** A JSON string after its opening quote (RFC 8259): its contents and the text after its closing
    quote.  Control characters must be escaped; [\uXXXX] denotes the UTF-8 encoding of XXXX. *)
Fixpoint scan_string (l : list Z) : option (list Z * list Z) :=
  match l with
  | [] => None
  | 34 :: l => Some ([], l)
  | 92 :: 110 :: l => '(s, r) ← scan_string l; Some (10 :: s, r)
  | 92 :: 114 :: l => '(s, r) ← scan_string l; Some (13 :: s, r)
  | 92 :: 116 :: l => '(s, r) ← scan_string l; Some (9 :: s, r)
  | 92 :: 98 :: l => '(s, r) ← scan_string l; Some (8 :: s, r)
  | 92 :: 102 :: l => '(s, r) ← scan_string l; Some (12 :: s, r)
  | 92 :: 92 :: l => '(s, r) ← scan_string l; Some (92 :: s, r)
  | 92 :: 34 :: l => '(s, r) ← scan_string l; Some (34 :: s, r)
  | 92 :: 47 :: l => '(s, r) ← scan_string l; Some (47 :: s, r)
  | 92 :: 117 :: a :: b :: c :: d :: l =>
    a ← hex_val a; b ← hex_val b; c ← hex_val c; d ← hex_val d;
    '(s, r) ← scan_string l; Some (encode_rune (((a * 16 + b) * 16 + c) * 16 + d) ++ s, r)
  | 92 :: _ => None
  | c :: l => if c <? 32 then None else '(s, r) ← scan_string l; Some (c :: s, r)
  end.

(** The JSON string parser inverts the escape of every byte. *)
Definition scan_ok (b : Z) : bool :=
  match escape b with
  | [c] => (c =? b) && negb (c =? 34) && negb (c =? 92) && negb (c <? 32)
  | [e; c] => (e =? 92) && ((c =? 110) && (b =? 10) || (c =? 114) && (b =? 13) || (c =? 116) && (b =? 9) ||
                            (c =? 92) && (b =? 92) || (c =? 34) && (b =? 34))
  | [e; u; x; y; c; d] =>
    (e =? 92) && (u =? 117) && (x =? 48) && (y =? 48) &&
    match hex_val c, hex_val d with Some h, Some l => (h * 16 + l =? b) && (b <? 128) | _, _ => false end
  | _ => false
  end.

Lemma scan_ok_all : forallb (fun n => scan_ok (Z.of_nat n)) (seq 0 256) = true.
Proof. vm_compute. reflexivity. Qed.

Lemma scan_plain c l : (c =? 34) = false -> (c =? 92) = false ->
  scan_string (c :: l) = if c <? 32 then None else '(s, r) ← scan_string l; Some (c :: s, r).
Proof.
  intros H1 H2. cbn [scan_string]. destruct c as [|p|p]; try done.
  repeat (destruct p as [p|p|]; try done).
Qed.

Lemma scan_escape b l : is_byte b ->
  scan_string (escape b ++ l) = ('(s, r) ← scan_string l; Some (b :: s, r)).
Proof.
  intros Hb. assert (H : scan_ok b = true).
  { pose proof scan_ok_all as Ha. rewrite forallb_forall in Ha. specialize (Ha (Z.to_nat b)).
    rewrite Z2Nat.id in Ha by (unfold is_byte in Hb; lia). apply Ha, in_seq. unfold is_byte in Hb. lia. }
  unfold scan_ok in H. destruct (escape b) as [|x1 [|x2 [|x3 [|x4 [|x5 [|x6 [|]]]]]]]; try discriminate.
  - rewrite !andb_true_iff, !negb_true_iff, Z.eqb_eq in H. destruct H as (((-> & H1) & H2) & H3).
    cbn [app]. rewrite scan_plain by done. by rewrite H3.
  - rewrite andb_true_iff, !orb_true_iff, !andb_true_iff, !Z.eqb_eq in H.
    destruct H as [-> [[[[[-> ->]|[-> ->]]|[-> ->]]|[-> ->]]|[-> ->]]]; done.
  - rewrite !andb_true_iff, !Z.eqb_eq in H. destruct H as ((((-> & ->) & ->) & ->) & H).
    cbn [app scan_string]. destruct (hex_val x5) as [h|]; [|done]. destruct (hex_val x6) as [d|]; [|done].
    apply andb_true_iff in H as [H1 H2]. apply Z.eqb_eq in H1. apply Z.ltb_lt in H2.
    cbn [mbind option_bind hex_val]. change (hex_val 48) with (Some 0). cbn [mbind option_bind].
    replace (((0 * 16 + 0) * 16 + h) * 16 + d) with b by lia.
    destruct (scan_string l) as [[s r]|]; [|done]. cbn [mbind option_bind].
    unfold encode_rune, is_scalar, encode_scalar, MaxRune, is_byte in *.
    rewrite (proj2 (Z.leb_le 0 b)), (proj2 (Z.leb_le b 1114111)), (proj2 (Z.leb_gt 55296 b)) by lia.
    cbn [andb negb]. by rewrite (proj2 (Z.leb_le b 127)) by lia.
Qed.

Lemma scan_escape_string str rest : is_bytes str -> scan_string (escape_string str ++ 34 :: rest) = Some (str, rest).
Proof.
  intros Hb. induction Hb as [|b str Hb _ IH]; [done|]. unfold escape_string in *.
  cbn [fmap list_fmap concat]. rewrite <- app_assoc, scan_escape by done. by rewrite IH.
Qed.

(** C38.  [WriteString], with its fast path and its slow path, appends a JSON string that every JSON
    reader reads back as the given bytes: a quote, then text that the scanner of RFC 8259 strings
    reads as [str] up to its closing quote, leaving what follows untouched. *)
Theorem WriteString_scan (s : stream) str rest :
  is_bytes str ->
  exists body, WriteString s str = Ret (WritePure s (34 :: body)) /\
    scan_string (body ++ rest) = Some (str, rest).
Proof.
  intros Hb. exists (escape_string str ++ [34]). split; [by apply WriteString_spec|].
  rewrite <- app_assoc. by apply scan_escape_string.
Qed.

(** ** Runes *)

(** Setting the high bits of a UTF-8 byte, checked for every payload. *)
Definition lor_ok (p : Z * nat) : bool :=
  forallb (fun k => Z.lor (fst p) (Z.of_nat k) =? fst p + Z.of_nat k) (seq 0 (snd p)).

Lemma lor_tag t n x : In (t, n) [(128, 64%nat); (192, 32%nat); (224, 16%nat); (240, 8%nat)] ->
  0 <= x < Z.of_nat n -> Z.lor t x = t + x.
Proof.
  intros Hin Hx. assert (H : forallb lor_ok [(128, 64%nat); (192, 32%nat); (224, 16%nat); (240, 8%nat)] = true)
    by (vm_compute; reflexivity).
  rewrite forallb_forall in H. apply H in Hin. unfold lor_ok in Hin. cbn [fst snd] in Hin.
  rewrite forallb_forall in Hin. specialize (Hin (Z.to_nat x)). rewrite Z2Nat.id in Hin by lia.
  apply Z.eqb_eq, Hin, in_seq. lia.
Qed.

Lemma cont_byte x : Z.lor 128 (Z.land (byte x) 63) = 128 + x mod 64.
Proof.
  replace (Z.land (byte x) 63) with (x mod 64).
  - apply (lor_tag 128 64); [by left|]. apply Z.mod_pos_bound. lia.
  - change 63 with (Z.ones 6). rewrite Z.land_ones by lia. unfold wrap_u. change (2 ^ 8) with (64 * 4).
    change (2 ^ 6) with 64. rewrite Z.rem_mul_r by lia. rewrite Z.mul_comm, Z.mod_add, Z.mod_mod by lia. done.
Qed.

Lemma rune3_bytes r : 0 <= r < 65536 ->
  [Z.lor 224 (byte (Z.shiftr r 12)); Z.lor 128 (Z.land (byte (Z.shiftr r 6)) 63); Z.lor 128 (Z.land (byte r) 63)]
  = [224 + r / 4096; 128 + (r / 64) mod 64; 128 + r mod 64].
Proof.
  intros Hr. rewrite !cont_byte, !Z.shiftr_div_pow2 by lia. change (2 ^ 12) with 4096. change (2 ^ 6) with 64.
  assert (0 <= r / 4096 < 16) by (split; [apply Z.div_pos|apply Z.div_lt_upper_bound]; lia).
  rewrite wrap_u_id by (unfold in_u; norm_pow; lia).
  rewrite (lor_tag 224 16) by (cbn; auto; lia). done.
Qed.

Lemma rune_bytes_encode r : in_s 32 r -> rune_bytes r = encode_rune r.
Proof.
  intros [H1 H2]. unfold rune_bytes, encode_rune, is_scalar, MaxRune, RuneError. cbv zeta. norm_pow.
  destruct (Z.lt_ge_cases r 0) as [Hn|Hp].
  - assert (Hu : u32 r = r + 4294967296).
    { unfold wrap_u. norm_pow. rewrite <- (Z.mod_add r 1) by lia. apply Z.mod_small. lia. }
    rewrite Hu, (proj2 (Z.leb_gt 0 r)) by lia. cbn [andb].
    rewrite (proj2 (Z.leb_gt (r + _) 127)), (proj2 (Z.leb_gt (r + _) 2047)) by lia.
    rewrite Z.gtb_ltb, (proj2 (Z.ltb_lt 1114111 (r + _))) by lia. cbn [orb]. by rewrite rune3_bytes.
  - rewrite wrap_u_id by (unfold in_u; norm_pow; lia). rewrite (proj2 (Z.leb_le 0 r)) by lia. cbn [andb].
    rewrite Z.gtb_ltb. unfold encode_scalar.
    destruct (Z.leb_spec r 127).
    { rewrite (proj2 (Z.leb_le r 1114111)), (proj2 (Z.leb_gt 55296 r)) by lia. cbn [andb negb].
      rewrite (proj2 (Z.leb_le r 127)) by lia. rewrite wrap_u_id by (unfold in_u; norm_pow; lia). done. }
    destruct (Z.leb_spec r 2047).
    { rewrite (proj2 (Z.leb_le r 1114111)), (proj2 (Z.leb_gt 55296 r)) by lia. cbn [andb negb].
      rewrite (proj2 (Z.leb_gt r 127)), (proj2 (Z.leb_le r 2047)) by lia.
      rewrite cont_byte, Z.shiftr_div_pow2 by lia. change (2 ^ 6) with 64.
      assert (0 <= r / 64 < 32) by (split; [apply Z.div_pos|apply Z.div_lt_upper_bound]; lia).
      rewrite wrap_u_id by (unfold in_u; norm_pow; lia). rewrite (lor_tag 192 32) by (cbn; auto; lia). done. }
    destruct (Z.ltb_spec 1114111 r) as [Hbig|Hsmall].
    { rewrite (proj2 (Z.leb_gt r 1114111)) by lia. cbn [andb orb]. by rewrite rune3_bytes. }
    rewrite (proj2 (Z.leb_le r 1114111)) by lia. cbn [andb orb].
    destruct ((55296 <=? r) && (r <=? 57343)) eqn:Es; cbn [negb orb]; [by rewrite rune3_bytes|].
    rewrite (proj2 (Z.leb_gt r 127)), (proj2 (Z.leb_gt r 2047)) by lia.
    destruct (Z.leb_spec r 65535); [apply rune3_bytes; lia|].
    rewrite !cont_byte, !Z.shiftr_div_pow2 by lia. change (2 ^ 18) with 262144. change (2 ^ 12) with 4096.
    change (2 ^ 6) with 64.
    assert (0 <= r / 262144 < 8) by (split; [apply Z.div_pos|apply Z.div_lt_upper_bound]; lia).
    rewrite wrap_u_id by (unfold in_u; norm_pow; lia). rewrite (lor_tag 240 8) by (cbn; auto 6; lia). done.
Qed.

Lemma foldl_writeByte (s : stream) l : foldl writeByte s l = WritePure s l.
Proof.
  revert s. induction l as [|c l IH]; intros s; cbn [foldl]; [by rewrite WritePure_nil|].
  rewrite IH. unfold writeByte. by rewrite WritePure_WritePure.
Qed.

Lemma WriteRuneString_spec (s : stream) r :
  in_s 32 r -> WriteRuneString s r = Ret (WritePure s (escape_string (encode_rune r))).
Proof.
  intros Hr. unfold WriteRuneString. rewrite rune_bytes_encode by done.
  assert (Hb : is_bytes (encode_rune r)) by apply encode_rune_bytes. revert s.
  induction Hb as [|b l Hb _ IH]; intros s; cbn [foldl]; [by rewrite WritePure_nil|].
  rewrite go_bind_ret, WriteStringByte_spec by done. rewrite IH, WritePure_WritePure. done.
Qed.

(**  [WriteRune] appends the UTF-8 encoding that Go's [utf8.AppendRune] gives every [int32],
    surrogates, negative values and values beyond U+10FFFF being replaced by U+FFFD. *)
Theorem WriteRune_utf8 (s : stream) r : in_s 32 r -> WriteRune s r = WritePure s (encode_rune r).
Proof. intros Hr. unfold WriteRune. by rewrite foldl_writeByte, rune_bytes_encode. Qed.

End Props.

(** ** Examples *)

Definition ex_stream : Stream unit := NewStream defaultConfig None.

Lemma WriteInt_decimal_witness : writes_int ex_stream (WriteInt8 ex_stream (-128)) (-128).
Proof. apply (WriteInt_decimal ex_stream (-128)). split; vm_compute; congruence. Defined.

Lemma WriteString_scan_witness :
  exists body, WriteString ex_stream [97; 34; 10; 1; 228] = Ret (WritePure ex_stream (34 :: body)) /\
    scan_string (body ++ [44]) = Some ([97; 34; 10; 1; 228], [44]).
Proof.
  apply (WriteString_scan ex_stream [97; 34; 10; 1; 228] [44]).
  repeat first [apply Forall_cons_2; [unfold is_byte; lia|] | apply Forall_nil_2].
Defined.

Lemma WriteRune_utf8_witness : WriteRune ex_stream 20013 = WritePure ex_stream [228; 184; 173].
Proof. apply (WriteRune_utf8 ex_stream 20013). split; vm_compute; congruence. Defined.

End Json.
