(* ===== verification/BlockJson.v ===== *)
(** * BlockJson: writing the items of a raw block as JSON

    Models [src/tools/ctools/block.go]: [JsonWriteRawBlock] writes one item of a block to a
    [Json.Stream] straight from memory, without the values that [RawBlock] builds.  The formatting
    of an instant with a layout and a location is a parameter. *)
From S2P Require Import Prelude Common Utf8 RawBlock JsonBuilder.
#[local] Open Scope Z_scope.

Module BlockJson.
Import Json.

Definition IsVarDataType (colType : Z) : bool :=
  (colType =? TSDB_DATA_TYPE_BINARY) || (colType =? TSDB_DATA_TYPE_NCHAR) || (colType =? TSDB_DATA_TYPE_JSON) ||
  (colType =? TSDB_DATA_TYPE_VARBINARY) || (colType =? TSDB_DATA_TYPE_GEOMETRY).

Definition BitmapLen (n : Z) : Z := Z.shiftr (n + (Z.shiftl 1 3 - 1)) 3.
Definition BitPos (n : Z) : Z := Z.land n (Z.shiftl 1 3 - 1).
Definition CharOffset (n : Z) : Z := Z.shiftr n 3.
Definition BMIsNull (c n : Z) : bool :=
  Z.land c (Z.shiftl 1 (7 - BitPos n)) =? Z.shiftl 1 (7 - BitPos n).
Definition ItemIsNull (m : mem) (pHeader row : Z) : go bool :=
  let offset := CharOffset row in
  c ← load_u 1 m (AddPointer pHeader offset); Ret (BMIsNull c row).

Section Write.
Context {W : Type}.
#[local] Abbreviation stream := (Stream W).
Context (format_float32 format_float64 : Z -> Z -> list Z).
(** [t.In(location).AppendFormat(nil, layout)] for the layout of the precision. *)
Context (format_time : Z -> Z -> list Z).

Definition WriteRawJsonBool (s : stream) (m : mem) (pStart row : Z) : go stream :=
  b ← load_u 1 m (AddPointer pStart (row * 1));
  Ret (if negb (b =? 0) then WriteTrue s else WriteFalse s).
Definition WriteRawJsonTinyint (s : stream) (m : mem) (pStart row : Z) : go stream :=
  v ← load_s 1 m (AddPointer pStart (row * Int8Size)); WriteInt8 s v.
Definition WriteRawJsonSmallint (s : stream) (m : mem) (pStart row : Z) : go stream :=
  v ← load_s 2 m (AddPointer pStart (row * Int16Size)); WriteInt16 s v.
Definition WriteRawJsonInt (s : stream) (m : mem) (pStart row : Z) : go stream :=
  v ← load_s 4 m (AddPointer pStart (row * Int32Size)); WriteInt32 s v.
Definition WriteRawJsonBigint (s : stream) (m : mem) (pStart row : Z) : go stream :=
  v ← load_s 8 m (AddPointer pStart (row * Int64Size)); WriteInt64 s v.
Definition WriteRawJsonUTinyint (s : stream) (m : mem) (pStart row : Z) : go stream :=
  v ← load_u 1 m (AddPointer pStart (row * UInt8Size)); WriteUint8 s v.
Definition WriteRawJsonUSmallint (s : stream) (m : mem) (pStart row : Z) : go stream :=
  v ← load_u 2 m (AddPointer pStart (row * UInt16Size)); WriteUint16 s v.
Definition WriteRawJsonUInt (s : stream) (m : mem) (pStart row : Z) : go stream :=
  v ← load_u 4 m (AddPointer pStart (row * UInt32Size)); WriteUint32 s v.
Definition WriteRawJsonUBigint (s : stream) (m : mem) (pStart row : Z) : go stream :=
  v ← load_u 8 m (AddPointer pStart (row * UInt64Size)); WriteUint64 s v.
Definition WriteRawJsonFloat (s : stream) (m : mem) (pStart row : Z) : go stream :=
  v ← load_u 4 m (AddPointer pStart (row * Float32Size)); Ret (WriteFloat32 format_float32 s v).
Definition WriteRawJsonDouble (s : stream) (m : mem) (pStart row : Z) : go stream :=
  v ← load_u 8 m (AddPointer pStart (row * Float64Size)); Ret (WriteFloat64 format_float64 s v).

(** An unknown precision is logged and writes an empty string. *)
Definition WriteRawJsonTime (s : stream) (m : mem) (pStart row precision : Z) : go stream :=
  ts ← load_s 8 m (AddPointer pStart (row * Int64Size));
  let timeBuffer :=
    if precision =? PrecisionMilliSecond then
      format_time precision (time_Unix (Z.quot ts 1000) (Z.rem ts 1000 * 1000000))
    else if precision =? PrecisionMicroSecond then
      format_time precision (time_Unix (Z.quot ts 1000000) (Z.rem ts 1000000 * 1000))
    else if precision =? PrecisionNanoSecond then format_time precision (time_Unix 0 ts)
    else [] in
  WriteString s timeBuffer.

(** The common part of the variable-length writers: [null], or the length and the address of the
    data. *)
Definition var_item (s : stream) (m : mem) (pHeader pStart row : Z) (write : Z -> Z -> go stream) : go stream :=
  offset ← load_s 4 m (AddPointer pHeader (row * 4));
  if offset =? -1 then Ret (WriteNil s)
  else
    let currentRow := AddPointer pStart offset in
    clen ← load_u 2 m currentRow;
    write clen (AddPointer currentRow 2).

Definition WriteRawJsonBinary (s : stream) (m : mem) (pHeader pStart row : Z) : go stream :=
  var_item s m pHeader pStart row (fun clen currentRow =>
    let s := AddByte s 34 in
    s ← for_upto clen (fun index s => b ← load_u 1 m (AddPointer currentRow index); WriteStringByte s b) s;
    Ret (AddByte s 34)).

(** [strconv.FormatInt(int64(b), 16)] for a byte. *)
Definition format_hex (b : Z) : list Z :=
  let digit d := default 0 (hex !! Z.to_nat d) in
  if b <? 16 then [digit b] else [digit (b / 16); digit (b mod 16)].

Definition WriteRawJsonVarBinary (s : stream) (m : mem) (pHeader pStart row : Z) : go stream :=
  var_item s m pHeader pStart row (fun clen currentRow =>
    let s := AddByte s 34 in
    s ← for_upto clen (fun index s =>
      b ← load_u 1 m (AddPointer currentRow index);
      let h := format_hex b in
      let s := if zlen h =? 1 then AddByte s 48 else s in
      Ret (WriteRaw s h)) s;
    Ret (AddByte s 34)).

Definition WriteRawJsonGeometry := WriteRawJsonVarBinary.

Definition WriteRawJsonNchar (s : stream) (m : mem) (pHeader pStart row : Z) : go stream :=
  var_item s m pHeader pStart row (fun l currentRow =>
    let clen := l / 4 in
    let s := AddByte s 34 in
    s ← for_upto clen (fun index s =>
      r ← load_s 4 m (AddPointer currentRow (u16 (index * 4))); WriteRuneString s r) s;
    Ret (AddByte s 34)).

Definition WriteRawJsonJson (s : stream) (m : mem) (pHeader pStart row : Z) : go stream :=
  var_item s m pHeader pStart row (fun clen currentRow =>
    for_upto clen (fun index s => b ← load_u 1 m (AddPointer currentRow index); Ret (AddByte s b)) s).

Definition JsonWriteRawBlock (s : stream) (m : mem) (colType pHeader pStart row precision : Z) : go stream :=
  if IsVarDataType colType then
    if colType =? TSDB_DATA_TYPE_BINARY then WriteRawJsonBinary s m pHeader pStart row
    else if colType =? TSDB_DATA_TYPE_NCHAR then WriteRawJsonNchar s m pHeader pStart row
    else if colType =? TSDB_DATA_TYPE_JSON then WriteRawJsonJson s m pHeader pStart row
    else if colType =? TSDB_DATA_TYPE_VARBINARY then WriteRawJsonVarBinary s m pHeader pStart row
    else if colType =? TSDB_DATA_TYPE_GEOMETRY then WriteRawJsonGeometry s m pHeader pStart row
    else Ret s
  else
    isNull ← ItemIsNull m pHeader row;
    if (isNull : bool) then Ret (WriteNil s)
    else if colType =? TSDB_DATA_TYPE_BOOL then WriteRawJsonBool s m pStart row
    else if colType =? TSDB_DATA_TYPE_TINYINT then WriteRawJsonTinyint s m pStart row
    else if colType =? TSDB_DATA_TYPE_SMALLINT then WriteRawJsonSmallint s m pStart row
    else if colType =? TSDB_DATA_TYPE_INT then WriteRawJsonInt s m pStart row
    else if colType =? TSDB_DATA_TYPE_BIGINT then WriteRawJsonBigint s m pStart row
    else if colType =? TSDB_DATA_TYPE_UTINYINT then WriteRawJsonUTinyint s m pStart row
    else if colType =? TSDB_DATA_TYPE_USMALLINT then WriteRawJsonUSmallint s m pStart row
    else if colType =? TSDB_DATA_TYPE_UINT then WriteRawJsonUInt s m pStart row
    else if colType =? TSDB_DATA_TYPE_UBIGINT then WriteRawJsonUBigint s m pStart row
    else if colType =? TSDB_DATA_TYPE_FLOAT then WriteRawJsonFloat s m pStart row
    else if colType =? TSDB_DATA_TYPE_DOUBLE then WriteRawJsonDouble s m pStart row
    else if colType =? TSDB_DATA_TYPE_TIMESTAMP then WriteRawJsonTime s m pStart row precision
    else Ret s.

End Write.

(** ** The JSON of a value *)

Section Props.
Context {W : Type}.
#[local] Abbreviation stream := (Stream W).
Context (format_float32 format_float64 : Z -> Z -> list Z).
Context (format_time : Z -> Z -> list Z).
(** The text of a time is ASCII. *)
Hypothesis format_time_bytes : forall p t, is_bytes (format_time p t).

Definition quoted (str : list Z) : list Z := 34 :: escape_string str ++ [34].

(** Two lower-case hexadecimal digits per byte. *)
Definition hex_byte (b : Z) : list Z :=
  [default 0 (hex !! Z.to_nat (b / 16)); default 0 (hex !! Z.to_nat (b mod 16))].

(** The stream [s'] is [s] with the JSON of the value [v] of a column of type [t] appended. *)
Definition json_written (s : stream) (t : Z) (v : value) (s' : stream) : Prop :=
  match v with
  | VNil => s' = WriteNil s
  | VBool b => s' = WriteBool s b
  | VInt8 z | VInt16 z | VInt32 z | VInt64 z | VUint8 z | VUint16 z | VUint32 z | VUint64 z =>
    exists l, s' = WritePure s l /\ is_integer l z
  | VFloat32 bits => s' = WriteFloat32 format_float32 s bits
  | VFloat64 bits => s' = WriteFloat64 format_float64 s bits
  | VString str => s' = WritePure s (quoted str)
  | VBytes b =>
    s' = WritePure s (if t =? TSDB_DATA_TYPE_JSON then b else 34 :: concat (hex_byte <$> b) ++ [34])
  | _ => False
  end.

(** The time format of the JSON output, as a format function of the block parser. *)
Definition time_value (ts precision : Z) : value :=
  VString (if bool_decide (precision_ok precision) then format_time precision (ts * tick precision) else []).

Lemma ItemIsNull_eq m p r : ItemIsNull m p r = RawBlock.ItemIsNull m p r.
Proof. done. Qed.

Lemma load_bytes m p n bs : is_bytes m -> load m p n = Ret bs -> is_bytes bs.
Proof.
  unfold load. case_bool_decide; [|done]. intros Hm [= <-]. apply Forall_take, Forall_drop, Hm.
Qed.

(** A byte of a range that could be loaded. *)
Lemma load_nth m p n bs i b :
  zlen m < 2 ^ 64 -> load m p n = Ret bs -> bs !! i = Some b -> load_u 1 m (AddPointer p (Z.of_nat i)) = Ret b.
Proof.
  intros Hm. unfold load. case_bool_decide as Hin; [|done]. intros [= <-] Hi.
  pose proof (lookup_lt_Some _ _ _ Hi) as Hlt. unfold ztake, zdrop in *.
  rewrite length_take, length_drop in Hlt. rewrite lookup_take_lt in Hi by lia. rewrite lookup_drop in Hi.
  rewrite AddPointer_small by (unfold zlen in *; lia). unfold load_u.
  rewrite (load_at m (take (Z.to_nat p + i) m) [b] (drop (S (Z.to_nat p + i)) m)).
  - cbn. f_equal. lia.
  - cbn [app]. by rewrite take_drop_middle.
  - unfold zlen. rewrite length_take. lia.
  - done.
Qed.

(** A loop that writes the bytes of a range one by one. *)
Lemma byte_loop m p n bs (f : stream -> Z -> go stream) (g : Z -> list Z) (s : stream) :
  zlen m < 2 ^ 64 -> is_bytes m -> 0 <= n -> load m p n = Ret bs ->
  (forall s b, is_byte b -> f s b = Ret (WritePure s (g b))) ->
  for_upto n (fun index s => b ← load_u 1 m (AddPointer p index); f s b) s
  = Ret (WritePure s (concat (g <$> bs))).
Proof.
  intros Hm Hb Hn Hload Hf. pose proof (load_bytes _ _ _ _ Hb Hload) as Hbs.
  assert (Hlen : length bs = Z.to_nat n).
  { unfold load in Hload. case_bool_decide; [|done]. injection Hload as <-. unfold ztake, zdrop.
    rewrite length_take, length_drop. unfold zlen in *. lia. }
  assert (Hgo : forall rest dn s, bs = dn ++ rest ->
    for_loop (length rest) (Z.of_nat (length dn)) (fun index s => b ← load_u 1 m (AddPointer p index); f s b) s
    = Ret (WritePure s (concat (g <$> rest)))).
  { induction rest as [|b rest IH]; intros dn s0 E; cbn [length for_loop].
    - cbn. by rewrite WritePure_nil.
    - rewrite (load_nth m p n bs (length dn) b) by (done || (rewrite E; by apply list_lookup_middle)).
      rewrite go_bind_ret, Hf by (rewrite E in Hbs; apply Forall_app in Hbs as [_ Hbs]; by inversion Hbs).
      rewrite go_bind_ret. specialize (IH (dn ++ [b]) (WritePure s0 (g b))). rewrite length_app in IH.
      cbn [length] in IH. rewrite Nat2Z.inj_add in IH. change (Z.of_nat 1) with 1 in IH. rewrite IH by (rewrite E; list_assoc).
      cbn [fmap list_fmap concat]. by rewrite WritePure_WritePure. }
  unfold for_upto. rewrite <- Hlen. by apply (Hgo bs []).
Qed.

Lemma format_hex_byte (s : stream) b : is_byte b ->
  WriteRaw (if zlen (format_hex b) =? 1 then AddByte s 48 else s) (format_hex b) = WritePure s (hex_byte b).
Proof.
  intros Hb. unfold format_hex, hex_byte, is_byte in *. destruct (Z.ltb_spec b 16).
  - change (zlen [_] =? 1) with true. cbv iota. unfold WriteRaw, AddByte, writeByte. rewrite WritePure_WritePure.
    rewrite (Z.div_small b 16), (Z.mod_small b 16) by lia. done.
  - change (zlen [_; _] =? 1) with false. done.
Qed.

(** ** Variable-length items *)

Lemma var_bytes (s : stream) m pHeader pStart row ob (f : stream -> Z -> go stream) (g : Z -> list Z)
    (pre post : list Z) :
  zlen m < 2 ^ 64 -> is_bytes m -> rawGetBytes m pHeader pStart row = Ret ob ->
  (forall s b, is_byte b -> f s b = Ret (WritePure s (g b))) ->
  var_item s m pHeader pStart row (fun clen currentRow =>
    s ← for_upto clen (fun index s => b ← load_u 1 m (AddPointer currentRow index); f s b) (WritePure s pre);
    Ret (WritePure s post))
  = Ret (match ob with None => WriteNil s | Some bs => WritePure s (pre ++ concat (g <$> bs) ++ post) end).
Proof.
  intros Hm Hb Hraw Hf. revert Hraw. unfold rawGetBytes, var_item.
  destruct (load_s 4 m (AddPointer pHeader (row * 4))) as [off| | |]; [|done..]. rewrite !go_bind_ret.
  destruct (off =? -1); [by intros [= <-]|].
  destruct (load_u 2 m (AddPointer pStart off)) as [clen| | |] eqn:El; [|done..]. rewrite !go_bind_ret.
  assert (Hc : 0 <= clen).
  { unfold load_u in El. destruct (load m _ _) as [l| | |] eqn:E; [|done..]. injection El as <-.
    pose proof (load_bytes _ _ _ _ Hb E) as Hl. by apply le_val_nonneg in Hl as [? _]. }
  destruct (Z.eqb_spec clen 0) as [->|Hne].
  - intros [= <-]. change (for_upto 0 ?f ?s) with (Ret s). rewrite go_bind_ret. cbn [fmap list_fmap concat].
    by rewrite WritePure_WritePure.
  - unfold Copy. intros (bs & Hl & ->)%go_fmap_Ret_inv.
    rewrite (byte_loop m _ clen bs f g) by done. rewrite go_bind_ret, !WritePure_WritePure. done.
Qed.

Lemma concat_singletons (l : list Z) : concat ((fun b => [b]) <$> l) = l.
Proof. induction l as [|x l IH]; [done|]. cbn. by rewrite IH. Qed.

Lemma WriteRawJsonBinary_spec (s : stream) m pHeader pStart row v :
  zlen m < 2 ^ 64 -> is_bytes m -> rawConvertBinary m pHeader pStart row = Ret v ->
  exists s', WriteRawJsonBinary s m pHeader pStart row = Ret s' /\ json_written s TSDB_DATA_TYPE_BINARY v s'.
Proof.
  intros Hm Hb (ob & Hraw & Hv)%go_bind_Ret_inv. eexists. split.
  - apply (var_bytes s m pHeader pStart row ob WriteStringByte escape [34] [34]); try done. apply WriteStringByte_spec.
  - destruct ob; injection Hv as <-; done.
Qed.

Lemma WriteRawJsonVarBinary_spec (s : stream) m pHeader pStart row v t :
  t <> TSDB_DATA_TYPE_JSON -> zlen m < 2 ^ 64 -> is_bytes m -> rawConvertVarBinary m pHeader pStart row = Ret v ->
  exists s', WriteRawJsonVarBinary s m pHeader pStart row = Ret s' /\ json_written s t v s'.
Proof.
  intros Ht Hm Hb (ob & Hraw & Hv)%go_bind_Ret_inv. eexists. split.
  - apply (var_bytes s m pHeader pStart row ob (fun s b =>
      let h := format_hex b in let s := if zlen h =? 1 then AddByte s 48 else s in Ret (WriteRaw s h))
      hex_byte [34] [34]); try done.
    intros s0 b Hby. cbv zeta. by rewrite format_hex_byte.
  - destruct ob; injection Hv as <-; cbn [json_written]; [|done]. by rewrite (proj2 (Z.eqb_neq _ _) Ht).
Qed.

Lemma WriteRawJsonJson_spec (s : stream) m pHeader pStart row v :
  zlen m < 2 ^ 64 -> is_bytes m -> rawConvertJson m pHeader pStart row = Ret v ->
  exists s', WriteRawJsonJson s m pHeader pStart row = Ret s' /\ json_written s TSDB_DATA_TYPE_JSON v s'.
Proof.
  intros Hm Hb (ob & Hraw & Hv)%go_bind_Ret_inv.
  pose proof (var_bytes s m pHeader pStart row ob (fun s b => Ret (AddByte s b)) (fun b => [b]) [] []
    Hm Hb Hraw (fun _ _ _ => eq_refl)) as Hvar.
  eexists. split.
  - unfold WriteRawJsonJson. rewrite WritePure_nil in Hvar. etransitivity; [|exact Hvar].
    unfold var_item. apply go_bind_ext. intros off. destruct (off =? -1); [done|]. apply go_bind_ext. intros clen.
    destruct (for_upto _ _ _); [|done..]. rewrite go_bind_ret. by rewrite WritePure_nil.
  - destruct ob; injection Hv as <-; [|done]. cbn [json_written]. rewrite concat_singletons, app_nil_r. done.
Qed.

(** The runes that [rawConvertNchar] collects are those the JSON loop writes. *)
Lemma nchar_loop_inv m p clen bv :
  0 <= clen ->
  for_upto clen (fun index bv => r ← load_s 4 m (AddPointer p (u16 (index * 4))); zset bv index r)
    (replicate (Z.to_nat clen) 0) = Ret bv ->
  length bv = Z.to_nat clen /\
  forall i, 0 <= i < clen -> exists r, load_s 4 m (AddPointer p (u16 (i * 4))) = Ret r /\ bv !! Z.to_nat i = Some r.
Proof.
  intros Hc Hl.
  apply (for_upto_ret_inv (fun k bv => length bv = Z.to_nat clen /\ forall i, 0 <= i < k ->
    exists r, load_s 4 m (AddPointer p (u16 (i * 4))) = Ret r /\ bv !! Z.to_nat i = Some r) _ _ _ _ Hc Hl).
  - rewrite length_replicate. split; [done|]. lia.
  - intros j l l' Hj [Hlen Hall] (r & Hr & Hset)%go_bind_Ret_inv.
    rewrite zset_in in Hset by (unfold zlen; lia). injection Hset as <-. rewrite length_insert. split; [done|].
    intros i Hi. destruct (Z.eq_dec i j) as [->|Hne].
    + exists r. split; [done|]. apply list_lookup_insert_eq. lia.
    + destruct (Hall i) as (r' & Hr' & Hlk); [lia|]. exists r'. split; [done|].
      rewrite list_lookup_insert_ne by lia. done.
Qed.

Lemma rune_loop m p clen bv (s : stream) :
  0 <= clen -> length bv = Z.to_nat clen ->
  (forall i, 0 <= i < clen -> exists r, load_s 4 m (AddPointer p (u16 (i * 4))) = Ret r /\ bv !! Z.to_nat i = Some r) ->
  for_upto clen (fun index s => r ← load_s 4 m (AddPointer p (u16 (index * 4))); WriteRuneString s r) s
  = Ret (WritePure s (escape_string (string_of_runes bv))).
Proof.
  intros Hc Hlen Hall.
  destruct (for_upto_inv (fun k (s' : stream) => s' = WritePure s (escape_string (string_of_runes (take (Z.to_nat k) bv))))
    (fun index s => r ← load_s 4 m (AddPointer p (u16 (index * 4))); WriteRuneString s r) clen s Hc)
    as (s' & E & Hs').
  - cbn. by rewrite WritePure_nil.
  - intros j s0 Hj ->. destruct (Hall j Hj) as (r & Hr & Hlk). rewrite Hr, go_bind_ret.
    assert (Hrange : in_s 32 r).
    { unfold load_s in Hr. apply go_fmap_Ret_inv in Hr as (l & _ & ->). apply wrap_s_range. lia. }
    rewrite WriteRuneString_spec by done. eexists. split; [done|]. rewrite WritePure_WritePure. f_equal.
    replace (Z.to_nat (j + 1)) with (S (Z.to_nat j)) by lia. rewrite (take_S_r _ _ _ Hlk).
    unfold string_of_runes. rewrite fmap_app, concat_app, escape_string_app. f_equal. cbn. by rewrite app_nil_r.
  - rewrite E, Hs'. rewrite take_ge by lia. done.
Qed.

Lemma WriteRawJsonNchar_spec (s : stream) m pHeader pStart row v :
  is_bytes m -> rawConvertNchar m pHeader pStart row = Ret v ->
  exists s', WriteRawJsonNchar s m pHeader pStart row = Ret s' /\ json_written s TSDB_DATA_TYPE_NCHAR v s'.
Proof.
  intros Hb. unfold rawConvertNchar, WriteRawJsonNchar, var_item.
  destruct (load_s 4 m (AddPointer pHeader (row * 4))) as [off| | |]; [|done..]. rewrite !go_bind_ret.
  destruct (off =? -1); [intros [= <-]; by eexists|].
  destruct (load_u 2 m (AddPointer pStart off)) as [l| | |] eqn:El; [|done..]. rewrite !go_bind_ret.
  assert (Hc : 0 <= l).
  { unfold load_u in El. destruct (load m _ _) as [bs| | |] eqn:E; [|done..]. injection El as <-.
    pose proof (load_bytes _ _ _ _ Hb E) as Hl. by apply le_val_nonneg in Hl as [? _]. }
  assert (Hl4 : 0 <= l / 4) by (apply Z.div_pos; lia). cbv zeta.
  destruct (Z.eqb_spec (l / 4) 0) as [->|Hne].
  - intros [= <-]. change (for_upto 0 ?f ?s) with (Ret s). rewrite go_bind_ret. eexists. split; [done|].
    cbn [json_written]. unfold AddByte, writeByte. by rewrite WritePure_WritePure.
  - intros (bv & Hbv & [= <-])%go_bind_Ret_inv. destruct (nchar_loop_inv _ _ _ _ Hl4 Hbv) as [Hlen Hall].
    rewrite (rune_loop _ _ _ bv) by done. rewrite go_bind_ret. eexists. split; [done|].
    cbn [json_written]. unfold AddByte, writeByte, quoted. rewrite !WritePure_WritePure. f_equal.
Qed.

(** ** Fixed-length items *)

(** [time.Unix] with the quotient and the remainder of the timestamp is the instant itself. *)
Lemma time_Unix_split ts k n : k * n = 1000000000 -> 0 < k -> time_Unix (Z.quot ts k) (Z.rem ts k * n) = ts * n.
Proof.
  intros Hk Hpos. unfold time_Unix. rewrite <- Hk. rewrite (Z.quot_rem ts k) at 3 by lia. ring.
Qed.

Lemma WriteRawJsonTime_spec (s : stream) m pStart row precision v t :
  rawConvertTime m pStart row (precision, Some time_value) = Ret v ->
  exists s', WriteRawJsonTime format_time s m pStart row precision = Ret s' /\ json_written s t v s'.
Proof.
  intros (ts & Hts & [= <-])%go_bind_Ret_inv. unfold WriteRawJsonTime. rewrite Hts, go_bind_ret.
  assert (E : (if precision =? PrecisionMilliSecond then
      format_time precision (time_Unix (Z.quot ts 1000) (Z.rem ts 1000 * 1000000))
    else if precision =? PrecisionMicroSecond then
      format_time precision (time_Unix (Z.quot ts 1000000) (Z.rem ts 1000000 * 1000))
    else if precision =? PrecisionNanoSecond then format_time precision (time_Unix 0 ts)
    else []) = if bool_decide (precision_ok precision) then format_time precision (ts * tick precision) else []).
  { unfold PrecisionMilliSecond, PrecisionMicroSecond, PrecisionNanoSecond.
    case_bool_decide as Hp.
    - destruct (precision_cases _ Hp) as [->|[->| ->]]; simpl; f_equal; try (by apply time_Unix_split).
      unfold time_Unix, tick. simpl. lia.
    - unfold precision_ok in Hp. repeat rewrite (proj2 (Z.eqb_neq _ _)) by lia. done. }
  rewrite E. eexists. split; [|done]. unfold quoted.
  apply WriteString_spec. case_bool_decide; [apply format_time_bytes|constructor].
Qed.

Lemma load_u_in m p n v : is_bytes m -> load_u n m p = Ret v -> in_u (8 * Z.of_nat n) v.
Proof.
  intros Hm (l & Hl & ->)%go_fmap_Ret_inv. pose proof (le_val_nonneg l (load_bytes _ _ _ _ Hm Hl)) as Hb.
  unfold load in Hl. case_bool_decide; [|done]. injection Hl as <-. unfold in_u.
  enough (E : 256 ^ zlen (ztake (Z.of_nat n) (zdrop p m)) = 2 ^ (8 * Z.of_nat n)) by (by rewrite <- E).
  unfold zlen, ztake, zdrop in *. rewrite length_take, length_drop.
  change 256 with (2 ^ 8). rewrite <- Z.pow_mul_r by lia. do 2 f_equal. lia.
Qed.

Lemma load_s_in m p n v : (0 < n)%nat -> load_s n m p = Ret v -> in_s (8 * Z.of_nat n) v.
Proof. intros Hn (l & Hl & ->)%go_fmap_Ret_inv. apply wrap_s_range. lia. Qed.

(** An integer that is loaded and written. *)
Lemma loaded_int (s : stream) (x : go Z) (write : stream -> Z -> go stream) (R : Z -> Prop) z :
  x = Ret z -> R z -> (forall s v, R v -> writes_int s (write s v) v) ->
  exists s', (v ← x; write s v) = Ret s' /\ exists l, s' = WritePure s l /\ is_integer l z.
Proof. intros -> HR Hw. rewrite go_bind_ret. destruct (Hw s z HR) as (l & -> & Hl). eauto. Qed.

Lemma var_item_json (s : stream) m t pHeader pStart row precision v :
  RawBlock.IsVarDataType t = true -> zlen m < 2 ^ 64 -> is_bytes m ->
  call_var (rawConvertVarDataTable t) m pHeader pStart row = Ret v ->
  exists s', JsonWriteRawBlock format_float32 format_float64 format_time s m t pHeader pStart row precision = Ret s' /\
    json_written s t v s'.
Proof.
  intros Hv Hm Hb Hc. unfold JsonWriteRawBlock. change (IsVarDataType t) with (RawBlock.IsVarDataType t).
  rewrite Hv. revert Hc. unfold rawConvertVarDataTable.
  destruct (Z.eqb_spec t TSDB_DATA_TYPE_BINARY) as [->|]; [by apply WriteRawJsonBinary_spec|].
  destruct (Z.eqb_spec t TSDB_DATA_TYPE_NCHAR) as [->|]; [by apply WriteRawJsonNchar_spec|].
  destruct (Z.eqb_spec t TSDB_DATA_TYPE_JSON) as [->|Hj]; [by apply WriteRawJsonJson_spec|].
  destruct (t =? TSDB_DATA_TYPE_VARBINARY); [by apply WriteRawJsonVarBinary_spec|].
  destruct (t =? TSDB_DATA_TYPE_GEOMETRY); [by apply WriteRawJsonVarBinary_spec|done].
Qed.

Lemma fixed_item_json (s : stream) m t pHeader pStart row precision v :
  is_bytes m -> RawBlock.IsVarDataType t = false -> RawBlock.ItemIsNull m pHeader row = Ret false ->
  call_fixed (rawConvertFuncTable t) m pStart row (precision, Some time_value) = Ret v ->
  exists s', JsonWriteRawBlock format_float32 format_float64 format_time s m t pHeader pStart row precision = Ret s' /\
    json_written s t v s'.
Proof.
  intros Hb Hv Hn Hc. unfold JsonWriteRawBlock. change (IsVarDataType t) with (RawBlock.IsVarDataType t).
  rewrite Hv, ItemIsNull_eq, Hn, go_bind_ret. revert Hc. unfold rawConvertFuncTable.
  case_if E0; [intros (b & Hl & [= <-])%go_bind_Ret_inv; unfold WriteRawJsonBool; rewrite Hl, go_bind_ret; by eexists|].
  do 8 (let E := fresh "E" in case_if E; [intros (z & Hl & ->)%go_fmap_Ret_inv;
    first [eapply (loaded_int s _ WriteInt8); [exact Hl|exact (load_s_in _ _ 1 _ ltac:(lia) Hl)|apply WriteInt8_int]
          |eapply (loaded_int s _ WriteInt16); [exact Hl|exact (load_s_in _ _ 2 _ ltac:(lia) Hl)|apply WriteInt16_int]
          |eapply (loaded_int s _ WriteInt32); [exact Hl|exact (load_s_in _ _ 4 _ ltac:(lia) Hl)|apply WriteInt32_int]
          |eapply (loaded_int s _ WriteInt64); [exact Hl|exact (load_s_in _ _ 8 _ ltac:(lia) Hl)|apply WriteInt64_int]
          |eapply (loaded_int s _ WriteUint8); [exact Hl|exact (load_u_in _ _ 1 _ Hb Hl)|apply WriteUint8_int]
          |eapply (loaded_int s _ WriteUint16); [exact Hl|exact (load_u_in _ _ 2 _ Hb Hl)|apply WriteUint16_int]
          |eapply (loaded_int s _ WriteUint32); [exact Hl|exact (load_u_in _ _ 4 _ Hb Hl)|apply WriteUint32_int]
          |eapply (loaded_int s _ WriteUint64); [exact Hl|exact (load_u_in _ _ 8 _ Hb Hl)|apply WriteUint64_int]]|]).
  do 2 (let E := fresh "E" in case_if E; [intros (z & Hl & ->)%go_fmap_Ret_inv;
    unfold WriteRawJsonFloat, WriteRawJsonDouble; rewrite Hl, go_bind_ret; by eexists|]).
  case_if Et; [by apply WriteRawJsonTime_spec|done].
Qed.

Lemma JsonWriteRawBlock_adds (s : stream) m t pHeader pStart row precision v :
  zlen m < 2 ^ 64 -> is_bytes m ->
  ItemRawBlock m t pHeader pStart row precision time_value = Ret v ->
  exists s', JsonWriteRawBlock format_float32 format_float64 format_time s m t pHeader pStart row precision = Ret s' /\
    json_written s t v s'.
Proof.
  intros Hm Hb. unfold ItemRawBlock, rawConvertVarDataSlice, rawConvertFuncSlice.
  destruct (RawBlock.IsVarDataType t) eqn:Hv.
  - destruct (t <? 21); [|done]. rewrite go_bind_ret. by apply var_item_json.
  - intros (null & Hn & Hc)%go_bind_Ret_inv. destruct null.
    + injection Hc as <-. exists (WriteNil s). split; [|done].
      unfold JsonWriteRawBlock. change (IsVarDataType t) with (RawBlock.IsVarDataType t).
      by rewrite Hv, ItemIsNull_eq, Hn.
    + revert Hc. destruct (t <? 15); [|done]. rewrite go_bind_ret. by apply fixed_item_json.
Qed.

(** C23. The JSON writer agrees with the block parser: whenever [ItemRawBlock] reads the value of
    an item (with the time formatter of the JSON output), [JsonWriteRawBlock] on the same memory
    neither panics nor faults and appends exactly the JSON of that value - [null], [true]/[false],
    the decimal digits of an integer of any width, the formatted float, the escaped and quoted
    text of a string or of an instant, the raw bytes of a JSON column, two hexadecimal digits per
    byte of a binary. *)
Theorem JsonWriteRawBlock_ItemRawBlock (s : stream) m t pHeader pStart row precision v :
  zlen m < 2 ^ 64 -> is_bytes m ->
  ItemRawBlock m t pHeader pStart row precision time_value = Ret v ->
  exists s', JsonWriteRawBlock format_float32 format_float64 format_time s m t pHeader pStart row precision = Ret s' /\
    json_written s t v s'.
Proof. apply JsonWriteRawBlock_adds. Qed.
End Props.

(** A timestamp column with one row: a clear null bit, then 1500 milliseconds. *)
Definition ex_item : mem := [0; 220; 5; 0; 0; 0; 0; 0; 0].
(** A stand-in for the formatter: a digit of the precision and one of the seconds. *)
Definition ex_format_time (p t : Z) : list Z := [48 + p mod 10; 48 + t / 1000000000 mod 10].

Lemma JsonWriteRawBlock_ItemRawBlock_witness :
  ItemRawBlock ex_item TSDB_DATA_TYPE_TIMESTAMP 0 1 0 0 (time_value ex_format_time)
    = Ret (VString [48; 49]) /\
  exists s', JsonWriteRawBlock (fun _ _ => []) (fun _ _ => []) ex_format_time
    ex_stream ex_item TSDB_DATA_TYPE_TIMESTAMP 0 1 0 0 = Ret s' /\
    json_written (fun _ _ => []) (fun _ _ => []) ex_stream TSDB_DATA_TYPE_TIMESTAMP (VString [48; 49]) s'.
Proof.
  split; [vm_compute; reflexivity|].
  apply (JsonWriteRawBlock_ItemRawBlock (fun _ _ => []) (fun _ _ => []) ex_format_time).
  - intros p t. pose proof (Z.mod_pos_bound p 10). pose proof (Z.mod_pos_bound (t / 1000000000) 10).
    apply Forall_cons_2; [|apply Forall_cons_2; [|constructor]]; unfold is_byte; lia.
  - reflexivity.
  - repeat (apply Forall_cons_2; [done|]). constructor.
  - vm_compute. reflexivity.
Defined.
End BlockJson.
