(* ===== verification/Rest.v ===== *)
(** * Rest: the JSON response of a query

    Models the part of [src/controller/rest/restful.go] that turns the blocks of a result into the
    body of a response: [execute] from the column metadata on, [tryFlush] and [forceFlush], with
    [RowsHeader] of [src/driver/wrapper/field.go].  The calls to the database are their results, a
    list of fetched blocks; the response writer, the time formatter and the float formatter are
    parameters. *)
From S2P Require Import Prelude Common RawBlock JsonBuilder BlockJson.
#[local] Open Scope Z_scope.

Module Rest.
Import Json.

Record RowsHeader := mkHeader { ColNames : list (list Z); ColTypes : list Z; ColLength : list Z }.

Definition TypeDatabaseName (rh : RowsHeader) (i : Z) : go (list Z) :=
  t ← zget (ColTypes rh) i; Ret (str (default ""%string (map_get TypeNameMap t))).

Definition Query2 : list Z := str "{" ++ [34] ++ str "code" ++ [34] ++ str ":0," ++ [34] ++ str "column_meta" ++ [34] ++ str ":[".
Definition Query3 : list Z := str "]," ++ [34] ++ str "data" ++ [34] ++ str ":[".
Definition Query4 : list Z := str "]," ++ [34] ++ str "rows" ++ [34] ++ str ":".
Definition Timing : list Z := str "," ++ [34] ++ str "timing" ++ [34] ++ str ":".

(** One answer of [TaosFetchRawBlockA]: [result.N] and, when it is positive, the memory and the
    address of the block. *)
Record fetch := mkFetch { N : Z; f_mem : mem; f_block : Z }.

Section Execute.
Context {W : Type}.
#[local] Abbreviation stream := (Stream W).
Context (out_Write : W -> list Z -> W * Z * option error).
Context (format_float32 format_float64 : Z -> Z -> list Z).
Context (format_time : Z -> Z -> list Z).

Definition tryFlush (builder : stream) : stream * option error :=
  if Buffered builder >? 16352 then Flush out_Write builder else (builder, None).
Definition forceFlush (builder : stream) : stream * option error := Flush out_Write builder.

Definition write_meta (rh : RowsHeader) (fieldsCount i : Z) (s : stream) : go stream :=
  let s := WriteArrayStart s in
  name ← zget (ColNames rh) i;
  s ← WriteString s name;
  let s := WriteMore s in
  typ ← TypeDatabaseName rh i;
  s ← WriteString s typ;
  let s := WriteMore s in
  len ← zget (ColLength rh) i;
  s ← WriteInt64 s len;
  let s := WriteArrayEnd s in
  Ret (if negb (i =? fieldsCount - 1) then WriteMore s else s).

(** The loop that finds the header and the data of every column of a block. *)
Definition column_pointers (rh : RowsHeader) (fieldsCount : Z) (m : mem) (block blockSize : Z) : go (list Z * list Z) :=
  let nullBitMapOffset := BlockJson.BitmapLen blockSize in
  let lengthOffset := RawBlockGetColumnLengthOffset fieldsCount in
  let tmpPHeader := AddPointer block (RawBlockGetColDataOffset fieldsCount) in
  let zeros := replicate (Z.to_nat fieldsCount) 0 in
  st ← for_upto fieldsCount (fun column st =>
    let '(pHeaderList, pStartList, tmpPHeader) := st in
    colLength ← load_s 4 m (AddPointer block (lengthOffset + column * Int32Size));
    t ← zget (ColTypes rh) column;
    pHeaderList ← zset pHeaderList column tmpPHeader;
    let pStart := AddPointer tmpPHeader (if BlockJson.IsVarDataType t then 4 * blockSize else nullBitMapOffset) in
    pStartList ← zset pStartList column pStart;
    Ret (pHeaderList, pStartList, AddPointer pStart colLength)) (zeros, zeros, tmpPHeader);
  Ret (fst (fst st), snd (fst st)).

Definition write_item (rh : RowsHeader) (returnObj : bool) (fieldsCount : Z) (m : mem) (pHeaderList pStartList : list Z)
    (row precision column : Z) (s : stream) : go stream :=
  s ← (if returnObj then name ← zget (ColNames rh) column; WriteObjectField s name else Ret s);
  t ← zget (ColTypes rh) column;
  pHeader ← zget pHeaderList column;
  pStart ← zget pStartList column;
  s ← BlockJson.JsonWriteRawBlock format_float32 format_float64 format_time s m t pHeader pStart row precision;
  Ret (if negb (column =? fieldsCount - 1) then WriteMore s else s).

(** A loop that falls through with the stream and the number of rows, or returns from [execute]. *)
Inductive loop_end := Done (s : stream) (total : Z) | Return (s : stream).

Definition limit_reached (RestfulRowLimit total : Z) : bool := (RestfulRowLimit >? -1) && (total =? RestfulRowLimit).

(** The rows from [row] on, [n] of them. *)
Fixpoint write_rows (rh : RowsHeader) (returnObj : bool) (fieldsCount RestfulRowLimit : Z) (m : mem)
    (pHeaderList pStartList : list Z) (rowCount precision : Z) (n : nat) (row : Z) (s : stream) (total : Z) : go loop_end :=
  match n with
  | O => Ret (Done s total)
  | S n =>
    let s := if returnObj then WriteObjectStart s else WriteArrayStart s in
    s ← for_upto fieldsCount (write_item rh returnObj fieldsCount m pHeaderList pStartList row precision) s;
    match tryFlush s with
    | (s, Some _) => Ret (Return s)
    | (s, None) =>
      let s := if returnObj then WriteObjectEnd s else WriteArrayEnd s in
      let total := total + 1 in
      if limit_reached RestfulRowLimit total then Ret (Done s total)
      else
        let s := if negb (row =? rowCount - 1) then WriteMore s else s in
        write_rows rh returnObj fieldsCount RestfulRowLimit m pHeaderList pStartList rowCount precision n (row + 1) s total
    end
  end.

(** The fetch loop; the result is finished when the list is. *)
Fixpoint fetch_loop (rh : RowsHeader) (returnObj : bool) (fieldsCount RestfulRowLimit precision : Z)
    (fetches : list fetch) (fetched : bool) (s : stream) (total : Z) : go loop_end :=
  if limit_reached RestfulRowLimit total then Ret (Done s total)
  else
    match fetches with
    | [] => Ret (Done s total)
    | f :: fetches =>
      if N f =? 0 then Ret (Done s total)
      else if N f <? 0 then Ret (Done s total)
      else
        let s := if fetched then WriteMore s else s in
        ptrs ← column_pointers rh fieldsCount (f_mem f) (f_block f) (N f);
        e ← write_rows rh returnObj fieldsCount RestfulRowLimit (f_mem f) (fst ptrs) (snd ptrs) (N f) precision
              (Z.to_nat (N f)) 0 s total;
        match e with
        | Return s => Ret (Return s)
        | Done s total => fetch_loop rh returnObj fieldsCount RestfulRowLimit precision fetches true s total
        end
    end.

(** [execute] after [ReadColumn]; [timing] is the value written when timing was asked for, and the
    second component tells whether the response was completed. *)
Definition execute (builder : stream) (rh : RowsHeader) (returnObj : bool) (RestfulRowLimit precision : Z)
    (fetches : list fetch) (timing : option Z) : go (stream * bool) :=
  let fieldsCount := zlen (ColTypes rh) in
  let s := WritePure builder Query2 in
  s ← for_upto fieldsCount (write_meta rh fieldsCount) s;
  match tryFlush s with
  | (s, Some _) => Ret (s, false)
  | (s, None) =>
    let s := WritePure s Query3 in
    e ← fetch_loop rh returnObj fieldsCount RestfulRowLimit precision fetches false s 0;
    match e with
    | Return s => Ret (s, false)
    | Done s total =>
      let s := WritePure s Query4 in
      s ← WriteInt s total;
      s ← match timing with
          | Some t => WriteInt64 (WritePure s Timing) t
          | None => Ret s
          end;
      let s := WriteObjectEnd s in
      match forceFlush s with
      | (s, Some _) => Ret (s, false)
      | (s, None) => Ret (s, true)
      end
    end
  end.

End Execute.

(** ** The response as text *)

Section Text.
Context (format_float32 format_float64 : Z -> Z -> list Z).
Context (format_time : Z -> Z -> list Z).

(** A writer that takes everything: the bytes sent so far. *)
Definition accept (w : list Z) (p : list Z) : list Z * Z * option error := (w ++ p, zlen p, None).
#[local] Abbreviation stream := (Stream (list Z)).

(** The floats that JSON can express. *)
Definition value_finite (v : value) : Prop :=
  match v with
  | VFloat32 bits => bits mod 2 ^ 31 < 2139095040
  | VFloat64 bits => bits mod 2 ^ 63 < 9218868437227405312
  | _ => True
  end.

(** The JSON text of a value of a column of type [t]. *)
Definition text_of (t : Z) (v : value) (l : list Z) : Prop :=
  match v with
  | VNil => l = str "null"
  | VBool b => l = str (if b then "true" else "false")
  | VInt8 z | VInt16 z | VInt32 z | VInt64 z | VUint8 z | VUint16 z | VUint32 z | VUint64 z => is_integer l z
  | VFloat32 bits => exists fmt, l = format_float32 bits fmt /\ (fmt = 101 \/ fmt = 102)
  | VFloat64 bits => exists fmt, l = format_float64 bits fmt /\ (fmt = 101 \/ fmt = 102)
  | VString s => l = BlockJson.quoted s
  | VBytes b => l = if t =? TSDB_DATA_TYPE_JSON then b else [34] ++ concat (BlockJson.hex_byte <$> b) ++ [34]
  | _ => False
  end.

(** Texts separated by commas. *)
Fixpoint sep (ls : list (list Z)) : list Z :=
  match ls with
  | [] => []
  | [l] => l
  | l :: ls => l ++ [44] ++ sep ls
  end.

(** The text of a row: an array of the texts of its values, or an object of the columns. *)
Definition row_text (returnObj : bool) (names : list (list Z)) (tys : list Z) (vs : list value) (l : list Z) : Prop :=
  exists texts, Forall2 (fun tv l => text_of (fst tv) (snd tv) l) (zip tys vs) texts /\ length texts = length tys /\
    l = if returnObj then str "{" ++ sep (zip_with (fun n t => BlockJson.quoted n ++ [58] ++ t) names texts) ++ str "}"
        else str "[" ++ sep texts ++ str "]".

(** The text of the metadata of a column. *)
Definition meta_text (name : list Z) (t len : Z) (l : list Z) : Prop :=
  exists d, is_integer d len /\
    l = str "[" ++ sep [BlockJson.quoted name; BlockJson.quoted (str (default ""%string (map_get TypeNameMap t))); d] ++ str "]".

(** The rows of a response with a limit on their number; a negative limit is none. *)
Definition limited {A} (RestfulRowLimit total : Z) (l : list A) : list A :=
  if RestfulRowLimit >? -1 then ztake (RestfulRowLimit - total) l else l.

(** *** Emitted bytes *)

(** What was sent and what is still in the buffer. *)
Definition emitted (s : stream) : list Z := default [] (out s) ++ buf s.
(** A stream without indention, with a writer and no error. *)
Definition fine (s : stream) : Prop :=
  Error s = None /\ indention s = 0 /\ indentionStep (cfg s) = 0 /\ is_Some (out s).
Definition adds (s s' : stream) (l : list Z) : Prop := emitted s' = emitted s ++ l /\ fine s'.

Lemma adds_trans s1 s2 s3 a b : adds s1 s2 a -> adds s2 s3 b -> adds s1 s3 (a ++ b).
Proof. intros [E1 _] [E2 H]. split; [|done]. by rewrite E2, E1, app_assoc. Qed.
Lemma adds_nil s : fine s -> adds s s [].
Proof. intros H. split; [|done]. by rewrite app_nil_r. Qed.
Lemma adds_pure s l : fine s -> adds s (WritePure s l) l.
Proof. intros H. split; [|done]. unfold emitted, WritePure. cbn. by rewrite app_assoc. Qed.

#[local] Hint Resolve adds_nil adds_pure adds_trans : adds.

Lemma array_start_pure s : fine s -> WriteArrayStart s = WritePure s [91].
Proof.
  intros (_ & H1 & H2 & _). unfold WriteArrayStart, writeIndention, writeByte, WritePure, set_indention. cbn.
  rewrite H1, H2. done.
Qed.
Lemma array_end_pure s : fine s -> WriteArrayEnd s = WritePure s [93].
Proof.
  intros (_ & H1 & H2 & _). unfold WriteArrayEnd, writeIndention. rewrite H1, H2. cbn.
  unfold writeByte, set_indention, WritePure. cbn. by rewrite H1, H2.
Qed.
Lemma object_start_pure s : fine s -> WriteObjectStart s = WritePure s [123].
Proof.
  intros (_ & H1 & H2 & _). unfold WriteObjectStart, writeIndention, writeByte, WritePure, set_indention. cbn.
  rewrite H1, H2. done.
Qed.
Lemma object_end_pure s : fine s -> WriteObjectEnd s = WritePure s [125].
Proof.
  intros (_ & H1 & H2 & _). unfold WriteObjectEnd, writeIndention. rewrite H1, H2. cbn.
  unfold writeByte, set_indention, WritePure. cbn. by rewrite H1, H2.
Qed.
Lemma more_pure s : fine s -> WriteMore s = WritePure s [44].
Proof. intros (_ & H1 & _). unfold WriteMore, writeIndention. cbn. by rewrite H1. Qed.

Lemma flush_adds s : fine s -> exists s', Flush accept s = (s', None) /\ adds s s' [].
Proof.
  intros (H1 & H2 & H3 & [w Hw]). unfold Flush. rewrite Hw, H1. cbn. eexists. split; [done|]. split.
  - unfold emitted. cbn. by rewrite Hw, !app_nil_r.
  - by split_and!; eauto.
Qed.
Lemma tryFlush_adds s : fine s -> exists s', tryFlush accept s = (s', None) /\ adds s s' [].
Proof.
  intros H. unfold tryFlush. destruct (_ >? _); [by apply flush_adds|]. exists s. eauto with adds.
Qed.

Lemma string_adds s l : fine s -> is_bytes l -> exists s', WriteString s l = Ret s' /\ adds s s' (BlockJson.quoted l).
Proof. intros H Hl. rewrite WriteString_spec by done. eexists. split; [done|]. eauto with adds. Qed.

Lemma int_adds s x z : fine s -> writes_int s x z -> exists s' d, x = Ret s' /\ is_integer d z /\ adds s s' d.
Proof. intros H (d & -> & Hd). exists (WritePure s d), d. eauto with adds. Qed.

(** The value of an item, written. *)
Lemma written_text (s : stream) t v s' :
  BlockJson.json_written format_float32 format_float64 s t v s' -> value_finite v ->
  exists l, s' = WritePure s l /\ text_of t v l.
Proof.
  destruct v; cbn [BlockJson.json_written value_finite text_of]; try done;
    try (intros (l & -> & Hl) _; by exists l).
  - intros -> _. by exists (str "null").
  - intros -> _. exists (str (if b then "true" else "false")). split; [|done]. by destruct b.
  - intros -> Hf. unfold WriteFloat32. rewrite Z.geb_leb, (proj2 (Z.leb_gt _ _)) by done. eexists. split; [done|].
    eexists. split; [done|]. destruct (_ && _); auto.
  - intros -> Hf. unfold WriteFloat64. rewrite Z.geb_leb, (proj2 (Z.leb_gt _ _)) by done. eexists. split; [done|].
    eexists. split; [done|]. destruct (_ && _); auto.
  - intros -> _. eexists. split; [done|]. done.
  - intros -> _. eexists. split; [done|]. by destruct (_ =? _).
Qed.

(** An item of the block layout, as [ItemRawBlock] reads it. *)
Lemma item_ItemRawBlock m n t p row prec f v :
  table_ok t = true -> item m (prec, Some f) n t p row = Ret v ->
  ItemRawBlock m t p (data_start n t p) row prec f = Ret v.
Proof.
  unfold table_ok, item, ItemRawBlock, rawConvertVarDataSlice, rawConvertFuncSlice.
  destruct (IsVarDataType t); intros ->; [done|]. destruct (ItemIsNull m p row) as [[]| | |]; done.
Qed.

Lemma take_insert_S {A} (l : list A) k x : (k < length l)%nat -> take (S k) (<[k := x]> l) = take k l ++ [x].
Proof. intros Hk. rewrite (take_S_r _ _ x) by (by apply list_lookup_insert_eq). by rewrite take_insert_ge. Qed.

(** The pointers of the columns, for the layout that the block parser reads. *)
Lemma column_pointers_loop rh m block n arg : forall tys tys0 p cols phs pss,
  ColTypes rh = tys0 ++ tys -> cols_at m block n (length (tys0 ++ tys)) arg (zlen tys0) tys p cols ->
  length phs = length (tys0 ++ tys) -> length pss = length (tys0 ++ tys) ->
  exists hs ss p',
    for_loop (length tys) (zlen tys0) (fun column st =>
      let '(pHeaderList, pStartList, tmpPHeader) := st in
      colLength ← load_s 4 m (AddPointer block (RawBlockGetColumnLengthOffset (zlen (tys0 ++ tys)) + column * Int32Size));
      t ← zget (ColTypes rh) column;
      pHeaderList ← zset pHeaderList column tmpPHeader;
      let pStart := AddPointer tmpPHeader
        (if BlockJson.IsVarDataType t then 4 * Z.of_nat n else BlockJson.BitmapLen (Z.of_nat n)) in
      pStartList ← zset pStartList column pStart;
      Ret (pHeaderList, pStartList, AddPointer pStart colLength)) (phs, pss, p)
    = Ret (take (length tys0) phs ++ hs, take (length tys0) pss ++ ss, p') /\
    length hs = length tys /\ length ss = length tys /\
    forall i t h s vs row v, tys !! i = Some t -> hs !! i = Some h -> ss !! i = Some s -> cols !! i = Some vs ->
      vs !! row = Some v -> table_ok t = true /\ s = data_start (Z.of_nat n) t h /\
        item m arg (Z.of_nat n) t h (Z.of_nat row) = Ret v.
Proof.
  induction tys as [|t tys IH]; intros tys0 p cols phs pss Etys H Hh Hs.
  - exists [], [], p. rewrite app_nil_r in Hh, Hs. cbn [length for_loop]. rewrite !app_nil_r.
    rewrite <- Hh at 1. rewrite <- Hs at 1. rewrite !firstn_all. done.
  - inversion H as [|c t' tys' p' colLength vs cols' Hlen Ht Hn Hit Hrest]; subst.
    assert (Hlt : (length tys0 < length (tys0 ++ t :: tys))%nat) by (rewrite length_app; cbn; lia).
    set (pst := data_start (Z.of_nat (length vs)) t p).
    destruct (IH (tys0 ++ [t]) (AddPointer pst colLength) cols' (<[length tys0 := p]> phs) (<[length tys0 := pst]> pss))
      as (hs & ss & p' & E & Hhs & Hss & Hall).
    + by rewrite <- app_assoc.
    + rewrite <- app_assoc, zlen_app. exact Hrest.
    + rewrite <- app_assoc, length_insert. done.
    + rewrite <- app_assoc, length_insert. done.
    + exists (p :: hs), (pst :: ss), p'. split; [|split; [cbn; lia|split; [cbn; lia|]]].
      * cbn [length for_loop]. change (zlen (tys0 ++ t :: tys)) with (Z.of_nat (length (tys0 ++ t :: tys))).
        rewrite Hlen, go_bind_ret, Etys, zget_middle, go_bind_ret.
        rewrite !zset_in by (unfold zlen; lia). rewrite !go_bind_ret. replace (Z.to_nat (zlen tys0)) with (length tys0) by (unfold zlen; lia).
        assert (Ep : AddPointer p (if BlockJson.IsVarDataType t then 4 * Z.of_nat (length vs)
          else BlockJson.BitmapLen (Z.of_nat (length vs))) = pst).
        { unfold pst, data_start. change (BlockJson.IsVarDataType t) with (IsVarDataType t). by destruct (IsVarDataType t). }
        rewrite Ep. rewrite <- !app_assoc in E. cbn [app] in E. rewrite zlen_snoc, Etys in E.
        change (zlen (tys0 ++ t :: tys)) with (Z.of_nat (length (tys0 ++ t :: tys))) in E. rewrite E.
        rewrite !length_app. cbn [length]. rewrite Nat.add_1_r.
        rewrite !take_insert_S by lia.
        by rewrite <- !app_assoc.
      * intros [|i] t0 h s vs0 row v; cbn; [|by apply Hall]. intros [= <-] [= <-] [= <-] [= <-] Hv.
        split; [done|]. split; [done|]. by apply Hit.
Qed.

Lemma column_pointers_spec rh m block n arg cols :
  cols_at m block n (length (ColTypes rh)) arg 0 (ColTypes rh)
    (AddPointer block (RawBlockGetColDataOffset (zlen (ColTypes rh)))) cols ->
  exists hs ss, column_pointers rh (zlen (ColTypes rh)) m block (Z.of_nat n) = Ret (hs, ss) /\
    length hs = length (ColTypes rh) /\ length ss = length (ColTypes rh) /\
    forall i t h s vs row v, ColTypes rh !! i = Some t -> hs !! i = Some h -> ss !! i = Some s -> cols !! i = Some vs ->
      vs !! row = Some v -> table_ok t = true /\ s = data_start (Z.of_nat n) t h /\
        item m arg (Z.of_nat n) t h (Z.of_nat row) = Ret v.
Proof.
  intros H. unfold column_pointers, for_upto.
  replace (Z.to_nat (zlen (ColTypes rh))) with (length (ColTypes rh)) by (unfold zlen; lia).
  destruct (column_pointers_loop rh m block n arg (ColTypes rh) [] _ cols
    (replicate (length (ColTypes rh)) 0) (replicate (length (ColTypes rh)) 0) eq_refl H) as (hs & ss & p' & E & H1 & H2 & H3);
    [by rewrite length_replicate..|].
  cbn [length take app] in E. change (zlen []) with 0 in E. rewrite E, go_bind_ret. cbn [fst snd]. by exists hs, ss.
Qed.

Lemma sep_cons l ls : sep (l :: ls) = l ++ match ls with [] => [] | _ => 44 :: sep ls end.
Proof. destruct ls; cbn; [by rewrite app_nil_r|done]. Qed.

Lemma sep_app a b : a <> [] -> b <> [] -> sep (a ++ b) = sep a ++ 44 :: sep b.
Proof.
  intros Ha Hb. induction a as [|x a IH]; [done|]. rewrite <- app_comm_cons, !sep_cons. destruct a as [|y a].
  - cbn [app]. destruct b; [done|]. by rewrite app_nil_r.
  - cbn [app] in *. rewrite IH by done. by rewrite <- app_assoc.
Qed.

Lemma zip_with_right {A B} (l : list A) (k : list B) : (length k <= length l)%nat -> zip_with (fun _ y => y) l k = k.
Proof. revert l. induction k as [|y k IH]; intros [|x l] H; cbn in *; try done; [lia|]. f_equal. apply IH. lia. Qed.

Lemma str_bytes x : is_bytes (str x).
Proof.
  unfold str, is_bytes. rewrite Forall_fmap. apply Forall_forall. intros a _. unfold compose, is_byte.
  pose proof (Ascii.nat_ascii_bounded a). lia.
Qed.

Hypothesis format_time_bytes : forall p t, is_bytes (format_time p t).

Section Rows.
Context (rh : RowsHeader) (returnObj : bool) (RestfulRowLimit precision : Z).
#[local] Abbreviation tys := (ColTypes rh).
#[local] Abbreviation names := (ColNames rh).
#[local] Abbreviation fieldsCount := (zlen tys).
Context (Hnames : length names = length tys).
Context (Hbytes : Forall is_bytes names).

(** The values [vs] of a row can be read through the pointers of the columns. *)
Definition row_at (m : mem) (hs ss : list Z) (row : Z) (vs : list value) : Prop :=
  length vs = length tys /\ length hs = length tys /\ length ss = length tys /\
  forall i t h s v, tys !! i = Some t -> hs !! i = Some h -> ss !! i = Some s -> vs !! i = Some v ->
    ItemRawBlock m t h s row precision (BlockJson.time_value format_time) = Ret v /\ value_finite v.

Definition wrap_field (name text : list Z) : list Z :=
  if returnObj then BlockJson.quoted name ++ [58] ++ text else text.

Lemma write_item_adds m hs ss row vs i t v name (s : stream) :
  zlen m < 2 ^ 64 -> is_bytes m -> row_at m hs ss row vs -> fine s ->
  tys !! i = Some t -> vs !! i = Some v -> names !! i = Some name ->
  exists s' l, write_item format_float32 format_float64 format_time rh returnObj fieldsCount m hs ss row precision
      (Z.of_nat i) s = Ret s' /\ text_of t v l /\
    adds s s' (wrap_field name l ++ if Z.of_nat i =? fieldsCount - 1 then [] else [44]).
Proof.
  intros Hm Hb (H1 & H2 & H3 & Hitem) Hs Ht Hv Hname. unfold write_item.
  pose proof (lookup_lt_Some _ _ _ Ht) as Hlt.
  destruct (lookup_lt_is_Some_2 hs i ltac:(lia)) as [h Hh]. destruct (lookup_lt_is_Some_2 ss i ltac:(lia)) as [st Hst].
  destruct (Hitem i t h st v Ht Hh Hst Hv) as [Hit Hfin].
  assert (Hfield : exists s1, (if returnObj then name ← zget names (Z.of_nat i); WriteObjectField s name else Ret s) = Ret s1 /\
    adds s s1 (if returnObj then BlockJson.quoted name ++ [58] else [])).
  { destruct returnObj; [|exists s; split; [done|by apply adds_nil]].
    rewrite (zget_lookup _ _ _ Hname), go_bind_ret. unfold WriteObjectField.
    rewrite WriteString_spec by (rewrite Forall_lookup in Hbytes; by eapply Hbytes). rewrite go_bind_ret.
    cbn [indention WritePure]. destruct Hs as (? & E & ?). rewrite E. eexists. split; [done|].
    unfold writeByte. rewrite WritePure_WritePure. by apply adds_pure. }
  destruct Hfield as (s1 & -> & Hs1). rewrite go_bind_ret.
  rewrite (zget_lookup _ _ _ Ht), go_bind_ret, (zget_lookup _ _ _ Hh), go_bind_ret, (zget_lookup _ _ _ Hst), go_bind_ret.
  destruct (BlockJson.JsonWriteRawBlock_adds format_float32 format_float64 format_time format_time_bytes s1 m t h st row
    precision v Hm Hb Hit) as (s2 & -> & Hw).
  rewrite go_bind_ret. destruct (written_text _ _ _ _ Hw Hfin) as (l & -> & Hl).
  assert (Hs2 : adds s (WritePure s1 l) (wrap_field name l)).
  { unfold wrap_field. pose proof (adds_trans _ _ _ _ _ Hs1 (adds_pure s1 l (proj2 Hs1))) as H.
    destruct returnObj; [by rewrite app_assoc|done]. }
  eexists _, l. split; [done|]. split; [done|]. destruct (_ =? _); cbn [negb].
  - by rewrite app_nil_r.
  - rewrite more_pure by apply Hs2. eapply adds_trans; [done|]. apply adds_pure, Hs2.
Qed.

#[local] Abbreviation write_item_ := (write_item format_float32 format_float64 format_time rh returnObj fieldsCount).

Lemma write_items_adds m hs ss row vs : zlen m < 2 ^ 64 -> is_bytes m -> row_at m hs ss row vs ->
  forall k i (s : stream), (i + k = length tys)%nat -> fine s ->
  exists s' texts, for_loop k (Z.of_nat i) (write_item_ m hs ss row precision) s = Ret s' /\
    Forall2 (fun tv l => text_of (fst tv) (snd tv) l) (drop i (zip tys vs)) texts /\
    adds s s' (sep (zip_with wrap_field (drop i names) texts)).
Proof.
  intros Hm Hb Hrow. pose proof Hrow as (H1 & _).
  assert (Hzip : length (zip tys vs) = length tys) by (rewrite length_zip_with; lia).
  induction k as [|k IH]; intros i s Hk Hs; cbn [for_loop].
  { exists s, []. rewrite (drop_ge (zip tys vs)) by lia. split; [done|]. split; [constructor|].
    destruct (drop i names); by apply adds_nil. }
  destruct (lookup_lt_is_Some_2 tys i ltac:(lia)) as [t Ht]. destruct (lookup_lt_is_Some_2 vs i ltac:(lia)) as [v Hv].
  destruct (lookup_lt_is_Some_2 names i ltac:(lia)) as [name Hn].
  destruct (write_item_adds m hs ss row vs i t v name s Hm Hb Hrow Hs Ht Hv Hn) as (s1 & l & E1 & Hl & Ha1).
  rewrite E1, go_bind_ret. replace (Z.of_nat i + 1) with (Z.of_nat (S i)) by lia.
  destruct (IH (S i) s1 ltac:(lia) (proj2 Ha1)) as (s2 & texts & E2 & Ht2 & Ha2).
  exists s2, (l :: texts). split; [done|].
  rewrite (drop_S (zip tys vs) (t, v) i) by (by rewrite lookup_zip_with, Ht, Hv).
  rewrite (drop_S names name i) by done. split; [by constructor|].
  cbn [zip_with]. rewrite sep_cons. pose proof (adds_trans _ _ _ _ _ Ha1 Ha2) as Ha. rewrite <- app_assoc in Ha.
  apply Forall2_length in Ht2. rewrite length_drop in Ht2.
  destruct (Z.eqb_spec (Z.of_nat i) (fieldsCount - 1)) as [He|He].
  - destruct texts; [|cbn in Ht2; unfold zlen in He; lia]. by destruct (drop (S i) names).
  - destruct texts as [|x texts]; [cbn in Ht2; unfold zlen in He; lia|].
    destruct (drop (S i) names) as [|n0 ns] eqn:Ed; [|done].
    apply (f_equal length) in Ed. rewrite length_drop in Ed. cbn in Ed, Ht2. lia.
Qed.

(** One row, from its opening to its closing bracket. *)
Lemma write_row_adds m hs ss row vs (s : stream) : zlen m < 2 ^ 64 -> is_bytes m -> row_at m hs ss row vs -> fine s ->
  exists s1 s2 l, for_upto fieldsCount (write_item_ m hs ss row precision)
      (if returnObj then WriteObjectStart s else WriteArrayStart s) = Ret s1 /\
    tryFlush accept s1 = (s2, None) /\ row_text returnObj names tys vs l /\
    adds s (if returnObj then WriteObjectEnd s2 else WriteArrayEnd s2) l.
Proof.
  intros Hm Hb Hrow Hs. unfold for_upto.
  replace (Z.to_nat fieldsCount) with (length tys) by (unfold zlen; lia).
  assert (Hopen : adds s (if returnObj then WriteObjectStart s else WriteArrayStart s) (str (if returnObj then "{" else "["))).
  { rewrite object_start_pure, array_start_pure by done. destruct returnObj; by apply adds_pure. }
  destruct (write_items_adds m hs ss row vs Hm Hb Hrow (length tys) 0 _ eq_refl (proj2 Hopen)) as (s1 & texts & E1 & Ht & Ha1).
  destruct (tryFlush_adds s1 (proj2 Ha1)) as (s2 & E2 & Ha2).
  assert (Hlen : length texts = length tys).
  { apply Forall2_length in Ht. destruct Hrow as (H1 & _). rewrite drop_0, length_zip_with in Ht. lia. }
  exists s1, s2. eexists. split; [done|]. split; [done|]. split.
  - exists texts. split; [done|]. split; [done|]. reflexivity.
  - assert (Hclose : adds s2 (if returnObj then WriteObjectEnd s2 else WriteArrayEnd s2) (str (if returnObj then "}" else "]"))).
    { rewrite object_end_pure, array_end_pure by apply Ha2. destruct returnObj; apply adds_pure, Ha2. }
    pose proof (adds_trans _ _ _ _ _ (adds_trans _ _ _ _ _ (adds_trans _ _ _ _ _ Hopen Ha1) Ha2) Hclose) as Ha.
    rewrite drop_0, app_nil_r, <- app_assoc in Ha. unfold wrap_field in Ha. destruct returnObj; [done|].
    rewrite zip_with_right in Ha by lia. done.
Qed.

#[local] Abbreviation write_rows_ :=
  (write_rows accept format_float32 format_float64 format_time rh returnObj fieldsCount RestfulRowLimit).

(** The limit leaves room for [total] rows, or there is none. *)
Definition room (total : Z) : Prop := RestfulRowLimit <= -1 \/ total <= RestfulRowLimit.

Lemma limit_reached_false total : room total -> limit_reached RestfulRowLimit total = false ->
  RestfulRowLimit <= -1 \/ total < RestfulRowLimit.
Proof. unfold room, limit_reached. lia. Qed.

Lemma limited_cons {A} total (x : A) l : RestfulRowLimit <= -1 \/ total < RestfulRowLimit ->
  limited RestfulRowLimit total (x :: l) = x :: limited RestfulRowLimit (total + 1) l.
Proof.
  intros H. unfold limited. destruct (Z.gtb_spec RestfulRowLimit (-1)); [|done]. unfold ztake.
  replace (Z.to_nat (RestfulRowLimit - total)) with (S (Z.to_nat (RestfulRowLimit - (total + 1)))) by lia. done.
Qed.

Lemma limited_reached {A} total (l : list A) : limit_reached RestfulRowLimit total = true -> limited RestfulRowLimit total l = [].
Proof.
  unfold limit_reached, limited. intros [H1 H2]%andb_true_iff. rewrite H1. apply Z.eqb_eq in H2 as ->.
  rewrite Z.sub_diag. done.
Qed.

Lemma write_rows_adds m hs ss rowCount : zlen m < 2 ^ 64 -> is_bytes m ->
  forall rows row total (s : stream), fine s -> room total ->
  limit_reached RestfulRowLimit total = false -> row + zlen rows = rowCount ->
  (forall k vs, rows !! k = Some vs -> row_at m hs ss (row + Z.of_nat k) vs) ->
  exists s' texts, write_rows_ m hs ss rowCount precision (length rows) row s total
      = Ret (Done s' (total + zlen texts)) /\
    Forall2 (row_text returnObj names tys) (limited RestfulRowLimit total rows) texts /\ adds s s' (sep texts).
Proof.
  intros Hm Hb. induction rows as [|vs rows IH]; intros row total s Hs Hroom Hlim Hcount Hat; cbn [length write_rows].
  { exists s, []. split; [by rewrite Z.add_0_r|]. split; [|by apply adds_nil].
    unfold limited, ztake. rewrite take_nil. destruct (_ >? _); constructor. }
  pose proof (Hat 0%nat vs eq_refl) as Hrow. rewrite Z.add_0_r in Hrow.
  destruct (write_row_adds m hs ss row vs s Hm Hb Hrow Hs) as (s1 & s2 & l & E1 & E2 & Hl & Ha).
  rewrite E1, go_bind_ret, E2. apply limit_reached_false in Hlim; [|done]. rewrite (limited_cons total vs rows Hlim).
  destruct (limit_reached RestfulRowLimit (total + 1)) eqn:Hlim'.
  { eexists _, [l]. split; [done|]. split; [|done]. rewrite limited_reached by done. repeat constructor. done. }
  rewrite zlen_cons in Hcount. pose proof (zlen_nonneg rows).
  set (s3 := if returnObj then WriteObjectEnd s2 else WriteArrayEnd s2) in *.
  assert (Hmore : adds s (if negb (row =? rowCount - 1) then WriteMore s3 else s3) (l ++ match rows with [] => [] | _ => [44] end)).
  { destruct rows as [|v0 rows].
    - rewrite (proj2 (Z.eqb_eq _ _)) by (change (zlen []) with 0 in Hcount; lia). cbn [negb]. by rewrite app_nil_r.
    - rewrite zlen_cons in *. pose proof (zlen_nonneg rows). rewrite (proj2 (Z.eqb_neq _ _)) by lia. cbn [negb].
      rewrite more_pure by apply Ha. eapply adds_trans; [done|]. apply adds_pure, Ha. }
  destruct (IH (row + 1) (total + 1) _ (proj2 Hmore)) as (s' & texts & E & Ht & Ha').
  - unfold room. lia.
  - done.
  - lia.
  - intros k vs' Hk. replace (row + 1 + Z.of_nat k) with (row + Z.of_nat (S k)) by lia. by apply Hat.
  - exists s', (l :: texts). rewrite zlen_cons. replace (total + (1 + zlen texts)) with (total + 1 + zlen texts) by lia.
    split; [done|]. split; [by constructor|]. rewrite sep_cons.
    pose proof (adds_trans _ _ _ _ _ Hmore Ha') as Hall. rewrite <- app_assoc in Hall.
    assert (Hne : match rows with [] => texts = [] | _ => texts <> [] end).
    { destruct rows as [|v0 rows].
      - unfold limited, ztake in Ht. rewrite take_nil in Ht. destruct (_ >? _); by inversion Ht.
      - apply limit_reached_false in Hlim'; [|unfold room; lia]. rewrite (limited_cons _ v0 rows Hlim') in Ht.
        by inversion Ht. }
    destruct rows; [subst texts; done|]. by destruct texts.
Qed.

(** A fetched block that the block parser reads as [rows], with floats that JSON can express. *)
Definition block_ok (f : fetch) (rows : list (list value)) : Prop :=
  0 < N f /\ zlen (f_mem f) < 2 ^ 64 /\ is_bytes (f_mem f) /\
  ReadBlockWithTimeFormat (f_mem f) (f_block f) (N f) tys precision (BlockJson.time_value format_time) = Ret rows /\
  Forall (Forall value_finite) rows.

Lemma cols_at_column m block n k arg c ts p cols vs :
  cols_at m block n k arg c ts p cols -> vs ∈ cols -> length vs = n.
Proof.
  induction 1 as [|c t ts p len vs0 cols Hlen Ht Hn Hit Hrest IH]; intros Hin; [by apply elem_of_nil in Hin|].
  apply elem_of_cons in Hin as [->|Hin]; [done|by apply IH].
Qed.

Lemma block_rows f rows : block_ok f rows ->
  exists hs ss, column_pointers rh fieldsCount (f_mem f) (f_block f) (N f) = Ret (hs, ss) /\
    length rows = Z.to_nat (N f) /\
    forall k vs, rows !! k = Some vs -> row_at (f_mem f) hs ss (Z.of_nat k) vs.
Proof.
  intros (HN & _ & _ & Hread & Hfin). replace (N f) with (Z.of_nat (Z.to_nat (N f))) in Hread |- * by lia.
  set (n := Z.to_nat (N f)) in *. unfold ReadBlockWithTimeFormat in Hread.
  apply read_block_spec in Hread as (cols & Hcols & Erows).
  destruct (column_pointers_spec rh _ _ n _ cols Hcols) as (hs & ss & E & Hh & Hss & Hall).
  pose proof (cols_at_length _ _ _ _ _ _ _ _ _ Hcols) as Hlen.
  exists hs, ss. split; [done|]. assert (Hrows : length rows = n).
  { rewrite Erows. unfold rows_of. by rewrite length_fmap, length_seq. }
  split; [by rewrite Hrows, Nat2Z.id|].
  intros k vs Hk. pose proof (lookup_lt_Some _ _ _ Hk) as Hlt.
  assert (Evs : vs = row_cells cols k).
  { rewrite Erows, <- Hlen in Hk. rewrite rows_of_lookup in Hk by lia. by injection Hk as <-. }
  split; [by rewrite Evs, length_row_cells|]. split; [done|]. split; [done|].
  intros i t h st v Ht Hhi Hsi Hv. pose proof Hv as Hv'. rewrite Evs in Hv. unfold row_cells in Hv.
  rewrite list_lookup_fmap in Hv. destruct (cols !! i) as [col|] eqn:Ec; [|done]. cbn in Hv.
  destruct (col !! k) as [v'|] eqn:Ek.
  2: { apply lookup_ge_None in Ek. rewrite (cols_at_column _ _ _ _ _ _ _ _ _ col Hcols) in Ek;
       [lia|by eapply list_elem_of_lookup_2]. }
  injection Hv as ->. destruct (Hall i t h st col k v Ht Hhi Hsi Ec Ek) as (Htab & -> & Hit).
  split; [by apply item_ItemRawBlock|].
  rewrite Forall_lookup in Hfin. specialize (Hfin k vs Hk). rewrite Forall_lookup in Hfin. by apply (Hfin i).
Qed.

Lemma limited_app {A} total (a b : list A) : room total ->
  limited RestfulRowLimit total (a ++ b)
  = limited RestfulRowLimit total a ++ limited RestfulRowLimit (total + zlen (limited RestfulRowLimit total a)) b.
Proof.
  intros Hroom. unfold limited, room in *. destruct (Z.gtb_spec RestfulRowLimit (-1)) as [Hgt|Hle].
  - unfold ztake. rewrite take_app. f_equal. f_equal. unfold zlen. rewrite length_take. lia.
  - done.
Qed.

Lemma limited_room {A} total (l : list A) : room total -> room (total + zlen (limited RestfulRowLimit total l)).
Proof.
  unfold room, limited. intros H. destruct (Z.gtb_spec RestfulRowLimit (-1)); [|lia].
  unfold zlen, ztake. rewrite length_take. lia.
Qed.

(** The answers end: no more blocks, an empty one, or an error code. *)
Definition stops (rest : list fetch) : Prop := match rest with [] => True | f :: _ => N f <= 0 end.

Lemma fetch_loop_adds fetches rowss rest : Forall2 block_ok fetches rowss -> stops rest ->
  forall fetched (s : stream) total, fine s -> room total ->
  exists s' texts, fetch_loop accept format_float32 format_float64 format_time rh returnObj fieldsCount RestfulRowLimit
      precision (fetches ++ rest) fetched s total = Ret (Done s' (total + zlen texts)) /\
    Forall2 (row_text returnObj names tys) (limited RestfulRowLimit total (concat rowss)) texts /\
    adds s s' ((match texts with [] => [] | _ => if fetched then [44] else [] end) ++ sep texts).
Proof.
  intros Hok Hstop. induction Hok as [|f rows fetches rowss Hf Hrest IH]; intros fetched s total Hs Hroom.
  - exists s, []. split; [|split; [|by apply adds_nil]].
    + cbn [app]. destruct rest as [|f rest]; cbn [fetch_loop]; (destruct (limit_reached _ _); [by rewrite Z.add_0_r|]).
      * by rewrite Z.add_0_r.
      * cbn in Hstop. destruct (Z.eqb_spec (N f) 0); [by rewrite Z.add_0_r|].
        rewrite (proj2 (Z.ltb_lt _ _)) by lia. by rewrite Z.add_0_r.
    + cbn [concat]. unfold limited, ztake. rewrite take_nil. destruct (_ >? _); constructor.
  - cbn [app fetch_loop concat]. destruct (limit_reached RestfulRowLimit total) eqn:Hlim.
    { exists s, []. rewrite Z.add_0_r, limited_reached by done. split; [done|]. split; [constructor|by apply adds_nil]. }
    destruct (block_rows f rows Hf) as (hs & ss & Eptr & Hlen & Hat). destruct Hf as (HN & Hm & Hb & _).
    rewrite (proj2 (Z.eqb_neq _ _)), (proj2 (Z.ltb_ge _ _)) by lia. rewrite Eptr, go_bind_ret, <- Hlen. cbn [fst snd].
    assert (Hmore : adds s (if fetched then WriteMore s else s) (if fetched then [44] else [])).
    { destruct fetched; [rewrite more_pure by done; by apply adds_pure|by apply adds_nil]. }
    destruct (write_rows_adds _ hs ss (N f) Hm Hb rows 0 total _ (proj2 Hmore) Hroom Hlim) as (s1 & texts & E1 & Ht1 & Ha1).
    { unfold zlen. lia. }
    { intros k vs Hk. by apply Hat. }
    rewrite E1, go_bind_ret.
    assert (Hl1 : zlen texts = zlen (limited RestfulRowLimit total rows)) by (unfold zlen; by rewrite (Forall2_length _ _ _ Ht1)).
    destruct (IH true s1 (total + zlen texts) (proj2 Ha1)) as (s2 & texts2 & E2 & Ht2 & Ha2).
    { rewrite Hl1. by apply limited_room. }
    exists s2, (texts ++ texts2). rewrite zlen_app, Z.add_assoc. split; [done|].
    rewrite limited_app by done. rewrite Hl1 in Ht2. split; [by apply Forall2_app|].
    pose proof (adds_trans _ _ _ _ _ Hmore (adds_trans _ _ _ _ _ Ha1 Ha2)) as Ha.
    assert (Hne : texts <> []).
    { apply limit_reached_false in Hlim; [|done]. destruct rows as [|r0 rows]; [cbn in Hlen; lia|].
      rewrite limited_cons in Ht1 by done. by inversion Ht1. }
    destruct texts as [|t0 texts]; [done|]. cbn [app] in *. destruct texts2 as [|t1 texts2].
    + rewrite !app_nil_r in *. done.
    + change (t0 :: texts ++ t1 :: texts2) with ((t0 :: texts) ++ t1 :: texts2). rewrite sep_app by done. done.
Qed.

Context (Hlens : length (ColLength rh) = length tys).
Context (Hlens_ok : Forall (in_s 64) (ColLength rh)).

(** The texts of the columns' metadata. *)
Definition metas_text (from : nat) (texts : list (list Z)) : Prop :=
  length texts = (length tys - from)%nat /\
  forall i name t len l, names !! (from + i)%nat = Some name -> tys !! (from + i)%nat = Some t ->
    ColLength rh !! (from + i)%nat = Some len -> texts !! i = Some l -> meta_text name t len l.

Lemma write_meta_adds i name t len (s : stream) : fine s ->
  names !! i = Some name -> tys !! i = Some t -> ColLength rh !! i = Some len ->
  exists s' l, write_meta rh fieldsCount (Z.of_nat i) s = Ret s' /\ meta_text name t len l /\
    adds s s' (l ++ if Z.of_nat i =? fieldsCount - 1 then [] else [44]).
Proof.
  intros Hs Hn Ht Hl. unfold write_meta. rewrite array_start_pure by done.
  pose proof (adds_pure s [91] Hs) as A0. rewrite (zget_lookup _ _ _ Hn), go_bind_ret.
  destruct (string_adds _ name (proj2 A0)) as (s1 & -> & A1).
  { rewrite Forall_lookup in Hbytes. by eapply Hbytes. }
  rewrite go_bind_ret, more_pure by apply A1. pose proof (adds_pure s1 [44] (proj2 A1)) as A2.
  unfold TypeDatabaseName. rewrite (zget_lookup _ _ _ Ht), !go_bind_ret.
  destruct (string_adds _ (str (default ""%string (map_get TypeNameMap t))) (proj2 A2) (str_bytes _)) as (s3 & -> & A3).
  rewrite go_bind_ret, more_pure by apply A3. pose proof (adds_pure s3 [44] (proj2 A3)) as A4.
  rewrite (zget_lookup _ _ _ Hl), go_bind_ret.
  destruct (int_adds _ _ _ (proj2 A4) (WriteInt64_int (WritePure s3 [44]) len ltac:(rewrite Forall_lookup in Hlens_ok; by eapply Hlens_ok)))
    as (s5 & d & -> & Hd & A5).
  rewrite go_bind_ret, array_end_pure by apply A5. pose proof (adds_pure s5 [93] (proj2 A5)) as A6.
  pose proof (adds_trans _ _ _ _ _ A0 (adds_trans _ _ _ _ _ A1 (adds_trans _ _ _ _ _ A2 (adds_trans _ _ _ _ _ A3
    (adds_trans _ _ _ _ _ A4 (adds_trans _ _ _ _ _ A5 A6)))))) as A.
  eexists _, _. split; [done|]. split; [exists d; split; [done|reflexivity]|].
  assert (Etext : str "[" ++ sep [BlockJson.quoted name; BlockJson.quoted (str (default ""%string (map_get TypeNameMap t))); d]
    ++ str "]" = [91] ++ BlockJson.quoted name ++ [44] ++ BlockJson.quoted (str (default ""%string (map_get TypeNameMap t)))
    ++ [44] ++ d ++ [93]).
  { cbn [sep]. change (str "[") with [91]. change (str "]") with [93]. by rewrite <- !app_assoc. }
  rewrite Etext. destruct (_ =? _); cbn [negb]; [by rewrite app_nil_r|].
  rewrite more_pure by apply A. eapply adds_trans; [exact A|]. apply adds_pure, A.
Qed.

Lemma write_metas_adds : forall k i (s : stream), (i + k = length tys)%nat -> fine s ->
  exists s' texts, for_loop k (Z.of_nat i) (write_meta rh fieldsCount) s = Ret s' /\ metas_text i texts /\
    adds s s' (sep texts).
Proof.
  induction k as [|k IH]; intros i s Hk Hs; cbn [for_loop].
  { exists s, []. split; [done|]. split; [|by apply adds_nil]. split; [cbn; lia|]. intros j name t len l _ _ _ Hl. done. }
  destruct (lookup_lt_is_Some_2 tys i ltac:(lia)) as [t Ht]. destruct (lookup_lt_is_Some_2 names i ltac:(lia)) as [name Hn].
  destruct (lookup_lt_is_Some_2 (ColLength rh) i ltac:(lia)) as [len Hl].
  destruct (write_meta_adds i name t len s Hs Hn Ht Hl) as (s1 & l & E1 & Hm & A1).
  rewrite E1, go_bind_ret. replace (Z.of_nat i + 1) with (Z.of_nat (S i)) by lia.
  destruct (IH (S i) s1 ltac:(lia) (proj2 A1)) as (s2 & texts & E2 & [Hlen Hm2] & A2).
  exists s2, (l :: texts). split; [done|]. split.
  - split; [cbn; lia|]. intros [|j] name' t' len' l'.
    + rewrite Nat.add_0_r, Hn, Ht, Hl. by intros [= <-] [= <-] [= <-] [= <-].
    + rewrite <- !Nat.add_succ_comm. apply Hm2.
  - rewrite sep_cons. pose proof (adds_trans _ _ _ _ _ A1 A2) as A. rewrite <- app_assoc in A.
    destruct (Z.eqb_spec (Z.of_nat i) (fieldsCount - 1)) as [He|He]; unfold zlen in He.
    + by destruct texts; [|cbn in Hlen; lia].
    + by destruct texts; [cbn in Hlen; lia|].
Qed.

(** The text of the timing, when it was asked for. *)
Definition timing_text (timing : option Z) (l : list Z) : Prop :=
  match timing with None => l = [] | Some t => exists d, l = Timing ++ d /\ is_integer d t end.

(** C6. The body of a query's response is complete and well-formed: when the block parser reads
    the fetched blocks as [rowss], [execute] completes, whatever it flushes on the way, and what
    it sent is exactly the metadata of the columns, one JSON array (or object) of values per row,
    in order, separated by commas also across blocks and cut at the configured row limit, and the
    number of rows.  An error code of a later fetch ends the rows like the end of the result, with
    the same success code in the body. *)
Theorem execute_response (builder : stream) fetches rest rowss timing :
  fine builder -> emitted builder = [] ->
  Forall2 block_ok fetches rowss -> stops rest -> zlen (concat rowss) < 2 ^ 63 ->
  (forall t, timing = Some t -> in_s 64 t) ->
  exists s' metas texts d tm,
    execute accept format_float32 format_float64 format_time builder rh returnObj RestfulRowLimit precision
      (fetches ++ rest) timing = Ret (s', true) /\
    metas_text 0 metas /\ Forall2 (row_text returnObj names tys) (limited RestfulRowLimit 0 (concat rowss)) texts /\
    is_integer d (zlen texts) /\ timing_text timing tm /\
    emitted s' = Query2 ++ sep metas ++ Query3 ++ sep texts ++ Query4 ++ d ++ tm ++ str "}".
Proof.
  intros Hb He Hf Hstop Hmany Htm. unfold execute, for_upto.
  replace (Z.to_nat fieldsCount) with (length tys) by (unfold zlen; lia).
  pose proof (adds_pure builder Query2 Hb) as A0.
  destruct (write_metas_adds (length tys) 0 _ eq_refl (proj2 A0)) as (s1 & metas & E1 & Hmetas & A1).
  change (Z.of_nat 0) with 0 in E1. rewrite E1, go_bind_ret.
  destruct (tryFlush_adds s1 (proj2 A1)) as (s2 & -> & A2).
  pose proof (adds_pure s2 Query3 (proj2 A2)) as A3.
  assert (Hroom : room 0) by (unfold room; lia).
  destruct (fetch_loop_adds fetches rowss rest Hf Hstop false _ 0 (proj2 A3) Hroom) as (s4 & texts & E4 & Htexts & A4).
  rewrite E4, go_bind_ret, Z.add_0_l. pose proof (adds_pure s4 Query4 (proj2 A4)) as A5.
  assert (Hcount : in_s 64 (zlen texts)).
  { assert (zlen texts <= zlen (concat rowss)).
    { unfold zlen. rewrite <- (Forall2_length _ _ _ Htexts). unfold limited. destruct (_ >? _); [|lia].
      unfold ztake. rewrite length_take. lia. }
    pose proof (zlen_nonneg texts). unfold in_s. lia. }
  destruct (int_adds _ _ _ (proj2 A5) (WriteInt64_int (WritePure s4 Query4) (zlen texts) Hcount)) as (s6 & d & E6 & Hd & A6).
  unfold WriteInt. rewrite (wrap_s_id 64 (zlen texts)) by (done || lia). rewrite E6, go_bind_ret.
  assert (Ht : exists s7 tm, match timing with Some t => WriteInt64 (WritePure s6 Timing) t | None => Ret s6 end = Ret s7 /\
    timing_text timing tm /\ adds s6 s7 tm).
  { destruct timing as [t|].
    - pose proof (adds_pure s6 Timing (proj2 A6)) as B0.
      destruct (int_adds _ _ _ (proj2 B0) (WriteInt64_int (WritePure s6 Timing) t (Htm t eq_refl))) as (s7 & dt & E7 & Hdt & B1).
      exists s7, (Timing ++ dt). split; [done|]. split; [by exists dt|]. by eapply adds_trans.
    - exists s6, []. split; [done|]. split; [done|]. apply adds_nil, A6. }
  destruct Ht as (s7 & tm & -> & Htt & A7). rewrite go_bind_ret, object_end_pure by apply A7.
  pose proof (adds_pure s7 [125] (proj2 A7)) as A8.
  destruct (flush_adds _ (proj2 A8)) as (s9 & E9 & A9). unfold forceFlush. rewrite E9.
  exists s9, metas, texts, d, tm. split; [done|]. split; [done|]. split; [done|]. split; [done|]. split; [done|].
  pose proof (adds_trans _ _ _ _ _ A0 (adds_trans _ _ _ _ _ A1 (adds_trans _ _ _ _ _ A2 (adds_trans _ _ _ _ _ A3
    (adds_trans _ _ _ _ _ A4 (adds_trans _ _ _ _ _ A5 (adds_trans _ _ _ _ _ A6 (adds_trans _ _ _ _ _ A7
    (adds_trans _ _ _ _ _ A8 A9))))))))) as [A _].
  rewrite A, He, app_nil_r. cbn [app]. by destruct texts.
Qed.
End Rows.
End Text.

(** ** Examples *)

Definition ex_builder : Stream (list Z) := mkStream defaultConfig (Some []) [] None 0.
Definition ex_header (t : Z) : RowsHeader := mkHeader [str "c"] [t] [4].

(** One column of four-byte integers with two rows: 7 and NULL. *)
Definition ex_ints : mem := replicate 28 0 ++ [4; 4; 0; 0; 0] ++ [8; 0; 0; 0] ++ [64; 7; 0; 0; 0; 0; 0; 0; 0].

(** One double, a NaN. *)
Definition ex_nan : mem := replicate 28 0 ++ [7; 8; 0; 0; 0] ++ [8; 0; 0; 0] ++ [0; 0; 0; 0; 0; 0; 0; 248; 127].
Definition ex_format (_ _ : Z) : list Z := [].

Lemma ex_ints_ok : block_ok ex_format (ex_header TSDB_DATA_TYPE_INT) 0 (mkFetch 2 ex_ints 0) [[VInt32 7]; [VNil]].
Proof.
  split; [done|]. split; [done|]. split; [repeat (apply Forall_cons_2; [done|]); constructor|].
  split; [vm_compute; reflexivity|]. repeat constructor.
Qed.

(** The response to a fetched block followed by an error code, in object form, with a row limit. *)
Lemma execute_response_witness :
  exists s' metas texts d tm,
    execute accept ex_format ex_format ex_format ex_builder (ex_header TSDB_DATA_TYPE_INT) true 1 0
      ([mkFetch 2 ex_ints 0] ++ [mkFetch (-1) [] 0]) (Some 5) = Ret (s', true) /\
    metas_text (ex_header TSDB_DATA_TYPE_INT) 0 metas /\
    Forall2 (row_text ex_format ex_format true [str "c"] [TSDB_DATA_TYPE_INT]) (limited 1 0 (concat [[[VInt32 7]; [VNil]]])) texts /\
    is_integer d (zlen texts) /\ timing_text (Some 5) tm /\
    emitted s' = Query2 ++ sep metas ++ Query3 ++ sep texts ++ Query4 ++ d ++ tm ++ str "}".
Proof.
  assert (Ht : forall p t, is_bytes (ex_format p t)) by (intros p t; apply Forall_nil_2).
  assert (Hb : Forall is_bytes [str "c"]) by (apply Forall_cons_2; [apply str_bytes|apply Forall_nil_2]).
  assert (Hl : Forall (in_s 64) [4]) by (apply Forall_cons_2; [split; vm_compute; congruence|apply Forall_nil_2]).
  apply (execute_response ex_format ex_format ex_format Ht (ex_header TSDB_DATA_TYPE_INT) true 1 0 eq_refl Hb eq_refl Hl
    ex_builder [mkFetch 2 ex_ints 0] [mkFetch (-1) [] 0] [[[VInt32 7]; [VNil]]] (Some 5)).
  - repeat split; eauto.
  - reflexivity.
  - constructor; [apply ex_ints_ok|constructor].
  - cbn. lia.
  - reflexivity.
  - intros t [= <-]. split; vm_compute; congruence.
Defined.

(** One value that JSON cannot express loses the whole response: with a NaN in a row that the
    block parser reads, [execute] stops at the last flush and sends nothing at all, although the
    status 200 was already written. *)
Theorem execute_nan_sends_nothing :
  exists v s', ReadBlockWithTimeFormat ex_nan 0 1 [TSDB_DATA_TYPE_DOUBLE] 0 (BlockJson.time_value ex_format) = Ret [[v]] /\
    execute accept ex_format ex_format ex_format ex_builder (ex_header TSDB_DATA_TYPE_DOUBLE) false (-1) 0
      [mkFetch 1 ex_nan 0] None = Ret (s', false) /\ out s' = Some [].
Proof. eexists _, _. split_and!; vm_compute; reflexivity. Qed.

End Rest.
