(* ===== verification/Types.v ===== *)
(** * Types: the nullable scan types and the error type of the driver

    Models [src/driver/types/types.go] (the [Null*] types with their [Scan], [Value] and [String],
    and [RawMessage]) and [src/driver/errors/errors.go].  The thirteen types that differ only in
    the Go type they hold are records of operations, [NullKind]; [NullTime] has a [Scan] of its
    own.  [time.Parse] and the formatting of floats are parameters. *)
From S2P Require Import Prelude Common JsonBuilder.
#[local] Open Scope Z_scope.

(** ** [TaosError] *)
Module TaosErr.

Record TaosError := mkTaosError { Code : Z; ErrStr : list Z }.

Definition SUCCESS : Z := 0.
Definition UNKNOWN : Z := 65535.

(** [strconv]'s digits of [n] in base [b], most significant first. *)
Fixpoint digits_of (fuel : nat) (b n : Z) (acc : list Z) : list Z :=
  match fuel with
  | O => acc
  | S fuel =>
    let acc := default 0 (Json.hex !! Z.to_nat (n mod b)) :: acc in
    if n / b =? 0 then acc else digits_of fuel b (n / b) acc
  end.

(** The verbs [%v] and [%x] of a signed integer: a minus sign and the digits of the magnitude
    (64 digits are enough for a 64-bit integer in any base). *)
Definition fmt_int (b z : Z) : list Z :=
  if z <? 0 then 45 :: digits_of 64 b (- z) [] else digits_of 64 b z [].

(** ["[0x%x] %s"]. *)
Definition Error (e : TaosError) : list Z :=
  if negb (Code e =? UNKNOWN) then str "[0x" ++ fmt_int 16 (Code e) ++ str "] " ++ ErrStr e
  else ErrStr e.

Definition NewError (code : Z) (errStr : list Z) : TaosError :=
  mkTaosError (Z.land (i32 code) 65535) errStr.

End TaosErr.

(** ** The [Null*] types *)
Module Null.
Import TaosErr.

Record Null (A : Type) := mkNull { Inner : A; Valid : bool }.
#[global] Arguments mkNull {A}.
#[global] Arguments Inner {A}.
#[global] Arguments Valid {A}.

(** What distinguishes one [Null*] type from another: the Go type it holds (as a type assertion
    and an injection into the empty interface), the assignment a NULL makes to [Inner], the name
    in the error message and the text of a value.  [NullBool], [NullString] and [NullJson] do not
    reset [Inner] on NULL, and have no [String]. *)
Record NullKind := mkKind {
  carrier : Type;
  assert_type : value -> option carrier;
  to_value : carrier -> value;
  null_inner : carrier -> carrier;
  parse_error : list Z;
  sprint : option (carrier -> list Z)
}.

(** [n.Scan(value)]: the object after the call and the error. *)
Definition Scan (K : NullKind) (n : Null (carrier K)) (v : value) : Null (carrier K) * option TaosError :=
  match v with
  | VNil => (mkNull (null_inner K (Inner n)) false, None)
  | _ =>
    let n := mkNull (Inner n) true in
    match assert_type K v with
    | None => (n, Some (mkTaosError 65535 (parse_error K)))
    | Some x => (mkNull x (Valid n), None)
    end
  end.

Definition Value (K : NullKind) (n : Null (carrier K)) : value :=
  if negb (Valid n) then VNil else to_value K (Inner n).

(** [n.String()], where the type has one. *)
Definition String_ (K : NullKind) (n : Null (carrier K)) : option (list Z) :=
  (fun f => if Valid n then f (Inner n) else str "NULL") <$> sprint K.

(** ["taosSql parse " + name + " error"]. *)
Definition parse_msg (name : list Z) : list Z :=
  str "taosSql parse " ++ name ++ str " error".

Section Kinds.
(** [fmt.Sprintf("%v", f)] for the two float types, on bit patterns. *)
Context (sprint_float32 sprint_float64 : Z -> list Z).

Definition NullInt64 : NullKind :=
  mkKind Z (fun v => match v with VInt64 z => Some z | _ => None end) VInt64 (fun _ => 0)
    (parse_msg (str "int64")) (Some (fmt_int 10)).
Definition NullInt32 : NullKind :=
  mkKind Z (fun v => match v with VInt32 z => Some z | _ => None end) VInt32 (fun _ => 0)
    (parse_msg (str "int32")) (Some (fmt_int 10)).
Definition NullInt16 : NullKind :=
  mkKind Z (fun v => match v with VInt16 z => Some z | _ => None end) VInt16 (fun _ => 0)
    (parse_msg (str "int16")) (Some (fmt_int 10)).
Definition NullInt8 : NullKind :=
  mkKind Z (fun v => match v with VInt8 z => Some z | _ => None end) VInt8 (fun _ => 0)
    (parse_msg (str "int8")) (Some (fmt_int 10)).
Definition NullUInt64 : NullKind :=
  mkKind Z (fun v => match v with VUint64 z => Some z | _ => None end) VUint64 (fun _ => 0)
    (parse_msg (str "uint64")) (Some (fmt_int 10)).
Definition NullUInt32 : NullKind :=
  mkKind Z (fun v => match v with VUint32 z => Some z | _ => None end) VUint32 (fun _ => 0)
    (parse_msg (str "uint32")) (Some (fmt_int 10)).
Definition NullUInt16 : NullKind :=
  mkKind Z (fun v => match v with VUint16 z => Some z | _ => None end) VUint16 (fun _ => 0)
    (parse_msg (str "uint16")) (Some (fmt_int 10)).
Definition NullUInt8 : NullKind :=
  mkKind Z (fun v => match v with VUint8 z => Some z | _ => None end) VUint8 (fun _ => 0)
    (parse_msg (str "uint8")) (Some (fmt_int 10)).
Definition NullFloat32 : NullKind :=
  mkKind Z (fun v => match v with VFloat32 z => Some z | _ => None end) VFloat32 (fun _ => 0)
    (parse_msg (str "float32")) (Some sprint_float32).
Definition NullFloat64 : NullKind :=
  mkKind Z (fun v => match v with VFloat64 z => Some z | _ => None end) VFloat64 (fun _ => 0)
    (parse_msg (str "float64")) (Some sprint_float64).
Definition NullBool : NullKind :=
  mkKind bool (fun v => match v with VBool b => Some b | _ => None end) VBool (fun old => old)
    (parse_msg (str "bool")) None.
Definition NullString : NullKind :=
  mkKind (list Z) (fun v => match v with VString s => Some s | _ => None end) VString (fun old => old)
    (parse_msg (str "string")) None.
(** [Scan] takes a [[]byte], [Value] gives a [RawMessage]; a nil slice is the empty slice here. *)
Definition NullJson : NullKind :=
  mkKind (list Z) (fun v => match v with VBytes s => Some s | _ => None end) VRawMessage (fun old => old)
    (parse_msg (str "json")) None.

Definition all_kinds : list NullKind :=
  [NullInt64; NullInt32; NullInt16; NullInt8; NullUInt64; NullUInt32; NullUInt16; NullUInt8;
   NullFloat32; NullFloat64; NullBool; NullString; NullJson].

End Kinds.

(** ** Laws *)

(** What makes the holder of a Go type sound: the assertion accepts exactly the values of the
    type, and none of them is the nil interface. *)
Class KindLaws (K : NullKind) : Prop := {
  assert_to : forall x, assert_type K (to_value K x) = Some x;
  assert_inv : forall v x, assert_type K v = Some x -> v = to_value K x;
  assert_nil : assert_type K VNil = None
}.

Section Laws.
Context (sprint_float32 sprint_float64 : Z -> list Z).
#[local] Abbreviation kinds := (all_kinds sprint_float32 sprint_float64).

(** Every type but [NullJson], the last of the list. *)
Definition sound_kinds : list NullKind := take 12 kinds.

Lemma sound_kinds_laws : Forall KindLaws sound_kinds.
Proof.
  unfold sound_kinds, all_kinds. cbn [take]. repeat apply Forall_cons_2; [..|constructor].
  all: constructor; [done| |done]; intros v x; destruct v; intros [= ->]; done.
Qed.

Lemma to_value_not_nil K `{KindLaws K} x : to_value K x <> VNil.
Proof. intros E. pose proof (assert_to x) as Ha. rewrite E, assert_nil in Ha. discriminate. Qed.

Lemma Scan_non_nil K n v : v <> VNil ->
  Scan K n v = match assert_type K v with
               | None => (mkNull (Inner n) true, Some (mkTaosError 65535 (parse_error K)))
               | Some x => (mkNull x true, None)
               end.
Proof. by destruct v. Qed.

Lemma Scan_to_value K `{KindLaws K} n x : Scan K n (to_value K x) = (mkNull x true, None).
Proof. rewrite Scan_non_nil by (by apply to_value_not_nil). by rewrite assert_to. Qed.

(** [Scan] and [Value] of the nullable types are inverse to each other: scanning what [Value]
    gives restores a valid object exactly and a NULL as a NULL; a [Scan] that succeeds makes
    [Value] return the scanned value; and it fails exactly on a value of another type, leaving
    the old content in place but marked valid. *)
Theorem Scan_Value K n :
  In K sound_kinds ->
  (forall m, exists n', Scan K n (Value K m) = (n', None) /\ Value K n' = Value K m /\ (Valid m = true -> n' = m)) /\
  (forall v n', Scan K n v = (n', None) -> Value K n' = v) /\
  (forall v n' e, Scan K n v = (n', Some e) <->
    v <> VNil /\ (forall x, v <> to_value K x) /\ e = mkTaosError UNKNOWN (parse_error K) /\
    n' = mkNull (Inner n) true).
Proof.
  intros HK. assert (KindLaws K) by (pose proof sound_kinds_laws as Hl; rewrite List.Forall_forall in Hl; by apply Hl).
  split; [|split].
  - intros [x []]; unfold Value; cbn; [|by eexists]. rewrite (Scan_to_value K). by eexists.
  - intros v n'. destruct (decide (v = VNil)) as [->|Hv]; [by intros [= <-]|]. rewrite Scan_non_nil by done.
    destruct (assert_type K v) as [x|] eqn:E; [|done]. intros [= <-]. cbn. symmetry. by apply assert_inv.
  - intros v n' e. destruct (decide (v = VNil)) as [->|Hv]; [split; [done|by intros []]|]. rewrite Scan_non_nil by done.
    destruct (assert_type K v) as [x|] eqn:E.
    + split; [done|]. intros (_ & Hx & _). destruct (Hx x). by apply assert_inv.
    + split; [|by intros (_ & _ & -> & ->)]. intros [= <- <-]. split_and!; [done| |done..].
      intros x ->. by rewrite assert_to in E.
Qed.

(** The JSON type is the exception: what [NullJson.Value] returns for a valid object is a
    [RawMessage], which [NullJson.Scan] rejects, whatever the receiver. *)
Theorem NullJson_Scan_Value (n : Null (list Z)) (b : list Z) :
  Scan NullJson n (Value NullJson (mkNull b true)) =
    (mkNull (Inner n) true, Some (mkTaosError UNKNOWN (parse_msg (str "json")))).
Proof. done. Qed.

End Laws.

Lemma Scan_Value_witness :
  In (NullInt64) (sound_kinds (fun _ => []) (fun _ => [])) /\
  exists n', Scan NullInt64 (mkNull 5 true) (Value NullInt64 (mkNull 7 true)) = (n', None) /\
    Value NullInt64 n' = Value NullInt64 (mkNull 7 true) /\ (true = true -> n' = mkNull 7 true).
Proof.
  assert (H : In (NullInt64) (sound_kinds (fun _ => []) (fun _ => []))) by (left; reflexivity).
  split; [exact H|]. exact (proj1 (Scan_Value (fun _ => []) (fun _ => []) NullInt64 (mkNull 5 true) H) (mkNull 7 true)).
Defined.

(** ** [NullTime] *)
Section Time.
(** [time.Parse(time.RFC3339Nano, s)]: the instant, or the zero time and an error. *)
Context (time_Parse : list Z -> option Z).

(** [time.Time{}], 1 January of year 1 UTC, in nanoseconds from the epoch. *)
Definition zero_time : Z := -62135596800 * 1000000000.

Inductive time_error := ErrParse (s : list Z) | ErrConvert (v : value).

Definition scan_text (s : list Z) : Null Z * option time_error :=
  match time_Parse s with
  | Some t => (mkNull t true, None)
  | None => (mkNull zero_time false, Some (ErrParse s))
  end.

Definition NullTime_Scan (nt : Null Z) (v : value) : Null Z * option time_error :=
  match v with
  | VNil => (mkNull zero_time false, None)
  | VTime t => (mkNull t true, None)
  | VBytes s => scan_text s
  | VString s => scan_text s
  | _ => (mkNull (Inner nt) false, Some (ErrConvert v))
  end.

Definition NullTime_Value (nt : Null Z) : value := if negb (Valid nt) then VNil else VTime (Inner nt).

(** [NullTime] is valid exactly after a [Scan] without error of something that is not NULL;
    an instant is kept as it is and survives a round trip through [Value]; a failed [Scan] leaves
    an invalid object. *)
Theorem NullTime_Scan_Value (nt : Null Z) (v : value) nt' e :
  NullTime_Scan nt v = (nt', e) ->
  (Valid nt' = true <-> e = None /\ v <> VNil) /\
  (Valid nt' = false -> NullTime_Value nt' = VNil) /\
  (forall t, v = VTime t -> nt' = mkNull t true /\ NullTime_Value nt' = v) /\
  (forall m, NullTime_Scan m (NullTime_Value nt') = (if Valid nt' then nt' else mkNull zero_time false, None)).
Proof.
  intros Hs.
  assert (Hv : Valid nt' = true <-> e = None /\ v <> VNil).
  { destruct v; cbn in Hs; unfold scan_text in Hs;
      repeat match type of Hs with context [time_Parse ?s] => destruct (time_Parse s) end;
      injection Hs as <- <-; cbn; intuition congruence. }
  split; [done|]. destruct nt' as [x val]. unfold NullTime_Value. cbn. split; [by intros ->|]. split.
  - intros t ->. cbn in Hs. by injection Hs as <- <- <-.
  - intros m. by destruct val.
Qed.

End Time.

Lemma NullTime_Scan_Value_witness :
  Valid (mkNull 9 true) = true <-> (None : option time_error) = None /\ VString (str "x") <> VNil.
Proof.
  exact (proj1 (NullTime_Scan_Value (fun _ => Some 9) (mkNull 1 false) (VString (str "x")) (mkNull 9 true) None eq_refl)).
Defined.
End Null.

(** ** [RawMessage] *)
Module Raw.

(** A slice that may be nil. *)
Definition RawMessage : Type := option (list Z).

Definition MarshalJSON (m : RawMessage) : list Z :=
  match m with None => str "null" | Some b => b end.

(** [*m = append(( *m)[0:0], data...)]; [None] for the receiver is the nil pointer. *)
Definition UnmarshalJSON (m : option RawMessage) (data : list Z) : option RawMessage + TaosErr.TaosError :=
  match m with
  | None => inr (TaosErr.mkTaosError 65535
      (str "json.RawMessage: UnmarshalJSON on nil pointer"))
  | Some old => inl (Some (match old, data with None, [] => None | _, _ => Some data end))
  end.

End Raw.
