(* ===== verification/ConnectPool.v ===== *)
(** * ConnectPool: the connection pool

    Models [src/tools/connectpool/pool.go] as a transition system.  A goroutine that uses the pool
    is a program counter; each transition is one critical section of the mutex, one operation on a
    channel, or one access outside the lock, so every interleaving of the code is a sequence of
    transitions.  [Release] runs as one transition: the receives that can happen while it drains
    the channel have the same effect just before it. *)
From S2P Require Import Prelude.
From stdpp Require Import sets.
#[local] Open Scope Z_scope.

Module Pool.

(** ** Data *)

Inductive error := ErrClosed | ErrTimeout | ErrMaxWait | ErrFactory | ErrNilConn | ErrConfig.

(** A channel of capacity one that carries a connection: a [chan connReq]. *)
Record chan := mkChan { buf : option Z; closed : bool }.

(** [ConnectPool].  The channel [conns] is its buffered content and whether it is open; [factory]
    and [close] are whether the function is set; [connReqs] are the identities of the requests. *)
Record ConnectPool := mkPool {
  conns : list Z;
  conns_open : bool;
  factory : bool;
  close : bool;
  maxActive : Z;
  openingConns : Z;
  maxWait : Z;
  connReqs : list nat;
  released : bool
}.

(** Where a goroutine is: outside the pool, at a point of [GetWithContext] or of [Put], holding a
    connection, or returned with an error. *)
Inductive pc :=
| Idle
| Try                            (* in the loop, before the [select] on [conns] *)
| Locking                        (* in the default branch, before [c.mu.Lock()] *)
| Waiting (r : nat)              (* in the [select] on the request and the context *)
| Cancelled (r : nat)            (* the context is done, before [c.mu.Lock()] *)
| Receiving (r : nat)            (* the request was not in the queue: [<-req] *)
| Holding (c : Z)
| PutClosing (c : Z) (rel : bool) (* in [Put], before [c.Close(conn)]; [rel]: the released branch *)
| Checking                       (* in [Put], before [if c.openingConns == 0] *)
| Failed (e : error).

(** The pool, the request channels ever made, the goroutines, and the history of the connections
    the factory made and the close function was called on. *)
Record state := mkState {
  pool : ConnectPool;
  reqs : list chan;
  threads : list pc;
  created : list Z;
  destroyed : list Z
}.

(** A transition that is not enabled, because the goroutine is elsewhere or blocks, is [Stuck]; a
    send on a closed channel, a second close or a call of a nil function is a [Crash]. *)
Inductive outcome := Next (st : state) | Stuck | Crash.

Definition set_pool (st : state) (p : ConnectPool) : state :=
  mkState p (reqs st) (threads st) (created st) (destroyed st).
Definition set_reqs (st : state) (q : list chan) : state :=
  mkState (pool st) q (threads st) (created st) (destroyed st).
Definition set_pc (st : state) (i : nat) (x : pc) : state :=
  mkState (pool st) (reqs st) (<[i := x]> (threads st)) (created st) (destroyed st).
Definition set_conns (p : ConnectPool) (l : list Z) : ConnectPool :=
  mkPool l (conns_open p) (factory p) (close p) (maxActive p) (openingConns p) (maxWait p) (connReqs p) (released p).
Definition set_opening (p : ConnectPool) (n : Z) : ConnectPool :=
  mkPool (conns p) (conns_open p) (factory p) (close p) (maxActive p) n (maxWait p) (connReqs p) (released p).
Definition set_connReqs (p : ConnectPool) (l : list nat) : ConnectPool :=
  mkPool (conns p) (conns_open p) (factory p) (close p) (maxActive p) (openingConns p) (maxWait p) l (released p).
Definition set_close (p : ConnectPool) (b : bool) : ConnectPool :=
  mkPool (conns p) (conns_open p) (factory p) b (maxActive p) (openingConns p) (maxWait p) (connReqs p) (released p).

(** ** [GetWithContext] *)

Definition getConns (st : state) (i : nat) : outcome :=
  if released (pool st) then Next (set_pc st i (Failed ErrClosed)) else Next (set_pc st i Try).

(** [case wrapConn := <-conns] and [default].  Receiving from the closed channel gives nil. *)
Definition get_try (st : state) (i : nat) : outcome :=
  let p := pool st in
  match conns p with
  | c :: rest => Next (set_pc (set_pool st (set_conns p rest)) i (Holding c))
  | [] => if conns_open p then Next (set_pc st i Locking) else Next (set_pc st i (Failed ErrClosed))
  end.

(** The critical section of the default branch; [out] is what the factory returns if it is
    called, a connection it has not returned before. *)
Definition get_lock (st : state) (i : nat) (out : option Z) : outcome :=
  let p := pool st in
  if released p then Next (set_pc st i (Failed ErrClosed))
  else if openingConns p >=? maxActive p then
    if (maxWait p >? 0) && (zlen (connReqs p) >=? maxWait p) then Next (set_pc st i (Failed ErrMaxWait))
    else
      let r := length (reqs st) in
      let st := set_reqs st (reqs st ++ [mkChan None false]) in
      let st := set_pool st (set_connReqs p (connReqs p ++ [r])) in
      Next (set_pc st i (Waiting r))
  else if negb (factory p) then Next (set_pc st i (Failed ErrClosed))
  else
    match out with
    | None => Next (set_pc st i (Failed ErrFactory))
    | Some c =>
      if bool_decide (c ∈ created st) then Stuck
      else
        let st := mkState (set_opening p (openingConns p + 1)) (reqs st) (threads st) (created st ++ [c]) (destroyed st) in
        Next (set_pc st i (Holding c))
    end.

(** [ret, ok := <-req]. *)
Definition get_recv (st : state) (i r : nat) : outcome :=
  match reqs st !! r with
  | None => Stuck
  | Some ch =>
    match buf ch with
    | Some c => Next (set_pc (set_reqs st (<[r := mkChan None (closed ch)]> (reqs st))) i (Holding c))
    | None => if closed ch then Next (set_pc st i (Failed ErrClosed)) else Stuck
    end
  end.

(** The search loop: the queue without the first request equal to [r]. *)
Fixpoint remove_req (r : nat) (l : list nat) : option (list nat) :=
  match l with
  | [] => None
  | x :: l => if decide (x = r) then Some l else (fun l' => x :: l') <$> remove_req r l
  end.

(** The critical section after [ctx.Done()]. *)
Definition get_cancel (st : state) (i r : nat) : outcome :=
  let p := pool st in
  if released p then Next (set_pc st i (Failed ErrClosed))
  else
    match remove_req r (connReqs p) with
    | Some l => Next (set_pc (set_pool st (set_connReqs p l)) i (Failed ErrTimeout))
    | None => Next (set_pc st i (Receiving r))
    end.

(** ** [Put], [Close], [Release] *)

Definition put_lock (st : state) (i : nat) (c : Z) : outcome :=
  let p := pool st in
  if released p then Next (set_pc st i (PutClosing c true))
  else
    match connReqs p with
    | r :: rest =>
      match reqs st !! r with
      | None => Stuck
      | Some ch =>
        if closed ch then Crash
        else match buf ch with
             | Some _ => Stuck
             | None =>
               let st := set_pool st (set_connReqs p rest) in
               let st := set_reqs st (<[r := mkChan (Some c) false]> (reqs st)) in
               Next (set_pc st i Idle)
             end
      end
    | [] =>
      if negb (conns_open p) then Crash
      else if zlen (conns p) <? maxActive p then Next (set_pc (set_pool st (set_conns p (conns p ++ [c]))) i Idle)
      else Next (set_pc st i (PutClosing c false))
    end.

(** [Close(conn)] for a connection that is not nil; [x] is where the caller goes on. *)
Definition Close (st : state) (i : nat) (c : Z) (x : pc) : outcome :=
  let p := pool st in
  if negb (close p) then Next (set_pc st i x)
  else
    let st := mkState (set_opening p (openingConns p - 1)) (reqs st) (threads st) (created st) (destroyed st ++ [c]) in
    Next (set_pc st i x).

(** After [Close] in the released branch of [Put], outside the lock. *)
Definition put_check (st : state) (i : nat) : outcome :=
  let p := pool st in
  if openingConns p =? 0 then Next (set_pc (set_pool st (set_close p false)) i Idle) else Next (set_pc st i Idle).

(** [close(c.connReqs[i])] for every request; closing a closed channel panics. *)
Fixpoint close_reqs (l : list nat) (q : list chan) : option (list chan) :=
  match l with
  | [] => Some q
  | r :: l =>
    match q !! r with
    | None => None
    | Some ch => if closed ch then None else close_reqs l (<[r := mkChan (buf ch) true]> q)
    end
  end.

(** The body of [releasedOnce]: close and drain [conns]. *)
Definition doRelease (st : state) : outcome :=
  let p := pool st in
  if negb (conns_open p) then Crash
  else if negb (close p) && (0 <? zlen (conns p)) then Crash
  else
    let p' := mkPool [] false false (close p) (maxActive p) (openingConns p - zlen (conns p)) (maxWait p)
                (connReqs p) (released p) in
    Next (mkState p' (reqs st) (threads st) (created st) (destroyed st ++ conns p)).

Definition Release (st : state) : outcome :=
  let p := pool st in
  if released p then Next st
  else
    match close_reqs (connReqs p) (reqs st) with
    | None => Crash
    | Some q =>
      let p := mkPool (conns p) (conns_open p) (factory p) (close p) (maxActive p) (openingConns p) (maxWait p) [] true in
      doRelease (set_pool (set_reqs st q) p)
    end.

(** ** The transition system *)

Inductive action :=
| AGet (i : nat) | ATry (i : nat) | ALock (i : nat) (out : option Z) | ARecv (i : nat) | ADone (i : nat)
| ACancel (i : nat) | APut (i : nat) | APutClose (i : nat) | ACheck (i : nat) | AClose (i : nat)
| APutNil (i : nat) | AReturn (i : nat) | ARelease.

Definition step (st : state) (a : action) : outcome :=
  let at_pc i := threads st !! i in
  match a with
  | AGet i => match at_pc i with Some Idle => getConns st i | _ => Stuck end
  | ATry i => match at_pc i with Some Try => get_try st i | _ => Stuck end
  | ALock i out => match at_pc i with Some Locking => get_lock st i out | _ => Stuck end
  | ARecv i =>
    match at_pc i with Some (Waiting r) => get_recv st i r | Some (Receiving r) => get_recv st i r | _ => Stuck end
  | ADone i => match at_pc i with Some (Waiting r) => Next (set_pc st i (Cancelled r)) | _ => Stuck end
  | ACancel i => match at_pc i with Some (Cancelled r) => get_cancel st i r | _ => Stuck end
  | APut i => match at_pc i with Some (Holding c) => put_lock st i c | _ => Stuck end
  | APutClose i =>
    match at_pc i with
    | Some (PutClosing c rel) => Close st i c (if rel then Checking else Idle)
    | _ => Stuck
    end
  | ACheck i => match at_pc i with Some Checking => put_check st i | _ => Stuck end
  | AClose i => match at_pc i with Some (Holding c) => Close st i c Idle | _ => Stuck end
  | APutNil i => match at_pc i with Some Idle => Next (set_pc st i (Failed ErrNilConn)) | _ => Stuck end
  | AReturn i => match at_pc i with Some (Failed _) => Next (set_pc st i Idle) | _ => Stuck end
  | ARelease => Release st
  end.

Fixpoint run (st : state) (l : list action) : outcome :=
  match l with
  | [] => Next st
  | a :: l => match step st a with Next st' => run st' l | o => o end
  end.

(** ** [NewConnectPool] *)

Record Config := mkConfig { InitialCap : Z; MaxCap : Z; MaxWait : Z; hasFactory : bool; hasClose : bool }.

Inductive new_result := NewOk (p : ConnectPool) (made : list Z) | NewErr (made dropped : list Z) (e : error) | NewBlocked.

(** The loop over [InitialCap]; [mk k] is what call [k] of the factory returns.  A send to the full
    channel blocks, as nobody else has the pool yet.  On an error the pool is released, which
    closes what was made. *)
Fixpoint fill (n : nat) (k : nat) (mk : nat -> option Z) (p : ConnectPool) : new_result :=
  match n with
  | O => NewOk p (conns p)
  | S n =>
    match mk k with
    | None => NewErr (conns p) (conns p) ErrFactory
    | Some c =>
      let p := set_opening p (openingConns p + 1) in
      if zlen (conns p) <? maxActive p then fill n (S k) mk (set_conns p (conns p ++ [c]))
      else NewBlocked
    end
  end.

Definition NewConnectPool (cfg : Config) (mk : nat -> option Z) : new_result :=
  if MaxCap cfg <=? 0 then NewErr [] [] ErrConfig
  else if negb (hasFactory cfg) then NewErr [] [] ErrConfig
  else if negb (hasClose cfg) then NewErr [] [] ErrConfig
  else
    fill (Z.to_nat (InitialCap cfg)) 0 mk
      (mkPool [] true true true (MaxCap cfg) 0 (MaxWait cfg) [] false).

(** ** Connections are accounted for *)

Definition held (x : pc) : list Z :=
  match x with Holding c => [c] | PutClosing c _ => [c] | _ => [] end.
Definition chan_conns (ch : chan) : list Z := match buf ch with Some c => [c] | None => [] end.

(** The open connections: idle in the pool, on their way to a waiter, or held by a goroutine. *)
Definition live (st : state) : list Z :=
  conns (pool st) ++ concat (chan_conns <$> reqs st) ++ concat (held <$> threads st).

(** Every connection ever made is either open, in exactly one place, or closed, exactly once; the
    counter counts the open ones and never exceeds the maximum. *)
Record inv_live (st : state) : Prop := {
  il_created : created st ≡ₚ live st ++ destroyed st;
  il_nodup : NoDup (created st);
  il_count : openingConns (pool st) = zlen (live st);
  il_max : openingConns (pool st) <= maxActive (pool st);
  il_close : close (pool st) = false -> live st = [];
  il_run : released (pool st) = false ->
    close (pool st) = true /\ conns_open (pool st) = true /\ factory (pool st) = true;
  il_rel : released (pool st) = true -> conns (pool st) = [] /\ conns_open (pool st) = false /\ connReqs (pool st) = []
}.

(** The position of one element in a concatenation. *)
Lemma concat_insert {A B} (f : A -> list B) (l : list A) i x :
  l !! i = Some x ->
  exists rest, concat (f <$> l) ≡ₚ f x ++ rest /\ forall y, concat (f <$> <[i := y]> l) ≡ₚ f y ++ rest.
Proof.
  intros Hi. exists (concat (f <$> take i l) ++ concat (f <$> drop (S i) l)). split.
  - rewrite <- (take_drop_middle l i x Hi) at 1. rewrite fmap_app, concat_app, fmap_cons. cbn [concat].
    solve_Permutation.
  - intros y. rewrite insert_take_drop by (by eapply lookup_lt_Some).
    rewrite fmap_app, concat_app, fmap_cons. cbn [concat]. solve_Permutation.
Qed.

(** The open connections outside goroutine [i]. *)
Lemma live_pc st i x : threads st !! i = Some x ->
  exists rest, live st ≡ₚ held x ++ conns (pool st) ++ concat (chan_conns <$> reqs st) ++ rest /\
    forall p q y cr ds, live (mkState p q (<[i := y]> (threads st)) cr ds)
      ≡ₚ held y ++ conns p ++ concat (chan_conns <$> q) ++ rest.
Proof.
  intros Hi. destruct (concat_insert held _ _ _ Hi) as (rest & H1 & H2). exists rest. unfold live. cbn. split.
  - rewrite H1. solve_Permutation.
  - intros. rewrite H2. solve_Permutation.
Qed.

(** The fields that a transition moving connections around leaves alone. *)
Definition same_control (p p' : ConnectPool) : Prop :=
  conns_open p' = conns_open p /\ factory p' = factory p /\ close p' = close p /\ maxActive p' = maxActive p /\
  openingConns p' = openingConns p /\ released p' = released p.

Lemma inv_live_move st st' :
  inv_live st -> same_control (pool st) (pool st') -> created st' = created st -> destroyed st' = destroyed st ->
  live st' ≡ₚ live st ->
  (released (pool st) = true -> conns (pool st') = [] /\ connReqs (pool st') = []) -> inv_live st'.
Proof.
  intros [H1 H2 H3 H4 H5 H6 H7] (E1 & E2 & E3 & E4 & E5 & E6) Ec Ed Hl Hr.
  constructor; rewrite ?Ec, ?Ed, ?E1, ?E2, ?E3, ?E4, ?E5, ?E6; try done.
  - by rewrite Hl.
  - rewrite H3. unfold zlen. by rewrite Hl.
  - intros Hc. apply H5 in Hc. rewrite Hc in Hl. by apply Permutation_nil_r in Hl.
  - intros Hrel. destruct (Hr Hrel). destruct (H7 Hrel) as (_ & ? & _). done.
Qed.

(** A goroutine moves without touching a connection. *)
Lemma inv_live_pc st i x y :
  inv_live st -> threads st !! i = Some x -> held y = held x -> inv_live (set_pc st i y).
Proof.
  intros Hinv Hi Hh. destruct (live_pc st i x Hi) as (rest & Hl & Hs).
  apply (inv_live_move st); try done.
  - unfold set_pc. by rewrite Hs, Hl, Hh.
  - intros Hrel. destruct (il_rel _ Hinv Hrel) as (? & ? & ?). done.
Qed.

Lemma inv_live_try st i st' :
  inv_live st -> threads st !! i = Some Try -> get_try st i = Next st' -> inv_live st'.
Proof.
  intros Hinv Hi. unfold get_try. destruct (conns (pool st)) as [|c rest] eqn:Ec.
  - destruct (conns_open (pool st)); intros [= <-]; by apply (inv_live_pc _ _ _ _ Hinv Hi).
  - intros [= <-]. destruct (live_pc st i _ Hi) as (others & Hl & Hs). apply (inv_live_move st); try done.
    + unfold set_pc, set_pool. cbn [threads]. rewrite Hs, Hl, Ec. cbn. solve_Permutation.
    + intros Hrel. destruct (il_rel _ Hinv Hrel) as (? & ?). congruence.
Qed.

Lemma inv_live_lock st i out st' :
  inv_live st -> threads st !! i = Some Locking -> get_lock st i out = Next st' -> inv_live st'.
Proof.
  intros Hinv Hi. unfold get_lock. destruct (released (pool st)) eqn:Er.
  { intros [= <-]. by apply (inv_live_pc _ _ _ _ Hinv Hi). }
  destruct (live_pc st i _ Hi) as (others & Hl & Hs).
  destruct (openingConns (pool st) >=? maxActive (pool st)) eqn:Em.
  - destruct (_ && _); intros [= <-]; [by apply (inv_live_pc _ _ _ _ Hinv Hi)|].
    apply (inv_live_move st); try done.
    + unfold set_pc, set_pool, set_reqs. cbn [threads]. rewrite Hs, Hl. cbn.
      rewrite fmap_app, concat_app. cbn. solve_Permutation.
    + intros Hrel. cbn in Hrel. congruence.
  - destruct (negb _); [intros [= <-]; by apply (inv_live_pc _ _ _ _ Hinv Hi)|].
    destruct out as [c|]; [|intros [= <-]; by apply (inv_live_pc _ _ _ _ Hinv Hi)].
    case_bool_decide as Hfresh; [done|]. intros [= <-]. destruct Hinv as [H1 H2 H3 H4 H5 H6 H7].
    assert (Hlive : live (set_pc (mkState (set_opening (pool st) (openingConns (pool st) + 1)) (reqs st) (threads st)
      (created st ++ [c]) (destroyed st)) i (Holding c)) ≡ₚ c :: live st).
    { unfold set_pc. cbn [threads]. rewrite Hs, Hl. cbn. solve_Permutation. }
    constructor; cbn [created destroyed pool set_pc set_opening openingConns maxActive close released conns_open factory
      conns connReqs].
    + rewrite Hlive, H1. solve_Permutation.
    + apply NoDup_app. split_and!; [done| |apply NoDup_singleton]. intros x Hx ->%list_elem_of_singleton. done.
    + unfold zlen. rewrite Hlive. cbn [length]. unfold zlen in H3. lia.
    + rewrite Z.geb_leb in Em. apply Z.leb_gt in Em. lia.
    + intros Hc. destruct (H6 Er). congruence.
    + done.
    + congruence.
Qed.

Lemma inv_live_recv st i r x st' :
  inv_live st -> threads st !! i = Some x -> held x = [] -> get_recv st i r = Next st' -> inv_live st'.
Proof.
  intros Hinv Hi Hx. unfold get_recv. destruct (reqs st !! r) as [ch|] eqn:Er; [|done].
  destruct (buf ch) as [c|] eqn:Eb.
  - intros [= <-]. destruct (live_pc st i _ Hi) as (others & Hl & Hs).
    destruct (concat_insert chan_conns _ _ _ Er) as (chans & Hc & Hci). apply (inv_live_move st); try done.
    + unfold set_pc, set_reqs. cbn [threads pool reqs]. rewrite Hs, Hl, Hx, Hc, Hci. unfold chan_conns. cbn. rewrite Eb.
      solve_Permutation.
    + intros Hrel. destruct (il_rel _ Hinv Hrel) as (? & ? & ?). done.
  - destruct (closed ch); [|done]. intros [= <-]. apply (inv_live_pc _ _ _ _ Hinv Hi). by rewrite Hx.
Qed.

Lemma inv_live_cancel st i r st' :
  inv_live st -> threads st !! i = Some (Cancelled r) -> get_cancel st i r = Next st' -> inv_live st'.
Proof.
  intros Hinv Hi. unfold get_cancel. destruct (released (pool st)) eqn:Er.
  { intros [= <-]. by apply (inv_live_pc _ _ _ _ Hinv Hi). }
  destruct (remove_req _ _); intros [= <-]; [|by apply (inv_live_pc _ _ _ _ Hinv Hi)].
  destruct (live_pc st i _ Hi) as (others & Hl & Hs). apply (inv_live_move st); try done.
  - unfold set_pc, set_pool. cbn [threads]. by rewrite Hs, Hl.
  - cbn. congruence.
Qed.

Lemma inv_live_put st i c st' :
  inv_live st -> threads st !! i = Some (Holding c) -> put_lock st i c = Next st' -> inv_live st'.
Proof.
  intros Hinv Hi. unfold put_lock. destruct (released (pool st)) eqn:Er.
  { intros [= <-]. by apply (inv_live_pc _ _ _ _ Hinv Hi). }
  destruct (live_pc st i _ Hi) as (others & Hl & Hs). destruct (connReqs (pool st)) as [|r rest] eqn:Eq.
  - destruct (negb _); [done|]. destruct (_ <? _); intros [= <-]; [|by apply (inv_live_pc _ _ _ _ Hinv Hi)].
    apply (inv_live_move st); try done.
    + unfold set_pc, set_pool. cbn [threads]. rewrite Hs, Hl. cbn. solve_Permutation.
    + congruence.
  - destruct (reqs st !! r) as [ch|] eqn:Ec; [|done]. destruct (closed ch); [done|].
    destruct (buf ch) eqn:Eb; [done|]. intros [= <-].
    destruct (concat_insert chan_conns _ _ _ Ec) as (chans & Hc & Hci). apply (inv_live_move st); try done.
    + unfold set_pc, set_pool, set_reqs. cbn [threads reqs]. rewrite Hs, Hl, Hc, Hci. unfold chan_conns. cbn. rewrite Eb.
      solve_Permutation.
    + congruence.
Qed.

(** Connections are closed. *)
Lemma inv_live_drop st st' ds :
  inv_live st -> live st ≡ₚ ds ++ live st' -> created st' = created st -> destroyed st' = destroyed st ++ ds ->
  openingConns (pool st') = openingConns (pool st) - zlen ds -> maxActive (pool st') = maxActive (pool st) ->
  close (pool st') = true ->
  (released (pool st') = false -> conns_open (pool st') = true /\ factory (pool st') = true) ->
  (released (pool st') = true -> conns (pool st') = [] /\ conns_open (pool st') = false /\ connReqs (pool st') = []) ->
  inv_live st'.
Proof.
  intros [H1 H2 H3 H4 H5 H6 H7] Hl Ec Ed Eo Em Ecl Hrun Hrel. pose proof (zlen_nonneg ds).
  constructor; rewrite ?Ec, ?Ed, ?Em; try done.
  - rewrite H1, Hl. solve_Permutation.
  - rewrite Eo, H3. apply Permutation_length in Hl. rewrite length_app in Hl. unfold zlen. lia.
  - lia.
  - congruence.
  - intros Hr. by split; [|apply Hrun].
Qed.

Lemma inv_live_Close st i c x y st' :
  inv_live st -> threads st !! i = Some x -> held x = [c] -> held y = [] -> Close st i c y = Next st' -> inv_live st'.
Proof.
  intros Hinv Hi Hx Hy. destruct (live_pc st i _ Hi) as (others & Hl & Hs). unfold Close.
  destruct (close (pool st)) eqn:Ecl; cbn [negb].
  2: { rewrite (il_close _ Hinv), Hx in Hl by done. by apply Permutation_nil_cons in Hl. }
  intros [= <-]. apply (inv_live_drop st _ [c]); try done.
  - unfold set_pc. cbn [threads]. rewrite Hs, Hl, Hx, Hy. cbn. solve_Permutation.
  - intros Hr. by destruct (il_run _ Hinv Hr) as (_ & ? & ?).
  - apply (il_rel _ Hinv).
Qed.

Lemma inv_live_check st i st' :
  inv_live st -> threads st !! i = Some Checking -> released (pool st) = true -> put_check st i = Next st' -> inv_live st'.
Proof.
  intros Hinv Hi Hr. unfold put_check. destruct (Z.eqb_spec (openingConns (pool st)) 0) as [E|E]; intros [= <-];
    [|by apply (inv_live_pc _ _ _ _ Hinv Hi)].
  assert (Hnil : live st = []).
  { rewrite (il_count _ Hinv) in E. unfold zlen in E. apply length_zero_iff_nil. lia. }
  pose proof (inv_live_pc st i Checking Idle Hinv Hi eq_refl) as [H1 H2 H3 H4 H5 H6 H7].
  assert (Hlive : live (set_pc st i Idle) = []).
  { destruct (live_pc st i _ Hi) as (others & Hl & Hs). apply Permutation_nil_r. rewrite <- Hnil.
    unfold set_pc. by rewrite Hs, Hl. }
  constructor; try done. cbn. congruence.
Qed.

Lemma close_reqs_conns l : forall q q', close_reqs l q = Some q' -> chan_conns <$> q' = chan_conns <$> q.
Proof.
  induction l as [|r l IH]; intros q q'; cbn [close_reqs]; [by intros [= <-]|].
  destruct (q !! r) as [ch|] eqn:E; [|done]. destruct (closed ch); [done|]. intros Hq. rewrite (IH _ _ Hq).
  rewrite list_fmap_insert. cbn. apply list_insert_id. rewrite list_lookup_fmap, E. done.
Qed.

Lemma inv_live_Release st st' : inv_live st -> Release st = Next st' -> inv_live st'.
Proof.
  intros Hinv. unfold Release. destruct (released (pool st)) eqn:Er; [by intros [= <-]|].
  destruct (close_reqs _ _) as [q|] eqn:Eq; [|done]. apply close_reqs_conns in Eq.
  destruct (il_run _ Hinv Er) as (E1 & E2 & E3).
  unfold doRelease. cbn [pool set_pool set_reqs conns conns_open close]. rewrite E1, E2. cbn [negb andb].
  intros [= <-]. apply (inv_live_drop st _ (conns (pool st))); try done. unfold live. cbn. by rewrite Eq.
Qed.

(** ** Requests are answered *)

(** The request a goroutine waits for. *)
Definition waits (x : pc) : option nat :=
  match x with Waiting r => Some r | Cancelled r => Some r | Receiving r => Some r | _ => None end.
(** The points that only a released pool reaches. *)
Definition after_release (x : pc) : bool := match x with Checking => true | PutClosing _ rel => rel | _ => false end.
(** A receive from the channel does not block. *)
Definition ready (ch : chan) : Prop := buf ch <> None \/ closed ch = true.

(** The queue holds distinct, open and empty requests; each has a goroutine behind it; a goroutine
    that waits has a request of its own, in the queue or answered. *)
Record inv_req (st : state) : Prop := {
  ir_nodup : NoDup (connReqs (pool st));
  ir_open : forall r, r ∈ connReqs (pool st) -> reqs st !! r = Some (mkChan None false);
  ir_owner : forall r, r ∈ connReqs (pool st) -> exists i x, threads st !! i = Some x /\ waits x = Some r;
  ir_wait : forall i x r, threads st !! i = Some x -> waits x = Some r ->
    exists ch, reqs st !! r = Some ch /\ (ready ch \/ r ∈ connReqs (pool st));
  ir_recv : forall i r, threads st !! i = Some (Receiving r) -> r ∉ connReqs (pool st);
  ir_unique : forall i j x y r, threads st !! i = Some x -> threads st !! j = Some y ->
    waits x = Some r -> waits y = Some r -> i = j;
  ir_rel : forall i x, threads st !! i = Some x -> after_release x = true -> released (pool st) = true
}.

Lemma ready_empty : ~ ready (mkChan None false).
Proof. intros [H|H]; done. Qed.

(** A transition of goroutine [i] from [x] to [y]: what it must respect about the other requests,
    about the request of [y], and about the queue. *)
Record req_step (st st' : state) (i : nat) (x y : pc) : Prop := {
  rs_at : threads st !! i = Some x;
  rs_threads : threads st' = <[i := y]> (threads st);
  rs_released : released (pool st) = true -> released (pool st') = true;
  rs_after : after_release y = true -> released (pool st') = true;
  rs_nodup : NoDup (connReqs (pool st'));
  rs_open : forall r, r ∈ connReqs (pool st') -> reqs st' !! r = Some (mkChan None false);
  rs_owner : forall r, r ∈ connReqs (pool st') -> (r ∈ connReqs (pool st) /\ waits x <> Some r) \/ waits y = Some r;
  rs_others : forall r ch, waits x <> Some r -> reqs st !! r = Some ch -> exists ch', reqs st' !! r = Some ch' /\
    (ready ch -> ready ch') /\ (r ∈ connReqs (pool st) -> r ∈ connReqs (pool st') \/ ready ch') /\
    (r ∈ connReqs (pool st') -> r ∈ connReqs (pool st));
  rs_mine : forall r, waits y = Some r -> (waits x = Some r \/ (length (reqs st) <= r)%nat) /\
    exists ch, reqs st' !! r = Some ch /\ (ready ch \/ r ∈ connReqs (pool st'));
  rs_recv : forall r, y = Receiving r -> r ∉ connReqs (pool st')
}.

Lemma inv_req_waiter_lt st i x r : inv_req st -> threads st !! i = Some x -> waits x = Some r -> (r < length (reqs st))%nat.
Proof. intros Hinv Hi Hx. destruct (ir_wait _ Hinv _ _ _ Hi Hx) as (ch & Hr & _). by eapply lookup_lt_Some. Qed.

Lemma inv_req_step st st' i x y : inv_req st -> req_step st st' i x y -> inv_req st'.
Proof.
  intros Hinv [Hi Et Hrel Haft Hnd Hopen Hown Hoth Hmine Hrecv].
  assert (Hlt : (i < length (threads st))%nat) by (by eapply lookup_lt_Some).
  assert (Hlook : forall j z, threads st' !! j = Some z -> (j = i /\ z = y) \/ (j <> i /\ threads st !! j = Some z)).
  { intros j z. rewrite Et. destruct (decide (j = i)) as [->|Hne].
    - rewrite list_lookup_insert_eq by done. intros [= <-]. by left.
    - rewrite list_lookup_insert_ne by done. by right. }
  assert (Hother : forall j z r, j <> i -> threads st !! j = Some z -> waits z = Some r -> waits x <> Some r).
  { intros j z r Hne Hj Hz Hx. by destruct Hne, (ir_unique _ Hinv _ _ _ _ _ Hj Hi Hz Hx). }
  assert (Hfresh : forall j z r, j <> i -> threads st !! j = Some z -> waits z = Some r -> waits y <> Some r).
  { intros j z r Hne Hj Hz Hy. destruct (Hmine r Hy) as [[Hx|Hge] _].
    - by apply (Hother j z r Hne Hj Hz).
    - pose proof (inv_req_waiter_lt _ _ _ _ Hinv Hj Hz). lia. }
  constructor; try done.
  - intros r Hr. destruct (Hown r Hr) as [[Hin Hx]|Hy].
    + destruct (ir_owner _ Hinv r Hin) as (j & z & Hj & Hz). exists j, z. split; [|done].
      rewrite Et, list_lookup_insert_ne; [done|]. intros <-. congruence.
    + exists i, y. split; [|done]. rewrite Et. by apply list_lookup_insert_eq.
  - intros j z r Hj Hz. destruct (Hlook j z Hj) as [[-> ->]|[Hne Hj']]; [by apply Hmine|].
    destruct (ir_wait _ Hinv _ _ _ Hj' Hz) as (ch & Hr & Hch).
    destruct (Hoth r ch (Hother _ _ _ Hne Hj' Hz) Hr) as (ch' & Hr' & H1 & H2 & _). exists ch'. split; [done|].
    destruct Hch as [Hch|Hch]; [left; by apply H1|]. destruct (H2 Hch); auto.
  - intros j r Hj Hin. destruct (Hlook _ _ Hj) as [[-> E]|[Hne Hj']]; [by eapply Hrecv|].
    destruct (ir_wait _ Hinv j (Receiving r) r Hj' eq_refl) as (ch & Hr & _).
    destruct (Hoth r ch (Hother _ _ _ Hne Hj' eq_refl) Hr) as (ch' & _ & _ & _ & H3).
    by apply (ir_recv _ Hinv _ _ Hj'), H3.
  - intros j k z w r Hj Hk Hz Hw.
    destruct (Hlook _ _ Hj) as [[-> ->]|[Hne Hj']], (Hlook _ _ Hk) as [[-> ->]|[Hnk Hk']]; [done|..].
    + by destruct (Hfresh k w r Hnk Hk' Hw).
    + by destruct (Hfresh j z r Hne Hj' Hz).
    + by apply (ir_unique _ Hinv j k z w r).
  - intros j z Hj Hz. destruct (Hlook _ _ Hj) as [[-> ->]|[Hne Hj']]; [by apply Haft|].
    apply Hrel. by apply (ir_rel _ Hinv j z).
Qed.

(** The goroutine moves; the pool may change, but not the requests. *)
Lemma inv_req_pc st st' i x y :
  inv_req st -> threads st !! i = Some x -> threads st' = <[i := y]> (threads st) ->
  reqs st' = reqs st -> connReqs (pool st') = connReqs (pool st) -> released (pool st') = released (pool st) ->
  (forall r, waits y = Some r -> waits x = Some r) ->
  (forall r, waits x = Some r -> waits y = Some r \/ r ∉ connReqs (pool st)) ->
  (forall r, y = Receiving r -> r ∉ connReqs (pool st)) ->
  (after_release y = true -> released (pool st) = true) -> inv_req st'.
Proof.
  intros Hinv Hi Et Er Ec El Hyx Hxy Hrecv Haft. apply (inv_req_step st st' i x y Hinv).
  constructor; rewrite ?Er, ?Ec, ?El; try done.
  - apply Hinv.
  - apply (ir_open _ Hinv).
  - intros r Hr. destruct (decide (waits x = Some r)) as [Hx|Hx]; [|by left].
    destruct (Hxy r Hx); [by right|done].
  - intros r ch _ Hr. exists ch. tauto.
  - intros r Hy. pose proof (Hyx r Hy) as Hx. split; [by left|]. apply (ir_wait _ Hinv _ _ _ Hi Hx).
Qed.

(** A move that touches no request at all. *)
Lemma inv_req_quiet st st' i x y :
  inv_req st -> threads st !! i = Some x -> threads st' = <[i := y]> (threads st) ->
  reqs st' = reqs st -> connReqs (pool st') = connReqs (pool st) -> released (pool st') = released (pool st) ->
  waits x = None -> waits y = None -> (after_release y = true -> released (pool st) = true) -> inv_req st'.
Proof.
  intros Hinv Hi Et Er Ec El Hx Hy Haft. apply (inv_req_pc st st' i x y Hinv Hi Et Er Ec El); try done.
  - congruence.
  - congruence.
  - intros r ->. done.
Qed.

(** Closes the preservation of [inv_req] by a move that touches no request. *)
Ltac quiet Hinv Hi := eapply (inv_req_quiet _ _ _ _ _ Hinv Hi); [reflexivity|done..].

Lemma inv_req_lock st i out st' :
  inv_req st -> threads st !! i = Some Locking -> get_lock st i out = Next st' -> inv_req st'.
Proof.
  intros Hinv Hi. unfold get_lock. destruct (released (pool st)) eqn:Er.
  { intros [= <-]. quiet Hinv Hi. }
  destruct (_ >=? maxActive _).
  - destruct (_ && _); intros [= <-]; [quiet Hinv Hi|].
    assert (Hnew : length (reqs st) ∉ connReqs (pool st)).
    { intros Hin. apply (ir_open _ Hinv), lookup_lt_Some in Hin. lia. }
    apply (inv_req_step st _ i Locking (Waiting (length (reqs st))) Hinv).
    constructor; cbn [set_pc set_pool set_reqs set_connReqs pool reqs threads connReqs released]; try done.
    + apply NoDup_app. split_and!; [apply Hinv| |apply NoDup_singleton].
      intros x Hx ->%list_elem_of_singleton. done.
    + intros r [Hr| ->%list_elem_of_singleton]%elem_of_app; [|by apply list_lookup_middle].
      rewrite lookup_app_l by (eapply lookup_lt_Some, (ir_open _ Hinv), Hr). by apply (ir_open _ Hinv).
    + intros r [Hr| ->%list_elem_of_singleton]%elem_of_app; [by left|by right].
    + intros r ch _ Hr. exists ch. rewrite lookup_app_l by (by eapply lookup_lt_Some). split; [done|]. split; [done|].
      split; [intros Hin; left; apply elem_of_app; by left|].
      intros [Hin| ->%list_elem_of_singleton]%elem_of_app; [done|]. apply lookup_lt_Some in Hr. lia.
    + intros r [= <-]. split; [by right|]. exists (mkChan None false). split; [by apply list_lookup_middle|].
      right. apply elem_of_app. right. by apply list_elem_of_singleton.
  - destruct (negb _); [intros [= <-]; quiet Hinv Hi|].
    destruct out as [c|]; [case_bool_decide; [done|]|]; intros [= <-]; quiet Hinv Hi.
Qed.

Lemma inv_req_recv st i r x st' :
  inv_req st -> threads st !! i = Some x -> waits x = Some r -> get_recv st i r = Next st' -> inv_req st'.
Proof.
  intros Hinv Hi Hx. unfold get_recv. destruct (reqs st !! r) as [ch|] eqn:Er; [|done].
  assert (Hout : ready ch -> r ∉ connReqs (pool st)).
  { intros Hready Hin. rewrite (ir_open _ Hinv r Hin) in Er. injection Er as <-. by apply ready_empty. }
  destruct (buf ch) as [c|] eqn:Eb.
  - intros [= <-]. assert (Hnin : r ∉ connReqs (pool st)) by (apply Hout; left; congruence).
    apply (inv_req_step st _ i x (Holding c) Hinv).
    constructor; cbn [set_pc set_pool set_reqs pool reqs threads connReqs released]; try done.
    + apply Hinv.
    + intros r' Hr'. rewrite list_lookup_insert_ne by (by intros ->). by apply (ir_open _ Hinv).
    + intros r' Hr'. left. split; [done|]. rewrite Hx. by intros [= <-].
    + intros r' ch' Hne Hr'. exists ch'. rewrite list_lookup_insert_ne by congruence. tauto.
  - destruct (closed ch) eqn:Ecl; [|done]. intros [= <-].
    eapply (inv_req_pc st _ i x _ Hinv Hi); [reflexivity|try done..].
    intros r'. rewrite Hx. intros [= <-]. right. apply Hout. by right.
Qed.

Lemma remove_req_Some r l l' : NoDup l -> remove_req r l = Some l' -> r ∈ l /\ r ∉ l' /\ NoDup l' /\
  (forall x, x ∈ l' <-> x ∈ l /\ x <> r).
Proof.
  revert l'. induction l as [|a l IH]; intros l' Hnd; cbn; [done|]. apply NoDup_cons in Hnd as [Ha Hnd].
  destruct (decide (a = r)) as [->|Hne].
  - intros [= <-]. split_and!; [left|done|done|]. set_solver.
  - destruct (remove_req r l) as [l2|] eqn:E; [|done]. intros [= <-]. destruct (IH l2 Hnd eq_refl) as (H1 & H2 & H3 & H4).
    split_and!; [by right|set_solver| |set_solver]. apply NoDup_cons. split; [|done]. rewrite H4. tauto.
Qed.

Lemma remove_req_None r l : remove_req r l = None -> r ∉ l.
Proof.
  induction l as [|a l IH]; cbn; [set_solver|]. destruct (decide (a = r)); [done|].
  destruct (remove_req r l); [done|]. set_solver.
Qed.

Lemma inv_req_cancel st i r st' :
  inv_req st -> inv_live st -> threads st !! i = Some (Cancelled r) -> get_cancel st i r = Next st' -> inv_req st'.
Proof.
  intros Hinv Hlive Hi. unfold get_cancel. destruct (released (pool st)) eqn:Er.
  { intros [= <-]. eapply (inv_req_pc st _ i (Cancelled r) _ Hinv Hi); [reflexivity|try done..].
    intros r' _. right. destruct (il_rel _ Hlive Er) as (_ & _ & ->). set_solver. }
  destruct (remove_req r _) as [l|] eqn:El.
  - intros [= <-]. destruct (remove_req_Some _ _ _ (ir_nodup _ Hinv) El) as (Hin & Hnin & Hnd & Hl).
    apply (inv_req_step st _ i (Cancelled r) (Failed ErrTimeout) Hinv).
    constructor; cbn [set_pc set_pool set_connReqs pool reqs threads connReqs released waits]; try done.
    + intros r' Hr'. apply (ir_open _ Hinv), Hl, Hr'.
    + intros r' Hr'. left. apply Hl in Hr' as [? ?]. split; congruence.
    + intros r' ch Hne Hr'. exists ch. split; [done|]. split; [done|]. rewrite Hl. split; [|tauto].
      intros Hin'. left. split; congruence.
  - intros [= <-]. apply remove_req_None in El. eapply (inv_req_pc st _ i (Cancelled r) _ Hinv Hi); [reflexivity|try done..].
    + intros r' [= <-]. by left.
    + by intros r' [= <-].
Qed.

Lemma inv_req_put st i c st' :
  inv_req st -> threads st !! i = Some (Holding c) -> put_lock st i c = Next st' -> inv_req st'.
Proof.
  intros Hinv Hi. unfold put_lock. destruct (released (pool st)) eqn:Er.
  { intros [= <-]. quiet Hinv Hi. }
  destruct (connReqs (pool st)) as [|r rest] eqn:Eq.
  - destruct (negb _); [done|]. destruct (_ <? _); intros [= <-]; quiet Hinv Hi.
  - destruct (reqs st !! r) as [ch|] eqn:Ec; [|done]. destruct (closed ch); [done|].
    destruct (buf ch) eqn:Eb; [done|]. intros [= <-].
    pose proof (ir_nodup _ Hinv) as Hnd. rewrite Eq in Hnd. apply NoDup_cons in Hnd as [Hr Hnd].
    assert (Hlt : (r < length (reqs st))%nat) by (by eapply lookup_lt_Some).
    apply (inv_req_step st _ i (Holding c) Idle Hinv).
    constructor; cbn [set_pc set_pool set_reqs set_connReqs pool reqs threads connReqs released waits]; try done.
    + intros r' Hr'. rewrite list_lookup_insert_ne by (by intros ->). apply (ir_open _ Hinv). rewrite Eq. by right.
    + intros r' Hr'. left. rewrite Eq. split; [by right|done].
    + intros r' ch' _ Hr'. rewrite Eq. destruct (decide (r' = r)) as [->|Hne].
      * exists (mkChan (Some c) false). rewrite list_lookup_insert_eq by done. split; [done|].
        split; [intros _; by left|]. split; [intros _; right; by left|]. done.
      * exists ch'. rewrite list_lookup_insert_ne by congruence. split; [done|]. split; [done|]. set_solver.
Qed.

Lemma close_reqs_spec l : forall q, NoDup l -> (forall r, r ∈ l -> q !! r = Some (mkChan None false)) ->
  exists q', close_reqs l q = Some q' /\ (forall r, r ∈ l -> q' !! r = Some (mkChan None true)) /\
    (forall r, r ∉ l -> q' !! r = q !! r).
Proof.
  induction l as [|r l IH]; intros q Hnd Hq; cbn [close_reqs].
  { exists q. split; [done|]. split; [|done]. set_solver. }
  apply NoDup_cons in Hnd as [Hr Hnd]. pose proof (Hq r ltac:(left)) as Hqr. rewrite Hqr. cbn [closed buf].
  destruct (IH (<[r := mkChan None true]> q) Hnd) as (q' & E & H1 & H2).
  { intros r' Hr'. rewrite list_lookup_insert_ne by (by intros ->). apply Hq. by right. }
  exists q'. split; [done|]. split.
  - intros r' [->|Hr']%elem_of_cons; [|by apply H1].
    rewrite H2 by done. apply list_lookup_insert_eq. by eapply lookup_lt_Some.
  - intros r' Hr'. rewrite not_elem_of_cons in Hr'. destruct Hr' as [Hne Hr']. rewrite H2 by done.
    by apply list_lookup_insert_ne.
Qed.

Lemma Release_Next st : inv_live st -> inv_req st ->
  exists st', Release st = Next st' /\ inv_req st' /\ threads st' = threads st /\
    (forall r, r ∉ connReqs (pool st) -> reqs st' !! r = reqs st !! r).
Proof.
  intros Hl Hinv. unfold Release. destruct (released (pool st)) eqn:Er; [by exists st|].
  destruct (close_reqs_spec _ _ (ir_nodup _ Hinv) (ir_open _ Hinv)) as (q & -> & H1 & H2).
  destruct (il_run _ Hl Er) as (E1 & E2 & E3).
  unfold doRelease. cbn [pool set_pool set_reqs conns conns_open close]. rewrite E1, E2. cbn [negb andb].
  eexists. split; [reflexivity|]. split; [|by split].
  constructor; cbn [pool set_pool set_reqs connReqs reqs threads released]; try set_solver.
  - constructor.
  - intros i x r Hi Hx. destruct (ir_wait _ Hinv _ _ _ Hi Hx) as (ch & Hr & Hch).
    destruct (decide (r ∈ connReqs (pool st))) as [Hin|Hin].
    + exists (mkChan None true). split; [by apply H1|]. left. by right.
    + exists ch. rewrite H2 by done. split; [done|]. by destruct Hch; [left|].
  - apply (ir_unique _ Hinv).
Qed.

Definition inv (st : state) : Prop := inv_live st /\ inv_req st.

Lemma step_inv st a st' : inv st -> step st a = Next st' -> inv st'.
Proof.
  intros [Hl Hr] Hs.
  destruct a as [i|i|i out|i|i|i|i|i|i|i|i|i|]; cbn [step] in Hs;
    try (destruct (threads st !! i) as [x|] eqn:Hi; [|done]; destruct x; try done).
  - unfold getConns in Hs. split; destruct (released _); injection Hs as <-;
      try (by eapply inv_live_pc); quiet Hr Hi.
  - split; [by eapply inv_live_try|]. unfold get_try in Hs.
    destruct (conns (pool st)); [destruct (conns_open _)|]; injection Hs as <-; quiet Hr Hi.
  - split; [by eapply inv_live_lock|by eapply inv_req_lock].
  - split; [by eapply inv_live_recv|by eapply inv_req_recv].
  - split; [by eapply inv_live_recv|by eapply inv_req_recv].
  - injection Hs as <-. split; [by eapply inv_live_pc|].
    eapply (inv_req_pc st _ i _ _ Hr Hi); [reflexivity|try done..]. by left.
  - split; [by eapply inv_live_cancel|by eapply inv_req_cancel].
  - split; [by eapply inv_live_put|by eapply inv_req_put].
  - split; [eapply inv_live_Close; try done; by destruct rel|]. unfold Close in Hs.
    assert (Hrel : after_release (if rel then Checking else Idle) = true -> released (pool st) = true).
    { intros E. apply (ir_rel _ Hr _ _ Hi). by destruct rel. }
    destruct (negb _); injection Hs as <-; eapply (inv_req_quiet _ _ _ _ _ Hr Hi); try reflexivity; try done; by destruct rel.
  - pose proof (ir_rel _ Hr _ _ Hi eq_refl). split; [by eapply inv_live_check|]. unfold put_check in Hs.
    destruct (_ =? 0); injection Hs as <-; quiet Hr Hi.
  - split; [by apply (inv_live_Close st i c (Holding c) Idle)|]. unfold Close in Hs. destruct (negb _); injection Hs as <-; quiet Hr Hi.
  - injection Hs as <-. split; [by eapply inv_live_pc|quiet Hr Hi].
  - injection Hs as <-. split; [by eapply inv_live_pc|quiet Hr Hi].
  - split; [by eapply inv_live_Release|]. destruct (Release_Next st Hl Hr) as (st2 & E & H2 & _). congruence.
Qed.

Lemma step_no_crash st a : inv st -> step st a <> Crash.
Proof.
  intros [Hl Hr]. destruct a as [i|i|i out|i|i|i|i|i|i|i|i|i|]; cbn [step];
    try (destruct (threads st !! i) as [x|] eqn:Hi; [|done]; destruct x; try done).
  - unfold getConns. by destruct (released _).
  - unfold get_try. destruct (conns _); [|done]. by destruct (conns_open _).
  - unfold get_lock. repeat (case_match; try done).
  - unfold get_recv. repeat (case_match; try done).
  - unfold get_recv. repeat (case_match; try done).
  - unfold get_cancel. repeat (case_match; try done).
  - unfold put_lock. destruct (released (pool st)) eqn:Er; [done|]. destruct (connReqs (pool st)) as [|r rest] eqn:Eq.
    + destruct (il_run _ Hl Er) as (_ & -> & _). cbn [negb]. by destruct (_ <? _).
    + rewrite (ir_open _ Hr r) by (rewrite Eq; left). done.
  - unfold Close. by destruct (negb _).
  - unfold put_check. by destruct (_ =? 0).
  - unfold Close. by destruct (negb _).
  - destruct (Release_Next st Hl Hr) as (st2 & -> & _). done.
Qed.

Lemma run_inv l : forall st, inv st -> run st l <> Crash /\ forall st', run st l = Next st' -> inv st'.
Proof.
  induction l as [|a l IH]; intros st Hinv; cbn [run]; [by split; [|intros ? [= <-]]|].
  pose proof (step_no_crash st a Hinv). destruct (step st a) as [st2| |] eqn:E; [|done..].
  apply IH. by eapply step_inv.
Qed.

(** ** Properties *)

(** [n] goroutines outside a new pool. *)
Definition start (p : ConnectPool) (made : list Z) (n : nat) : state := mkState p [] (replicate n Idle) made [].

(** The factory never returns a connection twice. *)
Definition fresh_factory (mk : nat -> option Z) : Prop :=
  forall j k c, mk j = Some c -> mk k = Some c -> j = k.

Lemma fill_ok n : forall k mk p p' made,
  fresh_factory mk -> fill n k mk p = NewOk p' made ->
  zlen (conns p) = openingConns p -> openingConns p <= maxActive p -> NoDup (conns p) ->
  (forall c, c ∈ conns p -> exists j, (j < k)%nat /\ mk j = Some c) ->
  made = conns p' /\ zlen (conns p') = openingConns p' /\ openingConns p' <= maxActive p' /\ NoDup (conns p') /\
  (conns_open p', factory p', close p', connReqs p', released p', maxActive p')
  = (conns_open p, factory p, close p, connReqs p, released p, maxActive p).
Proof.
  induction n as [|n IH]; intros k mk p p' made Hmk; cbn [fill].
  { intros [= <- <-]. done. }
  destruct (mk k) as [c|] eqn:Ec; [|done]. cbn [conns maxActive set_opening].
  destruct (Z.ltb_spec (zlen (conns p)) (maxActive p)) as [Hlt|]; [|done].
  intros Hf Hlen Hmax Hnd Hmade. destruct (IH _ _ _ _ _ Hmk Hf) as (H1 & H2 & H3 & H4 & H5); [..|done].
  - cbn. rewrite zlen_snoc. lia.
  - cbn. lia.
  - cbn. apply NoDup_app. split_and!; [done| |apply NoDup_singleton].
    intros x Hx ->%list_elem_of_singleton. destruct (Hmade c Hx) as (j & Hj & Hjc).
    pose proof (Hmk _ _ _ Hjc Ec). lia.
  - cbn. intros x [Hx| ->%list_elem_of_singleton]%elem_of_app; [|exists k; split; [lia|done]].
    destruct (Hmade x Hx) as (j & Hj & Hjc). exists j. split; [lia|done].
Qed.

Lemma concat_nil {A B} (f : A -> list B) (x : A) n : f x = [] -> concat (f <$> replicate n x) = [].
Proof. intros Hx. induction n as [|n IH]; [done|]. cbn. by rewrite Hx. Qed.

(** A new pool whose idle connections are the ones it made. *)
Lemma start_pool_inv p n :
  zlen (conns p) = openingConns p -> openingConns p <= maxActive p -> NoDup (conns p) ->
  conns_open p = true -> factory p = true -> close p = true -> connReqs p = [] -> released p = false ->
  inv (start p (conns p) n).
Proof.
  intros H2 H3 H4 E1 E2 E3 E4 E5.
  assert (Hlive : live (start p (conns p) n) = conns p).
  { unfold live, start. cbn. rewrite concat_nil by done. by rewrite app_nil_r. }
  assert (Hidle : forall i x, threads (start p (conns p) n) !! i = Some x -> x = Idle).
  { cbn. intros i x [-> _]%lookup_replicate. done. }
  split; constructor; rewrite ?Hlive; cbn [start pool created destroyed reqs threads]; rewrite ?app_nil_r;
    try done; try congruence; try (rewrite E4; set_solver).
  all: try (rewrite E4; constructor).
  all: intros; repeat match goal with H : replicate _ _ !! _ = Some _ |- _ => apply Hidle in H; subst end; done.
Qed.

Lemma start_inv cfg mk n p made :
  fresh_factory mk -> NewConnectPool cfg mk = NewOk p made -> inv (start p made n) /\ maxActive p = MaxCap cfg.
Proof.
  intros Hmk. unfold NewConnectPool. destruct (Z.leb_spec (MaxCap cfg) 0); [done|].
  destruct (hasFactory cfg); [|done]. destruct (hasClose cfg); [|done]. cbn [negb]. intros Hf.
  destruct (fill_ok _ _ _ _ _ _ Hmk Hf) as (-> & H2 & H3 & H4 & [= E1 E2 E3 E4 E5 E6]); try done.
  { cbn. lia. } { constructor. } { cbn. set_solver. }
  split; [|done]. by apply start_pool_inv.
Qed.

(** [Put] in a state of the invariant; [x] is where the connection goes. *)
Lemma put_lock_Next st i c :
  inv st -> threads st !! i = Some (Holding c) -> released (pool st) = false ->
  put_lock st i c = Next (match connReqs (pool st) with
    | r :: rest => set_pc (set_reqs (set_pool st (set_connReqs (pool st) rest))
                     (<[r := mkChan (Some c) false]> (reqs st))) i Idle
    | [] => set_pc (set_pool st (set_conns (pool st) (conns (pool st) ++ [c]))) i Idle
    end).
Proof.
  intros [Hl Hr] Hi Hrel. unfold put_lock. rewrite Hrel. destruct (connReqs (pool st)) as [|r rest] eqn:Eq.
  - destruct (il_run _ Hl Hrel) as (_ & -> & _). cbn [negb].
    assert (Hroom : zlen (conns (pool st)) < maxActive (pool st)).
    { pose proof (il_count _ Hl). pose proof (il_max _ Hl). destruct (live_pc st i _ Hi) as (rest & Hp & _).
      apply Permutation_length in Hp. rewrite !length_app in Hp. cbn in Hp. unfold zlen in *. lia. }
    by rewrite (proj2 (Z.ltb_lt _ _) Hroom).
  - by rewrite (ir_open _ Hr r) by (rewrite Eq; left).
Qed.

(** C8. Whatever any number of goroutines do, in any interleaving, and whenever the pool is
    released: the pool never panics (no send on or second close of a closed channel, no call of a
    nil function), every connection the factory made is either open in exactly one place - idle,
    on its way to one waiter, or held by one goroutine - or was closed exactly once, and the
    counter [openingConns] is the number of open ones and at most [MaxCap]. *)
Theorem pool_safe cfg mk n p made acts :
  fresh_factory mk -> NewConnectPool cfg mk = NewOk p made ->
  run (start p made n) acts <> Crash /\
  forall st, run (start p made n) acts = Next st ->
    created st ≡ₚ live st ++ destroyed st /\ NoDup (live st ++ destroyed st) /\
    openingConns (pool st) = zlen (live st) /\ openingConns (pool st) <= MaxCap cfg.
Proof.
  intros Hmk Hnew. destruct (start_inv cfg mk n p made Hmk Hnew) as [Hinv Hmax].
  destruct (run_inv acts _ Hinv) as [Hc Hi]. split; [done|]. intros st Hst. destruct (Hi st Hst) as [Hl _].
  assert (Hm : maxActive (pool st) = maxActive p).
  { clear -Hst. change (maxActive p) with (maxActive (pool (start p made n))). revert Hst. generalize (start p made n).
    induction acts as [|a acts IH]; intros s; cbn [run]; [by intros [= <-]|].
    destruct (step s a) as [s2| |] eqn:E; [|done..]. intros Hr. rewrite (IH s2 Hr). clear -E.
    destruct a; cbn [step] in E; unfold getConns, get_try, get_lock, get_recv, get_cancel, put_lock, Close, put_check,
      Release, doRelease in E; repeat (case_match; try done); by injection E as <-. }
  split_and!; [apply Hl| |apply Hl|].
  - rewrite <- (il_created _ Hl). apply Hl.
  - rewrite <- Hmax, <- Hm. apply Hl.
Qed.

(** [Put] into a pool that is not released never blocks, never drops and never closes the
    connection: the oldest waiting request gets it, and a goroutine is waiting for exactly that
    request, or there is none and the connection becomes idle. *)
Theorem Put_hands_over cfg mk n p made acts st i c :
  fresh_factory mk -> NewConnectPool cfg mk = NewOk p made -> run (start p made n) acts = Next st ->
  threads st !! i = Some (Holding c) -> released (pool st) = false ->
  exists st', step st (APut i) = Next st' /\ threads st' !! i = Some Idle /\ destroyed st' = destroyed st /\
    match connReqs (pool st) with
    | r :: rest => connReqs (pool st') = rest /\ reqs st' !! r = Some (mkChan (Some c) false) /\
        exists j x, threads st' !! j = Some x /\ waits x = Some r
    | [] => conns (pool st') = conns (pool st) ++ [c]
    end.
Proof.
  intros Hmk Hnew Hst Hi Hrel. destruct (start_inv cfg mk n p made Hmk Hnew) as [Hinv0 _].
  pose proof (proj2 (run_inv acts _ Hinv0) st Hst) as Hinv.
  assert (Hlt : (i < length (threads st))%nat) by (by eapply lookup_lt_Some).
  cbn [step]. rewrite Hi, put_lock_Next by done. eexists. split; [done|]. destruct Hinv as [_ Hr].
  destruct (connReqs (pool st)) as [|r rest] eqn:Eq; cbn.
  - split; [by apply list_lookup_insert_eq|done].
  - split; [by apply list_lookup_insert_eq|]. split; [done|]. split; [done|].
    assert (Hin : r ∈ connReqs (pool st)) by (rewrite Eq; left).
    split; [apply list_lookup_insert_eq; by eapply lookup_lt_Some, (ir_open _ Hr)|].
    destruct (ir_owner _ Hr r Hin) as (j & x & Hj & Hx). exists j, x. split; [|done].
    rewrite list_lookup_insert_ne; [done|]. intros ->. rewrite Hi in Hj. injection Hj as <-. done.
Qed.

Lemma reachable_inv cfg mk n p made acts st :
  fresh_factory mk -> NewConnectPool cfg mk = NewOk p made -> run (start p made n) acts = Next st -> inv st.
Proof.
  intros Hmk Hnew Hst. destruct (start_inv cfg mk n p made Hmk Hnew) as [Hinv _].
  by apply (proj2 (run_inv acts _ Hinv)).
Qed.

(** The goroutine an action belongs to. *)
Definition actor (a : action) : option nat :=
  match a with
  | AGet i | ATry i | ALock i _ | ARecv i | ADone i | ACancel i | APut i | APutClose i | ACheck i | AClose i
  | APutNil i | AReturn i => Some i
  | ARelease => None
  end.

(** C33. No goroutine gets stuck: each has an enabled transition of its own other than a timeout,
    unless its request is still in the queue; in particular the receive that follows a timeout
    whose request was already taken off the queue never blocks. *)
Theorem pool_progress cfg mk n p made acts st i x :
  fresh_factory mk -> NewConnectPool cfg mk = NewOk p made -> run (start p made n) acts = Next st ->
  threads st !! i = Some x ->
  (exists r, x = Waiting r /\ r ∈ connReqs (pool st)) \/
  exists a st', actor a = Some i /\ a <> ADone i /\ step st a = Next st'.
Proof.
  intros Hmk Hnew Hst Hi. destruct (reachable_inv _ _ _ _ _ _ _ Hmk Hnew Hst) as [Hl Hr].
  assert (Hrecv : forall r, waits x = Some r -> r ∉ connReqs (pool st) -> exists st', get_recv st i r = Next st').
  { intros r Hx Hout. destruct (ir_wait _ Hr _ _ _ Hi Hx) as (ch & E & [Hready|Hin]); [|done].
    unfold get_recv. rewrite E. destruct (buf ch) eqn:Eb; [by eexists|].
    destruct Hready as [Hb|Hc]; [done|]. rewrite Hc. by eexists. }
  destruct x as [| | |r|r|r|c|c rel| |e].
  - right. exists (AGet i). cbn. rewrite Hi. unfold getConns. destruct (released _); by eexists.
  - right. exists (ATry i). cbn. rewrite Hi. unfold get_try. destruct (conns _); [destruct (conns_open _)|]; by eexists.
  - right. exists (ALock i None). cbn. rewrite Hi. unfold get_lock. repeat case_match; by eexists.
  - destruct (decide (r ∈ connReqs (pool st))) as [Hin|Hout]; [left; by exists r|]. right.
    destruct (Hrecv r eq_refl Hout) as (st' & E). exists (ARecv i), st'. cbn. rewrite Hi. done.
  - right. exists (ACancel i). cbn. rewrite Hi. unfold get_cancel. repeat case_match; by eexists.
  - right. destruct (Hrecv r eq_refl (ir_recv _ Hr _ _ Hi)) as (st' & E). exists (ARecv i), st'. cbn. rewrite Hi. done.
  - right. exists (AClose i). cbn. rewrite Hi. unfold Close. destruct (negb _); by eexists.
  - right. exists (APutClose i). cbn. rewrite Hi. unfold Close. destruct (negb _); by eexists.
  - right. exists (ACheck i). cbn. rewrite Hi. unfold put_check. destruct (_ =? 0); by eexists.
  - right. exists (AReturn i). cbn. rewrite Hi. by eexists.
Qed.

(** ** Two races *)

Definition ex_config : Config := mkConfig 0 1 0 true true.
Definition ex_factory (k : nat) : option Z := Some (Z.of_nat k + 100).
Definition ex_pool : ConnectPool := mkPool [] true true true 1 0 0 [] false.

Lemma ex_factory_fresh : fresh_factory ex_factory.
Proof. unfold fresh_factory, ex_factory. intros j k c [= <-] [= E]. lia. Qed.

(** Goroutine 1 finds the channel empty; before it takes the lock, goroutine 0 returns the only
    connection; goroutine 1 then queues a request although the connection is idle. *)
Definition ex_lost_wakeup : list action :=
  [AGet 0; ATry 0; ALock 0 (Some 7); AGet 1; ATry 1; APut 0; ALock 1 None].

(** The wake-up of a waiter can be lost: a pool of capacity one reaches a state in which its
    only connection is idle in the channel, nobody holds a connection, and yet a goroutine waits
    in the queue and can only time out. *)
Theorem Get_lost_wakeup :
  exists p made st, NewConnectPool ex_config ex_factory = NewOk p made /\
    run (start p made 2) ex_lost_wakeup = Next st /\
    conns (pool st) = [7] /\ connReqs (pool st) = [0%nat] /\ threads st = [Idle; Waiting 0] /\
    step st (ARecv 1) = Stuck.
Proof. exists ex_pool, []. eexists. split_and!; vm_compute; reflexivity. Qed.

(** A connection sent to a request nobody waits for any more. *)
Definition abandoned (st : state) (r : nat) (c : Z) : Prop :=
  (exists cl, reqs st !! r = Some (mkChan (Some c) cl)) /\
  forall i x, threads st !! i = Some x -> waits x <> Some r.

Lemma set_threads_waits (l : list pc) i y r :
  (forall j x, l !! j = Some x -> waits x <> Some r) -> waits y <> Some r ->
  forall j x, <[i := y]> l !! j = Some x -> waits x <> Some r.
Proof.
  intros Hl Hy j x Hj. apply list_lookup_insert_Some in Hj as [(<- & <- & _)|[_ Hj]]; [done|by eapply Hl].
Qed.

Lemma step_abandoned st a st' r c : inv st -> abandoned st r c -> step st a = Next st' -> abandoned st' r c.
Proof.
  intros [Hl Hr] [(cl & Hreq) Hw] Hs.
  assert (Hout : r ∉ connReqs (pool st)).
  { intros Hin. rewrite (ir_open _ Hr r Hin) in Hreq. discriminate. }
  assert (Hlt : (r < length (reqs st))%nat) by (by eapply lookup_lt_Some).
  destruct a as [i|i|i out|i|i|i|i|i|i|i|i|i|]; cbn [step] in Hs;
    try (destruct (threads st !! i) as [x|] eqn:Hi; [|done]; destruct x; try done; pose proof (Hw _ _ Hi) as Hx; cbn in Hx).
  14: { destruct (Release_Next st Hl Hr) as (st2 & E & _ & Et & Hsame). rewrite E in Hs. injection Hs as <-.
        split; [exists cl; by rewrite Hsame|by rewrite Et]. }
  all: unfold getConns, get_try, get_lock, get_recv, get_cancel, put_lock, Close, put_check in Hs;
    repeat (case_match; try done); injection Hs as <-.
  all: split; [exists cl|apply set_threads_waits; cbn; try done; try congruence].
  all: cbn; try done; try (rewrite list_lookup_insert_ne by congruence; done).
  - by rewrite lookup_app_l.
  - intros [= E]. lia.
  - rewrite list_lookup_insert_ne; [done|]. intros ->. apply Hout. left.
Qed.

Lemma run_abandoned l : forall st st' r c, inv st -> abandoned st r c -> run st l = Next st' ->
  abandoned st' r c /\ inv st'.
Proof.
  induction l as [|a l IH]; intros st st' r c Hinv Hab; cbn [run]; [by intros [= <-]|].
  destruct (step st a) as [s| |] eqn:E; [|done..]. apply IH; [by eapply step_inv|by eapply step_abandoned].
Qed.

(** An abandoned connection is open, so it was not closed. *)
Lemma abandoned_open st r c : inv st -> abandoned st r c -> c ∉ destroyed st.
Proof.
  intros [Hl _] [(cl & Hr) _] Hd. pose proof (il_nodup _ Hl) as Hnd. rewrite (il_created _ Hl) in Hnd.
  apply NoDup_app in Hnd as (_ & Hdis & _). apply (Hdis c); [|done].
  unfold live. apply elem_of_app. right. apply elem_of_app. left. apply list_elem_of_In, in_concat.
  exists [c]. split; [|by left]. apply list_elem_of_In, list_elem_of_fmap.
  exists (mkChan (Some c) cl). split; [done|]. by eapply list_elem_of_lookup_2.
Qed.

(** Goroutine 1 waits; [Put] answers its request, but its context is done and it takes that branch;
    the pool is released before it takes the lock. *)
Definition ex_leak : list action :=
  [AGet 0; ATry 0; ALock 0 (Some 7); AGet 1; ATry 1; ALock 1 None; APut 0; ADone 1; ARelease; ACancel 1].

(** [Release] can leak a connection: there is a run after which the pool is released, both
    goroutines are outside it (one returned from [Put], the other with [ErrClosed]), and the
    connection the first one put back is never closed, whatever happens next. *)
Theorem Release_leaks_connection :
  exists p made st, NewConnectPool ex_config ex_factory = NewOk p made /\
    run (start p made 2) ex_leak = Next st /\
    released (pool st) = true /\ threads st = [Idle; Failed ErrClosed] /\ created st = [7] /\
    forall acts st', run st acts = Next st' -> 7 ∉ destroyed st'.
Proof.
  exists ex_pool, []. eexists. split; [reflexivity|]. split; [vm_compute; reflexivity|].
  split; [reflexivity|]. split; [reflexivity|]. split; [reflexivity|].
  match goal with |- forall acts st', run ?s acts = _ -> _ => set (st := s) end.
  assert (Hinv : inv st).
  { apply (reachable_inv ex_config ex_factory 2 ex_pool [] ex_leak st); [apply ex_factory_fresh|reflexivity|reflexivity]. }
  assert (Hab : abandoned st 0 7).
  { split; [by exists false|]. intros [|[|i]] x; cbn; by intros [= <-]. }
  intros acts st' Hrun. destruct (run_abandoned acts _ _ _ _ Hinv Hab Hrun). by eapply abandoned_open.
Qed.

(** ** Creation *)

Lemma fill_total n : forall k mk p,
  (forall j, exists c, mk j = Some c) -> zlen (conns p) <= maxActive p ->
  if Z.of_nat n + zlen (conns p) <=? maxActive p
  then exists p' made, fill n k mk p = NewOk p' made /\ zlen (conns p') = zlen (conns p) + Z.of_nat n
  else fill n k mk p = NewBlocked.
Proof.
  induction n as [|n IH]; intros k mk p Hmk Hroom; cbn [fill].
  { rewrite (proj2 (Z.leb_le _ _)) by lia. eexists _, _. split; [done|]. lia. }
  destruct (Hmk k) as [c ->]. cbn [conns maxActive set_opening].
  destruct (Z.ltb_spec (zlen (conns p)) (maxActive p)) as [Hlt|Hge].
  - specialize (IH (S k) mk (set_conns (set_opening p (openingConns p + 1)) (conns p ++ [c])) Hmk).
    cbn [conns maxActive set_conns set_opening] in IH. rewrite zlen_snoc in IH.
    replace (Z.of_nat (S n) + zlen (conns p)) with (Z.of_nat n + (zlen (conns p) + 1)) by lia.
    destruct (_ <=? _); [|apply IH; lia]. destruct IH as (p' & made & E & El); [lia|].
    exists p', made. split; [done|]. lia.
  - rewrite (proj2 (Z.leb_gt _ _)) by lia. done.
Qed.

(** With a factory that works, [NewConnectPool] makes a pool of exactly [InitialCap] idle
    connections when that fits; with [InitialCap] above [MaxCap], which is not checked, it never
    returns: the send of connection [MaxCap + 1] blocks. *)
Theorem NewConnectPool_total cfg mk :
  0 < MaxCap cfg -> hasFactory cfg = true -> hasClose cfg = true -> (forall j, exists c, mk j = Some c) ->
  (InitialCap cfg <= MaxCap cfg -> exists p made, NewConnectPool cfg mk = NewOk p made /\
     zlen (conns p) = Z.max 0 (InitialCap cfg)) /\
  (MaxCap cfg < InitialCap cfg -> NewConnectPool cfg mk = NewBlocked).
Proof.
  intros Hpos Hf Hc Hmk. unfold NewConnectPool. rewrite (proj2 (Z.leb_gt _ _)), Hf, Hc by done. cbn [negb].
  pose proof (fill_total (Z.to_nat (InitialCap cfg)) 0 mk (mkPool [] true true true (MaxCap cfg) 0 (MaxWait cfg) [] false)
    Hmk) as Hfill. cbn [conns maxActive] in Hfill. change (zlen []) with 0 in Hfill. specialize (Hfill ltac:(lia)). split.
  - intros Hle. rewrite (proj2 (Z.leb_le _ _)) in Hfill by lia. destruct Hfill as (p & made & E & El).
    exists p, made. split; [done|]. lia.
  - intros Hgt. rewrite (proj2 (Z.leb_gt _ _)) in Hfill by lia. done.
Qed.

(** ** The properties at a concrete pool *)

Lemma pool_safe_witness :
  NewConnectPool ex_config ex_factory = NewOk ex_pool [] /\ run (start ex_pool [] 2) ex_leak <> Crash.
Proof.
  split; [reflexivity|]. exact (proj1 (pool_safe ex_config ex_factory 2 ex_pool [] ex_leak ex_factory_fresh eq_refl)).
Defined.

Definition ex_waiting : list action := [AGet 0; ATry 0; ALock 0 (Some 7); AGet 1; ATry 1; ALock 1 None].
Definition ex_waiting_state : state :=
  mkState (mkPool [] true true true 1 1 0 [0%nat] false) [mkChan None false] [Holding 7; Waiting 0] [7] [].

Lemma Put_hands_over_witness :
  run (start ex_pool [] 2) ex_waiting = Next ex_waiting_state /\
  exists st', step ex_waiting_state (APut 0) = Next st' /\ threads st' !! 0%nat = Some Idle /\ destroyed st' = [] /\
    connReqs (pool st') = [] /\ reqs st' !! 0%nat = Some (mkChan (Some 7) false) /\
    exists j x, threads st' !! j = Some x /\ waits x = Some 0%nat.
Proof.
  split; [reflexivity|].
  exact (Put_hands_over ex_config ex_factory 2 ex_pool [] ex_waiting ex_waiting_state 0 7 ex_factory_fresh
    eq_refl eq_refl eq_refl eq_refl).
Defined.

Lemma pool_progress_witness :
  (exists r, Waiting 0 = Waiting r /\ r ∈ connReqs (pool ex_waiting_state)) \/
  exists a st', actor a = Some 1%nat /\ a <> ADone 1 /\ step ex_waiting_state a = Next st'.
Proof.
  exact (pool_progress ex_config ex_factory 2 ex_pool [] ex_waiting ex_waiting_state 1 (Waiting 0) ex_factory_fresh
    eq_refl eq_refl eq_refl).
Defined.

Lemma NewConnectPool_total_witness : NewConnectPool (mkConfig 2 1 0 true true) ex_factory = NewBlocked.
Proof.
  apply (NewConnectPool_total (mkConfig 2 1 0 true true) ex_factory).
  - reflexivity.
  - reflexivity.
  - reflexivity.
  - intros j. eexists. reflexivity.
  - reflexivity.
Defined.

End Pool.
