(* ===== verification/CommonPool.v ===== *)
(** * CommonPool: the connection pools of the users

    Models [src/db/commonpool/pool.go]: a pool per user name, made when a request first uses its
    password, shared by later requests, released when the server reports that the password, the
    whitelist or the user changed.  Request goroutines, the watching goroutine of every pool and
    the notifications of the C library are interleaved; a step is the part of the code between two
    operations that other goroutines can see ([connectionLocker], [connectionMap], the singleflight
    group, the channels of the notifications, the pools).

    The connection pool below it (verified in [ConnectPool]) is its idle connections, those it has
    lent out and whether it was released.  Parameters of the steps are the answers of the library:
    whether a connection is accepted, the whitelist, the results of the registrations. *)
From stdpp Require Import gmap.
From S2P Require Import Prelude.
#[local] Open Scope Z_scope.

Module CommonPool.

Abbreviation bytes := (list Z) (only parsing).

(** ** Networks *)

(** [net.IPNet] with [Contains] as Go's [net] package has it: addresses of 16 bytes that embed one of
    four are taken as that, and the masked bytes must agree. *)
Record IPNet := mkIPNet { IP : bytes; Mask : bytes }.
Definition To4 (ip : bytes) : option bytes :=
  if bool_decide (length ip = 4%nat) then Some ip
  else if bool_decide (length ip = 16%nat /\ take 12 ip = replicate 10 0 ++ [255; 255]) then Some (drop 12 ip)
  else None.
Definition networkNumberAndMask (n : IPNet) : option (bytes * bytes) :=
  let ip := match To4 (IP n) with
            | Some x => Some x
            | None => if bool_decide (length (IP n) = 16%nat) then Some (IP n) else None
            end in
  match ip with
  | None => None
  | Some ip =>
    if bool_decide (length (Mask n) = 4%nat) then
      if bool_decide (length ip = 4%nat) then Some (ip, Mask n) else None
    else if bool_decide (length (Mask n) = 16%nat) then
      Some (ip, if bool_decide (length ip = 4%nat) then drop 12 (Mask n) else Mask n)
    else None
  end.
Definition Contains (n : IPNet) (ip : bytes) : bool :=
  let ip := default ip (To4 ip) in
  match networkNumberAndMask n with
  | None => bool_decide (ip = [])
  | Some (nn, m) => bool_decide (length ip = length nn) && bool_decide (zip_with Z.land nn m = zip_with Z.land ip m)
  end.

(** ** The state *)

Inductive notify := PASSVER | WHITELIST_VER | USER_DROPPED.
#[export] Instance notify_eq_dec : EqDecision notify.
Proof. solve_decision. Defined.

(** A connection of the C library: whether it is open, and the handles registered on it. *)
Record conn := mkConn { c_open : bool; callbacks : list (notify * nat) }.

(** A handle with its channel of capacity one. *)
Record handle := mkHandle { h_kind : notify; full : bool }.

Record ConnectorPool := mkPool {
  user : bytes; password : bytes; ipNets : list IPNet;
  idle : list nat; lent : list nat;     (* the connections of the pool *)
  once : bool; cancelled : bool; pool_released : bool;
  v : nat;                              (* the connection the callbacks are registered on *)
  changePassHandle : nat; whitelistChangeHandle : nat; dropUserHandle : nat }.

Inductive error := AuthFailureError | ErrWhitelistForbidden | ErrGet | ErrTaos.

(** Where a goroutine goes on after [Release]. *)
Inductive after := ThenStore (fl : nat) (u p ip : bytes) (new : nat) | ThenExit.

Inductive pc :=
| Idle
(* a request *)
| Loading (u p ip : bytes)                     (* getConnectionPool: connectionMap.Load *)
| Flight (u p ip : bytes)                      (* singleGroup.Do *)
| Following (fl : nat) (u p ip : bytes)        (* waits for the call in flight *)
| Locking (fl : nat) (u p ip : bytes)          (* getConnectorPoolSafe: connectionLocker.Lock *)
| Checking (fl : nat) (u p ip : bytes)         (* connectionMap.Load under the lock *)
| Creating (fl : nat) (u p ip : bytes) (old : option nat)   (* NewConnectorPool *)
| Storing (fl : nat) (u p ip : bytes) (new : nat)
| Returning (fl : nat) (u p ip : bytes) (res : nat + error) (* connectionLocker.Unlock *)
| Publishing (fl : nat) (u p ip : bytes) (res : nat + error) (* the end of singleGroup.Do *)
| HasPool (u p ip : bytes) (cp : nat)          (* getConnectDirect: verifyIP *)
| Getting (u p ip : bytes) (cp : nat)          (* connectionPool.Get *)
| Setting (u p ip : bytes) (cp : nat) (c : nat)  (* TaosOptionsConnection *)
| Holding (u p ip : bytes) (cp : nat) (c : nat)
| Putting (cp : nat) (c : nat)                 (* Put: TaosResetCurrentDB, clearing of the options *)
| Failed (e : error)
(* the goroutine that watches a pool *)
| Watching (cp : nat)
| Fetching (cp : nat)                          (* GetWhitelist(v) *)
| WLocking (cp : nat)
| Exiting (cp : nat)                           (* putHandle *)
| Exited
(* Release, by either; after once was entered *)
| Canceling (cp : nat) (k : after)
| Deleting (cp : nat) (k : after)
| Closing (cp : nat) (k : after)               (* cp.pool.Release *)
| Unlocking (cp : nat).

Record state := mkState {
  connectionMap : gmap (list Z) nat;
  connectionLocker : option nat;               (* the goroutine that holds it *)
  pools : list ConnectorPool;
  flights : gmap (list Z) nat;                 (* the calls of singleGroup in flight *)
  results : list (bytes * option (nat + error));  (* key and result of every call so far *)
  conns : list conn;
  handles : list handle;
  free : list nat;                             (* the handles in the pools of the tool package *)
  accepted : list (bytes * bytes);             (* the names and passwords the server has accepted *)
  threads : list pc }.

Inductive outcome := Next (st : state) | Stuck | Bad.

(** ** Updates *)

Definition set_map (st : state) (m : gmap (list Z) nat) : state :=
  mkState m (connectionLocker st) (pools st) (flights st) (results st) (conns st) (handles st) (free st) (accepted st) (threads st).
Definition set_lock (st : state) (o : option nat) : state :=
  mkState (connectionMap st) o (pools st) (flights st) (results st) (conns st) (handles st) (free st) (accepted st) (threads st).
Definition set_pools (st : state) (l : list ConnectorPool) : state :=
  mkState (connectionMap st) (connectionLocker st) l (flights st) (results st) (conns st) (handles st) (free st) (accepted st) (threads st).
Definition set_flights (st : state) (f : gmap (list Z) nat) (r : list (bytes * option (nat + error))) : state :=
  mkState (connectionMap st) (connectionLocker st) (pools st) f r (conns st) (handles st) (free st) (accepted st) (threads st).
Definition set_conns (st : state) (l : list conn) : state :=
  mkState (connectionMap st) (connectionLocker st) (pools st) (flights st) (results st) l (handles st) (free st) (accepted st) (threads st).
Definition set_handles (st : state) (l : list handle) (f : list nat) : state :=
  mkState (connectionMap st) (connectionLocker st) (pools st) (flights st) (results st) (conns st) l f (accepted st) (threads st).
Definition set_accepted (st : state) (l : list (bytes * bytes)) : state :=
  mkState (connectionMap st) (connectionLocker st) (pools st) (flights st) (results st) (conns st) (handles st) (free st) l (threads st).
Definition set_threads (st : state) (l : list pc) : state :=
  mkState (connectionMap st) (connectionLocker st) (pools st) (flights st) (results st) (conns st) (handles st) (free st) (accepted st) l.
Definition goto (st : state) (i : nat) (x : pc) : state := set_threads st (<[i := x]> (threads st)).

Definition set_nets (q : ConnectorPool) (l : list IPNet) : ConnectorPool :=
  mkPool (user q) (password q) l (idle q) (lent q) (once q) (cancelled q) (pool_released q) (v q) (changePassHandle q) (whitelistChangeHandle q) (dropUserHandle q).
Definition set_flags (q : ConnectorPool) (o c r : bool) : ConnectorPool :=
  mkPool (user q) (password q) (ipNets q) (idle q) (lent q) o c r (v q) (changePassHandle q) (whitelistChangeHandle q) (dropUserHandle q).
Definition set_members (q : ConnectorPool) (i l : list nat) : ConnectorPool :=
  mkPool (user q) (password q) (ipNets q) i l (once q) (cancelled q) (pool_released q) (v q) (changePassHandle q) (whitelistChangeHandle q) (dropUserHandle q).

(** [fmt.Sprintf("%s:%s", user, password)]. *)
Definition key (u p : bytes) : bytes := u ++ 58 :: p.

(** ** Handles *)

(** [GetRegister...Handle]: a free handle of the kind, with its channel emptied, or a new one. *)
Definition take_handle (k : notify) (hs : list handle) (fr : list nat) : nat * list handle * list nat :=
  match filter (fun h => (h_kind <$> hs !! h) = Some k) fr with
  | h :: _ => (h, <[h := mkHandle k false]> hs, filter (fun x => x <> h) fr)
  | [] => (length hs, hs ++ [mkHandle k false], fr)
  end.

(** [PutRegister...Handle]: the pool of a kind holds up to [PoolSize] handles; a handle that does not
    fit is deleted. *)
Definition PoolSize : Z := 10000.
Definition put_handle (hs : list handle) (fr : list nat) (h : nat) : list nat :=
  let kind x := h_kind <$> hs !! x in
  if zlen (filter (fun x => kind x = kind h) fr) <? PoolSize then fr ++ [h] else fr.

Definition register (cs : list conn) (c : nat) (k : notify) (h : nat) : list conn :=
  match cs !! c with
  | Some x => <[c := mkConn (c_open x) ((k, h) :: callbacks x)]> cs
  | None => cs
  end.
Definition close_conn (cs : list conn) (c : nat) : list conn :=
  match cs !! c with Some x => <[c := mkConn false (callbacks x)]> cs | None => cs end.
Definition is_open (st : state) (c : nat) : bool :=
  match conns st !! c with Some x => c_open x | None => false end.

(** ** [NewConnectorPool] *)

(** The answers of the library to the calls of [NewConnectorPool], in their order: the first that
    fails ends it. *)
Inductive answers :=
| ConnectFails | ChangePassFails | DropUserFails | WhitelistFails | ChangeWhitelistFails
| Answers (nets : list IPNet).

(** Nothing of it is visible to others before it returns, so it is one step.  The connection is
    made by [NewConnectPool] with [InitialCap] 1, taken, used for the registrations and put back;
    on an error it is put back, and [Release] closes it; the handles are put back, except when
    the connection itself failed. *)
Definition NewConnectorPool (st : state) (u p : bytes) (a : answers) : state * option nat :=
  let '(hp, hs, fr) := take_handle PASSVER (handles st) (free st) in
  let '(hw, hs, fr) := take_handle WHITELIST_VER hs fr in
  let '(hd, hs, fr) := take_handle USER_DROPPED hs fr in
  let st := set_handles st hs fr in
  let c := length (conns st) in
  let putHandle st := set_handles st (handles st) (foldl (put_handle (handles st)) (free st) [hp; hw; hd]) in
  let fail st cs := (putHandle (set_conns st (close_conn cs c)), None) in
  match a with
  | ConnectFails => (st, None)
  | _ =>
    let st := set_accepted st (accepted st ++ [(u, p)]) in
    let cs := conns st ++ [mkConn true []] in
    match a with
    | ConnectFails => (st, None)
    | ChangePassFails => fail st cs
    | _ =>
      let cs := register cs c PASSVER hp in
      match a with
      | DropUserFails => fail st cs
      | _ =>
        let cs := register cs c USER_DROPPED hd in
        match a with
        | WhitelistFails | ChangeWhitelistFails => fail st cs
        | Answers nets =>
          let cs := register cs c WHITELIST_VER hw in
          let cp := length (pools st) in
          let st := set_conns st cs in
          let st := set_pools st (pools st ++ [mkPool u p nets [c] [] false false false c hp hw hd]) in
          (set_threads st (threads st ++ [Watching cp]), Some cp)
        | _ => (st, None)
        end
      end
    end
  end.

(** ** Requests *)

Definition verifyPassword (q : ConnectorPool) (p : bytes) : bool := bool_decide (p = password q).
Definition verifyIP (q : ConnectorPool) (ip : bytes) : bool := existsb (fun n => Contains n ip) (ipNets q).

(** The pool of [user] in the map when its password is [p]. *)
Definition load_pool (st : state) (u p : bytes) : option nat :=
  match connectionMap st !! u with
  | Some cp => match pools st !! cp with
               | Some q => if verifyPassword q p then Some cp else None
               | None => None
               end
  | None => None
  end.

Definition VerifyClientIP (st : state) (u p ip : bytes) : bool * bool * bool :=
  match connectionMap st !! u with
  | Some cp => match pools st !! cp with
               | Some q => if verifyPassword q p then (true, verifyIP q ip, true) else (false, false, true)
               | None => (false, false, true)
               end
  | None => (false, false, false)
  end.

(** What the connection pool answers to [Get]: an idle connection, a new one, or an error. *)
Inductive get_answer := GetIdle | GetNew | GetError.

Definition pool_Get (st : state) (i : nat) (u p ip : bytes) (cp : nat) (a : get_answer) : outcome :=
  match pools st !! cp with
  | None => Stuck
  | Some q =>
    if pool_released q then Next (goto st i (Failed AuthFailureError))
    else
      match a with
      | GetIdle =>
        match idle q with
        | c :: l => Next (goto (set_pools st (<[cp := set_members q l (c :: lent q)]> (pools st))) i (Setting u p ip cp c))
        | [] => Stuck
        end
      | GetNew =>
        let c := length (conns st) in
        let st := set_conns st (conns st ++ [mkConn true []]) in
        let st := set_accepted st (accepted st ++ [(user q, password q)]) in
        Next (goto (set_pools st (<[cp := set_members q (idle q) (c :: lent q)]> (pools st))) i (Setting u p ip cp c))
      | GetError => Next (goto st i (Failed ErrGet))
      end
  end.

(** [cp.pool.Put(c)]: a released pool closes the connection. *)
Definition pool_Put (st : state) (i : nat) (cp c : nat) : outcome :=
  match pools st !! cp with
  | None => Stuck
  | Some q =>
    if negb (is_open st c) then Bad
    else
      let l := filter (fun x => x <> c) (lent q) in
      let st := if pool_released q
                then set_pools (set_conns st (close_conn (conns st) c)) (<[cp := set_members q (idle q) l]> (pools st))
                else set_pools st (<[cp := set_members q (idle q ++ [c]) l]> (pools st)) in
      Next (goto st i Idle)
  end.

(** [Release]: the first caller runs the body. *)
Definition enter_release (st : state) (i : nat) (cp : nat) (k : after) : outcome :=
  match pools st !! cp with
  | None => Stuck
  | Some q =>
    if once q then
      Next (goto st i (match k with ThenStore fl u p ip new => Storing fl u p ip new | ThenExit => Unlocking cp end))
    else Next (goto (set_pools st (<[cp := set_flags q true (cancelled q) (pool_released q)]> (pools st))) i (Canceling cp k))
  end.

Definition finish (st : state) (i : nat) (fl : nat) (u p ip : bytes) (res : nat + error) : outcome :=
  let st := set_flights st (delete (key u p) (flights st)) (<[fl := (key u p, Some res)]> (results st)) in
  Next (goto st i (match res with inl cp => HasPool u p ip cp | inr e => Failed e end)).

(** ** Steps *)

Inductive action :=
| AStart (i : nat) (u p ip : bytes)          (* GetConnection *)
| AGo (i : nat)                              (* the next step of a goroutine *)
| ANew (i : nat) (a : answers)               (* NewConnectorPool with the answers of the library *)
| AGet (i : nat) (a : get_answer)
| AEvent (i : nat) (k : option notify)       (* the case a watching goroutine takes; None is ctx.Done *)
| AFetched (i : nat) (nets : option (list IPNet))  (* the answer to GetWhitelist *)
| ANotify (c : nat) (k : notify).            (* the library reports a change *)

Definition step_go (st : state) (i : nat) (x : pc) : outcome :=
  match x with
  | Loading u p ip =>
    Next (goto st i (match load_pool st u p with Some cp => HasPool u p ip cp | None => Flight u p ip end))
  | Flight u p ip =>
    match flights st !! key u p with
    | Some fl => Next (goto st i (Following fl u p ip))
    | None =>
      let fl := length (results st) in
      Next (goto (set_flights st (<[key u p := fl]> (flights st)) (results st ++ [(key u p, None)])) i (Locking fl u p ip))
    end
  | Following fl u p ip =>
    match results st !! fl with
    | Some (_, Some (inl cp)) => Next (goto st i (HasPool u p ip cp))
    | Some (_, Some (inr e)) => Next (goto st i (Failed e))
    | _ => Stuck
    end
  | Locking fl u p ip =>
    match connectionLocker st with
    | Some _ => Stuck
    | None => Next (goto (set_lock st (Some i)) i (Checking fl u p ip))
    end
  | Checking fl u p ip =>
    Next (goto st i (match load_pool st u p with
                     | Some cp => Returning fl u p ip (inl cp)
                     | None => Creating fl u p ip (connectionMap st !! u)
                     end))
  | Storing fl u p ip new =>
    Next (goto (set_map st (<[u := new]> (connectionMap st))) i (Returning fl u p ip (inl new)))
  | Returning fl u p ip res => Next (goto (set_lock st None) i (Publishing fl u p ip res))
  | Publishing fl u p ip res => finish st i fl u p ip res
  | HasPool u p ip cp =>
    match pools st !! cp with
    | None => Stuck
    | Some q => Next (goto st i (if verifyIP q ip then Getting u p ip cp else Failed ErrWhitelistForbidden))
    end
  | Setting u p ip cp c => if is_open st c then Next (goto st i (Holding u p ip cp c)) else Bad
  | Holding u p ip cp c => if is_open st c then Next (goto st i (Putting cp c)) else Bad
  | Putting cp c => pool_Put st i cp c
  | WLocking cp =>
    match connectionLocker st with
    | Some _ => Stuck
    | None => enter_release (set_lock st (Some i)) i cp ThenExit
    end
  | Exiting cp =>
    match pools st !! cp with
    | None => Stuck
    | Some q => Next (goto (set_handles st (handles st) (foldl (put_handle (handles st)) (free st) [changePassHandle q; whitelistChangeHandle q; dropUserHandle q])) i Exited)
    end
  | Canceling cp k =>
    match pools st !! cp with
    | None => Stuck
    | Some q => Next (goto (set_pools st (<[cp := set_flags q (once q) true (pool_released q)]> (pools st))) i (Deleting cp k))
    end
  | Deleting cp k =>
    match pools st !! cp with
    | None => Stuck
    | Some q =>
      let st := if bool_decide (connectionMap st !! user q = Some cp)
                then set_map st (delete (user q) (connectionMap st)) else st in
      Next (goto st i (Closing cp k))
    end
  | Closing cp k =>
    match pools st !! cp with
    | None => Stuck
    | Some q =>
      let st := set_conns st (foldl close_conn (conns st) (idle q)) in
      let st := set_pools st (<[cp := set_flags (set_members q [] (lent q)) (once q) (cancelled q) true]> (pools st)) in
      Next (goto st i (match k with ThenStore fl u p ip new => Storing fl u p ip new | ThenExit => Unlocking cp end))
    end
  | Unlocking cp => Next (goto (set_lock st None) i (Exiting cp))
  | _ => Stuck
  end.

Definition handle_of (q : ConnectorPool) (k : notify) : nat :=
  match k with PASSVER => changePassHandle q | WHITELIST_VER => whitelistChangeHandle q | USER_DROPPED => dropUserHandle q end.

(** The [select] of a watching goroutine. *)
Definition step_event (st : state) (i : nat) (cp : nat) (k : option notify) : outcome :=
  match pools st !! cp with
  | None => Stuck
  | Some q =>
    match k with
    | None => if cancelled q then Next (goto st i (Exiting cp)) else Stuck
    | Some k =>
      let h := handle_of q k in
      match handles st !! h with
      | Some x =>
        if full x then
          Next (goto (set_handles st (<[h := mkHandle (h_kind x) false]> (handles st)) (free st)) i
                  (match k with WHITELIST_VER => Fetching cp | _ => WLocking cp end))
        else Stuck
      | None => Stuck
      end
    end
  end.

Definition step (st : state) (a : action) : outcome :=
  match a with
  | AStart i u p ip =>
    match threads st !! i with Some Idle => Next (goto st i (Loading u p ip)) | _ => Stuck end
  | AGo i => match threads st !! i with Some x => step_go st i x | None => Stuck end
  | ANew i a =>
    match threads st !! i with
    | Some (Creating fl u p ip old) =>
      match NewConnectorPool st u p a with
      | (st, None) => Next (goto st i (Returning fl u p ip (inr ErrTaos)))
      | (st, Some new) =>
        match old with
        | Some cp => enter_release st i cp (ThenStore fl u p ip new)
        | None => Next (goto st i (Storing fl u p ip new))
        end
      end
    | _ => Stuck
    end
  | AGet i a => match threads st !! i with Some (Getting u p ip cp) => pool_Get st i u p ip cp a | _ => Stuck end
  | AEvent i k => match threads st !! i with Some (Watching cp) => step_event st i cp k | _ => Stuck end
  | AFetched i nets =>
    match threads st !! i with
    | Some (Fetching cp) =>
      match pools st !! cp with
      | None => Stuck
      | Some q =>
        if negb (is_open st (v q)) then Bad
        else match nets with
             | Some l => Next (goto (set_pools st (<[cp := set_nets q l]> (pools st))) i (Watching cp))
             | None => Next (goto st i (WLocking cp))
             end
      end
    | _ => Stuck
    end
  | ANotify c k =>
    match conns st !! c with
    | Some x =>
      if negb (c_open x) then Stuck
      else match filter (fun p => fst p = k) (callbacks x) with
           | (_, h) :: _ =>
             match handles st !! h with
             | Some y => if full y then Stuck else Next (set_handles st (<[h := mkHandle (h_kind y) true]> (handles st)) (free st))
             | None => Stuck
             end
           | [] => Stuck
           end
    | None => Stuck
    end
  end.

Fixpoint run (st : state) (l : list action) : outcome :=
  match l with
  | [] => Next st
  | a :: l => match step st a with Next st' => run st' l | o => o end
  end.

Definition start (n : nat) : state := mkState ∅ None [] ∅ [] [] [] [] [] (replicate n Idle).

End CommonPool.
