(* ===== verification/CommonPoolSafe.v ===== *)
(** * CommonPoolSafe: invariants of the user pools

    Invariants of [CommonPool] that every step of every goroutine keeps: [inv] on the lock, the map,
    the calls in flight and the credentials ([common_step_inv]), [res] on the connections of the pools
    ([step_res]).  [CommonPoolSpec] has the theorems. *)
From stdpp Require Import gmap.
From S2P Require Import Prelude CommonPool.
#[local] Open Scope Z_scope.
Import CommonPool.

Module CommonPoolSafe.

(** ** The invariant of the map and the lock *)

Definition holds_lock (x : pc) : bool :=
  match x with
  | Checking _ _ _ _ | Creating _ _ _ _ _ | Storing _ _ _ _ _ | Returning _ _ _ _ _
  | Canceling _ _ | Deleting _ _ | Closing _ _ | Unlocking _ => true
  | _ => false
  end.

(** A pool and the key of its name and password. *)
Definition pool_key (st : state) (cp : nat) (k : bytes) : Prop :=
  exists q, pools st !! cp = Some q /\ key (user q) (password q) = k.
Definition flight_key (st : state) (fl : nat) (k : bytes) : Prop :=
  exists o, results st !! fl = Some (k, o).
(** A pool that was made and is not in the map yet. *)
Definition new_pool (st : state) (cp : nat) (u p : bytes) : Prop :=
  exists q, pools st !! cp = Some q /\ user q = u /\ password q = p /\ once q = false.

Definition after_ok (st : state) (k : after) : Prop :=
  match k with ThenStore fl u p _ new => flight_key st fl (key u p) /\ new_pool st new u p | ThenExit => True end.
Definition result_ok (st : state) (k : bytes) (res : nat + error) : Prop :=
  match res with inl cp => pool_key st cp k | inr _ => True end.
Definition entered (st : state) (cp : nat) : Prop := exists q, pools st !! cp = Some q /\ once q = true.

Definition thread_ok (st : state) (x : pc) : Prop :=
  match x with
  | HasPool u p _ cp | Getting u p _ cp | Setting u p _ cp _ | Holding u p _ cp _ => pool_key st cp (key u p)
  | Putting cp _ | Watching cp | Fetching cp | WLocking cp | Exiting cp | Unlocking cp => is_Some (pools st !! cp)
  | Following fl u p _ | Locking fl u p _ | Checking fl u p _ => flight_key st fl (key u p)
  | Creating fl u p _ old => flight_key st fl (key u p) /\ connectionMap st !! u = old
  | Storing fl u p _ new => flight_key st fl (key u p) /\ new_pool st new u p
  | Returning fl u p _ res | Publishing fl u p _ res => flight_key st fl (key u p) /\ result_ok st (key u p) res
  | Canceling cp k | Deleting cp k | Closing cp k => entered st cp /\ after_ok st k
  | _ => True
  end.

(** The pool [cp] is being taken out of the map. *)
Definition leaving (st : state) (cp : nat) : Prop :=
  exists i k, threads st !! i = Some (Canceling cp k) \/ threads st !! i = Some (Deleting cp k).

Record inv (st : state) : Prop := {
  inv_threads : forall i x, threads st !! i = Some x -> thread_ok st x;
  inv_lock : forall i x, threads st !! i = Some x -> holds_lock x = true -> connectionLocker st = Some i;
  inv_held : forall i, connectionLocker st = Some i -> exists x, threads st !! i = Some x /\ holds_lock x = true;
  inv_map : forall u cp, connectionMap st !! u = Some cp ->
    exists q, pools st !! cp = Some q /\ user q = u /\ (once q = false \/ leaving st cp);
  inv_results : forall fl k res, results st !! fl = Some (k, Some res) -> result_ok st k res;
  inv_flights : forall k fl, flights st !! k = Some fl -> flight_key st fl k;
  inv_accepted : forall cp q, pools st !! cp = Some q -> (user q, password q) ∈ accepted st }.

(** ** What steps keep *)

(** Pools keep their name and password, calls keep their key. *)
Definition grows (st st' : state) : Prop :=
  (forall cp q, pools st !! cp = Some q ->
     exists q', pools st' !! cp = Some q' /\ user q' = user q /\ password q' = password q /\ (once q = true -> once q' = true)) /\
  (forall fl k o, results st !! fl = Some (k, o) -> exists o', results st' !! fl = Some (k, o')) /\
  (forall x, x ∈ accepted st -> x ∈ accepted st').
(** The map and the entries of [once] stay. *)
Definition calm (st st' : state) : Prop :=
  connectionMap st' = connectionMap st /\
  (forall cp q, pools st !! cp = Some q -> exists q', pools st' !! cp = Some q' /\ once q' = once q).

#[export] Instance grows_preorder : PreOrder grows.
Proof.
  split.
  - intros st. split_and!; [eauto 10|eauto|done].
  - intros a b c (A1 & A2 & A3) (B1 & B2 & B3). split_and!.
    + intros cp q Hq. destruct (A1 _ _ Hq) as (q' & Hq' & E1 & E2 & E3). destruct (B1 _ _ Hq') as (q2 & Hq2 & F1 & F2 & F3).
      exists q2. split_and!; [done|congruence|congruence|auto].
    + intros fl k o H. destruct (A2 _ _ _ H) as (o' & H'). eauto.
    + auto.
Qed.
#[export] Instance calm_preorder : PreOrder calm.
Proof.
  split.
  - intros st. split; eauto.
  - intros a b c (A1 & A2) (B1 & B2). split; [congruence|].
    intros cp q Hq. destruct (A2 _ _ Hq) as (q' & Hq' & E). destruct (B2 _ _ Hq') as (q2 & Hq2 & F).
    exists q2. split; congruence.
Qed.

Lemma pool_key_grows st st' cp k : grows st st' -> pool_key st cp k -> pool_key st' cp k.
Proof.
  intros (G & _) (q & Hq & <-). destruct (G _ _ Hq) as (q' & Hq' & E1 & E2 & _).
  exists q'. by rewrite E1, E2.
Qed.
Lemma flight_key_grows st st' fl k : grows st st' -> flight_key st fl k -> flight_key st' fl k.
Proof. intros (_ & G & _) (o & H). destruct (G _ _ _ H) as (o' & H'). by exists o'. Qed.
Lemma some_grows st st' cp : grows st st' -> is_Some (pools st !! cp) -> is_Some (pools st' !! cp).
Proof. intros (G & _) [q Hq]. destruct (G _ _ Hq) as (q' & Hq' & _). eauto. Qed.
Lemma entered_grows st st' cp : grows st st' -> entered st cp -> entered st' cp.
Proof. intros (G & _) (q & Hq & E). destruct (G _ _ Hq) as (q' & Hq' & _ & _ & Eo). exists q'. auto. Qed.
Lemma result_ok_grows st st' k res : grows st st' -> result_ok st k res -> result_ok st' k res.
Proof. destruct res; [apply pool_key_grows|done]. Qed.
Lemma new_pool_calm st st' cp u p : grows st st' -> calm st st' -> new_pool st cp u p -> new_pool st' cp u p.
Proof.
  intros (G & _) (_ & C) (q & Hq & <- & <- & E). destruct (G _ _ Hq) as (q' & Hq' & E1 & E2 & _).
  destruct (C _ _ Hq) as (q2 & Hq2 & E3). exists q'. split_and!; [done|done|done|congruence].
Qed.
Lemma after_ok_calm st st' k : grows st st' -> calm st st' -> after_ok st k -> after_ok st' k.
Proof.
  intros G C. destruct k; [|done]. intros [H1 H2]. split; [by eapply flight_key_grows|by eapply new_pool_calm].
Qed.
#[local] Hint Resolve pool_key_grows flight_key_grows some_grows entered_grows result_ok_grows new_pool_calm
  after_ok_calm : grows.

(** What a goroutine relies on survives the steps of others: always when it does not hold the
    lock, and in calm steps when it does. *)
Lemma thread_ok_kept st st' x : grows st st' -> (holds_lock x = true -> calm st st') -> thread_ok st x -> thread_ok st' x.
Proof.
  intros G C. destruct x; cbn in *; try done; intros H;
    repeat match goal with H : _ /\ _ |- _ => destruct H end; eauto with grows;
    (try specialize (C eq_refl)); split; eauto with grows.
  by destruct C as [-> _].
Qed.

(** ** Steps of one goroutine *)

Lemma grows_same st st' : pools st' = pools st -> results st' = results st -> accepted st' = accepted st -> grows st st'.
Proof. intros E1 E2 E3. split_and!; [intros cp q; rewrite E1; eauto 10|intros fl k o; rewrite E2; eauto|intros x; by rewrite E3]. Qed.

Lemma calm_same st st' : pools st' = pools st -> connectionMap st' = connectionMap st -> calm st st'.
Proof. intros E1 E2. split; [done|]. intros cp q. rewrite E1. eauto. Qed.

(** One pool is replaced. *)
Lemma grows_pool st st' cp q q' : pools st !! cp = Some q -> pools st' = <[cp := q']> (pools st) ->
  results st' = results st -> (forall x, x ∈ accepted st -> x ∈ accepted st') ->
  user q' = user q -> password q' = password q -> (once q = true -> once q' = true) -> grows st st'.
Proof.
  intros Hq E1 E2 E3 U P O. split_and!; [|intros fl k o; rewrite E2; eauto|done].
  intros cp' x Hx. rewrite E1. destruct (decide (cp' = cp)) as [->|Hne].
  - rewrite Hq in Hx. injection Hx as <-. rewrite list_lookup_insert_eq by (by eapply lookup_lt_Some). eauto 10.
  - rewrite list_lookup_insert_ne by done. eauto 10.
Qed.

Lemma calm_pool st st' cp q q' : pools st !! cp = Some q -> pools st' = <[cp := q']> (pools st) ->
  connectionMap st' = connectionMap st -> once q' = once q -> calm st st'.
Proof.
  intros Hq E1 E2 O. split; [done|]. intros cp' x Hx. rewrite E1. destruct (decide (cp' = cp)) as [->|Hne].
  - rewrite Hq in Hx. injection Hx as <-. rewrite list_lookup_insert_eq by (by eapply lookup_lt_Some). eauto.
  - rewrite list_lookup_insert_ne by done. eauto.
Qed.

(** How a step moves the lock. *)
Definition lock_move (st st' : state) (i : nat) (x y : pc) : Prop :=
  connectionLocker st' = connectionLocker st /\ holds_lock y = holds_lock x \/
  connectionLocker st = None /\ connectionLocker st' = Some i /\ holds_lock y = true \/
  connectionLocker st' = None /\ holds_lock x = true /\ holds_lock y = false.

Lemma inv_move st st' i x y extra : inv st -> threads st !! i = Some x ->
  threads st' = <[i := y]> (threads st) ++ extra ->
  grows st st' -> (calm st st' \/ holds_lock x = true \/ connectionLocker st = None) ->
  lock_move st st' i x y -> thread_ok st' y ->
  Forall (fun z => thread_ok st' z /\ holds_lock z = false) extra ->
  (forall u cp, connectionMap st' !! u = Some cp ->
     exists q, pools st' !! cp = Some q /\ user q = u /\ (once q = false \/ leaving st' cp)) ->
  (forall fl k res, results st' !! fl = Some (k, Some res) -> result_ok st' k res) ->
  (forall k fl, flights st' !! k = Some fl -> flight_key st' fl k) ->
  (forall cp q, pools st' !! cp = Some q -> (user q, password q) ∈ accepted st') ->
  inv st'.
Proof.
  intros I Hx Ht G C L Hy Hex Hm Hr Hf Ha. pose proof (lookup_lt_Some _ _ _ Hx) as Hlt.
  assert (Hcase : forall j z, threads st' !! j = Some z ->
    (j = i /\ z = y) \/ (j <> i /\ threads st !! j = Some z) \/ (z ∈ extra /\ j <> i)).
  { intros j z. rewrite Ht. intros [Hj|[Hj1 Hj2]]%lookup_app_Some.
    - destruct (decide (j = i)) as [->|Hne].
      + rewrite list_lookup_insert_eq in Hj by done. left. split; congruence.
      + rewrite list_lookup_insert_ne in Hj by done. by right; left.
    - right; right. rewrite length_insert in Hj1. split; [by eapply list_elem_of_lookup_2|lia]. }
  rewrite Forall_forall in Hex.
  assert (Hothers : forall j z, j <> i -> threads st !! j = Some z -> holds_lock z = true ->
    calm st st' /\ connectionLocker st' = connectionLocker st /\ holds_lock x = false).
  { intros j z Hne Hj Hz. pose proof (inv_lock _ I _ _ Hj Hz) as Elock.
    assert (Hxf : holds_lock x = false).
    { destruct (holds_lock x) eqn:E; [|done]. pose proof (inv_lock _ I _ _ Hx E). congruence. }
    split_and!; [destruct C as [C|[C|C]]; [done|congruence|congruence]| |done].
    destruct L as [[L _]|[[L _]|[_ [L _]]]]; congruence. }
  split; try done.
  - intros j z Hj. destruct (Hcase _ _ Hj) as [[-> ->]|[[Hne Hz]|[Hz _]]]; [done| |by apply Hex].
    apply (thread_ok_kept st); [done| |by eapply inv_threads].
    intros Hl. by eapply Hothers.
  - intros j z Hj Hl. destruct (Hcase _ _ Hj) as [[-> ->]|[[Hne Hz]|[Hz _]]].
    + destruct L as [[-> L]|[(_ & -> & _)|(_ & _ & L)]]; [|done|congruence].
      rewrite L in Hl. by eapply inv_lock.
    + destruct (Hothers _ _ Hne Hz Hl) as (_ & -> & _). by eapply inv_lock.
    + destruct (Hex _ Hz) as [_ E]. congruence.
  - intros j Hj. destruct (decide (j = i)) as [->|Hne].
    + exists y. split; [rewrite Ht, lookup_app_l by (by rewrite length_insert); by apply list_lookup_insert_eq|].
      destruct L as [[L1 L2]|[(_ & _ & L)|(L & _)]]; [|done|congruence]. rewrite L2.
      rewrite L1 in Hj. destruct (inv_held _ I _ Hj) as (z & Hz & Hl). congruence.
    + destruct L as [[L1 L2]|[(L1 & L2 & _)|(L & _)]]; [|congruence|congruence].
      rewrite L1 in Hj. destruct (inv_held _ I _ Hj) as (z & Hz & Hl). exists z. split; [|done].
      rewrite Ht, lookup_app_l by (rewrite length_insert; by eapply lookup_lt_Some).
      by rewrite list_lookup_insert_ne.
Qed.

(** Steps that leave the map, the calls in flight and the entries of [once]. *)
Lemma leaving_kept st st' i x y extra cp : threads st !! i = Some x ->
  threads st' = <[i := y]> (threads st) ++ extra ->
  (forall cp k, x = Canceling cp k -> exists k', y = Deleting cp k') -> (forall cp k, x <> Deleting cp k) ->
  leaving st cp -> leaving st' cp.
Proof.
  intros Hx Ht H1 H2 (j & k & Hj). destruct (decide (j = i)) as [->|Hne].
  - rewrite Hx in Hj. destruct Hj as [[= ->]|[= ->]]; [|by destruct (H2 _ _ eq_refl)].
    destruct (H1 _ _ eq_refl) as (k' & ->). exists i, k'. right.
    rewrite Ht, lookup_app_l by (rewrite length_insert; by eapply lookup_lt_Some).
    apply list_lookup_insert_eq. by eapply lookup_lt_Some.
  - exists j, k. rewrite Ht. destruct Hj as [Hj|Hj]; [left|right];
      (rewrite lookup_app_l by (rewrite length_insert; by eapply lookup_lt_Some)); by rewrite list_lookup_insert_ne.
Qed.

Lemma map_kept st st' : inv st -> grows st st' -> calm st st' -> (forall cp, leaving st cp -> leaving st' cp) ->
  forall u cp, connectionMap st' !! u = Some cp ->
    exists q, pools st' !! cp = Some q /\ user q = u /\ (once q = false \/ leaving st' cp).
Proof.
  intros I (G & _) (C1 & C2) L u cp. rewrite C1. intros Hu. destruct (inv_map _ I _ _ Hu) as (q & Hq & Eu & Ho).
  destruct (G _ _ Hq) as (q' & Hq' & E1 & _). destruct (C2 _ _ Hq) as (q2 & Hq2 & E2).
  exists q'. split_and!; [done|congruence|]. destruct Ho as [Ho|Ho]; [left; congruence|right; auto].
Qed.

Lemma inv_calm st st' i x y extra : inv st -> threads st !! i = Some x ->
  threads st' = <[i := y]> (threads st) ++ extra ->
  grows st st' -> calm st st' -> lock_move st st' i x y -> thread_ok st' y ->
  Forall (fun z => thread_ok st' z /\ holds_lock z = false) extra ->
  (forall cp k, x = Canceling cp k -> exists k', y = Deleting cp k') -> (forall cp k, x <> Deleting cp k) ->
  results st' = results st -> flights st' = flights st ->
  (forall cp q, pools st' !! cp = Some q -> (user q, password q) ∈ accepted st') ->
  inv st'.
Proof.
  intros I Hx Ht G C L Hy Hex H1 H2 Er Ef Ha.
  eapply inv_move; eauto.
  - eapply map_kept; eauto. intros cp. eapply leaving_kept; eauto.
  - intros fl k res. rewrite Er. intros H. eapply result_ok_grows; [done|]. by eapply inv_results.
  - intros k fl. rewrite Ef. intros H. eapply flight_key_grows; [done|]. by eapply inv_flights.
Qed.

(** Steps that only move the goroutine, or the lock. *)
Lemma inv_goto st st' i x y : inv st -> threads st !! i = Some x ->
  threads st' = <[i := y]> (threads st) -> pools st' = pools st -> connectionMap st' = connectionMap st ->
  results st' = results st -> flights st' = flights st -> accepted st' = accepted st ->
  lock_move st st' i x y -> thread_ok st' y ->
  (forall cp k, x <> Canceling cp k) -> (forall cp k, x <> Deleting cp k) ->
  inv st'.
Proof.
  intros I Hx Ht Ep Em Er Ef Ea L Hy H1 H2.
  apply (inv_calm st st' i x y []); try done.
  - by rewrite app_nil_r.
  - by apply grows_same.
  - by apply calm_same.
  - intros cp k E. by apply H1 in E.
  - intros cp q. rewrite Ep, Ea. apply (inv_accepted _ I).
Qed.

(** Steps that also replace a pool by one with the same name, password and [once]. *)
Lemma inv_pool st st' i x y cp q q' : inv st -> threads st !! i = Some x ->
  threads st' = <[i := y]> (threads st) -> pools st !! cp = Some q -> pools st' = <[cp := q']> (pools st) ->
  user q' = user q -> password q' = password q -> once q' = once q ->
  connectionMap st' = connectionMap st -> results st' = results st -> flights st' = flights st ->
  (forall a, a ∈ accepted st -> a ∈ accepted st') -> lock_move st st' i x y -> thread_ok st' y ->
  (forall cp k, x = Canceling cp k -> exists k', y = Deleting cp k') -> (forall cp k, x <> Deleting cp k) ->
  inv st'.
Proof.
  intros I Hx Ht Hq Ep U P O Em Er Ef Ea L Hy H1 H2.
  apply (inv_calm st st' i x y []); try done.
  - by rewrite app_nil_r.
  - eapply grows_pool; eauto; congruence.
  - eapply calm_pool; eauto.
  - intros cp' z. rewrite Ep. intros Hz. apply Ea.
    destruct (decide (cp' = cp)) as [->|Hne].
    + rewrite list_lookup_insert_eq in Hz by (by eapply lookup_lt_Some). injection Hz as <-.
      rewrite U, P. by eapply inv_accepted.
    + rewrite list_lookup_insert_ne in Hz by done. by eapply inv_accepted.
Qed.

Lemma NewConnectorPool_spec st u p a st1 o : NewConnectorPool st u p a = (st1, o) ->
  connectionMap st1 = connectionMap st /\ connectionLocker st1 = connectionLocker st /\
  flights st1 = flights st /\ results st1 = results st /\ (forall x, x ∈ accepted st -> x ∈ accepted st1) /\
  match o with
  | None => pools st1 = pools st /\ threads st1 = threads st
  | Some new => new = length (pools st) /\ threads st1 = threads st ++ [Watching new] /\ (u, p) ∈ accepted st1 /\
      exists q, pools st1 = pools st ++ [q] /\ user q = u /\ password q = p /\ once q = false
  end.
Proof.
  unfold NewConnectorPool.
  destruct (take_handle PASSVER _ _) as [[hp hs1] fr1]. destruct (take_handle WHITELIST_VER _ _) as [[hw hs2] fr2].
  destruct (take_handle USER_DROPPED _ _) as [[hd hs3] fr3].
  destruct a; intros [= <- <-]; cbn; split_and!; try done; try (intros x Hx; apply elem_of_app; by left).
  - apply elem_of_app. right. left.
  - eexists. split_and!; done.
Qed.

(** The pool of [load_pool] has the name and the password. *)
Lemma load_pool_key st u p cp : inv st -> load_pool st u p = Some cp -> pool_key st cp (key u p).
Proof.
  intros I. unfold load_pool. destruct (connectionMap st !! u) as [c|] eqn:E; [|done].
  destruct (inv_map _ I _ _ E) as (q & Hq & <- & _). rewrite Hq. unfold verifyPassword.
  case_bool_decide as Ep; [|done]. intros [= <-]. exists q. by rewrite Ep.
Qed.

(** Closes the side conditions of a step that moves one goroutine. *)
Ltac same_lock := first [by left | by right; left | by right; right].
Ltac moved_thread := try done; try same_lock; try (by intros; subst).

Lemma enter_release_inv st st' st1 i x cp k : inv st -> threads st !! i = Some x ->
  (* [st1] is [st] with the lock of [i] *)
  threads st1 = threads st -> pools st1 = pools st -> connectionMap st1 = connectionMap st ->
  results st1 = results st -> flights st1 = flights st -> accepted st1 = accepted st ->
  connectionLocker st1 = Some i -> (connectionLocker st = None \/ holds_lock x = true /\ connectionLocker st = Some i) ->
  after_ok st k -> (match k with ThenStore _ _ _ _ new => new <> cp | ThenExit => True end) ->
  (forall cp k, x <> Canceling cp k) -> (forall cp k, x <> Deleting cp k) ->
  enter_release st1 i cp k = Next st' -> inv st'.
Proof.
  intros I Hx Et Ep Em Er Ef Ea El1 El Hk Hnew H1 H2. unfold enter_release. rewrite Ep.
  destruct (pools st !! cp) as [q|] eqn:Hq; [|done].
  destruct (once q) eqn:Eo; intros [= <-].
  - assert (Hl : lock_move st (goto st1 i (match k with ThenStore fl u p ip new => Storing fl u p ip new | ThenExit => Unlocking cp end)) i x
       (match k with ThenStore fl u p ip new => Storing fl u p ip new | ThenExit => Unlocking cp end)).
    { unfold lock_move. cbn. rewrite El1. destruct El as [->|[El ->]]; [right; left|left]; by destruct k. }
    eapply inv_goto; [exact I|exact Hx|cbn; by rewrite Et|done|done|done|done|done|exact Hl| |done|done].
    destruct k; cbn; [|by rewrite Ep, Hq]. cbn in Hk. destruct Hk as [[o Ho] (z & Hz & Hz')]. split.
    + exists o. cbn. by rewrite Er.
    + exists z. cbn. by rewrite Ep.
  - set (q' := set_flags q true (cancelled q) (pool_released q)). set (st' := goto _ _ _).
    assert (Ep' : pools st' = <[cp := q']> (pools st)) by done.
    assert (Et' : threads st' = <[i := Canceling cp k]> (threads st) ++ []) by (cbn; by rewrite Et, app_nil_r).
    assert (Em' : connectionMap st' = connectionMap st) by done.
    assert (Er' : results st' = results st) by done. assert (Ef' : flights st' = flights st) by done.
    assert (Ea' : accepted st' = accepted st) by done. assert (El' : connectionLocker st' = Some i) by done.
    clearbody st'. pose proof (lookup_lt_Some _ _ _ Hq) as Hlt.
    assert (Hcp : pools st' !! cp = Some q') by (rewrite Ep'; by apply list_lookup_insert_eq).
    assert (Hother : forall c, c <> cp -> pools st' !! c = pools st !! c)
      by (intros c Hc; rewrite Ep'; by apply list_lookup_insert_ne).
    assert (G : grows st st') by (eapply (grows_pool st st' cp q q'); try done; intros y; by rewrite Ea').
    apply (inv_move st st' i x (Canceling cp k) []); try done.
    + right. destruct El as [El|[El _]]; auto.
    + unfold lock_move. rewrite El'. destruct El as [->|[El ->]]; [right; left|left]; done.
    + cbn. split; [by exists q'|]. destruct k; [|done]. cbn in Hk. destruct Hk as [Hfl (z & Hz & Hz')].
      split; [by eapply flight_key_grows|]. exists z. by rewrite Hother.
    + intros u cp' Hu. rewrite Em' in Hu. destruct (inv_map _ I _ _ Hu) as (z & Hz & Eu & Ho).
      destruct (decide (cp' = cp)) as [->|Hne].
      * rewrite Hq in Hz. injection Hz as <-. exists q'. split_and!; [done|done|]. right. exists i, k. left.
        rewrite Et', app_nil_r. apply list_lookup_insert_eq. by eapply lookup_lt_Some.
      * rewrite Hother by done. exists z. split_and!; [done|done|].
        destruct Ho as [Ho|Ho]; [by left|right].
        apply (leaving_kept st st' i x (Canceling cp k) []); try done. intros ? ? E. by apply H1 in E.
    + intros fl kk res. rewrite Er'. intros H. eapply result_ok_grows; [exact G|]. by eapply inv_results.
    + intros kk fl. rewrite Ef'. intros H. eapply flight_key_grows; [exact G|]. by eapply inv_flights.
    + intros cp' z Hz. rewrite Ea'. destruct (decide (cp' = cp)) as [->|Hne].
      * rewrite Hcp in Hz. injection Hz as <-. cbn. by eapply inv_accepted.
      * rewrite Hother in Hz by done. by eapply inv_accepted.
Qed.

Lemma NewConnectorPool_inv st i fl u p ip old a st1 o : inv st -> threads st !! i = Some (Creating fl u p ip old) ->
  NewConnectorPool st u p a = (st1, o) -> inv st1 /\ threads st1 !! i = Some (Creating fl u p ip old).
Proof.
  intros I Hx E. apply NewConnectorPool_spec in E as (Em & El & Ef & Er & Ea & Ho).
  assert (Hfl : thread_ok st (Creating fl u p ip old)) by (by eapply inv_threads).
  destruct o as [new|].
  - destruct Ho as (-> & Et & Hacc & q & Ep & Uq & Pq & Oq).
    assert (G : grows st st1).
    { split_and!; [|intros ? ? ?; rewrite Er; eauto|done]. intros cp z Hz. rewrite Ep.
      exists z. split; [by apply lookup_app_l_Some|done]. }
    assert (C : calm st st1).
    { split; [done|]. intros cp z Hz. rewrite Ep. exists z. split; [by apply lookup_app_l_Some|done]. }
    assert (Hlt : (i < length (threads st))%nat) by by eapply lookup_lt_Some.
    split; [|rewrite Et; by apply lookup_app_l_Some].
    apply (inv_calm st st1 i (Creating fl u p ip old) (Creating fl u p ip old) [Watching (length (pools st))]); try done.
    + rewrite Et. by rewrite list_insert_id.
    + by left.
    + by eapply thread_ok_kept.
    + constructor; [|constructor]. split; [|done]. cbn. rewrite Ep, list_lookup_middle by done. done.
    + intros cp z. rewrite Ep. intros [Hz|[Hz1 Hz2]]%lookup_app_Some.
      * apply Ea. by eapply inv_accepted.
      * apply list_lookup_singleton_Some in Hz2 as [_ <-]. by rewrite Uq, Pq.
  - destruct Ho as [Ep Et]. split; [|by rewrite Et].
    apply (inv_calm st st1 i (Creating fl u p ip old) (Creating fl u p ip old) []); try done.
    + rewrite Et, app_nil_r. by rewrite list_insert_id.
    + split_and!; [intros cp z; rewrite Ep; eauto 10|intros ? ? ?; rewrite Er; eauto|done].
    + by apply calm_same.
    + by left.
    + eapply thread_ok_kept; [|intros _; by apply calm_same|done].
      split_and!; [intros cp z; rewrite Ep; eauto 10|intros ? ? ?; rewrite Er; eauto|done].
    + intros cp z. rewrite Ep. intros Hz. apply Ea. by eapply inv_accepted.
Qed.

Lemma new_inv st i a st' : inv st -> step st (ANew i a) = Next st' -> inv st'.
Proof.
  intros I. cbn. destruct (threads st !! i) as [x|] eqn:Hx; [|done]. destruct x; try done.
  destruct (NewConnectorPool st u p a) as [st1 o] eqn:E.
  destruct (NewConnectorPool_inv _ _ _ _ _ _ _ _ _ _ I Hx E) as [I1 Hx1].
  assert (Hok : thread_ok st1 (Creating fl u p ip old)) by (by eapply inv_threads). cbn in Hok. destruct Hok as [Hfl Hold].
  assert (Hlock : connectionLocker st1 = Some i) by (by eapply inv_lock).
  apply NewConnectorPool_spec in E as (Em & El & Ef & Er & Ea & Ho).
  destruct o as [new|].
  - destruct Ho as (-> & Et & _ & q & Ep & Uq & Pq & Oq).
    assert (Hnew : new_pool st1 (length (pools st)) u p).
    { exists q. rewrite Ep, list_lookup_middle by done. done. }
    destruct old as [cp|].
    + intros Hrel. eapply (enter_release_inv st1 st' st1 i _ cp); try done; [by right| |].
      * by split.
      * cbn. assert (is_Some (pools st !! cp)) as Hlt.
        { rewrite Em in Hold. destruct (inv_map _ I _ _ Hold) as (z & Hz & _). eauto. }
        apply lookup_lt_is_Some in Hlt. lia.
    + intros [= <-]. eapply (inv_goto st1 _ i); try done. by left.
  - intros [= <-]. eapply (inv_goto st1 _ i); try done. by left.
Qed.

Lemma step_go_inv st i x st' : inv st -> threads st !! i = Some x -> step_go st i x = Next st' -> inv st'.
Proof.
  intros I Hx. pose proof (inv_threads _ I _ _ Hx) as Hok. pose proof (lookup_lt_Some _ _ _ Hx) as Hlt.
  destruct x; cbn [step_go]; try done; cbn in Hok.
  - (* Loading *) intros [= <-]. destruct (load_pool st u p) as [cp|] eqn:E.
    + eapply (inv_goto st _ i); try done; [by left|]. exact (load_pool_key _ _ _ _ I E).
    + eapply (inv_goto st _ i); try done. by left.
  - (* Flight *) destruct (flights st !! key u p) as [fl|] eqn:E; intros [= <-].
    + eapply (inv_goto st _ i); try done; [by left|]. exact (inv_flights _ I _ _ E).
    + set (st' := goto _ _ _).
      assert (G : grows st st').
      { split_and!; [eauto 10| |done]. intros fl k o H. exists o. by apply lookup_app_l_Some. }
      assert (C : calm st st') by (by apply calm_same).
      apply (inv_move st st' i (Flight u p ip) (Locking (length (results st)) u p ip) []); try done.
      * cbn. by rewrite app_nil_r.
      * by left.
      * by left.
      * cbn. exists None. cbn. by apply list_lookup_middle.
      * eapply map_kept; eauto. intros cp. eapply leaving_kept; [done|cbn; by rewrite app_nil_r|done|done].
      * cbn. intros fl k res [H|[H1 H2]]%lookup_app_Some; [by eapply result_ok_grows, inv_results|].
        by apply list_lookup_singleton_Some in H2 as [_ ?].
      * cbn. intros k fl [[<- <-]|[_ H]]%lookup_insert_Some.
        -- exists None. cbn. by apply list_lookup_middle.
        -- eapply flight_key_grows; [exact G|]. by eapply inv_flights.
      * apply (inv_accepted _ I).
  - (* Following *) destruct Hok as [o Ho]. rewrite Ho. destruct o as [[cp|e]|]; [| |done]; intros [= <-].
    + eapply (inv_goto st _ i); try done; [by left|]. exact (inv_results _ I _ _ _ Ho).
    + eapply (inv_goto st _ i); try done. by left.
  - (* Locking *) destruct (connectionLocker st) eqn:El; [done|]. intros [= <-].
    eapply (inv_goto st _ i); try done. by right; left.
  - (* Checking *) intros [= <-]. destruct (load_pool st u p) as [cp|] eqn:E.
    + eapply (inv_goto st _ i); try done; [by left|]. split; [exact Hok|exact (load_pool_key _ _ _ _ I E)].
    + eapply (inv_goto st _ i); try done. by left.
  - (* Storing *) destruct Hok as [Hfl (q & Hq & Uq & Pq & Oq)]. intros [= <-]. set (st' := goto _ _ _).
    assert (G : grows st st') by (by apply grows_same).
    apply (inv_move st st' i (Storing fl u p ip new) (Returning fl u p ip (inl new)) []); try done.
    + cbn. by rewrite app_nil_r.
    + by right; left.
    + by left.
    + cbn. split; [done|]. exists q. by rewrite Uq, Pq.
    + cbn. intros u' cp [[<- <-]|[_ H]]%lookup_insert_Some; [eauto|].
      destruct (inv_map _ I _ _ H) as (z & Hz & Ez & Ho). exists z. split_and!; [done|done|].
      destruct Ho as [Ho|Ho]; [by left|right]. eapply leaving_kept; [exact Hx|cbn; by rewrite app_nil_r|done|done|done].
    + apply (inv_results _ I).
    + apply (inv_flights _ I).
    + apply (inv_accepted _ I).
  - (* Returning *) intros [= <-]. eapply (inv_goto st _ i); try done. by right; right.
  - (* Publishing *) destruct Hok as [[o Ho] Hres]. unfold finish. intros [= <-]. set (st' := goto _ _ _).
    assert (Hfl : (fl < length (results st))%nat) by by eapply lookup_lt_Some.
    assert (G : grows st st').
    { split_and!; [eauto 10| |done]. intros f k o' H. cbn. destruct (decide (f = fl)) as [->|Hne].
      - rewrite list_lookup_insert_eq by done. rewrite Ho in H. injection H as <- <-. eauto.
      - rewrite list_lookup_insert_ne by done. eauto. }
    assert (C : calm st st') by (by apply calm_same).
    apply (inv_move st st' i (Publishing fl u p ip res) (match res with inl cp => HasPool u p ip cp | inr e => Failed e end) []); try done.
    + cbn. by rewrite app_nil_r.
    + by left.
    + left. split; [done|]. by destruct res.
    + destruct res; [|done]. by eapply pool_key_grows.
    + eapply map_kept; eauto. intros cp. eapply leaving_kept; [done|cbn; by rewrite app_nil_r|done|done].
    + cbn. intros f k r Hf. destruct (decide (f = fl)) as [->|Hne].
      * rewrite list_lookup_insert_eq in Hf by done. injection Hf as <- <-. by eapply result_ok_grows.
      * rewrite list_lookup_insert_ne in Hf by done. by eapply result_ok_grows, inv_results.
    + cbn. intros k f [_ H]%lookup_delete_Some. eapply flight_key_grows; [exact G|]. by eapply inv_flights.
    + apply (inv_accepted _ I).
  - (* HasPool *) destruct (pools st !! cp) as [q|]; [|done]. intros [= <-].
    destruct (verifyIP q ip); eapply (inv_goto st _ i); try done; by left.
  - (* Setting *) destruct (is_open st c); [|done]. intros [= <-]. eapply (inv_goto st _ i); try done. by left.
  - (* Holding *) destruct (is_open st c); [|done]. intros [= <-]. eapply (inv_goto st _ i); try done; [by left|].
    cbn. destruct Hok as (q & -> & _). done.
  - (* Putting *) unfold pool_Put. destruct (pools st !! cp) as [q|] eqn:Hq; [|done]. destruct (negb _); [done|].
    destruct (pool_released q); intros [= <-]; eapply (inv_pool st _ i (Putting cp c) Idle cp q); try done; by left.
  - (* WLocking *) destruct (connectionLocker st) eqn:El; [done|]. intros H.
    eapply (enter_release_inv st st' (set_lock st (Some i)) i _ cp ThenExit); try done. by left.
  - (* Exiting *) destruct (pools st !! cp) as [q|]; [|done]. intros [= <-]. eapply (inv_goto st _ i); try done. by left.
  - (* Canceling *) destruct (pools st !! cp) as [q|] eqn:Hq; [|done]. intros [= <-]. destruct Hok as [(z & Hz & Oz) Hk].
    rewrite Hq in Hz. injection Hz as <-.
    eapply (inv_pool st _ i (Canceling cp k) (Deleting cp k) cp q); try done; [by left| |by intros ? ? [= <- <-]; eauto].
    cbn. assert (Hcp : <[cp := set_flags q (once q) true (pool_released q)]> (pools st) !! cp = Some (set_flags q (once q) true (pool_released q)))
      by (apply list_lookup_insert_eq; by eapply lookup_lt_Some).
    split; [by eexists|]. destruct k; [|done]. cbn in *. destruct Hk as [Hfl (z & Hz & U & P & O)]. split; [done|].
    exists z. cbn. rewrite list_lookup_insert_ne; [done|]. intros ->. congruence.
  - (* Deleting *) destruct (pools st !! cp) as [q|] eqn:Hq; [|done]. intros [= <-]. set (st' := goto _ _ _).
    destruct Hok as [Hent Hk].
    assert (Hst : pools st' = pools st /\ results st' = results st /\ accepted st' = accepted st /\ flights st' = flights st /\
      connectionLocker st' = connectionLocker st /\ threads st' = <[i := Closing cp k]> (threads st) /\
      forall u c, connectionMap st' !! u = Some c -> connectionMap st !! u = Some c /\ c <> cp).
    { unfold st'. case_bool_decide as Ed; cbn; split_and!; try done.
      - intros u c [Hne H]%lookup_delete_Some. split; [done|]. intros ->.
        destruct (inv_map _ I _ _ H) as (z & Hz & Ez & _). congruence.
      - intros u c H. split; [done|]. intros ->. destruct (inv_map _ I _ _ H) as (z & Hz & Ez & _). congruence. }
    destruct Hst as (Ep & Er & Ea & Ef & El & Et & Hm). clearbody st'.
    assert (G : grows st st') by (by apply grows_same).
    apply (inv_move st st' i (Deleting cp k) (Closing cp k) []); try done.
    + rewrite Et. by rewrite app_nil_r.
    + by right; left.
    + by left.
    + cbn. split; [by eapply entered_grows|]. destruct k; [|done]. cbn in *. destruct Hk as [Hfl (z & Hz & Hz')].
      split; [by eapply flight_key_grows|]. exists z. by rewrite Ep.
    + intros u c Hu. apply Hm in Hu as [Hu Hne]. destruct (inv_map _ I _ _ Hu) as (z & Hz & Ez & Ho).
      exists z. rewrite Ep. split_and!; [done|done|]. destruct Ho as [Ho|(j & k' & Hj)]; [by left|right].
      exists j, k'. rewrite Et. destruct (decide (j = i)) as [->|Hji]; [|by rewrite list_lookup_insert_ne].
      rewrite Hx in Hj. destruct Hj; congruence.
    + intros fl kk res. rewrite Er. intros H. eapply result_ok_grows; [exact G|]. by eapply inv_results.
    + intros kk fl. rewrite Ef. intros H. eapply flight_key_grows; [exact G|]. by eapply inv_flights.
    + intros c z. rewrite Ep, Ea. apply (inv_accepted _ I).
  - (* Closing *) destruct (pools st !! cp) as [q|] eqn:Hq; [|done]. intros [= <-]. destruct Hok as [(z & Hz & Oz) Hk].
    rewrite Hq in Hz. injection Hz as <-.
    eapply (inv_pool st _ i (Closing cp k) _ cp q); try done; [left; by destruct k|].
    destruct k; cbn.
    + destruct Hk as [Hfl (y & Hy & U & P & O)]. split; [done|]. exists y. cbn. rewrite list_lookup_insert_ne; [done|].
      intros ->. congruence.
    + rewrite list_lookup_insert_eq by (by eapply lookup_lt_Some). done.
  - (* Unlocking *) intros [= <-]. eapply (inv_goto st _ i); try done. by right; right.
Qed.

Theorem common_step_inv st a st' : inv st -> step st a = Next st' -> inv st'.
Proof.
  intros I. destruct a as [i u p ip|i|i a|i a|i k|i nets|c k].
  - cbn. destruct (threads st !! i) as [[]|] eqn:Hx; try done. intros [= <-].
    eapply (inv_goto st _ i); try done. by left.
  - cbn. destruct (threads st !! i) as [x|] eqn:Hx; [|done]. by eapply step_go_inv.
  - by apply new_inv.
  - cbn. destruct (threads st !! i) as [[]|] eqn:Hx; try done. pose proof (inv_threads _ I _ _ Hx) as Hok. cbn in Hok.
    unfold pool_Get. destruct (pools st !! cp) as [q|] eqn:Hq; [|done].
    destruct (pool_released q); [intros [= <-]; eapply (inv_goto st _ i); try done; by left|].
    assert (Hkey : key (user q) (password q) = key u p) by (destruct Hok as (z & Hz & <-); congruence).
    assert (Hmem : forall st' c x l, pools st' = <[cp := set_members q x l]> (pools st) ->
      thread_ok st' (Setting u p ip cp c)).
    { intros s1 c x l E. cbn. eexists. rewrite E.
      split; [apply list_lookup_insert_eq; by eapply lookup_lt_Some|done]. }
    destruct a; [destruct (idle q); [done|]| |]; intros [= <-].
    + eapply (inv_pool st _ i (Getting u p ip cp) _ cp q); try done; [by left|by eapply Hmem].
    + eapply (inv_pool st _ i (Getting u p ip cp) _ cp q); try done; [|by left|by eapply Hmem].
      intros x Hin. apply elem_of_app. by left.
    + eapply (inv_goto st _ i); try done; by left.
  - cbn. destruct (threads st !! i) as [[]|] eqn:Hx; try done. pose proof (inv_threads _ I _ _ Hx) as Hok. cbn in Hok.
    unfold step_event. destruct (pools st !! cp) as [q|] eqn:Hq; [|done]. destruct k as [k|].
    + destruct (handles st !! handle_of q k) as [h|]; [|done]. destruct (full h); [|done]. intros [= <-].
      eapply (inv_goto st _ i); try done; [left; by destruct k|]. destruct k; cbn; by rewrite Hq.
    + destruct (cancelled q); [|done]. intros [= <-]. eapply (inv_goto st _ i); try done; [by left|]. cbn. by rewrite Hq.
  - cbn. destruct (threads st !! i) as [[]|] eqn:Hx; try done. pose proof (inv_threads _ I _ _ Hx) as Hok. cbn in Hok.
    destruct (pools st !! cp) as [q|] eqn:Hq; [|done]. destruct (negb _); [done|]. destruct nets as [l|]; intros [= <-].
    + eapply (inv_pool st _ i (Fetching cp) _ cp q); try done; [by left|]. cbn.
      rewrite list_lookup_insert_eq by (by eapply lookup_lt_Some). done.
    + eapply (inv_goto st _ i); try done; [by left|]. cbn. by rewrite Hq.
  - cbn. destruct (conns st !! c) as [x|]; [|done]. destruct (negb _); [done|].
    destruct (filter _ _) as [|[k' h] l]; [done|]. destruct (handles st !! h) as [y|]; [|done].
    destruct (full y); [done|]. intros [= <-]. destruct I. by split.
Qed.

(** ** The connections *)

(** The connection a request uses, with its pool. *)
Definition uses (x : pc) : option (nat * nat) :=
  match x with Setting _ _ _ cp c | Holding _ _ _ cp c | Putting cp c => Some (cp, c) | _ => None end.
Definition members (q : ConnectorPool) : list nat := idle q ++ lent q.

(** Connections of a pool are open and in no other pool, a request uses one that is lent to it alone,
    and the connection with the callbacks stays until the release. *)
Record res (st : state) : Prop := {
  res_open : forall cp q c, pools st !! cp = Some q -> c ∈ members q -> is_open st c = true;
  res_nodup : forall cp q, pools st !! cp = Some q -> NoDup (members q);
  res_disjoint : forall cp cp' q q' c, pools st !! cp = Some q -> pools st !! cp' = Some q' ->
    c ∈ members q -> c ∈ members q' -> cp = cp';
  res_lent : forall i x cp c, threads st !! i = Some x -> uses x = Some (cp, c) ->
    exists q, pools st !! cp = Some q /\ c ∈ lent q;
  res_alone : forall i j x y cp cp' c, threads st !! i = Some x -> threads st !! j = Some y ->
    uses x = Some (cp, c) -> uses y = Some (cp', c) -> i = j;
  res_v : forall cp q, pools st !! cp = Some q -> pool_released q = false -> v q ∈ members q }.

Lemma lent_member q c : c ∈ lent q -> c ∈ members q.
Proof. intros H. apply elem_of_app. by right. Qed.
Lemma idle_member q c : c ∈ idle q -> c ∈ members q.
Proof. intros H. apply elem_of_app. by left. Qed.
#[local] Hint Resolve lent_member idle_member : core.

Lemma is_open_lt st c : is_open st c = true -> (c < length (conns st))%nat.
Proof. unfold is_open. destruct (conns st !! c) eqn:E; [|done]. intros _. by eapply lookup_lt_Some. Qed.

(** A goroutine moves and may stop using its connection, goroutines are added, and the pools keep
    their connections. *)
Lemma res_quiet st st' i x y extra : res st -> threads st !! i = Some x ->
  threads st' = <[i := y]> (threads st) ++ extra -> Forall (fun z => uses z = None) extra ->
  uses y = None \/ uses y = uses x -> (forall c, is_open st c = true -> is_open st' c = true) ->
  (forall cp q', pools st' !! cp = Some q' -> exists q, pools st !! cp = Some q /\
     idle q' = idle q /\ lent q' = lent q /\ v q' = v q /\ (pool_released q' = false -> pool_released q = false)) ->
  (forall cp q, pools st !! cp = Some q -> exists q', pools st' !! cp = Some q' /\ lent q' = lent q) ->
  res st'.
Proof.
  intros R Hx Et Hex Hy Ho Hb Hf. pose proof (lookup_lt_Some _ _ _ Hx) as Hlt. rewrite Forall_forall in Hex.
  assert (Hback : forall j z p, threads st' !! j = Some z -> uses z = Some p ->
    exists z', threads st !! j = Some z' /\ uses z' = Some p).
  { intros j z p. rewrite Et. intros [Hj|[_ Hj]]%lookup_app_Some Hu.
    - destruct (decide (j = i)) as [->|Hne].
      + rewrite list_lookup_insert_eq in Hj by done. injection Hj as <-. exists x. split; [done|].
        destruct Hy; congruence.
      + rewrite list_lookup_insert_ne in Hj by done. eauto.
    - apply list_elem_of_lookup_2, Hex in Hj. congruence. }
  assert (Hm : forall cp q', pools st' !! cp = Some q' -> exists q, pools st !! cp = Some q /\ members q' = members q).
  { intros cp q' H. destruct (Hb _ _ H) as (q & Hq & E1 & E2 & _). exists q. unfold members. by rewrite E1, E2. }
  split.
  - intros cp q' c H Hc. destruct (Hm _ _ H) as (q & Hq & E). rewrite E in Hc. eapply Ho, res_open; eauto.
  - intros cp q' H. destruct (Hm _ _ H) as (q & Hq & E). rewrite E. by eapply res_nodup.
  - intros cp cp' q q' c H H' Hc Hc'. destruct (Hm _ _ H) as (q1 & Hq1 & E1). destruct (Hm _ _ H') as (q2 & Hq2 & E2).
    rewrite E1 in Hc. rewrite E2 in Hc'. by eapply res_disjoint.
  - intros j z cp c Hj Hu. destruct (Hback _ _ _ Hj Hu) as (z' & Hz' & Hu').
    destruct (res_lent _ R _ _ _ _ Hz' Hu') as (q & Hq & Hc). destruct (Hf _ _ Hq) as (q' & Hq' & E).
    exists q'. by rewrite E.
  - intros j k a b cp cp' c Hj Hk Ha Hb'. destruct (Hback _ _ _ Hj Ha) as (a' & ? & ?).
    destruct (Hback _ _ _ Hk Hb') as (b' & ? & ?). by eapply res_alone.
  - intros cp q' H Hr. destruct (Hb _ _ H) as (q & Hq & E1 & E2 & E3 & E4). unfold members. rewrite E1, E2, E3.
    eapply res_v; eauto.
Qed.

(** One pool and one goroutine change. *)
Lemma res_pool st st' i x y cp q q' : res st -> threads st !! i = Some x ->
  threads st' = <[i := y]> (threads st) -> pools st !! cp = Some q -> pools st' = <[cp := q']> (pools st) ->
  v q' = v q -> NoDup (members q') ->
  (forall c, c ∈ members q' -> is_open st' c = true /\ (c ∈ members q \/ (length (conns st) <= c)%nat)) ->
  (forall c, is_open st c = true -> c ∉ members q -> is_open st' c = true) ->
  (forall c, c ∈ lent q -> uses x <> Some (cp, c) -> c ∈ lent q') ->
  (forall cp' c, uses y = Some (cp', c) -> cp' = cp /\ c ∈ lent q' /\ (uses x = Some (cp, c) \/ c ∉ lent q)) ->
  (pool_released q' = false -> pool_released q = false /\ (v q ∈ members q -> v q ∈ members q')) ->
  res st'.
Proof.
  intros R Hx Et Hq Ep Ev Hnd Hmem Hopen Hlent Hy Hv.
  pose proof (lookup_lt_Some _ _ _ Hx) as Hlt. pose proof (lookup_lt_Some _ _ _ Hq) as Hltq.
  assert (Hpool : forall c z, pools st' !! c = Some z -> c = cp /\ z = q' \/ c <> cp /\ pools st !! c = Some z).
  { intros c z. rewrite Ep. destruct (decide (c = cp)) as [->|Hne].
    - rewrite list_lookup_insert_eq by done. intros [= <-]. by left.
    - rewrite list_lookup_insert_ne by done. by right. }
  assert (Hthread : forall j z, threads st' !! j = Some z -> j = i /\ z = y \/ j <> i /\ threads st !! j = Some z).
  { intros j z. rewrite Et. destruct (decide (j = i)) as [->|Hne].
    - rewrite list_lookup_insert_eq by done. intros [= <-]. by left.
    - rewrite list_lookup_insert_ne by done. by right. }
  assert (Hapart : forall c z m, c <> cp -> pools st !! c = Some z -> m ∈ members z -> m ∉ members q').
  { intros c z m Hne Hz Hm Hm'. destruct (Hmem _ Hm') as [_ [H|H]].
    - apply Hne. by eapply res_disjoint.
    - assert (is_open st m = true) as Hl%is_open_lt by (by eapply res_open). lia. }
  split.
  - intros c z m [[-> ->]|[Hne Hz]]%Hpool Hm; [by apply Hmem|].
    apply Hopen; [by eapply res_open|]. intros Hm'. apply Hne. by eapply res_disjoint.
  - intros c z [[-> ->]|[Hne Hz]]%Hpool; [done|by eapply res_nodup].
  - intros c d z w m [[-> ->]|[Hne Hz]]%Hpool [[-> ->]|[Hne' Hw]]%Hpool Hm Hm'; try done.
    + by destruct (Hapart _ _ _ Hne' Hw Hm').
    + by destruct (Hapart _ _ _ Hne Hz Hm).
    + by eapply res_disjoint.
  - intros j z c m [[-> ->]|[Hne Hz]]%Hthread Hu.
    + apply Hy in Hu as (-> & Hm & _). exists q'. split; [|done]. rewrite Ep. by apply list_lookup_insert_eq.
    + destruct (res_lent _ R _ _ _ _ Hz Hu) as (w & Hw & Hm). rewrite Ep. destruct (decide (c = cp)) as [->|Hc].
      * rewrite list_lookup_insert_eq by done. exists q'. split; [done|]. apply Hlent; [congruence|].
        intros E. apply Hne. by eapply res_alone.
      * rewrite list_lookup_insert_ne by done. eauto.
  - assert (Hmine : forall j z c c' m, j <> i -> threads st !! j = Some z -> uses z = Some (c, m) -> uses y <> Some (c', m)).
    { intros j z c c' m Hne Hz Hu Hu'. apply Hy in Hu' as (-> & Hm & Hor).
      destruct (res_lent _ R _ _ _ _ Hz Hu) as (w & Hw & Hmw).
      destruct (decide (c = cp)) as [->|Hc].
      - destruct Hor as [E|Hn]; [|apply Hn; congruence]. apply Hne. by eapply res_alone.
      - eapply (Hapart c w m); eauto. }
    intros j k a b c c' m [[-> ->]|[Hne Hz]]%Hthread [[-> ->]|[Hne' Hw]]%Hthread Ha Hb; try done.
    + by destruct (Hmine _ _ _ _ _ Hne' Hw Hb Ha).
    + by destruct (Hmine _ _ _ _ _ Hne Hz Ha Hb).
    + by eapply res_alone.
  - intros c z [[-> ->]|[Hne Hz]]%Hpool Hr; [|by eapply res_v].
    rewrite Ev. destruct (Hv Hr) as [Hr' Hm]. apply Hm. by eapply res_v.
Qed.

Lemma same_pools st st' : pools st' = pools st ->
  (forall cp q', pools st' !! cp = Some q' -> exists q, pools st !! cp = Some q /\
     idle q' = idle q /\ lent q' = lent q /\ v q' = v q /\ (pool_released q' = false -> pool_released q = false)) /\
  (forall cp q, pools st !! cp = Some q -> exists q', pools st' !! cp = Some q' /\ lent q' = lent q).
Proof. intros ->. split; intros; eauto 10. Qed.

Lemma res_goto st st' i x y : res st -> threads st !! i = Some x -> threads st' = <[i := y]> (threads st) ->
  uses y = None \/ uses y = uses x -> pools st' = pools st -> conns st' = conns st -> res st'.
Proof.
  intros R Hx Et Hy Ep Ec. destruct (same_pools _ _ Ep) as [Hb Hf].
  apply (res_quiet st st' i x y []); try done; [by rewrite app_nil_r|]. intros c. unfold is_open. by rewrite Ec.
Qed.

(** The flags of a pool or its networks change. *)
Lemma res_flags st st' i x y cp q q' : res st -> threads st !! i = Some x -> threads st' = <[i := y]> (threads st) ->
  uses y = None -> pools st !! cp = Some q -> pools st' = <[cp := q']> (pools st) -> conns st' = conns st ->
  idle q' = idle q -> lent q' = lent q -> v q' = v q -> pool_released q' = pool_released q -> res st'.
Proof.
  intros R Hx Et Hy Hq Ep Ec E1 E2 E3 E4. pose proof (lookup_lt_Some _ _ _ Hq).
  apply (res_quiet st st' i x y []); try done; [by rewrite app_nil_r|by left|intros c; unfold is_open; by rewrite Ec|..];
    intros c z; rewrite Ep; destruct (decide (c = cp)) as [->|Hne];
    rewrite ?list_lookup_insert_eq, ?list_lookup_insert_ne by done; eauto 10.
  - intros [= <-]. exists q. split_and!; try done. by rewrite E4.
  - rewrite Hq. intros [= <-]. eauto.
Qed.

Lemma is_open_app st x c : is_open st c = true ->
  match (conns st ++ x) !! c with Some y => c_open y | None => false end = true.
Proof.
  intros H. pose proof (is_open_lt _ _ H). rewrite lookup_app_l by done. exact H.
Qed.

Lemma close_conn_other cs c d : d <> c -> close_conn cs c !! d = cs !! d.
Proof. intros H. unfold close_conn. destruct (cs !! c); [|done]. by rewrite list_lookup_insert_ne. Qed.
Lemma register_other cs c k h d : d <> c -> register cs c k h !! d = cs !! d.
Proof. intros H. unfold register. destruct (cs !! c); [|done]. by rewrite list_lookup_insert_ne. Qed.
Lemma register_same cs c k h : match register cs c k h !! c with Some y => c_open y | None => false end =
  match cs !! c with Some y => c_open y | None => false end.
Proof.
  unfold register. destruct (cs !! c) eqn:E; [|by rewrite E].
  by rewrite list_lookup_insert_eq by (by eapply lookup_lt_Some).
Qed.
Lemma close_conns_other l : forall cs d, d ∉ l -> foldl close_conn cs l !! d = cs !! d.
Proof.
  induction l as [|c l IH]; intros cs d H; [done|]. apply not_elem_of_cons in H as [H1 H2]. cbn.
  rewrite IH by done. by apply close_conn_other.
Qed.

(** The connection that a new pool starts with is a new one. *)
Lemma NewConnectorPool_conns st u p a st1 o : NewConnectorPool st u p a = (st1, o) ->
  (forall c, is_open st c = true -> is_open st1 c = true) /\
  match o with
  | None => pools st1 = pools st
  | Some new => is_open st1 (length (conns st)) = true /\ exists q, pools st1 = pools st ++ [q] /\
      idle q = [length (conns st)] /\ lent q = [] /\ v q = length (conns st)
  end.
Proof.
  unfold NewConnectorPool.
  destruct (take_handle PASSVER _ _) as [[hp hs1] fr1]. destruct (take_handle WHITELIST_VER _ _) as [[hw hs2] fr2].
  destruct (take_handle USER_DROPPED _ _) as [[hd hs3] fr3].
  destruct a; intros [= <- <-]; (split; [intros c Hc; pose proof (is_open_lt _ _ Hc); unfold is_open; cbn;
    rewrite ?close_conn_other, ?register_other by lia; first [exact Hc | by apply is_open_app]|]); try done.
  split; [|eexists; split_and!; done]. unfold is_open. cbn. rewrite !register_same. by rewrite list_lookup_middle.
Qed.

Lemma NewConnectorPool_res st i fl u p ip old a st1 o : inv st -> res st ->
  threads st !! i = Some (Creating fl u p ip old) -> NewConnectorPool st u p a = (st1, o) -> res st1.
Proof.
  intros I R Hx E. pose proof (NewConnectorPool_conns _ _ _ _ _ _ E) as [Ho Hn].
  apply NewConnectorPool_spec in E as (_ & _ & _ & _ & _ & Hs). pose proof (lookup_lt_Some _ _ _ Hx) as Hlt.
  destruct o as [new|].
  - destruct Hs as (_ & Et & _). destruct Hn as (Hopen & q & Ep & Ei & El & Ev).
    assert (Em : members q = [length (conns st)]) by (unfold members; by rewrite Ei, El).
    assert (Hpool : forall c z, pools st1 !! c = Some z -> pools st !! c = Some z \/ c = length (pools st) /\ z = q).
    { intros c z. rewrite Ep. intros [Hz|[H1 H2]]%lookup_app_Some; [by left|right].
      apply list_lookup_singleton_Some in H2 as [H2 <-]. split; [lia|done]. }
    assert (Hlow : forall c z m, pools st !! c = Some z -> m ∈ members z -> m <> length (conns st)).
    { intros c z m Hz Hm. assert (is_open st m = true) as Hl%is_open_lt by (by eapply res_open). lia. }
    assert (Hthread : forall j z p, threads st1 !! j = Some z -> uses z = Some p -> threads st !! j = Some z).
    { intros j z p'. rewrite Et. intros [Hz|[H1 H2]]%lookup_app_Some; [done|].
      apply list_lookup_singleton_Some in H2 as [_ <-]. done. }
    split.
    + intros c z m [Hz|[-> ->]]%Hpool Hm; [by eapply Ho, res_open|]. rewrite Em in Hm. by apply list_elem_of_singleton in Hm as ->.
    + intros c z [Hz|[-> ->]]%Hpool; [by eapply res_nodup|]. rewrite Em. apply NoDup_singleton.
    + intros c d z w m [Hz|[-> ->]]%Hpool [Hw|[-> ->]]%Hpool Hm Hm'; [by eapply res_disjoint|exfalso..|done].
      * rewrite Em in Hm'. apply list_elem_of_singleton in Hm'. by eapply Hlow in Hm.
      * rewrite Em in Hm. apply list_elem_of_singleton in Hm. by eapply Hlow in Hm'.
    + intros j z c m Hj Hu. destruct (res_lent _ R _ _ _ _ (Hthread _ _ _ Hj Hu) Hu) as (w & Hw & Hm).
      exists w. split; [|done]. rewrite Ep. by apply lookup_app_l_Some.
    + intros j k a' b c d m Hj Hk Ha Hb. exact (res_alone _ R _ _ _ _ _ _ _ (Hthread _ _ _ Hj Ha) (Hthread _ _ _ Hk Hb) Ha Hb).
    + intros c z [Hz|[-> ->]]%Hpool Hr; [by eapply res_v|]. rewrite Em, Ev. by left.
  - destruct Hs as [_ Et]. destruct (same_pools _ _ Hn) as [Hb Hf].
    eapply (res_quiet st st1 i _ (Creating fl u p ip old) []); try done; [|by left].
    rewrite Et, app_nil_r. by rewrite list_insert_id.
Qed.

Lemma enter_release_res st st' i x cp k : res st -> threads st !! i = Some x ->
  enter_release st i cp k = Next st' -> res st'.
Proof.
  intros R Hx. unfold enter_release. destruct (pools st !! cp) as [q|] eqn:Hq; [|done].
  destruct (once q); intros [= <-].
  - eapply res_goto; try done. left. by destruct k.
  - by eapply (res_flags st _ i x (Canceling cp k) cp q).
Qed.

Lemma filter_ne_elem (c d : nat) (l : list nat) : d ∈ filter (fun x => x <> c) l <-> d <> c /\ d ∈ l.
Proof. by rewrite list_elem_of_filter. Qed.

Lemma pool_Get_res st i u p ip cp a st' : res st -> threads st !! i = Some (Getting u p ip cp) ->
  pool_Get st i u p ip cp a = Next st' -> res st'.
Proof.
  intros R Hx. unfold pool_Get. destruct (pools st !! cp) as [q|] eqn:Hq; [|done].
  pose proof (res_nodup _ R _ _ Hq) as Hnd. pose proof (fun c => res_open _ R _ _ c Hq) as Hop.
  destruct (pool_released q) eqn:Er; [intros [= <-]; eapply res_goto; try done; by left|].
  destruct a; [destruct (idle q) as [|c l] eqn:Ei; [done|]| |]; intros [= <-].
  - assert (Hperm : members (set_members q l (c :: lent q)) ≡ₚ members q).
    { unfold members. cbn. rewrite Ei. symmetry. apply Permutation_middle. }
    eapply (res_pool st _ i _ _ cp q); try done.
    + by rewrite Hperm.
    + intros d. rewrite Hperm. intros Hd. split; [exact (Hop _ Hd)|by left].
    + intros d Hd _. cbn. by right.
    + intros cp' d [= <- <-]. split_and!; [done|cbn; left|right]. intros H. unfold members in Hnd. rewrite Ei in Hnd.
      apply NoDup_cons_1_1 in Hnd. apply Hnd. apply elem_of_app. by right.
    + intros _. split; [done|]. by rewrite Hperm.
  - set (c := length (conns st)).
    assert (Hperm : members (set_members q (idle q) (c :: lent q)) ≡ₚ c :: members q).
    { unfold members. cbn. symmetry. apply Permutation_middle. }
    assert (Hnew : c ∉ members q) by (intros H%Hop%is_open_lt; unfold c in H; lia).
    eapply (res_pool st _ i _ _ cp q); try done.
    + rewrite Hperm. by constructor.
    + intros d. rewrite Hperm. intros [->|Hd]%elem_of_cons.
      * split; [|by right]. unfold is_open. cbn. by rewrite list_lookup_middle.
      * split; [by apply is_open_app, Hop|by left].
    + intros d Hd _. by apply is_open_app.
    + intros d Hd _. cbn. by right.
    + intros cp' d [= <- <-]. split_and!; [done|cbn; left|right]. intros H. by apply Hnew, lent_member.
    + intros _. split; [done|]. rewrite Hperm. by right.
  - eapply res_goto; try done. by left.
Qed.

Lemma pool_Put_res st i cp c st' : res st -> threads st !! i = Some (Putting cp c) ->
  pool_Put st i cp c = Next st' -> res st'.
Proof.
  intros R Hx. unfold pool_Put. destruct (pools st !! cp) as [q|] eqn:Hq; [|done].
  destruct (negb (is_open st c)) eqn:Eo; [done|]. apply negb_false_iff in Eo.
  destruct (res_lent _ R _ _ _ _ Hx eq_refl) as (z & Hz & Hc). rewrite Hq in Hz. injection Hz as <-.
  pose proof (res_nodup _ R _ _ Hq) as Hnd. pose proof (fun c => res_open _ R _ _ c Hq) as Hop.
  assert (Hlent : forall d, d ∈ lent q -> uses (Putting cp c) <> Some (cp, d) -> d ∈ filter (fun x => x <> c) (lent q)).
  { intros d Hd H. apply filter_ne_elem. split; [|done]. intros ->. by apply H. }
  unfold members in Hnd. apply NoDup_app in Hnd as (N1 & N2 & N3).
  destruct (pool_released q) eqn:Er; intros [= <-]; eapply (res_pool st _ i _ _ cp q); try done; cbn.
  - apply NoDup_app. split_and!; [done| |by apply NoDup_filter]. intros d H [_ H2]%filter_ne_elem. by eapply N2.
  - intros d [H|[Hne H]%filter_ne_elem]%elem_of_app; (split; [|left; auto]); unfold is_open; cbn.
    + rewrite close_conn_other; [by apply Hop; auto|]. intros ->. by eapply N2.
    + rewrite close_conn_other by done. by apply Hop; auto.
  - intros d Hd Hn. unfold is_open. cbn. rewrite close_conn_other; [done|]. intros ->. by apply Hn, lent_member.
  - intros H. congruence.
  - unfold members. cbn. rewrite <- app_assoc. apply NoDup_app. split_and!; [done| |].
    + intros d H [->|[_ H2]%filter_ne_elem]%elem_of_cons; by eapply N2.
    + constructor; [|by apply NoDup_filter]. by intros [? _]%filter_ne_elem.
  - intros d H. assert (d ∈ members q) as Hd; [|split; [by apply Hop|by left]].
    apply elem_of_app in H as [[H| ->%list_elem_of_singleton]%elem_of_app|[_ H]%filter_ne_elem]; auto.
  - intros _. split; [done|]. intros [H|H]%elem_of_app; unfold members; cbn; rewrite !elem_of_app.
    + by left; left.
    + destruct (decide (v q = c)) as [->|Hne]; [left; right; by left|right]. by apply filter_ne_elem.
Qed.

Lemma step_go_res st i x st' : res st -> threads st !! i = Some x -> step_go st i x = Next st' -> res st'.
Proof.
  intros R Hx. destruct x; cbn [step_go]; try done;
    try (intros [= <-]; by (eapply res_goto; try done; left)).
  - intros [= <-]. eapply res_goto; try done. left. by destruct (load_pool st u p).
  - destruct (flights st !! key u p); intros [= <-]; eapply res_goto; try done; by left.
  - destruct (results st !! fl) as [[? [[]|]]|]; [| |done..]; intros [= <-]; eapply res_goto; try done; by left.
  - destruct (connectionLocker st); [done|]. intros [= <-]. eapply res_goto; try done. by left.
  - intros [= <-]. eapply res_goto; try done. left. by destruct (load_pool st u p).
  - intros [= <-]. eapply res_goto; try done. left. by destruct res0.
  - destruct (pools st !! cp); [|done]. intros [= <-]. eapply res_goto; try done. left. by destruct (verifyIP _ _).
  - destruct (is_open st c); [|done]. intros [= <-]. eapply res_goto; try done. by right.
  - destruct (is_open st c); [|done]. intros [= <-]. eapply res_goto; try done. by right.
  - by apply pool_Put_res.
  - destruct (connectionLocker st); [done|]. intros H. eapply (enter_release_res (set_lock st (Some i))); [|exact Hx|exact H]. destruct R. by split.
  - destruct (pools st !! cp); [|done]. intros [= <-]. eapply res_goto; try done. by left.
  - destruct (pools st !! cp) as [q|] eqn:Hq; [|done]. intros [= <-].
    by eapply (res_flags st _ i _ (Deleting cp k) cp q).
  - destruct (pools st !! cp) as [q|] eqn:Hq; [|done]. case_bool_decide; intros [= <-]; eapply res_goto; try done; by left.
  - destruct (pools st !! cp) as [q|] eqn:Hq; [|done]. intros [= <-].
    pose proof (res_nodup _ R _ _ Hq) as Hnd. unfold members in Hnd. apply NoDup_app in Hnd as (N1 & N2 & N3).
    eapply (res_pool st _ i _ _ cp q); try done.
    + intros c Hc. split; [|left; auto]. unfold is_open. cbn. rewrite close_conns_other.
      * eapply res_open; eauto.
      * intros H. by eapply N2.
    + intros c Ho Hn. unfold is_open. cbn. rewrite close_conns_other; [done|]. intros H. by apply Hn, idle_member.
    + intros cp' c. by destruct k.
Qed.

Lemma step_res st a st' : inv st -> res st -> step st a = Next st' -> res st'.
Proof.
  intros I R. destruct a as [i u p ip|i|i a|i a|i k|i nets|c k]; cbn.
  - destruct (threads st !! i) as [[]|] eqn:Hx; try done. intros [= <-]. eapply res_goto; try done. by left.
  - destruct (threads st !! i) as [x|] eqn:Hx; [|done]. by eapply step_go_res.
  - destruct (threads st !! i) as [[]|] eqn:Hx; try done. destruct (NewConnectorPool st u p a) as [st1 o] eqn:E.
    pose proof (NewConnectorPool_res _ _ _ _ _ _ _ _ _ _ I R Hx E) as R1.
    destruct (NewConnectorPool_inv _ _ _ _ _ _ _ _ _ _ I Hx E) as [_ Hx1].
    destruct o as [new|]; [destruct old as [cp|]; [by apply (enter_release_res _ _ _ _ _ _ R1 Hx1)|]|];
      intros [= <-]; eapply res_goto; try done; by left.
  - destruct (threads st !! i) as [[]|] eqn:Hx; try done. by apply pool_Get_res.
  - destruct (threads st !! i) as [[]|] eqn:Hx; try done. unfold step_event.
    destruct (pools st !! cp) as [q|] eqn:Hq; [|done]. destruct k as [k|].
    + destruct (handles st !! handle_of q k) as [h|]; [|done]. destruct (full h); [|done]. intros [= <-].
      eapply res_goto; try done. left. by destruct k.
    + destruct (cancelled q); [|done]. intros [= <-]. eapply res_goto; try done. by left.
  - destruct (threads st !! i) as [[]|] eqn:Hx; try done. destruct (pools st !! cp) as [q|] eqn:Hq; [|done].
    destruct (negb _); [done|]. destruct nets as [l|]; intros [= <-].
    + by eapply (res_flags st _ i _ (Watching cp) cp q).
    + eapply res_goto; try done. by left.
  - destruct (conns st !! c) as [x|]; [|done]. destruct (negb _); [done|].
    destruct (filter _ _) as [|[k' h] l]; [done|]. destruct (handles st !! h) as [y|]; [|done].
    destruct (full y); [done|]. intros [= <-]. destruct R. by split.
Qed.

End CommonPoolSafe.
