(* ===== verification/CommonPoolSpec.v ===== *)
(** * CommonPoolSpec: what the user pools promise

    Theorems about [CommonPool], for every interleaving of requests, watching goroutines and
    notifications: the map holds only live pools of their users ([map_current]), a connection goes
    to one request, with credentials the server has accepted ([connection_authorised]), a request
    can always still be answered ([request_answerable]), and closed connections are not used, with
    one exception ([common_bad_is_whitelist]). *)
From stdpp Require Import gmap.
From S2P Require Import Prelude CommonPool CommonPoolSafe.
#[local] Open Scope Z_scope.
Import CommonPool CommonPoolSafe.

Module CommonPoolSpec.

(** ** The calls in flight *)

(** The call of [singleGroup] that a goroutine runs. *)
Definition leads (x : pc) : option nat :=
  match x with
  | Locking fl _ _ _ | Checking fl _ _ _ | Creating fl _ _ _ _ | Storing fl _ _ _ _ | Returning fl _ _ _ _
  | Publishing fl _ _ _ _ | Canceling _ (ThenStore fl _ _ _ _) | Deleting _ (ThenStore fl _ _ _ _)
  | Closing _ (ThenStore fl _ _ _ _) => Some fl
  | _ => None
  end.

(** Every call without a result is run by some goroutine. *)
Definition led (st : state) : Prop :=
  forall fl k, results st !! fl = Some (k, None) -> exists j x, threads st !! j = Some x /\ leads x = Some fl.

Lemma led_move st st' i x y extra : led st -> threads st !! i = Some x ->
  threads st' = <[i := y]> (threads st) ++ extra ->
  (forall fl k, results st' !! fl = Some (k, None) -> leads y <> Some fl ->
     results st !! fl = Some (k, None) /\ leads x <> Some fl) -> led st'.
Proof.
  intros L Hx Et H fl k Hr. pose proof (lookup_lt_Some _ _ _ Hx) as Hlt.
  destruct (decide (leads y = Some fl)) as [E|E].
  - exists i, y. split; [|done]. rewrite Et, lookup_app_l by (by rewrite length_insert). by apply list_lookup_insert_eq.
  - destruct (H _ _ Hr E) as [Hr' Hn]. destruct (L _ _ Hr') as (j & z & Hj & Hz).
    exists j, z. split; [|done]. rewrite Et, lookup_app_l by (rewrite length_insert; by eapply lookup_lt_Some).
    rewrite list_lookup_insert_ne; [done|]. intros ->. congruence.
Qed.

Lemma led_goto st st' i x y : led st -> threads st !! i = Some x -> threads st' = <[i := y]> (threads st) ->
  results st' = results st -> leads x = None \/ leads y = leads x -> led st'.
Proof.
  intros L Hx Et Er H. eapply (led_move st st' i x y []); try done; [by rewrite app_nil_r|].
  intros fl k. rewrite Er. intros Hr Hn. split; [done|]. destruct H; congruence.
Qed.

Lemma enter_release_led st st' i x cp k : led st -> threads st !! i = Some x ->
  leads x = match k with ThenStore fl _ _ _ _ => Some fl | ThenExit => None end ->
  enter_release st i cp k = Next st' -> led st'.
Proof.
  intros L Hx E. unfold enter_release. destruct (pools st !! cp) as [q|]; [|done].
  destruct (once q); intros [= <-]; eapply led_goto; try done; right; rewrite E; by destruct k.
Qed.

Lemma step_go_led st i x st' : led st -> threads st !! i = Some x -> step_go st i x = Next st' -> led st'.
Proof.
  intros L Hx. destruct x; cbn [step_go]; try done;
    try (intros [= <-]; by (eapply led_goto; try done; first [by left|by right])).
  - destruct (flights st !! key u p); intros [= <-]; [eapply led_goto; try done; by left|].
    eapply (led_move st _ i _ _ []); try done; [by rewrite app_nil_r|]. cbn.
    intros f k [Hf|[H1 H2]]%lookup_app_Some Hn; [done|].
    apply list_lookup_singleton_Some in H2 as [H2 _]. exfalso. apply Hn. f_equal. lia.
  - destruct (results st !! fl) as [[? [[]|]]|]; [| |done..]; intros [= <-]; eapply led_goto; try done; by left.
  - destruct (connectionLocker st); [done|]. intros [= <-]. eapply led_goto; try done. by right.
  - intros [= <-]. eapply led_goto; try done. right. by destruct (load_pool st u p).
  - intros [= <-]. eapply (led_move st _ i _ _ []); try done; [by rewrite app_nil_r|]. cbn.
    intros f k H _. destruct (decide (f = fl)) as [->|Hne].
    + destruct (results st !! fl) eqn:E.
      * rewrite list_lookup_insert_eq in H by (by eapply lookup_lt_Some). congruence.
      * rewrite list_insert_ge in H by (by apply lookup_ge_None_1). congruence.
    + rewrite list_lookup_insert_ne in H by done. split; [done|congruence].
  - destruct (pools st !! cp); [|done]. intros [= <-]. eapply led_goto; try done. by left.
  - destruct (is_open st c); [|done]. intros [= <-]. eapply led_goto; try done. by left.
  - destruct (is_open st c); [|done]. intros [= <-]. eapply led_goto; try done. by left.
  - unfold pool_Put. destruct (pools st !! cp) as [q|]; [|done]. destruct (negb _); [done|].
    destruct (pool_released q); intros [= <-]; eapply led_goto; try done; by left.
  - destruct (connectionLocker st); [done|]. intros H. exact (enter_release_led (set_lock st (Some i)) _ _ _ _ ThenExit L Hx eq_refl H).
  - destruct (pools st !! cp); [|done]. intros [= <-]. eapply led_goto; try done. by left.
  - destruct (pools st !! cp); [|done]. intros [= <-]. eapply led_goto; try done. by right.
  - destruct (pools st !! cp); [|done]. case_bool_decide; intros [= <-]; eapply led_goto; try done; by right.
  - destruct (pools st !! cp); [|done]. intros [= <-]. eapply led_goto; try done. right. by destruct k.
Qed.

Lemma step_led st a st' : inv st -> led st -> step st a = Next st' -> led st'.
Proof.
  intros I L. destruct a as [i u p ip|i|i a|i a|i k|i nets|c k]; cbn.
  - destruct (threads st !! i) as [[]|] eqn:Hx; try done. intros [= <-]. eapply led_goto; try done. by left.
  - destruct (threads st !! i) as [x|] eqn:Hx; [|done]. by eapply step_go_led.
  - destruct (threads st !! i) as [[]|] eqn:Hx; try done. destruct (NewConnectorPool st u p a) as [st1 o] eqn:E.
    destruct (NewConnectorPool_inv _ _ _ _ _ _ _ _ _ _ I Hx E) as [_ Hx1].
    assert (L1 : led st1).
    { apply NewConnectorPool_spec in E as (_ & _ & _ & Er & _ & Hs). intros f k. rewrite Er. intros H.
      destruct (L _ _ H) as (j & z & Hj & Hz). exists j, z. split; [|done].
      destruct o; [destruct Hs as (_ & -> & _); by apply lookup_app_l_Some|by destruct Hs as [_ ->]]. }
    destruct o as [new|]; [destruct old as [cp|]; [intros H; exact (enter_release_led _ _ _ _ _ (ThenStore fl u p ip new) L1 Hx1 eq_refl H)|]|];
      intros [= <-]; eapply led_goto; try done; by right.
  - destruct (threads st !! i) as [[]|] eqn:Hx; try done. unfold pool_Get.
    destruct (pools st !! cp) as [q|]; [|done]. destruct (pool_released q); [|destruct a; [destruct (idle q); [done|]| |]];
      intros [= <-]; eapply led_goto; try done; by left.
  - destruct (threads st !! i) as [[]|] eqn:Hx; try done. unfold step_event.
    destruct (pools st !! cp) as [q|]; [|done]. destruct k as [k|].
    + destruct (handles st !! handle_of q k) as [h|]; [|done]. destruct (full h); [|done]. intros [= <-].
      eapply led_goto; try done. by left.
    + destruct (cancelled q); [|done]. intros [= <-]. eapply led_goto; try done. by left.
  - destruct (threads st !! i) as [[]|] eqn:Hx; try done. destruct (pools st !! cp) as [q|]; [|done].
    destruct (negb _); [done|]. destruct nets as [l|]; intros [= <-]; eapply led_goto; try done; by left.
  - destruct (conns st !! c) as [x|]; [|done]. destruct (negb _); [done|].
    destruct (filter _ _) as [|[k' h] l]; [done|]. destruct (handles st !! h) as [y|]; [|done].
    destruct (full y); [done|]. by intros [= <-].
Qed.

(** ** Reachable states *)

Definition good (st : state) : Prop := inv st /\ res st /\ led st.

Lemma start_good n : good (start n).
Proof.
  assert (H : forall i x, threads (start n) !! i = Some x -> x = Idle)
    by (intros i x Hi; by apply lookup_replicate in Hi as [-> _]).
  split_and!; [split|split|done]; try done; intros; repeat match goal with E : threads _ !! _ = Some _ |- _ => apply H in E; subst end; done.
Qed.

Lemma step_good st a st' : good st -> step st a = Next st' -> good st'.
Proof.
  intros (I & R & L) H. split_and!; [by eapply common_step_inv|by eapply step_res|by eapply step_led].
Qed.

Lemma run_good l : forall st st', good st -> run st l = Next st' -> good st'.
Proof.
  induction l as [|a l IH]; intros st st' G; cbn; [by intros [= <-]|].
  destruct (step st a) eqn:E; try done. apply IH. by eapply step_good.
Qed.

Lemma reach_good n l st : run (start n) l = Next st -> good st.
Proof. apply run_good, start_good. Qed.

Lemma run_app l1 l2 : forall st st', run st l1 = Next st' -> run st (l1 ++ l2) = run st' l2.
Proof.
  induction l1 as [|a l1 IH]; intros st st'; cbn; [by intros [= ->]|]. destruct (step st a); try done. apply IH.
Qed.

(** ** Progress *)

(** [st'] is reached from [st] by steps that leave the other goroutines. *)
Definition alone (i : nat) (st st' : state) : Prop :=
  (exists l, run st l = Next st') /\ forall j z, j <> i -> threads st !! j = Some z -> threads st' !! j = Some z.

#[export] Instance alone_preorder i : PreOrder (alone i).
Proof.
  split.
  - intros st. split; [by exists []|done].
  - intros a b c [[l1 H1] A] [[l2 H2] B]. split; [|eauto]. exists (l1 ++ l2). by rewrite (run_app _ _ _ _ H1).
Qed.

Lemma alone_good i st st' : alone i st st' -> good st -> good st'.
Proof. intros [[l H] _] G. by eapply run_good. Qed.

Lemma alone_step i st a st' : step st a = Next st' ->
  (forall j z, j <> i -> threads st !! j = Some z -> threads st' !! j = Some z) -> alone i st st'.
Proof. intros H A. split; [|done]. exists [a]. cbn. by rewrite H. Qed.

(** How far a goroutine is from giving the lock back and publishing its result. *)
Definition rank (x : pc) : nat :=
  match x with
  | Locking _ _ _ _ => 9 | Checking _ _ _ _ => 8 | Creating _ _ _ _ _ => 7
  | Canceling _ _ => 6 | Deleting _ _ => 5 | Closing _ _ => 4 | Storing _ _ _ _ _ => 3
  | Returning _ _ _ _ _ | Unlocking _ => 2 | Publishing _ _ _ _ _ => 1 | _ => 0
  end%nat.

Definition served (x : pc) : bool := match x with HasPool _ _ _ _ | Failed _ => true | _ => false end.

(** A goroutine that holds the lock, or runs a call and can take it, moves on by itself. *)
Lemma own_step st i x : good st -> threads st !! i = Some x -> (0 < rank x)%nat ->
  (connectionLocker st = None \/ connectionLocker st = Some i) ->
  exists st' y, alone i st st' /\ threads st' !! i = Some y /\ (rank y < rank x)%nat /\
    (connectionLocker st' = None \/ holds_lock y = true /\ connectionLocker st' = Some i) /\
    match leads x with
    | Some fl => leads y = Some fl \/ served y = true /\ exists k r, results st' !! fl = Some (k, Some r)
    | None => leads y = None
    end.
Proof.
  intros (I & R & L) Hx Hr Hl. pose proof (lookup_lt_Some _ _ _ Hx) as Hlt.
  pose proof (inv_threads _ I _ _ Hx) as Hok.
  assert (Hheld : holds_lock x = true -> connectionLocker st = Some i) by (by apply inv_lock).
  assert (Hgo : forall a st' y, step st a = Next st' -> threads st' = <[i := y]> (threads st) ->
    alone i st st' /\ threads st' !! i = Some y).
  { intros a st' y H Et. split; [eapply alone_step; [done|]|by rewrite Et, list_lookup_insert_eq].
    intros j z Hj. by rewrite Et, list_lookup_insert_ne. }
  destruct x; cbn in Hr; try lia; cbn in Hok.
  - (* Locking *) destruct (connectionLocker st) as [j|] eqn:El.
    + exfalso. destruct Hl as [?|[= ->]]; [done|]. destruct (inv_held _ I _ El) as (z & Hz & Hh). rewrite Hx in Hz.
      by injection Hz as <-.
    + edestruct (Hgo (AGo i)) as [A T]; [cbn; rewrite Hx; cbn; by rewrite El|done|].
      eexists _, _. split_and!; [exact A|exact T|cbn; lia|by right|by left].
  - (* Checking *) edestruct (Hgo (AGo i)) as [A T]; [cbn; by rewrite Hx|done|].
    eexists _, _. split_and!; [exact A|exact T|destruct (load_pool st u p); cbn; lia| |left; by destruct (load_pool st u p)].
    right. split; [by destruct (load_pool st u p)|by apply Hheld].
  - (* Creating *) assert (exists st1, NewConnectorPool st u p ConnectFails = (st1, None) /\ threads st1 = threads st /\
      connectionLocker st1 = connectionLocker st) as (st1 & E & Et & El).
    { destruct (NewConnectorPool st u p ConnectFails) as [st1 o] eqn:E. pose proof E as Es.
      apply NewConnectorPool_spec in Es as (_ & El & _ & _ & _ & Hs). exists st1. destruct o as [n|].
      - exfalso. unfold NewConnectorPool in E. repeat destruct (take_handle _ _ _) as [[? ?] ?]. done.
      - by destruct Hs as [_ ->]. }
    edestruct (Hgo (ANew i ConnectFails)) as [A T]; [cbn; rewrite Hx; by rewrite E|cbn; by rewrite Et|].
    eexists _, _. split_and!; [exact A|exact T|cbn; lia| |by left]. right. split; [done|]. cbn. rewrite El. by apply Hheld.
  - (* Storing *) edestruct (Hgo (AGo i)) as [A T]; [cbn; by rewrite Hx|done|].
    eexists _, _. split_and!; [exact A|exact T|cbn; lia| |by left]. right. split; [done|by apply Hheld].
  - (* Returning *) edestruct (Hgo (AGo i)) as [A T]; [cbn; by rewrite Hx|done|].
    eexists _, _. split_and!; [exact A|exact T|cbn; lia|by left|by left].
  - (* Publishing *) edestruct (Hgo (AGo i)) as [A T]; [cbn; by rewrite Hx|done|].
    eexists _, _. split_and!; [exact A|exact T|destruct res0; cbn; lia| |].
    2: { right. split; [by destruct res0|]. destruct Hok as [[o Ho] _]. eexists _, _. cbn.
         apply list_lookup_insert_eq. by eapply lookup_lt_Some. }
    destruct Hl as [Hl|Hl]; [by left|]. destruct (inv_held _ I _ Hl) as (z & Hz & Hh). rewrite Hx in Hz.
    by injection Hz as <-.
  - (* Canceling *) destruct Hok as [(q & Hq & _) _].
    edestruct (Hgo (AGo i)) as [A T]; [cbn; rewrite Hx; cbn; by rewrite Hq|done|].
    eexists _, _. split_and!; [exact A|exact T|cbn; lia| |destruct k; cbn; auto]. right. split; [done|by apply Hheld].
  - (* Deleting *) destruct Hok as [(q & Hq & _) _].
    edestruct (Hgo (AGo i)) as [A T]; [cbn; rewrite Hx; cbn; by rewrite Hq|by case_bool_decide|].
    eexists _, _. split_and!; [exact A|exact T|cbn; lia| |destruct k; cbn; auto]. right. split; [done|].
    case_bool_decide; by apply Hheld.
  - (* Closing *) destruct Hok as [(q & Hq & _) _].
    edestruct (Hgo (AGo i)) as [A T]; [cbn; rewrite Hx; cbn; by rewrite Hq|done|].
    eexists _, _. split_and!; [exact A|exact T|destruct k; cbn; lia| |destruct k; cbn; auto].
    right. split; [by destruct k|by apply Hheld].
  - (* Unlocking *) edestruct (Hgo (AGo i)) as [A T]; [cbn; by rewrite Hx|done|].
    eexists _, _. split_and!; [exact A|exact T|cbn; lia|by left|done].
Qed.

Lemma held_rank x : holds_lock x = true -> (0 < rank x)%nat.
Proof. destruct x; cbn; try done; lia. Qed.
Lemma leads_rank x fl : leads x = Some fl -> (0 < rank x)%nat.
Proof. destruct x; cbn; try done; lia. Qed.

(** The lock is given back. *)
Lemma lock_freed n : forall st i x, (rank x <= n)%nat -> good st -> threads st !! i = Some x -> holds_lock x = true ->
  exists st', alone i st st' /\ connectionLocker st' = None.
Proof.
  induction n as [|n IH]; intros st i x Hn G Hx Hl; pose proof (held_rank _ Hl); [lia|].
  destruct (own_step st i x) as (st1 & y & A & Hy & Hr & Hlk & _); [done|done|done| |].
  { right. destruct G as (I & _). by eapply inv_lock. }
  destruct Hlk as [E|[E _]]; [by exists st1|].
  destruct (IH st1 i y) as (st2 & B & F); [lia|by eapply alone_good|done|done|].
  exists st2. split; [by etrans|done].
Qed.

(** A goroutine that runs a call publishes a result. *)
Lemma call_finished n : forall st i x fl, (rank x <= n)%nat -> good st -> threads st !! i = Some x -> leads x = Some fl ->
  (connectionLocker st = None \/ connectionLocker st = Some i) ->
  exists st' y, alone i st st' /\ threads st' !! i = Some y /\ served y = true /\
    exists k r, results st' !! fl = Some (k, Some r).
Proof.
  induction n as [|n IH]; intros st i x fl Hn G Hx Hf Hl; pose proof (leads_rank _ _ Hf); [lia|].
  destruct (own_step st i x) as (st1 & y & A & Hy & Hr & Hlk & Hlead); [done..|].
  rewrite Hf in Hlead. destruct Hlead as [E|E]; [|by exists st1, y].
  destruct (IH st1 i y fl) as (st2 & z & B & Hz & F); [lia|by eapply alone_good|done|done| |].
  { destruct Hlk as [?|[_ ?]]; auto. }
  exists st2, z. split; [by etrans|done].
Qed.

(** So every call in flight can end, whoever holds the lock now. *)
Lemma call_served st i x fl : good st -> threads st !! i = Some x -> leads x = Some fl ->
  exists l st' y, run st l = Next st' /\ threads st' !! i = Some y /\ served y = true /\
    (exists k r, results st' !! fl = Some (k, Some r)) /\
    forall j z, j <> i -> holds_lock z = false -> threads st !! j = Some z -> threads st' !! j = Some z.
Proof.
  intros G Hx Hf.
  assert (exists l st1, run st l = Next st1 /\ (connectionLocker st1 = None \/ connectionLocker st1 = Some i) /\
    threads st1 !! i = Some x /\
    forall j z, j <> i -> holds_lock z = false -> threads st !! j = Some z -> threads st1 !! j = Some z)
    as (l1 & st1 & R1 & Hl & Hx1 & K1).
  { destruct (connectionLocker st) as [j|] eqn:El; [|exists [], st; eauto].
    destruct (decide (j = i)) as [->|Hne]; [exists [], st; eauto|].
    destruct (inv_held _ (proj1 G) _ El) as (z & Hz & Hh).
    destruct (lock_freed (rank z) st j z) as (st1 & [[l R1] A] & E); [done..|].
    exists l, st1. split_and!; eauto. intros k w Hk Hw Hkw. apply A; [|done]. intros ->. congruence. }
  assert (G1 : good st1) by by eapply run_good.
  destruct (call_finished (rank x) st1 i x fl) as (st2 & y & [[l2 R2] A] & Hy & Hs & Hr); [done..|].
  exists (l1 ++ l2), st2, y. rewrite (run_app _ _ _ _ R1). split_and!; eauto.
Qed.

(** A request on its way to an answer, and one that has it. *)
Definition asking (x : pc) : bool :=
  match x with
  | Loading _ _ _ | Flight _ _ _ | Following _ _ _ _ | HasPool _ _ _ _ | Getting _ _ _ _ | Setting _ _ _ _ _ => true
  | _ => bool_decide (is_Some (leads x))
  end.
Definition answered (x : pc) : bool := match x with Holding _ _ _ _ _ | Failed _ => true | _ => false end.
Definition answerable (st : state) (i : nat) : Prop :=
  exists l st' y, run st l = Next st' /\ threads st' !! i = Some y /\ answered y = true.

Lemma answerable_run st l st' i : run st l = Next st' -> answerable st' i -> answerable st i.
Proof.
  intros R (l2 & st2 & y & R2 & H). exists (l ++ l2), st2, y. by rewrite (run_app _ _ _ _ R).
Qed.
Lemma answerable_step st a st' i : step st a = Next st' -> answerable st' i -> answerable st i.
Proof. intros H. apply (answerable_run st [a]). cbn. by rewrite H. Qed.
Lemma answerable_now st i x : threads st !! i = Some x -> answered x = true -> answerable st i.
Proof. intros H1 H2. by exists [], st, x. Qed.

Lemma goto_self st s1 i x y : threads st !! i = Some x -> threads s1 = threads st -> threads (goto s1 i y) !! i = Some y.
Proof. intros H E. cbn. rewrite E. apply list_lookup_insert_eq. by eapply lookup_lt_Some. Qed.

Lemma setting_answerable st i u p ip cp c : good st -> threads st !! i = Some (Setting u p ip cp c) -> answerable st i.
Proof.
  intros (I & R & L) Hx. destruct (res_lent _ R _ _ _ _ Hx eq_refl) as (q & Hq & Hc).
  pose proof (res_open _ R _ _ _ Hq (lent_member _ _ Hc)) as Ho.
  eapply (answerable_step _ (AGo i)); [cbn; rewrite Hx; cbn; by rewrite Ho|].
  eapply answerable_now; [by eapply goto_self|done].
Qed.

Lemma getting_answerable st i u p ip cp : good st -> threads st !! i = Some (Getting u p ip cp) -> answerable st i.
Proof.
  intros G Hx. destruct (inv_threads _ (proj1 G) _ _ Hx) as (q & Hq & _).
  assert (Hs : step st (AGet i GetNew) = pool_Get st i u p ip cp GetNew) by (cbn; by rewrite Hx).
  unfold pool_Get in Hs. rewrite Hq in Hs. destruct (pool_released q).
  - eapply answerable_step; [exact Hs|]. eapply answerable_now; [by eapply goto_self|done].
  - eapply answerable_step; [exact Hs|]. eapply setting_answerable; [by eapply step_good|by eapply goto_self].
Qed.

Lemma haspool_answerable st i u p ip cp : good st -> threads st !! i = Some (HasPool u p ip cp) -> answerable st i.
Proof.
  intros G Hx. destruct (inv_threads _ (proj1 G) _ _ Hx) as (q & Hq & _).
  assert (Hs : step st (AGo i) = Next (goto st i (if verifyIP q ip then Getting u p ip cp else Failed ErrWhitelistForbidden)))
    by (cbn; rewrite Hx; cbn; by rewrite Hq).
  eapply answerable_step; [exact Hs|]. apply step_good in Hs; [|done].
  destruct (verifyIP q ip); [eapply getting_answerable; [done|by eapply goto_self]|].
  eapply answerable_now; [by eapply goto_self|done].
Qed.

Lemma served_answerable st i x : good st -> threads st !! i = Some x -> served x = true -> answerable st i.
Proof. intros G Hx. destruct x; try done; intros _; [by eapply haspool_answerable|by eapply answerable_now]. Qed.

Lemma leading_answerable st i x fl : good st -> threads st !! i = Some x -> leads x = Some fl -> answerable st i.
Proof.
  intros G Hx Hf. destruct (call_served st i x fl) as (l & st' & y & R & Hy & Hs & _); [done..|].
  eapply answerable_run; [exact R|]. eapply served_answerable; [by eapply run_good|done|done].
Qed.

Lemma following_answerable st i fl u p ip : good st -> threads st !! i = Some (Following fl u p ip) -> answerable st i.
Proof.
  intros G Hx.
  assert (Hdone : forall s k r, good s -> threads s !! i = Some (Following fl u p ip) -> results s !! fl = Some (k, Some r) ->
    answerable s i).
  { intros s k r Gs Hs Hr. set (y := match r with inl cp => HasPool u p ip cp | inr e => Failed e end).
    assert (E : step s (AGo i) = Next (goto s i y)) by (cbn; rewrite Hs; cbn; rewrite Hr; by destruct r).
    eapply answerable_step; [exact E|]. eapply served_answerable; [by eapply step_good|by eapply goto_self|by destruct r]. }
  destruct (inv_threads _ (proj1 G) _ _ Hx) as ([r|] & Hr); [by eapply Hdone|].
  destruct (proj2 (proj2 G) _ _ Hr) as (j & z & Hj & Hz).
  destruct (call_served st j z fl) as (l & st' & y & R & _ & _ & (k & r & Hr') & K); [done..|].
  eapply answerable_run; [exact R|]. eapply Hdone; [by eapply run_good|apply K; try done|done].
  intros <-. rewrite Hx in Hj. by injection Hj as <-.
Qed.

Lemma flight_answerable st i u p ip : good st -> threads st !! i = Some (Flight u p ip) -> answerable st i.
Proof.
  intros G Hx. destruct (flights st !! key u p) as [fl|] eqn:E.
  - assert (Hs : step st (AGo i) = Next (goto st i (Following fl u p ip))) by (cbn; rewrite Hx; cbn; by rewrite E).
    eapply answerable_step; [exact Hs|]. eapply following_answerable; [by eapply step_good|by eapply goto_self].
  - eapply (answerable_step _ (AGo i)); [cbn; rewrite Hx; cbn; by rewrite E|].
    eapply leading_answerable; [eapply (step_good st (AGo i)); [done|cbn; rewrite Hx; cbn; by rewrite E]|by eapply goto_self|done].
Qed.

Lemma asking_answerable st i x : good st -> threads st !! i = Some x -> asking x = true -> answerable st i.
Proof.
  intros G Hx Ha. destruct (leads x) as [fl|] eqn:Hf; [by eapply leading_answerable|].
  destruct x; try done; cbn in Ha, Hf; try (by apply bool_decide_eq_true in Ha as [? ?]; try congruence).
  - assert (Hs : step st (AGo i) = Next (goto st i (match load_pool st u p with Some cp => HasPool u p ip cp | None => Flight u p ip end)))
      by (cbn; by rewrite Hx).
    eapply answerable_step; [exact Hs|]. apply step_good in Hs; [|done].
    destruct (load_pool st u p); [eapply haspool_answerable|eapply flight_answerable]; first [done|by eapply goto_self].
  - by eapply flight_answerable.
  - by eapply following_answerable.
  - by eapply haspool_answerable.
  - by eapply getting_answerable.
  - by eapply setting_answerable.
Qed.

(** ** The theorems *)

(** C13. The map of the user pools is current.  Whenever no goroutine holds [connectionLocker],
    every entry of [connectionMap] is a pool of the user it is stored under whose [Release] has not
    begun: a pool with an old password, of a dropped user or with a failed whitelist is never
    found again. *)
Theorem map_current n l st u cp : run (start n) l = Next st -> connectionLocker st = None ->
  connectionMap st !! u = Some cp ->
  exists q, pools st !! cp = Some q /\ user q = u /\ once q = false.
Proof.
  intros (I & _)%reach_good Hl Hu. destruct (inv_map _ I _ _ Hu) as (q & Hq & Eu & Ho).
  exists q. split_and!; [done|done|]. destruct Ho as [?|(j & k & Hj)]; [done|exfalso].
  destruct Hj as [Hj|Hj]; pose proof (inv_lock _ I _ _ Hj eq_refl); congruence.
Qed.

Lemma key_inj u p u' p' : 58 ∉ u -> 58 ∉ u' -> key u p = key u' p' -> u = u' /\ p = p'.
Proof.
  unfold key. revert u'. induction u as [|a u IH]; intros [|b u'] H1 H2; cbn.
  - by intros [= ->].
  - intros [= <- _]. by destruct H2; left.
  - intros [= -> _]. by destruct H1; left.
  - intros [= <- E]. apply not_elem_of_cons in H1 as [_ H1]. apply not_elem_of_cons in H2 as [_ H2].
    by destruct (IH u' H1 H2 E) as [-> ->].
Qed.

(** C9. A request that got a connection from [GetConnection] has one that is open, is lent by its
    pool and by no other pool, is used by no other request, and belongs to credentials which the
    server has accepted and which give the key of the request's own; without a colon in the two
    names they are the request's own name and password. *)
Theorem connection_authorised n l st i u p ip cp c : run (start n) l = Next st ->
  threads st !! i = Some (Holding u p ip cp c) ->
  exists q, pools st !! cp = Some q /\ c ∈ lent q /\ is_open st c = true /\
    (user q, password q) ∈ accepted st /\ key (user q) (password q) = key u p /\
    (58 ∉ u -> 58 ∉ user q -> user q = u /\ password q = p) /\
    (forall cp' q', pools st !! cp' = Some q' -> c ∈ members q' -> cp' = cp) /\
    (forall j x cp', threads st !! j = Some x -> uses x = Some (cp', c) -> j = i).
Proof.
  intros (I & R & _)%reach_good Hx. destruct (res_lent _ R _ _ _ _ Hx eq_refl) as (q & Hq & Hc).
  destruct (inv_threads _ I _ _ Hx) as (q' & Hq' & Hk). rewrite Hq in Hq'. injection Hq' as <-.
  exists q. split_and!; [done|done|by eapply res_open, lent_member|by eapply inv_accepted|done|..].
  - intros H1 H2. by apply key_inj.
  - intros cp' q' Hq' Hc'. eapply res_disjoint; [done..|by apply lent_member].
  - intros j x cp' Hj Hu. by eapply (res_alone _ R j i).
Qed.

(** C14. No request is blocked for good.  In every reachable state every request that has not
    got its answer yet, also one that waits for the lock or for the call of another request, can
    still get a connection or an error. *)
Theorem request_answerable n l st i x : run (start n) l = Next st ->
  threads st !! i = Some x -> asking x = true ->
  exists l' st' y, run st l' = Next st' /\ threads st' !! i = Some y /\ answered y = true.
Proof. intros G%reach_good. by apply asking_answerable. Qed.

(** C16. The one use of a closed connection.  Requests never touch a connection that was
    closed; a step that does is the [GetWhitelist] call of the goroutine that watches a pool, after
    the pool was released while the notification was handled. *)
Theorem common_bad_is_whitelist n l st a : run (start n) l = Next st -> step st a = Bad ->
  exists i nets cp q, a = AFetched i nets /\ threads st !! i = Some (Fetching cp) /\
    pools st !! cp = Some q /\ pool_released q = true /\ is_open st (v q) = false.
Proof.
  intros (I & R & _)%reach_good H.
  assert (Huse : forall i x cp c, threads st !! i = Some x -> uses x = Some (cp, c) -> is_open st c = true).
  { intros i x cp c Hx Hu. destruct (res_lent _ R _ _ _ _ Hx Hu) as (q & Hq & Hc). by eapply res_open, lent_member. }
  destruct a as [i u p ip|i|i a|i a|i k|i nets|c k]; cbn in H.
  - by destruct (threads st !! i) as [[]|].
  - destruct (threads st !! i) as [x|] eqn:Hx; [exfalso|done].
    destruct x; cbn in H; try done; unfold pool_Put, enter_release in H; try (rewrite (Huse _ _ _ _ Hx eq_refl) in H);
      cbn in H; repeat case_match; done.
  - destruct (threads st !! i) as [[]|]; try done. destruct (NewConnectorPool st u p a) as [st1 [new|]]; [|done].
    unfold enter_release in H. repeat case_match; done.
  - destruct (threads st !! i) as [[]|]; try done. unfold pool_Get in H. repeat case_match; done.
  - destruct (threads st !! i) as [[]|]; try done. unfold step_event in H. repeat case_match; done.
  - destruct (threads st !! i) as [[]|] eqn:Hx; try done. destruct (pools st !! cp) as [q|] eqn:Hq; [|done].
    destruct (is_open st (v q)) eqn:Eo; [by destruct nets|]. exists i, nets, cp, q. split_and!; try done.
    destruct (pool_released q) eqn:Er; [done|]. exfalso.
    pose proof (res_open _ R _ _ _ Hq (res_v _ R _ _ Hq Er)). congruence.
  - repeat case_match; done.
Qed.

(** ** Runs *)

Definition alice : list Z := [97]. (* a *)
Definition pw1 : list Z := [49].
Definition pw2 : list Z := [50].
Definition anyNet : IPNet := mkIPNet [0; 0; 0; 0] [0; 0; 0; 0].
Definition local : list Z := [127; 0; 0; 1].

(** A request makes the pool of its user, up to the check of the address. *)
Definition makes (i : nat) (u p : list Z) : list action :=
  [AStart i u p local; AGo i; AGo i; AGo i; AGo i; ANew i (Answers [anyNet]); AGo i; AGo i; AGo i].
Definition holds (i : nat) (u p : list Z) : list action := makes i u p ++ [AGo i; AGet i GetIdle; AGo i].
(** Another password: the old pool is released up to the closing of its connections. *)
Definition replaces (i : nat) (u p : list Z) : list action :=
  [AStart i u p local; AGo i; AGo i; AGo i; AGo i; ANew i (Answers [anyNet]); AGo i; AGo i; AGo i].

Definition after_run (n : nat) (l : list action) : state := match run (start n) l with Next st => st | _ => start 0 end.

Lemma map_current_witness :
  connectionLocker (after_run 1 (holds 0 alice pw1)) = None /\
  exists q, pools (after_run 1 (holds 0 alice pw1)) !! 0%nat = Some q /\ user q = alice /\ once q = false.
Proof.
  split; [reflexivity|]. apply (map_current 1 (holds 0 alice pw1) (after_run 1 (holds 0 alice pw1)) alice 0%nat);
    vm_compute; reflexivity.
Defined.

Lemma connection_authorised_witness :
  exists q, pools (after_run 1 (holds 0 alice pw1)) !! 0%nat = Some q /\ 0%nat ∈ lent q /\ user q = alice /\ password q = pw1.
Proof.
  destruct (connection_authorised 1 (holds 0 alice pw1) (after_run 1 (holds 0 alice pw1)) 0%nat alice pw1 local 0%nat 0%nat)
    as (q & Hq & Hc & _ & _ & _ & Hk & _); [vm_compute; reflexivity..|].
  exists q. split; [exact Hq|]. split; [exact Hc|]. apply Hk; [vm_compute; set_solver|].
  vm_compute in Hq. injection Hq as <-. vm_compute. set_solver.
Defined.

(** Two requests with the same name and password: the second waits for the call of the first. *)
Definition waiting_run : list action :=
  [AStart 0 alice pw1 local; AStart 1 alice pw1 local; AGo 0; AGo 1; AGo 0; AGo 1; AGo 0; AGo 0].
Lemma request_answerable_witness :
  step (after_run 2 waiting_run) (AGo 1) = Stuck /\
  exists l' st' y, run (after_run 2 waiting_run) l' = Next st' /\ threads st' !! 1%nat = Some y /\ answered y = true.
Proof.
  split; [vm_compute; reflexivity|].
  apply (request_answerable 2 waiting_run (after_run 2 waiting_run) 1%nat (Following 0 alice pw1 local)); vm_compute; reflexivity.
Defined.

(** The whitelist changes while another request replaces the password. *)
Definition whitelist_run : list action :=
  makes 0 alice pw1 ++ [ANotify 0 WHITELIST_VER; AEvent 2 (Some WHITELIST_VER)] ++ replaces 1 alice pw2.
Lemma common_bad_is_whitelist_witness :
  step (after_run 2 whitelist_run) (AFetched 2 None) = Bad /\
  exists cp q, pools (after_run 2 whitelist_run) !! cp = Some q /\ pool_released q = true.
Proof.
  assert (H : step (after_run 2 whitelist_run) (AFetched 2 None) = Bad) by (vm_compute; reflexivity).
  split; [exact H|].
  destruct (common_bad_is_whitelist 2 whitelist_run (after_run 2 whitelist_run) (AFetched 2 None))
    as (i & nets & cp & q & _ & _ & Hq & Hr & _); [vm_compute; reflexivity|exact H|].
  exists cp, q. split; [exact Hq|exact Hr].
Defined.

(** The handles of a released pool are given to the next pool while a connection that is still
    lent out keeps them registered: the change of [alice]'s password is reported to the pool of
    [bob], which is released. *)
Definition bob : list Z := [98].
Definition stale_run : list action :=
  holds 0 alice pw1 ++ replaces 1 alice pw2 ++ [AGo 1; AGo 1; AEvent 3 None; AGo 3] ++ makes 2 bob pw1 ++
  [ANotify 0 PASSVER; AEvent 5 (Some PASSVER)].
Example stale_notification :
  (threads (after_run 3 stale_run) !! 5%nat, user <$> pools (after_run 3 stale_run) !! 2%nat) = (Some (WLocking 2), Some bob).
Proof. vm_compute. reflexivity. Qed.

(** The handles of a pool whose first connection is refused are not put back. *)
Example handles_leaked :
  let st := after_run 1 [AStart 0 alice pw1 local; AGo 0; AGo 0; AGo 0; AGo 0; ANew 0 ConnectFails; AGo 0; AGo 0] in
  (length (handles st), free st) = (3%nat, []).
Proof. vm_compute. reflexivity. Qed.

(** The key of the calls in flight does not separate the name from the password: a request for
    [a:b] with the password [c] gets a connection of [a] with the password [b:c]. *)
Definition collision_run : list action :=
  [AStart 0 [97] [98; 58; 99] local; AStart 1 [97; 58; 98] [99] local; AGo 0; AGo 1; AGo 0; AGo 1] ++
  [AGo 0; AGo 0; ANew 0 (Answers [anyNet]); AGo 0; AGo 0; AGo 0; AGo 1; AGo 1; AGet 1 GetIdle; AGo 1].
Example flight_key_collision :
  (threads (after_run 2 collision_run) !! 1%nat, user <$> pools (after_run 2 collision_run) !! 0%nat) =
  (Some (Holding [97; 58; 98] [99] local 0 0), Some [97]).
Proof. vm_compute. reflexivity. Qed.

End CommonPoolSpec.
