(* ===== verification/Handle.v ===== *)
(** * Handle: names of Go values for C

    Models [src/driver/wrapper/cgo/handle.go]: the table from handles, the integers that are passed
    through C, to the Go values they stand for. *)
From S2P Require Import Prelude.
From stdpp Require Import gmap.
#[local] Open Scope Z_scope.

(** ** [cgo.Handle] *)
Module Handle.

Section Handles.
Context {V : Type}.

(** [handleIdx] and the two maps; a pointer to a handle is the handle it points to. *)
Record table := mkTable { handleIdx : Z; handles : gmap Z V; handlePointers : gmap Z Z }.

(** The counter is a [uintptr]: it wraps to zero, which is not a handle. *)
Definition NewHandle (t : table) (v : V) : go (Z * table) :=
  let h := u64 (handleIdx t + 1) in
  if h =? 0 then Panic
  else Ret (h, mkTable h (<[h := v]> (handles t)) (<[h := h]> (handlePointers t))).

Definition Value (t : table) (h : Z) : go V :=
  match handles t !! h with None => Panic | Some v => Ret v end.
Definition Pointer (t : table) (h : Z) : go Z :=
  match handlePointers t !! h with None => Panic | Some p => Ret p end.
Definition Delete (t : table) (h : Z) : go table :=
  Ret (mkTable (handleIdx t) (delete h (handles t)) (delete h (handlePointers t))).

(** The state after the start of the program and any number of operations before the counter
    wraps: the handles in use are between one and the counter. *)
Record table_wf (t : table) : Prop := {
  twf_idx : 0 <= handleIdx t < 2 ^ 64;
  twf_handles : forall h v, handles t !! h = Some v -> 1 <= h <= handleIdx t;
  twf_pointers : forall h p, handlePointers t !! h = Some p <-> p = h /\ is_Some (handles t !! h)
}.

Lemma NewHandle_Ret t v h t' : table_wf t -> NewHandle t v = Ret (h, t') ->
  h = handleIdx t + 1 /\ h < 2 ^ 64 /\ handles t !! h = None /\
  t' = mkTable h (<[h := v]> (handles t)) (<[h := h]> (handlePointers t)).
Proof.
  intros [Hidx Hh Hp]. unfold NewHandle. destruct (Z.eqb_spec (u64 (handleIdx t + 1)) 0) as [|Hne]; [done|].
  intros [= Eh Et]. assert (Hlt : handleIdx t + 1 < 2 ^ 64).
  { destruct (Z.eq_dec (handleIdx t + 1) (2 ^ 64)) as [E|]; [|lia]. rewrite E in Hne. by destruct Hne. }
  rewrite wrap_u_id in Eh by (split; lia). rewrite wrap_u_id in Et by (split; lia). subst h t'. split_and!; try done.
  destruct (handles t !! (handleIdx t + 1)) as [w|] eqn:E; [|done]. apply Hh in E. lia.
Qed.

Lemma NewHandle_wf t v h t' : table_wf t -> NewHandle t v = Ret (h, t') -> table_wf t'.
Proof.
  intros Hwf E. destruct (NewHandle_Ret _ _ _ _ Hwf E) as (-> & Hlt & _ & ->). destruct Hwf as [Hidx Hh Hp].
  constructor; cbn.
  - lia.
  - intros k w [[<- _]|[_ Hk]]%lookup_insert_Some; [lia|]. apply Hh in Hk. lia.
  - intros k p. destruct (decide (k = handleIdx t + 1)) as [->|Hne].
    + rewrite !lookup_insert_eq. split; [by intros [= <-]|by intros [-> _]].
    + rewrite !lookup_insert_ne by done. apply Hp.
Qed.

Lemma Delete_wf t h t' : table_wf t -> Delete t h = Ret t' -> table_wf t'.
Proof.
  intros [Hidx Hh Hp] [= <-]. constructor; cbn; [done| |].
  - intros k w [_ Hk]%lookup_delete_Some. by eapply Hh.
  - intros k p. destruct (decide (k = h)) as [->|Hne].
    + rewrite !lookup_delete_eq. split; [done|]. by intros [_ [? ?]].
    + rewrite !lookup_delete_ne by done. apply Hp.
Qed.

(** A handle is a name for one value: a new handle is not zero and not in use, [Value] and
    [Pointer] give back the value and the handle, no other handle changes, and after [Delete] both
    panic. *)
Theorem NewHandle_Value t v h t' :
  table_wf t -> NewHandle t v = Ret (h, t') ->
  h <> 0 /\ Value t h = Panic /\ Value t' h = Ret v /\ Pointer t' h = Ret h /\
  (forall k, k <> h -> Value t' k = Value t k /\ Pointer t' k = Pointer t k) /\
  exists t'', Delete t' h = Ret t'' /\ Value t'' h = Panic /\ Pointer t'' h = Panic /\
    (forall k, k <> h -> Value t'' k = Value t k /\ Pointer t'' k = Pointer t k) /\ table_wf t' /\ table_wf t''.
Proof.
  intros Hwf E. pose proof (NewHandle_wf _ _ _ _ Hwf E) as Hwf'.
  destruct (NewHandle_Ret _ _ _ _ Hwf E) as (Eh & Hlt & Hnone & ->). unfold Value, Pointer. cbn.
  rewrite Hnone, !lookup_insert_eq. pose proof (twf_idx _ Hwf).
  split_and!; [lia|done..| |].
  - intros k Hk. by rewrite !lookup_insert_ne.
  - eexists. split; [done|]. cbn. rewrite !lookup_delete_eq. split_and!; [done..| |done|].
    + intros k Hk. by rewrite !lookup_delete_ne, !lookup_insert_ne.
    + by eapply Delete_wf.
Qed.

(** Unlike [Value] and [Pointer], [Delete] of an invalid handle does not panic: it returns and
    changes nothing. *)
Theorem Delete_invalid t h :
  table_wf t -> Value t h = Panic -> Pointer t h = Panic /\ Delete t h = Ret t.
Proof.
  intros Hwf. unfold Value, Pointer, Delete. destruct (handles t !! h) eqn:Eh; [done|]. intros _.
  assert (Ep : handlePointers t !! h = None).
  { destruct (handlePointers t !! h) eqn:E; [|done]. apply (twf_pointers _ Hwf) in E as [_ [? E]]. congruence. }
  rewrite Ep. split; [done|]. rewrite !delete_id by done. by destruct t.
Qed.

End Handles.
#[global] Arguments table : clear implicits.

Definition empty_table {V} : table V := mkTable 0 ∅ ∅.
Lemma empty_table_wf {V} : table_wf (V := V) empty_table.
Proof.
  constructor; [by cbn|intros h v; cbn; by rewrite lookup_empty|].
  intros h p. cbn. rewrite !lookup_empty. split; [done|]. by intros [_ [? ?]].
Qed.

Lemma NewHandle_Value_witness : exists t', NewHandle empty_table 5 = Ret (1, t') /\ Value t' 1 = Ret 5.
Proof.
  eexists. split; [reflexivity|].
  exact (proj1 (proj2 (proj2 (NewHandle_Value empty_table 5 1 _ empty_table_wf eq_refl)))).
Defined.

Lemma Delete_invalid_witness : Delete (empty_table (V := Z)) 3 = Ret empty_table.
Proof. exact (proj2 (Delete_invalid empty_table 3 empty_table_wf eq_refl)). Defined.

End Handle.
