(* ===== verification/HandlerPool.v ===== *)
(** * HandlerPool: the pools of callback handlers

    Models [src/db/async/handlerpool.go] and the pool of [src/db/asynctmq/tmqhandle/handler.go]
    (the same code for another handler type).  The pool is shown to be simulated by the connection
    pool of [ConnectPool], from which it inherits its invariants. *)
From S2P Require Import Prelude ConnectPool Handle.
From stdpp Require Import gmap sets.
#[local] Open Scope Z_scope.

(** ** [HandlerPool] *)
Module HPool.

(** A handler is named by its [cgo.Handle]. *)
Record HandlerPool := mkHandlerPool { count : Z; handlers : list Z; reqList : list nat }.

Inductive hpc :=
| HIdle
| HEmpty                (* in the default branch of [Get], before [c.mu.Lock()] *)
| HWaiting (r : nat)    (* [ret := <-req] *)
| HHolding (h : Z).

(** The pool, the contents of the request channels ever made, and the goroutines. *)
Record hstate := mkH { hp : HandlerPool; hreqs : list (option Z); hthreads : list hpc }.

Definition set_h (st : hstate) (p : HandlerPool) (q : list (option Z)) (i : nat) (x : hpc) : hstate :=
  mkH p q (<[i := x]> (hthreads st)).

(** [NewHandlerPool(count)]: the handlers it makes and the table of handles with them. *)
Fixpoint new_handlers {V} (NewCaller : V) (n : nat) (t : Handle.table V) : go (list Z * Handle.table V) :=
  match n with
  | O => Ret ([], t)
  | S n =>
    ht ← Handle.NewHandle t NewCaller;
    lt ← new_handlers NewCaller n (snd ht);
    Ret (fst ht :: fst lt, snd lt)
  end.
Definition NewHandlerPool {V} (NewCaller : V) (count : Z) (t : Handle.table V) : go (HandlerPool * Handle.table V) :=
  if count <? 0 then Panic
  else
    lt ← new_handlers NewCaller (Z.to_nat count) t;
    Ret (mkHandlerPool count (fst lt) [], snd lt).

(** [case wrapConn := <-c.handlers] and [default]. *)
Definition Get_select (st : hstate) (i : nat) : option hstate :=
  match handlers (hp st) with
  | h :: rest => Some (set_h st (mkHandlerPool (count (hp st)) rest (reqList (hp st))) (hreqs st) i (HHolding h))
  | [] => Some (set_h st (hp st) (hreqs st) i HEmpty)
  end.
Definition Get_lock (st : hstate) (i : nat) : option hstate :=
  let r := length (hreqs st) in
  let p := mkHandlerPool (count (hp st)) (handlers (hp st)) (reqList (hp st) ++ [r]) in
  Some (set_h st p (hreqs st ++ [None]) i (HWaiting r)).
Definition Get_recv (st : hstate) (i r : nat) : option hstate :=
  match hreqs st !! r with
  | Some (Some h) => Some (set_h st (hp st) (<[r := None]> (hreqs st)) i (HHolding h))
  | _ => None
  end.

(** The whole of [Put] is one critical section; a send to a full channel blocks, with the lock. *)
Definition Put (st : hstate) (i : nat) (h : Z) : option hstate :=
  match reqList (hp st) with
  | r :: rest =>
    match hreqs st !! r with
    | Some None =>
      Some (set_h st (mkHandlerPool (count (hp st)) (handlers (hp st)) rest) (<[r := Some h]> (hreqs st)) i HIdle)
    | _ => None
    end
  | [] =>
    if zlen (handlers (hp st)) <? count (hp st) then
      Some (set_h st (mkHandlerPool (count (hp st)) (handlers (hp st) ++ [h]) []) (hreqs st) i HIdle)
    else None
  end.

(** The pool of [tmqhandle] is the same code for [TMQHandler]. *)
Definition TMQ_NewHandlerPool {V} := NewHandlerPool (V := V).
Definition TMQ_Get_select := Get_select.
Definition TMQ_Get_lock := Get_lock.
Definition TMQ_Get_recv := Get_recv.
Definition TMQ_Put := Put.

Inductive haction := HGet (i : nat) | HLock (i : nat) | HRecv (i : nat) | HPut (i : nat).

Definition hstep (st : hstate) (a : haction) : option hstate :=
  match a with
  | HGet i => match hthreads st !! i with Some HIdle => Get_select st i | _ => None end
  | HLock i => match hthreads st !! i with Some HEmpty => Get_lock st i | _ => None end
  | HRecv i => match hthreads st !! i with Some (HWaiting r) => Get_recv st i r | _ => None end
  | HPut i => match hthreads st !! i with Some (HHolding h) => Put st i h | _ => None end
  end.

Fixpoint hrun (st : hstate) (l : list haction) : option hstate :=
  match l with
  | [] => Some st
  | a :: l => st' ← hstep st a; hrun st' l
  end.

Definition hstart (p : HandlerPool) (n : nat) : hstate := mkH p [] (replicate n HIdle).

(** *** Simulation by the connection pool *)

(** A handler pool is a connection pool that is full from the start: the factory is never called,
    there is no limit on the waiters, no timeout and no release. *)
Definition abs_pool (p : HandlerPool) : Pool.ConnectPool :=
  Pool.mkPool (handlers p) true true true (count p) (count p) 0 (reqList p) false.
Definition abs_pc (x : hpc) : Pool.pc :=
  match x with HIdle => Pool.Idle | HEmpty => Pool.Locking | HWaiting r => Pool.Waiting r | HHolding h => Pool.Holding h end.
Definition abs_chan (b : option Z) : Pool.chan := Pool.mkChan b false.
Definition abs (made : list Z) (st : hstate) : Pool.state :=
  Pool.mkState (abs_pool (hp st)) (abs_chan <$> hreqs st) (abs_pc <$> hthreads st) made [].
Definition abs_action (a : haction) : list Pool.action :=
  match a with
  | HGet i => [Pool.AGet i; Pool.ATry i]
  | HLock i => [Pool.ALock i None]
  | HRecv i => [Pool.ARecv i]
  | HPut i => [Pool.APut i]
  end.

Lemma abs_thread made st i x : hthreads st !! i = Some x -> Pool.threads (abs made st) !! i = Some (abs_pc x).
Proof. intros Hi. cbn. by rewrite list_lookup_fmap, Hi. Qed.

Lemma abs_set made st p q i x :
  Pool.set_pc (Pool.mkState (abs_pool p) (abs_chan <$> q) (abs_pc <$> hthreads st) made []) i (abs_pc x)
  = abs made (set_h st p q i x).
Proof. unfold Pool.set_pc, abs. cbn. by rewrite list_fmap_insert. Qed.

Lemma hstep_sim made st a st' : hstep st a = Some st' -> Pool.run (abs made st) (abs_action a) = Pool.Next (abs made st').
Proof.
  destruct a as [i|i|i|i]; cbn [hstep]; (destruct (hthreads st !! i) as [x|] eqn:Hi; [|done]; destruct x; try done);
    pose proof (abs_thread made st i _ Hi) as Ha; assert (Hlt : (i < length (hthreads st))%nat) by (by eapply lookup_lt_Some).
  - cbn [abs_action Pool.run Pool.step]. rewrite Ha. unfold Pool.getConns. cbn [abs Pool.pool abs_pool Pool.released].
    cbn [abs_pc Pool.set_pc Pool.threads abs Pool.created Pool.destroyed Pool.reqs].
    rewrite list_lookup_insert_eq by (by rewrite length_fmap). unfold Get_select, Pool.get_try.
    cbn [Pool.pool Pool.conns abs_pool Pool.conns_open].
    destruct (handlers (hp st)) as [|h rest] eqn:Eh; intros [= <-]; rewrite <- abs_set;
      unfold Pool.set_pc, Pool.set_pool, Pool.set_conns, abs_pool; cbn; rewrite ?Eh; cbn; rewrite ?list_insert_insert_eq; unfold abs_pool; rewrite ?Eh; done.
  - cbn [abs_action Pool.run Pool.step]. rewrite Ha. unfold Pool.get_lock, Get_lock. cbn [abs Pool.pool abs_pool Pool.released
      Pool.openingConns Pool.maxActive Pool.maxWait]. rewrite Z.geb_leb, Z.leb_refl. cbn [Z.gtb Z.compare andb].
    intros [= <-]. rewrite <- abs_set. unfold Pool.set_reqs, Pool.set_pool, Pool.set_connReqs. cbn.
    rewrite length_fmap, fmap_app. done.
  - cbn [abs_action Pool.run Pool.step]. rewrite Ha. unfold Pool.get_recv, Get_recv. cbn [abs Pool.reqs abs_pc].
    rewrite list_lookup_fmap. destruct (hreqs st !! r) as [[h|]|]; [|done..]. cbn. intros [= <-].
    rewrite <- abs_set. unfold Pool.set_reqs. cbn. by rewrite list_fmap_insert.
  - cbn [abs_action Pool.run Pool.step]. rewrite Ha. unfold Pool.put_lock, Put. cbn [abs Pool.reqs abs_pc Pool.pool abs_pool
      Pool.released Pool.connReqs Pool.conns_open Pool.conns Pool.maxActive negb].
    destruct (reqList (hp st)) as [|r rest] eqn:Eq.
    + destruct (_ <? _); [|done]. intros [= <-]. rewrite <- abs_set. unfold abs_pool, Pool.set_pool. cbn. by rewrite ?Eq.
    + rewrite list_lookup_fmap. destruct (hreqs st !! r) as [[|]|]; try done. cbn. intros [= <-].
      rewrite <- abs_set. unfold Pool.set_reqs, Pool.set_pool. cbn. by rewrite list_fmap_insert.
Qed.

Lemma hrun_sim made acts : forall st st', hrun st acts = Some st' ->
  Pool.run (abs made st) (concat (abs_action <$> acts)) = Pool.Next (abs made st').
Proof.
  assert (Happ : forall l1 l2 s s', Pool.run s l1 = Pool.Next s' -> Pool.run s (l1 ++ l2) = Pool.run s' l2).
  { induction l1 as [|a l1 IH]; intros l2 s s'; cbn; [by intros [= <-]|]. destruct (Pool.step s a); [|done..]. apply IH. }
  induction acts as [|a acts IH]; intros st st'; cbn [hrun]; [by intros [= <-]|].
  destruct (hstep st a) as [s|] eqn:E; [|done]. cbn. intros Hr.
  rewrite (Happ _ _ _ _ (hstep_sim made st a s E)). by apply IH.
Qed.

Lemma new_handlers_spec {V} (c : V) n : forall t l t',
  Handle.table_wf t -> new_handlers c n t = Ret (l, t') ->
  length l = n /\ NoDup l /\ (forall h, h ∈ l -> Handle.handleIdx t < h /\ Handle.Value t' h = Ret c) /\
  (forall h v, h <= Handle.handleIdx t -> Handle.Value t h = Ret v -> Handle.Value t' h = Ret v).
Proof.
  induction n as [|n IH]; intros t l t' Hwf; cbn [new_handlers].
  { intros [= <- <-]. split; [done|]. split; [constructor|]. split; [|done]. intros h Hh. by apply elem_of_nil in Hh. }
  destruct (Handle.NewHandle t c) as [[h t1]| | |] eqn:E; [|done..]. rewrite go_bind_ret. cbn [fst snd].
  destruct (new_handlers c n t1) as [[l1 t2]| | |] eqn:E1; [|done..]. rewrite go_bind_ret. intros [= <- <-]. cbn [fst snd].
  pose proof (Handle.NewHandle_wf _ _ _ _ Hwf E) as Hwf1.
  destruct (Handle.NewHandle_Ret _ _ _ _ Hwf E) as (Eh & _ & Hnone & Et).
  destruct (IH t1 l1 t2 Hwf1 E1) as (H1 & H2 & H3 & H4).
  assert (Eidx : Handle.handleIdx t1 = h) by (by rewrite Et). rewrite Eidx in *.
  assert (Hv : Handle.Value t1 h = Ret c) by (rewrite Et; unfold Handle.Value; cbn; by rewrite lookup_insert_eq).
  split; [by cbn; rewrite H1|]. split; [|split].
  - apply NoDup_cons. split; [|done]. intros Hin%H3. lia.
  - intros k [->|Hk]%elem_of_cons; [split; [lia|]; by apply H4|]. destruct (H3 k Hk). split; [lia|done].
  - intros k v Hk Hkv. apply H4; [lia|]. rewrite Et. unfold Handle.Value in *. cbn. rewrite lookup_insert_ne by lia. done.
Qed.

Lemma NewHandlerPool_inv {V} (c : V) n0 t p t' :
  Handle.table_wf t -> NewHandlerPool c n0 t = Ret (p, t') ->
  count p = n0 /\ reqList p = [] /\ zlen (handlers p) = n0 /\ NoDup (handlers p) /\
  (forall h, h ∈ handlers p -> Handle.Value t' h = Ret c).
Proof.
  intros Hwf. unfold NewHandlerPool. destruct (Z.ltb_spec n0 0); [done|].
  destruct (new_handlers c (Z.to_nat n0) t) as [[l t1]| | |] eqn:E; [|done..]. rewrite go_bind_ret. intros [= <- <-]. cbn.
  destruct (new_handlers_spec c _ _ _ _ Hwf E) as (H1 & H2 & H3 & _). split; [done|]. split; [done|].
  split; [unfold zlen; lia|]. split; [done|]. intros h Hh. by destruct (H3 h Hh).
Qed.

Lemma hstart_abs p n made : reqList p = [] -> abs made (hstart p n) = Pool.start (abs_pool p) made n.
Proof. intros Hr. unfold abs, hstart, Pool.start. cbn. by rewrite fmap_replicate. Qed.

Lemma abs_inv {V} (c : V) n0 t p t' n acts st :
  Handle.table_wf t -> NewHandlerPool c n0 t = Ret (p, t') -> hrun (hstart p n) acts = Some st ->
  Pool.run (Pool.start (abs_pool p) (handlers p) n) (concat (abs_action <$> acts)) = Pool.Next (abs (handlers p) st) /\
  Pool.inv (abs (handlers p) st).
Proof.
  intros Hwf Hnew Hrun. destruct (NewHandlerPool_inv _ _ _ _ _ Hwf Hnew) as (H1 & H2 & H3 & H4 & _).
  pose proof (hrun_sim (handlers p) acts _ _ Hrun) as Hsim. rewrite (hstart_abs p n _ H2) in Hsim. split; [done|].
  assert (Hinv : Pool.inv (Pool.start (abs_pool p) (handlers p) n)).
  { apply (Pool.start_pool_inv (abs_pool p) n); try done; cbn; lia. }
  exact (proj2 (Pool.run_inv _ _ Hinv) _ Hsim).
Qed.

(** C34. The handler pool is a correct instance of the connection pool: every run of its
    goroutines is matched, step by step, by a run of a connection pool that starts with the same
    handlers idle, and ends in the corresponding state. *)
Theorem HandlerPool_refines_ConnectPool {V} (c : V) n0 t p t' n acts st :
  Handle.table_wf t -> NewHandlerPool c n0 t = Ret (p, t') -> hrun (hstart p n) acts = Some st ->
  Pool.run (Pool.start (abs_pool p) (handlers p) n) (concat (abs_action <$> acts)) = Pool.Next (abs (handlers p) st).
Proof. intros Hwf Hnew Hrun. by apply (abs_inv c n0 t p t' n acts st). Qed.

Definition hheld (x : hpc) : list Z := match x with HHolding h => [h] | _ => [] end.

Lemma live_abs made st :
  Pool.live (abs made st) = handlers (hp st) ++ concat (option_list <$> hreqs st) ++ concat (hheld <$> hthreads st).
Proof.
  unfold Pool.live, abs. cbn. rewrite <- !list_fmap_compose. f_equal. f_equal; f_equal.
  apply list_fmap_ext. intros k x _. by destruct x.
Qed.

(** Handlers are neither lost nor shared: after any run the [count] handlers of the pool are
    each in exactly one place (idle, on the way to one waiter, or held by one goroutine), each
    still names its caller, and a goroutine that holds one can always put it back without
    blocking. *)
Theorem HandlerPool_safe {V} (c : V) n0 t p t' n acts st :
  Handle.table_wf t -> NewHandlerPool c n0 t = Ret (p, t') -> hrun (hstart p n) acts = Some st ->
  handlers (hp st) ++ concat (option_list <$> hreqs st) ++ concat (hheld <$> hthreads st) ≡ₚ handlers p /\
  NoDup (handlers p) /\ zlen (handlers p) = n0 /\ (forall h, h ∈ handlers p -> Handle.Value t' h = Ret c) /\
  forall i h, hthreads st !! i = Some (HHolding h) -> exists st', hstep st (HPut i) = Some st'.
Proof.
  intros Hwf Hnew Hrun. destruct (NewHandlerPool_inv _ _ _ _ _ Hwf Hnew) as (_ & _ & H3 & H4 & H5).
  destruct (abs_inv _ _ _ _ _ _ _ _ Hwf Hnew Hrun) as [_ Hinv]. split_and!; try done.
  - rewrite <- (live_abs (handlers p)). pose proof (Pool.il_created _ (proj1 Hinv)) as Hc. cbn in Hc.
    rewrite app_nil_r in Hc. by symmetry.
  - intros i h Hi. cbn [hstep]. rewrite Hi.
    pose proof (Pool.put_lock_Next _ i h Hinv (abs_thread _ _ _ _ Hi) eq_refl) as Hput. revert Hput.
    unfold Pool.put_lock, Put. cbn [abs Pool.pool abs_pool Pool.released Pool.connReqs Pool.conns_open Pool.conns
      Pool.maxActive Pool.reqs negb]. destruct (reqList (hp st)) as [|r rest].
    + destruct (_ <? _); [by eexists|].
      intros E%(f_equal (fun o => match o with Pool.Next s => Pool.threads s !! i | _ => None end)).
      cbn in E. rewrite !list_lookup_insert_eq in E by (rewrite length_fmap; by eapply lookup_lt_Some). done.
    + rewrite list_lookup_fmap. destruct (hreqs st !! r) as [[|]|]; try done. by eexists.
Qed.

(** Goroutine 1 finds the channel empty, goroutine 0 puts the only handler back, and goroutine 1
    queues its request. *)
Definition ex_acts : list haction := [HGet 0; HGet 1; HPut 0; HLock 1].

(** The wake-up can be lost, and here no timeout ends the wait: with one handler, the handler
    is idle, nobody holds one, and [Get] of the second goroutine stays blocked. *)
Theorem HandlerPool_lost_wakeup :
  exists p t' st, NewHandlerPool tt 1 Handle.empty_table = Ret (p, t') /\ hrun (hstart p 2) ex_acts = Some st /\
    handlers (hp st) = [1] /\ hthreads st = [HIdle; HWaiting 0] /\
    forall a, a <> HGet 0 -> hstep st a = None.
Proof.
  eexists _, _, _. split; [vm_compute; reflexivity|]. split; [vm_compute; reflexivity|]. split; [reflexivity|].
  split; [reflexivity|]. intros a Ha. destruct a as [[|[|i]]|[|[|i]]|[|[|i]]|[|[|i]]]; done.
Qed.

Definition ex_pool : HandlerPool := mkHandlerPool 1 [1] [].
Definition ex_table : Handle.table unit := Handle.mkTable 1 {[1 := tt]} {[1 := 1]}.
Definition ex_state : hstate := mkH (mkHandlerPool 1 [] [0%nat]) [None] [HHolding 1; HWaiting 0].

Lemma HandlerPool_refines_ConnectPool_witness :
  Pool.run (Pool.start (abs_pool ex_pool) [1] 2) (concat (abs_action <$> [HGet 0; HGet 1; HLock 1]))
  = Pool.Next (abs [1] ex_state).
Proof.
  exact (HandlerPool_refines_ConnectPool tt 1 Handle.empty_table ex_pool ex_table 2 [HGet 0; HGet 1; HLock 1] ex_state
    Handle.empty_table_wf eq_refl eq_refl).
Defined.

Lemma HandlerPool_safe_witness :
  exists st', hstep ex_state (HPut 0) = Some st'.
Proof.
  exact (proj2 (proj2 (proj2 (proj2 (HandlerPool_safe tt 1 Handle.empty_table ex_pool ex_table 2
    [HGet 0; HGet 1; HLock 1] ex_state Handle.empty_table_wf eq_refl eq_refl)))) 0%nat 1 eq_refl).
Defined.

End HPool.
