(* ===== verification/Stmt2Pool.v ===== *)
(** * Stmt2Pool: the pool of statement callbacks

    Models [src/db/async/stmt2pool.go]: callers with a result channel, named by handles, that are
    reused or deleted. *)
From S2P Require Import Prelude Handle.
From stdpp Require Import gmap sets.
#[local] Open Scope Z_scope.

(** ** [Stmt2CallBackCallerPool] *)
Module Stmt2Pool.

(** [Stmt2Result]. *)
Record Stmt2Result := mkResult { Res : Z; Affected : Z; N : Z }.

(** The channel [pool] with its capacity, the handle table, and the [ExecResult] channel (of
    capacity one) of every caller; [lent] is the history of the handles outside the pool. *)
Record state := mkS {
  size : Z;
  pool : list Z;
  table : Handle.table Z;
  results : gmap Z (option Stmt2Result);
  lent : list Z
}.

Definition NewStmt2CallBackCallerPool (size : Z) (t : Handle.table Z) : go state :=
  if size <? 0 then Panic else Ret (mkS size [] t ∅ []).

(** A pooled handle is taken and its channel drained, or a new caller is made. *)
Definition Get (s : state) : go (Z * Z * state) :=
  match pool s with
  | handle :: rest =>
    c ← Handle.Value (table s) handle;
    Ret (handle, c, mkS (size s) rest (table s) (<[c := None]> (results s)) (handle :: lent s))
  | [] =>
    let c := fresh (dom (results s)) in
    ht ← Handle.NewHandle (table s) c;
    Ret (fst ht, c, mkS (size s) [] (snd ht) (<[c := None]> (results s)) (fst ht :: lent s))
  end.

(** [None] when the goroutine blocks. *)
Definition ExecCall (s : state) (c : Z) (r : Stmt2Result) : option state :=
  match results s !! c with
  | Some None => Some (mkS (size s) (pool s) (table s) (<[c := Some r]> (results s)) (lent s))
  | _ => None
  end.

Definition Put (s : state) (h : Z) : go state :=
  let lent' := filter (fun k => k <> h) (lent s) in
  if zlen (pool s) <? size s then Ret (mkS (size s) (pool s ++ [h]) (table s) (results s) lent')
  else t ← Handle.Delete (table s) h; Ret (mkS (size s) (pool s) t (results s) lent').

(** Handles in the pool and outside it are distinct, valid, and name distinct callers. *)
Record wf (s : state) : Prop := {
  wf_table : Handle.table_wf (table s);
  wf_nodup : NoDup (pool s ++ lent s);
  wf_valid : forall h, h ∈ pool s ++ lent s -> exists c, Handle.handles (table s) !! h = Some c /\ c ∈ dom (results s);
  wf_callers : forall h k c, h ∈ pool s ++ lent s -> k ∈ pool s ++ lent s ->
    Handle.handles (table s) !! h = Some c -> Handle.handles (table s) !! k = Some c -> h = k;
  wf_size : zlen (pool s) <= size s
}.

Lemma Put_wf s h s' : wf s -> h ∈ lent s -> Put s h = Ret s' -> wf s'.
Proof.
  intros [Ht Hnd Hv Hc Hsz] Hh. unfold Put.
  assert (Hsub : forall k, k ∈ filter (fun k => k <> h) (lent s) <-> k ∈ lent s /\ k <> h)
    by (intros k; rewrite list_elem_of_filter; tauto).
  apply NoDup_app in Hnd as (Hn1 & Hn2 & Hn3).
  assert (Hhp : h ∉ pool s) by (intros Hp; by apply (Hn2 h Hp)).
  destruct (Z.ltb_spec (zlen (pool s)) (size s)).
  - intros [= <-]. assert (Hin : forall k, k ∈ (pool s ++ [h]) ++ filter (fun k => k <> h) (lent s) -> k ∈ pool s ++ lent s).
    { intros k. rewrite !elem_of_app, Hsub, list_elem_of_singleton. intros [[?| ->]|[? _]]; tauto. }
    constructor; cbn; [done| | | |rewrite zlen_snoc; lia].
    + rewrite NoDup_app, NoDup_app. split_and!; [done| |apply NoDup_singleton| |by apply NoDup_filter].
      * intros x Hx ->%list_elem_of_singleton. done.
      * intros x. rewrite elem_of_app, list_elem_of_singleton, Hsub. intros [Hx| ->]; [|tauto].
        intros [Hl _]. by apply (Hn2 x).
    + intros k Hk. apply Hv, Hin, Hk.
    + intros a b c Ha Hb. apply Hc; by apply Hin.
  - unfold Handle.Delete. rewrite go_bind_ret. intros [= <-].
    assert (Hin : forall k, k ∈ pool s ++ filter (fun k => k <> h) (lent s) -> k ∈ pool s ++ lent s /\ k <> h).
    { intros k. rewrite !elem_of_app, Hsub. intros [Hk|[? ?]]; [|tauto]. split; [by left|]. by intros ->. }
    constructor; cbn; [by eapply Handle.Delete_wf| | | |done].
    + rewrite NoDup_app. split_and!; [done| |by apply NoDup_filter]. intros x Hx [Hl _]%Hsub. by apply (Hn2 x).
    + intros k Hk. destruct (Hin k Hk) as [Hk' Hne]. rewrite lookup_delete_ne by done. by apply Hv.
    + intros a b c Ha Hb. destruct (Hin a Ha), (Hin b Hb). rewrite !lookup_delete_ne by done. by apply Hc.
Qed.

Lemma Get_wf s h c s' : wf s -> Get s = Ret (h, c, s') -> wf s' /\ h ∉ lent s.
Proof.
  intros [Ht Hnd Hv Hc Hsz]. unfold Get. destruct (pool s) as [|h0 rest] eqn:Ep; cbn [app] in *.
  - destruct (Handle.NewHandle _ _) as [[h1 t1]| | |] eqn:E; [|done..]. rewrite go_bind_ret. intros [= <- <- <-]. cbn.
    destruct (Handle.NewHandle_Ret _ _ _ _ Ht E) as (_ & _ & Hnone & Et).
    pose proof (Handle.NewHandle_wf _ _ _ _ Ht E) as Hwf. subst t1.
    assert (Hnew : h1 ∉ lent s) by (intros Hin; destruct (Hv _ Hin) as (c0 & Hc0 & _); congruence).
    pose proof (is_fresh (dom (results s))) as Hfresh. split; [|done]. constructor; cbn; try done.
    + by apply NoDup_cons.
    + intros k [->|Hk]%elem_of_cons; [exists (fresh (dom (results s))); rewrite lookup_insert_eq; split; [done|set_solver]|].
      destruct (Hv k Hk) as (c0 & Hc0 & Hd). exists c0. rewrite lookup_insert_ne by (by intros ->). split; [done|set_solver].
    + intros a b c Ha Hb. assert (Hold : forall k, k ∈ lent s ->
        (<[h1 := fresh (dom (results s))]> (Handle.handles (table s))) !! k <> Some (fresh (dom (results s)))).
      { intros k Hk. rewrite lookup_insert_ne by (by intros ->). destruct (Hv k Hk) as (c0 & -> & Hd). by intros [= ->]. }
      apply elem_of_cons in Ha as [->|Ha], Hb as [->|Hb]; rewrite ?lookup_insert_eq; [done|..].
      * intros [= <-] Hbk. by destruct (Hold b Hb).
      * intros Hak [= <-]. by destruct (Hold a Ha).
      * rewrite !lookup_insert_ne by congruence. by apply Hc.
  - unfold Handle.Value. destruct (Hv h0) as (c0 & Hc0 & Hd); [left|]. rewrite Hc0, go_bind_ret. intros [= <- <- <-].
    apply NoDup_cons in Hnd as [Hn0 Hnd]. split; [|intros Hin; apply Hn0, elem_of_app; by right].
    assert (Hperm : rest ++ h0 :: lent s ≡ₚ h0 :: rest ++ lent s) by solve_Permutation.
    constructor; cbn [table pool lent size results]; [done|rewrite Hperm; by apply NoDup_cons| | |rewrite zlen_cons in Hsz; lia].
    + intros k Hk. rewrite Hperm in Hk. destruct (Hv k Hk) as (c1 & ? & ?). exists c1. split; [done|]. set_solver.
    + intros a b c Ha Hb. rewrite Hperm in Ha. rewrite Hperm in Hb. by apply Hc.
Qed.

(** A use of the pool: [Get], a callback of the C side on a handle that is out, [Put] of one. *)
Inductive op := OGet | OCall (h : Z) (r : Stmt2Result) | OPut (h : Z).

(** [None]: the operation is not one the clients make, or it blocks or panics. *)
Definition do_op (s : state) (o : op) : option state :=
  match o with
  | OGet => match Get s with Ret (_, _, s') => Some s' | _ => None end
  | OCall h r =>
    if bool_decide (h ∈ lent s) then
      match Handle.Value (table s) h with Ret c => ExecCall s c r | _ => None end
    else None
  | OPut h => if bool_decide (h ∈ lent s) then match Put s h with Ret s' => Some s' | _ => None end else None
  end.

Definition do_ops (s : state) (l : list op) : option state := foldl (fun os o => os ≫= fun s => do_op s o) (Some s) l.

Lemma do_op_wf s o s' : wf s -> do_op s o = Some s' -> wf s'.
Proof.
  intros Hwf. destruct o as [|h r|h]; cbn [do_op].
  - destruct (Get s) as [[[h c] s1]| | |] eqn:E; [|done..]. intros [= <-]. by eapply Get_wf.
  - case_bool_decide; [|done]. destruct (Handle.Value _ _) as [c| | |]; [|done..]. unfold ExecCall.
    destruct (results s !! c) as [[|]|] eqn:Er; [done| |done]. intros [= <-]. destruct Hwf as [Ht Hnd Hv Hc Hsz].
    constructor; cbn; try done. intros k Hk. destruct (Hv k Hk) as (c1 & ? & ?). exists c1. split; [done|]. set_solver.
  - case_bool_decide; [|done]. destruct (Put s h) eqn:E; [|done..]. intros [= <-]. by eapply Put_wf.
Qed.

Lemma do_ops_wf l : forall s s', wf s -> do_ops s l = Some s' -> wf s'.
Proof.
  unfold do_ops. induction l as [|o l IH] using rev_ind; intros s s' Hwf; [by intros [= <-]|].
  rewrite foldl_app. cbn. destruct (foldl _ _ l) as [s1|] eqn:E; [|done]. cbn. intros Ho.
  apply (do_op_wf s1 o s'); [by apply (IH s)|done].
Qed.

(** However the pool was used, [Get] either finds the handles exhausted or returns a handle
    nobody else has, which names the returned caller, whose result channel is empty (a stale
    result of an earlier use is drained); the next callback on it is delivered. *)
Theorem Stmt2Pool_Get n t s0 l s :
  Handle.table_wf t -> NewStmt2CallBackCallerPool n t = Ret s0 -> do_ops s0 l = Some s ->
  Get s = Panic \/
  exists h c s', Get s = Ret (h, c, s') /\ h ∉ lent s /\ Handle.Value (table s') h = Ret c /\
    results s' !! c = Some None /\ (forall k, k ∈ lent s -> Handle.Value (table s') k <> Ret c) /\
    forall r, exists s'', ExecCall s' c r = Some s'' /\ results s'' !! c = Some (Some r).
Proof.
  intros Ht Hnew Hops. assert (Hwf : wf s).
  { apply (do_ops_wf l s0 s); [|done]. revert Hnew. unfold NewStmt2CallBackCallerPool. destruct (Z.ltb_spec n 0); [done|].
    intros [= <-]. constructor; cbn; try done; [constructor|set_solver|set_solver]. }
  destruct (Get s) as [[[h c] s1]| | |] eqn:E; [right|try (by left)..].
  2,3: revert E; unfold Get, Handle.Value, Handle.NewHandle; repeat (case_match; try done).
  exists h, c, s1. split; [done|]. destruct (Get_wf _ _ _ _ Hwf E) as [Hwf1 Hout]. split; [done|].
  assert (Hv : Handle.handles (table s1) !! h = Some c /\ results s1 !! c = Some None /\ lent s1 = h :: lent s).
  { revert E. unfold Get, Handle.Value, Handle.NewHandle. repeat (case_match; try done); intros [= <- <- <-]; cbn;
      rewrite ?lookup_insert_eq; done. }
  destruct Hv as (Hv1 & Hv2 & Hv3). unfold Handle.Value. rewrite Hv1. split; [done|]. split; [done|]. split.
  - intros k Hk. destruct (Handle.handles (table s1) !! k) as [c'|] eqn:Ek; [|done]. intros [= ->].
    destruct Hout. assert (h = k) as ->; [|done].
    apply (wf_callers _ Hwf1 h k c); try done; rewrite Hv3, elem_of_app; right; [left|by right].
  - intros r. unfold ExecCall. rewrite Hv2. eexists. split; [done|]. cbn. by rewrite lookup_insert_eq.
Qed.

Lemma Stmt2Pool_Get_witness :
  exists s, do_ops (mkS 1 [] Handle.empty_table ∅ []) [OGet; OCall 1 (mkResult 7 8 9); OPut 1] = Some s /\
  (Get s = Panic \/
  exists h c s', Get s = Ret (h, c, s') /\ h ∉ lent s /\ Handle.Value (table s') h = Ret c /\
    results s' !! c = Some None /\ (forall k, k ∈ lent s -> Handle.Value (table s') k <> Ret c) /\
    forall r, exists s'', ExecCall s' c r = Some s'' /\ results s'' !! c = Some (Some r)).
Proof.
  eexists. split; [vm_compute; reflexivity|].
  apply (Stmt2Pool_Get 1 Handle.empty_table (mkS 1 [] Handle.empty_table ∅ [])
    [OGet; OCall 1 (mkResult 7 8 9); OPut 1]); [apply Handle.empty_table_wf|reflexivity|vm_compute; reflexivity].
Defined.

End Stmt2Pool.
