(* ===== verification/Tools.v ===== *)
(** * Tools: request numbers, JSON of byte slices, joined errors, basic authentication, padding

    Models [src/tools/generator/reqid.go], [src/tools/jsontype/uint8.go],
    [src/tools/joinerror/join.go], [src/tools/basic.go] and [src/tools/aes.go].  The base64
    decoder and the AES block cipher are parameters. *)
From S2P Require Import Prelude JsonBuilder.
#[local] Open Scope Z_scope.

(** ** Request numbers *)
Module ReqID.

(** The numbers of a call from the increment: the instance in the top byte. *)
Definition req_number (InstanceID id : Z) : Z := Z.lor (i64 (Z.shiftl InstanceID 56)) id.

(** A call as the atomic operations on [reqIncrement] that it has left. *)
Inductive prog := AddInt64 (k : Z -> prog) | StoreInt64 (v : Z) (k : prog) | Return (v : Z).

Definition GetReqID (InstanceID : Z) : prog :=
  AddInt64 (fun id => if id >? 0x00ffffffffffffff then StoreInt64 1 (Return (req_number InstanceID 1))
                      else Return (req_number InstanceID id)).

(** [reqIncrement] and the calls of the goroutines. *)
Record state := mkState { reqIncrement : Z; calls : list prog }.

(** Goroutine [i] performs its next atomic operation. *)
Definition step (i : nat) (s : state) : option state :=
  match calls s !! i with
  | Some (AddInt64 k) => let id := i64 (reqIncrement s + 1) in Some (mkState id (<[i := k id]> (calls s)))
  | Some (StoreInt64 v k) => Some (mkState v (<[i := k]> (calls s)))
  | _ => None
  end.

(** The goroutines in the order in which they perform their operations. *)
Fixpoint run (s : state) (acts : list nat) : option state :=
  match acts with [] => Some s | i :: acts => s ← step i s; run s acts end.

(** [n] calls from increment [c] on. *)
Definition start (inst c : Z) (n : nat) : state := mkState c (replicate n (GetReqID inst)).
Definition returned (s : state) (i : nat) (v : Z) : Prop := calls s !! i = Some (Return v).

(** The other two numbers take one atomic addition each. *)
Definition GetSessionID (sessionID : Z) : Z * Z := let id := i64 (sessionID + 1) in (id, id).

Definition GetUploadKeeperReqID (InstanceID uploadKeeperReqID : Z) : Z * Z :=
  let id := u32 (uploadKeeperReqID + 1) in (Z.lor (i64 (Z.shiftl InstanceID 56)) (i64 (Z.shiftl id 8)), id).

(** The number of distinct increments, [2^56 - 1]. *)
Definition period : Z := 0x00ffffffffffffff.

(** Byte [k] of a number, from the most significant one. *)
Definition byte_at (v k : Z) : Z := Z.shiftr v (8 * (7 - k)) mod 256.

Lemma lor_disjoint a b n : 0 <= n -> 0 <= b < 2 ^ n -> Z.lor (a * 2 ^ n) b = a * 2 ^ n + b.
Proof.
  intros Hn Hb. rewrite <- Z.add_lor_land. enough (E : Z.land (a * 2 ^ n) b = 0) by (rewrite E; lia).
  apply Z.bits_inj'. intros k Hk. rewrite Z.land_spec, Z.bits_0. destruct (Z.lt_ge_cases k n).
  - rewrite Z.mul_pow2_bits_low by lia. done.
  - destruct (Z.eq_dec b 0) as [->|]; [by rewrite Z.bits_0, andb_false_r|].
    rewrite (Z.bits_above_log2 b k); [by rewrite andb_false_r|lia|]. apply Z.log2_lt_pow2; [lia|].
    apply Z.lt_le_trans with (2 ^ n); [lia|]. apply Z.pow_le_mono_r; lia.
Qed.

(** The instance in the top byte, as an [int64]. *)
Lemma wrap_top inst : in_u 8 inst -> exists q, i64 (Z.shiftl inst 56) = (inst + q * 256) * 2 ^ 56.
Proof.
  intros Hi. unfold wrap_s. rewrite Z.shiftl_mul_pow2 by lia. change (2 ^ (64 - 1)) with (2 ^ 63).
  exists (- ((inst * 2 ^ 56 + 2 ^ 63) / 2 ^ 64)). rewrite Z.mod_eq by lia. change (2 ^ 64) with (256 * 2 ^ 56). lia.
Qed.

Lemma shift_top a b n k : 0 <= k <= n -> 0 <= b < 2 ^ n -> Z.shiftr (a * 2 ^ n + b) k = a * 2 ^ (n - k) + b / 2 ^ k.
Proof.
  intros Hk Hb. rewrite Z.shiftr_div_pow2 by lia. replace n with (n - k + k) at 1 by lia.
  rewrite Z.pow_add_r by lia. rewrite Z.mul_assoc, Z.add_comm, Z.div_add by (apply Z.pow_nonzero; lia). lia.
Qed.

(** A number from the instance and an increment. *)
Lemma req_number_eq inst : in_u 8 inst -> exists q, forall id, 0 <= id < 2 ^ 56 -> req_number inst id = (inst + q * 256) * 2 ^ 56 + id.
Proof.
  intros Hi. destruct (wrap_top inst Hi) as [q Hq]. exists q. intros id Hid. unfold req_number. by rewrite Hq, lor_disjoint.
Qed.

Lemma req_number_bytes inst id : in_u 8 inst -> 0 <= id < 2 ^ 56 ->
  byte_at (req_number inst id) 0 = inst /\ req_number inst id mod 2 ^ 56 = id.
Proof.
  intros Hi Hid. destruct (req_number_eq inst Hi) as [q Hq]. rewrite Hq by done. unfold byte_at. change (8 * (7 - 0)) with 56.
  rewrite shift_top by (done || lia). rewrite (Z.div_small _ (2 ^ 56)) by done.
  rewrite Z.add_0_r, Z.sub_diag, Z.mul_1_r, Z_mod_plus_full, Z.mod_small by (unfold in_u in Hi; lia). split; [done|].
  by rewrite Z.add_comm, Z_mod_plus_full, Z.mod_small.
Qed.

Lemma req_number_inj inst id id' : in_u 8 inst -> 0 <= id < 2 ^ 56 -> 0 <= id' < 2 ^ 56 ->
  req_number inst id = req_number inst id' -> id = id'.
Proof. intros Hi H1 H2 E. by rewrite <- (proj2 (req_number_bytes inst id Hi H1)), E, (proj2 (req_number_bytes inst id' Hi H2)). Qed.

(** ** Calls in any interleaving *)

(** How many calls have their addition to do. *)
Definition is_add (p : prog) : bool := match p with AddInt64 _ => true | _ => false end.
Definition waiting (l : list prog) : Z := foldr (fun p n => if is_add p then n + 1 else n) 0 l.

Lemma waiting_insert l i p p' : l !! i = Some p -> is_add p' = false ->
  waiting (<[i := p']> l) = if is_add p then waiting l - 1 else waiting l.
Proof.
  revert i. induction l as [|q l IH]; intros [|i] Hi Hp; try done; cbn in *; fold (waiting l).
  - injection Hi as ->. rewrite Hp. destruct (is_add p); lia.
  - fold (waiting (<[i := p']> l)). rewrite IH by done. destruct (is_add q), (is_add p); lia.
Qed.
Lemma waiting_start inst n : waiting (replicate n (GetReqID inst)) = Z.of_nat n.
Proof.
  induction n as [|n IH]; [done|].
  change (waiting (replicate (S n) (GetReqID inst))) with (waiting (replicate n (GetReqID inst)) + 1). lia.
Qed.
Lemma waiting_nonneg l : 0 <= waiting l.
Proof. induction l as [|p l IH]; cbn; [lia|fold (waiting l)]. destruct (is_add p); lia. Qed.

Section Calls.
Context (inst c : Z) (n : nat).

(** The stages of a call, and the invariant of [n] calls that started at increment [c]. *)
Inductive stage : prog -> Prop :=
| stage_add : stage (GetReqID inst)
| stage_store : stage (StoreInt64 1 (Return (req_number inst 1)))
| stage_return id : 1 <= id <= period -> stage (Return (req_number inst id)).

Record calls_ok (s : state) : Prop := mkCallsOk {
  ok_stages : Forall stage (calls s);
  ok_store : forall i v k, calls s !! i = Some (StoreInt64 v k) -> 1 <= reqIncrement s;
  ok_low : 0 <= reqIncrement s;
  ok_high : reqIncrement s + waiting (calls s) <= c + Z.of_nat n }.

(** The stage of a call after its step. *)
Lemma calls_ok_step i s p p' id : calls_ok s -> calls s !! i = Some p -> is_add p' = false -> stage p' ->
  1 <= id <= (if is_add p then reqIncrement s + 1 else reqIncrement s) -> calls_ok (mkState id (<[i := p']> (calls s))).
Proof.
  intros [H1 H2 H3 H4] Hp Ha Hst Hid. split; cbn [reqIncrement calls]; [by apply Forall_insert| |destruct (is_add p); lia|].
  - intros _ _ _ _. lia.
  - rewrite (waiting_insert _ _ _ _ Hp Ha). destruct (is_add p); lia.
Qed.

Lemma step_ok i s s' : c + Z.of_nat n < 2 ^ 63 -> calls_ok s -> step i s = Some s' -> calls_ok s'.
Proof.
  intros Hn Hok Hs. pose proof Hok as [H1 H2 H3 H4]. unfold step in Hs. destruct (calls s !! i) as [p|] eqn:Hp; [|done].
  destruct (Forall_lookup_1 _ _ _ _ H1 Hp) as [| |id Hid]; [| |done].
  - unfold GetReqID in *. injection Hs as <-. pose proof (waiting_insert _ _ _ (Return 0) Hp eq_refl) as E. cbn [is_add] in E.
    pose proof (waiting_nonneg (<[i := Return 0]> (calls s))) as Hw.
    rewrite wrap_s_id by (try done; unfold in_s; change (64 - 1) with 63; lia). eapply calls_ok_step; [done|done| | |cbn; lia];
      destruct (Z.gtb_spec (reqIncrement s + 1) 0x00ffffffffffffff); try done; constructor. unfold period. lia.
  - injection Hs as <-. specialize (H2 _ _ _ Hp). eapply calls_ok_step; [done|done|done|by constructor|cbn; lia].
Qed.

(** Before the increment wraps, the numbers that were returned are different. *)
Record distinct (s : state) : Prop := mkDistinct {
  ds_low : c <= reqIncrement s;
  ds_stage : forall i p, calls s !! i = Some p -> p = GetReqID inst \/ exists id, c < id <= reqIncrement s /\ p = Return (req_number inst id);
  ds_distinct : forall i j v, returned s i v -> returned s j v -> i = j }.

Lemma step_distinct i s s' : in_u 8 inst -> 0 <= c -> c + Z.of_nat n <= period -> calls_ok s -> distinct s -> step i s = Some s' -> distinct s'.
Proof.
  intros Hi Hc Hn [_ _ _ H4] [D1 D2 D3] Hs. unfold step in Hs. destruct (calls s !! i) as [p|] eqn:Hp; [|done].
  pose proof (waiting_insert _ _ _ (Return 0) Hp eq_refl) as E. pose proof (waiting_nonneg (<[i := Return 0]> (calls s))) as Hw.
  destruct (D2 i p Hp) as [->|(id & _ & ->)]; [|done]. unfold GetReqID in *. injection Hs as <-. cbn [is_add] in E.
  unfold period in Hn. rewrite wrap_s_id by (try done; unfold in_s; change (64 - 1) with 63; lia).
  destruct (Z.gtb_spec (reqIncrement s + 1) 0x00ffffffffffffff); [lia|].
  assert (Hold : forall j v, j <> i -> <[i := Return (req_number inst (reqIncrement s + 1))]> (calls s) !! j = Some (Return v) ->
    v <> req_number inst (reqIncrement s + 1)).
  { intros j v Hj. rewrite list_lookup_insert_ne by done. intros Hv. destruct (D2 j _ Hv) as [?|(id & Hid & [= ->])]; [done|].
    intros Eq%req_number_inj; unfold in_u in *; (done || lia). }
  split; cbn; [lia| |].
  - intros j q. rewrite list_lookup_insert_Some. intros [(-> & <- & _)|[Hj Hq]]; [right; eexists; split; [|done]; lia|].
    destruct (D2 j q Hq) as [?|(id & ? & ?)]; [by left|right]. exists id. split; [lia|done].
  - intros j k v Hj Hk. unfold returned in *. cbn in *. destruct (decide (j = i)) as [->|Hji], (decide (k = i)) as [->|Hki]; [done| | |].
    + specialize (Hold k v Hki Hk). rewrite list_lookup_insert_eq in Hj by (by eapply lookup_lt_Some). congruence.
    + specialize (Hold j v Hji Hj). rewrite list_lookup_insert_eq in Hk by (by eapply lookup_lt_Some). congruence.
    + rewrite list_lookup_insert_ne in Hj, Hk by done. by apply (D3 j k v).
Qed.

Lemma run_calls s acts s' : in_u 8 inst -> 0 <= c -> c + Z.of_nat n < 2 ^ 63 -> calls_ok s ->
  run s acts = Some s' -> calls_ok s' /\ (c + Z.of_nat n <= period -> distinct s -> distinct s').
Proof.
  intros Hi Hc Hn. revert s. induction acts as [|i acts IH]; intros s Hs Hr; [by injection Hr as <-|]. cbn in Hr.
  destruct (step i s) as [s1|] eqn:E; [|done]. destruct (IH s1 (step_ok _ _ _ Hn Hs E) Hr) as [H1 H2]. split; [done|].
  intros Hp Hd. apply H2; [done|]. by apply (step_distinct i s).
Qed.

Lemma start_ok : 0 <= c -> calls_ok (start inst c n) /\ distinct (start inst c n).
Proof.
  assert (Hrep : forall i p, replicate n (GetReqID inst) !! i = Some p -> p = GetReqID inst) by (by intros i p [-> _]%lookup_replicate).
  intros Hc. split; split; cbn [reqIncrement calls start]; try lia.
  - apply Forall_replicate. constructor.
  - by intros i v k ?%Hrep.
  - rewrite waiting_start. lia.
  - intros i p ?%Hrep. by left.
  - by intros i j v ?%Hrep.
Qed.

(** C40. In any number of calls of [GetReqID] at once, in any interleaving of their atomic operations, the
    numbers that are returned carry the instance in their top byte and an increment that is not zero in
    the other seven; as long as the increment does not pass [2^56 - 1], no two of them are the same. *)
Theorem GetReqID_unique acts s :
  in_u 8 inst -> 0 <= c -> c + Z.of_nat n < 2 ^ 63 -> run (start inst c n) acts = Some s ->
  (forall i v, returned s i v -> byte_at v 0 = inst /\ 1 <= v mod 2 ^ 56) /\
  (c + Z.of_nat n <= period -> forall i j v, returned s i v -> returned s j v -> i = j).
Proof.
  intros Hi Hc Hn Hr. destruct (start_ok Hc) as [Hs Hd]. destruct (run_calls _ _ _ Hi Hc Hn Hs Hr) as [H1 H2]. split.
  - intros i v Hv. pose proof (Forall_lookup_1 _ _ _ _ (ok_stages _ H1) Hv) as Hst. inversion Hst as [| |id Hid E]. unfold period in Hid.
    destruct (req_number_bytes inst id Hi) as [E1 E2]; [lia|]. rewrite E2. split; [done|lia].
  - intros Hp. by apply H2.
Qed.

End Calls.

Lemma GetReqID_unique_witness : exists s, run (start 200 41 2) [1; 0]%nat = Some s /\ returned s 0 (req_number 200 43) /\
  returned s 1 (req_number 200 42) /\ forall i j v, returned s i v -> returned s j v -> i = j.
Proof.
  eexists. split; [reflexivity|]. split; [reflexivity|]. split; [reflexivity|].
  refine (proj2 (GetReqID_unique 200 41 2 [1; 0]%nat _ _ _ _ _) _); [unfold in_u; lia|done|done|reflexivity|done].
Defined.

(** The addition and the store are two operations: when the increment passes its end, two calls that
    both find it there both return its first number. *)
Theorem GetReqID_wrap_repeats inst : exists s, run (start inst period 2) [0; 1; 0; 1]%nat = Some s /\
  returned s 0 (req_number inst 1) /\ returned s 1 (req_number inst 1).
Proof. eexists. split; [reflexivity|]. by split. Qed.

(** A number for the keeper has the instance in byte 0, zeros in bytes 1, 2 and 7, and the 32-bit
    increment in bytes 3 to 6, as documented. *)
Theorem GetUploadKeeperReqID_layout inst n (v := fst (GetUploadKeeperReqID inst n)) : in_u 8 inst ->
  byte_at v 0 = inst /\ byte_at v 1 = 0 /\ byte_at v 2 = 0 /\ byte_at v 7 = 0 /\ Z.shiftr v 8 mod 2 ^ 32 = (n + 1) mod 2 ^ 32.
Proof.
  intros Hi. destruct (wrap_top inst Hi) as [q Hq]. unfold v, GetUploadKeeperReqID. cbn [fst]. set (id := u32 (n + 1)).
  assert (Hu : 0 <= id < 2 ^ 32) by apply (wrap_u_range 32 _ ltac:(lia)).
  rewrite Hq. rewrite (Z.shiftl_mul_pow2 id 8) by lia.
  rewrite wrap_s_id by (done || (unfold in_s; lia)). rewrite lor_disjoint by lia.
  unfold byte_at. rewrite !shift_top by lia.
  change (56 - 8 * (7 - 0)) with 0. change (56 - 8 * (7 - 1)) with 8. change (56 - 8 * (7 - 2)) with 16.
  change (56 - 8 * (7 - 7)) with 56. change (56 - 8) with 48. unfold in_u in Hi.
  split_and!.
  - rewrite Z.div_small by lia. rewrite Z.add_0_r, Z.mul_1_r, Z_mod_plus_full. by apply Z.mod_small.
  - rewrite Z.div_small by lia. rewrite Z.add_0_r. apply Z_mod_mult.
  - rewrite Z.div_small by lia. rewrite Z.add_0_r. change (2 ^ 16) with (256 * 256). rewrite Z.mul_assoc. apply Z_mod_mult.
  - change (2 ^ (8 * (7 - 7))) with 1. rewrite Z.div_1_r. change (2 ^ 56) with (2 ^ 48 * 256).
    change (2 ^ 8) with 256. rewrite Z.mul_assoc, <- Z.mul_add_distr_r. apply Z_mod_mult.
  - rewrite Z.div_mul by done. change (2 ^ 48) with (2 ^ 16 * 2 ^ 32). rewrite Z.mul_assoc, Z.add_comm, Z_mod_plus_full.
    unfold id, wrap_u. apply Z.mod_mod. done.
Qed.

End ReqID.

(** ** [JsonUint8] *)
Module JsonUint8.

(** [None] is the nil slice.  The table [digits] and [writeFirstBuf] of the package are copies of
    those of [jsonbuilder]. *)
Definition put_byte (b : list Z) (v : Z) : go (list Z) := d ← zget Json.digits v; Ret (Json.writeFirstBuf b d).

Definition MarshalJSON (m : option (list Z)) : go (list Z) :=
  match m with
  | None => Ret (str "null")
  | Some m =>
    if zlen m =? 0 then Ret [91; 93]
    else
      x ← zget m 0;
      b ← put_byte [91] x;
      b ← for_loop (length m - 1) 1 (fun i b => x ← zget m i; put_byte (b ++ [44]) x) b;
      Ret (b ++ [93])
  end.

(** The bytes as decimal numbers without leading zeros, separated by commas. *)
Inductive is_list : list Z -> list Z -> Prop :=
| is_list_one d v : Json.is_decimal d v -> is_list [v] d
| is_list_cons vs l d v : is_list vs l -> Json.is_decimal d v -> is_list (vs ++ [v]) (l ++ 44 :: d).

Lemma put_byte_spec b v : is_byte v -> exists d, put_byte b v = Ret (b ++ d) /\ Json.is_decimal d v.
Proof.
  intros Hv. destruct (Json.digits_entry v) as (d & Hd & Hdec & _); [unfold is_byte in Hv; lia|].
  exists (Json.writeFirstBuf [] d). unfold put_byte. rewrite Hd, go_bind_ret, Json.writeFirstBuf_app. done.
Qed.

(** [MarshalJSON] of a byte slice never fails and gives the JSON array of its bytes as decimal
    numbers, in order; the nil slice gives null. *)
Theorem MarshalJSON_array m :
  is_bytes m ->
  MarshalJSON None = Ret (str "null") /\
  match m with
  | [] => MarshalJSON (Some m) = Ret (str "[]")
  | _ => exists l, MarshalJSON (Some m) = Ret (str "[" ++ l ++ str "]") /\ is_list m l
  end.
Proof.
  intros Hm. split; [done|]. destruct m as [|x m]; [done|]. apply Forall_cons in Hm as [Hx Hm].
  unfold MarshalJSON. rewrite (proj2 (Z.eqb_neq _ _)) by (rewrite zlen_cons; pose proof (zlen_nonneg m); lia).
  change (zget (x :: m) 0) with (Ret (A := Z) x). rewrite go_bind_ret.
  destruct (put_byte_spec [91] x Hx) as (d & -> & Hd). rewrite go_bind_ret.
  assert (Hgo : forall rest dn l, x :: m = dn ++ rest -> is_bytes rest -> is_list dn l ->
    exists l', for_loop (length rest) (zlen dn) (fun i b => y ← zget (x :: m) i; put_byte (b ++ [44]) y) (91 :: l)
      = Ret (91 :: l') /\ is_list (x :: m) l').
  { induction rest as [|y rest IH]; intros dn l E Hr Hl; cbn [length for_loop].
    { rewrite app_nil_r in E. exists l. by rewrite E. }
    apply Forall_cons in Hr as [Hy Hr]. rewrite E, zget_middle, go_bind_ret.
    destruct (put_byte_spec ((91 :: l) ++ [44]) y Hy) as (d' & -> & Hd'). rewrite go_bind_ret.
    destruct (IH (dn ++ [y]) (l ++ 44 :: d')) as (l' & H1 & H2).
    - rewrite E. list_assoc.
    - done.
    - by apply is_list_cons.
    - exists l'. rewrite <- E. split; [|done]. rewrite zlen_snoc in H1. rewrite <- H1. f_equal. cbn. by rewrite <- app_assoc. }
  destruct (Hgo m [x] d eq_refl Hm (is_list_one _ _ Hd)) as (l & Hl & Hlist).
  exists l. split; [|done]. replace (length (x :: m) - 1)%nat with (length m) by (cbn; lia).
  change (zlen [x]) with 1 in Hl. cbn [app]. rewrite Hl, go_bind_ret. done.
Qed.

Lemma MarshalJSON_array_witness : exists l, MarshalJSON (Some [7; 255]) = Ret (str "[" ++ l ++ str "]") /\ is_list [7; 255] l.
Proof. apply (MarshalJSON_array [7; 255]). repeat (apply Forall_cons_2; [done|]). constructor. Defined.

End JsonUint8.

(** ** Basic authentication *)
Module Basic.

(** [strings.SplitN(s, ":", 2)]. *)
Fixpoint cut_colon (s : list Z) : option (list Z * list Z) :=
  match s with
  | [] => None
  | c :: s' => if c =? 58 then Some ([], s') else (fun p => (c :: fst p, snd p)) <$> cut_colon s'
  end.
Definition SplitN2 (s : list Z) : list (list Z) :=
  match cut_colon s with None => [s] | Some (a, b) => [a; b] end.

Inductive basic_error := ErrBase64 | ErrWrongBasicAuth.

Section Decode.
(** [base64.StdEncoding.DecodeString]; [None] is an error. *)
Context (DecodeString : list Z -> option (list Z)).

Definition DecodeBasic (auth : list Z) : (list Z * list Z) + basic_error :=
  match DecodeString auth with
  | None => inr ErrBase64
  | Some b =>
    match SplitN2 b with
    | [user; password] => inl (user, password)
    | _ => inr ErrWrongBasicAuth
    end
  end.

Lemma cut_colon_Some s a b : cut_colon s = Some (a, b) <-> s = a ++ 58 :: b /\ 58 ∉ a.
Proof.
  revert a. induction s as [|c s IH]; intros a; cbn [cut_colon].
  { split; [done|]. intros [E _]. by destruct a. }
  destruct (Z.eqb_spec c 58) as [->|Hne].
  - split; [intros [= <- <-]; split; [done|apply not_elem_of_nil]|]. intros [E Ha]. destruct a as [|x a].
    + by injection E as <-.
    + injection E as <- _. destruct Ha. left.
  - destruct (cut_colon s) as [[a' b']|]; cbn.
    + split.
      * intros [= <- <-]. destruct (proj1 (IH a') eq_refl) as [-> Ha]. split; [done|]. by rewrite not_elem_of_cons.
      * intros [E Ha]. destruct a as [|x a]; [by injection E|]. injection E as <- E. rewrite not_elem_of_cons in Ha.
        destruct Ha as [_ Ha]. pose proof (proj2 (IH a) (conj E Ha)) as [= -> ->]. done.
    + split; [done|]. intros [E Ha]. destruct a as [|x a]; [by injection E|]. injection E as <- E.
      rewrite not_elem_of_cons in Ha. by pose proof (proj2 (IH a) (conj E (proj2 Ha))).
Qed.

(** Basic credentials are split at the first colon of the decoded text, so a password may
    contain colons; text without a colon is rejected, and so is what the base64 decoder rejects. *)
Theorem DecodeBasic_spec auth user password :
  (DecodeBasic auth = inl (user, password) <->
   DecodeString auth = Some (user ++ 58 :: password) /\ 58 ∉ user) /\
  (DecodeBasic auth = inr ErrBase64 <-> DecodeString auth = None) /\
  (DecodeBasic auth = inr ErrWrongBasicAuth <-> exists b, DecodeString auth = Some b /\ 58 ∉ b).
Proof.
  unfold DecodeBasic, SplitN2. destruct (DecodeString auth) as [b|].
  2: { split_and!; split; try done; [by intros []|by intros (b & E & _)]. }
  destruct (cut_colon b) as [[u p]|] eqn:E.
  - pose proof (proj1 (cut_colon_Some _ _ _) E) as [Hb Hu]. split_and!; split; try done.
    + intros [= -> ->]. by rewrite Hb.
    + intros [[= E'] Hn]. rewrite E' in E. rewrite (proj2 (cut_colon_Some _ user password)) in E by done. congruence.
    + intros (b' & [= <-] & Hn). rewrite Hb in Hn. destruct Hn. apply elem_of_app. right. left.
  - split_and!; split; try done.
    + intros [[= ->] Hn]. by rewrite (proj2 (cut_colon_Some _ user password)) in E.
    + intros _. exists b. split; [done|]. intros (l1 & l2 & Hb & Hn)%list_elem_of_split_l.
      by rewrite (proj2 (cut_colon_Some b l1 l2)) in E.
Qed.

End Decode.
End Basic.

(** ** AES in CBC mode with PKCS #5 padding *)
Module Aes.

Definition PKCS5Padding (ciphertext : list Z) (blockSize : Z) : list Z :=
  let padding := blockSize - zlen ciphertext mod blockSize in
  ciphertext ++ replicate (Z.to_nat padding) (u8 padding).

Definition PKCS5UnPadding (origData : list Z) : go (list Z) :=
  let length := zlen origData in
  unPadding ← zget origData (length - 1);
  zslice origData 0 (length - unPadding).

Definition BlockSize : Z := 16.

Section Cipher.
(** [aes.NewCipher] accepts keys of 16, 24 and 32 bytes; [CryptBlocks] of the two CBC modes. *)
Context (cbc_encrypt cbc_decrypt : list Z -> list Z -> list Z -> list Z).

Definition NewCipher (key : list Z) : bool := (zlen key =? 16) || (zlen key =? 24) || (zlen key =? 32).

(** [CryptBlocks] panics on input that is not full blocks. *)
Definition CryptBlocks (f : list Z -> list Z -> list Z -> list Z) (key iv src : list Z) : go (list Z) :=
  if zlen src mod BlockSize =? 0 then Ret (f key iv src) else Panic.

Definition AesEncrypt (origData key : list Z) : go (option (list Z)) :=
  if negb (NewCipher key) then Ret None
  else
    let origData := PKCS5Padding origData BlockSize in
    iv ← zslice key 0 BlockSize;
    encrypted ← CryptBlocks cbc_encrypt key iv origData;
    Ret (Some encrypted).

Definition AesDecrypt (encrypted key : list Z) : go (option (list Z)) :=
  if negb (NewCipher key) then Ret None
  else
    iv ← zslice key 0 BlockSize;
    origData ← CryptBlocks cbc_decrypt key iv encrypted;
    origData ← PKCS5UnPadding origData;
    Ret (Some origData).

(** The modes keep the length and are inverse to each other on full blocks. *)
Hypothesis cbc_length : forall key iv src, zlen src mod BlockSize = 0 -> zlen (cbc_encrypt key iv src) = zlen src.
Hypothesis cbc_inverse : forall key iv src, zlen src mod BlockSize = 0 ->
  cbc_decrypt key iv (cbc_encrypt key iv src) = src.

Lemma padding_length data n : 0 < n -> zlen (PKCS5Padding data n) = (zlen data / n + 1) * n.
Proof.
  intros Hn. unfold PKCS5Padding. rewrite zlen_app. unfold zlen at 2. rewrite length_replicate.
  pose proof (Z.mod_pos_bound (zlen data) n Hn). pose proof (Z.div_mod (zlen data) n ltac:(lia)). lia.
Qed.

(** Padding to blocks of at most 255 bytes can be removed. *)
Lemma PKCS5_inverse data n : 0 < n < 256 -> PKCS5UnPadding (PKCS5Padding data n) = Ret data.
Proof.
  intros Hn. unfold PKCS5UnPadding, PKCS5Padding.
  pose proof (Z.mod_pos_bound (zlen data) n ltac:(lia)) as Hm. set (pad := n - zlen data mod n).
  assert (Hp : 0 < pad <= n) by (unfold pad; lia). rewrite (wrap_u_id 8 pad) by (unfold in_u; lia).
  assert (Hrep : replicate (Z.to_nat pad) pad = replicate (Z.to_nat pad - 1) pad ++ [pad]).
  { rewrite <- replicate_S_end. f_equal. lia. }
  assert (Hlen : zlen (data ++ replicate (Z.to_nat pad) pad) = zlen data + pad).
  { rewrite zlen_app. unfold zlen at 2. rewrite length_replicate. lia. }
  rewrite Hlen. rewrite Hrep at 1. rewrite app_assoc.
  replace (zlen data + pad - 1) with (zlen (data ++ replicate (Z.to_nat pad - 1) pad)).
  2: { rewrite zlen_app. unfold zlen at 2. rewrite length_replicate. lia. }
  rewrite zget_middle, go_bind_ret. replace (zlen data + pad - pad) with (zlen data) by lia.
  unfold zslice. pose proof (zlen_nonneg data). rewrite bool_decide_true by lia. f_equal.
  unfold ztake, zdrop. rewrite Z.sub_0_r. cbn [Z.to_nat drop]. unfold zlen. rewrite Nat2Z.id. apply take_app_length.
Qed.

(** Decrypting what [AesEncrypt] produced gives back the data, whatever the data and for
    every key the cipher accepts, without a panic; the ciphertext is the data padded to the next
    multiple of the block size. *)
Theorem AesDecrypt_AesEncrypt data key :
  NewCipher key = true ->
  exists e, AesEncrypt data key = Ret (Some e) /\ zlen e = (zlen data / BlockSize + 1) * BlockSize /\
    AesDecrypt e key = Ret (Some data).
Proof.
  intros Hk. unfold AesEncrypt, AesDecrypt. rewrite Hk. cbn [negb].
  assert (Hkey : 16 <= zlen key) by (unfold NewCipher in Hk; lia).
  assert (Hiv : exists iv, zslice key 0 BlockSize = Ret iv).
  { unfold zslice, BlockSize. rewrite bool_decide_true by lia. by eexists. }
  destruct Hiv as [iv ->]. rewrite !go_bind_ret.
  pose proof (padding_length data BlockSize ltac:(done)) as Hlen.
  assert (Hmod : zlen (PKCS5Padding data BlockSize) mod BlockSize = 0) by (rewrite Hlen; apply Z_mod_mult).
  assert (Hc : forall f src, zlen src mod BlockSize = 0 -> CryptBlocks f key iv src = Ret (f key iv src)).
  { intros f src Hs. unfold CryptBlocks. by rewrite Hs. }
  rewrite Hc, go_bind_ret by done. eexists. split; [done|]. rewrite cbc_length by done. split; [done|].
  rewrite go_bind_ret, Hc, go_bind_ret by (by rewrite cbc_length). rewrite cbc_inverse by done.
  rewrite PKCS5_inverse by done. done.
Qed.

End Cipher.

(** A stand-in for the block cipher: the identity. *)
Lemma AesDecrypt_AesEncrypt_witness :
  exists e, AesEncrypt (fun _ _ s => s) [1; 2; 3] (replicate 16 7) = Ret (Some e) /\ zlen e = (zlen [1; 2; 3] / 16 + 1) * 16 /\
    AesDecrypt (fun _ _ s => s) e (replicate 16 7) = Ret (Some [1; 2; 3]).
Proof.
  apply (AesDecrypt_AesEncrypt (fun _ _ s => s) (fun _ _ s => s)); [reflexivity|reflexivity|reflexivity].
Defined.

End Aes.
