(* ===== verification/Buffer.v ===== *)
(** * Buffer: resizing byte slices and reading a stream into a buffer

    Models [src/tools/bytesutil/bytesutil.go] and the [ByteBuffer] of [src/tools/pool/bytes.go].
    An [io.Reader] is a parameter with the contract of its documentation. *)
From S2P Require Import Prelude.
#[local] Open Scope Z_scope.

(** ** [bytesutil] *)
Module Bytesutil.

(** A Go slice: the array from its start to its capacity, and its length. *)
Record slice := mkSlice { back : list Z; len : Z }.
Definition cap (b : slice) : Z := zlen (back b).
Definition view (b : slice) : list Z := ztake (len b) (back b).
Definition slice_wf (b : slice) : Prop := 0 <= len b <= cap b.

Definition make (n : Z) : go slice :=
  if n <? 0 then Panic else Ret (mkSlice (replicate (Z.to_nat n) 0) n).
(** [b[:n]]. *)
Definition reslice (b : slice) (n : Z) : go slice :=
  if bool_decide (0 <= n <= cap b) then Ret (mkSlice (back b) n) else Panic.
(** [copy(dst, src)]. *)
Definition copy (dst src : slice) : slice :=
  let n := Z.min (len dst) (len src) in
  mkSlice (ztake n (back src) ++ zdrop n (back dst)) (len dst).

(** [bits.Len]. *)
Definition bits_Len (x : Z) : Z := if x =? 0 then 0 else Z.log2 x + 1.
Definition roundToNearestPow2 (n : Z) : Z :=
  let pow2 := u8 (bits_Len (u64 (n - 1))) in i64 (Z.shiftl 1 pow2).

Definition ResizeWithCopyMayOverallocate (b : slice) (n : Z) : go slice :=
  if n <=? cap b then reslice b n
  else bNew ← make (roundToNearestPow2 n); reslice (copy bNew b) n.
Definition ResizeWithCopyNoOverallocate (b : slice) (n : Z) : go slice :=
  if n <=? cap b then reslice b n
  else bNew ← make n; Ret (copy bNew b).
Definition ResizeNoCopyMayOverallocate (b : slice) (n : Z) : go slice :=
  if n <=? cap b then reslice b n
  else bNew ← make (roundToNearestPow2 n); reslice bNew n.
Definition ResizeNoCopyNoOverallocate (b : slice) (n : Z) : go slice :=
  if n <=? cap b then reslice b n else make n.

(** The least power of two that is at least [n]. *)
Lemma roundToNearestPow2_spec n : 1 <= n <= 2 ^ 62 ->
  exists k, 0 <= k <= 62 /\ roundToNearestPow2 n = 2 ^ k /\ n <= 2 ^ k /\ (forall j, 0 <= j < k -> 2 ^ j < n).
Proof.
  intros Hn. unfold roundToNearestPow2. rewrite (wrap_u_id 64) by (unfold in_u; lia).
  assert (Hk : exists k, bits_Len (n - 1) = k /\ 0 <= k <= 62 /\ n <= 2 ^ k /\ (forall j, 0 <= j < k -> 2 ^ j < n)).
  { unfold bits_Len. destruct (Z.eqb_spec (n - 1) 0) as [E|E].
    - exists 0. split_and!; [done|lia|lia|lia|]. intros j Hj. lia.
    - pose proof (Z.log2_spec (n - 1) ltac:(lia)) as [H1 H2]. pose proof (Z.log2_nonneg (n - 1)).
      exists (Z.log2 (n - 1) + 1). rewrite <- Z.add_1_r in H2. split_and!; [done|lia| |lia|].
      + assert (Z.log2 (n - 1) < 62) by (apply Z.log2_lt_pow2; lia). lia.
      + intros j Hj. apply Z.le_lt_trans with (2 ^ Z.log2 (n - 1)); [apply Z.pow_le_mono_r; lia|lia]. }
  destruct Hk as (k & -> & Hk & Hle & Hmin). exists k. split; [done|]. split; [|done].
  rewrite (wrap_u_id 8) by (unfold in_u; lia). rewrite Z.shiftl_1_l.
  assert (Hp : 2 ^ k <= 2 ^ 62) by (apply Z.pow_le_mono_r; lia). pose proof (Z.pow_pos_nonneg 2 k ltac:(lia) ltac:(lia)).
  apply wrap_s_id; [lia|]. unfold in_s. lia.
Qed.

Lemma make_Ret n : 0 <= n -> make n = Ret (mkSlice (replicate (Z.to_nat n) 0) n).
Proof. intros Hn. unfold make. by rewrite (proj2 (Z.ltb_ge _ _)). Qed.

Lemma zlen_zeros {A} (x : A) n : 0 <= n -> zlen (replicate (Z.to_nat n) x) = n.
Proof. intros Hn. unfold zlen. rewrite length_replicate. lia. Qed.

Lemma ztake_all {A} (l : list A) n : zlen l <= n -> ztake n l = l.
Proof. intros Hn. apply take_ge. unfold zlen in Hn. lia. Qed.
Lemma zlen_take_in {A} (l : list A) n : 0 <= n <= zlen l -> zlen (ztake n l) = n.
Proof. intros Hn. unfold zlen, ztake in *. rewrite length_take. lia. Qed.
Lemma ztake_app_ge {A} (l k : list A) n : zlen l <= n -> ztake n (l ++ k) = l ++ ztake (n - zlen l) k.
Proof.
  intros Hn. unfold ztake, zlen in *. rewrite take_app. rewrite take_ge by lia. do 2 f_equal. lia.
Qed.
Lemma ztake_replicate {A} (x : A) n m : 0 <= n <= m ->
  ztake n (replicate (Z.to_nat m) x) = replicate (Z.to_nat n) x.
Proof. intros Hn. unfold ztake. rewrite take_replicate. f_equal. lia. Qed.

(** Copying the content of [b] to the start of fresh zeros. *)
Lemma copy_make b n m : slice_wf b -> len b <= n <= m ->
  view (mkSlice (back (copy (mkSlice (replicate (Z.to_nat m) 0) m) b)) n)
  = view b ++ replicate (Z.to_nat (n - len b)) 0 /\
  cap (copy (mkSlice (replicate (Z.to_nat m) 0) m) b) = m.
Proof.
  intros [H1 H2] Hn. unfold cap in *. unfold copy, view, cap. cbn [len back]. rewrite Z.min_r by lia.
  assert (Ht : zlen (ztake (len b) (back b)) = len b) by (apply zlen_take_in; lia).
  assert (Hd : zdrop (len b) (replicate (Z.to_nat m) 0) = replicate (Z.to_nat (m - len b)) 0).
  { unfold zdrop. rewrite drop_replicate. f_equal. lia. }
  rewrite Hd, ztake_app_ge, Ht by lia. rewrite ztake_replicate by lia. split; [done|].
  rewrite zlen_app, Ht, zlen_zeros by lia. lia.
Qed.

(** Resizing with a copy to a length that is at least the current one, within or beyond the
    capacity, never panics, gives exactly that length, keeps the content, and never shrinks the
    capacity; when it must allocate, the variant that may overallocate rounds up to the least
    power of two and the other allocates exactly the length. *)
Theorem ResizeWithCopy_spec b n :
  slice_wf b -> len b <= n <= 2 ^ 62 -> 1 <= n ->
  exists b1 b2, ResizeWithCopyMayOverallocate b n = Ret b1 /\ ResizeWithCopyNoOverallocate b n = Ret b2 /\
    (forall b', b' = b1 \/ b' = b2 -> slice_wf b' /\ len b' = n /\ cap b <= cap b' /\ view b `prefix_of` view b') /\
    (cap b < n -> cap b2 = n /\ exists k, cap b1 = 2 ^ k /\ 0 <= k /\ n <= cap b1 /\ forall j, 0 <= j < k -> 2 ^ j < n).
Proof.
  intros Hwf Hn H1. unfold ResizeWithCopyMayOverallocate, ResizeWithCopyNoOverallocate.
  destruct (Z.leb_spec n (cap b)) as [Hc|Hc].
  - unfold reslice. rewrite bool_decide_true by (destruct Hwf; lia). eexists _, _. split_and!; try done; [|lia].
    intros b' Hb. assert (b' = mkSlice (back b) n) as -> by (by destruct Hb). destruct Hwf as [Hw1 Hw2].
    unfold slice_wf, cap, view in *. cbn [len back]. split_and!; try lia.
    assert (E : ztake (len b) (back b) = ztake (len b) (ztake n (back b))).
    { unfold ztake. rewrite take_take. f_equal. lia. }
    rewrite E. exists (zdrop (len b) (ztake n (back b))). unfold ztake, zdrop. by rewrite take_drop.
  - destruct (roundToNearestPow2_spec n) as (k & Hk & Er & Hle & Hmin); [lia|]. rewrite Er.
    rewrite !make_Ret by lia. rewrite !go_bind_ret.
    destruct (copy_make b n (2 ^ k) Hwf ltac:(lia)) as [Hv1 Hc1]. destruct (copy_make b n n Hwf ltac:(lia)) as [Hv2 Hc2].
    unfold reslice. rewrite bool_decide_true by (rewrite Hc1; lia). eexists _, _. split_and!; try done.
    + intros b' [-> | ->]; (split_and!; [|done| |]).
      * unfold slice_wf, cap in *. cbn [len back]. rewrite Hc1. lia.
      * unfold cap in *. cbn [back]. lia.
      * rewrite Hv1. by apply prefix_app_r.
      * unfold slice_wf, cap in *. rewrite Hc2. cbn [len copy]. lia.
      * lia.
      * assert (Ec : copy (mkSlice (replicate (Z.to_nat n) 0) n) b = mkSlice (back (copy (mkSlice (replicate (Z.to_nat n) 0) n) b)) n)
          by done.
        rewrite Ec, Hv2. by apply prefix_app_r.
    + intros _. split; [done|]. exists k. unfold cap in *. cbn [back]. rewrite Hc1. split_and!; try done; lia.
Qed.

Lemma ResizeWithCopy_spec_witness :
  slice_wf (mkSlice [7; 8; 9] 2) /\
  exists b1 b2, ResizeWithCopyMayOverallocate (mkSlice [7; 8; 9] 2) 5 = Ret b1 /\
    ResizeWithCopyNoOverallocate (mkSlice [7; 8; 9] 2) 5 = Ret b2 /\ cap b2 = 5.
Proof.
  assert (H : slice_wf (mkSlice [7; 8; 9] 2)) by (split; discriminate). split; [exact H|].
  destruct (ResizeWithCopy_spec (mkSlice [7; 8; 9] 2) 5 H ltac:(cbn; lia) ltac:(lia)) as (b1 & b2 & E1 & E2 & _ & Hc).
  exists b1, b2. split; [exact E1|]. split; [exact E2|]. apply Hc. reflexivity.
Defined.

End Bytesutil.

(** ** [ByteBuffer] *)
Module ByteBuf.
Import Bytesutil.

Record ByteBuffer := mkBB { B : slice }.

Definition Reset (bb : ByteBuffer) : ByteBuffer := mkBB (mkSlice (back (B bb)) 0).

(** [append(b, p...)] in place when the capacity allows it; the capacity of a grown slice is at
    least its length, here equal to it. *)
Definition append (b : slice) (p : list Z) : slice :=
  let n := len b + zlen p in
  if n <=? cap b then mkSlice (view b ++ p ++ zdrop n (back b)) n else mkSlice (view b ++ p) n.

Definition Write (bb : ByteBuffer) (p : list Z) : ByteBuffer * Z := (mkBB (append (B bb) p), zlen p).

Section Read.
Context {R E : Type}.
(** [r.Read(p)] for a [p] of [n] bytes: the bytes read, the reader after it, and the error ([None]
    for nil, [Some None] for [io.EOF]). *)
Context (Read : R -> Z -> list Z * R * option (option E)).

(** The loop of [ReadFrom], from the reader, the slice [b] (with its length equal to its capacity)
    and [offset]; [fuel] bounds the number of reads. *)
Fixpoint read_loop (fuel : nat) (r : R) (b : list Z) (offset : Z) : go (option (list Z * Z * option E * R)) :=
  match fuel with
  | O => Ret None
  | S fuel =>
    let free := zlen b - offset in
    let b := if free <? offset then b ++ replicate (length b) 0 else b in
    if zlen b <? offset then Panic
    else
      let '(data, r, err) := Read r (zlen b - offset) in
      b ← zput b offset data;
      let offset := offset + zlen data in
      match err with
      | None => read_loop fuel r b offset
      | Some e => bb ← zslice b 0 offset; Ret (Some (bb, offset, e, r))
      end
  end.

(** The buffer after the call, the number of bytes read, and the error, which is nil at the end of
    the stream. *)
Definition ReadFrom (fuel : nat) (bb : ByteBuffer) (r : R) : go (option (ByteBuffer * Z * option E)) :=
  let b := B bb in
  let bLen := len b in
  b ← ResizeWithCopyMayOverallocate b (4 * 1024);
  b ← reslice b (cap b);
  res ← read_loop fuel r (back b) bLen;
  match res with
  | None => Ret None
  | Some (l, offset, e, _) => Ret (Some (mkBB (mkSlice l (zlen l)), offset - bLen, e))
  end.

(** The contract of [io.Reader]: asked for at least one byte, the reader gives at most as many as
    asked for, and after finitely many reads ends with an error; [l] is all it gives, [e] the
    error. *)
Inductive delivers : R -> list Z -> option E -> Prop :=
| delivers_intro r l e :
    (forall n d r' o, 1 <= n -> Read r n = (d, r', o) -> zlen d <= n) ->
    (forall n d r' e', 1 <= n -> Read r n = (d, r', Some e') -> l = d /\ e' = e) ->
    (forall n d r', 1 <= n -> Read r n = (d, r', None) -> d `prefix_of` l) ->
    (forall n d r' l', 1 <= n -> Read r n = (d, r', None) -> l = d ++ l' -> delivers r' l' e) ->
    delivers r l e.

(** The loop stores what it reads behind the first [offset] bytes, growing the slice whenever less
    than half of it is free, so it never asks for zero bytes. *)
Lemma read_loop_spec r l e : delivers r l e -> forall pre rest,
  1 <= zlen pre + zlen rest ->
  exists fuel r', forall fuel', (fuel <= fuel')%nat ->
    read_loop fuel' r (pre ++ rest) (zlen pre) = Ret (Some (pre ++ l, zlen (pre ++ l), e, r')).
Proof.
  intros Hd. induction Hd as [r l e Hbound Herr Hmore _ IH]. intros pre rest Hne.
  set (b := if zlen (pre ++ rest) - zlen pre <? zlen pre then (pre ++ rest) ++ replicate (length (pre ++ rest)) 0
            else pre ++ rest).
  assert (Hb : exists rest', b = pre ++ rest' /\ 1 <= zlen rest').
  { unfold b. rewrite zlen_app. pose proof (zlen_nonneg pre). pose proof (zlen_nonneg rest).
    destruct (Z.ltb_spec (zlen pre + zlen rest - zlen pre) (zlen pre)).
    - exists (rest ++ replicate (length (pre ++ rest)) 0). split; [by rewrite <- app_assoc|].
      rewrite zlen_app. unfold zlen. rewrite length_replicate, length_app. unfold zlen in *. lia.
    - exists rest. split; [done|]. lia. }
  destruct Hb as (rest' & Eb & Hrest).
  destruct (Read r (zlen rest')) as [[d r'] o] eqn:Er.
  pose proof (Hbound _ _ _ _ Hrest Er) as Hlen.
  assert (Hput : zput (pre ++ rest') (zlen pre) d = Ret (pre ++ d ++ zdrop (zlen d) rest')).
  { apply (zput_at _ pre (ztake (zlen d) rest') d (zdrop (zlen d) rest')); [|done|].
    - unfold ztake, zdrop. by rewrite take_drop.
    - pose proof (zlen_nonneg d). unfold zlen, ztake in *. rewrite length_take. lia. }
  assert (Hstep : forall fuel, read_loop (S fuel) r (pre ++ rest) (zlen pre) =
    match o with
    | None => read_loop fuel r' (pre ++ d ++ zdrop (zlen d) rest') (zlen pre + zlen d)
    | Some e' => bb ← zslice (pre ++ d ++ zdrop (zlen d) rest') 0 (zlen pre + zlen d);
                 Ret (Some (bb, zlen pre + zlen d, e', r'))
    end).
  { intros fuel. cbn [read_loop]. fold b. rewrite Eb, zlen_app.
    rewrite (proj2 (Z.ltb_ge _ _)) by (pose proof (zlen_nonneg rest'); lia).
    replace (zlen pre + zlen rest' - zlen pre) with (zlen rest') by lia. rewrite Er, Hput, go_bind_ret. done. }
  destruct o as [e'|].
  - destruct (Herr _ _ _ _ Hrest Er) as [-> ->]. exists 1%nat, r'. intros [|fuel'] Hf; [lia|]. rewrite Hstep.
    rewrite app_assoc, <- zlen_app. unfold zslice. pose proof (zlen_nonneg (pre ++ d)).
    rewrite bool_decide_true by (rewrite (zlen_app (pre ++ d)); pose proof (zlen_nonneg (zdrop (zlen d) rest')); lia).
    rewrite go_bind_ret. unfold ztake. rewrite Z.sub_0_r. change (zdrop 0 ?x) with x.
    replace (Z.to_nat (zlen (pre ++ d))) with (length (pre ++ d)) by (unfold zlen; lia). by rewrite take_app_length.
  - destruct (Hmore _ _ _ Hrest Er) as [l' ->].
    destruct (IH _ _ _ _ Hrest Er eq_refl (pre ++ d) (zdrop (zlen d) rest')) as (fuel & r2 & Hrun).
    { rewrite zlen_app. pose proof (zlen_nonneg pre). pose proof (zlen_nonneg d). unfold zlen, zdrop in *.
      rewrite length_drop. lia. }
    exists (S fuel), r2. intros [|fuel'] Hf; [lia|]. rewrite Hstep, <- zlen_app, app_assoc, Hrun by lia.
    by rewrite <- app_assoc.
Qed.

(** The slice the loop starts with: the content of the buffer and room to read into. *)
Lemma resized (b : slice) : slice_wf b ->
  exists b1 b2 rest, ResizeWithCopyMayOverallocate b (4 * 1024) = Ret b1 /\ reslice b1 (cap b1) = Ret b2 /\
    back b2 = view b ++ rest /\ 1 <= zlen (view b) + zlen rest.
Proof.
  intros Hwf. pose proof Hwf as [H1 H2]. unfold ResizeWithCopyMayOverallocate.
  destruct (Z.leb_spec (4 * 1024) (cap b)) as [Hc|Hc].
  - unfold reslice. rewrite bool_decide_true by lia. eexists _, _, (zdrop (len b) (back b)). split; [done|].
    unfold cap in *. cbn [back]. rewrite bool_decide_true by lia. split; [done|]. cbn [back]. unfold view.
    split; [unfold ztake, zdrop; by rewrite take_drop|].
    rewrite <- zlen_app. unfold ztake, zdrop. rewrite take_drop. lia.
  - change (roundToNearestPow2 (4 * 1024)) with 4096. rewrite make_Ret, go_bind_ret by lia.
    destruct (copy_make b 4096 4096 Hwf ltac:(lia)) as [Hv Hcap]. unfold reslice at 1.
    rewrite bool_decide_true by (rewrite Hcap; lia).
    eexists _, _, (replicate (Z.to_nat (4096 - len b)) 0). split; [done|]. unfold reslice, cap in *. cbn [back].
    rewrite Hcap. rewrite bool_decide_true by lia. split; [done|]. cbn [back].
    split; [rewrite <- Hv; unfold view; cbn [len back]; rewrite ztake_all by lia; done|].
    rewrite zlen_zeros by lia. unfold view. rewrite zlen_take_in by (unfold cap; lia). lia.
Qed.

(** [ReadFrom] terminates on every reader that meets its contract and appends to the content
    of the buffer exactly what the reader delivers, however it splits it: it reports the number
    of bytes, and nil at the end of the stream or the reader's error, without losing the bytes
    read before it. *)
Theorem ReadFrom_appends bb r l e :
  slice_wf (B bb) -> delivers r l e ->
  exists fuel bb', slice_wf (B bb') /\ view (B bb') = view (B bb) ++ l /\
    forall fuel', (fuel <= fuel')%nat -> ReadFrom fuel' bb r = Ret (Some (bb', zlen l, e)).
Proof.
  intros Hwf Hd. destruct (resized (B bb) Hwf) as (b1 & b2 & rest & E1 & E2 & Eb & Hne).
  destruct (read_loop_spec r l e Hd (view (B bb)) rest Hne) as (fuel & r' & Hrun).
  set (out := view (B bb) ++ l) in *. exists fuel, (mkBB (mkSlice out (zlen out))).
  split; [unfold slice_wf, cap; cbn; pose proof (zlen_nonneg out); lia|].
  split; [unfold view; cbn [B len back]; by rewrite ztake_all|].
  intros fuel' Hf. unfold ReadFrom. rewrite E1, go_bind_ret, E2, go_bind_ret, Eb.
  assert (Hlen : len (B bb) = zlen (view (B bb))).
  { symmetry. unfold view. apply zlen_take_in. destruct Hwf. unfold cap in *. lia. }
  rewrite Hlen, Hrun, go_bind_ret by done. do 2 f_equal. unfold out. rewrite zlen_app. do 2 f_equal. lia.
Qed.
End Read.

(** A reader over a list of chunks: a chunk that does not fit is delivered in parts. *)
Definition chunk_read (r : list (list Z)) (n : Z) : list Z * list (list Z) * option (option unit) :=
  match r with
  | [] => ([], [], Some None)
  | c :: r => if zlen c <=? n then (c, r, None) else (ztake n c, zdrop n c :: r, None)
  end.

Lemma chunk_read_delivers m : forall r, (length r + length (concat r) <= m)%nat -> delivers chunk_read r (concat r) None.
Proof.
  induction m as [|m IH]; intros [|c r] Hm; cbn in Hm; try lia.
  1,2: constructor; intros; cbn in *; simplify_eq; try done; unfold zlen; cbn; lia.
  rewrite length_app in Hm.
  assert (Hcut : forall n, ztake n c ++ zdrop n c = c) by (intros n; unfold ztake, zdrop; by rewrite take_drop).
  assert (Hz : forall n, 1 <= n -> zlen c > n -> (length (ztake n c) = Z.to_nat n /\
    length (zdrop n c) < length c)%nat).
  { intros n Hn Hc. unfold ztake, zdrop, zlen in *. rewrite length_take, length_drop. lia. }
  constructor; cbn [chunk_read concat]; intros n d r'; destruct (Z.leb_spec (zlen c) n) as [Hc|Hc]; intros; simplify_eq.
  - done.
  - destruct (Hz n ltac:(done) ltac:(lia)) as [Hl _]. unfold zlen. lia.
  - by apply prefix_app_r.
  - rewrite <- (Hcut n) at 2. rewrite <- app_assoc. by apply prefix_app_r.
  - apply IH. lia.
  - match goal with H : c ++ _ = _ ++ _ |- _ => rewrite <- (Hcut n) in H at 1; rewrite <- app_assoc in H;
      apply app_inv_head in H as <- end.
    destruct (Hz n ltac:(done) ltac:(lia)) as [_ Hl]. apply (IH (zdrop n c :: r)). cbn. rewrite length_app. lia.
Qed.

Lemma ReadFrom_appends_witness :
  exists fuel bb', slice_wf (B bb') /\ view (B bb') = [1; 2] ++ [7; 8; 9] /\
    forall fuel', (fuel <= fuel')%nat ->
      ReadFrom chunk_read fuel' (mkBB (mkSlice [1; 2; 0] 2)) [[7; 8]; []; [9]] = Ret (Some (bb', 3, None)).
Proof.
  apply (ReadFrom_appends chunk_read (mkBB (mkSlice [1; 2; 0] 2)) [[7; 8]; []; [9]] [7; 8; 9] None).
  - split; discriminate.
  - apply (chunk_read_delivers 6 [[7; 8]; []; [9]]). cbn. lia.
Defined.

End ByteBuf.
