(* ===== verification/StmtConvert.v ===== *)
(** * StmtConvert: blocks as bind values

    Models [BlockConvert] of [src/controller/ws/stmt/convert.go]: the block of a binary bind
    message becomes columns of typed bind values, and the column types learn the length of the
    longest value.  [BlockConvert_ReadBlock] relates it to the reader of [RawBlock]. *)
From S2P Require Import Prelude Common Utf8 RawBlock Stmt2.
#[local] Open Scope Z_scope.

Module Convert.

(** ** Items *)

Definition rawConvertBool (m : mem) (pStart row : Z) : go value :=
  b ← load_u 1 m (AddPointer pStart (row * 1)); Ret (TaosBool (negb (b =? 0))).
Definition rawConvertTinyint (m : mem) (pStart row : Z) : go value :=
  TaosTinyint <$> load_s 1 m (AddPointer pStart (row * 1)).
Definition rawConvertSmallint (m : mem) (pStart row : Z) : go value :=
  TaosSmallint <$> load_s 2 m (AddPointer pStart (row * 2)).
Definition rawConvertInt (m : mem) (pStart row : Z) : go value :=
  TaosInt <$> load_s 4 m (AddPointer pStart (row * 4)).
Definition rawConvertBigint (m : mem) (pStart row : Z) : go value :=
  TaosBigint <$> load_s 8 m (AddPointer pStart (row * 8)).
Definition rawConvertUTinyint (m : mem) (pStart row : Z) : go value :=
  TaosUTinyint <$> load_u 1 m (AddPointer pStart (row * 1)).
Definition rawConvertUSmallint (m : mem) (pStart row : Z) : go value :=
  TaosUSmallint <$> load_u 2 m (AddPointer pStart (row * 2)).
Definition rawConvertUInt (m : mem) (pStart row : Z) : go value :=
  TaosUInt <$> load_u 4 m (AddPointer pStart (row * 4)).
Definition rawConvertUBigint (m : mem) (pStart row : Z) : go value :=
  TaosUBigint <$> load_u 8 m (AddPointer pStart (row * 8)).
Definition rawConvertFloat (m : mem) (pStart row : Z) : go value :=
  TaosFloat <$> load_u 4 m (AddPointer pStart (row * 4)).
Definition rawConvertDouble (m : mem) (pStart row : Z) : go value :=
  TaosDouble <$> load_u 8 m (AddPointer pStart (row * 8)).
Definition rawConvertTime (m : mem) (pStart row arg : Z) : go value :=
  ts ← load_s 8 m (AddPointer pStart (row * 8));
  t ← TimestampConvertToTime ts arg; Ret (TaosTimestamp t arg).

(** The nil slice is [None]. *)
Definition getBytesFromPointer (m : mem) (pHeader pStart row : Z) : go (option (list Z) * Z) :=
  offset ← load_s 4 m (AddPointer pHeader (row * 4));
  if offset =? -1 then Ret (None, 0)
  else
    let currentRow := AddPointer pStart offset in
    clen ← load_u 2 m currentRow;
    let currentRow := AddPointer currentRow 2 in
    binaryVal ← for_upto clen (fun index binaryVal =>
      b ← load_u 1 m (AddPointer currentRow index); zset binaryVal index b)
      (replicate (Z.to_nat clen) 0);
    Ret (Some binaryVal, clen).

Definition rawConvertBytes (tag : list Z -> value) (m : mem) (pHeader pStart row : Z) : go (value * Z) :=
  r ← getBytesFromPointer m pHeader pStart row;
  match fst r with None => Ret (VNil, 0) | Some b => Ret (tag b, snd r) end.

Definition rawConvertBinary := rawConvertBytes TaosBinary.
Definition rawConvertVarBinary := rawConvertBytes TaosVarBinary.
Definition rawConvertGeometry := rawConvertBytes TaosGeometry.
Definition rawConvertJson := rawConvertBytes TaosJson.

(** The byte index [index*4] is computed in [uint16]. *)
Definition rawConvertNchar (m : mem) (pHeader pStart row : Z) : go (value * Z) :=
  offset ← load_s 4 m (AddPointer pHeader (row * 4));
  if offset =? -1 then Ret (VNil, 0)
  else
    let currentRow := AddPointer pStart offset in
    l ← load_u 2 m currentRow;
    let clen := l / 4 in
    let currentRow := AddPointer currentRow 2 in
    binaryVal ← for_upto clen (fun index binaryVal =>
      r ← load_s 4 m (AddPointer currentRow (u16 (index * 4))); zset binaryVal index r)
      (replicate (Z.to_nat clen) 0);
    Ret (TaosNchar (string_of_runes binaryVal), clen * 4).

(** ** The maps of conversions; a missing key gives the nil function *)

Definition rawConvertFuncMap (t : Z) : option (mem -> Z -> Z -> Z -> go value) :=
  if t =? TSDB_DATA_TYPE_BOOL then Some (fun m p r _ => rawConvertBool m p r)
  else if t =? TSDB_DATA_TYPE_TINYINT then Some (fun m p r _ => rawConvertTinyint m p r)
  else if t =? TSDB_DATA_TYPE_SMALLINT then Some (fun m p r _ => rawConvertSmallint m p r)
  else if t =? TSDB_DATA_TYPE_INT then Some (fun m p r _ => rawConvertInt m p r)
  else if t =? TSDB_DATA_TYPE_BIGINT then Some (fun m p r _ => rawConvertBigint m p r)
  else if t =? TSDB_DATA_TYPE_UTINYINT then Some (fun m p r _ => rawConvertUTinyint m p r)
  else if t =? TSDB_DATA_TYPE_USMALLINT then Some (fun m p r _ => rawConvertUSmallint m p r)
  else if t =? TSDB_DATA_TYPE_UINT then Some (fun m p r _ => rawConvertUInt m p r)
  else if t =? TSDB_DATA_TYPE_UBIGINT then Some (fun m p r _ => rawConvertUBigint m p r)
  else if t =? TSDB_DATA_TYPE_FLOAT then Some (fun m p r _ => rawConvertFloat m p r)
  else if t =? TSDB_DATA_TYPE_DOUBLE then Some (fun m p r _ => rawConvertDouble m p r)
  else if t =? TSDB_DATA_TYPE_TIMESTAMP then Some rawConvertTime
  else None.

Definition rawConvertVarDataMap (t : Z) : option (mem -> Z -> Z -> Z -> go (value * Z)) :=
  if t =? TSDB_DATA_TYPE_BINARY then Some rawConvertBinary
  else if t =? TSDB_DATA_TYPE_NCHAR then Some rawConvertNchar
  else if t =? TSDB_DATA_TYPE_JSON then Some rawConvertJson
  else if t =? TSDB_DATA_TYPE_VARBINARY then Some rawConvertVarBinary
  else if t =? TSDB_DATA_TYPE_GEOMETRY then Some rawConvertGeometry
  else None.

(** ** [BlockConvert] *)

(** [fieldTypes[column].MaxLen] grows to [length]; [None] is the nil slice. *)
Definition grow (fieldTypes : option (list ColumnType)) (column length : Z) : go (option (list ColumnType)) :=
  match fieldTypes with
  | None => Ret None
  | Some fts =>
    ft ← zget fts column;
    if length >? ct_MaxLen ft then Some <$> zset fts column (mkColumnType (ct_Type ft) length) else Ret (Some fts)
  end.

Definition convert_column (m : mem) (block blockSize : Z) (fields : list StmtField) (column : Z)
    (st : list (list value) * option (list ColumnType) * Z)
  : go (list (list value) * option (list ColumnType) * Z) :=
  let '(r, fieldTypes, pHeader) := st in
  let colCount := zlen fields in
  if blockSize <? 0 then Panic
  else
    r ← zset r column (replicate (Z.to_nat blockSize) VNil);
    colLength ← load_s 4 m (AddPointer block (RawBlockGetColumnLengthOffset colCount + column * Int32Size));
    f ← zget fields column;
    let put row v r := cells ← zget r column; cells ← zset cells row v; zset r column cells in
    if IsVarDataType (u8 (sf_FieldType f)) then
      let pStart := AddPointer pHeader (4 * blockSize) in
      st ← for_upto blockSize (fun row st =>
        vl ← match rawConvertVarDataMap (sf_FieldType f) with
             | Some g => g m pHeader pStart row | None => Panic end;
        r ← put row (fst vl) (fst st);
        fts ← grow (snd st) column (snd vl);
        Ret (r, fts)) (r, fieldTypes);
      Ret (st, AddPointer pStart colLength)
    else
      let pStart := AddPointer pHeader (BitmapLen blockSize) in
      r ← for_upto blockSize (fun row r =>
        isNull ← ItemIsNull m pHeader row;
        if (isNull : bool) then put row VNil r
        else
          v ← match rawConvertFuncMap (sf_FieldType f) with
              | Some g => g m pStart row (sf_Precision f) | None => Panic end;
          put row v r) r;
      Ret (r, fieldTypes, AddPointer pStart colLength).

Definition BlockConvert (m : mem) (block blockSize : Z) (fields : list StmtField)
    (fieldTypes : option (list ColumnType)) : go (list (list value) * option (list ColumnType)) :=
  let colCount := zlen fields in
  let r := replicate (Z.to_nat colCount) [] in
  let pHeader := AddPointer block (RawBlockGetColDataOffset colCount) in
  st ← for_upto colCount (convert_column m block blockSize fields) (r, fieldTypes, pHeader);
  Ret (fst st).

(** ** What it computes *)

(** The bind value of type [t] for a value of the block reader. *)
Definition tag (t prec : Z) (v : value) : value :=
  match v with
  | VBool b => TaosBool b
  | VInt8 z => TaosTinyint z | VInt16 z => TaosSmallint z | VInt32 z => TaosInt z | VInt64 z => TaosBigint z
  | VUint8 z => TaosUTinyint z | VUint16 z => TaosUSmallint z | VUint32 z => TaosUInt z | VUint64 z => TaosUBigint z
  | VFloat32 z => TaosFloat z | VFloat64 z => TaosDouble z
  | VTime x => TaosTimestamp x prec
  | VString s => if t =? TSDB_DATA_TYPE_BINARY then TaosBinary s else TaosNchar s
  | VBytes s => if t =? TSDB_DATA_TYPE_JSON then TaosJson s
                else if t =? TSDB_DATA_TYPE_VARBINARY then TaosVarBinary s else TaosGeometry s
  | v => v
  end.

(** Filling a slice by a loop that computes every element. *)
Lemma fill_loop (f : Z -> go Z) (l : list Z) :
  (forall i x, l !! i = Some x -> f (Z.of_nat i) = Ret x) ->
  for_upto (zlen l) (fun i acc => b ← f i; zset acc i b) (replicate (length l) 0) = Ret l.
Proof.
  intros Hf.
  destruct (for_upto_inv (fun i acc => acc = take (Z.to_nat i) l ++ replicate (length l - Z.to_nat i) 0)
    (fun i acc => b ← f i; zset acc i b) (zlen l) (replicate (length l) 0)) as (s & -> & ->).
  - apply zlen_nonneg.
  - by rewrite Nat.sub_0_r.
  - intros i acc Hi ->. unfold zlen in Hi.
    destruct (lookup_lt_is_Some_2 l (Z.to_nat i) ltac:(lia)) as [x Hx].
    pose proof (Hf _ _ Hx) as Hfx. rewrite Z2Nat.id in Hfx by lia. rewrite Hfx. cbn [mbind go_mbind].
    assert (length (take (Z.to_nat i) l) = Z.to_nat i) by (rewrite length_take; lia).
    rewrite zset_in by (rewrite zlen_app; unfold zlen; rewrite length_replicate; lia).
    eexists. split; [done|].
    rewrite insert_app_r_alt by lia. replace (Z.to_nat i - length (take (Z.to_nat i) l))%nat with 0%nat by lia.
    destruct (length l - Z.to_nat i)%nat as [|k] eqn:E; [lia|].
    replace (Z.to_nat (i + 1)) with (S (Z.to_nat i)) by lia.
    rewrite (take_S_r _ _ _ Hx), <- app_assoc. cbn.
    by replace (length l - S (Z.to_nat i))%nat with k by lia.
  - unfold zlen. rewrite Nat2Z.id, Nat.sub_diag, firstn_all, app_nil_r. done.
Qed.

Lemma convert_load_bytes m p n bs :
  zlen m < 2 ^ 64 -> load m p n = Ret bs -> 0 <= n ->
  for_upto n (fun i acc => b ← load_u 1 m (AddPointer p i); zset acc i b) (replicate (Z.to_nat n) 0) = Ret bs.
Proof.
  intros Hm E Hn. unfold load in E. case_bool_decide as Hb; [|discriminate]. injection E as <-.
  set (l := ztake n (zdrop p m)). assert (Hl : zlen l = n).
  { unfold l, ztake, zdrop, zlen in *. rewrite length_take, length_drop. lia. }
  rewrite <- Hl. replace (Z.to_nat (zlen l)) with (length l) by (unfold zlen; lia).
  apply fill_loop. intros i x Hx. apply lookup_lt_Some in Hx as Hi. unfold zlen in Hl, Hb, Hm.
  rewrite AddPointer_small by lia. unfold load_u, load.
  rewrite bool_decide_eq_true_2 by (unfold zlen; cbn; lia).
  unfold l, ztake, zdrop in Hx. rewrite lookup_take_lt, lookup_drop in Hx by (unfold l, ztake, zdrop in Hi; rewrite length_take in Hi; lia).
  unfold zdrop, ztake. replace (Z.to_nat (p + Z.of_nat i)) with (Z.to_nat p + i)%nat by lia.
  rewrite (drop_S _ _ _ Hx). change (Z.to_nat (Z.of_nat 1)) with 1%nat. cbn [take fmap go_fmap le_val]. by rewrite Z.mul_0_r, Z.add_0_r.
Qed.

(** An item the reader reads is converted to its tagged value. *)
Lemma convert_fixed m p row t prec v :
  IsVarDataType t = false ->
  call_fixed (rawConvertFuncTable t) m p row (prec, None) = Ret v ->
  match rawConvertFuncMap t with Some g => g m p row prec | None => Panic end = Ret (tag t prec v).
Proof.
  intros _. unfold rawConvertFuncTable, rawConvertFuncMap, call_fixed.
  repeat match goal with |- context [if t =? ?c then _ else _] => destruct (t =? c) end; try done.
  all: cbn; unfold RawBlock.rawConvertBool, rawConvertBool; intros E.
  all: first
    [ apply go_bind_Ret_inv in E as (b & Eb & [= <-]); rewrite Eb; done
    | apply go_fmap_Ret_inv in E as (b & Eb & ->);
      first [ unfold rawConvertTinyint, rawConvertSmallint, rawConvertInt, rawConvertBigint, rawConvertUTinyint,
                rawConvertUSmallint, rawConvertUInt, rawConvertUBigint, rawConvertFloat, rawConvertDouble ];
      unfold Int8Size, Int16Size, Int32Size, Int64Size, UInt8Size, UInt16Size, UInt32Size, UInt64Size,
        Float32Size, Float64Size in Eb; rewrite Eb; done
    | idtac ].
  apply go_bind_Ret_inv in E as (ts & Ets & (x & Ex & ->)%go_fmap_Ret_inv).
  unfold rawConvertTime. unfold Int64Size in Ets. rewrite Ets. cbn. rewrite Ex. done.
Qed.

Lemma getBytes_spec m h p row b :
  zlen m < 2 ^ 64 -> is_bytes m -> rawGetBytes m h p row = Ret b ->
  exists n, getBytesFromPointer m h p row = Ret (b, n) /\ (b = None -> n = 0).
Proof.
  intros Hm Hbs. unfold rawGetBytes, getBytesFromPointer. intros (off & Eo & E)%go_bind_Ret_inv. rewrite Eo.
  cbn [mbind go_mbind]. destruct (off =? -1).
  { injection E as <-. by exists 0. }
  apply go_bind_Ret_inv in E as (clen & El & E). rewrite El. cbn [mbind go_mbind].
  assert (Hc : 0 <= clen).
  { unfold load_u, load in El. case_bool_decide; [|discriminate]. injection El as <-.
    apply le_val_nonneg. by apply Forall_take, Forall_drop. }
  destruct (clen =? 0) eqn:E0.
  - apply Z.eqb_eq in E0 as ->. injection E as <-. by exists 0.
  - apply go_fmap_Ret_inv in E as (bs & Eb & ->). unfold Copy in Eb.
    rewrite (convert_load_bytes _ _ _ _ Hm Eb Hc). cbn. by exists clen.
Qed.

Lemma convert_var m h p row t prec v :
  zlen m < 2 ^ 64 -> is_bytes m ->
  call_var (rawConvertVarDataTable t) m h p row = Ret v ->
  exists n, match rawConvertVarDataMap t with Some g => g m h p row | None => Panic end = Ret (tag t prec v, n).
Proof.
  intros Hm Hb. unfold rawConvertVarDataTable, rawConvertVarDataMap, call_var.
  destruct (t =? TSDB_DATA_TYPE_BINARY) eqn:E1; [|destruct (t =? TSDB_DATA_TYPE_NCHAR) eqn:E2;
    [|destruct (t =? TSDB_DATA_TYPE_JSON) eqn:E3; [|destruct (t =? TSDB_DATA_TYPE_VARBINARY) eqn:E4;
      [|destruct (t =? TSDB_DATA_TYPE_GEOMETRY) eqn:E5; [|done]]]]].
  2: { unfold RawBlock.rawConvertNchar, rawConvertNchar. intros (off & Eo & E)%go_bind_Ret_inv. rewrite Eo.
       cbn [mbind go_mbind]. destruct (off =? -1); [injection E as <-; by exists 0|].
       apply go_bind_Ret_inv in E as (l & El & E). rewrite El. cbn [mbind go_mbind].
       destruct (l / 4 =? 0) eqn:E0.
       - apply Z.eqb_eq in E0 as ->. injection E as <-. cbn [tag]. rewrite E1. eexists. done.
       - apply go_bind_Ret_inv in E as (rs & -> & [= <-]). cbn [tag mbind go_mbind]. rewrite E1. by eexists. }
  all: unfold RawBlock.rawConvertBinary, RawBlock.rawConvertJson, RawBlock.rawConvertGeometry, RawBlock.rawConvertVarBinary;
    intros (b & Eb & E)%go_bind_Ret_inv;
    destruct (getBytes_spec _ _ _ _ _ Hm Hb Eb) as (n & Eg & Hn);
    unfold rawConvertBinary, rawConvertJson, rawConvertGeometry, rawConvertVarBinary, rawConvertBytes;
    rewrite Eg; cbn [mbind go_mbind fst snd]; destruct b as [b|]; injection E as <-; cbn [tag];
    rewrite ?E1, ?E3, ?E4; by eexists.
Qed.

(** The column [c] of [r] when the rows before [j] have the values [vs]. *)
Definition part_column (r : list (list value)) (c : nat) (vs : list value) (j : nat) : list (list value) :=
  <[c := take j vs ++ replicate (length vs - j) VNil]> r.

Lemma put_step r c vs j v :
  (c < length r)%nat -> vs !! j = Some v ->
  (cells ← zget (part_column r c vs j) (Z.of_nat c); cells ← zset cells (Z.of_nat j) v;
   zset (part_column r c vs j) (Z.of_nat c) cells) = Ret (part_column r c vs (S j)).
Proof.
  intros Hc Hv. apply lookup_lt_Some in Hv as Hj. unfold part_column.
  assert (Ht : length (take j vs) = j) by (rewrite length_take; lia).
  erewrite zget_lookup by (by apply list_lookup_insert_eq). cbn [mbind go_mbind].
  rewrite zset_in by (unfold zlen; rewrite length_app, length_replicate; lia). cbn [mbind go_mbind].
  rewrite zset_in by (unfold zlen; rewrite length_insert; lia).
  rewrite !Nat2Z.id, list_insert_insert_eq. do 2 f_equal.
  rewrite insert_app_r_alt, Ht, Nat.sub_diag by lia.
  destruct (length vs - j)%nat as [|k] eqn:E; [lia|]. rewrite (take_S_r _ _ _ Hv), <- app_assoc. cbn.
  by replace (length vs - S j)%nat with k by lia.
Qed.

Definition fts_ok (n : nat) (fts : option (list ColumnType)) : Prop :=
  match fts with None => True | Some l => length l = n end.

Lemma grow_ok n c len fts : fts_ok n fts -> (c < n)%nat -> exists fts', grow fts (Z.of_nat c) len = Ret fts' /\ fts_ok n fts'.
Proof.
  destruct fts as [l|]; cbn; [|by exists None]. intros Hl Hc.
  destruct (lookup_lt_is_Some_2 l c ltac:(lia)) as [ft Hft]. rewrite (zget_lookup _ _ _ Hft). cbn [mbind go_mbind].
  destruct (len >? ct_MaxLen ft); [|by exists (Some l)].
  rewrite zset_in by (unfold zlen; lia). eexists. split; [done|]. cbn. by rewrite length_insert.
Qed.

(** One column, given that the reader reads it. *)
Lemma convert_column_spec m block (fields : list StmtField) f (r : list (list value)) fts p colLength (c n : nat) (vs : list value) :
  zlen m < 2 ^ 64 -> is_bytes m -> length r = length fields -> fts_ok (length fields) fts ->
  fields !! c = Some f -> in_s 8 (sf_FieldType f) -> length vs = n ->
  load_s 4 m (AddPointer block (RawBlockGetColumnLengthOffset (zlen fields) + Z.of_nat c * Int32Size)) = Ret colLength ->
  table_ok (u8 (sf_FieldType f)) = true ->
  (forall row v, vs !! row = Some v ->
     item m (sf_Precision f, None) (Z.of_nat n) (u8 (sf_FieldType f)) p (Z.of_nat row) = Ret v) ->
  exists fts',
    convert_column m block (Z.of_nat n) fields (Z.of_nat c) (r, fts, p) =
    Ret (<[c := tag (sf_FieldType f) (sf_Precision f) <$> vs]> r, fts',
         AddPointer (data_start (Z.of_nat n) (u8 (sf_FieldType f)) p) colLength) /\
    fts_ok (length fields) fts'.
Proof.
  intros Hm Hb Hr Hfts Hf Ht8 Hn Hlen Ht Hit. set (t := sf_FieldType f) in *.
  assert (Hc : (c < length r)%nat) by (apply lookup_lt_Some in Hf; lia).
  assert (Et : u8 t = t).
  { assert (Hs : u8 t < 21) by (unfold table_ok in Ht; destruct (IsVarDataType _); apply Z.ltb_lt in Ht; lia).
    clear -Hs Ht8. unfold in_s, wrap_u in *. change (2 ^ (8 - 1)) with 128 in *. change (2 ^ 8) with 256 in *. div_lia. }
  rewrite Et in Ht, Hit |- *. set (tvs := tag t (sf_Precision f) <$> vs).
  assert (Hl : length tvs = n) by (by unfold tvs; rewrite length_fmap).
  assert (E0 : <[c := replicate n VNil]> r = part_column r c tvs 0).
  { unfold part_column. by rewrite Nat.sub_0_r, Hl. }
  assert (E1 : part_column r c tvs n = <[c := tvs]> r).
  { unfold part_column. by rewrite Hl, Nat.sub_diag, app_nil_r, take_ge by lia. }
  unfold convert_column. rewrite (proj2 (Z.ltb_ge _ _)), zset_in by (unfold zlen; lia).
  cbn [mbind go_mbind]. rewrite !Nat2Z.id, Hlen. cbn [mbind go_mbind].
  rewrite (zget_lookup _ _ _ Hf). cbn [mbind go_mbind]. rewrite E0. fold t. rewrite Et.
  unfold item, data_start in *. destruct (IsVarDataType t) eqn:Ev.
  - edestruct (for_upto_inv (fun j st => fst st = part_column r c tvs (Z.to_nat j) /\ fts_ok (length fields) (snd st)))
      as ([r' fts'] & E & Er' & Hf'); [| |intros j [r1 fts1] Hj [Hr1 Hf1]|rewrite E].
    + lia.
    + by cbn.
    + destruct (lookup_lt_is_Some_2 vs (Z.to_nat j) ltac:(lia)) as [v Hv]. cbn [fst snd] in *. subst r1.
      pose proof (Hit _ _ Hv) as Hc1. apply (convert_var _ _ _ _ _ (sf_Precision f)) in Hc1 as (len & Hc1); [|done..].
      rewrite Z2Nat.id in Hc1 by lia. unfold Int32Size in Hc1. rewrite Hc1. cbn [mbind go_mbind fst snd].
      assert (Htv : tvs !! Z.to_nat j = Some (tag t (sf_Precision f) v)).
      { unfold tvs. by rewrite list_lookup_fmap, Hv. }
      pose proof (put_step r c tvs _ _ Hc Htv) as Hp. rewrite Z2Nat.id in Hp by lia. rewrite Hp. cbn [mbind go_mbind].
      destruct (grow_ok (length fields) c len fts1 Hf1 ltac:(lia)) as (fts2 & -> & Hf2). cbn.
      eexists. split; [done|]. split; [|done]. cbn. f_equal. lia.
    + cbn in Er', Hf'. rewrite Nat2Z.id in Er'. subst r'. exists fts'. rewrite E1. done.
  - edestruct (for_upto_inv (fun j r' => r' = part_column r c tvs (Z.to_nat j)))
      as (r' & E & Er'); [| |intros j r1 Hj ->|rewrite E].
    + lia.
    + done.
    + destruct (lookup_lt_is_Some_2 vs (Z.to_nat j) ltac:(lia)) as [v Hv].
      pose proof (Hit _ _ Hv) as Hc1. rewrite Z2Nat.id in Hc1 by lia.
      apply go_bind_Ret_inv in Hc1 as (b & -> & Hc1). cbn [mbind go_mbind].
      assert (Htv : tvs !! Z.to_nat j = Some (tag t (sf_Precision f) v)).
      { unfold tvs. by rewrite list_lookup_fmap, Hv. }
      pose proof (put_step r c tvs _ _ Hc Htv) as Hp. rewrite Z2Nat.id in Hp by lia.
      replace (Z.to_nat (j + 1)) with (S (Z.to_nat j)) by lia.
      destruct b.
      * injection Hc1 as <-. eexists. split; [exact Hp|done].
      * apply convert_fixed in Hc1; [|done]. rewrite Hc1. cbn [mbind go_mbind]. eexists. split; [exact Hp|done].
    + rewrite Nat2Z.id in Er'. subst r'. exists fts. rewrite E1. done.
Qed.

(** The column loop, from any column on. *)
Lemma convert_columns m block (n : nat) prec fields0 fields fts p r cols :
  zlen m < 2 ^ 64 -> is_bytes m ->
  Forall (fun f => in_s 8 (sf_FieldType f) /\ sf_Precision f = prec) fields ->
  length r = length (fields0 ++ fields) -> fts_ok (length (fields0 ++ fields)) fts ->
  cols_at m block n (length (fields0 ++ fields)) (prec, None) (zlen fields0)
    ((fun f => u8 (sf_FieldType f)) <$> fields) p cols ->
  exists fts' p', for_loop (length fields) (zlen fields0) (convert_column m block (Z.of_nat n) (fields0 ++ fields))
    (r, fts, p) =
  Ret (take (length fields0) r ++ zip_with (fun f vs => tag (sf_FieldType f) prec <$> vs) fields cols, fts', p').
Proof.
  intros Hm Hb HF. revert fields0 fts p r cols.
  induction HF as [|f fields [H8 Hp] HF IH]; intros fields0 fts p r cols Hr Hfts H; cbn [fmap list_fmap] in H.
  - inversion H; subst. exists fts, p. cbn. rewrite app_nil_r in *. by rewrite take_ge by lia.
  - inversion H as [|c t' tys' p' colLength vs cols' Hlen Ht Hn Hit Hrest]; subst.
    cbn [for_loop length].
    destruct (convert_column_spec m block (fields0 ++ f :: fields) f r fts p colLength (length fields0) (length vs) vs
      Hm Hb Hr Hfts) as (fts1 & E1 & Hf1); try done.
    { by apply list_lookup_middle. }
    change (zlen fields0) with (Z.of_nat (length fields0)). rewrite E1. cbn [mbind go_mbind].
    set (tvs := tag (sf_FieldType f) (sf_Precision f) <$> vs) in *.
    destruct (IH (fields0 ++ [f]) fts1 (AddPointer (data_start (Z.of_nat (length vs)) (u8 (sf_FieldType f)) p) colLength)
      (<[length fields0 := tvs]> r) cols') as (fts' & p' & E).
    + rewrite length_insert, <- app_assoc. done.
    + by rewrite <- app_assoc.
    + rewrite <- app_assoc, zlen_app. exact Hrest.
    + exists fts', p'. rewrite <- app_assoc, zlen_app in E. cbn [app] in E.
      change (zlen fields0) with (Z.of_nat (length fields0)) in E. etransitivity; [exact E|].
      rewrite length_app in Hr |- *. cbn [length] in *. rewrite Nat.add_1_r.
      rewrite (take_S_r _ _ tvs), take_insert_ge by (try apply list_lookup_insert_eq; lia).
      rewrite <- app_assoc. done.
Qed.

(** C32. Converting a block gives, column by column, the tagged values of the rows the reader reads. *)
Theorem BlockConvert_ReadBlock m block n prec (fields : list StmtField) fts rows :
  zlen m < 2 ^ 64 -> is_bytes m -> fields <> [] ->
  Forall (fun f => in_s 8 (sf_FieldType f) /\ sf_Precision f = prec) fields ->
  match fts with None => True | Some l => length l = length fields end ->
  ReadBlock m block n ((fun f => u8 (sf_FieldType f)) <$> fields) prec = Ret rows ->
  exists cols fts', BlockConvert m block n fields fts = Ret (cols, fts') /\ length cols = length fields /\
    forall c row f vs cells v, cols !! c = Some vs -> fields !! c = Some f -> rows !! row = Some cells ->
      cells !! c = Some v -> vs !! row = Some (tag (sf_FieldType f) prec v).
Proof.
  intros Hm Hb Hne HF Hfts E. assert (Hn : 0 <= n).
  { destruct (Z.ltb_spec n 0) as [Hn|]; [|done]. unfold ReadBlock, read_block in E.
    rewrite (proj2 (Z.ltb_lt _ _) Hn) in E. discriminate. }
  replace n with (Z.of_nat (Z.to_nat n)) in E |- * by lia. set (k := Z.to_nat n) in *.
  apply read_block_spec in E as (cols & Hc & ->). rewrite length_fmap in *.
  unfold zlen in Hc. rewrite length_fmap in Hc.
  destruct (convert_columns m block k prec [] fields fts
    (AddPointer block (RawBlockGetColDataOffset (zlen fields))) (replicate (length fields) []) cols Hm Hb HF)
    as (fts' & p' & E); [by rewrite length_replicate|done|exact Hc|].
  pose proof (cols_at_length _ _ _ _ _ _ _ _ _ Hc) as Hl. rewrite length_fmap in Hl.
  eexists _, fts'. split.
  { unfold BlockConvert, for_upto. replace (Z.to_nat (zlen fields)) with (length fields) by (unfold zlen; lia).
    cbn [app zlen length] in E. change (zlen []) with 0 in E. rewrite E. done. }
  cbn [length]. rewrite take_0, app_nil_l. split; [rewrite length_zip_with; lia|].
  intros c row f vs cells v Hvs Hf Hrow Hcell.
  apply lookup_zip_with_Some in Hvs as (f' & vs0 & -> & Hf' & Hvs0). simplify_eq.
  rewrite <- Hl in Hrow. rewrite rows_of_full in Hrow by (by destruct cols, fields).
  rewrite list_lookup_fmap in Hrow. destruct (seq 0 k !! row) as [row'|] eqn:Es; [|done].
  apply lookup_seq in Es as [-> Hk]. cbn in Hrow. injection Hrow as <-.
  unfold row_cells in Hcell. rewrite list_lookup_fmap, Hvs0 in Hcell. cbn in Hcell. injection Hcell as <-.
  assert (Hvk : length vs0 = k).
  { clear -Hc Hvs0. revert c Hvs0. induction Hc; intros j Hj; [done|]. destruct j; cbn in Hj; [by simplify_eq|eauto]. }
  rewrite list_lookup_fmap. destruct (lookup_lt_is_Some_2 vs0 row ltac:(lia)) as [v Hv]. cbn. by rewrite Hv.
Qed.

(** The block of one [INT] column with the rows 7 and null. *)
Definition ex_fields : list StmtField := [mkStmtField [] TSDB_DATA_TYPE_INT 0 0 4].

Lemma BlockConvert_ReadBlock_witness :
  exists cols fts, BlockConvert ex_row_block 0 2 ex_fields None = Ret (cols, fts) /\ length cols = 1%nat /\
    forall vs, cols !! 0%nat = Some vs -> vs !! 0%nat = Some (tag TSDB_DATA_TYPE_INT 0 (VInt32 7)).
Proof.
  destruct (BlockConvert_ReadBlock ex_row_block 0 2 0 ex_fields None [[VInt32 7]; [VNil]]) as (cols & fts & E & Hl & H).
  - vm_compute. reflexivity.
  - vm_compute. repeat constructor; intuition congruence.
  - done.
  - repeat constructor; vm_compute; intuition congruence.
  - done.
  - vm_compute. reflexivity.
  - exists cols, fts. split; [exact E|]. split; [exact Hl|]. intros vs Hvs. exact (H 0%nat 0%nat (mkStmtField [] TSDB_DATA_TYPE_INT 0 0 4) vs [VInt32 7] (VInt32 7) Hvs eq_refl eq_refl eq_refl).
Defined.

End Convert.
