(* ===== verification/CHeap.v ===== *)
(** * CHeap: memory of C in Go code

    The heap that [C.malloc], [C.CString] and [C.free] work on, for the wrappers that build arguments of
    the C library: blocks of bytes, the bytes not yet written unknown.  A store outside of a block, and a
    free of what is no block, is a [Fault].  A program keeps the pointers that its deferred function
    frees ([needFreePointer]) in [frees].  [clean] says that the blocks besides those of a heap are just
    the ones to be freed. *)
From S2P Require Import Prelude.
From stdpp Require Import gmap.
#[local] Open Scope Z_scope.

Module CHeap.

(** ** Memory *)

Abbreviation block := (list (option Z)) (only parsing).
(** A block and an offset into it. *)
Record ptr := mkPtr { p_block : nat; p_off : Z }.
Record cstate := mkC { heap : gmap nat block; brk : nat; frees : list (option ptr) }.

(** Programs: a result and the state at its end, also at a panic. *)
Definition cm (A : Type) : Type := cstate -> go A * cstate.
#[export] Instance cm_ret : MRet cm := fun A x st => (Ret x, st).
#[export] Instance cm_bind : MBind cm := fun A B f m st =>
  match m st with
  | (Ret x, st) => f x st
  | (Err e, st) => (Err e, st)
  | (Panic, st) => (Panic, st)
  | (Fault, st) => (Fault, st)
  end.
Definition lift {A} (x : go A) : cm A := fun st => (x, st).

(** [C.malloc], which ends the process rather than return a null pointer. *)
Definition malloc (n : Z) : cm ptr := fun st =>
  (Ret (mkPtr (brk st) 0), mkC (<[brk st := replicate (Z.to_nat n) None]> (heap st)) (S (brk st)) (frees st)).

(** Bytes in a block, and stores of bytes. *)
Definition put_bytes (o : nat) (bs : list Z) (b : block) : block := list_inserts o (Some <$> bs) b.
Definition store (p : ptr) (o : Z) (bs : list Z) : cm unit := fun st =>
  match heap st !! p_block p with
  | Some b =>
    let o := p_off p + o in
    if bool_decide (0 <= o /\ o + zlen bs <= zlen b)
    then (Ret tt, mkC (<[p_block p := put_bytes (Z.to_nat o) bs b]> (heap st)) (brk st) (frees st))
    else (Fault, st)
  | None => (Fault, st)
  end.

(** [C.free]; a null pointer is left alone. *)
Definition free (p : option ptr) : cm unit := fun st =>
  match p with
  | None => (Ret tt, st)
  | Some p =>
    match heap st !! p_block p with
    | Some _ => if p_off p =? 0 then (Ret tt, mkC (delete (p_block p) (heap st)) (brk st) (frees st)) else (Fault, st)
    | None => (Fault, st)
    end
  end.

(** [needFreePointer = append(needFreePointer, p)]. *)
Definition need_free (p : option ptr) : cm unit := fun st => (Ret tt, mkC (heap st) (brk st) (frees st ++ [p])).
Definition set_frees (l : list (option ptr)) : cm unit := fun st => (Ret tt, mkC (heap st) (brk st) l).

(** [C.CString]: the bytes and a zero. *)
Definition CString (s : list Z) : cm ptr := p ← malloc (zlen s + 1); _ ← store p 0 (s ++ [0]); mret p.

Fixpoint free_all (l : list (option ptr)) : cm unit :=
  match l with
  | [] => mret tt
  | p :: l => _ ← free p; free_all l
  end.
(** A function whose deferred function frees [needFreePointer]: it runs after a return and after a panic. *)
Definition deferred {A} (body : cm A) : cm A := fun st =>
  let '(r, st') := body (mkC (heap st) (brk st) []) in
  match r with
  | Fault => (Fault, st')
  | _ =>
    match free_all (frees st') st' with
    | (Ret _, st'') => (r, mkC (heap st'') (brk st'') (frees st))
    | (_, st'') => (Fault, st'')
    end
  end.

(** [for i, x := range l]. *)
Fixpoint crange {A} (i : Z) (l : list A) (f : Z -> A -> cm unit) : cm unit :=
  match l with
  | [] => mret tt
  | x :: l => _ ← f i x; crange (i + 1) l f
  end.

(** ** What memory holds *)

(** The bytes [bs] are at an offset of a pointer. *)
Definition holds (h : gmap nat block) (p : ptr) (o : Z) (bs : list Z) : Prop :=
  exists b, h !! p_block p = Some b /\ 0 <= p_off p + o /\ p_off p + o + zlen bs <= zlen b /\
    forall j x, bs !! j = Some x -> b !! (Z.to_nat (p_off p + o) + j)%nat = Some (Some x).

Lemma length_put_bytes o bs b : length (put_bytes o bs b) = length b.
Proof. apply length_inserts. Qed.

Lemma put_bytes_in o bs b j x : (o + length bs <= length b)%nat -> bs !! j = Some x -> put_bytes o bs b !! (o + j)%nat = Some (Some x).
Proof.
  intros Hl Hj. apply lookup_lt_Some in Hj as Hl'. unfold put_bytes.
  rewrite list_lookup_inserts by (rewrite ?length_fmap; lia).
  replace (o + j - o)%nat with j by lia. by rewrite list_lookup_fmap, Hj.
Qed.
Lemma put_bytes_out o bs b j : (j < o \/ o + length bs <= j)%nat -> put_bytes o bs b !! j = b !! j.
Proof.
  intros [H|H]; unfold put_bytes; [by apply list_lookup_inserts_lt|]. apply list_lookup_inserts_ge. by rewrite length_fmap.
Qed.

(** ** Runs *)

(** [m] returns, with a result and in a state as [Q] says. *)
Definition runs {A} (m : cm A) (st : cstate) (Q : A -> cstate -> Prop) : Prop :=
  exists x st', m st = (Ret x, st') /\ Q x st'.

Lemma runs_ret {A} (x : A) st (Q : A -> cstate -> Prop) : Q x st -> runs (mret x) st Q.
Proof. intros H. by exists x, st. Qed.
Lemma runs_bind {A B} (m : cm A) (k : A -> cm B) st P Q :
  runs m st P -> (forall x st', P x st' -> runs (k x) st' Q) -> runs (m ≫= k) st Q.
Proof. intros (x & st' & E & HP) Hk. destruct (Hk x st' HP) as (y & st2 & E2 & HQ). exists y, st2. split; [|done]. unfold mbind, cm_bind. by rewrite E. Qed.
Lemma runs_weaken {A} (m : cm A) st (P Q : A -> cstate -> Prop) : runs m st P -> (forall x st', P x st' -> Q x st') -> runs m st Q.
Proof. intros (x & st' & E & HP) H. exists x, st'. auto. Qed.
Lemma runs_lift {A} (x : A) g st (Q : A -> cstate -> Prop) : g = Ret x -> Q x st -> runs (lift g) st Q.
Proof. intros -> H. by exists x, st. Qed.

(** ** The blocks of a program *)

(** The blocks that [frees] lists, in order. *)
Definition freed (l : list (option ptr)) : list nat := omap (fun p => p_block <$> p) l.

(** The heap is [base] and the blocks that will be freed and those in [extra]. *)
Record clean (base : gmap nat block) (extra : list nat) (st : cstate) : Prop := mkClean {
  clean_starts : Forall (fun p => match p with Some p => p_off p = 0 | None => True end) (frees st);
  clean_nodup : NoDup (freed (frees st) ++ extra);
  clean_base : forall k, k ∉ freed (frees st) ++ extra -> heap st !! k = base !! k;
  clean_new : forall k, k ∈ freed (frees st) ++ extra -> is_Some (heap st !! k) /\ base !! k = None;
  clean_brk : forall k, is_Some (heap st !! k) -> (k < brk st)%nat }.

(** States that agree on the blocks below [n], and have handed out no fewer. *)
Definition keeps (st st' : cstate) : Prop := (brk st <= brk st')%nat /\ forall k, (k < brk st)%nat -> heap st' !! k = heap st !! k.
#[export] Instance keeps_preorder : PreOrder keeps.
Proof.
  split; [intros st; split; [lia|done]|]. intros a b c [H1 H2] [H3 H4]. split; [lia|]. intros k Hk. rewrite H4 by lia. by apply H2.
Qed.

Lemma holds_keeps h h' p o bs : h' !! p_block p = h !! p_block p -> holds h p o bs -> holds h' p o bs.
Proof. intros E (b & Hb & H). exists b. by rewrite E. Qed.

Lemma runs_malloc base extra n st Q : clean base extra st -> 0 <= n ->
  (forall st', clean base (extra ++ [brk st]) st' -> keeps st st' -> frees st' = frees st -> brk st' = S (brk st) ->
    heap st' !! brk st = Some (replicate (Z.to_nat n) None) -> Q (mkPtr (brk st) 0) st') ->
  runs (malloc n) st Q.
Proof.
  intros [H1 H2 H3 H4 H5] Hn HQ. eexists _, _. split; [reflexivity|].
  assert (Hb : heap st !! brk st = None).
  { destruct (heap st !! brk st) eqn:E; [|done]. specialize (H5 (brk st) ltac:(eauto)). lia. }
  assert (Hf : brk st ∉ freed (frees st) ++ extra) by (intros Hin; destruct (H4 _ Hin) as [[b E] _]; congruence).
  apply HQ; cbn; try done.
  - split; cbn; try done; rewrite ?app_assoc.
    + apply NoDup_app. split_and!; [done| |apply NoDup_singleton]. intros k Hk ->%list_elem_of_singleton. done.
    + intros k [Hk1 Hk2]%not_elem_of_app. rewrite lookup_insert_ne; [by apply H3|]. intros E. by apply Hk2, list_elem_of_singleton.
    + intros k [Hk| ->%list_elem_of_singleton]%elem_of_app.
      * rewrite lookup_insert_ne by (intros E; apply Hf; by rewrite E). by apply H4.
      * rewrite lookup_insert_eq. split; [by eexists|]. rewrite <- H3; done.
    + intros k Hk. destruct (decide (k = brk st)) as [->|]; [lia|]. rewrite lookup_insert_ne in Hk by done. specialize (H5 k Hk). lia.
  - split; cbn; [lia|]. intros k Hk. by rewrite lookup_insert_ne by lia.
  - by rewrite lookup_insert_eq.
Qed.

(** A store into a new block: the bytes are there, what is elsewhere stays, and nothing else moves. *)
Lemma runs_store base extra st p o bs b Q : clean base extra st -> p_block p ∈ freed (frees st) ++ extra ->
  heap st !! p_block p = Some b -> 0 <= p_off p + o -> p_off p + o + zlen bs <= zlen b ->
  (forall st', clean base extra st' -> frees st' = frees st -> brk st' = brk st ->
    (forall k, k <> p_block p -> heap st' !! k = heap st !! k) ->
    heap st' !! p_block p = Some (put_bytes (Z.to_nat (p_off p + o)) bs b) -> Q tt st') ->
  runs (store p o bs) st Q.
Proof.
  intros [H1 H2 H3 H4 H5] Hin Hb Ho Hl HQ. unfold runs, store. rewrite Hb, bool_decide_eq_true_2 by done.
  eexists _, _. split; [reflexivity|]. apply HQ; cbn; try done.
  - split; cbn; try done.
    + intros k Hk. rewrite lookup_insert_ne; [by apply H3|]. by intros <-.
    + intros k Hk. destruct (decide (p_block p = k)) as [<-|]; [|rewrite lookup_insert_ne by done; by apply H4].
      rewrite lookup_insert_eq. split; [by eexists|]. by apply H4.
    + intros k Hk. destruct (decide (p_block p = k)) as [<-|]; [apply H5; by rewrite Hb|]. rewrite lookup_insert_ne in Hk by done. by apply H5.
  - intros k Hk. by rewrite lookup_insert_ne.
  - by rewrite lookup_insert_eq.
Qed.

(** A block goes from those at hand to the list. *)
Lemma runs_need_free base k st (Q : unit -> cstate -> Prop) : clean base [k] st ->
  (forall st', clean base [] st' -> heap st' = heap st -> brk st' = brk st -> frees st' = frees st ++ [Some (mkPtr k 0)] -> Q tt st') ->
  runs (need_free (Some (mkPtr k 0))) st Q.
Proof.
  intros [H1 H2 H3 H4 H5] HQ. eexists _, _. split; [reflexivity|].
  assert (Ef : freed (frees st ++ [Some (mkPtr k 0)]) ++ [] = freed (frees st) ++ [k]) by (unfold freed; rewrite omap_app, app_nil_r; done).
  apply HQ; [|done..]. split; cbn [heap brk frees]; rewrite ?Ef; try done. apply Forall_app. split; [done|by repeat constructor].
Qed.
Lemma runs_need_free_nil base st (Q : unit -> cstate -> Prop) : clean base [] st ->
  (forall st', clean base [] st' -> heap st' = heap st -> brk st' = brk st -> Q tt st') -> runs (need_free None) st Q.
Proof.
  intros [H1 H2 H3 H4 H5] HQ. eexists _, _. split; [reflexivity|].
  assert (Ef : freed (frees st ++ [None]) = freed (frees st)) by (unfold freed; rewrite omap_app, app_nil_r; done).
  apply HQ; [|done..]. split; cbn [heap brk frees]; rewrite ?Ef; try done. apply Forall_app. split; [done|by repeat constructor].
Qed.

(** Freeing the list leaves the heap as it was. *)
Lemma free_all_clean l : forall base st, Forall (fun p => match p with Some p => p_off p = 0 | None => True end) l ->
  NoDup (freed l) -> (forall k, k ∉ freed l -> heap st !! k = base !! k) -> (forall k, k ∈ freed l -> is_Some (heap st !! k) /\ base !! k = None) ->
  exists st', free_all l st = (Ret tt, st') /\ heap st' = base /\ brk st' = brk st.
Proof.
  induction l as [|p l IH]; intros base st H1 H2 H3 H4.
  { exists st. split; [done|]. split; [|done]. apply map_eq. intros k. apply H3, not_elem_of_nil. }
  apply Forall_cons in H1 as [Hp H1]. cbn [free_all]. unfold mbind, cm_bind. destruct p as [[k o]|]; cbn [free].
  2: { by apply IH. }
  cbn in Hp, H2, H3, H4. subst o. apply NoDup_cons in H2 as [Hk H2]. cbn [p_block p_off].
  destruct (H4 k) as [[b Eb] En]; [by left|]. rewrite Eb. change (0 =? 0) with true. cbv iota.
  destruct (IH base (mkC (delete k (heap st)) (brk st) (frees st)) H1 H2) as (st' & E & Hst'); [..|by exists st'].
  - intros j Hj. cbn. destruct (decide (k = j)) as [<-|]; [by rewrite lookup_delete_eq|].
    rewrite lookup_delete_ne by done. apply H3. by apply not_elem_of_cons.
  - intros j Hj. cbn. rewrite lookup_delete_ne by (by intros ->). apply H4. by right.
Qed.

(** No block has an address that was not handed out yet. *)
Definition wf (st : cstate) : Prop := forall k, is_Some (heap st !! k) -> (k < brk st)%nat.
Lemma clean_start st : wf st -> clean (heap st) [] (mkC (heap st) (brk st) []).
Proof. intros H. split; cbn; try done; [constructor|]. by intros k ?%elem_of_nil. Qed.

Lemma runs_deferred {A} (body : cm A) st (Q : A -> cstate -> Prop) :
  runs body (mkC (heap st) (brk st) []) (fun x st' => clean (heap st) [] st' /\
    forall st'', heap st'' = heap st -> frees st'' = frees st -> brk st'' = brk st' -> Q x st'') ->
  runs (deferred body) st Q.
Proof.
  intros (x & st' & E & [H1 H2 H3 H4 H5] & HQ). unfold runs, deferred. rewrite E. rewrite app_nil_r in *.
  destruct (free_all_clean (frees st') (heap st) st' H1 H2 H3 H4) as (st'' & -> & Hh & Hb). eexists _, _. split; [reflexivity|]. by apply HQ.
Qed.

End CHeap.
