(* ===== verification/CStmt.v ===== *)
(** * CStmt: bind parameters in the memory of C

    Models the functions of [src/driver/wrapper/stmt.go] that make the [TAOS_MULTI_BIND] structures of
    the statement interface out of Go values: [TaosStmtSetTags], [TaosStmtSetTBNameTags],
    [TaosStmtBindParam] with [generateTaosBindList], and [TaosStmtBindParamBatch].  The functions of the
    C library read the structures and return a code; they are parameters. *)
From S2P Require Import Prelude Common CHeap.
From stdpp Require Import gmap.
#[local] Open Scope Z_scope.

Module CStmt.
Import CHeap.

(** [TAOS_MULTI_BIND]. *)
Record TAOS_MULTI_BIND := mkMultiBind {
  mb_type : Z; mb_buffer : option ptr; mb_buffer_length : Z; mb_length : option ptr; mb_is_null : option ptr; mb_num : Z }.

(** The result of a C function that gets the memory and the binds, [None] for a null pointer. *)
Definition c_call : Type := gmap nat (list (option Z)) -> option (list TAOS_MULTI_BIND) -> Z.
Definition call (f : c_call) (binds : option (list TAOS_MULTI_BIND)) : cm Z := fun st => (Ret (f (heap st) binds), st).

(** ** One value *)

(** The cases of fixed width, and those that copy a string and store its length. *)
Definition fixed_param (t : Z) (bs : list Z) : cm TAOS_MULTI_BIND :=
  p ← malloc (zlen bs);
  _ ← store p 0 bs;
  _ ← need_free (Some p);
  mret (mkMultiBind t (Some p) (zlen bs) None None 1).
Definition var_param (t : Z) (s : list Z) : cm TAOS_MULTI_BIND :=
  cbuf ← CString s;
  _ ← need_free (Some cbuf);
  let clen := i32 (zlen s) in
  p ← malloc 4;
  _ ← store p 0 (le_bytes 4 (u32 clen));
  _ ← need_free (Some p);
  mret (mkMultiBind t (Some cbuf) (u64 clen) (Some p) None 1).
Definition null_param : cm TAOS_MULTI_BIND :=
  p ← malloc 1;
  _ ← store p 0 [1];
  _ ← need_free (Some p);
  mret (mkMultiBind TSDB_DATA_TYPE_BOOL None 0 None (Some p) 1).

Definition bool_byte (b : bool) : list Z := [if b then 1 else 0].
Definition ErrUnsupported : error := "unsupported type"%string.

(** The type switch: the code and the bytes of a value of fixed width, or the code and a string. *)
Definition fixed_value (v : value) : option (Z * go (list Z)) :=
  match v with
  | TaosBool b => Some (TSDB_DATA_TYPE_BOOL, Ret (bool_byte b))
  | TaosTinyint z => Some (TSDB_DATA_TYPE_TINYINT, Ret (le_bytes 1 (u8 z)))
  | TaosSmallint z => Some (TSDB_DATA_TYPE_SMALLINT, Ret (le_bytes 2 (u16 z)))
  | TaosInt z => Some (TSDB_DATA_TYPE_INT, Ret (le_bytes 4 (u32 z)))
  | TaosBigint z => Some (TSDB_DATA_TYPE_BIGINT, Ret (le_bytes 8 (u64 z)))
  | TaosUTinyint z => Some (TSDB_DATA_TYPE_UTINYINT, Ret (le_bytes 1 z))
  | TaosUSmallint z => Some (TSDB_DATA_TYPE_USMALLINT, Ret (le_bytes 2 z))
  | TaosUInt z => Some (TSDB_DATA_TYPE_UINT, Ret (le_bytes 4 z))
  | TaosUBigint z => Some (TSDB_DATA_TYPE_UBIGINT, Ret (le_bytes 8 z))
  | TaosFloat bits => Some (TSDB_DATA_TYPE_FLOAT, Ret (le_bytes 4 bits))
  | TaosDouble bits => Some (TSDB_DATA_TYPE_DOUBLE, Ret (le_bytes 8 bits))
  | TaosTimestamp t precision => Some (TSDB_DATA_TYPE_TIMESTAMP, (fun ts => le_bytes 8 (u64 ts)) <$> TimeToTimestamp t precision)
  | _ => None
  end.
Definition var_value (v : value) : option (Z * list Z) :=
  match v with
  | TaosBinary s => Some (TSDB_DATA_TYPE_BINARY, s)
  | TaosVarBinary s => Some (TSDB_DATA_TYPE_VARBINARY, s)
  | TaosGeometry s => Some (TSDB_DATA_TYPE_GEOMETRY, s)
  | TaosNchar s => Some (TSDB_DATA_TYPE_NCHAR, s)
  | TaosJson s => Some (TSDB_DATA_TYPE_JSON, s)
  | _ => None
  end.
Definition bind_param (v : value) : cm TAOS_MULTI_BIND :=
  if is_nil v then null_param
  else
    match fixed_value v with
    | Some (t, bs) => bs ← lift bs; fixed_param t bs
    | None =>
      match var_value v with
      | Some (t, s) => var_param t s
      | None => lift (Err ErrUnsupported)
      end
    end.

(** [for i, param := range params]. *)
Fixpoint bind_params (params : list value) : cm (list TAOS_MULTI_BIND) :=
  match params with
  | [] => mret []
  | v :: params => b ← bind_param v; bs ← bind_params params; mret (b :: bs)
  end.

(** The list of pointers is returned with the binds; it is lost with an error or a panic. *)
Definition generateTaosBindList (params : list value) : cm (list TAOS_MULTI_BIND) := fun st =>
  match bind_params params st with
  | (Ret binds, st') => (Ret binds, st')
  | (r, st') => (r, mkC (heap st') (brk st') [])
  end.

(** The binds, or the code -1 instead of the call. *)
Definition with_binds (params : list value) (f : c_call) : cm Z := fun st =>
  match generateTaosBindList params st with
  | (Ret binds, st') => call f (Some binds) st'
  | (Err _, st') => (Ret (-1), st')
  | (Panic, st') => (Panic, st')
  | (Fault, st') => (Fault, st')
  end.

Section Calls.
Context (taos_stmt_set_tags taos_stmt_bind_param taos_stmt_bind_param_batch : c_call)
  (taos_stmt_set_tbname_tags : ptr -> c_call).

Definition TaosStmtSetTags (tags : list value) : cm Z :=
  if bool_decide (tags = []) then call taos_stmt_set_tags None
  else deferred (with_binds tags taos_stmt_set_tags).

Definition TaosStmtSetTBNameTags (name : list Z) (tags : list value) : cm Z :=
  deferred (
    cStr ← CString name;
    _ ← need_free (Some cStr);
    if bool_decide (tags = []) then call (taos_stmt_set_tbname_tags cStr) None
    else deferred (with_binds tags (taos_stmt_set_tbname_tags cStr))).

Definition TaosStmtBindParam (params : list value) : cm Z :=
  if bool_decide (params = []) then call taos_stmt_bind_param None
  else deferred (with_binds params taos_stmt_bind_param).

(** ** Columns of values *)

(** The case of a column type: its code, the bytes that a value may take, and the bytes of a value after
    the type assertion. *)
Definition column_case (ct : ColumnType) : option (Z * Z * (value -> go (list Z))) :=
  match ct_Type ct with
  | TaosBoolType => Some (TSDB_DATA_TYPE_BOOL, 1, fun v => match v with TaosBool b => Ret (bool_byte b) | _ => Panic end)
  | TaosTinyintType => Some (TSDB_DATA_TYPE_TINYINT, 1, fun v => match v with TaosTinyint z => Ret (le_bytes 1 (u8 z)) | _ => Panic end)
  | TaosSmallintType => Some (TSDB_DATA_TYPE_SMALLINT, 2, fun v => match v with TaosSmallint z => Ret (le_bytes 2 (u16 z)) | _ => Panic end)
  | TaosIntType => Some (TSDB_DATA_TYPE_INT, 4, fun v => match v with TaosInt z => Ret (le_bytes 4 (u32 z)) | _ => Panic end)
  | TaosBigintType => Some (TSDB_DATA_TYPE_BIGINT, 8, fun v => match v with TaosBigint z => Ret (le_bytes 8 (u64 z)) | _ => Panic end)
  | TaosUTinyintType => Some (TSDB_DATA_TYPE_UTINYINT, 1, fun v => match v with TaosUTinyint z => Ret (le_bytes 1 z) | _ => Panic end)
  | TaosUSmallintType => Some (TSDB_DATA_TYPE_USMALLINT, 2, fun v => match v with TaosUSmallint z => Ret (le_bytes 2 z) | _ => Panic end)
  | TaosUIntType => Some (TSDB_DATA_TYPE_UINT, 4, fun v => match v with TaosUInt z => Ret (le_bytes 4 z) | _ => Panic end)
  | TaosUBigintType => Some (TSDB_DATA_TYPE_UBIGINT, 8, fun v => match v with TaosUBigint z => Ret (le_bytes 8 z) | _ => Panic end)
  | TaosFloatType => Some (TSDB_DATA_TYPE_FLOAT, 4, fun v => match v with TaosFloat z => Ret (le_bytes 4 z) | _ => Panic end)
  | TaosDoubleType => Some (TSDB_DATA_TYPE_DOUBLE, 8, fun v => match v with TaosDouble z => Ret (le_bytes 8 z) | _ => Panic end)
  | TaosBinaryType => Some (TSDB_DATA_TYPE_BINARY, ct_MaxLen ct, fun v => match v with TaosBinary s => Ret s | _ => Panic end)
  | TaosVarBinaryType => Some (TSDB_DATA_TYPE_VARBINARY, ct_MaxLen ct, fun v => match v with TaosVarBinary s => Ret s | _ => Panic end)
  | TaosGeometryType => Some (TSDB_DATA_TYPE_GEOMETRY, ct_MaxLen ct, fun v => match v with TaosGeometry s => Ret s | _ => Panic end)
  | TaosNcharType => Some (TSDB_DATA_TYPE_NCHAR, ct_MaxLen ct, fun v => match v with TaosNchar s => Ret s | _ => Panic end)
  | TaosTimestampType => Some (TSDB_DATA_TYPE_TIMESTAMP, 8, fun v =>
      match v with TaosTimestamp t precision => (fun ts => le_bytes 8 (u64 ts)) <$> TimeToTimestamp t precision | _ => Panic end)
  | _ => None
  end.

(** The body of the loop over the rows of a column. *)
Definition batch_cell (nullList lengthList p : ptr) (width : Z) (conv : value -> go (list Z)) (i : Z) (rowData : value) : cm unit :=
  if is_nil rowData then store nullList i [1]
  else
    _ ← store nullList i [0];
    bs ← lift (conv rowData);
    _ ← store p (width * i) bs;
    store lengthList (4 * i) (le_bytes 4 (u32 (zlen bs))).

(** The body of the loop over the columns. *)
Definition batch_column (rowLen : Z) (bindType : list ColumnType) (columnIndex : Z) (columnData : list value) : cm TAOS_MULTI_BIND :=
  nullList ← malloc (u32 rowLen);
  _ ← need_free (Some nullList);
  lengthList ← malloc (u32 (rowLen * 4));
  _ ← need_free (Some lengthList);
  columnType ← lift (zget bindType columnIndex);
  match column_case columnType with
  | Some (t, width, conv) =>
    p ← malloc (u32 (width * rowLen));
    _ ← crange 0 columnData (batch_cell nullList lengthList p width conv);
    _ ← need_free (Some p);
    mret (mkMultiBind t (Some p) (u64 width) (Some lengthList) (Some nullList) (i32 rowLen))
  | None =>
    _ ← need_free None;
    mret (mkMultiBind 0 None 0 (Some lengthList) (Some nullList) (i32 rowLen))
  end.

Fixpoint batch_columns (rowLen : Z) (bindType : list ColumnType) (columnIndex : Z) (multiBind : list (list value)) :
    cm (list TAOS_MULTI_BIND) :=
  match multiBind with
  | [] => mret []
  | columnData :: multiBind =>
    b ← batch_column rowLen bindType columnIndex columnData;
    bs ← batch_columns rowLen bindType (columnIndex + 1) multiBind;
    mret (b :: bs)
  end.

Definition TaosStmtBindParamBatch (multiBind : list (list value)) (bindType : list ColumnType) : cm Z :=
  deferred (
    binds ← batch_columns (zlen (default [] (head multiBind))) bindType 0 multiBind;
    if bool_decide (binds = []) then lift Panic else call taos_stmt_bind_param_batch (Some binds)).

End Calls.
End CStmt.
