(* ===== verification/CStmtSpec.v ===== *)
(** * CStmtSpec: the theorems about bind parameters in the memory of C

    The C library reads in the structures just the values that were passed, no store or free goes outside
    of a block, and when the call is over every block has been freed; the exceptions are tags of a type
    that is not supported, whose blocks are lost. *)
From S2P Require Import Prelude Common CHeap CStmt.
From stdpp Require Import gmap.
#[local] Open Scope Z_scope.

Module CStmtSpec.
Import CHeap CStmt.

(** ** New blocks *)

Lemma holds_kept base extra st st' p o bs : clean base extra st -> keeps st st' -> holds (heap st) p o bs -> holds (heap st') p o bs.
Proof.
  intros Hc [_ Hk] H. apply (holds_keeps (heap st)); [|done]. apply Hk. destruct H as (b & Hb & _). apply (clean_brk _ _ _ Hc). by eexists.
Qed.

(** A block with some first bytes. *)
Lemma runs_fill base st n bs : clean base [] st -> zlen bs <= n ->
  runs (p ← malloc n; _ ← store p 0 bs; mret p) st
    (fun p st' => clean base [p_block p] st' /\ p_off p = 0 /\ keeps st st' /\ holds (heap st') p 0 bs).
Proof.
  intros Hc Hn. pose proof (zlen_nonneg bs) as H0.
  apply (runs_bind _ _ _ (fun p st' => p = mkPtr (brk st) 0 /\ clean base [brk st] st' /\ keeps st st' /\
    heap st' !! brk st = Some (replicate (Z.to_nat n) None))).
  { apply (runs_malloc base []); [done|lia|]. intros st' H1 H2 _ _ H3. done. }
  intros p st' (-> & Hc1 & [Hk1 Hk2] & Hb). eapply runs_bind.
  - apply (runs_store base [brk st] st' _ 0 bs (replicate (Z.to_nat n) None)
      (fun _ st2 => clean base [brk st] st2 /\ keeps st st2 /\ holds (heap st2) (mkPtr (brk st) 0) 0 bs) Hc1).
    + apply elem_of_app. right. by left.
    + exact Hb.
    + cbn. lia.
    + cbn. unfold zlen at 2. rewrite length_replicate. lia.
    + intros st2 H1 _ Hbrk Ho Hp. split; [done|]. split.
      * split; [lia|]. intros k Hk. rewrite Ho by (cbn; lia). by apply Hk2.
      * eexists. split; [exact Hp|]. cbn. split; [lia|]. split; [unfold zlen at 2; rewrite length_put_bytes, length_replicate; lia|].
        intros j x Hj. apply put_bytes_in; [|done]. rewrite length_replicate. unfold zlen in *. lia.
  - intros _ st2 (H1 & H2 & H3). by apply runs_ret.
Qed.

(** The block goes to the list. *)
Lemma runs_listed {B} base st p (k : cm B) Q : clean base [p_block p] st -> p_off p = 0 ->
  (forall st', clean base [] st' -> keeps st st' -> heap st' = heap st -> runs k st' Q) -> runs (_ ← need_free (Some p); k) st Q.
Proof.
  intros Hc Ho Hk. destruct p as [b o]. cbn in *. subst o.
  eapply runs_bind; [apply (runs_need_free base b st (fun _ st' => clean base [] st' /\ keeps st st' /\ heap st' = heap st) Hc)|].
  - intros st' H1 H2 H3 _. split; [done|]. split; [|done]. split; [lia|]. intros k' _. by rewrite H2.
  - intros _ st' (H1 & H2 & H3). by apply Hk.
Qed.

Lemma cm_assoc {A B C} (m : cm A) (f : A -> cm B) (g : B -> cm C) st : ((m ≫= f) ≫= g) st = (m ≫= (fun x => f x ≫= g)) st.
Proof. unfold mbind, cm_bind. by destruct (m st) as [[] ]. Qed.

(** A new block, filled and listed, for a program that goes on with it. *)
Lemma runs_new {B} base st n bs (k : ptr -> cm B) Q : clean base [] st -> zlen bs <= n ->
  (forall p st', clean base [] st' -> keeps st st' -> holds (heap st') p 0 bs -> runs (k p) st' Q) ->
  runs (p ← malloc n; _ ← store p 0 bs; _ ← need_free (Some p); k p) st Q.
Proof.
  intros Hc Hn Hk.
  assert (E : (p ← malloc n; _ ← store p 0 bs; _ ← need_free (Some p); k p) st =
              ((p ← malloc n; _ ← store p 0 bs; mret p) ≫= (fun p => _ ← need_free (Some p); k p)) st).
  { unfold mbind, cm_bind, mret, cm_ret. destruct (malloc n st) as [[] ]; try done. by destruct (store _ _ _ _) as [[] ]. }
  unfold runs. rewrite E. eapply runs_bind; [by apply (runs_fill base)|]. intros p st' (H1 & H2 & H3 & H4).
  apply (runs_listed base); [done..|]. intros st2 H5 H6 H7. apply Hk; [done|by etransitivity|by rewrite H7].
Qed.

(** ** Single values *)

(** What the C library reads for a value. *)
Definition param_reads (h : gmap nat (list (option Z))) (v : value) (b : TAOS_MULTI_BIND) : Prop :=
  mb_num b = 1 /\
  if is_nil v then mb_type b = TSDB_DATA_TYPE_BOOL /\ exists p, mb_is_null b = Some p /\ holds h p 0 [1]
  else
    mb_is_null b = None /\
    ((exists t bs p, fixed_value v = Some (t, Ret bs) /\ mb_type b = t /\ mb_buffer b = Some p /\ mb_buffer_length b = zlen bs /\
        mb_length b = None /\ holds h p 0 bs) \/
     (exists t s p q, fixed_value v = None /\ var_value v = Some (t, s) /\ mb_type b = t /\ mb_buffer b = Some p /\
        mb_buffer_length b = zlen s /\ mb_length b = Some q /\ holds h p 0 (s ++ [0]) /\ holds h q 0 (le_bytes 4 (zlen s)))).

(** The values that can be bound. *)
Definition param_ok (v : value) : Prop :=
  is_nil v = true \/ (exists t bs, fixed_value v = Some (t, Ret bs)) \/
  (exists t s, fixed_value v = None /\ var_value v = Some (t, s) /\ zlen s < 2 ^ 31).

Lemma param_reads_kept base extra st st' v b : clean base extra st -> keeps st st' -> param_reads (heap st) v b -> param_reads (heap st') v b.
Proof.
  intros Hc Hk [Hn H]. split; [done|]. assert (Hh : forall p o bs, holds (heap st) p o bs -> holds (heap st') p o bs).
  { intros p o bs. by apply (holds_kept base extra). }
  destruct (is_nil v).
  - destruct H as (Ht & p & Hp & H). split; [done|]. exists p. auto.
  - destruct H as [Hi [(t & bs & p & H1 & H2 & H3 & H4 & H5 & H6)|(t & s & p & q & H1 & H2 & H3 & H4 & H5 & H6 & H7 & H8)]]; (split; [done|]);
      [left; exists t, bs, p|right; exists t, s, p, q]; split_and!; auto.
Qed.

Lemma runs_bind_param base st v : clean base [] st -> param_ok v ->
  runs (bind_param v) st (fun b st' => clean base [] st' /\ keeps st st' /\ param_reads (heap st') v b).
Proof.
  intros Hc Hv. unfold bind_param. destruct (is_nil v) eqn:En.
  { apply (runs_new base); [done|cbn; done|]. intros p st' H1 H2 H3. apply runs_ret. split; [done|]. split; [done|].
    split; [done|]. rewrite En. split; [done|]. by exists p. }
  destruct Hv as [Hv|[(t & bs & Ef)|(t & s & Ef & Es & Hl)]]; [congruence| |].
  - rewrite Ef. unfold fixed_param. eapply runs_bind; [by apply (runs_lift bs _ st (fun x st' => x = bs /\ st' = st))|].
    intros x st' [-> ->]. apply (runs_new base); [done|done|]. intros p st' H1 H2 H3. apply runs_ret. split; [done|]. split; [done|].
    split; [done|]. rewrite En. split; [done|]. left. exists t, bs, p. by split_and!.
  - rewrite Ef, Es. unfold var_param, CString. pose proof (zlen_nonneg s) as H0.
    assert (Ei : i32 (zlen s) = zlen s) by (apply wrap_s_id; [done|unfold in_s; change (32 - 1) with 31; lia]). rewrite Ei.
    eapply runs_bind; [apply (runs_fill base); [done|rewrite zlen_snoc; lia]|]. intros p st1 (H1 & H2 & H3 & H4).
    apply (runs_listed base); [done..|]. intros st2 H5 H6 H7. apply (runs_new base); [done|by rewrite zlen_le_bytes|].
    intros q st3 H8 H9 H10. apply runs_ret. split; [done|]. split; [by etransitivity; [exact H3|]; etransitivity|].
    split; [done|]. rewrite En. split; [done|]. right. exists t, s, p, q. split_and!; try done.
    + unfold mb_buffer_length. rewrite wrap_u_id; [done|]. unfold in_u. lia.
    + eapply holds_kept; [exact H5|exact H9|]. by rewrite H7.
    + rewrite wrap_u_id in H10; [done|]. unfold in_u. lia.
Qed.

Lemma runs_bind_params base vs : forall st, clean base [] st -> Forall param_ok vs ->
  runs (bind_params vs) st (fun bs st' => clean base [] st' /\ keeps st st' /\ Forall2 (param_reads (heap st')) vs bs).
Proof.
  induction vs as [|v vs IH]; intros st Hc Hv; cbn [bind_params]; [by apply runs_ret|]. apply Forall_cons in Hv as [Hv Hvs].
  eapply runs_bind; [by apply (runs_bind_param base)|]. intros b st1 (H1 & H2 & H3).
  eapply runs_bind; [by apply IH|]. intros bs st2 (H4 & H5 & H6). apply runs_ret. split; [done|]. split; [by etransitivity|].
  constructor; [by apply (param_reads_kept base [] st1)|done].
Qed.

(** The tags are read as they were passed, and the memory is as it was before. *)
Theorem TaosStmtSetTags_binds (f : c_call) (tags : list value) (st : cstate) :
  wf st -> tags <> [] -> Forall param_ok tags ->
  exists h binds st', Forall2 (param_reads h) tags binds /\
    TaosStmtSetTags f tags st = (Ret (f h (Some binds)), st') /\ heap st' = heap st /\ frees st' = frees st.
Proof.
  intros Hw Ht Hv. unfold TaosStmtSetTags. rewrite bool_decide_eq_false_2 by done.
  destruct (runs_deferred (with_binds tags f) st
    (fun x st' => exists h binds, Forall2 (param_reads h) tags binds /\ x = f h (Some binds) /\ heap st' = heap st /\ frees st' = frees st))
    as (x & st' & E & h & binds & H1 & -> & H2 & H3); [|by exists h, binds, st'].
  unfold runs, with_binds, generateTaosBindList.
  destruct (runs_bind_params (heap st) tags _ (clean_start st Hw) Hv) as (bs & st1 & -> & H1 & _ & H3). cbn [call].
  eexists _, _. split; [reflexivity|]. split; [done|]. intros st2 H4 H5 _. by exists (heap st1), bs.
Qed.

(** ** Columns *)

Definition sized (h : gmap nat (list (option Z))) (k : nat) (n : Z) : Prop := exists b, h !! k = Some b /\ zlen b = n.

(** A store, by what the memory holds. *)
Record wrote (st : cstate) (p : ptr) (o : Z) (bs : list Z) (st' : cstate) : Prop := mkWrote {
  wrote_frees : frees st' = frees st;
  wrote_brk : brk st' = brk st;
  wrote_rest : forall k, k <> p_block p -> heap st' !! k = heap st !! k;
  wrote_sizes : forall k m, sized (heap st) k m -> sized (heap st') k m;
  wrote_bytes : holds (heap st') p o bs;
  wrote_apart : forall q o' bs', holds (heap st) q o' bs' ->
    p_block q <> p_block p \/ p_off q + o' + zlen bs' <= p_off p + o \/ p_off p + o + zlen bs <= p_off q + o' -> holds (heap st') q o' bs' }.

Lemma runs_write base extra st p o bs n : clean base extra st -> p_block p ∈ freed (frees st) ++ extra ->
  sized (heap st) (p_block p) n -> 0 <= p_off p + o -> p_off p + o + zlen bs <= n ->
  runs (store p o bs) st (fun _ st' => clean base extra st' /\ wrote st p o bs st').
Proof.
  intros Hc Hin (b & Hb & Hbn) Ho Hl. subst n. apply (runs_store base extra st p o bs b); [done..|].
  intros st' H1 H2 H3 H4 H5. split; [done|]. split; try done.
  - intros k m (b' & Hb' & Hm). destruct (decide (k = p_block p)) as [->|Hk]; [|exists b'; by rewrite H4].
    eexists. split; [exact H5|]. unfold zlen in *. rewrite length_put_bytes. congruence.
  - eexists. split; [exact H5|]. split; [done|]. split; [unfold zlen in *; by rewrite length_put_bytes|].
    intros j x Hj. apply put_bytes_in; [|done]. unfold zlen in *. lia.
  - intros q o' bs' (b' & Hb' & Hq1 & Hq2 & Hq3) Hd. destruct (decide (p_block q = p_block p)) as [E|E]; [|exists b'; by rewrite H4].
    rewrite E, Hb in Hb'. injection Hb' as <-. eexists. rewrite E. split; [exact H5|]. split; [done|].
    split; [unfold zlen in *; by rewrite length_put_bytes|]. intros j x Hj. rewrite put_bytes_out; [by apply Hq3|].
    apply lookup_lt_Some in Hj. unfold zlen in *. destruct Hd as [?|[?|?]]; [done|left; lia|right; lia].
Qed.

Lemma runs_crange {A} (f : Z -> A -> cm unit) (I : nat -> cstate -> Prop) l : forall i n st, i = Z.of_nat n -> I n st ->
  (forall j x st, l !! j = Some x -> I (n + j)%nat st -> runs (f (i + Z.of_nat j) x) st (fun _ st' => I (S (n + j)) st')) ->
  runs (crange i l f) st (fun _ st' => I (n + length l)%nat st').
Proof.
  induction l as [|x l IH]; intros i n st -> H0 Hf; cbn [crange length]; [apply runs_ret; by rewrite Nat.add_0_r|].
  eapply runs_bind; [specialize (Hf O x st eq_refl); rewrite Nat.add_0_r, Z.add_0_r in Hf; by apply Hf|].
  intros u st' H1. cbn beta in H1. clear u. rewrite <- Nat.add_succ_comm. apply IH; [lia|done|]. intros j y st2 Hj Hy.
  specialize (Hf (S j) y st2 Hj). rewrite <- Nat.add_succ_comm in Hf.
  replace (Z.of_nat n + 1 + Z.of_nat j) with (Z.of_nat n + Z.of_nat (S j)) by lia. by apply Hf.
Qed.

Section Column.
Context (a b c : nat) (width rows : Z) (conv : value -> go (list Z)).

(** A cell of a column, in the three blocks. *)
Definition cell_reads (h : gmap nat (list (option Z))) (np lp p : ptr) (i : Z) (v : value) : Prop :=
  if is_nil v then holds h np i [1]
  else holds h np i [0] /\ exists bs, conv v = Ret bs /\ holds h p (width * i) bs /\ holds h lp (4 * i) (le_bytes 4 (zlen bs)).

Definition cell_ok (v : value) : Prop := is_nil v = true \/ exists bs, conv v = Ret bs /\ zlen bs <= width.

(** The state of the loop: the cells before [i] are read, and the memory outside of the blocks is that of
    [st0]. *)
Record filling (base : gmap nat (list (option Z))) (st0 : cstate) (col : list value) (i : nat) (st : cstate) : Prop := mkFilling {
  fill_clean : clean base [c] st;
  fill_frees : frees st = frees st0 /\ brk st = brk st0;
  fill_sizes : sized (heap st) a rows /\ sized (heap st) b (rows * 4) /\ sized (heap st) c (width * rows);
  fill_rest : forall k, k <> a -> k <> b -> k <> c -> heap st !! k = heap st0 !! k;
  fill_cells : forall j v, (j < i)%nat -> col !! j = Some v -> cell_reads (heap st) (mkPtr a 0) (mkPtr b 0) (mkPtr c 0) (Z.of_nat j) v }.

Lemma zlen_conv_le w i j n : 0 <= w -> n <= w -> j < i -> w * j + n <= w * i.
Proof. intros. nia. Qed.

(** Pointers and single bytes, for [lia]. *)
Ltac one_byte := repeat match goal with |- context [zlen [?x]] => change (zlen [x]) with 1 end.
Ltac ptrs := cbn [p_block p_off] in *; rewrite ?Z.add_0_l; one_byte.

Lemma runs_batch_cell base st0 col i v st : a <> b -> a <> c -> b <> c -> a ∈ freed (frees st0) -> b ∈ freed (frees st0) ->
  0 <= width < 2 ^ 32 -> zlen col <= rows -> Forall cell_ok col -> col !! i = Some v ->
  filling base st0 col i st ->
  runs (batch_cell (mkPtr a 0) (mkPtr b 0) (mkPtr c 0) width conv (Z.of_nat i) v) st (fun _ st' => filling base st0 col (S i) st').
Proof.
  intros Hab Hac Hbc Ha Hb Hw Hr Hok Hv [Hc [Hf Hbrk] (Sa & Sb & Sc) Ho Hcells].
  assert (Hi : Z.of_nat i < rows) by (apply lookup_lt_Some in Hv; unfold zlen in Hr; lia).
  assert (Hin : forall k, k = a \/ k = b \/ k = c -> forall st, frees st = frees st0 -> k ∈ freed (frees st) ++ [c]).
  { intros k Hk st' ->. apply elem_of_app. destruct Hk as [->|[->| ->]]; [by left|by left|right; by left]. }
  assert (Hlow : forall st', (forall q o' bs', holds (heap st) q o' bs' ->
      (q = mkPtr a 0 /\ o' + zlen bs' <= Z.of_nat i) \/ (q = mkPtr b 0 /\ o' + zlen bs' <= 4 * Z.of_nat i) \/
      (q = mkPtr c 0 /\ o' + zlen bs' <= width * Z.of_nat i) -> holds (heap st') q o' bs') ->
    forall j u, (j < i)%nat -> col !! j = Some u -> cell_reads (heap st') (mkPtr a 0) (mkPtr b 0) (mkPtr c 0) (Z.of_nat j) u).
  { intros st' Hk j u Hj Hu. specialize (Hcells j u Hj Hu). unfold cell_reads in *. destruct (is_nil u) eqn:Eu.
    - apply Hk; [done|]. left. split; [done|]. one_byte; lia.
    - destruct Hcells as [H1 (bs & H2 & H3 & H4)]. split; [apply Hk; [done|]; left; split; [done|]; one_byte; lia|].
      exists bs. split; [done|]. rewrite Forall_forall in Hok. destruct (Hok u ltac:(by eapply list_elem_of_lookup_2)) as [?|(bs' & E & Hl)]; [congruence|].
      rewrite H2 in E. injection E as <-. split; apply Hk; try done.
      + right. right. split; [done|]. apply zlen_conv_le; lia.
      + right. left. split; [done|]. rewrite zlen_le_bytes. lia. }
  unfold batch_cell. destruct (is_nil v) eqn:Ev.
  - eapply runs_weaken; [apply (runs_write base [c] st (mkPtr a 0) _ _ rows); ptrs; [done|by apply Hin; auto|done|lia|lia]|].
    intros _ st' (H1 & [H2 H3 H4 H5 H6 H7]). ptrs. split; [done|split; congruence|by split_and!; apply H5|intros; rewrite H4; by auto|].
    intros j u Hj Hu. destruct (decide (j = i)) as [->|].
    + assert (u = v) as -> by congruence. unfold cell_reads. by rewrite Ev.
    + apply Hlow; [|lia|done]. intros q o' bs' Hq [(-> & Hl)|[(-> & Hl)|(-> & Hl)]]; apply H7; try done; ptrs; auto.
  - rewrite Forall_forall in Hok. destruct (Hok v ltac:(by eapply list_elem_of_lookup_2)) as [?|(bs & Ebs & Hbs)]; [congruence|].
    pose proof (zlen_nonneg bs) as Hbs0.
    eapply runs_bind; [apply (runs_write base [c] st (mkPtr a 0) _ _ rows Hc); ptrs; [by apply Hin; auto|done|lia|lia]|].
    intros _ st1 (K1 & [K2 K3 K4 K5 K6 K7]). ptrs.
    eapply runs_bind; [by apply (runs_lift bs _ st1 (fun x st' => x = bs /\ st' = st1))|]. intros x st' [-> ->].
    eapply runs_bind; [apply (runs_write base [c] st1 (mkPtr c 0) _ bs (width * rows) K1); ptrs;
      [apply Hin; [auto|congruence]|by apply K5|nia|apply zlen_conv_le; lia]|].
    intros _ st2 (L1 & [L2 L3 L4 L5 L6 L7]). ptrs.
    eapply runs_weaken; [apply (runs_write base [c] st2 (mkPtr b 0) _ _ (rows * 4)); ptrs;
      [done|apply Hin; [auto|congruence]|by apply L5, K5|lia|rewrite zlen_le_bytes; lia]|].
    intros _ st3 (M1 & [M2 M3 M4 M5 M6 M7]). ptrs.
    split; [done|split; congruence|split_and!; by apply M5, L5, K5|intros; rewrite M4, L4, K4; by auto|].
    rewrite (wrap_u_id 32) in M6 by (unfold in_u; lia).
    intros j u Hj Hu. destruct (decide (j = i)) as [->|].
    + assert (u = v) as -> by congruence. unfold cell_reads. rewrite Ev. split; [apply M7; [apply L7; [done|]|]; ptrs; auto|].
      exists bs. split; [done|]. split; [apply M7; [done|]; ptrs; auto|done].
    + apply Hlow; [|lia|done]. intros q o' bs' Hq Hc'. apply M7; [apply L7; [apply K7; [done|]|]|];
        destruct Hc' as [(-> & Hl)|[(-> & Hl)|(-> & Hl)]]; ptrs; auto.
Qed.

End Column.

(** The structure of a column, whose cells are those of all the rows it announces, and what its values
    must be: of the type of the column, and of no more bytes than a value may take. *)
Definition column_reads (h : gmap nat (list (option Z))) (rows : Z) (ct : ColumnType) (col : list value) (bind : TAOS_MULTI_BIND) : Prop :=
  exists t width conv np lp p, column_case ct = Some (t, width, conv) /\
    bind = mkMultiBind t (Some p) width (Some lp) (Some np) rows /\ zlen col = rows /\
    forall i v, col !! i = Some v -> cell_reads width conv h np lp p (Z.of_nat i) v.
Definition column_ok (rows : Z) (ct : ColumnType) (col : list value) : Prop :=
  exists t width conv, column_case ct = Some (t, width, conv) /\ 0 <= width /\ width * rows < 2 ^ 32 /\ width < 2 ^ 32 /\
    zlen col = rows /\ Forall (cell_ok width conv) col.

Lemma fresh_listed base e st st' k : clean base e st -> clean base [] st' -> (brk st <= k)%nat -> is_Some (heap st' !! k) -> k ∈ freed (frees st').
Proof.
  intros Hc Hc' Hk Hs. destruct (decide (k ∈ freed (frees st'))) as [|Hn]; [done|]. exfalso.
  rewrite (clean_base _ _ _ Hc' k) in Hs by (by rewrite app_nil_r).
  destruct (decide (k ∈ freed (frees st) ++ e)) as [Hi|Hi].
  - destruct (clean_new _ _ _ Hc k Hi) as [_ E]. rewrite E in Hs. by destruct Hs.
  - rewrite <- (clean_base _ _ _ Hc k Hi) in Hs. pose proof (clean_brk _ _ _ Hc k Hs). lia.
Qed.

Lemma sized_new n h k : 0 <= n -> h !! k = Some (replicate (Z.to_nat n) None) -> sized h k n.
Proof. intros Hn H. eexists. split; [exact H|]. unfold zlen. rewrite length_replicate. lia. Qed.

(** A new block that is listed at once. *)
Lemma runs_listed_block {B} base st n (k : ptr -> cm B) Q : clean base [] st -> 0 <= n ->
  (forall st', clean base [] st' -> keeps st st' -> brk st' = S (brk st) -> sized (heap st') (brk st) n ->
    runs (k (mkPtr (brk st) 0)) st' Q) ->
  runs (p ← malloc n; _ ← need_free (Some p); k p) st Q.
Proof.
  intros Hc Hn Hk. eapply runs_bind; [apply (runs_malloc base [] n st (fun p st' => p = mkPtr (brk st) 0 /\ clean base [brk st] st' /\
    keeps st st' /\ brk st' = S (brk st) /\ heap st' !! brk st = Some (replicate (Z.to_nat n) None))); [done|done|intros; by split_and!]|].
  intros p st1 (-> & H1 & H2 & H3 & H4). eapply runs_bind;
    [apply (runs_need_free base (brk st) st1 (fun _ st' => clean base [] st' /\ heap st' = heap st1 /\ brk st' = brk st1) H1); intros; by split_and!|].
  intros _ st2 (K1 & K2 & K3). apply Hk; [done| |by rewrite K3|rewrite K2; by apply sized_new].
  destruct H2 as [Ha Hb]. split; [lia|]. intros j Hj. rewrite K2. by apply Hb.
Qed.

Lemma sized_keeps base e st st' k n : clean base e st -> keeps st st' -> sized (heap st) k n -> sized (heap st') k n.
Proof. intros Hc [_ Hk] (b & Hb & Hn). exists b. rewrite Hk; [done|]. apply (clean_brk _ _ _ Hc). by eexists. Qed.

Lemma runs_batch_column base st rows (bindType : list ColumnType) i ct col :
  clean base [] st -> 0 <= rows -> rows * 4 < 2 ^ 32 -> bindType !! i = Some ct -> column_ok rows ct col ->
  runs (batch_column rows bindType (Z.of_nat i) col) st
    (fun bind st' => clean base [] st' /\ keeps st st' /\ column_reads (heap st') rows ct col bind).
Proof.
  intros Hc Hr0 Hr Hi (t & width & conv & Ec & Hw0 & Hwr & Hw & Hl & Hok). unfold batch_column.
  rewrite (wrap_u_id 32 rows), (wrap_u_id 32 (rows * 4)) by (unfold in_u; lia).
  apply (runs_listed_block base); [done|done|]. intros st1 A1 A2 A3 A4. apply (runs_listed_block base); [done|lia|]. intros st2 B1 B2 B3 B4.
  eapply runs_bind; [apply (runs_lift ct _ st2 (fun x st' => x = ct /\ st' = st2)); [by apply zget_lookup|done]|]. intros ? ? [-> ->].
  rewrite Ec, (wrap_u_id 32) by (unfold in_u; nia).
  eapply runs_bind; [apply (runs_malloc base [] (width * rows) st2 (fun p st' => p = mkPtr (brk st2) 0 /\ clean base [brk st2] st' /\
    keeps st2 st' /\ frees st' = frees st2 /\ brk st' = S (brk st2) /\ heap st' !! brk st2 = Some (replicate (Z.to_nat (width * rows)) None)));
    [done|nia|intros; by split_and!]|].
  intros p st3 (-> & C1 & C2 & C3 & C4 & C5).
  assert (S1 : sized (heap st2) (brk st) rows) by (by apply (sized_keeps base [] st1)).
  assert (F1 : brk st ∈ freed (frees st3)).
  { rewrite C3. apply (fresh_listed base [] st); [done|done|lia|]. destruct S1 as (b & Hb & _). by exists b. }
  assert (F2 : brk st1 ∈ freed (frees st3)).
  { rewrite C3. apply (fresh_listed base [] st); [done|done|lia|]. destruct B4 as (b & Hb & _). by exists b. }
  eapply runs_bind.
  { apply (runs_crange _ (filling (brk st) (brk st1) (brk st2) width rows conv base st3 col) col 0 0 st3 eq_refl).
    - split; [done|done| |done|lia]. split_and!; [by apply (sized_keeps base [] st2)|by apply (sized_keeps base [] st2)|apply sized_new; [nia|done]].
    - intros j v st4 Hj Hf. rewrite Z.add_0_l. apply (runs_batch_cell _ _ _ _ _ _ base st3); try done; lia. }
  intros _ st4 [D1 [D2 D3] _ D4 D5]. apply (runs_listed base); [done|done|]. intros st5 E1 E2 E3. apply runs_ret.
  split; [done|]. split.
  - etransitivity; [|exact E2]. destruct A2 as [P1 P2], B2 as [Q1 Q2], C2 as [R1 R2]. split; [lia|]. intros k Hk.
    rewrite D4, R2, Q2, P2 by lia. done.
  - exists t, width, conv, (mkPtr (brk st) 0), (mkPtr (brk st1) 0), (mkPtr (brk st2) 0). split; [done|]. split.
    + rewrite (wrap_u_id 64) by (unfold in_u; lia). rewrite (wrap_s_id 32) by (try done; unfold in_s; change (32 - 1) with 31; lia). done.
    + split; [done|]. intros j v Hj. rewrite E3. apply D5; [|done]. by eapply lookup_lt_Some.
Qed.

Lemma column_reads_kept base e st st' rows ct col b : clean base e st -> keeps st st' -> column_reads (heap st) rows ct col b -> column_reads (heap st') rows ct col b.
Proof.
  intros Hc Hk (t & w & conv & np & lp & p & H1 & H2 & Hl & H3). exists t, w, conv, np, lp, p. do 3 (split; [done|]).
  intros i v Hv. specialize (H3 i v Hv). unfold cell_reads in *. destruct (is_nil v); [by apply (holds_kept base e st)|].
  destruct H3 as [K1 (bs & K2 & K3 & K4)]. split; [by apply (holds_kept base e st)|]. exists bs.
  split_and!; [done|by apply (holds_kept base e st)|by apply (holds_kept base e st)].
Qed.

Lemma runs_batch_columns base rows (bindType : list ColumnType) cols : forall i st, clean base [] st -> 0 <= rows -> rows * 4 < 2 ^ 32 ->
  Forall2 (column_ok rows) (drop i bindType) cols ->
  runs (batch_columns rows bindType (Z.of_nat i) cols) st
    (fun binds st' => clean base [] st' /\ keeps st st' /\ length binds = length cols /\
      forall j ct col b, drop i bindType !! j = Some ct -> cols !! j = Some col -> binds !! j = Some b -> column_reads (heap st') rows ct col b).
Proof.
  induction cols as [|col cols IH]; intros i st Hc Hr0 Hr Hok; cbn [batch_columns]; [by apply runs_ret|].
  apply Forall2_cons_inv_r in Hok as (ct & cts & Hct & Hok & Ed).
  assert (Hi : bindType !! i = Some ct).
  { replace i with (i + 0)%nat by lia. by rewrite <- lookup_drop, Ed. }
  assert (Ed' : drop (S i) bindType = cts) by (rewrite <- Nat.add_1_r, <- drop_drop, Ed; done).
  eapply runs_bind; [by apply (runs_batch_column base st rows bindType i ct)|]. intros b st1 (A1 & A2 & A3).
  replace (Z.of_nat i + 1) with (Z.of_nat (S i)) by lia.
  eapply runs_bind; [apply IH; try done; by rewrite Ed'|]. intros bs st2 (B1 & B2 & B3 & B4). apply runs_ret.
  split; [done|]. split; [by etransitivity|]. split; [cbn; by rewrite B3|]. intros j ct' col' b' H1 H2 H3. rewrite Ed in H1.
  destruct j as [|j]; cbn in H1, H2, H3; simplify_eq.
  - by apply (column_reads_kept base [] st1).
  - by eapply B4.
Qed.

(** A code of the call, with binds that are read as the columns, and the heap of the start. *)
Lemma runs_bind_batch (f : c_call) (cols : list (list value)) (bindType : list ColumnType) (rows : Z) (st : cstate) :
  wf st -> cols <> [] -> rows = zlen (default [] (head cols)) -> rows * 4 < 2 ^ 32 -> Forall2 (column_ok rows) bindType cols ->
  runs (TaosStmtBindParamBatch f cols bindType) st (fun x st' => exists h binds, length binds = length cols /\
    (forall j ct col b, bindType !! j = Some ct -> cols !! j = Some col -> binds !! j = Some b -> column_reads h rows ct col b) /\
    x = f h (Some binds) /\ heap st' = heap st /\ frees st' = frees st).
Proof.
  intros Hw Hc Er Hr Hok. unfold TaosStmtBindParamBatch. rewrite <- Er. apply runs_deferred.
  eapply runs_bind; [apply (runs_batch_columns (heap st) rows bindType cols 0); [by apply clean_start|subst; apply zlen_nonneg|done|done]|].
  intros binds st1 (A1 & A2 & A3 & A4). rewrite bool_decide_eq_false_2 by (intros ->; by destruct cols).
  eexists _, _. split; [reflexivity|]. split; [done|]. intros st2 H4 H5 _. exists (heap st1), binds. split_and!; done.
Qed.

(** The columns are read as they were passed, null values as null, and the memory is as it was before. *)
Theorem TaosStmtBindParamBatch_binds (f : c_call) (cols : list (list value)) (bindType : list ColumnType) (rows : Z) (st : cstate) :
  wf st -> cols <> [] -> rows = zlen (default [] (head cols)) -> rows * 4 < 2 ^ 32 -> Forall2 (column_ok rows) bindType cols ->
  exists h binds st', length binds = length cols /\
    (forall j ct col b, bindType !! j = Some ct -> cols !! j = Some col -> binds !! j = Some b -> column_reads h rows ct col b) /\
    TaosStmtBindParamBatch f cols bindType st = (Ret (f h (Some binds)), st') /\ heap st' = heap st /\ frees st' = frees st.
Proof.
  intros Hw Hc Er Hr Hok. destruct (runs_bind_batch f cols bindType rows st Hw Hc Er Hr Hok) as (x & st' & E & h & binds & H1 & H2 & -> & H3 & H4).
  by exists h, binds, st'.
Qed.

End CStmtSpec.
