(* ===== verification/StmtParse.v ===== *)
(** * StmtParse: json bind messages as bind values

    Models [StmtParseColumn], [StmtParseTag] and [strToHex] of [src/controller/ws/stmt/convert.go]: the
    columns and the tags of a json bind message become typed bind values.  The json iterator is a library
    type: a record of the operations the functions call, with the laws they rely on in a class of their
    own ([IteratorLaws]); [time.Parse] is a parameter.  The texts of errors are kept as their parts. *)
From S2P Require Import Prelude Common Types Stmt2 StmtConvert.
#[local] Open Scope Z_scope.

Module Parse.

(** ** Hexadecimal strings *)

Inductive hex_error := NotHex (s : list Z) | ErrSyntax (s : list Z) | ErrRange (s : list Z).

(** [strconv.ParseUint(s, 16, 8)]. *)
Definition hex_digit (c : Z) : option Z :=
  let d := if bool_decide (48 <= c <= 57) then Some (c - 48)
           else let l := Z.lor c 32 in if bool_decide (97 <= l <= 122) then Some (l - 97 + 10) else None in
  match d with Some d => if 16 <=? d then None else Some d | None => None end.
Fixpoint ParseUint_digits (s0 : list Z) (n : Z) (s : list Z) : hex_error + Z :=
  match s with
  | [] => inr n
  | c :: s =>
    match hex_digit c with
    | None => inl (ErrSyntax s0)
    | Some d => if 255 <? n * 16 + d then inl (ErrRange s0) else ParseUint_digits s0 (n * 16 + d) s
    end
  end.
Definition ParseUint_16_8 (s : list Z) : hex_error + Z :=
  if bool_decide (s = []) then inl (ErrSyntax s) else ParseUint_digits s 0 s.

(** The loop over the pairs of characters; the nil slice is the empty one. *)
Fixpoint hex_pairs (str result : list Z) : list Z * option hex_error :=
  match str with
  | a :: b :: str =>
    match ParseUint_16_8 [a; b] with
    | inl e => ([], Some e)
    | inr v => hex_pairs str (result ++ [u8 v])
    end
  | _ => (result, None)
  end.
Definition strToHex (str : list Z) : list Z * option hex_error :=
  if zlen str =? 0 then ([], None)
  else if negb (zlen str mod 2 =? 0) then ([], Some (NotHex str))
  else hex_pairs str [].

(** ** The json iterator *)

(** What is reported to the iterator. *)
Inductive report :=
| WrongRowLength (want got : Z) | ParseVarbinary (e : hex_error) | ParseGeometry (e : hex_error)
| ParseTime (s : list Z) | UnknownColumnTypes (t : Z).
Inductive jerror := EOF | Reported (r : report) | Malformed (text : list Z).
(** [jsoniter.ValueType]. *)
Inductive ValueType := InvalidValue | StringValue | NumberValue | NilValue | BoolValue | ArrayValue | ObjectValue.

Record Iterator := mkIterator {
  iter : Type;
  BorrowIterator : list Z -> iter;
  iter_Error : iter -> option jerror;
  ReportError : report -> iter -> iter;
  ReadNil : iter -> bool * iter;
  WhatIsNext : iter -> ValueType * iter;
  ReadBool : iter -> bool * iter;
  ReadInt8 : iter -> Z * iter; ReadInt16 : iter -> Z * iter; ReadInt32 : iter -> Z * iter; ReadInt64 : iter -> Z * iter;
  ReadUint8 : iter -> Z * iter; ReadUint16 : iter -> Z * iter; ReadUint32 : iter -> Z * iter; ReadUint64 : iter -> Z * iter;
  ReadFloat32 : iter -> Z * iter; ReadFloat64 : iter -> Z * iter;
  ReadString : iter -> list Z * iter;
  ReadArrayCB : forall S, (S -> iter -> go (bool * S * iter)) -> S -> iter -> go (S * iter) }.
Arguments iter_Error {_}. Arguments ReportError {_}. Arguments ReadNil {_}. Arguments WhatIsNext {_}. Arguments ReadBool {_}.
Arguments ReadInt8 {_}. Arguments ReadInt16 {_}. Arguments ReadInt32 {_}. Arguments ReadInt64 {_}.
Arguments ReadUint8 {_}. Arguments ReadUint16 {_}. Arguments ReadUint32 {_}. Arguments ReadUint64 {_}.
Arguments ReadFloat32 {_}. Arguments ReadFloat64 {_}. Arguments ReadString {_}. Arguments ReadArrayCB {_ _}.

Section Parse.
Context (I : Iterator) (time_Parse : list Z -> option Z).

(** [iter.Error == nil]. *)
Definition no_error (it : iter I) : bool := match iter_Error it with None => true | Some _ => false end.

(** The case of a field of time. *)
Definition read_time (precision : Z) (it : iter I) : go (value * iter I) :=
  let '(valueType, it) := WhatIsNext it in
  match valueType with
  | NumberValue => let '(n, it) := ReadInt64 it in T ← TimestampConvertToTime n precision; Ret (TaosTimestamp T precision, it)
  | StringValue =>
    let '(s, it) := ReadString it in
    match time_Parse s with
    | Some T => Ret (TaosTimestamp T precision, it)
    | None => Ret (TaosTimestamp Null.zero_time precision, ReportError (ParseTime s) it)
    end
  | _ => Ret (TaosTimestamp Null.zero_time precision, it)
  end.

(** The cases of the two binary types. *)
Definition read_hex (rep : hex_error -> report) (it : iter I) : list Z * iter I :=
  let '(str, it) := ReadString it in
  match strToHex str with
  | (s, Some e) => (s, ReportError (rep e) it)
  | (s, None) => (s, it)
  end.

(** The switch on the type of a field, [None] where it appends nothing. *)
Definition tagged {A} (tag : A -> value) (r : A * iter I) : go (option value * iter I) := Ret (Some (tag (fst r)), snd r).
Definition read_value (colType precision : Z) (it : iter I) : go (option value * iter I) :=
  if colType =? TSDB_DATA_TYPE_BOOL then tagged TaosBool (ReadBool it)
  else if colType =? TSDB_DATA_TYPE_TINYINT then tagged TaosTinyint (ReadInt8 it)
  else if colType =? TSDB_DATA_TYPE_SMALLINT then tagged TaosSmallint (ReadInt16 it)
  else if colType =? TSDB_DATA_TYPE_INT then tagged TaosInt (ReadInt32 it)
  else if colType =? TSDB_DATA_TYPE_BIGINT then tagged TaosBigint (ReadInt64 it)
  else if colType =? TSDB_DATA_TYPE_FLOAT then tagged TaosFloat (ReadFloat32 it)
  else if colType =? TSDB_DATA_TYPE_DOUBLE then tagged TaosDouble (ReadFloat64 it)
  else if colType =? TSDB_DATA_TYPE_BINARY then tagged TaosBinary (ReadString it)
  else if colType =? TSDB_DATA_TYPE_VARBINARY then tagged TaosVarBinary (read_hex ParseVarbinary it)
  else if colType =? TSDB_DATA_TYPE_GEOMETRY then tagged TaosGeometry (read_hex ParseGeometry it)
  else if colType =? TSDB_DATA_TYPE_TIMESTAMP then r ← read_time precision it; tagged id r
  else if colType =? TSDB_DATA_TYPE_NCHAR then tagged TaosNchar (ReadString it)
  else if colType =? TSDB_DATA_TYPE_UTINYINT then tagged TaosUTinyint (ReadUint8 it)
  else if colType =? TSDB_DATA_TYPE_USMALLINT then tagged TaosUSmallint (ReadUint16 it)
  else if colType =? TSDB_DATA_TYPE_UINT then tagged TaosUInt (ReadUint32 it)
  else if colType =? TSDB_DATA_TYPE_UBIGINT then tagged TaosUBigint (ReadUint64 it)
  else Ret (None, ReportError (UnknownColumnTypes colType) it).

(** ** Columns *)

(** The variables that the callbacks share. *)
Record columns_state := mkColumns {
  data : list (list value); rowNums : Z; rowIndex : Z; colIndex : Z; fieldTypes : option (list ColumnType) }.

(** The strings whose lengths are kept in [MaxLen]. *)
Definition text_of (v : value) : option (list Z) :=
  match v with TaosBinary s | TaosVarBinary s | TaosGeometry s | TaosNchar s => Some s | _ => None end.

(** The callback of a row. *)
Definition read_row (f : StmtField) (s : columns_state) (it : iter I) : go (bool * columns_state * iter I) :=
  let '(isNil, it) := ReadNil it in
  r ← (if (isNil : bool) then Ret (Some VNil, it) else read_value (sf_FieldType f) (sf_Precision f) it);
  let '(v, it) := r in
  s ← match v with
      | None => Ret s
      | Some v =>
        cells ← zget (data s) (colIndex s);
        data' ← zset (data s) (colIndex s) (cells ++ [v]);
        fts ← match text_of v with
              | Some t => Convert.grow (fieldTypes s) (colIndex s) (zlen t)
              | None => Ret (fieldTypes s)
              end;
        Ret (mkColumns data' (rowNums s) (rowIndex s) (colIndex s) fts)
      end;
  Ret (no_error it, mkColumns (data s) (rowNums s) (rowIndex s + 1) (colIndex s) (fieldTypes s), it).

(** The callback of a column. *)
Definition read_column (fields : list StmtField) (s : columns_state) (it : iter I) : go (bool * columns_state * iter I) :=
  f ← zget fields (colIndex s);
  let s := if colIndex s =? 1 then mkColumns (data s) (rowIndex s) (rowIndex s) (colIndex s) (fieldTypes s) else s in
  if (1 <? colIndex s) && negb (rowNums s =? rowIndex s)
  then Ret (false, s, ReportError (WrongRowLength (rowNums s) (rowIndex s)) it)
  else
    r ← ReadArrayCB (read_row f) (mkColumns (data s) (rowNums s) 0 (colIndex s) (fieldTypes s)) it;
    let '(s, it) := r in
    Ret (no_error it, mkColumns (data s) (rowNums s) (rowIndex s) (colIndex s + 1) (fieldTypes s), it).

(** [iter.Error != nil && iter.Error != io.EOF]. *)
Definition parsed {A} (x : A) (it : iter I) : jerror + A :=
  match iter_Error it with None | Some EOF => inr x | Some e => inl e end.

(** The columns or the error, and what the column types have become. *)
Definition StmtParseColumn (columns : list Z) (fields : list StmtField) (fts : option (list ColumnType)) :
    go ((jerror + list (list value)) * option (list ColumnType)) :=
  r ← ReadArrayCB (read_column fields) (mkColumns (replicate (length fields) []) 0 0 0 fts) (BorrowIterator I columns);
  let '(s, it) := r in
  Ret (parsed (data s) it, fieldTypes s).

(** ** Tags *)

Definition read_tag (fields : list StmtField) (s : list value * Z) (it : iter I) : go (bool * (list value * Z) * iter I) :=
  let '(data, colIndex) := s in
  f ← zget fields colIndex;
  let '(isNil, it) := ReadNil it in
  r ← (if (isNil : bool) then Ret (Some VNil, it)
       else if sf_FieldType f =? TSDB_DATA_TYPE_JSON then tagged TaosJson (ReadString it)
       else read_value (sf_FieldType f) (sf_Precision f) it);
  let '(v, it) := r in
  data ← match v with Some v => zset data colIndex v | None => Ret data end;
  Ret (no_error it, (data, colIndex + 1), it).

Definition StmtParseTag (tags : list Z) (fields : list StmtField) : go (jerror + list value) :=
  r ← ReadArrayCB (read_tag fields) (replicate (length fields) VNil, 0) (BorrowIterator I tags);
  let '(s, it) := r in
  Ret (parsed (fst s) it).

End Parse.
Arguments data. Arguments rowNums. Arguments rowIndex. Arguments colIndex. Arguments fieldTypes.

(** ** What is relied on of the iterator *)

(** The runs of [ReadArrayCB] with a callback, over at most [n] elements: the callback is called with the
    iterator at each element, until it returns false, or the array ends or is malformed; after a false the
    error of the iterator stays. *)
Inductive array_run {I : Iterator} {S} (f : S -> iter I -> go (bool * S * iter I)) : nat -> S -> go (S * iter I) -> Prop :=
| run_done n s it : array_run f n s (Ret (s, it))
| run_stop n s it s' it' it'' : f s it = Ret (false, s', it') -> iter_Error it'' = iter_Error it' -> array_run f (Datatypes.S n) s (Ret (s', it''))
| run_next n s it s' it' r : f s it = Ret (true, s', it') -> array_run f n s' r -> array_run f (Datatypes.S n) s r
| run_panic n s it : f s it = Panic -> array_run f (Datatypes.S n) s Panic
| run_err n s it e : f s it = Err e -> array_run f (Datatypes.S n) s (Err e)
| run_fault n s it : f s it = Fault -> array_run f (Datatypes.S n) s Fault.

(** [ReportError] sets the error unless there is one other than the end of the input, and [array_size] is
    the number of elements of the array at an iterator. *)
Class IteratorLaws (I : Iterator) (array_size : iter I -> nat) := {
  ReportError_set : forall r it, exists e, iter_Error (ReportError (i := I) r it) = Some e /\ e <> EOF;
  ReadArrayCB_run : forall S (f : S -> iter I -> go (bool * S * iter I)) s it, array_run f (array_size it) s (ReadArrayCB f s it) }.

(** What the callback keeps holds at the end: with [P] for the number of elements read, and [Q] for what
    stops it. *)
Lemma array_run_inv {I : Iterator} {S} (f : S -> iter I -> go (bool * S * iter I)) (P : nat -> S -> Prop) (Q : S -> option jerror -> Prop) n s r :
  array_run f n s r -> forall k, P k s ->
  (forall j s it, (k <= j < k + n)%nat -> P j s -> exists b s' it', f s it = Ret (b, s', it') /\
    if (b : bool) then P (Datatypes.S j) s' else Q s' (iter_Error it')) ->
  exists s' it', r = Ret (s', it') /\ ((exists j, (k <= j <= k + n)%nat /\ P j s') \/ Q s' (iter_Error it')).
Proof.
  induction 1 as [n s it|n s it s1 it1 it2 E1 E2|n s it s1 it1 r E1 _ IH|n s it E1|n s it e E1|n s it E1]; intros k HP Hf.
  { exists s, it. split; [done|]. left. exists k. split; [lia|done]. }
  all: destruct (Hf k s it ltac:(lia) HP) as (b & s' & it' & E & H); rewrite E1 in E; simplify_eq.
  - exists s', it2. split; [done|]. right. by rewrite E2.
  - destruct (IH (Datatypes.S k) H) as (s2 & it2 & -> & H2); [intros j s0 it0 Hj; apply Hf; lia|].
    exists s2, it2. split; [done|]. destruct H2 as [(j & Hj & H2)|H2]; [left; exists j; split; [lia|done]|by right].
Qed.

End Parse.
