(* ===== verification/StmtParseSpec.v ===== *)
(** * StmtParseSpec: the theorems about json bind messages

    What [StmtParseColumn] accepts has values of the types of the fields, none longer than its column type
    says, and columns of equal length but for the last one sent; such columns are then bound as they were
    sent, when that of the last field is as long as the first. *)
From S2P Require Import Prelude Common Stmt2 StmtConvert CHeap CStmt CStmtSpec StmtParse.
From stdpp Require Import gmap.
#[local] Open Scope Z_scope.

Module ParseSpec.
Import Parse CHeap CStmt CStmtSpec.

(** ** Hexadecimal strings *)

Definition hex_char (d : Z) : Z := if d <? 10 then 48 + d else 87 + d.
Definition to_hex (bs : list Z) : list Z := bs ≫= fun b => [hex_char (b / 16); hex_char (b mod 16)].

Lemma hex_digit_char d : 0 <= d < 16 -> hex_digit (hex_char d) = Some d.
Proof.
  intros Hd. assert (d = 0 \/ d = 1 \/ d = 2 \/ d = 3 \/ d = 4 \/ d = 5 \/ d = 6 \/ d = 7 \/ d = 8 \/ d = 9 \/
    d = 10 \/ d = 11 \/ d = 12 \/ d = 13 \/ d = 14 \/ d = 15) by lia.
  by repeat match goal with H : _ \/ _ |- _ => destruct H as [->|H] | H : d = _ |- _ => subst d end.
Qed.

Lemma hex_pair b : is_byte b -> ParseUint_16_8 [hex_char (b / 16); hex_char (b mod 16)] = inr b.
Proof.
  unfold is_byte. intros Hb. unfold ParseUint_16_8. rewrite bool_decide_eq_false_2 by done. cbn [ParseUint_digits].
  rewrite !hex_digit_char by div_lia. rewrite (proj2 (Z.ltb_ge _ _)) by div_lia. rewrite (proj2 (Z.ltb_ge _ _)) by div_lia.
  f_equal. div_lia.
Qed.

Lemma hex_pairs_to_hex bs : forall r, is_bytes bs -> hex_pairs (to_hex bs) r = (r ++ bs, None).
Proof.
  induction bs as [|b bs IH]; intros r Hb; [by rewrite app_nil_r|]. apply Forall_cons in Hb as [Hb Hbs].
  change (to_hex (b :: bs)) with (hex_char (b / 16) :: hex_char (b mod 16) :: to_hex bs). cbn [hex_pairs].
  rewrite hex_pair, IH by done. unfold is_byte in Hb. rewrite wrap_u_id by (unfold in_u; lia). by rewrite <- app_assoc.
Qed.

Lemma zlen_to_hex bs : zlen (to_hex bs) = 2 * zlen bs.
Proof. induction bs as [|b bs IH]; [done|]. change (to_hex (b :: bs)) with ([hex_char (b / 16); hex_char (b mod 16)] ++ to_hex bs). rewrite zlen_app, IH, !zlen_cons, zlen_nil. lia. Qed.

(** What is written in hexadecimal is read back. *)
Theorem strToHex_to_hex (bs : list Z) : is_bytes bs -> strToHex (to_hex bs) = (bs, None).
Proof.
  intros Hb. unfold strToHex. rewrite zlen_to_hex, Z.mul_comm, Z.mod_mul by done. destruct (Z.eqb_spec (zlen bs * 2) 0) as [E|E].
  - destruct bs; [done|]. rewrite zlen_cons in E. pose proof (zlen_nonneg bs). lia.
  - cbn. by rewrite hex_pairs_to_hex.
Qed.

(** ** Values *)

(** A field and its column type at the start, as [GetType] makes it; json is no type of columns. *)
Definition bindable (f : StmtField) (ct : ColumnType) : Prop :=
  GetType f = Ret ct /\ sf_FieldType f <> TSDB_DATA_TYPE_JSON /\
  (sf_FieldType f = TSDB_DATA_TYPE_TIMESTAMP -> precision_ok (sf_Precision f)).

(** A value that can be bound in a column of a type. *)
Definition fits (ct : ColumnType) (v : value) : Prop :=
  match column_case ct with Some (_, width, conv) => cell_ok width conv v | None => False end.

Lemma fits_longer ty m m' v : m <= m' -> fits (mkColumnType ty m) v -> fits (mkColumnType ty m') v.
Proof. intros Hm. unfold fits, column_case, cell_ok. destruct ty; cbn; try done; intros [H|(bs & H1 & H2)]; auto; right; exists bs; split; (done || lia). Qed.

Lemma column_case_case ty m : match column_case (mkColumnType ty m), column_case (mkColumnType ty 0) with Some _, Some _ | None, None => True | _, _ => False end.
Proof. by destruct ty. Qed.

Lemma convertible T p : precision_ok p -> exists n, TimeToTimestamp T p = Ret n.
Proof. intros Hp. destruct (precision_cases p Hp) as [->|[->| ->]]; by eexists. Qed.

Section Values.
Context (I : Iterator) (time_Parse : list Z -> option Z).

Lemma read_time_ok p it : precision_ok p -> exists T it', read_time I time_Parse p it = Ret (TaosTimestamp T p, it').
Proof.
  intros Hp. unfold read_time. destruct (WhatIsNext it) as [ty it1].
  assert (Hc : forall n, exists T, TimestampConvertToTime n p = Ret T) by (intros n; destruct (precision_cases p Hp) as [->|[->| ->]]; by eexists).
  destruct ty; try by eexists _, _.
  - destruct (ReadString it1) as [s it2]. destruct (time_Parse s); by eexists _, _.
  - destruct (ReadInt64 it1) as [n it2]. destruct (Hc n) as [T ->]. by eexists _, _.
Qed.

(** What is read for a field fits its column when the column type is long enough. *)
Lemma read_value_ok f ct it : bindable f ct ->
  exists v it', read_value I time_Parse (sf_FieldType f) (sf_Precision f) it = Ret (Some v, it') /\
    forall m, match text_of v with Some s => zlen s <= m | None => True end -> fits (mkColumnType (ct_Type ct) m) v.
Proof.
  intros (Hg & Hj & Hp). unfold GetType in Hg. unfold read_value.
  repeat match type of Hg with (if ?b then _ else _) = _ => destruct b eqn:? end; try discriminate;
    repeat match goal with H : (_ =? _) = true |- _ => apply Z.eqb_eq in H end; simplify_eq; try done; try congruence;
    repeat match goal with H : sf_FieldType f = _ |- _ => rewrite H end; cbn.
  all: try (eexists _, _; split; [reflexivity|]; intros m Hm; right; eexists; split; [reflexivity|]; cbn in *; rewrite ?zlen_le_bytes; done).
  destruct (read_time_ok (sf_Precision f) it (Hp ltac:(done))) as (T & it' & ->). eexists _, _. split; [reflexivity|].
  intros m _. right. destruct (convertible T (sf_Precision f) (Hp ltac:(done))) as [n Hn]. cbn. rewrite Hn. eexists. split; [reflexivity|]. by cbn.
Qed.

Lemma bindable_nil f ct m : bindable f ct -> fits (mkColumnType (ct_Type ct) m) VNil.
Proof.
  intros (Hg & Hj & _). unfold GetType in Hg.
  repeat match type of Hg with (if ?b then _ else _) = _ => destruct b eqn:? end; try discriminate;
    repeat match goal with H : (_ =? _) = true |- _ => apply Z.eqb_eq in H end; simplify_eq; try congruence; by left.
Qed.

(** ** Columns *)

Context (fields : list StmtField) (fts0 : list ColumnType).
Context (Hbind : Forall2 bindable fields fts0).

(** The column types keep their types, and the values fit them. *)
Definition fitting (fts : list ColumnType) (cols : list (list value)) : Prop :=
  ct_Type <$> fts = ct_Type <$> fts0 /\ forall i ft col, fts !! i = Some ft -> cols !! i = Some col -> Forall (fits ft) col.

Record sound (s : columns_state) : Prop := mkSound {
  sound_len : length (data s) = length fields;
  sound_fts : exists fts, fieldTypes s = Some fts /\ fitting fts (data s) }.

(** The callback of a row appends a value to the column. *)
Record row_read (s0 : columns_state) (c : nat) (s : columns_state) : Prop := mkRowRead {
  row_sound : sound s;
  row_col : colIndex s = Z.of_nat c;
  row_nums : rowNums s = rowNums s0;
  row_cells : exists cells, data s !! c = Some cells /\ rowIndex s = zlen cells;
  row_rest : forall i, i <> c -> data s !! i = data s0 !! i }.

Lemma fitting_append fts cols c ft cells v : fitting fts cols -> fts !! c = Some ft -> cols !! c = Some cells -> fits ft v ->
  fitting fts (<[c := cells ++ [v]]> cols).
Proof.
  intros [H1 H2] Hft Hc Hv. split; [done|]. intros i ft' col Hft' Hcol. destruct (decide (i = c)) as [->|Hi].
  - rewrite list_lookup_insert_eq in Hcol by (by eapply lookup_lt_Some). simplify_eq. apply Forall_app. split; [by eapply H2|by repeat constructor].
  - rewrite list_lookup_insert_ne in Hcol by done. by eapply H2.
Qed.

Lemma fitting_longer fts cols c ft m : fitting fts cols -> fts !! c = Some ft -> ct_MaxLen ft <= m ->
  fitting (<[c := mkColumnType (ct_Type ft) m]> fts) cols.
Proof.
  intros [H1 H2] Hft Hm. split.
  - rewrite list_fmap_insert. cbn. rewrite list_insert_id; [done|]. by rewrite list_lookup_fmap, Hft.
  - intros i ft' col Hft' Hcol. destruct (decide (i = c)) as [->|Hi].
    + rewrite list_lookup_insert_eq in Hft' by (by eapply lookup_lt_Some). simplify_eq. eapply Forall_impl; [by eapply H2|].
      intros v. destruct ft as [ty k]. by apply fits_longer.
    + rewrite list_lookup_insert_ne in Hft' by done. by eapply H2.
Qed.

Lemma field_type fts c f ft : ct_Type <$> fts = ct_Type <$> fts0 -> fields !! c = Some f -> fts !! c = Some ft ->
  exists ct, bindable f ct /\ ct_Type ct = ct_Type ft.
Proof.
  intros E Hf Hft. destruct (Forall2_lookup_l _ _ _ _ _ Hbind Hf) as (ct & Hct & Hb). exists ct. split; [done|].
  assert (H : (ct_Type <$> fts) !! c = Some (ct_Type ft)) by (by rewrite list_lookup_fmap, Hft).
  rewrite E, list_lookup_fmap, Hct in H. by injection H.
Qed.

Lemma fitting_length fts cols : fitting fts cols -> length fts = length fields.
Proof. intros [H _]. rewrite (Forall2_length _ _ _ Hbind), <- (length_fmap ct_Type fts), H. apply length_fmap. Qed.

(** [MaxLen] grows with a string. *)
Lemma grow_fitting fts cols c f v : fitting fts cols -> fields !! c = Some f ->
  (forall ct m, bindable f ct -> match text_of v with Some s => zlen s <= m | None => True end -> fits (mkColumnType (ct_Type ct) m) v) ->
  exists fts' ft, match text_of v with Some t => Convert.grow (Some fts) (Z.of_nat c) (zlen t) | None => Ret (Some fts) end = Ret (Some fts') /\
    fitting fts' cols /\ fts' !! c = Some ft /\ fits ft v.
Proof.
  intros Hfit Hf Hv. assert (Hc : (c < length fts)%nat) by (rewrite (fitting_length _ _ Hfit); by eapply lookup_lt_Some).
  destruct (lookup_lt_is_Some_2 fts c Hc) as [ft Hft]. destruct (field_type fts c f ft (proj1 Hfit) Hf Hft) as (ct & Hb & Et).
  destruct ft as [ty k]. cbn in Et. subst ty. destruct (text_of v) as [t|] eqn:Ev.
  2: { exists fts, (mkColumnType (ct_Type ct) k). split_and!; try done. by apply Hv. }
  cbn [Convert.grow]. rewrite (zget_lookup _ _ _ Hft). cbn [mbind go_mbind ct_MaxLen]. case_if E.
  - rewrite zset_in by (unfold zlen; lia). rewrite Nat2Z.id. cbn [ct_Type fmap go_fmap].
    eexists _, (mkColumnType (ct_Type ct) (zlen t)). split; [reflexivity|].
    split_and!; [|by apply list_lookup_insert_eq|by apply Hv]. apply (fitting_longer fts cols c (mkColumnType (ct_Type ct) k)); cbn; [done|done|lia].
  - exists fts, (mkColumnType (ct_Type ct) k). split_and!; try done. apply Hv; [done|lia].
Qed.

Lemma read_row_ok s0 c f s it : fields !! c = Some f -> row_read s0 c s ->
  exists b s' it', read_row I time_Parse f s it = Ret (b, s', it') /\ row_read s0 c s'.
Proof.
  intros Hf [[H1 (fts & Ef & Hfit)] H2 H3 (cells & Hc & Hr) H5]. unfold read_row. destruct (ReadNil it) as [isNil it1].
  assert (Hv : exists v it', (if isNil then Ret (Some VNil, it1) else read_value I time_Parse (sf_FieldType f) (sf_Precision f) it1) = Ret (Some v, it') /\
    forall ct m, bindable f ct -> match text_of v with Some s => zlen s <= m | None => True end -> fits (mkColumnType (ct_Type ct) m) v).
  { destruct isNil; [exists VNil, it1; split; [done|]; intros; by apply (bindable_nil f)|].
    destruct (Forall2_lookup_l _ _ _ _ _ Hbind Hf) as (ct & _ & Hb). destruct (read_value_ok f ct it1 Hb) as (v & it' & E & Hv).
    exists v, it'. split; [done|]. intros ct' m [Hg _]. destruct Hb as [Hg' _]. rewrite Hg in Hg'. injection Hg' as ->. apply Hv. }
  destruct Hv as (v & it2 & E & Hv). rewrite E. cbn [mbind go_mbind]. rewrite H2, (zget_lookup _ _ _ Hc). cbn [mbind go_mbind].
  apply lookup_lt_Some in Hc as Hlt. rewrite zset_in by (unfold zlen; lia). cbn [mbind go_mbind]. rewrite Nat2Z.id, Ef.
  destruct (grow_fitting fts (data s) c f v Hfit Hf Hv) as (fts' & ft & Eg & G1 & G2 & G3). rewrite Eg. cbn [mbind go_mbind].
  eexists _, _, _. split; [reflexivity|]. split; cbn; [split; cbn|done|done| |].
  - by rewrite length_insert.
  - exists fts'. split; [done|]. by apply (fitting_append _ _ _ ft).
  - exists (cells ++ [v]). split; [by rewrite list_lookup_insert_eq|]. rewrite Hr, zlen_snoc. lia.
  - intros i Hi. rewrite list_lookup_insert_ne by done. by apply H5.
Qed.

(** Between two columns, when [n] have been read: all but the last of them have the rows of the first. *)
Record columns_read (n : nat) (s : columns_state) : Prop := mkColumnsRead {
  cols_sound : sound s;
  cols_col : colIndex s = Z.of_nat n;
  cols_empty : forall i col, (n <= i)%nat -> data s !! i = Some col -> col = [];
  cols_index : forall i col, n = Datatypes.S i -> data s !! i = Some col -> rowIndex s = zlen col;
  cols_nums : forall col, (2 <= n)%nat -> data s !! 0%nat = Some col -> rowNums s = zlen col;
  cols_equal : forall i col col0, (Datatypes.S i < n)%nat -> data s !! i = Some col -> data s !! 0%nat = Some col0 -> zlen col = zlen col0 }.

Definition refused (err : option jerror) : Prop := exists e, err = Some e /\ e <> EOF.

Lemma read_column_ok array_size `{!IteratorLaws I array_size} n s it : (n < length fields)%nat -> columns_read n s ->
  exists b s' it', read_column I time_Parse fields s it = Ret (b, s', it') /\
    (columns_read (Datatypes.S n) s' \/ b = false /\ refused (iter_Error it') /\ fieldTypes s' = fieldTypes s).
Proof.
  intros Hn [H1 H2 H3 H4 H5 H6]. destruct (lookup_lt_is_Some_2 fields n Hn) as [f Hf]. unfold read_column.
  rewrite H2, (zget_lookup _ _ _ Hf). cbn [mbind go_mbind]. set (s1 := if Z.of_nat n =? 1 then _ else s).
  assert (E1 : data s1 = data s /\ rowIndex s1 = rowIndex s /\ colIndex s1 = Z.of_nat n /\ fieldTypes s1 = fieldTypes s /\
    rowNums s1 = if Z.of_nat n =? 1 then rowIndex s else rowNums s).
  { unfold s1. by case_if E. }
  clearbody s1. destruct E1 as (D1 & D2 & D3 & D4 & D5). rewrite D3. case_if Ew.
  { destruct (ReportError_set (WrongRowLength (rowNums s1) (rowIndex s1)) it) as (e & He & Hne). eexists _, _, _. split; [reflexivity|].
    right. split_and!; [done|by exists e|done]. }
  destruct (lookup_lt_is_Some_2 (data s) n ltac:(rewrite (sound_len _ H1); lia)) as [col Hcol].
  pose proof (H3 n col ltac:(lia) Hcol) as ->.
  destruct (array_run_inv (read_row I time_Parse f) (fun _ => row_read s1 n) (fun s _ => row_read s1 n s) (array_size it)
    (mkColumns (data s1) (rowNums s1) 0 (Z.of_nat n) (fieldTypes s1)) _ (ReadArrayCB_run _ _ _ it) 0) as (s2 & it2 & Er & Hs2).
  { split; cbn; [|done|done| |done].
    - destruct H1 as [L (fts & Ef & Hfit)]. split; cbn; [by rewrite D1|]. exists fts. by rewrite D1, D4.
    - exists []. by rewrite D1. }
  { intros _ s2 it2 _ Hs2. destruct (read_row_ok s1 n f s2 it2 Hf Hs2) as (b & s3 & it3 & E & Hs3). exists b, s3, it3. split; [done|]. by destruct b. }
  rewrite Er. cbn [mbind go_mbind]. assert (Hr : row_read s1 n s2) by (destruct Hs2 as [(_ & _ & ?)|?]; done). clear Hs2 Er.
  destruct Hr as [R1 R2 R3 (cells & R4 & R5) R6]. eexists _, _, _. split; [reflexivity|]. left.
  assert (Hrows : forall i c c0, (Datatypes.S i = n)%nat -> data s !! i = Some c -> data s !! 0%nat = Some c0 -> zlen c = zlen c0).
  { intros i c c0 Hi Hc Hc0. destruct (decide (n = 1%nat)) as [->|]; [injection Hi as ->; congruence|].
    rewrite <- (H4 i c (eq_sym Hi) Hc), <- (H5 c0 ltac:(lia) Hc0). rewrite D2, D5 in Ew. destruct (Z.eqb_spec (Z.of_nat n) 1); [lia|].
    apply andb_false_iff in Ew as [?|?]; lia. }
  rewrite D1 in R6. split; cbn [data rowNums rowIndex colIndex fieldTypes]; try (destruct R1; by split).
  - rewrite R2. lia.
  - intros i c Hi Hc. rewrite R6 in Hc by lia. apply (H3 i); [lia|done].
  - intros i c Hi Hc. injection Hi as <-. rewrite R4 in Hc. by injection Hc as <-.
  - intros c Hn2 Hc. rewrite R6 in Hc by lia. rewrite R3, D5. destruct (Z.eqb_spec (Z.of_nat n) 1); [by apply (H4 0%nat); [lia|]|by apply H5; [lia|]].
  - intros i c c0 Hi Hc Hc0. rewrite R6 in Hc by lia. destruct (decide (n = 0%nat)) as [->|]; [lia|]. rewrite R6 in Hc0 by lia.
    destruct (decide (Datatypes.S i = n)); [by apply (Hrows i)|]. apply (H6 i); (done || lia).
Qed.

(** What is accepted: columns for the fields, those sent but the last of equal length, and values that fit. *)
Record accepted (fts : list ColumnType) (cols : list (list value)) (n : nat) : Prop := mkAccepted {
  acc_length : length cols = length fields;
  acc_sent : (n <= length fields)%nat /\ forall i col, (n <= i)%nat -> cols !! i = Some col -> col = [];
  acc_rows : forall i j col col', (Datatypes.S i < n)%nat -> (Datatypes.S j < n)%nat -> cols !! i = Some col -> cols !! j = Some col' -> zlen col = zlen col';
  acc_types : ct_Type <$> fts = ct_Type <$> fts0;
  acc_fits : forall i ft col, fts !! i = Some ft -> cols !! i = Some col -> Forall (fits ft) col }.

Lemma columns_read_accepted n s : (n <= length fields)%nat -> columns_read n s ->
  exists fts, fieldTypes s = Some fts /\ accepted fts (data s) n.
Proof.
  intros Hn [[L (fts & Ef & F1 & F2)] _ H3 _ _ H6]. exists fts. split; [done|]. split; try done.
  intros i j c c' Hi Hj Hc Hc'. destruct (lookup_lt_is_Some_2 (data s) 0 ltac:(lia)) as [c0 Hc0].
  rewrite (H6 i c c0), (H6 j c' c0); done.
Qed.

(** The sum of the lemmas on columns. *)
Lemma StmtParseColumn_accepts array_size `{!IteratorLaws I array_size} (columns : list Z) :
  (array_size (BorrowIterator I columns) <= length fields)%nat ->
  exists r fts, StmtParseColumn I time_Parse columns fields (Some fts0) = Ret (r, Some fts) /\
    match r with inl e => e <> EOF | inr cols => exists n, accepted fts cols n end.
Proof.
  intros Hsize. unfold StmtParseColumn.
  destruct (array_run_inv (read_column I time_Parse fields) (fun n s => (n <= length fields)%nat /\ columns_read n s)
    (fun s e => exists fts, fieldTypes s = Some fts /\ (refused e \/ exists n, accepted fts (data s) n)) (array_size (BorrowIterator I columns))
    (mkColumns (replicate (length fields) []) 0 0 0 (Some fts0)) _ (ReadArrayCB_run _ _ _ (BorrowIterator I columns)) 0) as (s & it & Er & Hs).
  - split; [lia|]. split; cbn; try done; try lia; [|intros i col _ Hc; by apply lookup_replicate in Hc as [-> _]].
    split; cbn; [apply length_replicate|]. exists fts0. split; [done|]. split; [done|].
    intros i ft col _ Hc. by apply lookup_replicate in Hc as [-> _].
  - intros n s it Hn [_ Hs]. destruct (read_column_ok array_size n s it ltac:(lia) Hs) as (b & s' & it' & E & H).
    exists b, s', it'. split; [done|]. destruct H as [H|(-> & H & Ef)].
    + destruct b; [split; [lia|done]|]. destruct (columns_read_accepted (Datatypes.S n) s' ltac:(lia) H) as (fts & Ef & Ha). eauto 6.
    + destruct (sound_fts _ (cols_sound _ _ Hs)) as (fts & Ef' & _). exists fts. rewrite Ef. auto.
  - rewrite Er. cbn [mbind go_mbind]. assert (H : exists fts, fieldTypes s = Some fts /\ (refused (iter_Error it) \/ exists n, accepted fts (data s) n)).
    { destruct Hs as [(n & _ & Hn & Hs)|Hs]; [|done]. destruct (columns_read_accepted n s Hn Hs) as (fts & Ef & Ha). eauto 6. }
    destruct H as (fts & Ef & H). rewrite Ef. eexists _, fts. split; [reflexivity|]. unfold parsed, refused in *.
    destruct (iter_Error it) as [[]|]; try done; destruct H as [(e & He & Hne)|H]; congruence.
Qed.

(** ** From a message to the memory of C *)

Lemma column_case_width ct t w conv : column_case ct = Some (t, w, conv) -> 1 <= w <= 8 \/ w = ct_MaxLen ct.
Proof. destruct ct as [ty m]. destruct ty; cbn; intros E; simplify_eq; lia. Qed.

(** The first column gives the number of rows; the sizes must not wrap. *)
Definition sizes_ok (rows : Z) (fts : list ColumnType) : Prop :=
  rows < 2 ^ 29 /\ Forall (fun ft => 0 <= ct_MaxLen ft < 2 ^ 32 /\ ct_MaxLen ft * rows < 2 ^ 32) fts.

Lemma accepted_column_ok fts cols n rows i ft col : accepted fts cols n -> rows = zlen (default [] (head cols)) -> sizes_ok rows fts ->
  0 < rows -> (forall l, last cols = Some l -> zlen l = rows) -> fts !! i = Some ft -> cols !! i = Some col -> column_ok rows ft col.
Proof.
  intros [A1 [A0 A2] A3 A4 A5] Er [Hr Hs] Hr0 Hl Hft Hcol. rewrite last_lookup in Hl.
  pose proof (Forall_lookup_1 _ _ _ _ Hs Hft) as [Hm Hmr].
  apply lookup_lt_Some in Hcol as Hi. destruct (lookup_lt_is_Some_2 fields i ltac:(lia)) as [f Hf].
  destruct (field_type fts i f ft A4 Hf Hft) as (ct & Hb & Et). pose proof (A5 i ft col Hft Hcol) as Hfit.
  pose proof (bindable_nil f ct (ct_MaxLen ft) Hb) as Hn. destruct ft as [ty m]. cbn in Et. subst ty. cbn [ct_MaxLen] in *. unfold fits in Hn, Hfit.
  destruct (column_case (mkColumnType (ct_Type ct) m)) as [[[t w] conv]|] eqn:Ec; [|done].
  assert (Hw : 1 <= w <= 8 \/ w = m) by (by apply column_case_width in Ec).
  assert (Hlen : zlen col = rows).
  { destruct (decide (i = pred (length cols))) as [->|]; [by apply Hl|]. destruct (lookup_lt_is_Some_2 cols (pred (length cols))) as [l El]; [lia|].
    assert (En : n = length fields).
    { destruct (decide (n <= pred (length cols))%nat); [|lia]. rewrite (A2 _ l) in El by done. specialize (Hl _ El). rewrite zlen_nil in Hl. lia. }
    destruct cols as [|c0 cols]; [done|]. cbn in *. subst rows. apply (A3 i O); (done || lia). }
  exists t, w, conv. rewrite Ec. split; [done|]. split; [lia|]. split; [nia|]. split; [lia|]. by split.
Qed.


End Values.

(** ** Tags *)

Section Tags.
Context (I : Iterator) (time_Parse : list Z -> option Z).

(** A field whose type is supported. *)
Definition taggable (f : StmtField) : Prop :=
  (exists ct, GetType f = Ret ct) /\ (sf_FieldType f = TSDB_DATA_TYPE_TIMESTAMP -> precision_ok (sf_Precision f)).

(** The lengths of strings are kept in an [int32]. *)
Definition short (v : value) : Prop := match var_value v with Some (_, s) => zlen s < 2 ^ 31 | None => True end.

(** What is read for the tag of a field is of its type, or nil. *)
Definition tag_of (f : StmtField) (v : value) : Prop := v = VNil \/ exists bs,
  fixed_value v = Some (sf_FieldType f, Ret bs) \/ (fixed_value v = None /\ var_value v = Some (sf_FieldType f, bs)).

Lemma tag_of_param f v : tag_of f v -> short v -> param_ok v.
Proof.
  intros [->|(bs & [H|[H1 H2]])] Hs; [by left|right; left; by do 2 eexists|]. right. right. unfold short in Hs. rewrite H2 in Hs.
  by exists (sf_FieldType f), bs.
Qed.

Lemma read_value_tag f it : taggable f -> sf_FieldType f <> TSDB_DATA_TYPE_JSON ->
  exists v it', read_value I time_Parse (sf_FieldType f) (sf_Precision f) it = Ret (Some v, it') /\ tag_of f v.
Proof.
  intros [[ct Hg] Hp] Hj. unfold GetType in Hg. unfold read_value, tag_of.
  repeat match type of Hg with (if ?b then _ else _) = _ => destruct b eqn:? end; try discriminate;
    repeat match goal with H : (_ =? _) = true |- _ => apply Z.eqb_eq in H end; simplify_eq; try done; try congruence;
    repeat match goal with H : sf_FieldType f = _ |- _ => rewrite H end; cbn.
  all: try (eexists _, _; split; [reflexivity|]; right; eexists; cbn; (by left) || (by right)).
  destruct (read_time_ok I time_Parse (sf_Precision f) it (Hp ltac:(done))) as (T & it' & ->). eexists _, _. split; [reflexivity|].
  right. destruct (convertible T (sf_Precision f) (Hp ltac:(done))) as [n Hn]. cbn. rewrite Hn. eexists. by left.
Qed.

Lemma read_tag_ok (fields : list StmtField) tags n it : Forall taggable fields -> (n < length fields)%nat -> Forall2 tag_of fields tags ->
  exists b tags' it', read_tag I time_Parse fields (tags, Z.of_nat n) it = Ret (b, (tags', Z.of_nat (Datatypes.S n)), it') /\ Forall2 tag_of fields tags'.
Proof.
  intros Hf Hn Ht. destruct (lookup_lt_is_Some_2 fields n Hn) as [f Hfn]. pose proof (Forall_lookup_1 _ _ _ _ Hf Hfn) as Hft.
  unfold read_tag. rewrite (zget_lookup _ _ _ Hfn). cbn [mbind go_mbind]. destruct (ReadNil it) as [isNil it1].
  assert (Hv : exists v it', (if isNil then Ret (Some VNil, it1)
     else if sf_FieldType f =? TSDB_DATA_TYPE_JSON then tagged I TaosJson (ReadString it1)
     else read_value I time_Parse (sf_FieldType f) (sf_Precision f) it1) = Ret (Some v, it') /\ tag_of f v).
  { destruct isNil; [exists VNil, it1; split; [done|by left]|]. destruct (Z.eqb_spec (sf_FieldType f) TSDB_DATA_TYPE_JSON) as [E|E].
    - eexists _, _. split; [reflexivity|]. right. eexists. right. split; [done|]. by rewrite E.
    - by apply read_value_tag. }
  destruct Hv as (v & it2 & -> & Hv). cbn [mbind go_mbind].
  rewrite zset_in by (unfold zlen; rewrite <- (Forall2_length _ _ _ Ht); lia). cbn [mbind go_mbind]. rewrite Nat2Z.id.
  eexists _, _, _. replace (Z.of_nat n + 1) with (Z.of_nat (Datatypes.S n)) by lia. split; [reflexivity|].
  rewrite <- (list_insert_id fields n f Hfn). by apply Forall2_insert.
Qed.

(** Tags that are accepted are one for each field, of the types of the fields, nil where none was sent. *)
Lemma StmtParseTag_accepts array_size `{!IteratorLaws I array_size} (msg : list Z) (fields : list StmtField) :
  Forall taggable fields -> (array_size (BorrowIterator I msg) <= length fields)%nat ->
  exists r, StmtParseTag I time_Parse msg fields = Ret r /\ match r with inl e => e <> EOF | inr tags => Forall2 tag_of fields tags end.
Proof.
  intros Hf Hsize. unfold StmtParseTag.
  destruct (array_run_inv (read_tag I time_Parse fields) (fun n s => snd s = Z.of_nat n /\ Forall2 tag_of fields (fst s))
    (fun s _ => Forall2 tag_of fields (fst s)) (array_size (BorrowIterator I msg))
    (replicate (length fields) VNil, 0) _ (ReadArrayCB_run _ _ _ (BorrowIterator I msg)) 0) as (s & it & Er & Hs).
  - split; [done|]. cbn. clear. induction fields; cbn; constructor; [by left|done].
  - intros n [tags c] it Hn [E Ht]. cbn in E, Ht. subst c.
    destruct (read_tag_ok fields tags n it Hf ltac:(lia) Ht) as (b & tags' & it' & E & Ht'). exists b, (tags', Z.of_nat (Datatypes.S n)), it'.
    split; [done|]. by destruct b.
  - rewrite Er. cbn [mbind go_mbind]. eexists. split; [reflexivity|]. unfold parsed.
    assert (H : Forall2 tag_of fields (fst s)) by (destruct Hs as [(n & _ & _ & Hs)|Hs]; done). by destruct (iter_Error it) as [[]|].
Qed.

(** C31. The tags of a message are refused, or they are one for each field, of its type or nil, and the C
    library reads exactly these values, and the heap is as it was before. *)
Theorem json_tags_bind array_size `{!IteratorLaws I array_size} (msg : list Z) (fields : list StmtField) (f : c_call) (st : cstate) :
  wf st -> fields <> [] -> Forall taggable fields -> (array_size (BorrowIterator I msg) <= length fields)%nat ->
  exists r, StmtParseTag I time_Parse msg fields = Ret r /\
    match r with
    | inl e => e <> EOF
    | inr tags => Forall2 tag_of fields tags /\ (Forall short tags ->
        exists h binds st', Forall2 (param_reads h) tags binds /\
          TaosStmtSetTags f tags st = (Ret (f h (Some binds)), st') /\ heap st' = heap st /\ frees st' = frees st)
    end.
Proof.
  intros Hw Hne Hf Hsize. destruct (StmtParseTag_accepts array_size msg fields Hf Hsize) as (r & E & H). exists r. split; [done|].
  destruct r as [e|tags]; [done|]. split; [done|]. intros Hs. apply TaosStmtSetTags_binds; [done|intros ->; by destruct fields; inversion H|].
  apply Forall_lookup. intros i v Hv. destruct (Forall2_lookup_r _ _ _ _ _ H Hv) as (fl & _ & Ht).
  apply (tag_of_param fl); [done|]. by eapply Forall_lookup_1.
Qed.

End Tags.
End ParseSpec.
