(* ===== verification/StmtParseScenarios.v ===== *)
(** * StmtParseScenarios: messages and binds, run

    An iterator over trees of json, with its laws, and runs of the theorems of [CStmtSpec] and
    [StmtParseSpec]: messages that are bound, and messages that are not refused and should be. *)
From S2P Require Import Prelude Common Stmt2 StmtConvert CHeap CStmt CStmtSpec StmtParse StmtParseSpec.
From stdpp Require Import gmap.
#[local] Open Scope Z_scope.

Module ParseScenarios.
Import Parse ParseSpec CHeap CStmt CStmtSpec.

(** ** An iterator *)

Inductive json := JNil | JBool (b : bool) | JNum (z : Z) | JStr (s : list Z) | JArr (l : list json).

(** An iterator is at a tree, with an error. *)
Definition tree_iter : Type := json * option jerror.
Definition tree_report (e : jerror) (it : tree_iter) : tree_iter :=
  (fst it, match snd it with None | Some EOF => Some e | Some e' => Some e' end).
Definition tree_num (it : tree_iter) : Z * tree_iter :=
  match fst it with JNum z => (z, it) | _ => (0, tree_report (Malformed (str "number")) it) end.
Definition tree_kind (t : json) : ValueType :=
  match t with JNil => NilValue | JBool _ => BoolValue | JNum _ => NumberValue | JStr _ => StringValue | JArr _ => ArrayValue end.
Fixpoint tree_array {S} (f : S -> tree_iter -> go (bool * S * tree_iter)) (s : S) (e : option jerror) (l : list json) : go (S * tree_iter) :=
  match l with
  | [] => Ret (s, (JNil, e))
  | x :: l => r ← f s (x, e); let '(b, s, it) := r in if (b : bool) then tree_array f s (snd it) l else Ret (s, it)
  end.

(** The iterator of the message that is the text of a tree. *)
Definition tree_iterator (t : json) : Iterator := {|
  iter := tree_iter; BorrowIterator _ := (t, None); iter_Error := snd; ReportError r it := tree_report (Reported r) it;
  ReadNil it := (match fst it with JNil => true | _ => false end, it); WhatIsNext it := (tree_kind (fst it), it);
  ReadBool it := match fst it with JBool b => (b, it) | _ => (false, tree_report (Malformed (str "bool")) it) end;
  ReadInt8 := tree_num; ReadInt16 := tree_num; ReadInt32 := tree_num; ReadInt64 := tree_num;
  ReadUint8 := tree_num; ReadUint16 := tree_num; ReadUint32 := tree_num; ReadUint64 := tree_num;
  ReadFloat32 := tree_num; ReadFloat64 := tree_num;
  ReadString it := match fst it with JStr s => (s, it) | _ => ([], tree_report (Malformed (str "string")) it) end;
  ReadArrayCB S f s it := match fst it with
    | JArr l => tree_array f s (snd it) l
    | JNil => Ret (s, it)
    | _ => Ret (s, tree_report (Malformed (str "array")) it)
    end |}.
Definition tree_size (it : tree_iter) : nat := match fst it with JArr l => length l | _ => 0 end.

#[export] Instance tree_laws t : IteratorLaws (tree_iterator t) tree_size.
Proof.
  split.
  - intros r [x [[]|]]; cbn; by eexists.
  - intros S f s [x e]. destruct x as [| | | |l]; cbn; try exact (run_done (I := tree_iterator t) f _ s _).
    revert s e. induction l as [|x l IH]; intros s e; cbn; [exact (run_done (I := tree_iterator t) f _ s _)|].
    destruct (f s (x, e)) as [[[[] s'] it']|err| |] eqn:E; cbn.
    + exact (run_next (I := tree_iterator t) f _ _ _ _ _ _ E (IH _ _)).
    + exact (run_stop (I := tree_iterator t) f _ _ _ _ _ _ E eq_refl).
    + exact (run_err (I := tree_iterator t) f _ _ _ _ E).
    + exact (run_panic (I := tree_iterator t) f _ _ _ E).
    + exact (run_fault (I := tree_iterator t) f _ _ _ E).
Defined.

(** ** Messages *)

Definition no_time (s : list Z) : option Z := None.
Definition int_field : StmtField := mkStmtField (str "i") TSDB_DATA_TYPE_INT 0 0 4.
Definition text_field : StmtField := mkStmtField (str "s") TSDB_DATA_TYPE_BINARY 0 0 8.
Definition fields2 : list StmtField := [int_field; text_field].
Definition types2 : list ColumnType := [mkColumnType TaosIntType 0; mkColumnType TaosBinaryType 0].
Definition start : cstate := mkC ∅ 0 [].

Lemma wf_start : wf start.
Proof. intros k [b H]. done. Qed.
Lemma bindable2 : Forall2 bindable fields2 types2.
Proof. repeat constructor; done. Qed.

(** Two rows of an integer and a text, one of them null. *)
Definition message : json := JArr [JArr [JNum 1; JNum (-2)]; JArr [JStr (str "abc"); JNil]].
Definition cols2 : list (list value) := [[TaosInt 1; TaosInt (-2)]; [TaosBinary (str "abc"); VNil]].
Definition grown2 : list ColumnType := [mkColumnType TaosIntType 0; mkColumnType TaosBinaryType 3].

Example message_parsed : StmtParseColumn (tree_iterator message) no_time [] fields2 (Some types2) = Ret (inr cols2, Some grown2).
Proof. vm_compute. reflexivity. Qed.

Lemma strToHex_to_hex_witness : strToHex (to_hex [0; 171; 255]) = ([0; 171; 255], None).
Proof. apply (strToHex_to_hex [0; 171; 255]). repeat constructor; done. Defined.


Lemma TaosStmtBindParamBatch_binds_witness (f := fun _ _ => 0) : exists h binds st', length binds = length cols2 /\
  (forall j ct col b, grown2 !! j = Some ct -> cols2 !! j = Some col -> binds !! j = Some b -> column_reads h 2 ct col b) /\
  TaosStmtBindParamBatch f cols2 grown2 start = (Ret (f h (Some binds)), st') /\ heap st' = heap start /\ frees st' = frees start.
Proof.
  apply (TaosStmtBindParamBatch_binds f cols2 grown2 2 start); [exact wf_start|done|done|done|].
  constructor; [|constructor; [|constructor]]; do 3 eexists; (split; [reflexivity|]); do 4 (split; [by vm_compute|]);
    (constructor; [|constructor; [|constructor]]); first [by left | right; eexists; split; [reflexivity|by vm_compute]].
Defined.

Lemma TaosStmtSetTags_binds_witness (f := fun _ _ => 0) (tags := [TaosInt 7; TaosNchar (str "ab"); VNil]) : exists h binds st',
  Forall2 (param_reads h) tags binds /\ TaosStmtSetTags f tags start = (Ret (f h (Some binds)), st') /\ heap st' = heap start /\ frees st' = frees start.
Proof.
  apply (TaosStmtSetTags_binds f tags start); [exact wf_start|done|]. constructor; [right; left; by do 2 eexists|].
  constructor; [right; right; do 2 eexists; split_and!; [done|reflexivity|by vm_compute]|]. constructor; [by left|constructor].
Defined.

Lemma json_tags_bind_witness (f := fun _ _ => 0) : exists r,
  StmtParseTag (tree_iterator (JArr [JNum 7; JStr (str "ab")])) no_time [] fields2 = Ret r /\
  match r with
  | inl e => e <> EOF
  | inr tags => Forall2 tag_of fields2 tags /\ (Forall short tags ->
      exists h binds st', Forall2 (param_reads h) tags binds /\
        TaosStmtSetTags f tags start = (Ret (f h (Some binds)), st') /\ heap st' = heap start /\ frees st' = frees start)
  end.
Proof.
  apply (json_tags_bind (tree_iterator (JArr [JNum 7; JStr (str "ab")])) no_time tree_size [] fields2 f start); [exact wf_start|done| |cbn; lia].
  constructor; [split; [by eexists|done]|]. constructor; [split; [by eexists|done]|constructor].
Defined.

Example tags_parsed : StmtParseTag (tree_iterator (JArr [JNum 7; JStr (str "ab")])) no_time [] fields2 = Ret (inr [TaosInt 7; TaosBinary (str "ab")]).
Proof. vm_compute. reflexivity. Qed.
Example wrong_tag_refused : StmtParseTag (tree_iterator (JArr [JStr []])) no_time [] fields2 = Ret (inl (Malformed (str "number"))).
Proof. vm_compute. reflexivity. Qed.

(** ** Messages that are not refused *)

(** The last column may be longer than the first: it is accepted, and written beyond its blocks. *)
Definition long_message : json := JArr [JArr [JNum 1]; JArr [JStr (str "a"); JStr (str "b")]].
Example last_column_overflows (f : c_call) : exists cols fts,
  StmtParseColumn (tree_iterator long_message) no_time [] fields2 (Some types2) = Ret (inr cols, Some fts) /\
  fst (TaosStmtBindParamBatch f cols fts start) = Fault.
Proof. do 2 eexists. split; [vm_compute; reflexivity|]. vm_compute. reflexivity. Qed.

(** A column before the last one is checked. *)
Example longer_column_refused : exists fts,
  StmtParseColumn (tree_iterator (JArr [JArr [JNum 1]; JArr [JNum 1; JNum 2]; JArr [JNum 1]])) no_time []
    [int_field; int_field; int_field] (Some (replicate 3 (mkColumnType TaosIntType 0))) = Ret (inl (Reported (WrongRowLength 1 2)), fts).
Proof. eexists. vm_compute. reflexivity. Qed.

(** More columns than fields: the index is out of range. *)
Example extra_column_panics : StmtParseColumn (tree_iterator message) no_time [] [int_field] (Some [mkColumnType TaosIntType 0]) = Panic.
Proof. vm_compute. reflexivity. Qed.
Example extra_tag_panics : StmtParseTag (tree_iterator (JArr [JNum 1; JNum 2])) no_time [] [int_field] = Panic.
Proof. vm_compute. reflexivity. Qed.

(** A column that was not sent: the C library gets a list of nulls that no byte was written to. *)
Definition unwritten_nulls : c_call := fun h binds =>
  match default [] binds !! 1%nat with
  | Some b => match mb_is_null b with Some p => if decide (h !! p_block p = Some [None; None]) then 1 else 0 | None => 0 end
  | None => 0
  end.
Example missing_column_unwritten : exists cols fts,
  StmtParseColumn (tree_iterator (JArr [JArr [JNum 1; JNum 2]])) no_time [] fields2 (Some types2) = Ret (inr cols, Some fts) /\
  fst (TaosStmtBindParamBatch unwritten_nulls cols fts start) = Ret 1.
Proof. do 2 eexists. split; [vm_compute; reflexivity|]. vm_compute. reflexivity. Qed.

(** An empty bind has no first column, and a tag of a type that is not supported loses what was
    allocated for the tags before it. *)
Example empty_bind_panics (f : c_call) : fst (TaosStmtBindParamBatch f [] [] start) = Panic.
Proof. vm_compute. reflexivity. Qed.
Example refused_tag_leaks (f : c_call) : exists st, TaosStmtSetTags f [TaosInt 1; VInt32 5] start = (Ret (-1), st) /\ is_Some (heap st !! 0%nat).
Proof. eexists. split; [vm_compute; reflexivity|]. by eexists. Qed.

End ParseScenarios.
