(* ===== verification/Text.v ===== *)
(** * Text: the functions of Go's [strings], [bytes], [unicode], [strconv] and [sort]

    Searching, splitting, joining, trimming, sorting and converting byte strings, as the CSV reader, the
    REST handlers and the line parsers use them, with the lemmas they share. *)
From S2P Require Import Prelude Utf8.
From stdpp Require Import sorting.
#[local] Open Scope Z_scope.

Module Text.

Fixpoint prefixb (p s : list Z) : bool :=
  match p, s with
  | [], _ => true
  | a :: p', b :: s' => (a =? b) && prefixb p' s'
  | _ :: _, [] => false
  end.

(** [bytes.Index]: the first position of [sub] in [s], -1 when there is none. *)
Fixpoint index_from (i : Z) (s sub : list Z) : Z :=
  if prefixb sub s then i
  else match s with [] => -1 | _ :: s' => index_from (i + 1) s' sub end.
Definition Index (s sub : list Z) : Z := index_from 0 s sub.
Definition IndexByte (s : list Z) (c : Z) : Z := Index s [c].

(** [bytes.IndexFunc]: the position of the first rune with [f]; [skip] counts the bytes of the
    current rune still to be passed over. *)
Fixpoint index_func (f : Z -> bool) (skip : nat) (i : Z) (s : list Z) : Z :=
  match s with
  | [] => -1
  | _ :: s' =>
    match skip with
    | S k => index_func f k (i + 1) s'
    | O => let '(r, n) := decode_rune s in
           if f r then i else index_func f (Nat.pred n) (i + 1) s'
    end
  end.
Definition IndexFunc (s : list Z) (f : Z -> bool) : Z := index_func f 0 0 s.

(** [bytes.IndexRune]. *)
Definition IndexRune (s : list Z) (r : Z) : Z :=
  if in_range 0 r 127 then IndexByte s r
  else if r =? RuneError then IndexFunc s (fun x => x =? RuneError)
  else if negb (is_scalar r) then -1
  else Index s (encode_rune r).

(** [unicode.IsSpace]. *)
Definition IsSpace (r : Z) : bool :=
  in_range 9 r 13 || (r =? 32) || (r =? 133) || (r =? 160) || (r =? 5760)
  || in_range 8192 r 8202 || (r =? 8232) || (r =? 8233) || (r =? 8239) || (r =? 8287) || (r =? 12288).

Definition HasPrefix (s prefix : list Z) : bool := prefixb prefix s.

(** [strings.Split(s, sep)] for a separator of one byte. *)
Fixpoint Split (s : list Z) (c : Z) : list (list Z) :=
  match s with
  | [] => [[]]
  | b :: s' =>
    if b =? c then [] :: Split s' c
    else match Split s' c with
         | [] => [[b]]
         | p :: ps => (b :: p) :: ps
         end
  end.

(** [strings.Join]. *)
Fixpoint Join (ps : list (list Z)) (sep : list Z) : list Z :=
  match ps with
  | [] => []
  | [p] => p
  | p :: ps' => p ++ sep ++ Join ps' sep
  end.

(** [strings.ReplaceAll(s, old, new)] for [old] of one byte, and a [strings.Replacer] whose old
    strings have one byte each: every byte is replaced by itself. *)
Definition replace_bytes (f : Z -> list Z) (s : list Z) : list Z := concat (f <$> s).
Definition ReplaceAll (s : list Z) (old : Z) (new : list Z) : list Z :=
  replace_bytes (fun b => if b =? old then new else [b]) s.

(** [strconv.Itoa]. *)
Fixpoint digits_of (fuel : nat) (z : Z) : list Z :=
  match fuel with
  | O => []
  | S f => (if z <? 10 then [] else digits_of f (z / 10)) ++ [48 + z mod 10]
  end.
Definition Itoa (z : Z) : list Z :=
  if z <? 0 then 45 :: digits_of (S (Z.to_nat (Z.log2 (- z)))) (- z)
  else digits_of (S (Z.to_nat (Z.log2 z))) z.
Example Itoa_ex : Itoa (-1205) = str "-1205" /\ Itoa 0 = str "0" /\ Itoa 1000000 = str "1000000".
Proof. split_and!; reflexivity. Qed.

(** [strconv.ParseBool]. *)
Definition ParseBool (s : list Z) : option bool :=
  if bool_decide (s ∈ [str "1"; str "t"; str "T"; str "TRUE"; str "true"; str "True"]) then Some true
  else if bool_decide (s ∈ [str "0"; str "f"; str "F"; str "FALSE"; str "false"; str "False"]) then Some false
  else None.

(** [strconv.ParseInt(s, 10, 64)]: the value, or whether the error is a range error. *)
Fixpoint parse_digits (s : list Z) (n : Z) : Z + bool :=
  match s with
  | [] => inl n
  | c :: s =>
    if (c <? 48) || (57 <? c) then inr false
    else if 2 ^ 64 / 10 + 1 <=? n then inr true
    else let n := n * 10 + (c - 48) in if 2 ^ 64 - 1 <? n then inr true else parse_digits s n
  end.
Definition ParseInt (s : list Z) : Z + bool :=
  let '(neg, digits) := match s with
                        | 43 :: d => (false, d)
                        | 45 :: d => (true, d)
                        | _ => (false, s)
                        end in
  if bool_decide (digits = []) then inr false
  else
    match parse_digits digits 0 with
    | inr e => inr e
    | inl un =>
      if negb neg && (2 ^ 63 <=? un) then inr true
      else if neg && (2 ^ 63 <? un) then inr true
      else inl (if neg then - un else un)
    end.

(** [strings.SplitN(s, sep, 2)] for a separator of one byte. *)
Fixpoint SplitN2 (s : list Z) (c : Z) : list (list Z) :=
  match s with
  | [] => [[]]
  | b :: s' =>
    if b =? c then [[]; s']
    else match SplitN2 s' c with
         | [] => [[b]]
         | p :: ps => (b :: p) :: ps
         end
  end.

(** [for i := range s]: the positions at which the runes of [s] start. *)
Fixpoint rune_starts_from (skip : nat) (i : Z) (s : list Z) : list Z :=
  match s with
  | [] => []
  | _ :: s' =>
    match skip with
    | S k => rune_starts_from k (i + 1) s'
    | O => i :: rune_starts_from (Nat.pred (snd (decode_rune s))) (i + 1) s'
    end
  end.
Definition rune_starts (s : list Z) : list Z := rune_starts_from 0 0 s.

(** The order of Go's strings, and [sort.Strings]. *)
Fixpoint string_leb (s t : list Z) : bool :=
  match s, t with
  | [], _ => true
  | _ :: _, [] => false
  | a :: s, b :: t => (a <? b) || ((a =? b) && string_leb s t)
  end.
Definition string_le (s t : list Z) : Prop := string_leb s t = true.
#[export] Instance string_le_dec s t : Decision (string_le s t).
Proof. unfold string_le. apply _. Defined.
#[export] Instance string_le_total : Total string_le.
Proof.
  unfold string_le. intros s. induction s as [|a s IH]; intros [|b t]; cbn; auto.
  destruct (Z.ltb_spec a b), (Z.ltb_spec b a), (Z.eqb_spec a b), (Z.eqb_spec b a); cbn; auto; try lia.
Qed.
#[export] Instance string_le_trans : Transitive string_le.
Proof.
  unfold string_le. intros s. induction s as [|a s IH]; intros [|b t] [|c u]; cbn; try done.
  rewrite !orb_true_iff, !andb_true_iff, !Z.ltb_lt, !Z.eqb_eq. intros [?|[? ?]] [?|[? ?]]; try (left; lia).
  right. split; [lia|]. by apply (IH t).
Qed.
#[export] Instance string_le_antisym : AntiSymm (=) string_le.
Proof.
  unfold string_le. intros s. induction s as [|a s IH]; intros [|b t]; cbn; try done.
  rewrite !orb_true_iff, !andb_true_iff, !Z.ltb_lt, !Z.eqb_eq. intros [?|[? ?]] [?|[? ?]]; try lia. f_equal; auto.
Qed.
Definition sort_Strings (l : list (list Z)) : list (list Z) := merge_sort string_le l.

(** The encodings of the runes [IsSpace] accepts. *)
Definition space_runes : list Z :=
  [9; 10; 11; 12; 13; 32; 133; 160; 5760; 8192; 8193; 8194; 8195; 8196; 8197; 8198; 8199; 8200; 8201;
   8202; 8232; 8233; 8239; 8287; 12288].

(** [strings.TrimSpace]: the runes at the start are decoded from the left, those at the end from
    the right; a suffix decodes to a space when it is the encoding of one. *)
Definition strip_space (s : list Z) : option (list Z) :=
  let '(c, n) := decode_rune s in
  match s with [] => None | _ => if IsSpace c then Some (drop n s) else None end.
Fixpoint trim_left (fuel : nat) (s : list Z) : list Z :=
  match fuel with
  | O => s
  | S f => match strip_space s with Some s' => trim_left f s' | None => s end
  end.
Definition strip_suffix (s sp : list Z) : option (list Z) :=
  if prefixb (reverse sp) (reverse s) then Some (take (length s - length sp) s) else None.
Definition strip_space_end (s : list Z) : option (list Z) :=
  foldr (fun c acc => match strip_suffix s (encode_scalar c) with Some s' => Some s' | None => acc end)
    None space_runes.
Fixpoint trim_right (fuel : nat) (s : list Z) : list Z :=
  match fuel with
  | O => s
  | S f => match strip_space_end s with Some s' => trim_right f s' | None => s end
  end.
Definition TrimSpace (s : list Z) : list Z :=
  let s := trim_left (length s) s in trim_right (length s) s.

Example TrimSpace_ex :
  TrimSpace (str "  a b" ++ [194; 160; 226; 128; 137; 10; 32]) = str "a b" /\ TrimSpace (str "   ") = [].
Proof. split; reflexivity. Qed.

Definition not_printing_end (e : Z) : bool :=
  match reverse (encode_scalar e) with x :: _ => (x <? 33) || (126 <? x) | [] => false end.
Lemma space_runes_ends : Forall (fun e => not_printing_end e = true) space_runes.
Proof.
  apply Forall_forall. intros e He. apply (proj1 (forallb_forall not_printing_end space_runes)).
  - vm_compute. reflexivity.
  - by apply list_elem_of_In.
Qed.

(** Text between printing ASCII characters is not trimmed. *)
Lemma TrimSpace_id b s c : 33 <= b <= 126 -> 33 <= c <= 126 -> TrimSpace (b :: s ++ [c]) = b :: s ++ [c].
Proof.
  intros Hb Hc. unfold TrimSpace.
  assert (Hl : forall n, trim_left n (b :: s ++ [c]) = b :: s ++ [c]).
  { intros [|n]; [done|]. cbn [trim_left]. unfold strip_space. cbn [decode_rune].
    replace (b <? 128) with true by lia.
    replace (IsSpace b) with false; [done|]. unfold IsSpace, in_range. lia. }
  assert (Hr : forall n, trim_right n (b :: s ++ [c]) = b :: s ++ [c]).
  { intros [|n]; [done|]. cbn [trim_right].
    assert (Hn : strip_space_end (b :: s ++ [c]) = None); [|by rewrite Hn].
    pose proof space_runes_ends as Hsp.
    unfold strip_space_end. induction Hsp as [|e l He _ IH]; [done|]. cbn [foldr]. rewrite IH.
    unfold strip_suffix, not_printing_end in *. rewrite app_comm_cons, reverse_snoc.
    destruct (reverse (encode_scalar e)) as [|x u]; [done|]. cbn [prefixb].
    by replace (x =? c) with false by lia. }
  by rewrite Hl, Hr.
Qed.

(** ** Splitting and joining *)

Lemma Split_cons s c : exists p ps, Split s c = p :: ps.
Proof. destruct s as [|b s]; cbn; [eauto|]. destruct (_ =? _); [eauto|]. destruct (Split s c); eauto. Qed.

Lemma Split_app a s c : c ∉ a ->
  Split (a ++ s) c = match Split s c with [] => [a] | p :: ps => (a ++ p) :: ps end.
Proof.
  induction a as [|x a IH]; intros H; [cbn [app]; by destruct (Split_cons s c) as (p & ps & ->)|].
  apply not_elem_of_cons in H as [H1 H2]. cbn. replace (x =? c) with false by lia. rewrite IH by done.
  by destruct (Split_cons s c) as (p & ps & ->).
Qed.

Lemma Split_none a c : c ∉ a -> Split a c = [a].
Proof. intros H. rewrite <- (app_nil_r a) at 1. rewrite Split_app by done. cbn. by rewrite app_nil_r. Qed.

Lemma Split_sep a s c : c ∉ a -> Split (a ++ c :: s) c = a :: Split s c.
Proof. intros H. rewrite Split_app by done. cbn. rewrite Z.eqb_refl. by rewrite app_nil_r. Qed.

Lemma Split_Join ps c : ps <> [] -> Forall (fun p => c ∉ p) ps -> Split (Join ps [c]) c = ps.
Proof.
  intros Hne H. induction H as [|p ps Hp Hps IH]; [done|]. destruct ps as [|q ps]; [by apply Split_none|].
  change (Join (p :: q :: ps) [c]) with (p ++ c :: Join (q :: ps) [c]).
  rewrite Split_sep by done. by rewrite IH.
Qed.

Lemma Join_Split s c : Join (Split s c) [c] = s.
Proof.
  induction s as [|b s IH]; [done|]. cbn [Split].
  destruct (Split_cons s c) as (p & ps & E). rewrite E in *.
  destruct (Z.eqb_spec b c) as [->|Hne].
  - change (Join ([] :: p :: ps) [c]) with (c :: Join (p :: ps) [c]). by rewrite IH.
  - destruct ps; cbn in *; by rewrite IH.
Qed.

Lemma Split_pieces s c : Forall (fun p => c ∉ p) (Split s c).
Proof.
  induction s as [|b s IH]; cbn; [constructor; [apply not_elem_of_nil|constructor]|].
  destruct (Z.eqb_spec b c); [constructor; [apply not_elem_of_nil|done]|].
  destruct (Split s c); inversion IH; subst; repeat constructor; try done;
    rewrite not_elem_of_cons; split; try done; apply not_elem_of_nil.
Qed.

(** ** Searching *)

Lemma prefixb_app p s : prefixb p (p ++ s) = true.
Proof. induction p as [|a p IH]; [done|]. cbn. by rewrite Z.eqb_refl. Qed.

Lemma prefixb_true p s : prefixb p s = true <-> exists t, s = p ++ t.
Proof.
  split; [|intros (t & ->); apply prefixb_app].
  revert s. induction p as [|a p IH]; intros s; [by exists s|].
  destruct s as [|b s]; [done|]. cbn. intros [->%Z.eqb_eq H]%andb_prop.
  apply IH in H as (t & ->). by exists t.
Qed.

Lemma index_from_shift i s sub :
  index_from i s sub = (let k := index_from 0 s sub in if k =? -1 then -1 else i + k) /\
  (-1 <= index_from 0 s sub).
Proof.
  revert i. induction s as [|b s IH]; intros i; cbn [index_from]; destruct (prefixb sub _);
    try (cbn; lia).
  destruct (IH (i + 1)) as [-> H]. destruct (IH (0 + 1)) as [-> _].
  cbn. destruct (Z.eqb_spec (index_from 0 s sub) (-1)) as [E|E]; [done|].
  split; [|lia]. destruct (Z.eqb_spec (0 + 1 + index_from 0 s sub) (-1)); lia.
Qed.

(** A result of [Index] is a position of [sub], and the first. *)
Lemma Index_Some s sub i :
  Index s sub = i -> 0 <= i ->
  exists a b, s = a ++ sub ++ b /\ i = zlen a /\ (sub = [] \/ Index a sub = -1 \/ a = []).
Proof.
  unfold Index. revert i. induction s as [|x s IH]; intros i; cbn [index_from];
    destruct (prefixb sub _) eqn:E; intros <- Hi.
  - apply prefixb_true in E as (t & E). exists [], t. auto.
  - lia.
  - apply prefixb_true in E as (t & E). exists [], t. auto.
  - destruct (index_from_shift (0 + 1) s sub) as [E1 H1]. rewrite E1 in Hi |- *.
    cbv zeta in *. destruct (Z.eqb_spec (index_from 0 s sub) (-1)) as [E2|E2]; [lia|].
    destruct (IH _ eq_refl ltac:(lia)) as (a & b & -> & Ha & Hf).
    exists (x :: a), b. split_and!; [done|rewrite zlen_cons; lia|].
    destruct Hf as [Hf|Hf]; [by left|]. right; left. cbn [index_from].
    assert (Hp : prefixb sub (x :: a) = false).
    { destruct (prefixb sub (x :: a)) eqn:Ep; [|done].
      apply prefixb_true in Ep as (t & Ep). exfalso. revert E.
      replace (x :: a ++ sub ++ b) with ((x :: a) ++ sub ++ b) by done. rewrite Ep, <- app_assoc.
      by rewrite prefixb_app. }
    rewrite Hp. destruct (index_from_shift (0 + 1) a sub) as [-> _]. cbv zeta.
    destruct Hf as [-> | ->]; [done|]. cbn [index_from].
    destruct (prefixb sub []) eqn:E4; [|done].
    by destruct sub.
Qed.

Lemma Index_range s sub : -1 <= Index s sub /\ (0 <= Index s sub -> Index s sub + zlen sub <= zlen s).
Proof.
  split; [apply (index_from_shift 0 s sub)|]. intros H.
  destruct (Index_Some s sub _ eq_refl H) as (a & b & E & Hi & _).
  rewrite Hi, E, !zlen_app. pose proof (zlen_nonneg b). lia.
Qed.

Lemma Index_cons x s sub :
  prefixb sub (x :: s) = false ->
  Index (x :: s) sub = if Index s sub =? -1 then -1 else 1 + Index s sub.
Proof. intros H. unfold Index. cbn [index_from]. rewrite H. apply (index_from_shift (0 + 1)). Qed.

Lemma Index_neg_cons x s sub :
  Index (x :: s) sub = -1 -> prefixb sub (x :: s) = false /\ Index s sub = -1.
Proof.
  unfold Index. cbn [index_from]. destruct (prefixb sub (x :: s)); [done|].
  destruct (index_from_shift (0 + 1) s sub) as [-> H]. cbv zeta.
  destruct (Z.eqb_spec (index_from 0 s sub) (-1)); [done|lia].
Qed.

Lemma IndexByte_none s c : IndexByte s c = -1 <-> c ∉ s.
Proof.
  unfold IndexByte. induction s as [|x s IH].
  - split; [intros _; apply not_elem_of_nil|done].
  - rewrite not_elem_of_cons. split.
    + intros [Hp H]%Index_neg_cons. split; [|by apply IH]. cbn in Hp. rewrite andb_true_r in Hp. lia.
    + intros [H1 H2]. rewrite Index_cons by (cbn; lia). apply IH in H2. by rewrite H2.
Qed.

Lemma IndexByte_app a c b : c ∉ a -> IndexByte (a ++ c :: b) c = zlen a.
Proof.
  unfold IndexByte. induction a as [|x a IH]; intros H.
  - unfold Index. cbn. by rewrite Z.eqb_refl.
  - apply not_elem_of_cons in H as [H1 H2]. cbn [app]. rewrite Index_cons by (cbn; lia).
    rewrite (IH H2), zlen_cons. pose proof (zlen_nonneg a).
    destruct (Z.eqb_spec (zlen a) (-1)); lia.
Qed.

Lemma IndexByte_inv s c :
  IndexByte s c = -1 /\ c ∉ s \/ exists a b, s = a ++ c :: b /\ c ∉ a /\ IndexByte s c = zlen a.
Proof.
  destruct (decide (c ∈ s)) as [Hin|Hin].
  - right. apply list_elem_of_split_l in Hin as (a & b & -> & Hn). exists a, b.
    split_and!; [done|done|by apply IndexByte_app].
  - left. split; [by apply IndexByte_none|done].
Qed.

(** *** Runes *)

(** The bytes of an encoding after the first are continuation bytes, the first is not. *)
Lemma encode_scalar_shape c : is_scalar c = true ->
  exists b t, encode_scalar c = b :: t /\ (b < 128 \/ 192 <= b) /\ Forall (fun x => 128 <= x < 192) t.
Proof.
  unfold is_scalar, encode_scalar, MaxRune. intros H.
  repeat case_match; eexists _, _; (split; [done|]); split; repeat constructor; div_lia.
Qed.

(** An encoding is found where it was put: it does not overlap itself. *)
Lemma Index_encode_app c a b : is_scalar c = true -> Index a (encode_scalar c) = -1 ->
  Index (a ++ encode_scalar c ++ b) (encode_scalar c) = zlen a.
Proof.
  intros Hc. destruct (encode_scalar_shape c Hc) as (b0 & t & E & Hb & Ht). rewrite E.
  induction a as [|x a IH]; intros Hn.
  - pose proof (prefixb_app (b0 :: t) b) as Hp. unfold Index. cbn [app index_from] in Hp |- *.
    by rewrite Hp.
  - apply Index_neg_cons in Hn as [Hp Hn]. rewrite <- app_comm_cons, Index_cons.
    + rewrite IH, zlen_cons by done. pose proof (zlen_nonneg a).
      destruct (Z.eqb_spec (zlen a) (-1)); lia.
    + destruct (prefixb (b0 :: t) (x :: a ++ (b0 :: t) ++ b)) eqn:Ep; [|done]. exfalso.
      apply prefixb_true in Ep as (u & Eu).
      assert (Hl : (length (x :: a) < length (b0 :: t))%nat).
      { destruct (decide (length (b0 :: t) <= length (x :: a))%nat) as [Hle|]; [|lia]. exfalso.
        apply (f_equal (take (length (b0 :: t)))) in Eu. rewrite take_app_length in Eu.
        rewrite app_comm_cons, take_app_le in Eu by done.
        rewrite <- (take_drop (length (b0 :: t)) (x :: a)), Eu, prefixb_app in Hp. done. }
      apply (f_equal (lookup (length (x :: a)))) in Eu.
      rewrite app_comm_cons, lookup_app_r, Nat.sub_diag in Eu by done. cbn [app lookup list_lookup] in Eu.
      rewrite app_comm_cons, lookup_app_l in Eu by done. cbn [length lookup list_lookup] in Eu.
      symmetry in Eu. apply (Forall_lookup_1 _ _ _ _ Ht) in Eu. lia.
Qed.

Lemma decode_inv s c n : is_bytes s -> decode_rune s = (c, n) -> c <> RuneError ->
  exists t, s = encode_scalar c ++ t /\ n = length (encode_scalar c).
Proof.
  unfold is_bytes, is_byte. intros Hs.
  destruct s as [|b0 s]; [intros [= <- <-]; done|]. cbn [decode_rune].
  apply Forall_cons_1 in Hs as [H0 Hs]. unfold in_range, encode_scalar.
  destruct (b0 <? 128) eqn:E0.
  { intros [= <- <-] _. replace (b0 <=? 127) with true by lia. by exists s. }
  destruct s as [|b1 s]; [intros [= <- <-]; done|]. apply Forall_cons_1 in Hs as [H1 Hs].
  destruct ((194 <=? b0) && _) eqn:E1.
  { case_if E2; intros [= <- <-]; [|done]. intros _. exists s.
    replace (_ <=? 127) with false by lia. replace (_ <=? 2047) with true by lia.
    split; [|done]. cbn. do 2 f_equal; [|f_equal]; div_lia. }
  destruct s as [|b2 s]; [intros [= <- <-]; done|]. apply Forall_cons_1 in Hs as [H2 Hs].
  destruct ((224 <=? b0) && _) eqn:E3.
  { match goal with |- (if ?c then _ else _) = _ -> _ => destruct c eqn:E4 end;
      intros [= <- <-]; [|done]. intros _. exists s.
    assert (b0 = 224 -> 160 <= b1) by (intros ->; cbn in E4; lia).
    replace (_ <=? 127) with false by (destruct (b0 =? 224), (b0 =? 237); lia).
    replace (_ <=? 2047) with false by (destruct (b0 =? 224), (b0 =? 237); lia).
    replace (_ <=? 65535) with true by (destruct (b0 =? 224), (b0 =? 237); lia).
    split; [|done]. cbn. assert (128 <= b1 <= 191 /\ 128 <= b2 <= 191) by
      (destruct (b0 =? 224), (b0 =? 237); lia).
    do 3 f_equal; div_lia. }
  destruct s as [|b3 s]; [intros [= <- <-]; done|]. apply Forall_cons_1 in Hs as [H3 Hs].
  match goal with |- (if ?c then _ else _) = _ -> _ => destruct c eqn:E4 end;
    intros [= <- <-]; [|done]. intros _. exists s.
  assert (b0 = 240 -> 144 <= b1) by (intros ->; cbn in E4; lia).
  assert (240 <= b0 <= 244 /\ 128 <= b1 <= 191 /\ 128 <= b2 <= 191 /\ 128 <= b3 <= 191) by
    (destruct (b0 =? 240), (b0 =? 244); lia).
  replace (_ <=? 127) with false by lia. replace (_ <=? 2047) with false by lia.
  replace (_ <=? 65535) with false by lia. split; [|done]. cbn. do 4 f_equal; div_lia.
Qed.

Lemma index_func_range f k i s : 0 <= i ->
  -1 <= index_func f k i s /\ index_func f k i s <= i + zlen s.
Proof.
  revert k i. induction s as [|b s IH]; intros k i Hi; cbn [index_func].
  { rewrite zlen_nil. lia. }
  rewrite zlen_cons. pose proof (zlen_nonneg s).
  destruct k as [|k]; [destruct (decode_rune (b :: s)) as [c n]; destruct (f c); [lia|]|];
    match goal with |- context [index_func f ?k _ s] => pose proof (IH k (i + 1) ltac:(lia)) end; lia.
Qed.

End Text.
