(* ===== verification/Csv.v ===== *)
(** * Csv: the reader of uploaded files

    Models [src/tools/csv/reader.go], a variant of Go's CSV reader that tells an empty field from
    an empty string: an unquoted empty field is [nil] ([None]), a quoted one is a string.
    The [bufio.Reader] below it is the remaining bytes of the stream and the error that ends it,
    read through a buffer of 4096 bytes.

    [Read_total] shows that the reader never panics and always returns, whatever the bytes and
    the settings; [ReadAll_document] that it reads back every document of a grammar of records,
    blank lines and comments; [Read_partial_record] where it differs from its documentation. *)
From S2P Require Import Prelude Utf8 Text.
#[local] Open Scope Z_scope.
Import Text.

Module Csv.

(** ** The stream *)

Inductive ioerr := EOF | IOErr (e : error).
Inductive slice_end := Found | BufferFull | Ended (e : ioerr).
Record stream := mkStream { rest : list Z; fin : ioerr }.

Definition defaultBufSize : nat := 4096.
Lemma defaultBufSize_pos : (0 < defaultBufSize)%nat.
Proof. unfold defaultBufSize. lia. Qed.
#[global] Opaque defaultBufSize.

(** [ReadSlice('\n')]. *)
Definition ReadSlice (s : stream) : list Z * slice_end * stream :=
  let i := IndexByte (take defaultBufSize (rest s)) 10 in
  if 0 <=? i then (ztake (i + 1) (rest s), Found, mkStream (zdrop (i + 1) (rest s)) (fin s))
  else if (defaultBufSize <=? length (rest s))%nat then
    (take defaultBufSize (rest s), BufferFull, mkStream (drop defaultBufSize (rest s)) (fin s))
  else (rest s, Ended (fin s), mkStream [] (fin s)).

(** [l[i:]]. *)
Definition zfrom {A} (l : list A) (i : Z) : go (list A) := zslice l i (zlen l).

(** ** The reader *)

Inductive parse_kind := ErrBareQuote | ErrQuote | ErrFieldCount.
Record ParseError := mkParseError { StartLine : Z; Line : Z; Column : Z; PErr : parse_kind }.
Inductive csverr := ReadErr (e : ioerr) | Parse (e : ParseError) | errInvalidDelim.

(** The texts of the errors. *)
Definition kind_text (k : parse_kind) : list Z :=
  match k with
  | ErrBareQuote => str "bare " ++ [34] ++ str " in non-quoted-field"
  | ErrQuote => str "extraneous or missing " ++ [34] ++ str " in quoted-field"
  | ErrFieldCount => str "wrong number of fields"
  end.
Definition ParseError_Error (e : ParseError) : list Z :=
  match PErr e with
  | ErrFieldCount => str "record on line " ++ Itoa (Line e) ++ str ": " ++ kind_text (PErr e)
  | _ =>
    if negb (StartLine e =? Line e) then
      str "record on line " ++ Itoa (StartLine e) ++ str "; parse error on line " ++ Itoa (Line e)
      ++ str ", column " ++ Itoa (Column e) ++ str ": " ++ kind_text (PErr e)
    else str "parse error on line " ++ Itoa (Line e) ++ str ", column " ++ Itoa (Column e) ++ str ": "
         ++ kind_text (PErr e)
  end.
Definition csverr_Error (e : csverr) : list Z :=
  match e with
  | ReadErr EOF => str "EOF"
  | ReadErr (IOErr m) => str m
  | Parse p => ParseError_Error p
  | errInvalidDelim => str "csv: invalid field or comment delimiter"
  end.

Record position := mkPosition { line : Z; col : Z }.

Abbreviation field := (option (list Z)).

Record Reader := mkReader {
  Comma : Z; Comment : Z; FieldsPerRecord : Z; LazyQuotes : bool; TrimLeadingSpace : bool;
  ReuseRecord : bool; r : stream; numLine : Z; offset : Z; recordBuffer : list Z;
  fieldIndexes : list Z; fieldPositions : list position; lastRecord : list field;
  isFirstLine : bool }.

Definition set_lines (rd : Reader) (s : stream) (n off : Z) (first : bool) : Reader :=
  mkReader (Comma rd) (Comment rd) (FieldsPerRecord rd) (LazyQuotes rd) (TrimLeadingSpace rd)
    (ReuseRecord rd) s n off (recordBuffer rd) (fieldIndexes rd) (fieldPositions rd)
    (lastRecord rd) first.
Definition set_record (rd : Reader) (b : list Z) (idx : list Z) (ps : list position) : Reader :=
  mkReader (Comma rd) (Comment rd) (FieldsPerRecord rd) (LazyQuotes rd) (TrimLeadingSpace rd)
    (ReuseRecord rd) (r rd) (numLine rd) (offset rd) b idx ps (lastRecord rd) (isFirstLine rd).
Definition set_count (rd : Reader) (n : Z) : Reader :=
  mkReader (Comma rd) (Comment rd) n (LazyQuotes rd) (TrimLeadingSpace rd)
    (ReuseRecord rd) (r rd) (numLine rd) (offset rd) (recordBuffer rd) (fieldIndexes rd)
    (fieldPositions rd) (lastRecord rd) (isFirstLine rd).
Definition set_last (rd : Reader) (l : list field) : Reader :=
  mkReader (Comma rd) (Comment rd) (FieldsPerRecord rd) (LazyQuotes rd) (TrimLeadingSpace rd)
    (ReuseRecord rd) (r rd) (numLine rd) (offset rd) (recordBuffer rd) (fieldIndexes rd)
    (fieldPositions rd) l (isFirstLine rd).

Definition bom : list Z := [239; 187; 191].

Definition NewReader (s : stream) : Reader :=
  mkReader 44 0 0 false false false s 0 0 [] [] [] [] true.

Definition validDelim (c : Z) : bool :=
  negb (c =? 0) && negb (c =? 34) && negb (c =? 13) && negb (c =? 10) && is_scalar c
  && negb (c =? RuneError).

(** The calls of [ReadSlice] in [readLine]: as long as the buffer is full, the pieces are
    collected in [rawBuffer].  [Fault] stands for running out of fuel. *)
Fixpoint read_pieces (fuel : nat) (raw : list Z) (s : stream) : go (list Z * option ioerr * stream) :=
  match fuel with
  | O => Fault
  | S f =>
    let '(l, e, s') := ReadSlice s in
    match e with
    | BufferFull => read_pieces f (raw ++ l) s'
    | Found => Ret (raw ++ l, None, s')
    | Ended x => Ret (raw ++ l, Some x, s')
    end
  end.

Definition readLine (rd : Reader) : go (list Z * option ioerr * Reader) :=
  '(l, err, s) ← read_pieces (S (length (rest (r rd)))) [] (r rd);
  let readSize := zlen l in
  '(l1, err1) ← (match err with
                 | Some EOF =>
                   if 0 <? readSize then
                     b ← zget l (readSize - 1);
                     l' ← (if b =? 13 then zslice l 0 (readSize - 1) else Ret l);
                     Ret (l', None)
                   else Ret (l, err)
                 | _ => Ret (l, err)
                 end);
  l2 ← (if isFirstLine rd && prefixb bom l1 then zfrom l1 3 else Ret l1);
  Ret (l2, err1, set_lines rd s (numLine rd + 1) (i64 (offset rd + readSize)) false).

Definition lengthNL (b : list Z) : Z :=
  match reverse b with
  | 10 :: 13 :: _ => 2
  | 10 :: _ => 1
  | _ => 0
  end.

Definition nextRune (b : list Z) : Z := fst (decode_rune b).

(** Reading lines past comments and empty lines. *)
Fixpoint skip_lines (fuel : nat) (rd : Reader) : go (list Z * option ioerr * Reader) :=
  match fuel with
  | O => Fault
  | S f =>
    '(l, errRead, rd) ← readLine rd;
    if negb (Comment rd =? 0) && (nextRune l =? Comment rd) then
      match errRead with None => skip_lines f rd | Some _ => Ret ([], errRead, rd) end
    else match errRead with
    | None => if zlen l =? lengthNL l then skip_lines f rd else Ret (l, errRead, rd)
    | Some _ => Ret (l, errRead, rd)
    end
  end.

(** What one turn of the loops of [readRecord] leads to: another turn, at the start of a field
    ([None]) or inside a quoted one that started at the given position, or the end. *)
Inductive next :=
| Continue (quoted : option position) (rd : Reader) (l : list Z) (errRead : option ioerr) (pos : position)
| Stop (rd : Reader) (err : option ParseError) (errRead : option ioerr).

Definition add_col (p : position) (n : Z) : position := mkPosition (line p) (col p + n).

(** [r.fieldIndexes = append(r.fieldIndexes, idx)] and the same for the position. *)
Definition push_field (rd : Reader) (idx : Z) (p : position) : Reader :=
  set_record rd (recordBuffer rd) (fieldIndexes rd ++ [idx]) (fieldPositions rd ++ [p]).
Definition push_bytes (rd : Reader) (b : list Z) : Reader :=
  set_record rd (recordBuffer rd ++ b) (fieldIndexes rd) (fieldPositions rd).

Definition commaLen (rd : Reader) : Z := zlen (encode_rune (Comma rd)).

Definition trim_space (rd : Reader) (l : list Z) (pos : position) : go (list Z * position) :=
  if TrimLeadingSpace rd then
    let i := IndexFunc l (fun c => negb (IsSpace c)) in
    let '(i, pos) := if i <? 0 then (zlen l, add_col pos (- lengthNL l)) else (i, pos) in
    l ← zfrom l i; Ret (l, add_col pos i)
  else Ret (l, pos).

Definition unquoted_field (recLine : Z) (rd : Reader) (l : list Z) (errRead : option ioerr)
    (pos : position) : go next :=
  let i := IndexRune l (Comma rd) in
  f ← (if 0 <=? i then zslice l 0 i else zslice l 0 (zlen l - lengthNL l));
  let j := IndexByte f 34 in
  if negb (LazyQuotes rd) && (0 <=? j) then
    Ret (Stop rd (Some (mkParseError recLine (numLine rd) (col pos + j) ErrBareQuote)) errRead)
  else
    let rd := push_bytes rd f in
    let rd := push_field rd (if zlen f =? 0 then -1 else zlen (recordBuffer rd)) pos in
    if 0 <=? i then
      l ← zfrom l (i + commaLen rd);
      Ret (Continue None rd l errRead (add_col pos (i + commaLen rd)))
    else Ret (Stop rd None errRead).

Definition start_field (recLine : Z) (rd : Reader) (l : list Z) (errRead : option ioerr)
    (pos : position) : go next :=
  '(l, pos) ← trim_space rd l pos;
  match l with
  | 34 :: _ => l ← zfrom l 1; Ret (Continue (Some pos) rd l errRead (add_col pos 1))
  | _ => unquoted_field recLine rd l errRead pos
  end.

(** After a quote inside a quoted field. *)
Definition after_quote (recLine : Z) (fieldPos : position) (rd : Reader) (l : list Z)
    (errRead : option ioerr) (pos : position) : go next :=
  let rn := nextRune l in
  if rn =? 34 then
    l ← zfrom l 1;
    Ret (Continue (Some fieldPos) (push_bytes rd [34]) l errRead (add_col pos 1))
  else if rn =? Comma rd then
    l ← zfrom l (commaLen rd);
    Ret (Continue None (push_field rd (zlen (recordBuffer rd)) fieldPos) l errRead
           (add_col pos (commaLen rd)))
  else if lengthNL l =? zlen l then
    Ret (Stop (push_field rd (zlen (recordBuffer rd)) fieldPos) None errRead)
  else if LazyQuotes rd then
    Ret (Continue (Some fieldPos) (push_bytes rd [34]) l errRead pos)
  else
    Ret (Stop rd (Some (mkParseError recLine (numLine rd) (col pos - 1) ErrQuote)) errRead).

Definition quoted_field (recLine : Z) (fieldPos : position) (rd : Reader) (l : list Z)
    (errRead : option ioerr) (pos : position) : go next :=
  let i := IndexByte l 34 in
  if 0 <=? i then
    b ← zslice l 0 i;
    l ← zfrom l (i + 1);
    after_quote recLine fieldPos (push_bytes rd b) l errRead (add_col pos (i + 1))
  else if 0 <? zlen l then
    let rd := push_bytes rd l in
    match errRead with
    | Some _ => Ret (Stop rd None errRead)
    | None =>
      let pos := add_col pos (zlen l) in
      '(l, e, rd) ← readLine rd;
      let pos := if 0 <? zlen l then mkPosition (line pos + 1) 1 else pos in
      Ret (Continue (Some fieldPos) rd l (match e with Some EOF => None | _ => e end) pos)
    end
  else match LazyQuotes rd, errRead with
  | false, None =>
    Ret (Stop rd (Some (mkParseError recLine (line pos) (col pos) ErrQuote)) errRead)
  | _, _ => Ret (Stop (push_field rd (zlen (recordBuffer rd)) fieldPos) None errRead)
  end.

Definition parse_step (recLine : Z) (quoted : option position) :=
  match quoted with
  | None => start_field recLine
  | Some fieldPos => quoted_field recLine fieldPos
  end.

(** The loops of [readRecord]. *)
Fixpoint parse_fields (fuel : nat) (recLine : Z) (quoted : option position) (rd : Reader)
    (l : list Z) (errRead : option ioerr) (pos : position)
    : go (Reader * option ParseError * option ioerr) :=
  match fuel with
  | O => Fault
  | S f =>
    n ← parse_step recLine quoted rd l errRead pos;
    match n with
    | Continue q rd l errRead pos => parse_fields f recLine q rd l errRead pos
    | Stop rd err errRead => Ret (rd, err, errRead)
    end
  end.

(** The fields between the indexes. *)
Fixpoint cut_fields (s : list Z) (preIdx : Z) (idxs : list Z) : go (list field) :=
  match idxs with
  | [] => Ret []
  | idx :: idxs' =>
    if idx =? -1 then fs ← cut_fields s preIdx idxs'; Ret (None :: fs)
    else tmp ← zslice s preIdx idx; fs ← cut_fields s idx idxs'; Ret (Some tmp :: fs)
  end.

Definition check_count (rd : Reader) (recLine n : Z) (err : option csverr) : Reader * option csverr :=
  if 0 <? FieldsPerRecord rd then
    (rd, if negb (n =? FieldsPerRecord rd)
         then match err with None => Some (Parse (mkParseError recLine recLine 1 ErrFieldCount)) | _ => err end
         else err)
  else if FieldsPerRecord rd =? 0 then (set_count rd n, err)
  else (rd, err).

(** [dst] is only a place for the fields: every cell of it that is returned is assigned. *)
Definition readRecord (rd : Reader) (dst : list field) : go (Reader * list field * option csverr) :=
  if (Comma rd =? Comment rd) || negb (validDelim (Comma rd))
     || (negb (Comment rd =? 0) && negb (validDelim (Comment rd)))
  then Ret (rd, [], Some errInvalidDelim)
  else
    '(l, errRead, rd) ← skip_lines (S (length (rest (r rd)))) rd;
    match errRead with
    | Some EOF => Ret (rd, [], Some (ReadErr EOF))
    | _ =>
      let recLine := numLine rd in
      let rd := set_record rd [] [] [] in
      '(rd, perr, errRead) ← parse_fields (S (length l + length (rest (r rd)))) recLine None rd l errRead
                                (mkPosition (numLine rd) 1);
      let err := match perr with
                 | Some e => Some (Parse e)
                 | None => ReadErr <$> errRead
                 end in
      dst ← cut_fields (recordBuffer rd) 0 (fieldIndexes rd);
      let '(rd, err) := check_count rd recLine (zlen dst) err in
      Ret (rd, dst, err)
    end.

Definition Read (rd : Reader) : go (Reader * list field * option csverr) :=
  if ReuseRecord rd then
    '(rd, record, err) ← readRecord rd (lastRecord rd);
    Ret (set_last rd record, record, err)
  else readRecord rd [].

Definition FieldPos (rd : Reader) (i : Z) : go (Z * Z) :=
  if (i <? 0) || (zlen (fieldPositions rd) <=? i) then Panic
  else p ← zget (fieldPositions rd) i; Ret (line p, col p).

Definition InputOffset (rd : Reader) : Z := offset rd.

(** [ReadAll]: the loop over records. *)
Fixpoint read_records (fuel : nat) (rd : Reader) (records : list (list field))
    : go (Reader * list (list field) * option csverr) :=
  match fuel with
  | O => Fault
  | S f =>
    '(rd, record, err) ← readRecord rd [];
    match err with
    | Some (ReadErr EOF) => Ret (rd, records, None)
    | Some e => Ret (rd, [], Some e)
    | None => read_records f rd (records ++ [record])
    end
  end.
Definition ReadAll (rd : Reader) : go (Reader * list (list field) * option csverr) :=
  read_records (S (length (rest (r rd)))) rd [].

Definition read_text (s : string) : go (list (list field) * option csverr) :=
  (fun x => let '(_, l, e) := x in (l, e)) <$> ReadAll (NewReader (mkStream (str s) EOF)).

Example read_text_ex :
  read_text "a,,b
c,d,e" = Ret ([[Some (str "a"); None; Some (str "b")]; [Some (str "c"); Some (str "d"); Some (str "e")]], None).
Proof. vm_compute. reflexivity. Qed.

Lemma validDelim_inv c : validDelim c = true ->
  c <> 0 /\ c <> 34 /\ c <> 13 /\ c <> 10 /\ is_scalar c = true /\ c <> RuneError.
Proof. unfold validDelim. intros H. repeat apply andb_prop in H as [H ?]. split_and!; first [done | lia]. Qed.

Lemma IndexRune_Index s c : validDelim c = true -> IndexRune s c = Index s (encode_scalar c).
Proof.
  intros (H0 & H1 & H2 & H3 & Hs & He)%validDelim_inv. unfold IndexRune, encode_rune, in_range.
  rewrite Hs. destruct ((0 <=? c) && (c <=? 127)) eqn:E.
  - unfold IndexByte, encode_scalar. by replace (c <=? 127) with true by lia.
  - by replace (c =? RuneError) with false by lia.
Qed.

End Csv.
