(* ===== verification/CsvSpec.v ===== *)
(** * CsvSpec: the CSV reader returns, and reads documents back

    Theorems about [Csv]: lines do not depend on the buffer ([read_pieces_split]), every call
    returns ([Read_total]), and the documents of a grammar are read back
    ([ReadAll_document]). *)
From S2P Require Import Prelude Utf8 Text Csv.
#[local] Open Scope Z_scope.
Import Text Csv.

Module CsvSpec.

(** Non-membership in an explicit list. *)
Ltac not_in :=
  rewrite ?not_elem_of_app, ?not_elem_of_cons; split_and!; first [apply not_elem_of_nil | done | lia].

(** ** Lines *)

(** The bytes up to and with the first newline, whether there is one, and the rest. *)
Fixpoint split_line (s : list Z) : list Z * bool * list Z :=
  match s with
  | [] => ([], false, [])
  | b :: s' =>
    if b =? 10 then ([10], true, s')
    else let '(l, f, t) := split_line s' in (b :: l, f, t)
  end.

Lemma split_line_app a s : 10 ∉ a ->
  split_line (a ++ s) = let '(l, f, t) := split_line s in (a ++ l, f, t).
Proof.
  induction a as [|x a IH]; intros H; [cbn; by destruct (split_line s) as [[??]?]|].
  apply not_elem_of_cons in H as [H1 H2]. cbn [app split_line].
  replace (x =? 10) with false by lia. rewrite IH by done. by destruct (split_line s) as [[??]?].
Qed.

Lemma split_line_nl a s : 10 ∉ a -> split_line (a ++ 10 :: s) = (a ++ [10], true, s).
Proof. intros H. by rewrite split_line_app. Qed.

Lemma split_line_all a : 10 ∉ a -> split_line a = (a, false, []).
Proof. intros H. rewrite <- (app_nil_r a) at 1. rewrite split_line_app by done. cbn. by rewrite app_nil_r. Qed.

Lemma split_line_spec s l f t : split_line s = (l, f, t) ->
  s = l ++ t /\
  if f then (exists a, l = a ++ [10] /\ 10 ∉ a) else (t = [] /\ 10 ∉ l).
Proof.
  destruct (decide (10 ∈ s)) as [Hin|Hin].
  - apply list_elem_of_split_l in Hin as (a & b & -> & Hn). rewrite split_line_nl by done.
    intros [= <- <- <-]. split; [list_assoc|]. by exists a.
  - rewrite split_line_all by done. intros [= <- <- <-]. by rewrite app_nil_r.
Qed.

Lemma ReadSlice_found s a b : rest s = a ++ 10 :: b -> 10 ∉ a -> (length a < defaultBufSize)%nat ->
  ReadSlice s = (a ++ [10], Found, mkStream b (fin s)).
Proof.
  intros E Hn Hl. unfold ReadSlice. rewrite E, take_app_ge by lia.
  destruct (defaultBufSize - length a)%nat as [|k] eqn:Ek; [lia|]. cbn [take].
  rewrite IndexByte_app by done. replace (0 <=? zlen a) with true by (pose proof (zlen_nonneg a); lia).
  replace (a ++ 10 :: b) with ((a ++ [10]) ++ b) by list_assoc.
  by rewrite ztake_app_len, zdrop_app_len by (autorewrite with zlen; done).
Qed.

Lemma ReadSlice_full s : 10 ∉ take defaultBufSize (rest s) -> (defaultBufSize <= length (rest s))%nat ->
  ReadSlice s = (take defaultBufSize (rest s), BufferFull, mkStream (drop defaultBufSize (rest s)) (fin s)).
Proof.
  intros Hn Hl. unfold ReadSlice. apply IndexByte_none in Hn. rewrite Hn. cbn.
  by replace (defaultBufSize <=? length (rest s))%nat with true by (symmetry; by apply Nat.leb_le).
Qed.

Lemma ReadSlice_end s : 10 ∉ rest s -> (length (rest s) < defaultBufSize)%nat ->
  ReadSlice s = (rest s, Ended (fin s), mkStream [] (fin s)).
Proof.
  intros Hn Hl. unfold ReadSlice. rewrite take_ge by lia. apply IndexByte_none in Hn. rewrite Hn. cbn.
  by replace (defaultBufSize <=? length (rest s))%nat with false by (symmetry; by apply Nat.leb_gt).
Qed.

(** The pieces that the buffer gives make up the line, whatever its length. *)
Lemma read_pieces_split fuel raw s : (length (rest s) < fuel)%nat ->
  read_pieces fuel raw s =
  let '(l, f, t) := split_line (rest s) in
  Ret (raw ++ l, if f then None else Some (fin s), mkStream t (fin s)).
Proof.
  revert raw s. induction fuel as [|fuel IH]; intros raw s Hf; [lia|]. cbn [read_pieces].
  pose proof defaultBufSize_pos as Hpos.
  destruct (decide (10 ∈ take defaultBufSize (rest s))) as [Hin|Hn].
  - apply list_elem_of_split_l in Hin as (a & b & E & Hn).
    assert (Hl : (length a < defaultBufSize)%nat).
    { apply (f_equal length) in E. rewrite length_take, length_app in E. cbn in E. lia. }
    pose proof (take_drop defaultBufSize (rest s)) as Hr. rewrite E, <- app_assoc in Hr. cbn in Hr.
    symmetry in Hr. remember (b ++ _) as t. rewrite (ReadSlice_found _ _ _ Hr Hn Hl), Hr.
    by rewrite split_line_nl.
  - destruct (decide (defaultBufSize <= length (rest s))%nat) as [Hl|Hl].
    + rewrite ReadSlice_full by done. rewrite IH by (cbn [rest]; rewrite length_drop; lia).
      cbn [rest fin]. rewrite <- (take_drop defaultBufSize (rest s)) at 2.
      rewrite split_line_app by done. destruct (split_line _) as [[l f] t]. by rewrite app_assoc.
    + rewrite take_ge in Hn by lia. rewrite ReadSlice_end by (done || lia).
      by rewrite split_line_all.
Qed.

(** [r] is read with the settings and the record of [rd]. *)
Definition same_record (rd rd' : Reader) : Prop :=
  exists s n off, rd' = set_lines rd s n off false.

Definition chomp_cr (l : list Z) : list Z :=
  match reverse l with 13 :: _ => take (length l - 1) l | _ => l end.
Definition drop_bom (first : bool) (l : list Z) : list Z :=
  if first && prefixb bom l then drop 3 l else l.

Lemma readLine_eq rd :
  let '(l, f, t) := split_line (rest (r rd)) in
  let eof := negb f && match fin (r rd) with EOF => (0 <? zlen l) | _ => false end in
  readLine rd = Ret (drop_bom (isFirstLine rd) (if eof then chomp_cr l else l),
                     if f || eof then None else Some (fin (r rd)),
                     set_lines rd (mkStream t (fin (r rd))) (numLine rd + 1)
                       (i64 (offset rd + zlen l)) false).
Proof.
  destruct (split_line (rest (r rd))) as [[l f] t] eqn:E. cbv zeta. unfold readLine.
  rewrite read_pieces_split by lia. rewrite E. cbn [app]. go_run.
  assert (Hbom : forall l, (if isFirstLine rd && prefixb bom l then zfrom l 3 else Ret l)
                           = Ret (drop_bom (isFirstLine rd) l)).
  { intros k. unfold drop_bom. destruct (isFirstLine rd && _) eqn:E1; [|done].
    apply andb_prop in E1 as [_ (u & ->)%prefixb_true]. unfold zfrom, zslice.
    rewrite zlen_app, bool_decide_eq_true_2 by (pose proof (zlen_nonneg u); change (zlen bom) with 3; lia).
    unfold ztake, zdrop. f_equal. apply take_ge. rewrite length_drop, length_app.
    unfold zlen. cbn [bom length]. lia. }
  destruct f; cbn [negb andb orb]; go_run; [by rewrite Hbom|].
  destruct (fin (r rd)); [|go_run; by rewrite Hbom].
  destruct (Z.ltb_spec 0 (zlen l)) as [Hl|Hl]; go_run; [|by rewrite Hbom].
  destruct l as [|x l0 _] using rev_ind; [done|].
  rewrite zlen_snoc. replace (zlen l0 + 1 - 1) with (zlen l0) by lia. rewrite zget_middle. go_run.
  unfold chomp_cr. rewrite reverse_snoc.
  assert (Hc : (if x =? 13 then zslice (l0 ++ [x]) 0 (zlen l0) else Ret (l0 ++ [x]))
             = Ret (match x :: reverse l0 with 13 :: _ => take (length (l0 ++ [x]) - 1) (l0 ++ [x])
                    | _ => l0 ++ [x] end)).
  { destruct (Z.eqb_spec x 13) as [->|Hx].
    - unfold zslice. rewrite zlen_snoc, bool_decide_eq_true_2 by (pose proof (zlen_nonneg l0); lia).
      f_equal. rewrite length_app. cbn [length]. rewrite Nat.add_sub.
      unfold ztake, zdrop, zlen. cbn [Z.to_nat drop]. f_equal. lia.
    - f_equal. by repeat (case_match; try done). }
  rewrite Hc. go_run. by rewrite Hbom.
Qed.

(** ** Every call returns *)

(** [rd'] comes after [rd] in the same stream: the settings are the same, a part [k] of the input
    has been read, and the offset counts it. *)
Definition moved (rd rd' : Reader) : Prop :=
  Comma rd' = Comma rd /\ Comment rd' = Comment rd /\ LazyQuotes rd' = LazyQuotes rd /\
  TrimLeadingSpace rd' = TrimLeadingSpace rd /\ ReuseRecord rd' = ReuseRecord rd /\
  fin (r rd') = fin (r rd) /\
  exists k, rest (r rd) = k ++ rest (r rd') /\ i64 (offset rd') = i64 (offset rd + zlen k).

Lemma i64_add_congr a b c : i64 a = i64 b -> i64 (a + c) = i64 (b + c).
Proof.
  unfold wrap_s. intros H.
  assert (E : (a + 2 ^ (64 - 1)) mod 2 ^ 64 = (b + 2 ^ (64 - 1)) mod 2 ^ 64) by lia.
  replace (a + c + 2 ^ (64 - 1)) with (a + 2 ^ (64 - 1) + c) by lia.
  replace (b + c + 2 ^ (64 - 1)) with (b + 2 ^ (64 - 1) + c) by lia.
  rewrite <- (Z.add_mod_idemp_l (a + _)), <- (Z.add_mod_idemp_l (b + _)) by done. by rewrite E.
Qed.

#[export] Instance moved_preorder : PreOrder moved.
Proof.
  split.
  - intros rd. do 6 (split; [done|]). exists []. split; [done|]. by rewrite zlen_nil, Z.add_0_r.
  - intros a b c (E1 & E2 & E3 & E4 & E5 & E6 & k & E7 & E8) (F1 & F2 & F3 & F4 & F5 & F6 & k' & F7 & F8).
    do 6 (split; [congruence|]). exists (k ++ k'). split; [rewrite E7, F7; list_assoc|].
    rewrite F8, zlen_app, Z.add_assoc. by apply i64_add_congr.
Qed.

(** Only the record was changed. *)
Lemma moved_record rd b idx ps : moved rd (set_record rd b idx ps).
Proof. do 6 (split; [done|]). exists []. split; [done|]. by rewrite zlen_nil, Z.add_0_r. Qed.
#[local] Hint Resolve moved_record : core.

(** The bytes not yet parsed. *)
Definition todo (l : list Z) (rd : Reader) : nat := length l + length (rest (r rd)).

Lemma moved_rest rd rd' : moved rd rd' -> (length (rest (r rd')) <= length (rest (r rd)))%nat.
Proof. intros (_ & _ & _ & _ & _ & _ & k & -> & _). rewrite length_app. lia. Qed.

Lemma moved_bytes rd rd' : moved rd rd' -> is_bytes (rest (r rd)) -> is_bytes (rest (r rd')).
Proof. intros (_ & _ & _ & _ & _ & _ & k & -> & _) H. by apply Forall_app in H as [_ H]. Qed.

Lemma chomp_cr_suffix l : exists t, l = chomp_cr l ++ t.
Proof.
  unfold chomp_cr. repeat case_match; try (exists []; by rewrite app_nil_r).
  eexists. by rewrite take_drop.
Qed.

Lemma drop_bom_suffix f l : exists t, l = t ++ drop_bom f l.
Proof.
  unfold drop_bom. destruct (_ && _); [|by exists []]. exists (take 3 l). by rewrite take_drop.
Qed.

Lemma readLine_total rd : is_bytes (rest (r rd)) ->
  exists l e rd', readLine rd = Ret (l, e, rd') /\ moved rd rd' /\ is_bytes l /\
    (todo l rd' <= length (rest (r rd)))%nat /\
    (e = None -> (length (rest (r rd')) < length (rest (r rd)))%nat) /\
    exists n off, rd' = set_lines rd (r rd') n off false.
Proof.
  intros Hb. pose proof (readLine_eq rd) as E.
  destruct (split_line (rest (r rd))) as [[l f] t] eqn:Es.
  apply split_line_spec in Es as [El Hf]. eexists _, _, _. split; [exact E|]. clear E.
  match goal with |- context [drop_bom _ ?x] => set (l' := x) end.
  assert (Hl' : exists u, l = l' ++ u).
  { unfold l'. destruct (_ && _); [apply chomp_cr_suffix|exists []; by rewrite app_nil_r]. }
  destruct Hl' as (u & Hu). destruct (drop_bom_suffix (isFirstLine rd) l') as (v & Hv).
  assert (Hll : l = v ++ drop_bom (isFirstLine rd) l' ++ u).
  { etrans; [exact Hu|]. rewrite Hv at 1. list_assoc. }
  clearbody l'. rewrite El in Hb. apply Forall_app in Hb as [Hbl Hbt].
  split_and!.
  - do 6 (split; [done|]). exists l. split; [done|]. cbn.
    apply wrap_s_id; [lia|]. apply wrap_s_range. lia.
  - rewrite Hll in Hbl. by apply Forall_app in Hbl as [_ [Hbl _]%Forall_app].
  - unfold todo. cbn [r set_lines rest]. rewrite El, Hll, !length_app. lia.
  - cbn [r set_lines rest]. intros He. rewrite El, length_app.
    assert (0 < length l)%nat; [|lia].
    destruct f; [destruct Hf as (a & -> & _); rewrite length_app; cbn; lia|].
    cbn [negb andb orb] in He. destruct (fin (r rd)); [|done].
    destruct (Z.ltb_spec 0 (zlen l)); [unfold zlen in *; lia|done].
  - by eexists _, _.
Qed.

Lemma skip_lines_total fuel rd : is_bytes (rest (r rd)) -> (length (rest (r rd)) < fuel)%nat ->
  exists l e rd', skip_lines fuel rd = Ret (l, e, rd') /\ moved rd rd' /\ is_bytes l /\
    (e = None -> (length (rest (r rd')) < length (rest (r rd)))%nat) /\
    FieldsPerRecord rd' = FieldsPerRecord rd /\ lastRecord rd' = lastRecord rd.
Proof.
  revert rd. induction fuel as [|fuel IH]; intros rd Hb Hf; [lia|]. cbn [skip_lines].
  destruct (readLine_total rd Hb) as (l & e & rd1 & -> & Hm & Hbl & _ & He & n & off & Hs). go_run.
  assert (Hsame : FieldsPerRecord rd1 = FieldsPerRecord rd /\ lastRecord rd1 = lastRecord rd)
    by (by rewrite Hs).
  assert (Hagain : e = None -> exists l e rd', skip_lines fuel rd1 = Ret (l, e, rd') /\ moved rd rd' /\ is_bytes l /\
    (e = None -> (length (rest (r rd')) < length (rest (r rd)))%nat) /\
    FieldsPerRecord rd' = FieldsPerRecord rd /\ lastRecord rd' = lastRecord rd).
  { intros ->. specialize (He eq_refl).
    destruct (IH rd1 (moved_bytes _ _ Hm Hb) ltac:(lia)) as (l2 & e2 & rd2 & E & Hm2 & Hbl2 & He2 & Hs2 & Hs3).
    exists l2, e2, rd2. split_and!; [done|by etrans|done| | |]; [|destruct Hsame; congruence..].
    intros He3. apply He2 in He3. lia. }
  assert (Hstop : forall l, is_bytes l -> exists l' e' rd', Ret (l, e, rd1) = Ret (l', e', rd') /\ moved rd rd' /\ is_bytes l' /\
    (e' = None -> (length (rest (r rd')) < length (rest (r rd)))%nat) /\
    FieldsPerRecord rd' = FieldsPerRecord rd /\ lastRecord rd' = lastRecord rd).
  { intros k Hk. by exists k, e, rd1. }
  destruct (_ && _); destruct e; [apply Hstop; constructor|by apply Hagain|by apply Hstop|].
  destruct (_ =? _); [by apply Hagain|by apply Hstop].
Qed.

(** *** The record under construction *)

(** The indexes of a list of fields that start at [p]. *)
Fixpoint ends (p : Z) (fs : list field) : list Z :=
  match fs with
  | [] => []
  | None :: fs' => -1 :: ends p fs'
  | Some s :: fs' => p + zlen s :: ends (p + zlen s) fs'
  end.
Definition text (fs : list field) : list Z := concat (default [] <$> fs).

(** [rd] holds the fields [fs] and the bytes [part] of the field being read. *)
Definition holds_fields (rd : Reader) (fs : list field) (part : list Z) : Prop :=
  recordBuffer rd = text fs ++ part /\ fieldIndexes rd = ends 0 fs /\
  length (fieldPositions rd) = length fs.

Lemma text_cons f fs : text (f :: fs) = default [] f ++ text fs.
Proof. done. Qed.

Lemma text_snoc fs f : text (fs ++ [f]) = text fs ++ default [] f.
Proof. unfold text. rewrite fmap_app, concat_app. cbn. by rewrite app_nil_r. Qed.

Lemma ends_snoc p fs f :
  ends p (fs ++ [f]) = ends p fs ++ [match f with None => -1 | Some s => p + zlen (text fs) + zlen s end].
Proof.
  revert p. induction fs as [|[s|] fs IH]; intros p; cbn [app ends].
  - change (text []) with (@nil Z). rewrite zlen_nil, Z.add_0_r. by destruct f.
  - rewrite IH, text_cons, zlen_app. cbn [default from_option id]. destruct f; [|done]. do 3 f_equal. lia.
  - by rewrite IH.
Qed.

Lemma cut_fields_ends pre fs part :
  cut_fields (pre ++ text fs ++ part) (zlen pre) (ends (zlen pre) fs) = Ret fs.
Proof.
  revert pre. induction fs as [|[s|] fs IH]; intros pre; cbn [ends cut_fields]; [done| |].
  - pose proof (zlen_nonneg pre). pose proof (zlen_nonneg s).
    replace (zlen pre + zlen s =? -1) with false by lia.
    assert (E : pre ++ text (Some s :: fs) ++ part = (pre ++ s) ++ text fs ++ part)
      by (rewrite text_cons; cbn; list_assoc). rewrite E.
    assert (Ez : zslice ((pre ++ s) ++ text fs ++ part) (zlen pre) (zlen pre + zlen s) = Ret s).
    { unfold zslice. rewrite bool_decide_eq_true_2
        by (rewrite !zlen_app; pose proof (zlen_nonneg (text fs)); pose proof (zlen_nonneg part); lia).
      rewrite <- app_assoc, zdrop_app_len, ztake_app_len by lia. done. }
    rewrite Ez. go_run. replace (zlen pre + zlen s) with (zlen (pre ++ s)) by apply zlen_app.
    by rewrite IH.
  - rewrite text_cons. cbn [default from_option app]. by rewrite IH.
Qed.

Lemma cut_fields_holds rd fs part :
  holds_fields rd fs part -> cut_fields (recordBuffer rd) 0 (fieldIndexes rd) = Ret fs.
Proof. intros (-> & -> & _). apply (cut_fields_ends []). Qed.

Lemma holds_push_bytes rd fs part b :
  holds_fields rd fs part -> holds_fields (push_bytes rd b) fs (part ++ b).
Proof. intros (E & E1 & E2). split; [|done]. cbn. rewrite E. list_assoc. Qed.

Lemma holds_push_some rd fs part p :
  holds_fields rd fs part ->
  holds_fields (push_field rd (zlen (recordBuffer rd)) p) (fs ++ [Some part]) [].
Proof.
  intros (E & E1 & E2). split_and!; cbn.
  - by rewrite E, text_snoc, app_nil_r.
  - rewrite E1, ends_snoc, E, zlen_app. done.
  - rewrite !length_app, E2. done.
Qed.

Lemma holds_push_null rd fs p :
  holds_fields rd fs [] -> holds_fields (push_field rd (-1) p) (fs ++ [None]) [].
Proof.
  intros (E & E1 & E2). split_and!; cbn.
  - by rewrite E, text_snoc, !app_nil_r.
  - by rewrite E1, ends_snoc.
  - rewrite !length_app, E2. done.
Qed.
#[local] Hint Resolve holds_push_bytes holds_push_some holds_push_null : core.

(** *** One turn of the parser *)

Lemma zfrom_in {A} (l : list A) i : 0 <= i <= zlen l -> zfrom l i = Ret (zdrop i l).
Proof.
  intros H. unfold zfrom, zslice. rewrite bool_decide_eq_true_2 by lia. f_equal.
  unfold ztake, zdrop. apply take_ge. rewrite length_drop. unfold zlen in *. lia.
Qed.

Lemma zslice_to {A} (l : list A) i : 0 <= i <= zlen l -> zslice l 0 i = Ret (ztake i l).
Proof. intros H. unfold zslice. rewrite bool_decide_eq_true_2 by lia. by rewrite Z.sub_0_r. Qed.

Lemma zdrop_bytes l i : is_bytes l -> is_bytes (zdrop i l).
Proof. apply Forall_drop. Qed.
Lemma length_zdrop {A} (l : list A) i : 0 <= i <= zlen l -> length (zdrop i l) = (length l - Z.to_nat i)%nat.
Proof. intros. unfold zdrop. by rewrite length_drop. Qed.

Lemma lengthNL_range l : 0 <= lengthNL l <= zlen l.
Proof.
  unfold lengthNL. rewrite <- (reverse_involutive l) at 2 3. unfold zlen. rewrite length_reverse.
  destruct (reverse l) as [|x [|y t]]; cbn [length]; repeat case_match; simplify_eq/=; lia.
Qed.

(** The settings that change only between records, and a read error that stays. *)
Definition keeps (rd : Reader) (e : option ioerr) (rd' : Reader) (e' : option ioerr) : Prop :=
  FieldsPerRecord rd' = FieldsPerRecord rd /\ lastRecord rd' = lastRecord rd /\ (e' = None -> e = None).

(** What a turn promises: the input moves on, the record stays in shape, and a further turn has
    fewer than [bound] bytes to parse. *)
Definition turn_ok (rd : Reader) (e : option ioerr) (bound : nat) (n : next) : Prop :=
  match n with
  | Continue q rd' l' e' _ =>
    moved rd rd' /\ keeps rd e rd' e' /\ is_bytes l' /\ (todo l' rd' < bound)%nat /\
    exists fs part, holds_fields rd' fs part /\ (q = None -> part = [])
  | Stop rd' _ e' => moved rd rd' /\ keeps rd e rd' e' /\ exists fs part, holds_fields rd' fs part
  end.

Lemma commaLen_nextRune rd l : is_bytes l -> validDelim (Comma rd) = true -> nextRune l = Comma rd ->
  1 <= commaLen rd <= zlen l.
Proof.
  intros Hb (_ & _ & _ & _ & Hs & He)%validDelim_inv Hn. unfold nextRune in Hn.
  destruct (decode_rune l) as [c n] eqn:E. cbn in Hn. subst c.
  destruct (decode_inv _ _ _ Hb E He) as (t & -> & _). unfold commaLen. rewrite encode_rune_scalar by done.
  destruct (encode_scalar_shape _ Hs) as (b & u & -> & _). rewrite zlen_app, zlen_cons.
  pose proof (zlen_nonneg u). pose proof (zlen_nonneg t). lia.
Qed.

Lemma nextRune_cons l c : is_bytes l -> nextRune l = c -> c <> RuneError -> 1 <= zlen l.
Proof.
  intros Hb Hn Hc. destruct l; [by rewrite <- Hn in Hc|]. rewrite zlen_cons.
  pose proof (zlen_nonneg l). lia.
Qed.

#[local] Hint Extern 1 (moved _ _) => reflexivity : core.
#[local] Hint Unfold keeps : core.

Lemma after_quote_total recLine fieldPos rd l e pos fs part :
  validDelim (Comma rd) = true -> is_bytes l -> holds_fields rd fs part ->
  exists n, after_quote recLine fieldPos rd l e pos = Ret n /\ turn_ok rd e (S (todo l rd)) n.
Proof.
  intros Hc Hb Hh. unfold after_quote.
  destruct (Z.eqb_spec (nextRune l) 34) as [E1|E1].
  { pose proof (nextRune_cons l 34 Hb E1 ltac:(done)). rewrite zfrom_in by lia. go_run.
    eexists. split; [done|]. cbn. split_and!; [apply moved_record|done|by apply zdrop_bytes| |].
    - unfold todo. cbn. rewrite length_zdrop by lia. lia.
    - eexists fs, _. split; [by apply holds_push_bytes|done]. }
  destruct (Z.eqb_spec (nextRune l) (Comma rd)) as [E2|E2].
  { pose proof (commaLen_nextRune rd l Hb Hc E2). rewrite zfrom_in by lia. go_run.
    eexists. split; [done|]. cbn. split_and!; [apply moved_record|done|by apply zdrop_bytes| |].
    - unfold todo. cbn. rewrite length_zdrop by lia. lia.
    - eexists _, []. split; [by apply holds_push_some|done]. }
  destruct (_ =? _).
  { eexists. split; [done|]. cbn. split_and!; [apply moved_record|done|].
    eexists _, []. by apply holds_push_some. }
  destruct (LazyQuotes rd); (eexists; split; [done|]); cbn.
  - split_and!; [apply moved_record|done|done|unfold todo; cbn; lia|].
    eexists fs, _. split; [by apply holds_push_bytes|done].
  - split_and!; [reflexivity|done|eauto].
Qed.

Lemma quoted_field_total recLine fieldPos rd l e pos fs part :
  validDelim (Comma rd) = true -> is_bytes l -> is_bytes (rest (r rd)) -> holds_fields rd fs part ->
  exists n, quoted_field recLine fieldPos rd l e pos = Ret n /\ turn_ok rd e (todo l rd) n.
Proof.
  intros Hc Hb Hbr Hh. unfold quoted_field.
  destruct (IndexByte_inv l 34) as [[E _]|(a & b & -> & Ha & E)]; rewrite E.
  - cbn [Z.leb Z.compare]. destruct (Z.ltb_spec 0 (zlen l)) as [Hl|Hl].
    + destruct e.
      { eexists. split; [done|]. cbn. split_and!; [apply moved_record|done|].
        eexists fs, _. by apply holds_push_bytes. }
      destruct (readLine_total (push_bytes rd l) Hbr) as (l1 & e1 & rd1 & -> & Hm & Hb1 & Ht & _ & n & off & Hs).
      go_run. eexists. split; [done|]. cbn. split_and!.
      * etrans; [apply moved_record|exact Hm].
      * rewrite Hs. done.
      * done.
      * unfold todo, zlen in *. cbn in Ht. lia.
      * exists fs, (part ++ l). split; [|done]. rewrite Hs. apply (holds_push_bytes _ _ _ l) in Hh. exact Hh.
    + assert (Hp : holds_fields (push_field rd (zlen (recordBuffer rd)) fieldPos) (fs ++ [Some part]) [])
        by by apply holds_push_some.
      destruct (LazyQuotes rd), e; (eexists; split; [done|]); cbn;
        (split_and!; [first [apply moved_record | reflexivity]|done|eauto]).
  - pose proof (zlen_nonneg a). replace (0 <=? zlen a) with true by lia.
    rewrite zslice_to by (autorewrite with zlen; pose proof (zlen_nonneg b); lia). go_run.
    rewrite ztake_app_len by done.
    rewrite zfrom_in by (autorewrite with zlen; pose proof (zlen_nonneg b); lia). go_run.
    replace (a ++ 34 :: b) with ((a ++ [34]) ++ b) by list_assoc.
    rewrite zdrop_app_len by (autorewrite with zlen; done).
    replace (a ++ 34 :: b) with ((a ++ [34]) ++ b) in Hb by list_assoc.
    apply Forall_app in Hb as [_ Hb].
    destruct (after_quote_total recLine fieldPos (push_bytes rd a) b e (add_col pos (zlen a + 1)) fs (part ++ a)
      Hc Hb (holds_push_bytes _ _ _ a Hh)) as (n & -> & Hn). exists n. split; [done|].
    destruct n; cbn in *.
    + destruct Hn as (Hm & Hk & Hb' & Ht & Hex).
      split_and!; [etrans; [apply moved_record|exact Hm]|done|done| |done].
      unfold todo in *. cbn in Ht. rewrite !length_app. cbn. lia.
    + destruct Hn as (Hm & Hk & Hex). split_and!; [etrans; [apply moved_record|exact Hm]|done|done].
Qed.

Lemma trim_space_total rd l pos : is_bytes l ->
  exists l' pos', trim_space rd l pos = Ret (l', pos') /\ is_bytes l' /\ (length l' <= length l)%nat.
Proof.
  intros Hb. unfold trim_space. destruct (TrimLeadingSpace rd); [|by exists l, pos].
  pose proof (index_func_range (fun c => negb (IsSpace c)) 0 0 l ltac:(lia)) as [H1 H2].
  fold (IndexFunc l (fun c => negb (IsSpace c))) in H1, H2.
  assert (Hd : forall i p, 0 <= i <= zlen l -> exists l' pos', (l ← zfrom l i; Ret (l, add_col p i)) = Ret (l', pos')
     /\ is_bytes l' /\ (length l' <= length l)%nat).
  { intros i p Hi. rewrite zfrom_in by done. eexists _, _. split; [done|].
    split; [by apply zdrop_bytes|]. rewrite length_zdrop by done. lia. }
  pose proof (zlen_nonneg l). destruct (Z.ltb_spec (IndexFunc l (fun c => negb (IsSpace c))) 0); apply Hd; lia.
Qed.

Lemma unquoted_field_total recLine rd l e pos fs :
  validDelim (Comma rd) = true -> is_bytes l -> holds_fields rd fs [] ->
  exists n, unquoted_field recLine rd l e pos = Ret n /\ turn_ok rd e (todo l rd) n.
Proof.
  intros Hc Hb Hh. unfold unquoted_field. rewrite IndexRune_Index by done.
  pose proof (validDelim_inv _ Hc) as (_ & _ & _ & _ & Hs & _).
  assert (Hlen : 1 <= zlen (encode_scalar (Comma rd))).
  { destruct (encode_scalar_shape _ Hs) as (b & u & -> & _). rewrite zlen_cons. pose proof (zlen_nonneg u). lia. }
  set (i := Index l _). destruct (Index_range l (encode_scalar (Comma rd))) as [H1 H2]. fold i in H1, H2.
  pose proof (lengthNL_range l) as Hnl. pose proof (zlen_nonneg l).
  assert (Hf : exists f, (if 0 <=? i then zslice l 0 i else zslice l 0 (zlen l - lengthNL l)) = Ret f).
  { destruct (Z.leb_spec 0 i); rewrite zslice_to by lia; eauto. }
  destruct Hf as (f & ->). go_run.
  destruct (_ && _); [eexists; split; [done|]; cbn; split_and!; [reflexivity|done|eauto]|].
  set (rd1 := push_field _ _ _).
  assert (Hh1 : exists x, holds_fields rd1 (fs ++ [x]) []).
  { unfold rd1. destruct (Z.eqb_spec (zlen f) 0) as [E|E].
    - exists None. destruct f; [|rewrite zlen_cons in E; pose proof (zlen_nonneg f); lia].
      apply holds_push_null. apply (holds_push_bytes _ _ _ []) in Hh. exact Hh.
    - exists (Some f). apply holds_push_some. apply (holds_push_bytes _ _ _ f) in Hh. exact Hh. }
  destruct Hh1 as (x & Hh1).
  assert (Hm : moved rd rd1) by (unfold rd1; etrans; [apply moved_record|apply moved_record]).
  assert (Hk : keeps rd e rd1 e) by done.
  assert (Hcl : commaLen rd1 = zlen (encode_scalar (Comma rd))) by (unfold commaLen; cbn; by rewrite encode_rune_scalar).
  assert (Hr : r rd1 = r rd) by done. clearbody rd1. rewrite Hcl.
  destruct (Z.leb_spec 0 i) as [Hi|Hi]; [|eexists; split; [done|]; cbn; split_and!; eauto].
  rewrite zfrom_in by lia. go_run. eexists. split; [done|]. cbn.
  split_and!; [done|done|by apply zdrop_bytes| |eauto].
  unfold todo. rewrite Hr, length_zdrop by lia. unfold zlen in *. lia.
Qed.

Lemma parse_step_total recLine q rd l e pos fs part :
  validDelim (Comma rd) = true -> is_bytes l -> is_bytes (rest (r rd)) -> holds_fields rd fs part ->
  (q = None -> part = []) ->
  exists n, parse_step recLine q rd l e pos = Ret n /\ turn_ok rd e (todo l rd) n.
Proof.
  intros Hc Hb Hbr Hh Hq. destruct q as [fp|]; cbn [parse_step].
  { by apply (quoted_field_total _ _ _ _ _ _ fs part). }
  rewrite (Hq eq_refl) in Hh. unfold start_field.
  destruct (trim_space_total rd l pos Hb) as (l1 & pos1 & -> & Hb1 & Hl1). go_run.
  assert (Hu : exists n, unquoted_field recLine rd l1 e pos1 = Ret n /\ turn_ok rd e (todo l rd) n).
  { destruct (unquoted_field_total recLine rd l1 e pos1 fs Hc Hb1 Hh) as (n & E & Hn).
    exists n. split; [done|]. destruct n; cbn in *; [|done].
    destruct Hn as (? & ? & ? & Ht & ?). split_and!; try done. unfold todo in *. lia. }
  destruct l1 as [|b l1]; [done|].
  destruct (Z.eq_dec b 34) as [->|Hne].
  - rewrite zfrom_in by (rewrite zlen_cons; pose proof (zlen_nonneg l1); lia). go_run.
    eexists. split; [done|]. cbn. apply Forall_cons_1 in Hb1 as [_ Hb1].
    split_and!; [reflexivity|done|done| |eexists fs, _; split; [exact Hh|done]].
    unfold todo, zdrop. rewrite length_drop. cbn [length] in Hl1 |- *. lia.
  - clear -Hu Hne. repeat (case_match; try done).
Qed.

Lemma parse_fields_total fuel recLine q rd l e pos fs part :
  validDelim (Comma rd) = true -> is_bytes l -> is_bytes (rest (r rd)) -> holds_fields rd fs part ->
  (q = None -> part = []) -> (todo l rd < fuel)%nat ->
  exists rd' err e', parse_fields fuel recLine q rd l e pos = Ret (rd', err, e') /\
    moved rd rd' /\ keeps rd e rd' e' /\ exists fs part, holds_fields rd' fs part.
Proof.
  revert q rd l e pos fs part. induction fuel as [|fuel IH]; intros q rd l e pos fs part Hc Hb Hbr Hh Hq Hf; [lia|].
  cbn [parse_fields]. destruct (parse_step_total recLine q rd l e pos fs part Hc Hb Hbr Hh Hq) as (n & -> & Hn). go_run.
  destruct n as [q' rd' l' e' pos'|rd' err e']; cbn in Hn; [|by eexists _, _, _].
  destruct Hn as (Hm & Hk & Hb' & Ht & fs' & part' & Hh' & Hq').
  destruct (IH q' rd' l' e' pos' fs' part') as (rd2 & err2 & e2 & E & Hm2 & Hk2 & Hex).
  - destruct Hm as (-> & _). done.
  - done.
  - by eapply moved_bytes.
  - done.
  - done.
  - lia.
  - eexists _, _, _. split; [exact E|]. split_and!; [by etrans| |done].
    destruct Hk as (K1 & K2 & K3), Hk2 as (L1 & L2 & L3). split_and!; [congruence..|auto].
Qed.

(** What every read promises. *)
Definition read_ok (rd : Reader) (x : Reader * list field * option csverr) : Prop :=
  let '(rd', rec, err) := x in
  moved rd rd' /\
  (rec = [] \/ length (fieldPositions rd') = length rec) /\
  (err = None -> (length (rest (r rd')) < length (rest (r rd)))%nat).

Lemma check_count_moved rd recLine n err rd' err' :
  check_count rd recLine n err = (rd', err') ->
  moved rd rd' /\ fieldPositions rd' = fieldPositions rd /\ (err' = None -> err = None) /\ r rd' = r rd.
Proof.
  unfold check_count. repeat case_match; intros [= <- <-]; split_and!; try done; try reflexivity.
  do 6 (split; [done|]). exists []. split; [done|]. by rewrite zlen_nil, Z.add_0_r.
Qed.

Lemma readRecord_total rd dst : is_bytes (rest (r rd)) ->
  exists x, readRecord rd dst = Ret x /\ read_ok rd x.
Proof.
  intros Hb. unfold readRecord. destruct (_ || _) eqn:Hv.
  { eexists. split; [done|]. split_and!; [reflexivity|by left|done]. }
  apply orb_false_elim in Hv as [[_ Hv]%orb_false_elim _]. apply negb_false_iff in Hv.
  destruct (skip_lines_total (S (length (rest (r rd)))) rd Hb ltac:(lia))
    as (l & e & rd1 & -> & Hm & Hbl & He & Hk). go_run.
  assert (Hparse : exists x,
    ('(rd2, perr, errRead) ← parse_fields (S (length l + length (rest (r (set_record rd1 [] [] [])))))
         (numLine rd1) None (set_record rd1 [] [] []) l e (mkPosition (numLine (set_record rd1 [] [] [])) 1);
     dst0 ← cut_fields (recordBuffer rd2) 0 (fieldIndexes rd2);
     let '(rd3, err) := check_count rd2 (numLine rd1) (zlen dst0)
        (match perr with Some e0 => Some (Parse e0) | None => ReadErr <$> errRead end) in
     Ret (rd3, dst0, err)) = Ret x /\ read_ok rd x).
  { destruct (parse_fields_total (S (length l + length (rest (r (set_record rd1 [] [] []))))) (numLine rd1) None
      (set_record rd1 [] [] []) l e (mkPosition (numLine (set_record rd1 [] [] [])) 1) [] [])
      as (rd2 & perr & e2 & E & Hm2 & (_ & _ & Hk2) & fs & part & Hh);
      [destruct Hm as (Ec & _); cbn; by rewrite Ec|done|by eapply moved_bytes|done|done|unfold todo; cbn; lia|].
    rewrite E. go_run. rewrite (cut_fields_holds _ _ _ Hh). go_run.
    destruct (check_count _ _ _ _) as [rd3 err] eqn:Ec. eexists. split; [done|].
    apply check_count_moved in Ec as (Hm3 & Hp & Herr & Hr). cbn.
    assert (Hm12 : moved rd1 rd2) by (etrans; [apply (moved_record rd1 [] [] [])|exact Hm2]).
    split_and!.
    - etrans; [exact Hm|]. by etrans.
    - right. rewrite Hp. apply Hh.
    - intros Hn. apply Herr in Hn. rewrite Hr. pose proof (moved_rest _ _ Hm12).
      destruct perr; [done|]. destruct e2; [done|]. specialize (He (Hk2 eq_refl)). lia. }
  destruct e as [[|x]|]; [|exact Hparse..].
  eexists. split; [done|]. split_and!; [done|by left|done].
Qed.

Lemma read_records_total fuel rd acc : is_bytes (rest (r rd)) -> (length (rest (r rd)) < fuel)%nat ->
  exists rd' recs err, read_records fuel rd acc = Ret (rd', recs, err) /\ moved rd rd'.
Proof.
  revert rd acc. induction fuel as [|fuel IH]; intros rd acc Hb Hf; [lia|]. cbn [read_records].
  destruct (readRecord_total rd [] Hb) as ([[rd1 rec] err] & -> & Hm & _ & He). go_run.
  destruct err as [[[|e]|e|]|]; try by eexists _, _, _.
  destruct (IH rd1 (acc ++ [rec]) (moved_bytes _ _ Hm Hb)) as (rd2 & recs & err & -> & Hm2);
    [specialize (He eq_refl); lia|].
  eexists _, _, _. split; [done|by etrans].
Qed.

(** C17. Whatever the bytes, the settings and the state of the reader, [Read] and [ReadAll] return:
    no slice is out of range and the loops end.  The settings stay, the offset counts the bytes
    read, and every field of the record has a position. *)
Theorem Read_total rd : is_bytes (rest (r rd)) ->
  (exists rd' rec err, Read rd = Ret (rd', rec, err) /\ moved rd rd' /\
     forall i, 0 <= i < zlen rec -> exists p, FieldPos rd' i = Ret p) /\
  (exists rd' recs err, ReadAll rd = Ret (rd', recs, err) /\ moved rd rd').
Proof.
  intros Hb. split; [|apply read_records_total; [done|lia]].
  assert (Hpos : forall rd' (rec : list field), rec = [] \/ length (fieldPositions rd') = length rec ->
    forall i, 0 <= i < zlen rec -> exists p, FieldPos rd' i = Ret p).
  { intros rd' rec [->|Hl] i Hi; [change (zlen (@nil field)) with 0 in Hi; lia|]. unfold FieldPos.
    replace (zlen (fieldPositions rd')) with (zlen rec) by (unfold zlen; by rewrite Hl).
    replace ((i <? 0) || (zlen rec <=? i)) with false by lia.
    destruct (lookup_lt_is_Some_2 (fieldPositions rd') (Z.to_nat i)) as [p Hp]; [unfold zlen in Hi; lia|].
    eexists. assert (E : zget (fieldPositions rd') i = Ret p) by (apply zget_Ret; split; [lia|done]).
    by rewrite E. }
  unfold Read. destruct (ReuseRecord rd).
  - destruct (readRecord_total rd (lastRecord rd) Hb) as ([[rd1 rec] err] & -> & Hm & Hl & _). go_run.
    eexists _, _, _. split; [done|]. split; [exact Hm|]. apply (Hpos (set_last rd1 rec) rec), Hl.
  - destruct (readRecord_total rd [] Hb) as ([[rd1 rec] err] & -> & Hm & Hl & _).
    eexists _, _, _. split; [done|]. split; [done|]. by apply Hpos.
Qed.

Lemma Read_total_witness :
  is_bytes (rest (r (NewReader (mkStream (str "a,,b") EOF)))) /\
  exists rd' recs err, ReadAll (NewReader (mkStream (str "a,,b") EOF)) = Ret (rd', recs, err) /\
    moved (NewReader (mkStream (str "a,,b") EOF)) rd'.
Proof.
  assert (H : is_bytes (rest (r (NewReader (mkStream (str "a,,b") EOF)))))
    by (cbn; repeat constructor; done).
  split; [exact H|]. exact (proj2 (Read_total _ H)).
Defined.

(** ** Documents *)

Section Document.
Context (comma comment : Z) (trim : bool).
Context (Hcomma : validDelim comma = true).

Definition sep : list Z := encode_scalar comma.

(** A quoted string has its quotes doubled. *)
Definition quote_body (s : list Z) : list Z := concat ((fun b => if b =? 34 then [34; 34] else [b]) <$> s).

(** A field that may stand without quotes. *)
Definition plain (s : list Z) : Prop :=
  s <> [] /\ 34 ∉ s /\ 10 ∉ s /\ Index s sep = -1 /\
  (trim = true -> forall x, IsSpace (nextRune (s ++ x)) = false).

Inductive cell : field -> list Z -> Prop :=
| cell_null : cell None []
| cell_plain s : plain s -> cell (Some s) s
| cell_quoted s : cell (Some s) (34 :: quote_body s ++ [34]).

Inductive row : list field -> list Z -> Prop :=
| row_one f t : cell f t -> row [f] t
| row_cons f t fs u : cell f t -> row fs u -> row (f :: fs) (t ++ sep ++ u).

(** The end of a line with the text [t]. *)
Definition line_end (t e : list Z) : Prop := e = [10] /\ last t <> Some 13 \/ e = [13; 10].

(** A line that starts with the text [t] is not a comment. *)
Definition no_comment (t : list Z) : Prop := comment = 0 \/ forall x, nextRune (t ++ x) <> comment.

(** A record, or a blank line or a comment. *)
Inductive entry : list (list field) -> list Z -> Prop :=
| entry_row fs t e : row fs t -> t <> [] -> no_comment t -> line_end t e -> entry [fs] (t ++ e)
| entry_blank e : e = [10] \/ e = [13; 10] -> entry [] e
| entry_comment t : comment <> 0 -> 10 ∉ t -> entry [] (encode_scalar comment ++ t ++ [10]).

(** The last record may stand without an end of line. *)
Inductive document : list (list field) -> list Z -> Prop :=
| doc_nil : document [] []
| doc_last fs t : row fs t -> t <> [] -> no_comment t -> last t <> Some 13 -> document [fs] t
| doc_entry rs t rs' u : entry rs t -> document rs' u -> document (rs ++ rs') (t ++ u).

(** *** The state of the reader inside a document *)

(** [l] is the line at the start of the unread text [p]. *)
Definition at_text (rd : Reader) (l p : list Z) : Prop :=
  (exists f, split_line p = (l, f, rest (r rd))) /\ fin (r rd) = EOF /\ isFirstLine rd = false /\
  Comma rd = comma /\ TrimLeadingSpace rd = trim /\ last p <> Some 13.

(** Runs of the parser that meet no error and end in [Q]. *)
Inductive runs (recLine : Z) (Q : Reader -> Prop) : go next -> Prop :=
| runs_stop rd : Q rd -> runs recLine Q (Ret (Stop rd None None))
| runs_continue q rd l pos :
    runs recLine Q (parse_step recLine q rd l None pos) ->
    runs recLine Q (Ret (Continue q rd l None pos)).

Lemma runs_parse recLine Q fuel q rd l pos res :
  runs recLine Q (parse_step recLine q rd l None pos) ->
  parse_fields fuel recLine q rd l None pos = Ret res -> exists rd', res = (rd', None, None) /\ Q rd'.
Proof.
  revert q rd l pos. induction fuel as [|fuel IH]; intros q rd l pos Hr; [done|]. cbn [parse_fields].
  inversion Hr as [rd1 HQ E|q1 rd1 l1 pos1 Hr1 E]; cbn.
  - intros [= <-]. eauto.
  - by apply IH.
Qed.

Lemma split_line_quote s : split_line (34 :: s) = let '(l, f, t) := split_line s in (34 :: l, f, t).
Proof. done. Qed.

Lemma quote_body_plain s : 34 ∉ s -> quote_body s = s.
Proof.
  induction s as [|b s IH]; [done|]. intros [H1 H2]%not_elem_of_cons. unfold quote_body in *. cbn.
  replace (b =? 34) with false by lia. cbn. by rewrite IH.
Qed.

Lemma quote_body_app s t : quote_body (s ++ t) = quote_body s ++ quote_body t.
Proof. unfold quote_body. by rewrite fmap_app, concat_app. Qed.

(** A string up to its first quote or newline. *)
Lemma first_special s :
  34 ∉ s /\ 10 ∉ s \/
  exists a b s1, s = a ++ b :: s1 /\ 34 ∉ a /\ 10 ∉ a /\ (b = 34 \/ b = 10).
Proof.
  induction s as [|x s IH]; [left; split; apply not_elem_of_nil|].
  destruct (decide (x = 34 \/ x = 10)) as [Hx|Hx].
  { right. exists [], x, s. split_and!; [done|apply not_elem_of_nil..|done]. }
  destruct IH as [[H1 H2]|(a & b & s1 & -> & H1 & H2 & Hb)].
  - left. rewrite !not_elem_of_cons. split; (split; [lia|done]).
  - right. exists (x :: a), b, s1. rewrite !not_elem_of_cons. split_and!; (done || lia).
Qed.

Lemma last_app_not (a b : list Z) x : last (a ++ b) <> Some x -> last b <> Some x.
Proof. rewrite last_app. by destruct (last b). Qed.

Lemma at_text_push_bytes rd l p b : at_text rd l p -> at_text (push_bytes rd b) l p.
Proof. done. Qed.
Lemma at_text_push_field rd l p i q : at_text rd l p -> at_text (push_field rd i q) l p.
Proof. done. Qed.

(** Moving over a part without a newline. *)
Lemma at_text_app rd l a p : 10 ∉ a -> at_text rd l (a ++ p) -> exists l', l = a ++ l' /\ at_text rd l' p.
Proof.
  intros Ha [[f E] (H1 & H2 & H3 & H4 & H5)]. rewrite split_line_app in E by done.
  destruct (split_line p) as [[l' f'] t] eqn:Ep. injection E as <- <- ->.
  exists l'. split; [done|]. split_and!; [by exists f'|done..|by eapply last_app_not].
Qed.

(** The unread text is [p], after a mark at the start of the file or not. *)
Definition unread (rd : Reader) (p : list Z) : Prop :=
  fin (r rd) = EOF /\ Comma rd = comma /\ TrimLeadingSpace rd = trim /\
  (isFirstLine rd = false /\ rest (r rd) = p \/
   isFirstLine rd = true /\ (rest (r rd) = bom ++ p \/ rest (r rd) = p /\ prefixb bom p = false)).

Lemma chomp_cr_id l : last l <> Some 13 -> chomp_cr l = l.
Proof.
  intros Hl. unfold chomp_cr. rewrite <- head_reverse in Hl.
  destruct (reverse l) as [|x q]; [done|]. cbn in Hl. repeat (case_match; try done).
Qed.

(** The unread text with what stands before it. *)
Lemma unread_split rd p l f t : unread rd p -> split_line p = (l, f, t) ->
  exists pre, rest (r rd) = pre ++ p /\ 10 ∉ pre /\ drop_bom (isFirstLine rd) (pre ++ l) = l.
Proof.
  intros (_ & _ & _ & H) Es. apply split_line_spec in Es as [Ep _].
  destruct H as [[Hi Hr]|[Hi [Hr|[Hr Hb]]]]; rewrite Hi.
  - exists []. split_and!; [done|apply not_elem_of_nil|done].
  - exists bom. split_and!; [done|unfold bom; not_in|done].
  - exists []. split_and!; [done|apply not_elem_of_nil|]. unfold drop_bom. cbn [andb app].
    destruct (prefixb bom l) eqn:E; [|done]. apply prefixb_true in E as (v & ->).
    by rewrite Ep, <- app_assoc, prefixb_app in Hb.
Qed.

(** The next line of the text. *)
Lemma readLine_at rd p : unread rd p -> p <> [] -> last p <> Some 13 ->
  exists l rd', readLine rd = Ret (l, None, rd') /\ at_text rd' l p /\
    exists s n off, rd' = set_lines rd s n off false.
Proof.
  intros Hu Hp Hl. pose proof (readLine_eq rd) as E. destruct (split_line p) as [[l f] t] eqn:Es.
  destruct (unread_split _ _ _ _ _ Hu Es) as (pre & Hr & H10 & Hd). destruct Hu as (Hf & Hc & Ht & _).
  rewrite Hr, split_line_app, Es, Hf in E by done. pose proof Es as Es'. apply split_line_spec in Es' as [Ep Hft].
  assert (Hz : f = false -> (0 <? zlen (pre ++ l)) = true /\ chomp_cr (pre ++ l) = pre ++ l).
  { intros ->. destruct Hft as [-> _]. rewrite app_nil_r in Ep. subst l.
    destruct p as [|b p]; [done|]. split.
    - rewrite zlen_app, zlen_cons. pose proof (zlen_nonneg pre). pose proof (zlen_nonneg p). lia.
    - apply chomp_cr_id. rewrite last_app. by destruct (last (b :: p)) eqn:El; [|apply last_None in El]. }
  exists l. eexists. split.
  - rewrite E. f_equal. destruct f; cbn [negb andb orb]; [by rewrite Hd|].
    destruct (Hz eq_refl) as [-> ->]. by rewrite Hd.
  - split; [|by eexists _, _, _]. split_and!; try done. by exists f.
Qed.

Lemma quoted_field_quote recLine fp rd a l e pos : 34 ∉ a ->
  quoted_field recLine fp rd (a ++ 34 :: l) e pos =
  after_quote recLine fp (push_bytes rd a) l e (add_col pos (zlen a + 1)).
Proof.
  intros Ha. unfold quoted_field. rewrite IndexByte_app by done.
  pose proof (zlen_nonneg a). pose proof (zlen_nonneg l). replace (0 <=? zlen a) with true by lia.
  rewrite zslice_to, ztake_app_len by (autorewrite with zlen; lia). go_run.
  rewrite zfrom_in by (autorewrite with zlen; lia). go_run.
  replace (a ++ 34 :: l) with ((a ++ [34]) ++ l) by list_assoc.
  by rewrite zdrop_app_len by (autorewrite with zlen; done).
Qed.

Lemma quoted_field_line recLine fp rd a pos : 34 ∉ a ++ [10] ->
  quoted_field recLine fp rd (a ++ [10]) None pos =
  ('(l, e, rd) ← readLine (push_bytes rd (a ++ [10]));
   let pos := add_col pos (zlen (a ++ [10])) in
   Ret (Continue (Some fp) rd l (match e with Some EOF => None | _ => e end)
          (if 0 <? zlen l then mkPosition (line pos + 1) 1 else pos))).
Proof.
  intros Ha%IndexByte_none. unfold quoted_field. rewrite Ha. cbn [Z.leb Z.compare].
  by replace (0 <? zlen (a ++ [10])) with true by (rewrite zlen_snoc; pose proof (zlen_nonneg a); lia).
Qed.

Lemma quoted_runs recLine Q fp s : forall rd l pos fs part tail,
  at_text rd l (quote_body s ++ 34 :: tail) -> holds_fields rd fs part ->
  (forall rd' l' pos', at_text rd' l' tail -> holds_fields rd' fs (part ++ s) ->
     runs recLine Q (after_quote recLine fp rd' l' None pos')) ->
  runs recLine Q (quoted_field recLine fp rd l None pos).
Proof.
  induction s as [s IH] using (induction_ltof1 _ (@length Z)). unfold ltof in IH.
  intros rd l pos fs part tail Hat Hh HQ.
  destruct (first_special s) as [[H34 H10]|(a & b & s1 & -> & H34 & H10 & Hb)].
  - rewrite quote_body_plain in Hat by done.
    destruct (at_text_app _ _ _ _ H10 Hat) as (l1 & -> & Hat1).
    destruct (at_text_app rd l1 [34] tail) as (l2 & -> & Hat2); [not_in|done|].
    change ([34] ++ l2) with (34 :: l2). rewrite quoted_field_quote by done. apply HQ; [exact Hat2|by apply holds_push_bytes].
  - rewrite quote_body_app, quote_body_plain in Hat by done.
    rewrite <- app_assoc in Hat. destruct (at_text_app _ _ _ _ H10 Hat) as (l1 & -> & Hat1).
    assert (Hlen : (length s1 < length (a ++ b :: s1))%nat) by (rewrite length_app; cbn; lia).
    destruct Hb as [-> | ->].
    + change (quote_body (34 :: s1)) with ([34; 34] ++ quote_body s1) in Hat1.
      rewrite <- app_assoc in Hat1.
      destruct (at_text_app _ _ [34; 34] _ ltac:(not_in) Hat1) as (l2 & -> & Hat2).
      change ([34; 34] ++ l2) with (34 :: 34 :: l2). rewrite quoted_field_quote by done.
      unfold after_quote. change (nextRune (34 :: l2)) with 34. rewrite Z.eqb_refl.
      rewrite (zfrom_in (34 :: l2) 1) by (rewrite zlen_cons; pose proof (zlen_nonneg l2); lia). go_run.
      apply runs_continue. cbn [parse_step].
      apply (IH s1 Hlen _ _ _ fs ((part ++ a) ++ [34]) tail); [exact Hat2|by do 2 apply holds_push_bytes|].
      intros rd' l' pos' Ha Hf. apply HQ; [done|]. by replace (part ++ a ++ 34 :: s1) with (((part ++ a) ++ [34]) ++ s1) by list_assoc.
    + change (quote_body (10 :: s1)) with ([10] ++ quote_body s1) in Hat1. rewrite <- app_assoc in Hat1.
      destruct Hat1 as [[f E] (Hf & Hi & Hc & Ht & Hl)]. change (split_line ([10] ++ ?x)) with ([10], true, x) in E.
      injection E as <- <- Er. apply last_app_not in Hl.
      rewrite quoted_field_line by not_in.
      destruct (readLine_at (push_bytes rd (a ++ [10])) (quote_body s1 ++ 34 :: tail))
        as (l2 & rd2 & -> & Hat2 & s2 & n2 & off2 & ->); [split_and!; auto|by destruct (quote_body s1)|done|].
      go_run. apply runs_continue. cbn [parse_step].
      apply (IH s1 Hlen _ _ _ fs (part ++ a ++ [10]) tail); [exact Hat2|by apply (holds_push_bytes _ _ _ (a ++ [10])) in Hh|].
      intros rd' l' pos' Ha Hh'. apply HQ; [done|]. by replace (part ++ a ++ 10 :: s1) with ((part ++ a ++ [10]) ++ s1) by list_assoc.
Qed.

(** *** Fields *)

Context (Hspace : trim = true -> IsSpace comma = false).

Lemma sep_scalar : is_scalar comma = true.
Proof. by destruct (validDelim_inv _ Hcomma) as (_ & _ & _ & _ & ? & _). Qed.

Lemma sep_bytes : 10 ∉ sep /\ 13 ∉ sep.
Proof.
  pose proof (validDelim_inv _ Hcomma) as (_ & _ & H13 & H10 & Hs & _).
  unfold sep, encode_scalar, is_scalar, MaxRune in *.
  repeat case_match; rewrite ?not_elem_of_cons; split_and!; try apply not_elem_of_nil; div_lia.
Qed.

Lemma nextRune_sep x : nextRune (sep ++ x) = comma.
Proof. unfold nextRune, sep. by rewrite decode_encode by apply sep_scalar. Qed.

Lemma zlen_sep : 1 <= zlen sep.
Proof.
  unfold sep. destruct (encode_scalar_shape _ sep_scalar) as (b & u & -> & _). rewrite zlen_cons.
  pose proof (zlen_nonneg u). lia.
Qed.

Lemma csv_sep_cons : exists b u, sep = b :: u.
Proof. unfold sep. destruct (encode_scalar_shape _ sep_scalar) as (b & u & -> & _). eauto. Qed.

(** Bytes that are not in a separator do not complete one. *)
Lemma Index_tail s e : Index s sep = -1 -> (forall x, x ∈ e -> x ∉ sep) -> Index (s ++ e) sep = -1.
Proof.
  intros Hs He. induction s as [|x s IH].
  - change ([] ++ e) with e. induction e as [|y e IH]; [done|]. rewrite Index_cons.
    + rewrite IH; [done|]. intros z Hz. apply He. by right.
    + destruct (prefixb sep (y :: e)) eqn:E; [|done].
      apply prefixb_true in E as (t & E). exfalso. destruct csv_sep_cons as (b & u & Es). rewrite Es in *.
      injection E as -> _. apply (He b); left.
  - apply Index_neg_cons in Hs as [Hp Hs]. rewrite <- app_comm_cons, Index_cons; [by rewrite IH|].
    destruct (prefixb sep (x :: s ++ e)) eqn:E; [|done]. exfalso.
    apply prefixb_true in E as (t & E). rewrite app_comm_cons in E.
    apply app_eq_app in E as (k & [[E1 E2]|[E1 E2]]).
    + by rewrite E1, prefixb_app in Hp.
    + destruct k as [|y k].
      { pose proof (prefixb_app sep []) as Hp'. rewrite app_nil_r in E1, Hp'. congruence. }
      apply (He y); [rewrite E2; left|]. rewrite E1. apply elem_of_app. right. left.
Qed.

Lemma trim_space_id rd l pos : TrimLeadingSpace rd = trim ->
  (trim = true -> IsSpace (nextRune l) = false) -> exists pos', trim_space rd l pos = Ret (l, pos').
Proof.
  intros Ht Hn. unfold trim_space. rewrite Ht. destruct trim; [|by eexists]. specialize (Hn eq_refl).
  destruct l as [|b l]; [by eexists|].
  assert (E : IndexFunc (b :: l) (fun c => negb (IsSpace c)) = 0).
  { unfold IndexFunc, nextRune in *. cbn [index_func]. destruct (decode_rune (b :: l)) as [c n].
    cbn in Hn. by rewrite Hn. }
  rewrite E. cbn [Z.ltb Z.compare]. rewrite zfrom_in by (pose proof (zlen_nonneg (b :: l)); lia). by eexists.
Qed.

Lemma start_unquoted recLine rd l pos : TrimLeadingSpace rd = trim ->
  (trim = true -> IsSpace (nextRune l) = false) -> head l <> Some 34 ->
  exists pos', start_field recLine rd l None pos = unquoted_field recLine rd l None pos'.
Proof.
  intros Ht Hn Hl. unfold start_field. destruct (trim_space_id rd l pos Ht Hn) as (pos' & ->). go_run.
  exists pos'. destruct l as [|b l]; [done|]. cbn in Hl. by repeat (case_match; try done).
Qed.

Definition plain_field (s : list Z) : field := match s with [] => None | _ => Some s end.

(** The reader after the unquoted field [s]. *)
Lemma holds_unquoted rd fs s p : holds_fields rd fs [] ->
  holds_fields (push_field (push_bytes rd s) (if zlen s =? 0 then -1 else zlen (recordBuffer (push_bytes rd s))) p)
    (fs ++ [plain_field s]) [].
Proof.
  intros Hh. apply (holds_push_bytes _ _ _ s) in Hh. destruct s as [|b s].
  - apply holds_push_null. exact Hh.
  - replace (zlen (b :: s) =? 0) with false by (rewrite zlen_cons; pose proof (zlen_nonneg s); lia).
    apply holds_push_some. exact Hh.
Qed.

Lemma unquoted_mid recLine rd s l pos : Comma rd = comma -> Index s sep = -1 -> 34 ∉ s ->
  exists pos' i q, unquoted_field recLine rd (s ++ sep ++ l) None pos =
    Ret (Continue None (push_field (push_bytes rd s) i q) l None pos') /\
    i = if zlen s =? 0 then -1 else zlen (recordBuffer (push_bytes rd s)).
Proof.
  intros Hc Hi H34. unfold unquoted_field. rewrite Hc, IndexRune_Index by done. fold sep.
  pose proof (Index_encode_app comma s l sep_scalar Hi) as E. fold sep in E. rewrite E.
  pose proof (zlen_nonneg s). pose proof (zlen_nonneg l). pose proof zlen_sep.
  replace (0 <=? zlen s) with true by lia. rewrite zslice_to by (autorewrite with zlen; lia). go_run.
  rewrite ztake_app_len by done. apply IndexByte_none in H34. rewrite H34.
  replace (negb (LazyQuotes rd) && (0 <=? -1)) with false by (by rewrite andb_comm).
  assert (Hcl : forall rd', Comma rd' = comma -> commaLen rd' = zlen sep).
  { intros rd' E'. unfold commaLen. by rewrite E', encode_rune_scalar by apply sep_scalar. }
  rewrite Hcl by done. rewrite zfrom_in by (autorewrite with zlen; lia). go_run.
  rewrite app_assoc, zdrop_app_len by (by rewrite zlen_app). eauto.
Qed.

Lemma unquoted_last recLine rd s e pos : Comma rd = comma -> Index (s ++ e) sep = -1 -> 34 ∉ s ->
  lengthNL (s ++ e) = zlen e ->
  exists i q, unquoted_field recLine rd (s ++ e) None pos = Ret (Stop (push_field (push_bytes rd s) i q) None None) /\
    i = if zlen s =? 0 then -1 else zlen (recordBuffer (push_bytes rd s)).
Proof.
  intros Hc Hi H34 Hnl. unfold unquoted_field. rewrite Hc, IndexRune_Index by done. fold sep. rewrite Hi.
  pose proof (zlen_nonneg s). pose proof (zlen_nonneg e). cbn [Z.leb Z.compare].
  rewrite Hnl, zslice_to by (autorewrite with zlen; lia). go_run.
  rewrite ztake_app_len by (autorewrite with zlen; lia). apply IndexByte_none in H34. rewrite H34.
  replace (negb (LazyQuotes rd) && (0 <=? -1)) with false by (by rewrite andb_comm). eauto.
Qed.

(** The end of a record before the text [u]. *)
Definition eol (e u : list Z) : Prop := e = [10] \/ e = [13; 10] \/ e = [] /\ u = [].

Lemma at_eol rd l e u : eol e u -> at_text rd l (e ++ u) -> l = e /\ rest (r rd) = u.
Proof.
  intros He [[f E] _]. destruct He as [-> | [-> | [-> ->]]]; cbn in E; by injection E as <- _ <-.
Qed.

Lemma eol_sep e u : eol e u -> forall x, x ∈ e -> x ∉ sep.
Proof.
  pose proof sep_bytes as [H10 H13]. intros [-> | [-> | [-> _]]] x;
    rewrite ?elem_of_cons, elem_of_nil; naive_solver.
Qed.

Lemma lengthNL_app s e u : eol e u -> 10 ∉ s -> (e = [10] -> last s <> Some 13) ->
  lengthNL (s ++ e) = zlen e.
Proof.
  intros He H10 H13. unfold lengthNL. rewrite reverse_app.
  destruct He as [-> | [-> | [-> _]]]; [| done |].
  - specialize (H13 eq_refl). rewrite <- head_reverse in H13. cbn.
    destruct (reverse s) as [|x t]; [done|]. cbn in H13. by repeat (case_match; try done).
  - rewrite <- elem_of_reverse in H10. cbn. destruct (reverse s) as [|x t]; [done|].
    apply not_elem_of_cons in H10 as [H10 _]. by repeat (case_match; try done).
Qed.

Lemma start_quoted recLine Q s tail rd l pos fs :
  at_text rd l ((34 :: quote_body s ++ [34]) ++ tail) -> holds_fields rd fs [] ->
  (forall fp rd' l' pos', at_text rd' l' tail -> holds_fields rd' fs s ->
     runs recLine Q (after_quote recLine fp rd' l' None pos')) ->
  runs recLine Q (start_field recLine rd l None pos).
Proof.
  intros Hat Hh HQ. assert (Ht : TrimLeadingSpace rd = trim) by apply Hat.
  replace ((34 :: quote_body s ++ [34]) ++ tail) with ([34] ++ quote_body s ++ 34 :: tail) in Hat by list_assoc.
  destruct (at_text_app _ _ [34] _ ltac:(not_in) Hat) as (l1 & -> & Hat1). unfold start_field.
  destruct (trim_space_id rd ([34] ++ l1) pos Ht) as (pos1 & ->); [done|]. go_run. cbn [app].
  rewrite (zfrom_in (34 :: l1) 1) by (rewrite zlen_cons; pose proof (zlen_nonneg l1); lia). go_run.
  apply runs_continue. cbn [parse_step]. eapply quoted_runs; [exact Hat1|exact Hh|]. by apply HQ.
Qed.

Lemma cell_mid recLine Q f t u rd l pos fs :
  cell f t -> at_text rd l (t ++ sep ++ u) -> holds_fields rd fs [] ->
  (forall rd' l' pos', at_text rd' l' u -> holds_fields rd' (fs ++ [f]) [] ->
     runs recLine Q (start_field recLine rd' l' None pos')) ->
  runs recLine Q (start_field recLine rd l None pos).
Proof.
  intros Hcell Hat Hh HQ. pose proof sep_bytes as [Hs10 _].
  pose proof (proj1 (proj2 (proj2 (proj2 Hat)))) as Hc.
  pose proof (proj1 (proj2 (proj2 (proj2 (proj2 Hat))))) as Ht.
  assert (Hun : forall s, 34 ∉ s -> 10 ∉ s -> Index s sep = -1 ->
     (trim = true -> forall x, IsSpace (nextRune (s ++ sep ++ x)) = false) ->
     at_text rd l (s ++ sep ++ u) -> plain_field s = f ->
     runs recLine Q (start_field recLine rd l None pos)).
  { intros s H34 H10 Hi Hsp Hat' <-. destruct (at_text_app _ _ _ _ H10 Hat') as (l1 & -> & Hat1).
    destruct (at_text_app _ _ _ _ Hs10 Hat1) as (l2 & -> & Hat2).
    destruct (start_unquoted recLine rd (s ++ sep ++ l2) pos Ht) as (pos1 & ->); [by intros; apply Hsp| |].
    { destruct s; [|by intros [= ->]; apply H34; left]. cbn. intros E.
      pose proof (nextRune_sep l2) as En. destruct csv_sep_cons as (b & v & Es). rewrite Es in *. cbn in E.
      injection E as ->. cbn in En. by rewrite <- En in Hcomma. }
    destruct (unquoted_mid recLine rd s l2 pos1 Hc Hi H34) as (pos2 & i & q & -> & ->).
    apply runs_continue. cbn [parse_step]. apply HQ; [exact Hat2|by apply holds_unquoted]. }
  destruct Hcell as [|s (Hne & H34 & H10 & Hi & Hsp)|s].
  - apply (Hun []); try done; [apply not_elem_of_nil..| |].
    + by destruct csv_sep_cons as (b & v & ->).
    + intros Htr x. cbn. rewrite nextRune_sep. by apply Hspace.
  - apply (Hun s); try done; [by intros Htr x; apply Hsp|by destruct s].
  - eapply start_quoted; [exact Hat|exact Hh|].
    intros fp rd' l' pos' Ha Hh'. destruct (at_text_app _ _ _ _ Hs10 Ha) as (l2 & -> & Ha2).
    assert (Hc' : Comma rd' = comma) by apply Ha. unfold after_quote. rewrite nextRune_sep, Hc'.
    pose proof (validDelim_inv _ Hcomma) as (_ & H34 & _). replace (comma =? 34) with false by lia.
    rewrite Z.eqb_refl. assert (Hcl : commaLen rd' = zlen sep)
      by (unfold commaLen; by rewrite Hc', encode_rune_scalar by apply sep_scalar).
    rewrite Hcl, zfrom_in, zdrop_app_len by (autorewrite with zlen; pose proof (zlen_nonneg l2); pose proof zlen_sep; lia).
    go_run. apply runs_continue. cbn [parse_step]. apply HQ; [exact Ha2|]. by apply (holds_push_some _ _ _ fp) in Hh'.
Qed.

Lemma nextRune_eol e u : eol e u -> nextRune e <> 34 /\ nextRune e <> comma.
Proof.
  pose proof (validDelim_inv _ Hcomma) as (_ & _ & H13 & H10 & _ & He).
  intros [-> | [-> | [-> _]]]; cbn; unfold RuneError in *; split; lia.
Qed.

(** What a record leaves behind. *)
Definition done_with (u : list Z) (fs : list field) (rd : Reader) : Prop :=
  holds_fields rd fs [] /\ rest (r rd) = u /\ isFirstLine rd = false.

Lemma cell_last recLine f t e u rd l pos fs :
  cell f t -> eol e u -> (e = [10] -> last t <> Some 13) ->
  at_text rd l (t ++ e ++ u) -> holds_fields rd fs [] ->
  runs recLine (done_with u (fs ++ [f])) (start_field recLine rd l None pos).
Proof.
  intros Hcell He H13 Hat Hh. assert (Hc : Comma rd = comma) by apply Hat.
  assert (Ht : TrimLeadingSpace rd = trim) by apply Hat.
  assert (Hun : forall s pos, 34 ∉ s -> 10 ∉ s -> Index s sep = -1 -> (e = [10] -> last s <> Some 13) ->
     at_text rd l (s ++ e ++ u) -> plain_field s = f -> l = s ++ e /\
     runs recLine (done_with u (fs ++ [f])) (unquoted_field recLine rd (s ++ e) None pos)).
  { intros s pos1 H34 H10 Hi Hl Hat' <-. destruct (at_text_app _ _ _ _ H10 Hat') as (l1 & -> & Hat1).
    destruct (at_eol _ _ _ _ He Hat1) as [-> Hr]. split; [done|].
    destruct (unquoted_last recLine rd s e pos1 Hc) as (i & q & -> & ->); [|done|by eapply lengthNL_app|].
    { apply Index_tail; [done|]. by eapply eol_sep. }
    apply runs_stop. split_and!; [by apply holds_unquoted|done|apply Hat1]. }
  destruct Hcell as [|s (Hne & H34 & H10 & Hi & Hsp)|s].
  - assert (Hnil : Index [] sep = -1) by by destruct csv_sep_cons as (b & v & ->).
    destruct (Hun [] pos) as [-> _]; try done; [apply not_elem_of_nil..|]. cbn [app] in *.
    unfold start_field, trim_space. rewrite Ht. destruct trim.
    + assert (Hsp : forall p, exists p', (let '(i, q) := if IndexFunc e (fun c => negb (IsSpace c)) <? 0
         then (zlen e, add_col p (- lengthNL e)) else (IndexFunc e (fun c => negb (IsSpace c)), p) in
         l ← zfrom e i; Ret (l, add_col q i)) = Ret ([], p'))
        by (intros p; destruct He as [-> | [-> | [-> _]]]; by eexists).
      destruct (Hsp pos) as (p' & ->). go_run.
      destruct (unquoted_last recLine rd [] [] p' Hc) as (i & q & E & ->); [done|apply not_elem_of_nil|done|].
      cbn [app] in E. rewrite E. apply runs_stop.
      destruct (at_eol _ _ _ _ He Hat) as [_ Hr]. split_and!; [by apply holds_unquoted|done|apply Hat].
    + go_run. destruct (Hun [] pos) as [_ Hr]; try done; [apply not_elem_of_nil..|].
      by destruct He as [-> | [-> | [-> _]]].
  - destruct (Hun s pos) as [-> _]; try done; [by destruct s|].
    destruct (start_unquoted recLine rd (s ++ e) pos Ht) as (pos1 & ->); [by intros; apply Hsp| |].
    { destruct s; [done|]. intros [= ->]. apply H34. left. }
    destruct (Hun s pos1) as [_ Hr]; try done. by destruct s.
  - eapply start_quoted; [exact Hat|exact Hh|].
    intros fp rd' l' pos' Ha Hh'. destruct (at_eol _ _ _ _ He Ha) as [-> Hr].
    assert (Hc' : Comma rd' = comma) by apply Ha. unfold after_quote. rewrite Hc'.
    destruct (nextRune_eol _ _ He) as [N1 N2].
    replace (nextRune e =? 34) with false by lia. replace (nextRune e =? comma) with false by lia.
    replace (lengthNL e =? zlen e) with true by (by destruct He as [-> | [-> | [-> _]]]).
    apply runs_stop. split_and!; [by apply (holds_push_some _ _ _ fp) in Hh'|done|apply Ha].
Qed.

Lemma row_runs recLine fs t : row fs t -> forall e u rd l pos fs0,
  eol e u -> (e = [10] -> last t <> Some 13) -> at_text rd l (t ++ e ++ u) -> holds_fields rd fs0 [] ->
  runs recLine (done_with u (fs0 ++ fs)) (start_field recLine rd l None pos).
Proof.
  induction 1 as [f t Hcell|f t fs w Hcell Hrow IH]; intros e u rd l pos fs0 He H13 Hat Hh.
  - by eapply cell_last.
  - rewrite <- !app_assoc in Hat. eapply cell_mid; [exact Hcell|exact Hat|exact Hh|].
    intros rd' l' pos' Ha Hh'. replace (fs0 ++ f :: fs) with ((fs0 ++ [f]) ++ fs) by list_assoc.
    apply (IH e); [done| |done|done]. intros E. specialize (H13 E). by do 2 apply last_app_not in H13.
Qed.

Lemma row_nonempty fs t : row fs t -> 0 < zlen fs.
Proof. destruct 1; rewrite zlen_cons; pose proof (zlen_nonneg (@nil field)); [lia|]. pose proof (zlen_nonneg fs). lia. Qed.

(** *** Records *)

Context (Hcomment : comment = 0 \/ validDelim comment = true) (Hdiff : comma <> comment).

(** A row does not start like a blank line. *)
Lemma row_head fs t : row fs t ->
  t = [] \/ exists b t', t = b :: t' /\ b <> 10 /\ (b = 13 -> head t' <> Some 10).
Proof.
  assert (Hsep : forall w, exists b t', sep ++ w = b :: t' /\ b <> 10 /\ (b = 13 -> head t' <> Some 10)).
  { intros w. pose proof sep_bytes as [H10 H13]. destruct csv_sep_cons as (b & v & Es). rewrite Es in *.
    rewrite not_elem_of_cons in H10, H13. exists b, (v ++ w). split_and!; [done|naive_solver..]. }
  assert (Hpl : forall s w, plain s -> head w <> Some 10 ->
    exists b t', s ++ w = b :: t' /\ b <> 10 /\ (b = 13 -> head t' <> Some 10)).
  { intros [|b s] w (Hne & _ & H10 & _) Hw; [done|]. rewrite not_elem_of_cons in H10.
    exists b, (s ++ w). split_and!; [done|naive_solver|]. intros _. destruct s as [|c s]; [done|].
    rewrite not_elem_of_cons in H10. cbn. naive_solver. }
  destruct 1 as [f t [|s Hs|s]|f t fs u [|s Hs|s] Hrow].
  - by left.
  - right. destruct (Hpl s [] Hs ltac:(done)) as (b & t' & E & H). rewrite app_nil_r in E. eauto.
  - right. by exists 34, (quote_body s ++ [34]).
  - right. apply (Hsep u).
  - right. apply Hpl; [done|]. pose proof sep_bytes as [H10 _]. destruct csv_sep_cons as (b & v & Es). rewrite Es in *.
    rewrite not_elem_of_cons in H10. cbn. naive_solver.
  - right. eexists 34, _. split; [done|]. split; [done|]. done.
Qed.

Lemma blank_line l : zlen l = lengthNL l -> l = [] \/ l = [10] \/ l = [13; 10].
Proof.
  unfold lengthNL. rewrite <- (reverse_involutive l) at 1 3 4 5. generalize (reverse l) as q. intros q.
  unfold zlen. rewrite length_reverse.
  destruct q as [|x [|y [|z q]]]; cbn [length]; intros Hl; [by left|right; left|right; right|exfalso];
    repeat case_match; simplify_eq; try done; lia.
Qed.

(** The first line of a record is neither blank nor a comment. *)
Lemma record_line fs t e u rd l :
  row fs t -> t <> [] -> no_comment t -> eol e u -> (e = [10] -> last t <> Some 13) ->
  is_bytes l -> at_text rd l (t ++ e ++ u) ->
  negb (comment =? 0) && (nextRune l =? comment) = false /\ (zlen l =? lengthNL l) = false.
Proof.
  intros Hrow Hne Hnc He H13 Hb [[f Es] _]. apply split_line_spec in Es as [E Hf]. split.
  - destruct Hnc as [->|Hnc]; [done|]. destruct Hcomment as [->|Hv]; [done|].
    apply andb_false_iff. right. apply Z.eqb_neq. intros Hn.
    pose proof (validDelim_inv _ Hv) as (_ & _ & _ & _ & Hs & Her). unfold nextRune in Hn.
    destruct (decode_rune l) as [c n] eqn:Ed. cbn in Hn. subst c.
    destruct (decode_inv _ _ _ Hb Ed Her) as (w & -> & _).
    apply (Hnc (e ++ u)). unfold nextRune. rewrite E, <- app_assoc. by rewrite decode_encode.
  - apply Z.eqb_neq. intros Hl. destruct (row_head _ _ Hrow) as [->|(b & t' & -> & Hb10 & Hb13)]; [done|].
    pose proof (blank_line l Hl) as Hbl.
    destruct Hbl as [-> | [-> | ->]].
    + destruct f; [destruct Hf as (a & Ha & _); by destruct a|]. by destruct Hf as [E0 _]; rewrite E0 in E.
    + by injection E as -> _.
    + injection E as -> E. specialize (Hb13 eq_refl). destruct t' as [|c t']; [|by injection E as -> _].
      destruct He as [-> | [-> | [-> ->]]]; [by apply H13|done|done].
Qed.

Lemma entry_last rs t : entry rs t -> last t = Some 10.
Proof.
  destruct 1 as [fs t e _ _ _ [[-> _]| ->]|e [-> | ->]|t _ _]; rewrite ?last_app; try done.
Qed.

Lemma document_last rs p : document rs p -> last p <> Some 13.
Proof.
  induction 1 as [|fs t Hrow Hne _ H|rs t rs' u Hent Hdoc IH]; [done|done|].
  rewrite last_app. destruct (last u) eqn:E; [done|]. by rewrite (entry_last _ _ Hent).
Qed.

(** Blank lines and comments are passed over, up to the line of the next record. *)
Definition next_record (rd : Reader) (rs : list (list field)) (x : go (list Z * option ioerr * Reader)) : Prop :=
  match rs with
  | [] => exists rd', x = Ret ([], Some EOF, rd')
  | fs :: rs' => exists t e u l rd', x = Ret (l, None, rd') /\ row fs t /\ eol e u /\
      (e = [10] -> last t <> Some 13) /\ document rs' u /\ at_text rd' l (t ++ e ++ u) /\
      FieldsPerRecord rd' = FieldsPerRecord rd /\ Comment rd' = Comment rd
  end.

Lemma skip_to_record fuel rd fs rs' t e u : unread rd (t ++ e ++ u) -> Comment rd = comment ->
  row fs t -> t <> [] -> no_comment t -> eol e u -> (e = [10] -> last t <> Some 13) -> document rs' u ->
  last (t ++ e ++ u) <> Some 13 -> is_bytes (rest (r rd)) ->
  next_record rd (fs :: rs') (skip_lines (S fuel) rd).
Proof.
  intros Hu Hc Hrow Hne Hnc He H13 Hd Hl Hb. cbn [skip_lines].
  destruct (readLine_total rd Hb) as (l & e0 & rd0 & E0 & _ & Hbl & _).
  destruct (readLine_at rd (t ++ e ++ u) Hu) as (l1 & rd1 & E & Hat & s & n & off & Hs);
    [by destruct t|done|]. rewrite E in E0. injection E0 as <- <- <-. rewrite E. go_run.
  destruct (record_line fs t e u rd1 l1 Hrow Hne Hnc He H13 Hbl Hat) as [H1 H2].
  assert (Hc1 : Comment rd1 = comment) by by rewrite Hs. rewrite Hc1, H1, H2.
  exists t, e, u, l1, rd1. split_and!; try done; by rewrite Hs.
Qed.

Lemma skip_line fuel rd rs' t u l1 : unread rd (t ++ u) -> Comment rd = comment -> is_bytes (rest (r rd)) ->
  t = l1 ++ [10] -> 10 ∉ l1 -> last (t ++ u) <> Some 13 ->
  (comment <> 0 /\ nextRune t = comment \/ t = [10] \/ t = [13; 10]) ->
  (forall rd', unread rd' u -> Comment rd' = comment -> is_bytes (rest (r rd')) ->
     (length (rest (r rd')) < fuel)%nat -> FieldsPerRecord rd' = FieldsPerRecord rd ->
     next_record rd' rs' (skip_lines fuel rd')) ->
  (length (rest (r rd)) < S fuel)%nat ->
  next_record rd rs' (skip_lines (S fuel) rd).
Proof.
  intros Hu Hc Hb Ht H10 Hl Hsk IH Hf. cbn [skip_lines].
  destruct (readLine_total rd Hb) as (l & e0 & rd0 & E0 & Hm & Hbl & _ & Hlen & _).
  destruct (readLine_at rd (t ++ u) Hu) as (l2 & rd1 & E & Hat & s & n & off & Hs);
    [by rewrite Ht; destruct l1|done|]. rewrite E in E0. injection E0 as <- <- <-. rewrite E. go_run.
  specialize (Hlen eq_refl). destruct Hat as [[f Es] (Hfin & Hi & Hco & Htr & _)].
  rewrite Ht, <- app_assoc in Es. cbn [app] in Es. rewrite split_line_nl in Es by done.
  rewrite <- Ht in Es. injection Es as <- <- Hr.
  assert (Hc1 : Comment rd1 = comment) by by rewrite Hs.
  assert (Hfr : FieldsPerRecord rd1 = FieldsPerRecord rd) by by rewrite Hs.
  assert (Hn : next_record rd rs' (skip_lines fuel rd1)).
  { assert (Hn1 : next_record rd1 rs' (skip_lines fuel rd1)).
    { apply IH; [split_and!; auto|done|by eapply moved_bytes|lia|done]. }
    destruct rs'; [done|]. cbn in *. rewrite Hfr, Hc1, <- Hc in Hn1. by rewrite Hc in *. }
  rewrite Hc1. destruct Hsk as [[H0 Hn1]|Hsk].
  - replace (negb (comment =? 0) && (nextRune t =? comment)) with true by lia. done.
  - destruct (_ && _); [done|]. replace (zlen t =? lengthNL t) with true by (by destruct Hsk as [-> | ->]). done.
Qed.

Lemma skip_end fuel rd : unread rd [] -> Comment rd = comment ->
  (length (rest (r rd)) < fuel)%nat -> next_record rd [] (skip_lines fuel rd).
Proof.
  assert (Hnr : forall l, l = [] -> negb (comment =? 0) && (nextRune l =? comment) = false).
  { intros l ->. destruct Hcomment as [->|Hv]; [done|].
    pose proof (validDelim_inv _ Hv) as (_ & _ & _ & _ & _ & He). change (nextRune []) with RuneError. lia. }
  assert (Hend : forall fuel rd, rest (r rd) = [] -> fin (r rd) = EOF -> Comment rd = comment ->
    next_record rd [] (skip_lines (S fuel) rd)).
  { intros k rd' Hr Hf Hc. cbn [skip_lines]. pose proof (readLine_eq rd') as E. rewrite Hr, Hf in E.
    change (split_line []) with (@nil Z, false, @nil Z) in E. cbv beta iota zeta in E.
    change (0 <? zlen []) with false in E. cbn [negb andb orb] in E.
    rewrite E. go_run. cbn [Comment set_lines]. rewrite Hc.
    rewrite Hnr by (unfold drop_bom; by destruct (isFirstLine rd')).
    unfold drop_bom. destruct (isFirstLine rd'); cbn; by eexists. }
  intros (Hf & _ & _ & Hr) Hc Hl. destruct fuel as [|fuel]; [lia|].
  destruct Hr as [[_ Hr]|[Hi [Hr|[Hr _]]]]; [by apply Hend| |by apply Hend].
  cbn [skip_lines]. pose proof (readLine_eq rd) as E. rewrite Hr, Hf, Hi in E.
  change (split_line (bom ++ [])) with (bom, false, @nil Z) in E. cbv beta iota zeta in E.
  change (0 <? zlen bom) with true in E. change (chomp_cr bom) with bom in E.
  change (drop_bom true bom) with (@nil Z) in E. cbn [negb andb orb] in E. rewrite E. go_run.
  cbn [Comment set_lines]. rewrite Hc, Hnr by done. cbn [zlen lengthNL reverse Z.eqb].
  rewrite Hr in Hl. cbn in Hl. destruct fuel as [|fuel]; [lia|].
  match goal with |- next_record _ _ (if ?c then _ else _) => replace c with true by done end.
  by apply (Hend fuel (set_lines rd (mkStream [] EOF) (numLine rd + 1) (i64 (offset rd + 3)) false)).
Qed.

Lemma skip_document rs p : document rs p -> forall fuel rd, unread rd p -> Comment rd = comment ->
  is_bytes (rest (r rd)) -> (length (rest (r rd)) < fuel)%nat -> next_record rd rs (skip_lines fuel rd).
Proof.
  intros Hdoc. pose proof (document_last _ _ Hdoc) as Hl. revert Hl.
  induction Hdoc as [|fs t Hrow Hne Hnc H13|rs t rs' u Hent Hdoc IH]; intros Hl fuel rd Hu Hc Hb Hf.
  - by apply skip_end.
  - destruct fuel as [|fuel]; [lia|].
    apply (skip_to_record fuel rd fs [] t [] []); rewrite ?app_nil_r; try done; [by right; right|constructor].
  - destruct fuel as [|fuel]; [lia|]. pose proof (document_last _ _ Hdoc) as Hlu. specialize (IH Hlu).
    destruct Hent as [fs t e Hrow Hne Hnc He|e He|t H0 H10].
    + rewrite <- app_assoc in Hu, Hl. apply (skip_to_record fuel rd fs rs' t e u); try done.
      * destruct He as [[-> _]| ->]; [by left|by right; left].
      * by destruct He as [[-> ?]| ->].
    + apply (skip_line fuel rd rs' e u (if bool_decide (e = [10]) then [] else [13])); try done.
      * by destruct He as [-> | ->].
      * destruct He as [-> | ->]; [apply not_elem_of_nil|]. rewrite bool_decide_eq_false_2 by done. not_in.
      * by right.
      * intros rd' Hu' Hc' Hb' Hf' _. by apply IH.
    + apply (skip_line fuel rd rs' (encode_scalar comment ++ t ++ [10]) u (encode_scalar comment ++ t)); try done.
      * list_assoc.
      * apply not_elem_of_app. split; [|done]. destruct Hcomment as [->|Hv]; [done|].
        pose proof (validDelim_inv _ Hv) as (_ & _ & _ & Hn & Hs & _). unfold encode_scalar, is_scalar, MaxRune in *.
        repeat case_match; rewrite ?not_elem_of_cons; split_and!; try apply not_elem_of_nil; div_lia.
      * left. split; [done|]. destruct Hcomment as [->|Hv]; [done|].
        pose proof (validDelim_inv _ Hv) as (_ & _ & _ & _ & Hs & _). unfold nextRune. by rewrite decode_encode.
      * intros rd' Hu' Hc' Hb' Hf' _. by apply IH.
Qed.

(** The number of fields is not fixed, or the same for all records. *)
Definition counts (k : Z) (rs : list (list field)) : Prop :=
  k < 0 \/ exists n, (k = 0 \/ k = n) /\ Forall (fun fs => zlen fs = n) rs.

Lemma valid_settings rd : Comma rd = comma -> Comment rd = comment ->
  (Comma rd =? Comment rd) || negb (validDelim (Comma rd)) || (negb (Comment rd =? 0) && negb (validDelim (Comment rd))) = false.
Proof.
  intros -> ->. rewrite Hcomma. replace (comma =? comment) with false by lia. cbn.
  destruct Hcomment as [-> | ->]; [done|by rewrite andb_comm].
Qed.

Lemma readRecord_document rd fs rs p dst : document (fs :: rs) p -> unread rd p -> Comment rd = comment ->
  is_bytes (rest (r rd)) -> counts (FieldsPerRecord rd) (fs :: rs) ->
  exists rd' u, readRecord rd dst = Ret (rd', fs, None) /\ document rs u /\ unread rd' u /\
    Comment rd' = comment /\ counts (FieldsPerRecord rd') rs.
Proof.
  intros Hdoc Hu Hc Hb Hk. destruct (readRecord_total rd dst Hb) as ([[rd3 rec] err] & Etot & Hm3 & _).
  pose proof Etot as E. unfold readRecord in E. rewrite valid_settings in E by (done || apply Hu).
  destruct (skip_document _ _ Hdoc (S (length (rest (r rd)))) rd Hu Hc Hb ltac:(lia))
    as (t & e & u & l & rd1 & Esk & Hrow & He & H13 & Hd & Hat & Hfr & Hc1).
  destruct (skip_lines_total (S (length (rest (r rd)))) rd Hb ltac:(lia)) as (l0 & e0 & rd0 & E0 & Hm & Hbl & _).
  rewrite Esk in E0. injection E0 as <- <- <-. rewrite Esk in E. autorewrite with go in E.
  destruct (parse_fields_total (S (length l + length (rest (r (set_record rd1 [] [] []))))) (numLine rd1) None
    (set_record rd1 [] [] []) l None (mkPosition (numLine (set_record rd1 [] [] [])) 1) [] [])
    as (rd2 & perr & e2 & Ep & Hm2 & (Hf2 & _) & _);
    [destruct Hm as (Ec & _); cbn; rewrite Ec; by replace (Comma rd) with comma by (symmetry; apply Hu)
    |done|by eapply moved_bytes|done|done|unfold todo; cbn; lia|].
  assert (Hruns : runs (numLine rd1) (done_with u ([] ++ fs))
    (parse_step (numLine rd1) None (set_record rd1 [] [] []) l None (mkPosition (numLine (set_record rd1 [] [] [])) 1))).
  { cbn [parse_step]. by apply (row_runs _ fs t Hrow e u). }
  destruct (runs_parse _ _ _ _ _ _ _ _ Hruns Ep) as (rd2' & Eq & Hh & Hr & Hi). injection Eq as -> -> ->. clear Hruns.
  rewrite Ep in E. autorewrite with go in E. rewrite (cut_fields_holds _ _ _ Hh) in E. autorewrite with go in E.
  cbn [app] in E. destruct (check_count rd2' (numLine rd1) (zlen fs) _) as [rd4 err4] eqn:Ec.
  injection E as -> <- ->. pose proof (row_nonempty _ _ Hrow) as Hpos.
  pose proof (check_count_moved _ _ _ _ _ _ Ec) as (_ & _ & _ & Hr4). cbn in Hf2.
  unfold check_count in Ec. rewrite Hf2, Hfr in Ec.
  assert (Hres : err = None /\ isFirstLine rd3 = false /\ counts (FieldsPerRecord rd3) rs).
  { destruct Hk as [Hk|(n & Hk & Hall)].
    - replace (0 <? FieldsPerRecord rd) with false in Ec by lia.
      replace (FieldsPerRecord rd =? 0) with false in Ec by lia. injection Ec as <- <-.
      split_and!; [done|done|left; lia].
    - apply Forall_cons_1 in Hall as [Hn Hall]. destruct (Z.ltb_spec 0 (FieldsPerRecord rd)) as [H0|H0].
      + replace (zlen fs =? FieldsPerRecord rd) with true in Ec by lia. injection Ec as <- <-.
        split_and!; [done|done|right; exists n; split; [right; lia|done]].
      + destruct (Z.eqb_spec (FieldsPerRecord rd) 0) as [H1|H1]; injection Ec as <- <-.
        * split_and!; [done|done|right; exists n; split; [by right|done]].
        * split_and!; [done|done|left; lia]. }
  destruct Hres as (-> & Hi3 & Hk3). destruct Hm3 as (C1 & C2 & _ & C4 & _ & C6 & _). destruct Hu as (U1 & U2 & U3 & _).
  exists rd3, u. split_and!; [done|done| |congruence|done].
  split_and!; [congruence..|]. left. split; [done|]. by rewrite Hr4.
Qed.

Lemma read_records_document rs p : document rs p -> forall fuel rd acc,
  unread rd p -> Comment rd = comment -> is_bytes (rest (r rd)) -> counts (FieldsPerRecord rd) rs ->
  (length (rest (r rd)) < fuel)%nat ->
  exists rd', read_records fuel rd acc = Ret (rd', acc ++ rs, None).
Proof.
  revert p. induction rs as [|fs rs IH]; intros p Hdoc fuel rd acc Hu Hc Hb Hk Hf;
    (destruct fuel as [|fuel]; [lia|]); cbn [read_records].
  - unfold readRecord. rewrite valid_settings by (done || apply Hu).
    destruct (skip_document _ _ Hdoc (S (length (rest (r rd)))) rd Hu Hc Hb ltac:(lia)) as (rd' & ->).
    go_run. rewrite app_nil_r. by eexists.
  - destruct (readRecord_document rd fs rs p [] Hdoc Hu Hc Hb Hk) as (rd' & u & E & Hd & Hu' & Hc' & Hk').
    destruct (readRecord_total rd [] Hb) as ([[rd0 rec] err] & E0 & Hm & _ & Hlen). rewrite E in E0.
    injection E0 as <- <- <-. specialize (Hlen eq_refl). rewrite E. go_run.
    destruct (IH u Hd fuel rd' (acc ++ [fs]) Hu' Hc' (moved_bytes _ _ Hm Hb) Hk' ltac:(lia)) as (rd2 & ->).
    exists rd2. do 3 f_equal. list_assoc.
Qed.

(** The same for [Read], which may keep the record. *)
Lemma Read_document rd fs rs p : document (fs :: rs) p -> unread rd p -> Comment rd = comment ->
  is_bytes (rest (r rd)) -> counts (FieldsPerRecord rd) (fs :: rs) ->
  exists rd' u, Read rd = Ret (rd', fs, None) /\ document rs u /\ unread rd' u /\
    Comment rd' = comment /\ counts (FieldsPerRecord rd') rs /\ is_bytes (rest (r rd')) /\
    (length (rest (r rd')) < length (rest (r rd)))%nat.
Proof.
  intros Hdoc Hu Hc Hb Hk. unfold Read.
  set (dst := if ReuseRecord rd then lastRecord rd else []).
  destruct (readRecord_document rd fs rs p dst Hdoc Hu Hc Hb Hk) as (rd' & u & E & Hd & Hu' & Hc' & Hk').
  destruct (readRecord_total rd dst Hb) as ([[rd0 rec] err] & E0 & Hm & _ & Hlen). rewrite E in E0.
  injection E0 as <- <- <-. specialize (Hlen eq_refl). pose proof (moved_bytes _ _ Hm Hb) as Hb'.
  unfold dst in E. destruct (ReuseRecord rd); rewrite E; go_run.
  - by exists (set_last rd' fs), u.
  - by exists rd', u.
Qed.

Lemma Read_document_end rd p : document [] p -> unread rd p -> Comment rd = comment ->
  is_bytes (rest (r rd)) -> exists rd', Read rd = Ret (rd', [], Some (ReadErr EOF)).
Proof.
  intros Hdoc Hu Hc Hb.
  assert (E : exists rd', forall dst, readRecord rd dst = Ret (rd', [], Some (ReadErr EOF))).
  { destruct (skip_document _ _ Hdoc (S (length (rest (r rd)))) rd Hu Hc Hb ltac:(lia)) as (rd' & Es).
    exists rd'. intros dst. unfold readRecord. rewrite valid_settings by (done || apply Hu). by rewrite Es. }
  destruct E as (rd' & E). unfold Read. destruct (ReuseRecord rd); rewrite E; by eexists.
Qed.

End Document.

(** C11. [ReadAll] reads back every document: records whose fields are absent (and read as [nil]),
    plain, or quoted with doubled quotes and any bytes between them, newlines and carriage returns
    included; ended by a newline, with or without a carriage return; with blank lines and comments
    between them, and a byte order mark before them.  This holds for every separator and comment
    character the reader accepts and with or without the trimming of leading space. *)
Theorem ReadAll_document rd rs p :
  fin (r rd) = EOF -> is_bytes (rest (r rd)) ->
  validDelim (Comma rd) = true -> Comma rd <> Comment rd ->
  (Comment rd = 0 \/ validDelim (Comment rd) = true) ->
  (TrimLeadingSpace rd = true -> IsSpace (Comma rd) = false) ->
  document (Comma rd) (Comment rd) (TrimLeadingSpace rd) rs p ->
  (rest (r rd) = p /\ (isFirstLine rd = true -> prefixb bom p = false) \/
   rest (r rd) = bom ++ p /\ isFirstLine rd = true) ->
  counts (FieldsPerRecord rd) rs ->
  exists rd', ReadAll rd = Ret (rd', rs, None).
Proof.
  intros Hfin Hb Hv Hd Hcm Hsp Hdoc Hrest Hk.
  apply (read_records_document (Comma rd) (Comment rd) (TrimLeadingSpace rd) Hv Hsp Hcm Hd rs p Hdoc
           _ rd []); [|done..|lia].
  split_and!; [done..|]. destruct Hrest as [[Hr Hbom]|[Hr Hi]]; [|right; split; [done|by left]].
  destruct (isFirstLine rd); [right; split; [done|right; auto]|by left].
Qed.

(** A text with a mark, a comment, a blank line, a null, and a quoted field with a quote and a
    carriage return and newline. *)
Definition sample : list Z :=
  str "# c" ++ [10] ++ str "a,," ++ [34] ++ str "b" ++ [34; 34; 13; 10] ++ str "c" ++ [34; 13; 10; 10] ++ str "1,2,3".
Definition sample_rows : list (list field) :=
  [[Some (str "a"); None; Some (str "b" ++ [34; 13; 10] ++ str "c")]; [Some (str "1"); Some (str "2"); Some (str "3")]].
Definition sample_reader : Reader := mkReader 44 35 0 false true false (mkStream (bom ++ sample) EOF) 0 0 [] [] [] [] true.

Ltac plain_cell :=
  apply cell_plain; split_and!;
    [done|apply (bool_decide_eq_true_1 _); reflexivity..|reflexivity|intros _ x; reflexivity].

Lemma sample_document : document 44 35 true sample_rows sample.
Proof.
  unfold sample, sample_rows.
  apply (doc_entry _ _ _ [] (str "# c" ++ [10]) _ _).
  { apply (entry_comment 44 35 true (str " c")); [done|cbn; not_in]. }
  replace (str "a,," ++ _) with ((str "a,," ++ [34] ++ str "b" ++ [34; 34; 13; 10] ++ str "c" ++ [34; 13; 10]) ++ [10] ++ str "1,2,3") by done.
  apply (doc_entry _ _ _ [_] _ [_] _).
  { apply (entry_row 44 35 true _ (str "a,," ++ [34] ++ str "b" ++ [34; 34; 13; 10] ++ str "c" ++ [34]) [13; 10]).
    - apply (row_cons 44 true (Some (str "a")) (str "a") _ ([44] ++ [34] ++ str "b" ++ [34; 34; 13; 10] ++ str "c" ++ [34])); [plain_cell|].
      apply (row_cons 44 true None [] _ ([34] ++ str "b" ++ [34; 34; 13; 10] ++ str "c" ++ [34])); [constructor|].
      apply row_one, (cell_quoted 44 true (str "b" ++ [34; 13; 10] ++ str "c")).
    - done.
    - right. intros x. done.
    - by right. }
  apply (doc_entry _ _ _ [] [10] [_]); [constructor; by left|].
  apply doc_last; [|done|right; intros x; done|done].
  apply (row_cons 44 true (Some (str "1")) (str "1") _ (str "2,3")); [plain_cell|].
  apply (row_cons 44 true (Some (str "2")) (str "2") _ (str "3")); [plain_cell|]. apply row_one. plain_cell.
Qed.

Lemma ReadAll_document_witness :
  is_bytes (rest (r sample_reader)) /\ exists rd', ReadAll sample_reader = Ret (rd', sample_rows, None).
Proof.
  assert (Hb : is_bytes (rest (r sample_reader))) by (cbn; repeat constructor; done).
  split; [exact Hb|].
  apply (ReadAll_document sample_reader sample_rows sample eq_refl Hb eq_refl); [done|by right|done|exact sample_document|by right|].
  right. exists 3. split; [by left|]. repeat constructor.
Defined.

(** Where the reader departs from its documentation: a record that cannot be parsed is returned
    in part, together with the error, and the number of its fields is then required of the
    records that follow. *)
Theorem Read_partial_record :
  exists rd, Read (NewReader (mkStream (str "a,b,c" ++ [34; 10] ++ str "d,e,f") EOF)) =
      Ret (rd, [Some (str "a"); Some (str "b")], Some (Parse (mkParseError 1 1 6 ErrBareQuote))) /\
    exists rd', Read rd = Ret (rd', [Some (str "d"); Some (str "e"); Some (str "f")],
                               Some (Parse (mkParseError 2 2 1 ErrFieldCount))).
Proof. eexists. split; [vm_compute; reflexivity|]. eexists. vm_compute. reflexivity. Qed.

End CsvSpec.
