(* ===== verification/RestAuth.v ===== *)
(** * RestAuth: error responses and authentication of the REST interface

    Models [src/controller/rest/error_resp.go] with the codes and messages of
    [src/httperror/errors.go], and [src/controller/rest/auth.go]: the login token ([EncodeDes],
    [DecodeDes]) and [CheckAuth] with its cache, and the cache of [src/plugin/auth.go].  The DES
    block cipher and base64 are parameters; a cached entry may expire at any time. *)
From stdpp Require Import gmap.
From S2P Require Import Prelude Utf8 Text Common Tools.
#[local] Open Scope Z_scope.
Import Text.

(** ** Responses *)
Module Resp.

Definition StatusOK : Z := 200.
Definition StatusBadRequest : Z := 400.
Definition StatusUnauthorized : Z := 401.
Definition StatusForbidden : Z := 403.
Definition StatusTooManyRequests : Z := 429.
Definition StatusInternalServerError : Z := 500.
Definition StatusBadGateway : Z := 502.
Definition StatusServiceUnavailable : Z := 503.

Definition SUCCESS : Z := 0.
Definition TSDB_CODE_RPC_AUTH_FAILURE : Z := 3.
Definition HTTP_NO_AUTH_INFO : Z := 4357.
Definition HTTP_NO_MSG_INPUT : Z := 4358.
Definition HTTP_NO_SQL_INPUT : Z := 4359.
Definition HTTP_GEN_TAOSD_TOKEN_ERR : Z := 4362.
Definition HTTP_INVALID_CONTENT_LENGTH : Z := 4385.
Definition HTTP_INVALID_AUTH_TYPE : Z := 4386.
Definition HTTP_INVALID_BASIC_AUTH : Z := 4388.
Definition HTTP_INVALID_TAOSD_AUTH : Z := 4389.
Definition TSDB_CODE_MND_DB_NOT_EXIST : Z := 904.
Definition TSDB_CODE_MND_USER_ALREADY_EXIST : Z := 848.
Definition TSDB_CODE_MND_USER_NOT_EXIST : Z := 849.
Definition TSDB_CODE_MND_INVALID_USER_FORMAT : Z := 850.
Definition TSDB_CODE_MND_INVALID_PASS_FORMAT : Z := 851.
Definition TSDB_CODE_MND_NO_USER_FROM_CONN : Z := 852.
Definition TSDB_CODE_MND_TOO_MANY_USERS : Z := 853.
Definition TSDB_CODE_MND_INVALID_ALTER_OPER : Z := 854.
Definition TSDB_CODE_MND_AUTH_FAILURE : Z := 855.
Definition TSDB_CODE_TSC_SQL_SYNTAX_ERROR : Z := 534.
Definition TSDB_CODE_TSC_LINE_SYNTAX_ERROR : Z := 539.
Definition TSDB_CODE_PAR_SYNTAX_ERROR : Z := 9728.
Definition TSDB_CODE_TDB_TIMESTAMP_OUT_OF_RANGE : Z := 1547.
Definition TSDB_CODE_TSC_VALUE_OUT_OF_RANGE : Z := 548.
Definition TSDB_CODE_PAR_INVALID_FILL_TIME_RANGE : Z := 9787.
Definition RPC_NETWORK_UNAVAIL : Z := 11.

Definition ErrorMsgMap : list (Z * string) :=
  [(3, "Authentication failure"%string);
   (4352, "http server is not onlin"%string);
   (4353, "url is not support"%string);
   (4354, "invalid url format"%string);
   (4355, "no enough memory"%string);
   (4356, "request size is too big"%string);
   (4357, "no auth info input"%string);
   (4358, "request is empty"%string);
   (4359, "no sql input"%string);
   (4360, "no need to execute use db cmd"%string);
   (4361, "session list was full"%string);
   (4362, "generate taosd token error"%string);
   (4363, "size of multi request is 0"%string);
   (4364, "failed to create gzip"%string);
   (4365, "failed to finish gzip"%string);
   (4366, "failed to login"%string);
   (4384, "invalid http version"%string);
   (4385, "invalid content length"%string);
   (4386, "invalid type of Authorization"%string);
   (4387, "invalid format of Authorization"%string);
   (4388, "invalid basic Authorization"%string);
   (4389, "invalid taosd Authorization"%string);
   (4390, "failed to parse method"%string);
   (4391, "failed to parse target"%string);
   (4392, "failed to parse http version"%string);
   (4393, "failed to parse sp"%string);
   (4394, "failed to parse status"%string);
   (4395, "failed to parse phrase"%string);
   (4396, "failed to parse crlf"%string);
   (4397, "failed to parse header"%string);
   (4398, "failed to parse header key"%string);
   (4399, "failed to parse header val"%string);
   (4400, "failed to parse chunk size"%string);
   (4401, "failed to parse chunk"%string);
   (4402, "failed to parse end section"%string);
   (4404, "invalid parse state"%string);
   (4405, "failed to parse error section"%string);
   (4432, "query size is 0"%string);
   (4433, "query size can not more than 100"%string);
   (4434, "parse grafana json error"%string);
   (4448, "database name can not be null"%string);
   (4449, "database name too long"%string);
   (4450, "invalid telegraf json format"%string);
   (4451, "metrics size is 0"%string);
   (4452, "metrics size can not more than 1K"%string);
   (4453, "metric name not find"%string);
   (4454, "metric name type should be string"%string);
   (4455, "metric name length is 0"%string);
   (4456, "metric name length too long"%string);
   (4457, "timestamp not find"%string);
   (4458, "timestamp type should be integer"%string);
   (4459, "timestamp value smaller than 0"%string);
   (4460, "tags not find"%string);
   (4461, "tags size is 0"%string);
   (4462, "tags size too long"%string);
   (4463, "tag is null"%string);
   (4464, "tag name is null"%string);
   (4465, "tag name length too long"%string);
   (4466, "tag value type should be number or string"%string);
   (4467, "tag value is null"%string);
   (4468, "table is null"%string);
   (4469, "table name length too long"%string);
   (4470, "fields not find"%string);
   (4471, "fields size is 0"%string);
   (4472, "fields size too long"%string);
   (4473, "field is null"%string);
   (4474, "field name is null"%string);
   (4475, "field name length too long"%string);
   (4476, "field value type should be number or string"%string);
   (4477, "field value is null"%string);
   (4478, "host type should be string"%string);
   (4479, "stable not exist"%string);
   (4496, "database name can not be null"%string);
   (4497, "database name too long"%string);
   (4498, "invalid opentsdb json format"%string);
   (4499, "metrics size is 0"%string);
   (4500, "metrics size can not more than 10K"%string);
   (4501, "metric name not find"%string);
   (4502, "metric name type should be string"%string);
   (4503, "metric name length is 0"%string);
   (4504, "metric name length can not more than 22"%string);
   (4505, "timestamp not find"%string);
   (4506, "timestamp type should be integer"%string);
   (4507, "timestamp value smaller than 0"%string);
   (4508, "tags not find"%string);
   (4509, "tags size is 0"%string);
   (4510, "tags size too long"%string);
   (4511, "tag is null"%string);
   (4512, "tag name is null"%string);
   (4513, "tag name length too long"%string);
   (4514, "tag value type should be boolean number or string"%string);
   (4515, "tag value is null"%string);
   (4516, "tag value can not more than 64"%string);
   (4517, "value not find"%string);
   (4518, "value type should be boolean number or string"%string);
   (7936, "http request json error"%string)].

(** The status, the code and the text of an error response. *)
Record response := mkResp { httpCode : Z; code : Z; desc : list Z }.

Definition errorResp (httpCode code : Z) (msg : list Z) : response := mkResp httpCode code msg.

Definition badResponse (httpCode code : Z) : response :=
  errorResp httpCode code (str (default "unknown error"%string (map_get ErrorMsgMap code))).
Definition UnAuthResponse (code : Z) : response := badResponse StatusUnauthorized code.
Definition BadRequestResponse (code : Z) : response := badResponse StatusBadRequest code.
Definition TooManyRequestResponse (msg : list Z) : response := errorResp StatusTooManyRequests 65535 msg.
Definition InternalErrorResponse (code : Z) (msg : list Z) : response := errorResp StatusInternalServerError code msg.
Definition ErrorResponse (httpCode code : Z) (msg : list Z) : response := errorResp httpCode code msg.
Definition BadRequestResponseWithMsg (code : Z) (msg : list Z) : response := errorResp StatusBadRequest code msg.
Definition ForbiddenResponse (msg : list Z) : response := errorResp StatusForbidden 65535 msg.
Definition ServiceUnavailable (msg : list Z) : response := errorResp StatusServiceUnavailable 65535 msg.

Definition errorStatusMap : list (Z * Z) :=
  [(TSDB_CODE_TSC_SQL_SYNTAX_ERROR, StatusBadRequest);
   (TSDB_CODE_TSC_LINE_SYNTAX_ERROR, StatusBadRequest);
   (TSDB_CODE_PAR_SYNTAX_ERROR, StatusBadRequest);
   (TSDB_CODE_TDB_TIMESTAMP_OUT_OF_RANGE, StatusBadRequest);
   (TSDB_CODE_TSC_VALUE_OUT_OF_RANGE, StatusBadRequest);
   (TSDB_CODE_PAR_INVALID_FILL_TIME_RANGE, StatusBadRequest);
   (TSDB_CODE_MND_USER_ALREADY_EXIST, StatusUnauthorized);
   (TSDB_CODE_MND_USER_NOT_EXIST, StatusUnauthorized);
   (TSDB_CODE_MND_INVALID_USER_FORMAT, StatusUnauthorized);
   (TSDB_CODE_MND_INVALID_PASS_FORMAT, StatusUnauthorized);
   (TSDB_CODE_MND_NO_USER_FROM_CONN, StatusUnauthorized);
   (TSDB_CODE_MND_TOO_MANY_USERS, StatusUnauthorized);
   (TSDB_CODE_MND_INVALID_ALTER_OPER, StatusUnauthorized);
   (TSDB_CODE_MND_AUTH_FAILURE, StatusUnauthorized);
   (RPC_NETWORK_UNAVAIL, StatusBadGateway)].

Section Config.
(** [config.Conf.HttpCodeServerError]. *)
Context (HttpCodeServerError : bool).

Definition getErrorHttpStatus (errCode : Z) : Z :=
  if HttpCodeServerError then default StatusInternalServerError (map_get errorStatusMap errCode)
  else StatusOK.
Definition TaosErrorResponse (code : Z) (msg : list Z) : response :=
  let code := Z.land code 65535 in errorResp (getErrorHttpStatus (i32 code)) code msg.
Definition CommonErrorResponse (msg : list Z) : response :=
  errorResp (getErrorHttpStatus 65535) 65535 msg.
End Config.

(** The status does not depend on the upper half of a code, where TDengine marks its errors. *)
Lemma TaosErrorResponse_low b c msg : 0 <= c < 2 ^ 31 ->
  TaosErrorResponse b (c - 2 ^ 31) msg = TaosErrorResponse b c msg.
Proof.
  intros Hc. unfold TaosErrorResponse.
  assert (E : Z.land (c - 2 ^ 31) 65535 = Z.land c 65535).
  { change 65535 with (Z.ones 16). rewrite !Z.land_ones by lia. change (2 ^ 16) with 65536.
    change (2 ^ 31) with (32768 * 65536). rewrite <- (Z.mod_add (c - _) 32768) by lia. f_equal. lia. }
  by rewrite E.
Qed.

(** An error of the database: a [TaosError] or another. *)
Inductive dberr := TaosErr (code : Z) (msg : list Z) | OtherErr (msg : list Z).
(** What [commonpool.GetConnection] can return. *)
Inductive connerr := ConnForbidden | ConnTimeout | ConnMaxWait | ConnErr (e : dberr).

Definition ErrWhitelistForbidden : list Z := str "whitelist prohibits current IP access".
Definition ErrTimeout : list Z := str "get connection timeout".
Definition ErrMaxWait : list Z := str "exceeded connection pool max wait".

End Resp.

(** ** Authentication *)
Module Auth.
Import Resp.

Abbreviation bytes := (list Z) (only parsing).
Record authInfo := mkAuth { User : bytes; Password : bytes }.

Section Auth.
(** [base64.StdEncoding] and the DES cipher with [desKey] on a block of eight bytes. *)
Context (EncodeToString : bytes -> bytes) (DecodeString : bytes -> option bytes).
Context (des_Encrypt des_Decrypt : bytes -> bytes -> bytes).

Definition desKey : bytes := [64; 182; 122; 48; 86; 115; 253; 68].

Inductive auth_error := ErrDecode | ErrDesLength | ErrDesInput | ErrBasic (e : Basic.basic_error).

(** [b.ReadString(0)] on a buffer, with the zero byte removed when there is one. *)
Fixpoint until_zero (s : bytes) : bytes :=
  match s with
  | [] => []
  | c :: s' => if c =? 0 then [] else c :: until_zero s'
  end.

(** The six blocks [d[i*8:(i+1)*8]]. *)
Definition blocks (f : bytes -> bytes) (d : bytes) (lo n : Z) : go bytes :=
  for_upto n (fun i b => blk ← zslice d ((lo + i) * 8) ((lo + i + 1) * 8); Ret (b ++ f blk)) [].

Definition DecodeDes (auth : bytes) : go (authInfo + auth_error) :=
  match DecodeString auth with
  | None => Ret (inr ErrDecode)
  | Some d =>
    if negb (zlen d =? 48) then Ret (inr ErrDesLength)
    else
      u ← blocks (des_Decrypt desKey) d 0 3;
      p ← blocks (des_Decrypt desKey) d 3 3;
      Ret (inl (mkAuth (until_zero u) (until_zero p)))
  end.

(** The loop [b[i+off] = s[i]]. *)
Definition copy_bytes (b : bytes) (off : Z) (s : bytes) : go bytes :=
  for_upto (zlen s) (fun i b => c ← zget s i; zset b (i + off) c) b.

Abbreviation cache := (gmap (list Z)).

Definition EncodeDes (tokenCache : cache bytes) (user password : bytes) : go ((bytes + auth_error) * cache bytes) :=
  if (24 <? zlen user) || (24 <? zlen password) then Ret (inr ErrDesInput, tokenCache)
  else
    b ← copy_bytes (replicate 48 0) 0 user;
    b ← copy_bytes b 24 password;
    match tokenCache !! b with
    | Some v => Ret (inl v, tokenCache)
    | None =>
      buf ← blocks (des_Encrypt desKey) b 0 6;
      let data := EncodeToString buf in
      Ret (inl data, <[b := data]> tokenCache)
    end.

(** The part of [CheckAuth] after the cache. *)
Definition decode_auth (auth : bytes) : go (authInfo + response) :=
  if HasPrefix auth (str "Basic") && (6 <? zlen auth) then
    rest ← zslice auth 6 (zlen auth);
    match Basic.DecodeBasic DecodeString rest with
    | inr _ => Ret (inr (UnAuthResponse HTTP_INVALID_BASIC_AUTH))
    | inl (user, password) =>
      if (zlen user =? 0) || (zlen password =? 0)
      then Ret (inr (UnAuthResponse HTTP_INVALID_BASIC_AUTH))
      else Ret (inl (mkAuth user password))
    end
  else if HasPrefix auth (str "Taosd") && (6 <? zlen auth) then
    rest ← zslice auth 6 (zlen auth);
    x ← DecodeDes rest;
    match x with
    | inr _ => Ret (inr (UnAuthResponse HTTP_INVALID_TAOSD_AUTH))
    | inl info =>
      if (zlen (User info) =? 0) || (zlen (Password info) =? 0)
      then Ret (inr (UnAuthResponse HTTP_INVALID_TAOSD_AUTH))
      else Ret (inl info)
    end
  else Ret (inr (UnAuthResponse HTTP_INVALID_AUTH_TYPE)).

(** [CheckAuth]: the credentials of the request, or the response that ends it. *)
Definition CheckAuth (authCache : cache authInfo) (header : bytes) : go ((authInfo + response) * cache authInfo) :=
  if zlen header =? 0 then Ret (inr (UnAuthResponse HTTP_NO_AUTH_INFO), authCache)
  else
    let auth := TrimSpace header in
    match authCache !! auth with
    | Some info => Ret (inl info, authCache)
    | None =>
      x ← decode_auth auth;
      match x with
      | inr resp => Ret (inr resp, authCache)
      | inl info => Ret (inl info, <[auth := info]> authCache)
      end
    end.

(** [Auth] of the plugins: the credentials it sets ([None] when it sets none and goes on), or the
    error it aborts with. *)
Inductive plugin_error := AuthNeeded | AuthBasic (e : Basic.basic_error).
Definition plugin_Auth (authCache : cache authInfo) (header : bytes) : go ((option authInfo + plugin_error) * cache authInfo) :=
  if zlen header =? 0 then Ret (inr AuthNeeded, authCache)
  else
    let auth := TrimSpace header in
    match authCache !! auth with
    | Some info => Ret (inl (Some info), authCache)
    | None =>
      if HasPrefix auth (str "Basic") && (6 <? zlen auth) then
        rest ← zslice auth 6 (zlen auth);
        match Basic.DecodeBasic DecodeString rest with
        | inr e => Ret (inr (AuthBasic e), authCache)
        | inl (user, password) => Ret (inl (Some (mkAuth user password)), <[auth := mkAuth user password]> authCache)
        end
      else Ret (inl None, authCache)
    end.

(** [des] of [restful.go], the answer of the login request.  [conn] is the error of
    [GetConnection], [put_err] tells whether the connection could not be put back. *)
Definition des (tokenCache : cache bytes) (user password : bytes) (conn : option connerr) (put_err : bool)
    : go ((bytes + response) * cache bytes) :=
  if (zlen user =? 0) || (24 <? zlen user) || (zlen password =? 0) || (24 <? zlen password)
  then Ret (inr (BadRequestResponse HTTP_GEN_TAOSD_TOKEN_ERR), tokenCache)
  else
    match conn with
    | Some ConnForbidden => Ret (inr (ForbiddenResponse ErrWhitelistForbidden), tokenCache)
    | Some ConnTimeout => Ret (inr (ServiceUnavailable ErrTimeout), tokenCache)
    | Some ConnMaxWait => Ret (inr (ServiceUnavailable ErrMaxWait), tokenCache)
    | Some (ConnErr _) => Ret (inr (UnAuthResponse TSDB_CODE_RPC_AUTH_FAILURE), tokenCache)
    | None =>
      if put_err
      then Ret (inr (InternalErrorResponse HTTP_GEN_TAOSD_TOKEN_ERR (str "put connection error")), tokenCache)
      else
        '(x, c) ← EncodeDes tokenCache user password;
        match x with
        | inr _ => Ret (inr (BadRequestResponse HTTP_GEN_TAOSD_TOKEN_ERR), c)
        | inl token => Ret (inl token, c)
        end
    end.

(** *** Blocks of eight bytes *)

Lemma split_blocks k (b : bytes) : length b = (8 * k)%nat ->
  exists cs, length cs = k /\ Forall (fun c => zlen c = 8) cs /\ concat cs = b.
Proof.
  revert b. induction k as [|k IH]; intros b Hb.
  - exists []. destruct b; [done|]. cbn in Hb. lia.
  - destruct (IH (drop 8 b)) as (cs & H1 & H2 & H3); [rewrite length_drop; lia|].
    exists (take 8 b :: cs). split_and!; [cbn; lia| |cbn; rewrite H3; apply take_drop].
    constructor; [|done]. unfold zlen. rewrite length_take. lia.
Qed.

Lemma blocks_concat f (cs : list bytes) lo n : Forall (fun c => zlen c = 8) cs ->
  (lo + n <= length cs)%nat ->
  blocks f (concat cs) (Z.of_nat lo) (Z.of_nat n) = Ret (concat (f <$> take n (drop lo cs))).
Proof.
  intros Hcs Hn. unfold blocks.
  destruct (for_upto_inv (fun i b => b = concat (f <$> take (Z.to_nat i) (drop lo cs)))
    (fun i b => blk ← zslice (concat cs) ((Z.of_nat lo + i) * 8) ((Z.of_nat lo + i + 1) * 8); Ret (b ++ f blk))
    (Z.of_nat n) []) as (b & E & ->).
  - lia.
  - done.
  - intros i b Hi ->. set (k := (lo + Z.to_nat i)%nat).
    destruct (lookup_lt_is_Some_2 cs k) as [c Hc]; [lia|].
    assert (Ez : zslice (concat cs) ((Z.of_nat lo + i) * 8) ((Z.of_nat lo + i + 1) * 8) = Ret c).
    { rewrite (concat_lookup_split _ _ _ Hc).
      assert (H8 : zlen c = 8) by exact (Forall_lookup_1 _ _ _ _ Hcs Hc).
      assert (Hp : zlen (concat (take k cs)) = (Z.of_nat lo + i) * 8).
      { rewrite (zlen_concat_size 8) by (by apply Forall_take). unfold zlen. rewrite length_take.
        rewrite Nat.min_l by lia. lia. }
      unfold zslice. rewrite !zlen_app, Hp, H8, bool_decide_eq_true_2.
      - rewrite zdrop_app_len by done. by rewrite ztake_app_len by lia.
      - pose proof (zlen_nonneg (concat (drop (S k) cs))). lia. }
    rewrite Ez. eexists. split; [done|].
    replace (Z.to_nat (i + 1)) with (S (Z.to_nat i)) by lia.
    rewrite (take_S_r _ _ c) by (by rewrite lookup_drop). rewrite fmap_app, concat_app. cbn. by rewrite app_nil_r.
  - rewrite E. by rewrite Nat2Z.id.
Qed.

Lemma copy_bytes_mid (pre old post s : bytes) : zlen old = zlen s ->
  copy_bytes (pre ++ old ++ post) (zlen pre) s = Ret (pre ++ s ++ post).
Proof.
  intros Hl. unfold copy_bytes.
  destruct (for_upto_inv (fun i b => b = pre ++ (ztake i s ++ zdrop i old) ++ post)
    (fun i b => c ← zget s i; zset b (i + zlen pre) c) (zlen s) (pre ++ old ++ post)) as (b & E & ->).
  - apply zlen_nonneg.
  - done.
  - intros i b Hi ->. destruct (lookup_lt_is_Some_2 s (Z.to_nat i)) as [c Hc]; [unfold zlen in Hi; lia|].
    destruct (lookup_lt_is_Some_2 old (Z.to_nat i)) as [o Ho]; [unfold zlen in *; lia|].
    assert (Eg : zget s i = Ret c) by (apply zget_Ret; split; [lia|done]). rewrite Eg. go_run.
    rewrite (zset_at _ (pre ++ ztake i s) (drop (S (Z.to_nat i)) old ++ post) o).
    + eexists. split; [done|]. unfold ztake, zdrop. replace (Z.to_nat (i + 1)) with (S (Z.to_nat i)) by lia.
      rewrite (take_S_r _ _ c) by done. list_assoc.
    + unfold zdrop. rewrite (drop_S old o (Z.to_nat i)) by done. list_assoc.
    + rewrite zlen_app, zlen_ztake by lia. lia.
  - rewrite E. f_equal. f_equal. unfold ztake, zdrop. rewrite take_ge, drop_ge by (unfold zlen in *; lia). by rewrite app_nil_r.
Qed.

Lemma until_zero_padded s n : 0 ∉ s -> until_zero (s ++ replicate n 0) = s.
Proof.
  induction s as [|c s IH]; intros H; [by destruct n|]. apply not_elem_of_cons in H as [H1 H2].
  cbn. replace (c =? 0) with false by lia. by rewrite IH.
Qed.

(** *** The token of a login *)

Hypothesis base64_inverse : forall s, DecodeString (EncodeToString s) = Some s.
Hypothesis base64_text : forall s, s <> [] -> exists t c, EncodeToString s = t ++ [c] /\ 33 <= c <= 126.
Hypothesis des_length : forall key b, zlen b = 8 -> zlen (des_Encrypt key b) = 8.
Hypothesis des_inverse : forall key b, zlen b = 8 -> des_Decrypt key (des_Encrypt key b) = b.

(** The plain text of a token. *)
Definition padded (user password : bytes) : bytes :=
  (user ++ replicate (24 - length user) 0) ++ (password ++ replicate (24 - length password) 0).

Definition token_ok (b token : bytes) : Prop :=
  exists cs, length cs = 6%nat /\ Forall (fun c => zlen c = 8) cs /\ b = concat cs /\
    token = EncodeToString (concat (des_Encrypt desKey <$> cs)).
(** Every cached token is that of its key. *)
Definition tokens_ok (c : cache bytes) : Prop := forall b token, c !! b = Some token -> token_ok b token.

Lemma EncodeDes_spec c user password : (length user <= 24)%nat -> (length password <= 24)%nat -> tokens_ok c ->
  exists token c', EncodeDes c user password = Ret (inl token, c') /\ tokens_ok c' /\
    token_ok (padded user password) token.
Proof.
  intros Hu Hp Hc. unfold EncodeDes.
  replace ((24 <? zlen user) || (24 <? zlen password)) with false by (unfold zlen; lia).
  pose proof (copy_bytes_mid [] (replicate (length user) 0) (replicate (48 - length user) 0) user) as E1.
  rewrite app_nil_l, <- replicate_add in E1. replace (length user + (48 - length user))%nat with 48%nat in E1 by lia.
  change (zlen []) with 0 in E1. rewrite E1 by (rewrite zlen_replicate; done). go_run. clear E1.
  pose proof (copy_bytes_mid (user ++ replicate (24 - length user) 0) (replicate (length password) 0)
    (replicate (24 - length password) 0) password) as E2.
  assert (Hz : [] ++ user ++ replicate (48 - length user) 0 =
    (user ++ replicate (24 - length user) 0) ++ replicate (length password) 0 ++ replicate (24 - length password) 0).
  { cbn. rewrite <- app_assoc, <- !replicate_add. do 2 f_equal. lia. }
  rewrite Hz. replace (zlen (user ++ replicate (24 - length user) 0)) with 24 in E2
    by (rewrite zlen_app, zlen_replicate; unfold zlen; lia).
  rewrite E2 by (rewrite zlen_replicate; done). go_run. clear E2.
  fold (padded user password).
  destruct (split_blocks 6 (padded user password)) as (cs & Hl & H8 & Hb).
  { unfold padded. rewrite !length_app, !length_replicate. lia. }
  destruct (c !! padded user password) as [token|] eqn:Ec.
  { exists token, c. split_and!; [done|done|by apply Hc]. }
  rewrite <- Hb. pose proof (blocks_concat (des_Encrypt desKey) cs 0 6 H8 ltac:(lia)) as Eb.
  change (Z.of_nat 0) with 0 in Eb. change (Z.of_nat 6) with 6 in Eb. rewrite Eb. go_run.
  rewrite drop_0, take_ge by lia.
  assert (Hok : token_ok (concat cs) (EncodeToString (concat (des_Encrypt desKey <$> cs)))) by (by exists cs).
  eexists _, _. split_and!; [done| |done].
  intros b token [[<- <-]|[_ H]]%lookup_insert_Some; [done|by apply Hc].
Qed.

Lemma DecodeDes_token user password token : (length user <= 24)%nat -> (length password <= 24)%nat ->
  0 ∉ user -> 0 ∉ password -> token_ok (padded user password) token ->
  DecodeDes token = Ret (inl (mkAuth user password)).
Proof.
  intros Hu Hp Hu0 Hp0 (cs & Hl & H8 & Hb & ->). unfold DecodeDes. rewrite base64_inverse.
  assert (H8' : Forall (fun c => zlen c = 8) (des_Encrypt desKey <$> cs)).
  { apply Forall_fmap. eapply Forall_impl; [exact H8|]. intros x Hx. by apply des_length. }
  rewrite (zlen_concat_size 8) by done. rewrite zlen_fmap. unfold zlen at 1. rewrite Hl.
  change (negb (Z.of_nat 6 * 8 =? 48)) with false. cbv iota.
  assert (Hdec : forall n lo, (lo + n <= 6)%nat -> blocks (des_Decrypt desKey) (concat (des_Encrypt desKey <$> cs)) (Z.of_nat lo) (Z.of_nat n)
     = Ret (concat (take n (drop lo cs)))).
  { intros n lo Hn. rewrite (blocks_concat _ _ lo n H8') by (rewrite length_fmap; lia).
    rewrite <- fmap_drop, <- fmap_take, <- list_fmap_compose. do 2 f_equal.
    rewrite <- (list_fmap_id (take n (drop lo cs))) at 2. apply list_fmap_ext. intros i x Hx. cbn.
    apply des_inverse. exact (Forall_lookup_1 _ _ _ _ (Forall_take _ n _ (Forall_drop _ lo _ H8)) Hx). }
  pose proof (Hdec 3%nat 0%nat ltac:(lia)) as D0. pose proof (Hdec 3%nat 3%nat ltac:(lia)) as D3.
  change (Z.of_nat 0) with 0 in D0. change (Z.of_nat 3) with 3 in D0, D3. rewrite D0. go_run. rewrite D3. go_run. do 2 f_equal.
  assert (H24 : zlen (concat (take 3 cs)) = 24).
  { rewrite (zlen_concat_size 8) by (by apply Forall_take). unfold zlen. rewrite length_take, Hl. done. }
  assert (Eq : concat (take 3 cs) ++ concat (drop 3 cs) = padded user password).
  { by rewrite <- concat_app, take_drop. }
  unfold padded in Eq. apply app_inj_1 in Eq as [E1 E2].
  - rewrite drop_0, E1. rewrite (take_ge (drop 3 cs)) by (rewrite length_drop; lia). rewrite E2.
    by rewrite !until_zero_padded.
  - rewrite length_app, length_replicate. unfold zlen in H24. lia.
Qed.

(** *** Requests *)

Lemma DecodeDes_total auth : exists x, DecodeDes auth = Ret x.
Proof.
  unfold DecodeDes. destruct (DecodeString auth) as [d|]; [|eauto].
  destruct (Z.eqb_spec (zlen d) 48) as [E|E]; [|by eexists]. cbn [negb].
  destruct (split_blocks 6 d) as (cs & Hl & H8 & <-); [unfold zlen in E; lia|].
  pose proof (blocks_concat (des_Decrypt desKey) cs 0 3 H8 ltac:(lia)) as D0.
  pose proof (blocks_concat (des_Decrypt desKey) cs 3 3 H8 ltac:(lia)) as D3.
  change (Z.of_nat 0) with 0 in D0. change (Z.of_nat 3) with 3 in D0, D3. rewrite D0. go_run. rewrite D3. by eexists.
Qed.

Lemma decode_auth_total auth : exists x, decode_auth auth = Ret x.
Proof.
  unfold decode_auth.
  assert (Hz : (6 <? zlen auth) = true -> zslice auth 6 (zlen auth) = Ret (zdrop 6 auth)).
  { intros H. unfold zslice. rewrite bool_decide_eq_true_2 by lia. f_equal. unfold ztake, zdrop.
    apply take_ge. rewrite length_drop. unfold zlen in *. lia. }
  destruct (HasPrefix auth (str "Basic") && _) eqn:E1.
  { apply andb_prop in E1 as [_ E1]. rewrite Hz by done. go_run.
    destruct (Basic.DecodeBasic _ _) as [[u p]|]; [destruct (_ || _)|]; by eexists. }
  destruct (HasPrefix auth (str "Taosd") && _) eqn:E2; [|by eexists].
  apply andb_prop in E2 as [_ E2]. rewrite Hz by done. go_run.
  destruct (DecodeDes_total (zdrop 6 auth)) as ([info|e] & ->); go_run; [destruct (_ || _)|]; by eexists.
Qed.

(** Every cached entry is what the request decodes to. *)
Definition auth_ok (c : cache authInfo) : Prop :=
  forall auth info, c !! auth = Some info -> decode_auth auth = Ret (inl info).

(** C18. [CheckAuth] never panics and its cache does not change what it answers: with any cache that
    earlier requests left, the credentials or the refusal are those of the header alone. *)
Theorem CheckAuth_cache c header : auth_ok c ->
  exists x c', CheckAuth c header = Ret (x, c') /\ auth_ok c' /\
    if zlen header =? 0 then x = inr (UnAuthResponse HTTP_NO_AUTH_INFO)
    else decode_auth (TrimSpace header) = Ret x.
Proof.
  intros Hc. unfold CheckAuth. destruct (zlen header =? 0); [by eexists _, _|].
  destruct (c !! TrimSpace header) as [info|] eqn:E.
  { eexists _, _. split_and!; [done|done|by apply Hc]. }
  destruct (decode_auth_total (TrimSpace header)) as ([info|resp] & Ed); rewrite Ed; go_run;
    eexists _, _; (split_and!; [done| |done]); [|done].
  intros k i [[<- <-]|[_ H]]%lookup_insert_Some; [done|by apply Hc].
Qed.

(** C15. The token that a login returns authenticates later requests as the same user: the pair
    [EncodeDes], [DecodeDes] with base64 around them, [TrimSpace] and both caches lose nothing, for
    every name and password of one to 24 bytes without a zero byte. *)
Theorem login_token_authenticates tc user password :
  (1 <= length user <= 24)%nat -> (1 <= length password <= 24)%nat -> 0 ∉ user -> 0 ∉ password -> tokens_ok tc ->
  exists token tc', des tc user password None false = Ret (inl token, tc') /\ tokens_ok tc' /\
    forall ac, auth_ok ac -> exists ac', auth_ok ac' /\
      CheckAuth ac (str "Taosd " ++ token) = Ret (inl (mkAuth user password), ac').
Proof.
  intros Hu Hp Hu0 Hp0 Htc. unfold des.
  replace ((zlen user =? 0) || (24 <? zlen user) || (zlen password =? 0) || (24 <? zlen password)) with false
    by (unfold zlen; lia).
  destruct (EncodeDes_spec tc user password ltac:(lia) ltac:(lia) Htc) as (token & tc' & E & Htc' & Htok).
  rewrite E. go_run. exists token, tc'. split; [done|]. split; [done|]. intros ac Hac.
  assert (Ht : exists t c, token = t ++ [c] /\ 33 <= c <= 126).
  { destruct Htok as (cs & Hl & H8 & _ & ->). apply base64_text. destruct cs as [|c0 cs]; [done|].
    apply Forall_cons_1 in H8 as [H8 _]. cbn. pose proof (des_length desKey c0 H8) as Hd.
    by destruct (des_Encrypt desKey c0). }
  destruct Ht as (t & c & Et & Hcc).
  assert (Htrim : TrimSpace (str "Taosd " ++ token) = str "Taosd " ++ token).
  { rewrite Et. change (str "Taosd " ++ t ++ [c]) with (84 :: (str "aosd " ++ t ++ [c])).
    rewrite app_assoc. apply TrimSpace_id; lia. }
  assert (Hlen : 6 < zlen (str "Taosd " ++ token)).
  { rewrite Et, !zlen_app. change (zlen (str "Taosd ")) with 6. change (zlen [c]) with 1. pose proof (zlen_nonneg t). lia. }
  assert (Hdec : decode_auth (str "Taosd " ++ token) = Ret (inl (mkAuth user password))).
  { unfold decode_auth. change (HasPrefix (str "Taosd " ++ token) (str "Basic")) with false.
    change (HasPrefix (str "Taosd " ++ token) (str "Taosd")) with true. cbn [andb].
    replace (6 <? zlen (str "Taosd " ++ token)) with true by lia.
    assert (Ez : zslice (str "Taosd " ++ token) 6 (zlen (str "Taosd " ++ token)) = Ret token).
    { unfold zslice. rewrite bool_decide_eq_true_2 by lia. rewrite zdrop_app_len by done.
      f_equal. unfold ztake. apply take_ge. rewrite zlen_app. change (zlen (str "Taosd ")) with 6. unfold zlen. lia. }
    rewrite Ez. go_run. rewrite (DecodeDes_token user password) by (done || lia). go_run. cbn [User Password].
    by replace ((zlen user =? 0) || (zlen password =? 0)) with false by (unfold zlen; lia). }
  unfold CheckAuth. replace (zlen (str "Taosd " ++ token) =? 0) with false by lia. rewrite Htrim.
  destruct (ac !! (str "Taosd " ++ token)) as [info|] eqn:Ea.
  - pose proof (Hac _ _ Ea) as E'. rewrite Hdec in E'. injection E' as <-. by exists ac.
  - rewrite Hdec. go_run. eexists. split; [|done].
    intros k i [[<- <-]|[_ H]]%lookup_insert_Some; [done|by apply Hac].
Qed.

End Auth.

(** A base64 and a cipher for examples. *)
Definition mark (s : list Z) : list Z := s ++ [65].
Definition unmark (s : list Z) : option (list Z) :=
  match last s with Some 65 => Some (take (length s - 1) s) | _ => None end.

Lemma unmark_mark s : unmark (mark s) = Some s.
Proof.
  unfold unmark, mark. rewrite last_snoc, length_app. cbn [length]. rewrite Nat.add_sub. by rewrite take_app_length.
Qed.

Lemma CheckAuth_cache_witness :
  exists x c', CheckAuth unmark (fun _ b => b) ∅ (mark (str "Basic u:p")) = Ret (x, c') /\
    auth_ok unmark (fun _ b => b) c' /\ x = inl (mkAuth (str "u") (str "p")).
Proof.
  destruct (CheckAuth_cache unmark (fun _ b => b) ∅ (mark (str "Basic u:p"))) as (x & c' & E & Hc & Hx); [done|].
  exists x, c'. split_and!; [exact E|exact Hc|]. cbn in Hx. by injection Hx.
Defined.

Lemma login_token_authenticates_witness :
  exists token tc', des mark (fun _ b => b) ∅ (str "root") (str "taosdata") None false = Ret (inl token, tc') /\
    tokens_ok mark (fun _ b => b) tc' /\
    forall ac, auth_ok unmark (fun _ b => b) ac -> exists ac', auth_ok unmark (fun _ b => b) ac' /\
      CheckAuth unmark (fun _ b => b) ac (str "Taosd " ++ token) = Ret (inl (mkAuth (str "root") (str "taosdata")), ac').
Proof.
  apply (login_token_authenticates mark unmark (fun _ b => b) (fun _ b => b)).
  - exact unmark_mark.
  - intros s _. by exists s, 65.
  - done.
  - done.
  - cbn; lia.
  - cbn; lia.
  - apply (bool_decide_eq_true_1 _); reflexivity.
  - apply (bool_decide_eq_true_1 _); reflexivity.
  - intros b token H. by rewrite lookup_empty in H.
Defined.

End Auth.
