(* ===== verification/Upload.v ===== *)
(** * Upload: inserting the rows of an uploaded file

    Models [upload] of [src/controller/rest/restful.go]: the columns of the table, the rows of the
    uploaded files as the CSV reader gives them, the text of the insert statements and their
    grouping into statements of less than a megabyte.  The database, the connection and the parts
    of the request are parameters: what [describe] and each statement return, and the streams of
    the files. *)
From S2P Require Import Prelude Utf8 Text Common JsonBuilder Csv CsvSpec RestAuth.
#[local] Open Scope Z_scope.
Import Text Csv Resp.

Module Upload.

Definition MAXSQLLength : Z := 1048576.

Definition ExecHeader : list Z :=
  str "{" ++ [34] ++ str "code" ++ [34] ++ str ":0," ++ [34] ++ str "column_meta" ++ [34] ++ str ":[["
  ++ [34] ++ str "affected_rows" ++ [34] ++ str "," ++ [34] ++ str "INT" ++ [34] ++ str ",4]],"
  ++ [34] ++ str "data" ++ [34] ++ str ":[[".
Definition ExecEnd : list Z := str "]]," ++ [34] ++ str "rows" ++ [34] ++ str ":1}".

(** [ctl.uploadReplacer]. *)
Definition uploadReplacer (b : Z) : list Z :=
  if b =? 92 then [92; 92] else if b =? 39 then [92; 39]
  else if b =? 40 then [92; 40] else if b =? 41 then [92; 41] else [b].
Definition escape (s : list Z) : list Z := replace_bytes uploadReplacer s.

Record part := mkPart { FormName : list Z; content : stream }.

(** [v.(string)]. *)
Definition as_string (v : value) : go (list Z) := match v with VString s => Ret s | _ => Panic end.

(** The columns before the tags, and which of them are quoted. *)
Fixpoint columns (data : list (list value)) : go (list bool) :=
  match data with
  | [] => Ret []
  | v :: data' =>
    note ← zget v 3; note ← as_string note;
    if bool_decide (note = str "TAG") then Ret []
    else
      typ ← zget v 1; typ ← as_string typ;
      isStr ← columns data';
      Ret (bool_decide (typ = str "TIMESTAMP" \/ typ = str "VARCHAR" \/ typ = str "NCHAR") :: isStr)
  end.

Definition cell_sql (isStr : list bool) (record : list field) (i : Z) : go (list Z) :=
  f ← zget record i;
  match f with
  | None => Ret (str "null")
  | Some s => q ← zget isStr i; Ret (if (q : bool) then [39] ++ escape s ++ [39] else s)
  end.

(** What a record adds to [colBuffer]. *)
Definition row_sql (isStr : list bool) (record : list field) : go (list Z) :=
  let columnCount := zlen isStr in
  b ← for_upto columnCount (fun i b =>
    c ← cell_sql isStr record i;
    Ret (b ++ c ++ if negb (i =? columnCount - 1) then [44] else [])) (str "(");
  Ret (b ++ [41]).

Definition tableName (db table : list Z) : list Z := [96] ++ db ++ [96; 46; 96] ++ table ++ [96].
Definition insert_prefix (name : list Z) : list Z := str "insert into " ++ name ++ str " values".

(** The buffer of the statement being built, the number of rows and the statements executed. *)
Record ust := mkUst { buffer : list Z; rows : Z; history : list (list Z) }.

Section Handler.
Context (HttpCodeServerError : bool).
(** The answer of the database to a statement, which may depend on the statements before it. *)
Context (exec : list (list Z) -> list Z -> option dberr).

Definition db_response (e : dberr) : response :=
  match e with
  | TaosErr code msg => TaosErrorResponse HttpCodeServerError code msg
  | OtherErr msg => CommonErrorResponse HttpCodeServerError msg
  end.
Definition conn_response (e : connerr) : response :=
  match e with
  | ConnForbidden => ForbiddenResponse ErrWhitelistForbidden
  | ConnTimeout => ServiceUnavailable ErrTimeout
  | ConnMaxWait => ServiceUnavailable ErrMaxWait
  | ConnErr e => db_response e
  end.

(** [TaosExecWithoutResult] of the statement in the buffer. *)
Definition run_buffer (st : ust) : ust * option dberr :=
  (mkUst (buffer st) (rows st) (history st ++ [buffer st]), exec (history st) (buffer st)).

(** One record: its row is appended, after the statement was executed when it would get too long. *)
Definition add_record (name : list Z) (isStr : list bool) (record : list field) (st : ust)
    : go (ust * option response) :=
  if zlen record <? zlen isStr then
    Ret (st, Some (CommonErrorResponse HttpCodeServerError (str "column count not enough")))
  else
    col ← row_sql isStr record;
    let st := mkUst (buffer st) (rows st + 1) (history st) in
    if MAXSQLLength <=? zlen (buffer st) + zlen col then
      match run_buffer st with
      | (st, Some e) => Ret (st, Some (db_response e))
      | (st, None) => Ret (mkUst (insert_prefix name ++ col) (rows st) (history st), None)
      end
    else Ret (mkUst (buffer st ++ col) (rows st) (history st), None).

(** The records of one file.  [Fault] stands for running out of fuel. *)
Fixpoint add_file (fuel : nat) (name : list Z) (isStr : list bool) (rd : Reader) (st : ust)
    : go (ust * option response) :=
  match fuel with
  | O => Fault
  | S f =>
    '(rd, record, err) ← Read rd;
    match err with
    | Some (ReadErr EOF) => Ret (st, None)
    | Some e => Ret (st, Some (CommonErrorResponse HttpCodeServerError (csverr_Error e)))
    | None =>
      '(st, r) ← add_record name isStr record st;
      match r with Some resp => Ret (st, Some resp) | None => add_file f name isStr rd st end
    end
  end.

Definition csv_reader (s : stream) : Reader :=
  mkReader 44 0 0 false false true s 0 0 [] [] [] [] true.

(** The parts of the request; [parts_err] is the error after the last part, if it is not the end. *)
Fixpoint add_parts (name : list Z) (isStr : list bool) (parts : list part) (parts_err : option (list Z)) (st : ust)
    : go (ust * option response) :=
  match parts with
  | [] => Ret (st, CommonErrorResponse HttpCodeServerError <$> parts_err)
  | p :: parts' =>
    if bool_decide (FormName p = str "data") then
      '(st, r) ← add_file (S (length (rest (content p)))) name isStr (csv_reader (content p)) st;
      match r with Some resp => Ret (st, Some resp) | None => add_parts name isStr parts' parts_err st end
    else add_parts name isStr parts' parts_err st
  end.

(** [upload]: the statements executed and the body of the answer, or the error response.
    [describe] is the answer to the describe statement; [parts] is an error when the request has no
    multipart body. *)
Definition upload (db table : list Z) (conn : option connerr)
    (describe : list Z -> list (list value) + dberr)
    (parts : (list part * option (list Z)) + list Z) : go (list (list Z) * (list Z + response)) :=
  if zlen db =? 0 then Ret ([], inr (BadRequestResponseWithMsg 65535 (str "db required")))
  else if zlen table =? 0 then Ret ([], inr (BadRequestResponseWithMsg 65535 (str "table required")))
  else
    let name := tableName db table in
    let sql := str "describe " ++ name in
    match conn with
    | Some e => Ret ([], inr (conn_response e))
    | None =>
      match describe sql with
      | inr e => Ret ([sql], inr (db_response e))
      | inl data =>
        isStr ← columns data;
        match parts with
        | inr msg => Ret ([sql], inr (CommonErrorResponse HttpCodeServerError msg))
        | inl (ps, parts_err) =>
          '(st, r) ← add_parts name isStr ps parts_err (mkUst (insert_prefix name) 0 [sql]);
          match r with
          | Some resp => Ret (history st, inr resp)
          | None =>
            let '(st, e) := if zlen (insert_prefix name) <? zlen (buffer st) then run_buffer st else (st, None) in
            match e with
            | Some e => Ret (history st, inr (db_response e))
            | None => Ret (history st, inl (ExecHeader ++ Itoa (rows st) ++ ExecEnd))
            end
          end
        end
      end
    end.

End Handler.

(** ** The text of a row *)

Definition cell_text (q : bool) (f : field) : list Z :=
  match f with None => str "null" | Some s => if q then [39] ++ escape s ++ [39] else s end.
Definition row_text (isStr : list bool) (record : list field) : list Z :=
  str "(" ++ Join (zip_with cell_text isStr record) [44] ++ [41].

Lemma Join_snoc cs c sep : Join (cs ++ [c]) sep = concat ((fun x => x ++ sep) <$> cs) ++ c.
Proof.
  induction cs as [|x cs IH]; [done|]. destruct cs as [|y cs].
  - cbn. by rewrite app_nil_r, <- app_assoc.
  - change (Join ((x :: y :: cs) ++ [c]) sep) with (x ++ sep ++ Join ((y :: cs) ++ [c]) sep). rewrite IH.
    cbn. list_assoc.
Qed.

Lemma row_sql_text isStr record : zlen isStr <= zlen record -> row_sql isStr record = Ret (row_text isStr record).
Proof.
  intros Hl. unfold row_sql, row_text. set (cs := zip_with cell_text isStr record).
  assert (Hcs : zlen cs = zlen isStr) by (unfold cs, zlen in *; rewrite length_zip_with; lia).
  destruct (for_upto_inv (fun i b => b = str "(" ++ if i =? zlen isStr then Join cs [44]
      else concat ((fun x => x ++ [44]) <$> take (Z.to_nat i) cs))
    (fun i b => c ← cell_sql isStr record i;
      Ret (b ++ c ++ if negb (i =? zlen isStr - 1) then [44] else [])) (zlen isStr) (str "(")) as (b & E & ->).
  - apply zlen_nonneg.
  - destruct (Z.eqb_spec 0 (zlen isStr)) as [E|E]; [|done]. by destruct cs; [|rewrite zlen_cons in Hcs; pose proof (zlen_nonneg cs); lia].
  - intros i b Hi ->.
    destruct (lookup_lt_is_Some_2 isStr (Z.to_nat i)) as [q Hq]; [unfold zlen in Hi; lia|].
    destruct (lookup_lt_is_Some_2 record (Z.to_nat i)) as [f Hf]; [unfold zlen in *; lia|].
    assert (Hc : cs !! Z.to_nat i = Some (cell_text q f)).
    { unfold cs. apply lookup_zip_with_Some. by exists q, f. }
    assert (Ec : cell_sql isStr record i = Ret (cell_text q f)).
    { unfold cell_sql. assert (Eg : zget record i = Ret f) by (apply zget_Ret; split; [lia|done]). rewrite Eg. go_run.
      destruct f as [s|]; [|done]. assert (Eq : zget isStr i = Ret q) by (apply zget_Ret; split; [lia|done]). by rewrite Eq. }
    rewrite Ec. eexists. split; [done|]. replace (i =? zlen isStr) with false by lia.
    rewrite <- app_assoc. f_equal.
    destruct (Z.eqb_spec i (zlen isStr - 1)) as [Hlast|Hlast]; cbn [negb].
    + replace (i + 1 =? zlen isStr) with true by lia. rewrite app_nil_r, <- Join_snoc.
      rewrite <- (take_S_r _ _ _ Hc). f_equal. apply take_ge. unfold zlen in *. lia.
    + replace (i + 1 =? zlen isStr) with false by lia. replace (Z.to_nat (i + 1)) with (S (Z.to_nat i)) by lia.
      rewrite (take_S_r _ _ _ Hc), fmap_app, concat_app. cbn. by rewrite app_nil_r.
  - rewrite E, Z.eqb_refl. go_run. by rewrite <- app_assoc.
Qed.

Lemma row_text_nonempty isStr record : 0 < zlen (row_text isStr record).
Proof. unfold row_text. rewrite zlen_app. change (zlen (str "(")) with 1. pose proof (zlen_nonneg (Join (zip_with cell_text isStr record) [44] ++ [41])). lia. Qed.

(** A reader of quoted SQL strings: a backslash makes the next byte stand for itself. *)
Fixpoint scan_string (s : list Z) : option (list Z * list Z) :=
  match s with
  | [] => None
  | c :: s' =>
    if c =? 39 then Some ([], s')
    else if c =? 92 then
      match s' with
      | [] => None
      | d :: s'' => (fun p => (d :: fst p, snd p)) <$> scan_string s''
      end
    else (fun p => (c :: fst p, snd p)) <$> scan_string s'
  end.

(** C19. A cell of a quoted column becomes one string literal of the statement: a reader of literals
    with backslash escapes reads back exactly the text of the cell and stops at its end, whatever
    quotes, backslashes and parentheses it has. *)
Theorem upload_quoting s tail : scan_string (escape s ++ 39 :: tail) = Some (s, tail).
Proof.
  induction s as [|c s IH]; [done|].
  change (escape (c :: s)) with (uploadReplacer c ++ escape s). unfold uploadReplacer.
  destruct (Z.eqb_spec c 92) as [->|H1]; [cbn; by rewrite IH|].
  destruct (Z.eqb_spec c 39) as [->|H2]; [cbn; by rewrite IH|].
  destruct (Z.eqb_spec c 40) as [->|H3]; [cbn; by rewrite IH|].
  destruct (Z.eqb_spec c 41) as [->|H4]; [cbn; by rewrite IH|].
  cbn [app scan_string]. replace (c =? 39) with false by lia. replace (c =? 92) with false by lia. by rewrite IH.
Qed.

(** ** The statements of an upload *)

Section Statements.
Context (HttpCodeServerError : bool) (exec : list (list Z) -> list Z -> option dberr).
Context (name : list Z) (isStr : list bool).
#[local] Abbreviation prefix := (insert_prefix name).
#[local] Abbreviation rowt := (row_text isStr).

Definition statement (chunk : list (list Z)) : list Z := prefix ++ concat chunk.
Definition small (chunk : list (list Z)) : Prop := zlen (statement chunk) < MAXSQLLength.

(** The state after the rows [done]: groups that were executed and one being built. *)
Definition grouped (h0 : list (list Z)) (done : list (list Z)) (st : ust) : Prop :=
  exists chunks cur, buffer st = statement cur /\ history st = h0 ++ (statement <$> chunks) /\
    concat chunks ++ cur = done /\ Forall (fun c => c <> [] /\ small c) chunks /\ (cur = [] \/ small cur) /\
    rows st = zlen done.

Hypothesis exec_ok : forall h s, exec h s = None.

Definition fits (record : list field) : Prop :=
  zlen isStr <= zlen record /\ zlen prefix + zlen (rowt record) < MAXSQLLength.

Lemma statement_nil : statement [] = prefix.
Proof. apply app_nil_r. Qed.

Lemma statement_snoc cur row : statement (cur ++ [row]) = statement cur ++ row.
Proof. unfold statement. rewrite concat_app. cbn. rewrite app_nil_r. list_assoc. Qed.

Lemma add_record_grouped h0 done record st : fits record -> grouped h0 done st ->
  exists st', add_record HttpCodeServerError exec name isStr record st = Ret (st', None) /\
    grouped h0 (done ++ [rowt record]) st'.
Proof.
  intros [Hlen Hfit] (chunks & cur & Hb & Hh & Hd & Hc & Hs & Hr). unfold add_record.
  replace (zlen record <? zlen isStr) with false by lia. rewrite row_sql_text by done. go_run. cbn [buffer rows history].
  destruct (Z.leb_spec MAXSQLLength (zlen (buffer st) + zlen (rowt record))) as [Hbig|Hsmall].
  - unfold run_buffer. rewrite exec_ok. cbn [buffer rows history]. eexists. split; [done|].
    exists (chunks ++ [cur]), [rowt record]. cbn [buffer rows history]. split_and!.
    + unfold statement. cbn. by rewrite app_nil_r.
    + rewrite Hh, Hb, fmap_app. cbn. list_assoc.
    + rewrite concat_app. cbn. rewrite app_nil_r. by rewrite Hd.
    + apply Forall_app. split; [done|]. constructor; [|constructor]. destruct Hs as [-> |Hs].
      * exfalso. rewrite Hb, statement_nil in Hbig. lia.
      * split; [|done]. intros ->. rewrite Hb, statement_nil in Hbig. lia.
    + right. unfold small. rewrite <- (app_nil_l [rowt record]), statement_snoc, statement_nil, zlen_app. lia.
    + rewrite zlen_snoc. lia.
  - eexists. split; [done|]. exists chunks, (cur ++ [rowt record]). cbn [buffer rows history]. split_and!; try done.
    + by rewrite statement_snoc, Hb.
    + by rewrite app_assoc, Hd.
    + right. unfold small. rewrite statement_snoc, zlen_app, <- Hb. lia.
    + rewrite zlen_snoc. lia.
Qed.

(** A file that is a document of the CSV grammar. *)
Definition csv_file (s : stream) (rs : list (list field)) : Prop :=
  fin s = EOF /\ is_bytes (rest s) /\
  (exists p, CsvSpec.document 44 0 false rs p /\
     (rest s = p /\ prefixb bom p = false \/ rest s = bom ++ p)) /\
  CsvSpec.counts 0 rs.

Lemma add_file_grouped h0 rs p : CsvSpec.document 44 0 false rs p -> Forall fits rs -> forall fuel rd done st,
  CsvSpec.unread 44 false rd p -> Comment rd = 0 -> is_bytes (rest (r rd)) ->
  CsvSpec.counts (FieldsPerRecord rd) rs -> (length (rest (r rd)) < fuel)%nat -> grouped h0 done st ->
  exists st', add_file HttpCodeServerError exec fuel name isStr rd st = Ret (st', None) /\
    grouped h0 (done ++ (rowt <$> rs)) st'.
Proof.
  revert p. induction rs as [|fs rs IH]; intros p Hdoc Hfit fuel rd done st Hu Hc Hb Hk Hf Hg;
    (destruct fuel as [|fuel]; [lia|]); cbn [add_file].
  - destruct (CsvSpec.Read_document_end 44 0 false ltac:(done) ltac:(by left) ltac:(done) rd p Hdoc Hu Hc Hb) as (rd' & ->).
    go_run. rewrite app_nil_r. eauto.
  - apply Forall_cons_1 in Hfit as [Hfit Hfits].
    destruct (CsvSpec.Read_document 44 0 false ltac:(done) ltac:(done) ltac:(by left) ltac:(done) rd fs rs p Hdoc Hu Hc Hb Hk)
      as (rd' & u & -> & Hd' & Hu' & Hc' & Hk' & Hb' & Hl'). go_run.
    destruct (add_record_grouped h0 done fs st Hfit Hg) as (st' & -> & Hg'). go_run.
    destruct (IH u Hd' Hfits fuel rd' _ st' Hu' Hc' Hb' Hk' ltac:(lia) Hg') as (st'' & E & Hg'').
    exists st''. split; [done|]. cbn [fmap list_fmap]. by replace (done ++ rowt fs :: (rowt <$> rs)) with ((done ++ [rowt fs]) ++ (rowt <$> rs)) by list_assoc.
Qed.

(** The files of a request: the parts named data, each with its records. *)
Inductive files : list part -> list (list field) -> Prop :=
| files_nil : files [] []
| files_data p ps rs rss : FormName p = str "data" -> csv_file (content p) rs -> files ps rss -> files (p :: ps) (rs ++ rss)
| files_other p ps rss : FormName p <> str "data" -> files ps rss -> files (p :: ps) rss.

Lemma add_parts_grouped h0 ps rss : files ps rss -> Forall fits rss -> forall done st, grouped h0 done st ->
  exists st', add_parts HttpCodeServerError exec name isStr ps None st = Ret (st', None) /\
    grouped h0 (done ++ (rowt <$> rss)) st'.
Proof.
  induction 1 as [|p ps rs rss Hn (Hfin & Hb & (q & Hdoc & Hq) & Hk) Hps IH|p ps rss Hn Hps IH]; intros Hfit done st Hg; cbn [add_parts].
  - exists st. by rewrite app_nil_r.
  - rewrite bool_decide_eq_true_2 by done. apply Forall_app in Hfit as [Hf1 Hf2].
    destruct (add_file_grouped h0 rs q Hdoc Hf1 (S (length (rest (content p)))) (csv_reader (content p)) done st)
      as (st' & -> & Hg'); try done; [|cbn; lia|].
    + split_and!; [done|done|done|]. right. split; [done|]. cbn. destruct Hq as [[-> ?]|Hq]; [by right|by left].
    + go_run. destruct (IH Hf2 _ st' Hg') as (st'' & E & Hg''). exists st''. split; [done|].
      by rewrite fmap_app, app_assoc.
  - rewrite bool_decide_eq_false_2 by done. by apply IH.
Qed.

End Statements.

(** C10. An upload inserts every row of its files: the statements executed after the describe
    statement are the rows in their order, cut into groups; no group is empty and every statement
    is shorter than [MAXSQLLength]; the answer gives the number of rows.  This composes the CSV
    reader with the statement builder, for all files that are CSV documents. *)
Theorem upload_inserts b exec db table describe data isStr ps rss :
  (forall h s, exec h s = None) -> db <> [] -> table <> [] ->
  describe (str "describe " ++ tableName db table) = inl data -> columns data = Ret isStr ->
  files ps rss -> Forall (fits (tableName db table) isStr) rss ->
  exists chunks,
    upload b exec db table None describe (inl (ps, None)) =
      Ret ((str "describe " ++ tableName db table) :: (statement (tableName db table) <$> chunks),
           inl (ExecHeader ++ Itoa (zlen rss) ++ ExecEnd)) /\
    concat chunks = row_text isStr <$> rss /\
    Forall (fun c => c <> [] /\ small (tableName db table) c) chunks.
Proof.
  intros Hex Hdb Htb Hdesc Hcol Hfiles Hfit. unfold upload. set (name := tableName db table) in *.
  replace (zlen db =? 0) with false by (destruct db; [done|]; rewrite zlen_cons; pose proof (zlen_nonneg db); lia).
  replace (zlen table =? 0) with false by (destruct table; [done|]; rewrite zlen_cons; pose proof (zlen_nonneg table); lia).
  cbv zeta. rewrite Hdesc, Hcol. go_run.
  destruct (add_parts_grouped b exec name isStr Hex [str "describe " ++ name] ps rss Hfiles Hfit []
    (mkUst (insert_prefix name) 0 [str "describe " ++ name])) as (st & E & Hg).
  { exists [], []. cbn. split_and!; try done.
    - unfold statement. cbn. by rewrite app_nil_r.
    - by left. }
  rewrite E. go_run. destruct Hg as (chunks & cur & Hb & Hh & Hd & Hc & Hs & Hr). cbn [app] in Hd, Hr.
  rewrite zlen_fmap in Hr.
  destruct (Z.ltb_spec (zlen (insert_prefix name)) (zlen (buffer st))) as [Hlt|Hle].
  - unfold run_buffer. rewrite Hex. cbn [history rows]. exists (chunks ++ [cur]). split_and!.
    + do 3 f_equal; [|by rewrite Hr]. rewrite Hh, Hb, fmap_app. done.
    + rewrite concat_app. cbn. by rewrite app_nil_r.
    + apply Forall_app. split; [done|]. constructor; [|constructor].
      assert (cur <> []) by (intros ->; rewrite Hb, statement_nil in Hlt; lia).
      by destruct Hs.
  - assert (cur = []) as ->.
    { destruct cur as [|row cur]; [done|]. exfalso. rewrite Hb in Hle. unfold statement in Hle. cbn [concat] in Hle.
      rewrite !zlen_app in Hle.
      assert (Hin : row ∈ row_text isStr <$> rss).
      { rewrite <- Hd. apply elem_of_app. right. left. }
      apply list_elem_of_fmap in Hin as (rec & -> & _). pose proof (row_text_nonempty isStr rec).
      pose proof (zlen_nonneg (concat cur)). lia. }
    rewrite app_nil_r in Hd. exists chunks. split_and!; [|done|done]. do 3 f_equal; [|by rewrite Hr]. exact Hh.
Qed.

(** ** Rows that do not fit, and cells that are not quoted *)

(** A row that does not fit into a statement behind its prefix is not refused: when it is the
    first of the request, the upload executes an insert statement without rows, and with a database
    that rejects such a statement it answers with that error and inserts nothing. *)
Theorem upload_oversized_row b exec db table describe data isStr p ps fs rs perr e :
  db <> [] -> table <> [] ->
  describe (str "describe " ++ tableName db table) = inl data -> columns data = Ret isStr ->
  FormName p = str "data" -> csv_file (content p) (fs :: rs) -> zlen isStr <= zlen fs ->
  MAXSQLLength <= zlen (insert_prefix (tableName db table)) + zlen (row_text isStr fs) ->
  exec [str "describe " ++ tableName db table] (insert_prefix (tableName db table)) = Some e ->
  upload b exec db table None describe (inl (p :: ps, perr)) =
    Ret ([str "describe " ++ tableName db table; insert_prefix (tableName db table)], inr (db_response b e)).
Proof.
  intros Hdb Htb Hdesc Hcol Hn (Hfin & Hb & (q & Hdoc & Hq) & Hk) Hlen Hbig Hex.
  unfold upload. set (name := tableName db table) in *.
  replace (zlen db =? 0) with false by (destruct db; [done|]; rewrite zlen_cons; pose proof (zlen_nonneg db); lia).
  replace (zlen table =? 0) with false by (destruct table; [done|]; rewrite zlen_cons; pose proof (zlen_nonneg table); lia).
  cbv zeta. rewrite Hdesc, Hcol. go_run. cbn [add_parts]. rewrite bool_decide_eq_true_2 by done.
  cbn [add_file].
  destruct (CsvSpec.Read_document 44 0 false ltac:(done) ltac:(done) ltac:(by left) ltac:(done)
    (csv_reader (content p)) fs rs q Hdoc) as (rd' & u & -> & _); try done.
  { split_and!; [done|done|done|]. right. split; [done|]. cbn. destruct Hq as [[-> ?]|Hq]; [by right|by left]. }
  go_run. unfold add_record. replace (zlen fs <? zlen isStr) with false by lia. rewrite row_sql_text by done. go_run.
  cbn [buffer rows history]. replace (MAXSQLLength <=? _) with true by (symmetry; by apply Z.leb_le).
  unfold run_buffer. cbn [buffer rows history]. by rewrite Hex.
Qed.

(** A table with a timestamp, an integer and a tag. *)
Definition ex_table : list (list value) :=
  [[VString (str "ts"); VString (str "TIMESTAMP"); VInt32 8; VString []];
   [VString (str "v"); VString (str "INT"); VInt32 4; VString []];
   [VString (str "t"); VString (str "INT"); VInt32 4; VString (str "TAG")]].
Definition ex_part (s : list Z) : part := mkPart (str "data") (mkStream s EOF).
Definition ex_describe (_ : list Z) : list (list value) + dberr := inl ex_table.
Definition ex_text : list Z := str "2020,1" ++ [10] ++ str "20'21," ++ [10].
Definition ex_rows : list (list field) := [[Some (str "2020"); Some (str "1")]; [Some (str "20'21"); None]].

Lemma ex_file : csv_file (mkStream ex_text EOF) ex_rows.
Proof.
  split_and!; [done|cbn; repeat constructor; done| |right; exists 2; split; [by left|repeat constructor]].
  exists ex_text. split; [|left; split; reflexivity]. unfold ex_text, ex_rows.
  rewrite app_assoc. apply (CsvSpec.doc_entry _ _ _ [_] (str "2020,1" ++ [10]) [_]).
  - apply CsvSpec.entry_row; [|done|by left|by left].
    apply (CsvSpec.row_cons 44 false (Some (str "2020")) (str "2020") _ (str "1")); [CsvSpec.plain_cell|].
    apply CsvSpec.row_one. CsvSpec.plain_cell.
  - rewrite <- (app_nil_r (str "20'21," ++ [10])). apply (CsvSpec.doc_entry _ _ _ [_] _ []); [|constructor].
    apply CsvSpec.entry_row; [|done|by left|by left].
    apply (CsvSpec.row_cons 44 false (Some (str "20'21")) (str "20'21") _ []); [CsvSpec.plain_cell|].
    apply CsvSpec.row_one. constructor.
Qed.

Lemma upload_inserts_witness : exists chunks,
  upload false (fun _ _ => None) (str "d") (str "t") None ex_describe (inl ([ex_part ex_text], None)) =
    Ret ((str "describe " ++ tableName (str "d") (str "t")) :: (statement (tableName (str "d") (str "t")) <$> chunks),
         inl (ExecHeader ++ Itoa (zlen ex_rows) ++ ExecEnd)) /\
  concat chunks = row_text [true; false] <$> ex_rows /\
  Forall (fun c => c <> [] /\ small (tableName (str "d") (str "t")) c) chunks.
Proof.
  apply (upload_inserts false (fun _ _ => None) (str "d") (str "t") ex_describe ex_table [true; false] [ex_part ex_text] ex_rows).
  - done.
  - done.
  - done.
  - reflexivity.
  - reflexivity.
  - rewrite <- (app_nil_r ex_rows). apply files_data; [done|exact ex_file|constructor].
  - repeat constructor; vm_compute; congruence.
Defined.

(** A file with one long cell. *)
Definition ex_wide : list (list value) := [[VString (str "c"); VString (str "NCHAR"); VInt32 8; VString []]].
Definition long_cell (n : nat) : list Z := replicate n 97.

Lemma long_cell_free n c : c <> 97 -> c ∉ long_cell n.
Proof. intros Hc H. by apply elem_of_replicate in H as [-> _]. Qed.

Lemma long_cell_escape n : escape (long_cell n) = long_cell n.
Proof. induction n as [|n IH]; [done|]. unfold long_cell in *. cbn [replicate]. change (escape (97 :: ?l)) with (97 :: escape l). by rewrite IH. Qed.

Lemma long_cell_file n : csv_file (mkStream (long_cell (S n)) EOF) [[Some (long_cell (S n))]].
Proof.
  split_and!; [done|by apply Forall_replicate| |right; exists 1; split; [by left|repeat constructor]].
  exists (long_cell (S n)). split; [|by left].
  apply CsvSpec.doc_last; [|done|by left|].
  - apply CsvSpec.row_one, CsvSpec.cell_plain. split_and!; [done|by apply long_cell_free..| |done].
    change (CsvSpec.sep 44) with [44]. apply (IndexByte_none (long_cell (S n)) 44). by apply long_cell_free.
  - intros H. apply last_Some in H as (l & H). apply (long_cell_free (S n) 13); [done|]. rewrite H. apply elem_of_app. right. left.
Qed.

Lemma long_cell_row n : zlen (row_text [true] [Some (long_cell n)]) = Z.of_nat n + 4.
Proof.
  unfold row_text. cbn [zip_with Join cell_text]. rewrite long_cell_escape.
  rewrite !zlen_app. unfold long_cell. rewrite zlen_replicate.
  change (zlen (str "(")) with 1. change (zlen [39]) with 1. change (zlen [41]) with 1. lia.
Qed.

Lemma upload_oversized_row_witness : exists n,
  upload false (fun _ s => if bool_decide (s = insert_prefix (tableName (str "d") (str "t"))) then Some (OtherErr (str "syntax error")) else None)
    (str "d") (str "t") None (fun _ => inl ex_wide) (inl ([ex_part (long_cell (S n))], None)) =
  Ret ([str "describe " ++ tableName (str "d") (str "t"); insert_prefix (tableName (str "d") (str "t"))],
       inr (db_response false (OtherErr (str "syntax error")))).
Proof.
  exists (Z.to_nat MAXSQLLength).
  apply (upload_oversized_row false _ (str "d") (str "t") (fun _ => inl ex_wide) ex_wide [true] (ex_part (long_cell (S (Z.to_nat MAXSQLLength)))) []
    [Some (long_cell (S (Z.to_nat MAXSQLLength)))] [] None).
  - done.
  - done.
  - reflexivity.
  - reflexivity.
  - reflexivity.
  - exact (long_cell_file _).
  - done.
  - rewrite long_cell_row. pose proof (zlen_nonneg (insert_prefix (tableName (str "d") (str "t")))).
    unfold MAXSQLLength. lia.
  - reflexivity.
Defined.

(** A cell of a column that is not quoted is copied into the statement as it is: a cell with a
    closing parenthesis adds a row of its own, although the answer counts one row. *)
Theorem upload_raw_cell :
  upload false (fun _ _ => None) (str "d") (str "t") None ex_describe
    (inl ([ex_part (str "2020,1)('2021'" ++ [10])], None)) =
    Ret ([str "describe `d`.`t`"; str "insert into `d`.`t` values('2020',1)('2021')"],
         inl (ExecHeader ++ str "1" ++ ExecEnd)).
Proof. vm_compute. reflexivity. Qed.

End Upload.
