(* ===== verification/WsProg.v ===== *)
(** * WsProg: programs of the WebSocket handlers

    The goroutines of a WebSocket session as programs: trees of the operations they perform on the
    shared [messageHandler], on the C client library and on the session.  The state they share,
    the execution of one operation, and the interleaving of the goroutines.

    A critical section that only reads and writes memory is one operation, enabled when its lock
    is free.  A lock that is held across a call is taken and released by operations of its own.  A
    call to the C library takes two steps, so that other goroutines run while it is in progress.
    Its answer comes from an oracle, a function from calls to answers. *)
From S2P Require Import Prelude Common Stmt2 Rest Types.
From stdpp Require Import gmap sets.
#[local] Open Scope Z_scope.

Module Ws.
Import Rest.

Definition bytes := list Z.
Notation ptr := Z (only parsing).
Definition nilp : ptr := 0.

(** An error value: [*errors.TaosError], or any other error with its text. *)
Inductive goerr := TaosErr (code : Z) (msg : bytes) | PlainErr (msg : bytes).

(** ** The data of the handler ([query_result.go]) *)

(** A slice of a buffer: the array and the length; the capacity is the length of the array. *)
Definition slice := option (nat * Z).

Record QueryResult := mkQueryResult {
  r_index : Z; TaosResult : ptr; FieldsCount : Z; Header : option RowsHeader; Size : Z;
  Block : ptr; r_precision : Z; r_buf : slice; inStmt : bool }.

Record StmtItem := mkStmtItem {
  s_index : Z; stmt : ptr; isInsert : bool; isStmt2 : bool; s_result : ptr; s_handler : Z;
  s_caller : Z }.

(** The items of the two lists of a handler. *)
Inductive obj := OResult (r : QueryResult) | OStmt (s : StmtItem).
Inductive tbl := Results | Stmts.
#[export] Instance tbl_eq_dec : EqDecision tbl.
Proof. solve_decision. Defined.

Definition obj_index (x : obj) : Z := match x with OResult r => r_index r | OStmt s => s_index s end.
Definition set_index (x : obj) (i : Z) : obj :=
  match x with
  | OResult r => OResult (mkQueryResult i (TaosResult r) (FieldsCount r) (Header r) (Size r) (Block r)
                            (r_precision r) (r_buf r) (inStmt r))
  | OStmt s => OStmt (mkStmtItem i (stmt s) (isInsert s) (isStmt2 s) (s_result s) (s_handler s) (s_caller s))
  end.

(** ** The C library and the other things a handler calls *)

(** What a call can allocate, and has to be given back. *)
Inductive kind := KConn | KResult | KStmt | KFields | KHandle.
#[export] Instance kind_eq_dec : EqDecision kind.
Proof. solve_decision. Defined.
#[export] Instance kind_countable : Countable kind.
Proof.
  refine (inj_countable' (fun k => match k with KConn => 0 | KResult => 1 | KStmt => 2 | KFields => 3 | KHandle => 4 end)
    (fun z => if z =? 0 then KConn else if z =? 1 then KResult else if z =? 2 then KStmt
              else if z =? 3 then KFields else KHandle) _).
  by intros [].
Defined.
Notation res := (kind * Z)%type (only parsing).

(** The result a callback delivers ([async.Result], [Stmt2Result]). *)
Record Result := mkResult { Res : ptr; N : Z }.
Record ExecResult := mkExec { e_Res : ptr; Affected : Z; e_N : Z }.

(** The functions of the package [wrapper], each one call of the C library, with the Go values they
    take and return; [C_WhitelistResult], [C_QueryResult], [C_FetchResult] and [C_Stmt2ExecResult]
    are the receives of the callbacks, while the library still works on the argument. *)
Inductive call : Type -> Type :=
| C_TaosConnect (user password db : bytes) : call (ptr + goerr)
| C_TaosClose (conn : ptr) : call unit
| C_TaosFetchWhitelistA (conn : ptr) : call unit
| C_WhitelistResult (conn : ptr) : call (Z * list (bytes * bytes))
| C_TaosSetNotifyCB (conn : ptr) (notify : Z) : call Z
| C_TaosSetConnMode (conn : ptr) (mode value : Z) : call Z
| C_TaosOptionsConnection (conn : ptr) (opt : Z) (value : option bytes) : call Z
| C_TaosGetCurrentDB (conn : ptr) : call (bytes * option (Z * bytes))
| C_TaosGetServerInfo (conn : ptr) : call bytes
| C_TaosQueryA (conn : ptr) (sql : bytes) (reqID : Z) : call unit
| C_QueryResult (conn : ptr) : call Result
| C_TaosError (r : ptr) : call Z
| C_TaosErrorStr (r : ptr) : call bytes
| C_TaosIsUpdateQuery (r : ptr) : call bool
| C_TaosAffectedRows (r : ptr) : call Z
| C_TaosNumFields (r : ptr) : call Z
| C_TaosFetchFields (r : ptr) (count : Z) : call RowsHeader
| C_TaosResultPrecision (r : ptr) : call Z
| C_TaosFetchRawBlockA (r : ptr) : call unit
| C_FetchResult (r : ptr) : call Result
| C_FetchLengths (r : ptr) (count : Z) : call (list Z)
| C_TaosGetRawBlock (r : ptr) : call ptr
| C_BlockMemory (r block : ptr) : call mem
| C_TaosFreeResult (r : ptr) : call unit
| C_SchemalessInsert (conn : ptr) (data : bytes) (protocol : Z) (precision : bytes) (ttl reqID : Z)
    (tableNameKey : bytes) : call (Z * ptr)
| C_TMQWriteRaw (conn : ptr) (length metaType data : Z) : call Z
| C_TMQErr2Str (code : Z) : call bytes
| C_TaosWriteRawBlock (conn : ptr) (numOfRows data : Z) (tableName : bytes) (reqID : Z) : call Z
| C_TaosWriteRawBlockWithFields (conn : ptr) (numOfRows data : Z) (tableName : bytes)
    (fields numFields reqID : Z) : call Z
| C_TaosStmtInit (conn : ptr) (reqID : Z) : call ptr
| C_TaosStmtErrStr (st : ptr) : call bytes
| C_TaosStmtPrepare (st : ptr) (sql : bytes) : call Z
| C_TaosStmtIsInsert (st : ptr) : call (bool * Z)
| C_TaosStmtSetTBName (st : ptr) (name : bytes) : call Z
| C_TaosStmtGetTagFields (st : ptr) : call (Z * Z * ptr)
| C_TaosStmtGetColFields (st : ptr) : call (Z * Z * ptr)
| C_StmtParseFields (num : Z) (fields : ptr) : call (list StmtField)
| C_TaosStmtReclaimFields (st fields : ptr) : call unit
| C_TaosStmtSetTags (st : ptr) (tags : list value) : call Z
| C_TaosStmtBindParamBatch (st : ptr) (data : list (list value)) (types : list ColumnType) : call Z
| C_TaosStmtAddBatch (st : ptr) : call Z
| C_TaosStmtExecute (st : ptr) : call Z
| C_TaosStmtAffectedRowsOnce (st : ptr) : call Z
| C_TaosStmtUseResult (st : ptr) : call ptr
| C_TaosStmtNumParams (st : ptr) : call (Z * Z)
| C_TaosStmtGetParam (st : ptr) (index : Z) : call (Z * Z * option (Z * bytes))
| C_TaosStmtClose (st : ptr) : call Z
| C_Stmt2PoolGet : call (Z * Z)
| C_Stmt2PoolPut (handle : Z) : call unit
| C_TaosStmt2Init (conn : ptr) (reqID : Z) (singleStbInsert singleTableBindOnce : bool) (handle : Z) : call ptr
| C_TaosStmt2Error (st : ptr) : call bytes
| C_TaosStmt2Prepare (st : ptr) (sql : bytes) : call Z
| C_TaosStmt2IsInsert (st : ptr) : call (bool * Z)
| C_TaosStmt2GetFields (st : ptr) : call (Z * Z * ptr)
| C_Stmt2ParseAllFields (num : Z) (fields : ptr) : call (list Stmt2AllField)
| C_TaosStmt2FreeFields (st fields : ptr) : call unit
| C_TaosStmt2Exec (st : ptr) : call Z
| C_Stmt2ExecResult (st : ptr) (caller : Z) : call ExecResult
| C_TaosStmt2BindBinary (st : ptr) (data : bytes) (colIdx : Z) : call (option goerr)
| C_TaosStmt2Close (st : ptr) : call Z
| C_GetReqID : call Z
| C_GetDuration : call Z.

(** The resources a call works on; nil stands for none. *)
Definition uses {X} (c : call X) : list res :=
  match c with
  | C_TaosClose p | C_TaosFetchWhitelistA p | C_WhitelistResult p | C_TaosSetNotifyCB p _ | C_TaosSetConnMode p _ _
  | C_TaosOptionsConnection p _ _ | C_TaosGetCurrentDB p | C_TaosGetServerInfo p | C_TaosQueryA p _ _ | C_QueryResult p
  | C_SchemalessInsert p _ _ _ _ _ _ | C_TMQWriteRaw p _ _ _ | C_TaosWriteRawBlock p _ _ _ _
  | C_TaosWriteRawBlockWithFields p _ _ _ _ _ _ | C_TaosStmtInit p _ => [(KConn, p)]
  | C_TaosStmt2Init p _ _ _ h => [(KConn, p); (KHandle, h)]
  | C_TaosError r | C_TaosErrorStr r | C_TaosIsUpdateQuery r | C_TaosAffectedRows r | C_TaosNumFields r
  | C_TaosFetchFields r _ | C_TaosResultPrecision r | C_TaosFetchRawBlockA r | C_FetchResult r | C_FetchLengths r _
  | C_TaosGetRawBlock r | C_BlockMemory r _ | C_TaosFreeResult r => [(KResult, r)]
  | C_TaosStmtErrStr s | C_TaosStmtPrepare s _ | C_TaosStmtIsInsert s | C_TaosStmtSetTBName s _
  | C_TaosStmtGetTagFields s | C_TaosStmtGetColFields s | C_TaosStmtSetTags s _
  | C_TaosStmtBindParamBatch s _ _ | C_TaosStmtAddBatch s | C_TaosStmtExecute s
  | C_TaosStmtAffectedRowsOnce s | C_TaosStmtUseResult s | C_TaosStmtNumParams s
  | C_TaosStmtGetParam s _ | C_TaosStmtClose s | C_TaosStmt2Error s | C_TaosStmt2Prepare s _
  | C_TaosStmt2IsInsert s | C_TaosStmt2GetFields s | C_TaosStmt2Exec s | C_Stmt2ExecResult s _
  | C_TaosStmt2BindBinary s _ _ | C_TaosStmt2Close s => [(KStmt, s)]
  | C_StmtParseFields _ f | C_Stmt2ParseAllFields _ f => [(KFields, f)]
  | C_TaosStmtReclaimFields s f | C_TaosStmt2FreeFields s f => [(KStmt, s); (KFields, f)]
  | C_Stmt2PoolPut h => [(KHandle, h)]
  | _ => []
  end.

(** The resource a call gives back. *)
Definition frees {X} (c : call X) : option res :=
  match c with
  | C_TaosClose p => Some (KConn, p)
  | C_TaosFreeResult r => Some (KResult, r)
  | C_TaosStmtClose s | C_TaosStmt2Close s => Some (KStmt, s)
  | C_TaosStmtReclaimFields _ f | C_TaosStmt2FreeFields _ f => Some (KFields, f)
  | C_Stmt2PoolPut h => Some (KHandle, h)
  | _ => None
  end.

(** The resource an answer hands out. *)
Definition allocs {X} (c : call X) : X -> option res :=
  match c in call X return X -> option res with
  | C_TaosConnect _ _ _ => fun x => match x with inl p => Some (KConn, p) | inr _ => None end
  | C_QueryResult _ => fun x => Some (KResult, Res x)
  | C_SchemalessInsert _ _ _ _ _ _ _ => fun x => Some (KResult, snd x)
  | C_TaosStmtInit _ _ => fun x => Some (KStmt, x)
  | C_TaosStmtGetTagFields _ | C_TaosStmtGetColFields _ | C_TaosStmt2GetFields _ =>
      fun x => if fst (fst x) =? 0 then Some (KFields, snd x) else None
  | C_Stmt2PoolGet => fun x => Some (KHandle, fst x)
  | C_TaosStmt2Init _ _ _ _ _ => fun x => Some (KStmt, x)
  | _ => fun _ => None
  end.

(** A result that belongs to its statement and goes away with it. *)
Definition stmt_result {X} (c : call X) : X -> option (ptr * ptr) :=
  match c in call X return X -> option (ptr * ptr) with
  | C_TaosStmtUseResult s => fun x => Some (x, s)
  | C_Stmt2ExecResult s _ => fun x => Some (e_Res x, s)
  | _ => fun _ => None
  end.

(** The callback of a fetch delivers the result that was fetched from, a connection that was made
    is not nil, and neither is a handle. *)
Definition answer_ok {X} (c : call X) : X -> bool :=
  match c in call X return X -> bool with
  | C_FetchResult r => fun x => Res x =? r
  | C_TaosConnect _ _ _ => fun x => match x with inl p => negb (p =? nilp) | inr _ => true end
  | C_Stmt2PoolGet => fun x => negb (fst x =? nilp)
  | _ => fun _ => true
  end.

(** ** Responses *)

(** The response structs; those with the same JSON fields share a constructor. *)
Inductive message :=
| CommonResp (code : Z) (msg action : bytes) (reqID timing : Z)
| StmtResp (code : Z) (msg action : bytes) (reqID timing stmtID : Z)
| TextResp (action : bytes) (reqID timing : Z) (text : bytes)
| UpdateResp (action : bytes) (reqID timing affectedRows : Z)
| QueryResp (action : bytes) (reqID timing id fieldsCount : Z) (header : RowsHeader) (precision : Z)
| FetchResp (action : bytes) (reqID timing id : Z) (completed : bool) (lengths : list Z) (rows : Z)
| NumFieldsResp (action : bytes) (reqID timing numFields : Z)
| SchemalessResp (action : bytes) (reqID timing affectedRows totalRows : Z)
| PrepareResp (action : bytes) (reqID timing stmtID : Z) (isInsert : bool)
| Prepare2Resp (action : bytes) (reqID timing stmtID : Z) (isInsert : bool)
    (fields : list Stmt2AllField) (fieldsCount : Z)
| ExecResp (action : bytes) (reqID timing stmtID affected : Z)
| FieldsResp (action : bytes) (reqID timing stmtID : Z) (fields : list StmtField)
| UseResultResp (action : bytes) (reqID timing stmtID resultID fieldsCount : Z) (header : RowsHeader)
    (precision : Z)
| NumParamsResp (action : bytes) (reqID timing stmtID numParams : Z)
| GetParamResp (action : bytes) (reqID timing stmtID index dataType length : Z)
| BinaryResp (data : bytes)
| BufferResp (buf : slice).

(** ** Operations and programs *)

Inductive lock := LHandler | LTable (t : tbl) | LObj (o : nat).
Inductive sem := SyncLocker | AsyncLocker.
#[export] Instance sem_eq_dec : EqDecision sem.
Proof. solve_decision. Defined.

Inductive op : Type -> Type :=
| OLock (l : lock) : op unit
| OUnlock (l : lock) : op unit
| OIsClosed : op bool                       (* [atomic.LoadUint32(&h.closed) == 1] *)
| OSetClosed : op unit                      (* [atomic.StoreUint32(&h.closed, 1)] *)
| OOnce : op bool                           (* [h.once.Do]: true for the caller that runs it *)
| OWaitAll : op unit                        (* [h.wait.Wait()] *)
| OCloseExit : op unit                      (* [close(h.exit)] *)
| OGetConn : op ptr
| OSetConn (c : ptr) : op unit
| OAdd (t : tbl) (x : obj) : op Z           (* the whole of [Add]; the index *)
| OGet (t : tbl) (index : Z) : op (option nat)   (* the whole of [Get] *)
| OFind (t : tbl) (index : Z) : op (option nat)  (* the search, under the lock of the list *)
| OAll (t : tbl) : op (list nat)
| ORemove (t : tbl) (o : nat) : op unit
| ORead (o : nat) : op obj
| OWrite (o : nat) (x : obj) : op unit
| OMakeBuf (cap : Z) : op nat
| OCapBuf (b : nat) : op Z
| OFillBuf (b : nat) (data : bytes) : op unit
| OSend (m : message) : op unit
| OPoolGet : op unit                        (* [HandlerPool.Get()] *)
| OPoolPut : op unit
| OAcquire (s : sem) : op unit
| ORelease (s : sem) : op unit
| OGoWaitSignal : op unit                   (* [go h.waitSignal(h.logger)] *)
| OPutHandles : op unit                     (* the two notification handles go back *)
| OWaitDone : op unit                       (* [h.wait.Done()] *)
| OCall {X} (c : call X) : op X.

(** [Crash] is a panic.  Nothing recovers it, so the process exits. *)
Inductive prog (A : Type) : Type :=
| Done (a : A)
| Crash
| Vis {X : Type} (e : op X) (k : X -> prog A).
Arguments Done {A} a.
Arguments Crash {A}.
Arguments Vis {A X} e k.

#[export] Instance prog_mret : MRet prog := @Done.
#[export] Instance prog_mbind : MBind prog := fun A B f =>
  fix bind (p : prog A) : prog B :=
    match p with
    | Done a => f a
    | Crash => Crash
    | Vis e k => Vis e (fun x => bind (k x))
    end.

Definition do_ {X} (e : op X) : prog X := Vis e Done.
Definition call_ {X} (c : call X) : prog X := Vis (OCall c) Done.

(** A computation on memory; a panic or a load outside the memory ends the process. *)
Definition lift {A} (x : go A) : prog A := match x with Ret a => Done a | _ => Crash end.

(** ** The shared state *)

(** A list of items: the last index given out, the items from front to back, the holder of the
    lock in write mode. *)
Record table := mkTable { t_index : Z; t_list : list nat; t_lock : option nat }.

(** Who has to give a resource back: a goroutine (also while it holds the lock of the item the
    resource is in), an item, or the handler ([h.conn]). *)
Inductive owner := Goroutine (i : nat) | Item (o : nat) | Handle.
#[export] Instance owner_eq_dec : EqDecision owner.
Proof. solve_decision. Defined.

(** [w_wait] are the goroutines counted by [h.wait], [w_objs] the items with the holders of their
    locks, [w_bufs] the arrays of the slices, [w_sent] the messages queued for the client,
    [w_pool] and [w_sems] the holders of callback handlers and of places in the limiters,
    [w_handles] whether the notification handles are taken.  The rest records what the C library
    gave out: the live resources, all there ever were, the results that belong to a statement;
    [w_drained] tells that [h.wait.Wait()] returned, when [h.conn] passes to the goroutine that
    closes the session. *)
Record world := mkWorld {
  w_closed : bool; w_once : bool; w_exit : bool; w_conn : ptr; w_hlock : option nat; w_wait : list nat;
  w_objs : list (obj * option nat); w_results : table; w_stmts : table;
  w_bufs : list bytes; w_sent : list message;
  w_pool : list nat; w_poolsize : nat; w_sems : list (sem * nat); w_semsize : nat;
  w_handles : bool;
  w_live : gmap res owner; w_ever : gset res; w_sres : gmap ptr ptr; w_drained : bool }.

Definition set_closed b w := mkWorld b (w_once w) (w_exit w) (w_conn w) (w_hlock w) (w_wait w) (w_objs w) (w_results w) (w_stmts w) (w_bufs w) (w_sent w) (w_pool w) (w_poolsize w) (w_sems w) (w_semsize w) (w_handles w) (w_live w) (w_ever w) (w_sres w) (w_drained w).
Definition set_once b w := mkWorld (w_closed w) b (w_exit w) (w_conn w) (w_hlock w) (w_wait w) (w_objs w) (w_results w) (w_stmts w) (w_bufs w) (w_sent w) (w_pool w) (w_poolsize w) (w_sems w) (w_semsize w) (w_handles w) (w_live w) (w_ever w) (w_sres w) (w_drained w).
Definition set_exit b w := mkWorld (w_closed w) (w_once w) b (w_conn w) (w_hlock w) (w_wait w) (w_objs w) (w_results w) (w_stmts w) (w_bufs w) (w_sent w) (w_pool w) (w_poolsize w) (w_sems w) (w_semsize w) (w_handles w) (w_live w) (w_ever w) (w_sres w) (w_drained w).
Definition set_conn c w := mkWorld (w_closed w) (w_once w) (w_exit w) c (w_hlock w) (w_wait w) (w_objs w) (w_results w) (w_stmts w) (w_bufs w) (w_sent w) (w_pool w) (w_poolsize w) (w_sems w) (w_semsize w) (w_handles w) (w_live w) (w_ever w) (w_sres w) (w_drained w).
Definition set_hlock l w := mkWorld (w_closed w) (w_once w) (w_exit w) (w_conn w) l (w_wait w) (w_objs w) (w_results w) (w_stmts w) (w_bufs w) (w_sent w) (w_pool w) (w_poolsize w) (w_sems w) (w_semsize w) (w_handles w) (w_live w) (w_ever w) (w_sres w) (w_drained w).
Definition set_wait l w := mkWorld (w_closed w) (w_once w) (w_exit w) (w_conn w) (w_hlock w) l (w_objs w) (w_results w) (w_stmts w) (w_bufs w) (w_sent w) (w_pool w) (w_poolsize w) (w_sems w) (w_semsize w) (w_handles w) (w_live w) (w_ever w) (w_sres w) (w_drained w).
Definition set_objs l w := mkWorld (w_closed w) (w_once w) (w_exit w) (w_conn w) (w_hlock w) (w_wait w) l (w_results w) (w_stmts w) (w_bufs w) (w_sent w) (w_pool w) (w_poolsize w) (w_sems w) (w_semsize w) (w_handles w) (w_live w) (w_ever w) (w_sres w) (w_drained w).
Definition set_bufs l w := mkWorld (w_closed w) (w_once w) (w_exit w) (w_conn w) (w_hlock w) (w_wait w) (w_objs w) (w_results w) (w_stmts w) l (w_sent w) (w_pool w) (w_poolsize w) (w_sems w) (w_semsize w) (w_handles w) (w_live w) (w_ever w) (w_sres w) (w_drained w).
Definition set_sent l w := mkWorld (w_closed w) (w_once w) (w_exit w) (w_conn w) (w_hlock w) (w_wait w) (w_objs w) (w_results w) (w_stmts w) (w_bufs w) l (w_pool w) (w_poolsize w) (w_sems w) (w_semsize w) (w_handles w) (w_live w) (w_ever w) (w_sres w) (w_drained w).
Definition set_pool l w := mkWorld (w_closed w) (w_once w) (w_exit w) (w_conn w) (w_hlock w) (w_wait w) (w_objs w) (w_results w) (w_stmts w) (w_bufs w) (w_sent w) l (w_poolsize w) (w_sems w) (w_semsize w) (w_handles w) (w_live w) (w_ever w) (w_sres w) (w_drained w).
Definition set_sems l w := mkWorld (w_closed w) (w_once w) (w_exit w) (w_conn w) (w_hlock w) (w_wait w) (w_objs w) (w_results w) (w_stmts w) (w_bufs w) (w_sent w) (w_pool w) (w_poolsize w) l (w_semsize w) (w_handles w) (w_live w) (w_ever w) (w_sres w) (w_drained w).
Definition set_handles b w := mkWorld (w_closed w) (w_once w) (w_exit w) (w_conn w) (w_hlock w) (w_wait w) (w_objs w) (w_results w) (w_stmts w) (w_bufs w) (w_sent w) (w_pool w) (w_poolsize w) (w_sems w) (w_semsize w) b (w_live w) (w_ever w) (w_sres w) (w_drained w).
Definition set_live m w := mkWorld (w_closed w) (w_once w) (w_exit w) (w_conn w) (w_hlock w) (w_wait w) (w_objs w) (w_results w) (w_stmts w) (w_bufs w) (w_sent w) (w_pool w) (w_poolsize w) (w_sems w) (w_semsize w) (w_handles w) m (w_ever w) (w_sres w) (w_drained w).
Definition set_ever m w := mkWorld (w_closed w) (w_once w) (w_exit w) (w_conn w) (w_hlock w) (w_wait w) (w_objs w) (w_results w) (w_stmts w) (w_bufs w) (w_sent w) (w_pool w) (w_poolsize w) (w_sems w) (w_semsize w) (w_handles w) (w_live w) m (w_sres w) (w_drained w).
Definition set_sres m w := mkWorld (w_closed w) (w_once w) (w_exit w) (w_conn w) (w_hlock w) (w_wait w) (w_objs w) (w_results w) (w_stmts w) (w_bufs w) (w_sent w) (w_pool w) (w_poolsize w) (w_sems w) (w_semsize w) (w_handles w) (w_live w) (w_ever w) m (w_drained w).
Definition set_drained b w := mkWorld (w_closed w) (w_once w) (w_exit w) (w_conn w) (w_hlock w) (w_wait w) (w_objs w) (w_results w) (w_stmts w) (w_bufs w) (w_sent w) (w_pool w) (w_poolsize w) (w_sems w) (w_semsize w) (w_handles w) (w_live w) (w_ever w) (w_sres w) b.
Definition get_table (t : tbl) (w : world) : table := match t with Results => w_results w | Stmts => w_stmts w end.
Definition set_table (t : tbl) (x : table) (w : world) : world :=
  let r := match t with Results => x | Stmts => w_results w end in
  let s := match t with Results => w_stmts w | Stmts => x end in
  mkWorld (w_closed w) (w_once w) (w_exit w) (w_conn w) (w_hlock w) (w_wait w) (w_objs w) r s (w_bufs w) (w_sent w) (w_pool w) (w_poolsize w) (w_sems w) (w_semsize w) (w_handles w) (w_live w) (w_ever w) (w_sres w) (w_drained w).

(** The resources an item holds. *)
Definition resources (x : obj) : list res :=
  match x with
  | OResult r => if (TaosResult r =? nilp) || inStmt r then [] else [(KResult, TaosResult r)]
  | OStmt s => if stmt s =? nilp then []
               else (KStmt, stmt s) :: (if isStmt2 s then [(KHandle, s_handler s)] else [])
  end.

Definition hand (l : list res) (x : owner) (m : gmap res owner) : gmap res owner :=
  foldr (fun r m => alter (fun _ => x) r m) m l.

(** ** One operation *)

(** [Blocked]: the goroutine has to wait.  [Bad]: what a correct program never does.  [Stuck]: the
    oracle's answer is none the library gives. *)
Inductive outcome (A : Type) := Ok (a : A) | Blocked | Bad | Stuck.
Arguments Ok {A} a.
Arguments Blocked {A}.
Arguments Bad {A}.
Arguments Stuck {A}.

Definition oracle := forall X, call X -> X.

Definition free_or_mine (l : option nat) : bool := match l with None => true | Some _ => false end.
Definition mine (i : nat) (l : option nat) : bool := match l with Some j => Nat.eqb i j | None => false end.

Definition index_is (w : world) (index : Z) (o : nat) : Prop := (obj_index ∘ fst) <$> w_objs w !! o = Some index.
#[export] Instance index_is_dec w index o : Decision (index_is w index o).
Proof. unfold index_is. apply _. Defined.

(** The search of the list for an index, from the front. *)
Definition search (w : world) (t : tbl) (index : Z) : option nat :=
  head (filter (index_is w index) (t_list (get_table t w))).

Definition exec_lock (i : nat) (l : lock) (w : world) : outcome world :=
  match l with
  | LHandler => match w_hlock w with None => Ok (set_hlock (Some i) w) | Some _ => Blocked end
  | LTable t =>
    let x := get_table t w in
    match t_lock x with None => Ok (set_table t (mkTable (t_index x) (t_list x) (Some i)) w) | Some _ => Blocked end
  | LObj o =>
    match w_objs w !! o with
    | None => Bad
    | Some (x, None) => Ok (set_live (hand (resources x) (Goroutine i) (w_live w)) (set_objs (<[o := (x, Some i)]> (w_objs w)) w))
    | Some (_, Some _) => Blocked
    end
  end.

Definition exec_unlock (i : nat) (l : lock) (w : world) : outcome world :=
  match l with
  | LHandler => if mine i (w_hlock w) then Ok (set_hlock None w) else Bad
  | LTable t =>
    let x := get_table t w in
    if mine i (t_lock x) then Ok (set_table t (mkTable (t_index x) (t_list x) None) w) else Bad
  | LObj o =>
    match w_objs w !! o with
    | None => Bad
    | Some (x, l) =>
      if mine i l then Ok (set_live (hand (resources x) (Item o) (w_live w)) (set_objs (<[o := (x, None)]> (w_objs w)) w))
      else Bad
    end
  end.

(** [Add]: the next index, and the item at the back. *)
Definition exec_add (t : tbl) (x : obj) (w : world) : outcome (Z * world) :=
  let tb := get_table t w in
  if free_or_mine (t_lock tb) then
    let index := u64 (t_index tb + 1) in
    let o := length (w_objs w) in
    let w := set_objs (w_objs w ++ [(set_index x index, None)]) w in
    let w := set_live (hand (resources x) (Item o) (w_live w)) w in
    Ok (index, set_table t (mkTable index (t_list tb ++ [o]) None) w)
  else Blocked.

(** The end of a call: the answer, with what it hands out. *)
Definition exec_answer (i : nat) {X} (c : call X) (x : X) (w : world) : outcome (X * world) :=
  if negb (answer_ok c x) then Stuck
  else
    match stmt_result c x with
    | Some (r, s) =>
      if r =? nilp then Ok (x, w)
      else if bool_decide ((KResult, r) ∈ w_ever w) || bool_decide (default s (w_sres w !! r) <> s) then Stuck
      else Ok (x, set_sres (<[r := s]> (w_sres w)) w)
    | None =>
      match allocs c x with
      | None => Ok (x, w)
      | Some r =>
        if snd r =? nilp then Ok (x, w)
        else if bool_decide (r ∈ w_ever w) || bool_decide (snd r ∈ dom (w_sres w)) then Stuck
        else Ok (x, set_live (<[r := Goroutine i]> (w_live w)) (set_ever ({[r]} ∪ w_ever w) w))
      end
    end.

Definition exec_op (i : nat) (a : oracle) {X} (e : op X) : world -> outcome (X * world) :=
  match e in op X return world -> outcome (X * world) with
  | OLock l => fun w => match exec_lock i l w with Ok w => Ok (tt, w) | Blocked => Blocked | Bad => Bad | Stuck => Stuck end
  | OUnlock l => fun w => match exec_unlock i l w with Ok w => Ok (tt, w) | Blocked => Blocked | Bad => Bad | Stuck => Stuck end
  | OIsClosed => fun w => Ok (w_closed w, w)
  | OSetClosed => fun w => Ok (tt, set_closed true w)
  | OOnce => fun w => Ok (negb (w_once w), set_once true w)
  | OWaitAll => fun w =>
      match w_wait w with
      | [] => Ok (tt, set_drained true (set_live (hand [(KConn, w_conn w)] (Goroutine i) (w_live w)) w))
      | _ => Blocked
      end
  | OCloseExit => fun w => if w_exit w then Bad else Ok (tt, set_exit true w)
  | OGetConn => fun w => Ok (w_conn w, w)
  | OSetConn c => fun w => Ok (tt, set_live (hand [(KConn, c)] Handle (w_live w)) (set_conn c w))
  | OAdd t x => exec_add t x
  | OGet t index => fun w => if free_or_mine (t_lock (get_table t w)) then Ok (search w t index, w) else Blocked
  | OFind t index => fun w => if mine i (t_lock (get_table t w)) then Ok (search w t index, w) else Bad
  | OAll t => fun w => if mine i (t_lock (get_table t w)) then Ok (t_list (get_table t w), w) else Bad
  | ORemove t o => fun w =>
      let tb := get_table t w in
      if mine i (t_lock tb) then Ok (tt, set_table t (mkTable (t_index tb) (filter (fun p => p <> o) (t_list tb)) (t_lock tb)) w)
      else Bad
  | ORead o => fun w => match w_objs w !! o with Some (x, _) => Ok (x, w) | None => Bad end
  | OWrite o x => fun w =>
      match w_objs w !! o with
      | Some (_, l) => if mine i l then Ok (tt, set_objs (<[o := (x, l)]> (w_objs w)) w) else Bad
      | None => Bad
      end
  | OMakeBuf n => fun w => Ok (length (w_bufs w), set_bufs (w_bufs w ++ [replicate (Z.to_nat n) 0]) w)
  | OCapBuf b => fun w => match w_bufs w !! b with Some l => Ok (zlen l, w) | None => Bad end
  | OFillBuf b data => fun w =>
      match w_bufs w !! b with
      | Some l => Ok (tt, set_bufs (<[b := data ++ drop (length data) l]> (w_bufs w)) w)
      | None => Bad
      end
  | OSend m => fun w => Ok (tt, set_sent (w_sent w ++ [m]) w)
  | OPoolGet => fun w => if (length (w_pool w) <? w_poolsize w)%nat then Ok (tt, set_pool (i :: w_pool w) w) else Blocked
  | OPoolPut => fun w => match list_find (i =.) (w_pool w) with
                         | Some (n, _) => Ok (tt, set_pool (delete n (w_pool w)) w)
                         | None => Bad end
  | OAcquire s => fun w => if (length (filter (fun x => fst x = s) (w_sems w)) <? w_semsize w)%nat
                           then Ok (tt, set_sems ((s, i) :: w_sems w) w) else Blocked
  | ORelease s => fun w => match list_find ((s, i) =.) (w_sems w) with
                           | Some (n, _) => Ok (tt, set_sems (delete n (w_sems w)) w)
                           | None => Bad end
  | OGoWaitSignal => fun w => Ok (tt, w)
  | OPutHandles => fun w => Ok (tt, set_handles false w)
  | OWaitDone => fun w => Ok (tt, set_wait (filter (fun j => j <> i) (w_wait w)) w)
  | OCall c => exec_answer i c (a _ c)
  end.

(** ** The goroutines of a session *)

(** Goroutines that handle a message, that close the session, and the one of [waitSignal]. *)
Inductive role := Handling | Closing | Waiting.
Record thread := mkThread { t_role : role; t_prog : prog bool; t_pend : bool }.
Inductive request := Text (data : bytes) | Binary (data : bytes).
Inductive signal := DropUser | WhitelistChange | Exit.

(** [reader]: the message the reading goroutine has found the handler open for. *)
Record sys := mkSys { w : world; threads : list thread; reader : option request }.

Definition call_of {X} (e : op X) : option (list res * option res) :=
  match e with OCall c => Some (uses c, frees c) | _ => None end.

Definition is_go {X} (e : op X) : bool := match e with OGoWaitSignal => true | _ => false end.

(** To work on [u] is to work on [r]: they are the same, or [u] is a result of the statement [r]. *)
Definition works_on (w : world) (r u : res) : bool :=
  bool_decide (u = r) ||
  (bool_decide (fst u = KResult /\ fst r = KStmt) && negb (snd u =? nilp) && bool_decide (w_sres w !! snd u = Some (snd r))).

(** Goroutine [t] is in a call that works on [r]. *)
Definition in_call (w : world) (r : res) (t : thread) : bool :=
  t_pend t && match t_prog t with
              | Vis e _ => match call_of e with Some (us, _) => existsb (works_on w r) us | None => false end
              | _ => false
              end.

Definition busy (w : world) (r : res) (i : nat) (ts : list thread) : bool :=
  existsb (fun j => negb (Nat.eqb j i) && match ts !! j with Some t => in_call w r t | None => false end)
    (seq 0 (length ts)).

(** What was handed out can be worked on until it is given back, the result of a statement until the
    statement is closed, which frees it. *)
Definition live_ok (w : world) (r : res) : bool := (snd r =? nilp) || bool_decide (r ∈ dom (w_live w)).
Definition use_ok (w : world) (r : res) : bool :=
  live_ok w r ||
  (bool_decide (fst r = KResult) && match w_sres w !! snd r with Some s => live_ok w (KStmt, s) | None => false end).

(** The start of a call: everything it works on is there, and what it frees no other call uses. *)
Definition begin_call (i : nat) (us : list res) (fr : option res) (s : sys) : outcome world :=
  if forallb (use_ok (w s)) us then
    match fr with
    | None => Ok (w s)
    | Some r =>
      if snd r =? nilp then Ok (w s)
      else if bool_decide (r ∈ dom (w_live (w s))) && negb (busy (w s) r i (threads s))
      then Ok (set_live (delete r (w_live (w s))) (w s))
      else Bad
    end
  else Bad.

Inductive action :=
| AStep (i : nat) (a : oracle)
| ARecv (m : request)
| ASpawn
| AClose
| ASignal (i : nat) (s : signal).

Section Session.
(** What is run for a message, for a signal and to close the session. *)
Context (handle : request -> prog bool) (on_signal : signal -> prog bool) (close_session : prog bool).

Definition step_thread (s : sys) (i : nat) (a : oracle) : outcome sys :=
  match threads s !! i with
  | Some (mkThread ro (Vis e k) pend) =>
    match call_of e, pend with
    | Some (us, fr), false =>
      match begin_call i us fr s with
      | Ok w' => Ok (mkSys w' (<[i := mkThread ro (Vis e k) true]> (threads s)) (reader s))
      | Blocked => Blocked | Bad => Bad | Stuck => Stuck
      end
    | _, _ =>
      match exec_op i a e (w s) with
      | Ok (x, w') =>
        let ts := <[i := mkThread ro (k x) false]> (threads s) in
        Ok (mkSys w' (if is_go e then ts ++ [mkThread Waiting (Done true) false] else ts) (reader s))
      | Blocked => Blocked | Bad => Bad | Stuck => Stuck
      end
    end
  | _ => Blocked
  end.

(** The reading goroutine checks [isClosed] and then adds to the wait group and starts a
    goroutine; a close frame, a read or write error and the disconnect each close the session; a
    signal arrives at a goroutine in the [select] of [waitSignal], [Exit] only when the channel
    is closed. *)
Definition step (s : sys) (a : action) : outcome sys :=
  match a with
  | AStep i a => step_thread s i a
  | ARecv m => match reader s with
               | Some _ => Blocked
               | None => Ok (if w_closed (w s) then s else mkSys (w s) (threads s) (Some m))
               end
  | ASpawn =>
    match reader s with
    | None => Blocked
    | Some m =>
      let i := length (threads s) in
      Ok (mkSys (set_wait (i :: w_wait (w s)) (w s)) (threads s ++ [mkThread Handling (handle m) false]) None)
    end
  | AClose => Ok (mkSys (w s) (threads s ++ [mkThread Closing close_session false]) (reader s))
  | ASignal i x =>
    match threads s !! i with
    | Some (mkThread Waiting (Done true) _) =>
      match x, w_exit (w s) with
      | Exit, false => Blocked
      | _, _ => Ok (mkSys (w s) (<[i := mkThread Waiting (on_signal x) false]> (threads s)) (reader s))
      end
    | _ => Blocked
    end
  end.

Fixpoint run (s : sys) (acts : list action) : outcome sys :=
  match acts with
  | [] => Ok s
  | a :: acts => match step s a with Ok s' => run s' acts | Blocked => Blocked | Bad => Bad | Stuck => Stuck end
  end.

End Session.

(** A new handler: the notification handles are taken, nothing else. *)
Definition newHandler (poolsize semsize : nat) : sys :=
  mkSys (mkWorld false false false nilp None [] [] (mkTable 0 [] None) (mkTable 0 [] None) [] [] []
           poolsize [] semsize true ∅ ∅ ∅ false) [] None.

End Ws.
