(* ===== verification/WsHandlers.v ===== *)
(** * WsHandlers: the handlers of the WebSocket endpoint

    The programs of [src/controller/ws/ws]: the holders of results and statements, the handler of
    each action, and the dispatch of text and binary messages; with the wrappers of
    [src/db/syncinterface/wrapper.go] and [src/db/async/row.go] they call.

    Log output is left out.  The decoding of JSON requests is a parameter, and so is the
    conversion of JSON arrays to bind values, which a third-party iterator drives. *)
From S2P Require Import Prelude Common RawBlock Stmt2 StmtConvert Rest Types WsProg.
From stdpp Require Import gmap sets pretty.
#[local] Open Scope Z_scope.

Module Handlers.
Import Rest Ws.

(** A decimal number in a message ([%d]). *)
Definition itoa (z : Z) : bytes := str (pretty z).

(** ** The limited calls ([syncinterface/wrapper.go]) *)

Definition limited {X} (s : sem) (c : call X) : prog X :=
  do_ (OAcquire s);; x ← call_ c; do_ (ORelease s);; mret x.

Definition FreeResult (r : ptr) : prog unit :=
  if r =? nilp then mret tt else limited SyncLocker (C_TaosFreeResult r).
Definition TaosClose (conn : ptr) : prog unit :=
  if conn =? nilp then mret tt else limited SyncLocker (C_TaosClose conn).
Definition TaosConnect (user password db : bytes) := limited SyncLocker (C_TaosConnect user password db).
Definition TaosStmtInitWithReqID (conn : ptr) (reqID : Z) := limited SyncLocker (C_TaosStmtInit conn reqID).
Definition TaosStmtPrepare (st : ptr) (sql : bytes) := limited SyncLocker (C_TaosStmtPrepare st sql).
Definition TaosStmtIsInsert (st : ptr) := limited SyncLocker (C_TaosStmtIsInsert st).
Definition TaosStmtSetTBName (st : ptr) (name : bytes) := limited SyncLocker (C_TaosStmtSetTBName st name).
Definition TaosStmtGetTagFields (st : ptr) := limited SyncLocker (C_TaosStmtGetTagFields st).
Definition TaosStmtSetTags (st : ptr) (tags : list value) := limited SyncLocker (C_TaosStmtSetTags st tags).
Definition TaosStmtGetColFields (st : ptr) := limited SyncLocker (C_TaosStmtGetColFields st).
Definition TaosStmtBindParamBatch (st : ptr) (data : list (list value)) (types : list ColumnType) :=
  limited SyncLocker (C_TaosStmtBindParamBatch st data types).
Definition TaosStmtAddBatch (st : ptr) := limited SyncLocker (C_TaosStmtAddBatch st).
Definition TaosStmtExecute (st : ptr) := limited SyncLocker (C_TaosStmtExecute st).
Definition TaosStmtClose (st : ptr) := limited SyncLocker (C_TaosStmtClose st).
Definition TMQWriteRaw (conn length metaType data : Z) := limited SyncLocker (C_TMQWriteRaw conn length metaType data).
Definition TaosWriteRawBlockWithReqID (conn numOfRows data : Z) (tableName : bytes) (reqID : Z) :=
  limited SyncLocker (C_TaosWriteRawBlock conn numOfRows data tableName reqID).
Definition TaosWriteRawBlockWithFieldsWithReqID (conn numOfRows data : Z) (tableName : bytes) (fields numFields reqID : Z) :=
  limited SyncLocker (C_TaosWriteRawBlockWithFields conn numOfRows data tableName fields numFields reqID).
Definition TaosGetCurrentDB (conn : ptr) := limited SyncLocker (C_TaosGetCurrentDB conn).
Definition TaosGetServerInfo (conn : ptr) := limited SyncLocker (C_TaosGetServerInfo conn).
Definition TaosStmtNumParams (st : ptr) := limited SyncLocker (C_TaosStmtNumParams st).
Definition TaosStmtGetParam (st : ptr) (index : Z) := limited SyncLocker (C_TaosStmtGetParam st index).
Definition TaosSchemalessInsert (conn : ptr) (data : bytes) (protocol : Z) (precision : bytes) (ttl reqID : Z)
    (tbNameKey : bytes) :=
  limited SyncLocker (C_SchemalessInsert conn data protocol precision ttl reqID tbNameKey).
Definition TaosStmt2Init (conn : ptr) (reqID : Z) (singleStbInsert singleTableBindOnce : bool) (handle : Z) :=
  limited SyncLocker (C_TaosStmt2Init conn reqID singleStbInsert singleTableBindOnce handle).
Definition TaosStmt2Prepare (st : ptr) (sql : bytes) := limited SyncLocker (C_TaosStmt2Prepare st sql).
Definition TaosStmt2IsInsert (st : ptr) := limited SyncLocker (C_TaosStmt2IsInsert st).
Definition TaosStmt2GetFields (st : ptr) := limited SyncLocker (C_TaosStmt2GetFields st).
Definition TaosStmt2Exec (st : ptr) := limited SyncLocker (C_TaosStmt2Exec st).
Definition TaosStmt2Close (st : ptr) := limited SyncLocker (C_TaosStmt2Close st).
Definition TaosStmt2BindBinary (st : ptr) (data : bytes) (colIdx : Z) :=
  limited SyncLocker (C_TaosStmt2BindBinary st data colIdx).
Definition TaosOptionsConnection (conn : ptr) (opt : Z) (v : option bytes) :=
  call_ (C_TaosOptionsConnection conn opt v).

(** ** The asynchronous calls ([async/row.go]) *)

Definition FreeResultAsync (r : ptr) : prog unit :=
  if r =? nilp then mret tt else limited AsyncLocker (C_TaosFreeResult r).

Definition TaosQuery (conn : ptr) (sql : bytes) (reqID : Z) : prog Result :=
  reqID ← (if reqID =? 0 then call_ C_GetReqID else mret reqID);
  limited AsyncLocker (C_TaosQueryA conn sql reqID);;
  call_ (C_QueryResult conn).

Definition TaosFetchRawBlockA (r : ptr) : prog Result :=
  limited AsyncLocker (C_TaosFetchRawBlockA r);; call_ (C_FetchResult r).

(** [wrapper.ReadColumn]: the error for a nil result comes with a nil header. *)
Definition ReadColumn (r : ptr) (count : Z) : prog (option RowsHeader) :=
  if r =? nilp then mret None else h ← call_ (C_TaosFetchFields r count); mret (Some h).

(** A field of a header: a nil header is a nil dereference. *)
Definition deref {A} (x : option A) : prog A := match x with Some a => mret a | None => Crash end.

(** ** Responses ([resp.go]) *)

Definition send (m : message) : prog unit := do_ (OSend m).
Definition GetDuration : prog Z := call_ C_GetDuration.

Definition commonErrorResponse (action : bytes) (reqID code : Z) (msg : bytes) : prog unit :=
  t ← GetDuration; send (CommonResp (Z.land code 65535) msg action reqID t).

Definition commonSuccessResponse (action : bytes) (reqID : Z) : prog unit :=
  t ← GetDuration; send (CommonResp 0 [] action reqID t).

Definition stmtErrorResponse (action : bytes) (reqID code : Z) (msg : bytes) (stmtID : Z) : prog unit :=
  t ← GetDuration; send (StmtResp (Z.land code 65535) msg action reqID t stmtID).

Definition FetchRawBlockMessage : Z := 7.

Definition fetchRawBlockErrorResponse (code : Z) (msg : bytes) (reqID resultID t : Z) : prog unit :=
  let bufLength := 8 + 8 + 2 + 8 + 8 + 4 + 4 + zlen msg + 8 + 1 in
  let buf := replicate (Z.to_nat bufLength) 0 in
  buf ← lift (
    buf ← zput buf 0 (le_bytes 8 (2 ^ 64 - 1));
    buf ← zput buf 8 (le_bytes 8 FetchRawBlockMessage);
    buf ← zput buf 16 (le_bytes 2 1);
    buf ← zput buf 18 (le_bytes 8 t);
    buf ← zput buf 26 (le_bytes 8 reqID);
    buf ← zput buf 34 (le_bytes 4 (Z.land code 65535));
    buf ← zput buf 38 (le_bytes 4 (zlen msg));
    buf ← zcopy buf 42 msg;
    buf ← zput buf (42 + zlen msg) (le_bytes 8 resultID);
    zset buf (42 + zlen msg + 8) 1);
  send (BinaryResp buf).

Definition fetchRawBlockFinishResponse (reqID resultID t : Z) : prog unit :=
  let bufLength := 8 + 8 + 2 + 8 + 8 + 4 + 4 + 8 + 1 in
  let buf := replicate (Z.to_nat bufLength) 0 in
  buf ← lift (
    buf ← zput buf 0 (le_bytes 8 (2 ^ 64 - 1));
    buf ← zput buf 8 (le_bytes 8 FetchRawBlockMessage);
    buf ← zput buf 16 (le_bytes 2 1);
    buf ← zput buf 18 (le_bytes 8 t);
    buf ← zput buf 26 (le_bytes 8 reqID);
    buf ← zput buf 34 (le_bytes 4 0);
    buf ← zput buf 38 (le_bytes 4 0);
    buf ← zput buf 42 (le_bytes 8 resultID);
    zset buf 50 1);
  send (BinaryResp buf).

(** [cap(buf) < n], then [make([]byte, 0, n)]; the array of the result. *)
Definition reserve (buf : slice) (n : Z) : prog nat :=
  match buf with
  | None => do_ (OMakeBuf n)
  | Some (b, _) => c ← do_ (OCapBuf b); if c <? n then do_ (OMakeBuf n) else mret b
  end.

(** The bytes [fetchRawBlockMessage] writes; [block] is the memory at [rawBlock]. *)
Definition raw_block_message (reqID resultID t blockLength : Z) (block : mem) : go bytes :=
  let bufLength := 8 + 8 + 2 + 8 + 8 + 4 + 4 + 8 + 1 + 4 + blockLength in
  let buf := replicate (Z.to_nat bufLength) 0 in
  buf ← zput buf 0 (le_bytes 8 (2 ^ 64 - 1));
  buf ← zput buf 8 (le_bytes 8 FetchRawBlockMessage);
  buf ← zput buf 16 (le_bytes 2 1);
  buf ← zput buf 18 (le_bytes 8 t);
  buf ← zput buf 26 (le_bytes 8 reqID);
  buf ← zput buf 34 (le_bytes 4 0);
  buf ← zput buf 38 (le_bytes 4 0);
  buf ← zput buf 42 (le_bytes 8 resultID);
  buf ← zset buf 50 0;
  buf ← zput buf 51 (le_bytes 4 blockLength);
  data ← load block 0 blockLength;
  zput buf 55 data.

Definition fetchRawBlockMessage (buf : slice) (reqID resultID t blockLength : Z) (block : mem) : prog slice :=
  data ← lift (raw_block_message reqID resultID t blockLength block);
  b ← reserve buf (zlen data);
  do_ (OFillBuf b data);;
  mret (Some (b, zlen data)).

(** ** The holders ([query_result.go]) *)

Definition set_result (r : QueryResult) (p block : ptr) : QueryResult :=
  mkQueryResult (r_index r) p (FieldsCount r) (Header r) (Size r) block (r_precision r) (r_buf r) (inStmt r).
Definition set_block (r : QueryResult) (block size : Z) : QueryResult :=
  mkQueryResult (r_index r) (TaosResult r) (FieldsCount r) (Header r) size block (r_precision r) (r_buf r) (inStmt r).
Definition set_buf (r : QueryResult) (buf : slice) : QueryResult :=
  mkQueryResult (r_index r) (TaosResult r) (FieldsCount r) (Header r) (Size r) (Block r) (r_precision r) buf (inStmt r).
Definition set_stmt (s : StmtItem) (p : ptr) : StmtItem :=
  mkStmtItem (s_index s) p (isInsert s) (isStmt2 s) (s_result s) (s_handler s) (s_caller s).
Definition set_isInsert (s : StmtItem) (b : bool) : StmtItem :=
  mkStmtItem (s_index s) (stmt s) b (isStmt2 s) (s_result s) (s_handler s) (s_caller s).
Definition set_s_result (s : StmtItem) (p : ptr) : StmtItem :=
  mkStmtItem (s_index s) (stmt s) (isInsert s) (isStmt2 s) p (s_handler s) (s_caller s).

(** The type assertion on the value of a list node. *)
Definition read_result (o : nat) : prog QueryResult :=
  x ← do_ (ORead o); match x with OResult r => mret r | OStmt _ => Crash end.
Definition read_stmt (o : nat) : prog StmtItem :=
  x ← do_ (ORead o); match x with OStmt s => mret s | OResult _ => Crash end.
Definition write_result (o : nat) (r : QueryResult) : prog unit := do_ (OWrite o (OResult r)).
Definition write_stmt (o : nat) (s : StmtItem) : prog unit := do_ (OWrite o (OStmt s)).

(** [defer o.Unlock()]. *)
Definition then_unlock {A} (o : nat) (body : prog A) : prog A :=
  x ← body; do_ (OUnlock (LObj o));; mret x.

Definition QueryResult_free (o : nat) : prog unit :=
  do_ (OLock (LObj o));;
  then_unlock o (
    r ← read_result o;
    write_result o (set_result r (TaosResult r) nilp);;
    if TaosResult r =? nilp then mret tt
    else if inStmt r then write_result o (set_result r nilp nilp)
    else
      FreeResultAsync (TaosResult r);;
      write_result o (set_result r nilp nilp)).

Definition StmtItem_free (o : nat) : prog unit :=
  do_ (OLock (LObj o));;
  then_unlock o (
    s ← read_stmt o;
    if stmt s =? nilp then mret tt
    else
      (if isStmt2 s then TaosStmt2Close (stmt s);; call_ (C_Stmt2PoolPut (s_handler s))
       else TaosStmtClose (stmt s);; mret tt);;
      write_stmt o (set_stmt s nilp)).

Definition Results_Get (index : Z) : prog (option nat) := do_ (OGet Results index).

Definition FreeResultByID (index : Z) : prog unit :=
  do_ (OLock (LTable Results));;
  o ← do_ (OFind Results index);
  match o with
  | None => mret tt
  | Some o => QueryResult_free o;; do_ (ORemove Results o)
  end;;
  do_ (OUnlock (LTable Results)).

(** The loop of [FreeAll] over the list of items. *)
Fixpoint free_items (t : tbl) (free : nat -> prog unit) (l : list nat) : prog unit :=
  match l with
  | [] => mret tt
  | o :: l => free o;; do_ (ORemove t o);; free_items t free l
  end.

Definition Results_FreeAll : prog unit :=
  do_ (OLock (LTable Results));;
  l ← do_ (OAll Results);
  free_items Results QueryResult_free l;;
  do_ (OUnlock (LTable Results)).

Definition Stmts_Get (index : Z) : prog (option nat) :=
  o ← do_ (OGet Stmts index);
  match o with
  | None => mret None
  | Some o => s ← read_stmt o; mret (if isStmt2 s then None else Some o)
  end.

Definition Stmts_GetStmt2 (index : Z) : prog (option nat) :=
  o ← do_ (OGet Stmts index);
  match o with
  | None => mret None
  | Some o => s ← read_stmt o; mret (if isStmt2 s then Some o else None)
  end.

Definition ErrStmtType : bytes := str "stmt type not match".

Definition FreeStmtByID (index : Z) (is2 : bool) : prog (option bytes) :=
  do_ (OLock (LTable Stmts));;
  o ← do_ (OFind Stmts index);
  r ← match o with
      | None => mret None
      | Some o =>
        s ← read_stmt o;
        if negb (Bool.eqb (isStmt2 s) is2) then mret (Some ErrStmtType)
        else StmtItem_free o;; do_ (ORemove Stmts o);; mret None
      end;
  do_ (OUnlock (LTable Stmts));;
  mret r.

Definition Stmts_FreeAll : prog unit :=
  do_ (OLock (LTable Stmts));;
  l ← do_ (OAll Stmts);
  free_items Stmts StmtItem_free l;;
  do_ (OUnlock (LTable Stmts)).

(** ** Requests *)

Record connRequest := mkConnRequest {
  c_ReqID : Z; User : bytes; Password : bytes; DB : bytes; Mode : option Z; TZ : bytes; App : bytes; IP : bytes }.
Record sqlRequest := mkSqlRequest { q_ReqID : Z; Sql : bytes }.
Record idRequest := mkIdRequest { i_ReqID : Z; ID : Z }.
Record schemalessRequest := mkSchemalessRequest {
  sl_ReqID : Z; Protocol : Z; sl_Precision : bytes; TTL : Z; Data : bytes; TableNameKey : bytes }.
Record stmtPrepareRequest := mkStmtPrepareRequest { p_ReqID : Z; p_StmtID : Z; p_SQL : bytes; GetFields : bool }.
Record stmtNameRequest := mkStmtNameRequest { n_ReqID : Z; n_StmtID : Z; Name : bytes }.
Record stmtDataRequest := mkStmtDataRequest { d_ReqID : Z; d_StmtID : Z; Raw : option bytes }.
Record stmtParamRequest := mkStmtParamRequest { g_ReqID : Z; g_StmtID : Z; Index : Z }.
Record stmt2InitRequest := mkStmt2InitRequest { t_ReqID : Z; SingleStbInsert : bool; SingleTableBindOnce : bool }.
Record optionsRequest := mkOptionsRequest { o_ReqID : Z; Options : list (option (Z * option bytes)) }.

(** ** Whitelists ([db/tool/notify.go]) *)

(** [errors.NewError]. *)
Definition newError (code : Z) (msg : bytes) : goerr :=
  let e := TaosErr.NewError code msg in TaosErr (TaosErr.Code e) (TaosErr.ErrStr e).

(** An [*net.IPNet]: the address and the mask. *)
Definition ipnet := (bytes * bytes)%type.

(** [IP.To4]: the four bytes of an IPv4 address, also in its 16-byte form. *)
Definition To4 (ip : bytes) : option bytes :=
  if zlen ip =? 4 then Some ip
  else if (zlen ip =? 16) && bool_decide (take 12 ip = replicate 10 0 ++ [255; 255]) then Some (drop 12 ip)
  else None.

(** [networkNumberAndMask]. *)
Definition networkNumberAndMask (n : ipnet) : option (bytes * bytes) :=
  let '(addr, mask) := n in
  ip ← match To4 addr with Some x => Some x | None => if zlen addr =? 16 then Some addr else None end;
  if zlen mask =? 4 then if zlen ip =? 4 then Some (ip, mask) else None
  else if zlen mask =? 16 then Some (ip, if zlen ip =? 4 then drop 12 mask else mask)
  else None.

(** [IPNet.Contains]. *)
Definition Contains (n : ipnet) (ip : bytes) : bool :=
  let '(nn, m) := default ([], []) (networkNumberAndMask n) in
  let ip := default ip (To4 ip) in
  (zlen ip =? zlen nn) &&
  forallb (fun x => x) (zip_with (fun (a : Z * Z) b => Z.land (fst a) (snd a) =? Z.land b (snd a)) (zip nn m) ip).

Definition CheckWhitelist (whitelist : list ipnet) (ip : bytes) : bool := existsb (fun n => Contains n ip) whitelist.

Definition GetWhitelist (conn : ptr) : prog (list ipnet + goerr) :=
  limited SyncLocker (C_TaosFetchWhitelistA conn);;
  data ← call_ (C_WhitelistResult conn);
  if negb (fst data =? 0) then e ← call_ (C_TaosErrorStr nilp); mret (inr (newError (fst data) e))
  else mret (inl (snd data)).

Definition TAOS_NOTIFY_WHITELIST_VER : Z := 1.
Definition TAOS_NOTIFY_USER_DROPPED : Z := 2.
Definition register (conn : ptr) (notify : Z) : prog (option goerr) :=
  errCode ← call_ (C_TaosSetNotifyCB conn notify);
  if negb (errCode =? 0) then e ← call_ (C_TaosErrorStr nilp); mret (Some (newError errCode e)) else mret None.
Definition RegisterChangeWhitelist (conn : ptr) := register conn TAOS_NOTIFY_WHITELIST_VER.
Definition RegisterDropUser (conn : ptr) := register conn TAOS_NOTIFY_USER_DROPPED.

(** ** The session of a client *)

Section Session.
(** The address of the client, and its text. *)
Context (ip ipStr : bytes).

Definition isClosed : prog bool := do_ OIsClosed.
Definition conn_ : prog ptr := do_ OGetConn.

Definition stop : prog unit :=
  first ← do_ OOnce;
  if (first : bool) then
    do_ OWaitAll;;
    Results_FreeAll;;
    Stmts_FreeAll;;
    conn ← conn_;
    if negb (conn =? nilp) then TaosClose conn else mret tt
  else mret tt.

Definition Close : prog unit :=
  do_ (OLock LHandler);;
  closed ← isClosed;
  (if (closed : bool) then mret tt
   else do_ OSetClosed;; stop;; do_ OCloseExit);;
  do_ (OUnlock LHandler).

(** [session.Close()] queues a close message; the lock is released before [Close] takes it. *)
Definition signalExit : prog unit := do_ (OUnlock LHandler);; Close.

(** One round of the loop of [waitSignal]; whether it goes on.  The handles go back when the
    goroutine ends. *)
Definition waitSignal (s : signal) : prog bool :=
  let leave := do_ OPutHandles;; mret false in
  match s with
  | DropUser =>
    do_ (OLock LHandler);;
    closed ← isClosed;
    if (closed : bool) then do_ (OUnlock LHandler);; leave
    else signalExit;; leave
  | WhitelistChange =>
    do_ (OLock LHandler);;
    closed ← isClosed;
    if (closed : bool) then do_ (OUnlock LHandler);; leave
    else
      conn ← conn_;
      wl ← GetWhitelist conn;
      match wl with
      | inr _ => signalExit;; leave
      | inl whitelist =>
        if negb (CheckWhitelist whitelist ip) then signalExit;; leave
        else do_ (OUnlock LHandler);; mret true
      end
  | Exit => leave
  end.

Definition handleConnectError (conn : ptr) (action : bytes) (reqID : Z) (err : goerr) : prog unit :=
  let '(code, errStr) := match err with TaosErr c m => (c, m) | PlainErr m => (65535, m) end in
  TaosClose conn;;
  commonErrorResponse action reqID code errStr.

Definition TAOS_CONN_MODE_BI : Z := 0.
Definition TSDB_OPTION_CONNECTION_TIMEZONE : Z := 1.
Definition TSDB_OPTION_CONNECTION_USER_IP : Z := 2.
Definition TSDB_OPTION_CONNECTION_USER_APP : Z := 3.

(** One option of [connect], with what follows when it is set. *)
Definition connect_option (conn : ptr) (action : bytes) (reqID : Z) (wanted : bool) (opt : Z) (v : bytes)
    (next : prog unit) : prog unit :=
  if wanted then
    code ← TaosOptionsConnection conn opt (Some v);
    if negb (code =? 0) then
      e ← call_ (C_TaosErrorStr nilp); handleConnectError conn action reqID (newError code e)
    else next
  else next.

Definition connect_mode (conn : ptr) (action : bytes) (reqID : Z) (mode : option Z) (next : prog unit) : prog unit :=
  match mode with
  | None => next
  | Some mode =>
    if mode =? TAOS_CONN_MODE_BI then
      code ← call_ (C_TaosSetConnMode conn TAOS_CONN_MODE_BI 1);
      if negb (code =? 0) then
        e ← call_ (C_TaosErrorStr nilp); handleConnectError conn action reqID (newError code e)
      else next
    else handleConnectError conn action reqID (PlainErr (str "unexpected mode:" ++ itoa mode))
  end.

(** [connect] once the lock is held and the handler is open and not connected. *)
Definition connect_new (action : bytes) (req : connRequest) : prog unit :=
  let fail conn err := handleConnectError conn action (c_ReqID req) err in
  r ← TaosConnect (User req) (Password req) (DB req);
  match r with
  | inr err => fail nilp err
  | inl conn =>
    wl ← GetWhitelist conn;
    match wl with
    | inr err => fail conn err
    | inl whitelist =>
      if negb (CheckWhitelist whitelist ip) then fail conn (PlainErr (str "ip not in whitelist"))
      else
        e ← RegisterChangeWhitelist conn;
        match e with
        | Some err => fail conn err
        | None =>
          e ← RegisterDropUser conn;
          match e with
          | Some err => fail conn err
          | None =>
            connect_mode conn action (c_ReqID req) (Mode req) (
            connect_option conn action (c_ReqID req) true TSDB_OPTION_CONNECTION_USER_IP
              (if bool_decide (IP req = []) then ipStr else IP req) (
            connect_option conn action (c_ReqID req) (negb (bool_decide (TZ req = []))) TSDB_OPTION_CONNECTION_TIMEZONE
              (TZ req) (
            connect_option conn action (c_ReqID req) (negb (bool_decide (App req = []))) TSDB_OPTION_CONNECTION_USER_APP
              (App req) (
            do_ (OSetConn conn);;
            do_ OGoWaitSignal;;
            commonSuccessResponse action (c_ReqID req)))))
          end
        end
    end
  end.

Definition connect (action : bytes) (req : connRequest) : prog unit :=
  do_ (OLock LHandler);;
  closed ← isClosed;
  (if (closed : bool) then mret tt
   else
     conn ← conn_;
     if negb (conn =? nilp) then commonErrorResponse action (c_ReqID req) 65535 (str "duplicate connections")
     else connect_new action req);;
  do_ (OUnlock LHandler).

(** ** Queries ([query.go]) *)

(** The part of [query] and of [binaryQuery] from the query on; the handler of the callbacks goes
    back at the end. *)
Definition run_query (action : bytes) (reqID : Z) (sql : bytes) : prog unit :=
  do_ OPoolGet;;
  conn ← conn_;
  result ← TaosQuery conn sql (i64 reqID);
  code ← call_ (C_TaosError (Res result));
  (if negb (code =? 0) then
     errStr ← call_ (C_TaosErrorStr (Res result));
     FreeResult (Res result);;
     commonErrorResponse action reqID code errStr
   else
     isUpdate ← call_ (C_TaosIsUpdateQuery (Res result));
     if (isUpdate : bool) then
       affectRows ← call_ (C_TaosAffectedRows (Res result));
       FreeResult (Res result);;
       t ← GetDuration;
       send (UpdateResp action reqID t affectRows)
     else
       fieldsCount ← call_ (C_TaosNumFields (Res result));
       rowsHeader ← ReadColumn (Res result) fieldsCount;
       precision ← call_ (C_TaosResultPrecision (Res result));
       idx ← do_ (OAdd Results (OResult (mkQueryResult 0 (Res result) fieldsCount rowsHeader 0 nilp precision None false)));
       t ← GetDuration;
       header ← deref rowsHeader;
       send (QueryResp action reqID t idx fieldsCount header precision));;
  do_ OPoolPut.

Definition query (action : bytes) (req : sqlRequest) : prog unit := run_query action (q_ReqID req) (Sql req).

Definition BinaryProtocolVersion1 : Z := 1.

Definition binaryQuery (action : bytes) (reqID : Z) (message : bytes) : prog unit :=
  if zlen message <? 31 then commonErrorResponse action reqID 65535 (str "message length is too short")
  else
    v ← lift (load_u 2 message 24);
    if v =? BinaryProtocolVersion1 then
      sqlLen ← lift (load_u 4 message 26);
      let remainMessageLength := zlen message - 30 in
      if remainMessageLength <? sqlLen then
        commonErrorResponse action reqID 65535
          (str "uncompleted message, sql length:" ++ itoa sqlLen ++ str ", remainMessageLength:" ++ itoa remainMessageLength)
      else
        sql ← lift (zslice message 30 (u32 (30 + sqlLen)));
        run_query action reqID sql
    else commonErrorResponse action reqID 65535 (str "unknown binary query version:" ++ itoa v).

(** ** Fetching ([fetch.go]) *)

Definition resultValidateAndLock (action : bytes) (reqID resultID : Z) : prog (option nat) :=
  item ← Results_Get resultID;
  match item with
  | None => commonErrorResponse action reqID 65535 (str "result is nil");; mret None
  | Some o =>
    do_ (OLock (LObj o));;
    r ← read_result o;
    if TaosResult r =? nilp then
      do_ (OUnlock (LObj o));;
      commonErrorResponse action reqID 65535 (str "result has been freed");; mret None
    else mret (Some o)
  end.

Definition fetch (action : bytes) (req : idRequest) : prog unit :=
  item ← resultValidateAndLock action (i_ReqID req) (ID req);
  match item with
  | None => mret tt
  | Some o =>
    do_ OPoolGet;;
    r ← read_result o;
    result ← TaosFetchRawBlockA (TaosResult r);
    (if N result =? 0 then
       do_ (OUnlock (LObj o));;
       FreeResultByID (ID req);;
       t ← GetDuration;
       send (FetchResp action (i_ReqID req) t (ID req) true [] 0)
     else if N result <? 0 then
       do_ (OUnlock (LObj o));;
       errStr ← call_ (C_TaosErrorStr (Res result));
       FreeResultByID (ID req);;
       commonErrorResponse action (i_ReqID req) (N result) errStr
     else
       length ← call_ (C_FetchLengths (TaosResult r) (FieldsCount r));
       block ← call_ (C_TaosGetRawBlock (TaosResult r));
       write_result o (set_block r block (N result));;
       do_ (OUnlock (LObj o));;
       t ← GetDuration;
       send (FetchResp action (i_ReqID req) t (ID req) false length (N result)));;
    do_ OPoolPut
  end.

Definition fetchBlock (action : bytes) (req : idRequest) : prog unit :=
  item ← resultValidateAndLock action (i_ReqID req) (ID req);
  match item with
  | None => mret tt
  | Some o =>
    then_unlock o (
      r ← read_result o;
      if Block r =? nilp then commonErrorResponse action (i_ReqID req) 65535 (str "block is nil")
      else
        m ← call_ (C_BlockMemory (TaosResult r) (Block r));
        blockLength ← lift (RawBlockGetLength m 0);
        if blockLength <=? 0 then commonErrorResponse action (i_ReqID req) 65535 (str "block length illegal")
        else
          b ← reserve (r_buf r) (blockLength + 16);
          write_result o (set_buf r (Some (b, blockLength + 16)));;
          t ← GetDuration;
          data ← lift (load m 0 blockLength);
          do_ (OFillBuf b (le_bytes 8 t ++ le_bytes 8 (ID req) ++ data));;
          send (BufferResp (Some (b, blockLength + 16))))
  end.

(** The response of [fetchRawBlock] reads [item.buf] after the lock is released. *)
Definition fetchRawBlock (reqID resultID : Z) (message : bytes) : prog unit :=
  let error code msg := t ← GetDuration; fetchRawBlockErrorResponse code msg reqID resultID (u64 t) in
  if zlen message <? 26 then error 65535 (str "message length is too short")
  else
    v ← lift (load_u 2 message 24);
    if negb (v =? BinaryProtocolVersion1) then error 65535 (str "unknown fetch raw block version")
    else
      item ← Results_Get resultID;
      match item with
      | None => error 65535 (str "result is nil")
      | Some o =>
        do_ (OLock (LObj o));;
        r ← read_result o;
        if TaosResult r =? nilp then do_ (OUnlock (LObj o));; error 65535 (str "result has been freed")
        else
          do_ OPoolGet;;
          result ← TaosFetchRawBlockA (TaosResult r);
          (if N result =? 0 then
             do_ (OUnlock (LObj o));;
             FreeResultByID resultID;;
             t ← GetDuration;
             fetchRawBlockFinishResponse reqID resultID (u64 t)
           else if N result <? 0 then
             do_ (OUnlock (LObj o));;
             errStr ← call_ (C_TaosErrorStr (Res result));
             FreeResultByID resultID;;
             error (N result) errStr
           else
             block ← call_ (C_TaosGetRawBlock (TaosResult r));
             write_result o (set_block r block (N result));;
             m ← call_ (C_BlockMemory (TaosResult r) block);
             blockLength ← lift (RawBlockGetLength m 0);
             if blockLength <=? 0 then do_ (OUnlock (LObj o));; error 65535 (str "block length illegal")
             else
               t ← GetDuration;
               buf ← fetchRawBlockMessage (r_buf r) reqID resultID (u64 t) (i32 blockLength) m;
               write_result o (set_buf (set_block r block (N result)) buf);;
               do_ (OUnlock (LObj o));;
               r ← read_result o;
               send (BufferResp (r_buf r)));;
          do_ OPoolPut
      end.

Definition numFields (action : bytes) (req : idRequest) : prog unit :=
  item ← resultValidateAndLock action (i_ReqID req) (ID req);
  match item with
  | None => mret tt
  | Some o =>
    then_unlock o (
      r ← read_result o;
      num ← call_ (C_TaosNumFields (TaosResult r));
      t ← GetDuration;
      send (NumFieldsResp action (i_ReqID req) t num))
  end.

Definition freeResult (req : idRequest) : prog unit := FreeResultByID (ID req).

(** ** Statements ([stmt.go]) *)

Definition stmtOk (action : bytes) (reqID stmtID : Z) : prog unit :=
  t ← GetDuration; send (StmtResp 0 [] action reqID t stmtID).

Definition stmtInit (action : bytes) (reqID : Z) : prog unit :=
  conn ← conn_;
  st ← TaosStmtInitWithReqID conn (i64 reqID);
  if st =? nilp then
    errStr ← call_ (C_TaosStmtErrStr st);
    commonErrorResponse action reqID 65535 errStr
  else
    idx ← do_ (OAdd Stmts (OStmt (mkStmtItem 0 st false false nilp 0 0)));
    stmtOk action reqID idx.

Definition validate (get : prog (option nat)) (isNil : bytes) (action : bytes) (reqID stmtID : Z)
    (body : nat -> StmtItem -> prog unit) : prog unit :=
  item ← get;
  match item with
  | None => stmtErrorResponse action reqID 65535 isNil stmtID
  | Some o =>
    do_ (OLock (LObj o));;
    s ← read_stmt o;
    if stmt s =? nilp then
      do_ (OUnlock (LObj o));;
      stmtErrorResponse action reqID 65535 (str "stmt has been freed") stmtID
    else then_unlock o (body o s)
  end.

(** The item, locked while [body] runs; the two errors otherwise. *)
Definition stmtValidateAndLock (action : bytes) (reqID stmtID : Z) (body : nat -> StmtItem -> prog unit) : prog unit :=
  validate (Stmts_Get stmtID) (str "stmt is nil") action reqID stmtID body.

(** [code != 0]: the error text of the statement goes out. *)
Definition stmtFail (action : bytes) (reqID code stmtID : Z) (st : ptr) : prog unit :=
  errStr ← call_ (C_TaosStmtErrStr st); stmtErrorResponse action reqID code errStr stmtID.

Definition stmtPrepare (action : bytes) (req : stmtPrepareRequest) : prog unit :=
  stmtValidateAndLock action (p_ReqID req) (p_StmtID req) (fun o s =>
    code ← TaosStmtPrepare (stmt s) (p_SQL req);
    if negb (code =? 0) then stmtFail action (p_ReqID req) code (p_StmtID req) (stmt s)
    else
      r ← TaosStmtIsInsert (stmt s);
      if negb (snd r =? 0) then stmtFail action (p_ReqID req) (snd r) (p_StmtID req) (stmt s)
      else
        write_stmt o (set_isInsert s (fst r));;
        t ← GetDuration;
        send (PrepareResp action (p_ReqID req) t (s_index s) (fst r))).

Definition stmtSetTableName (action : bytes) (req : stmtNameRequest) : prog unit :=
  stmtValidateAndLock action (n_ReqID req) (n_StmtID req) (fun o s =>
    code ← TaosStmtSetTBName (stmt s) (Name req);
    if negb (code =? 0) then stmtFail action (n_ReqID req) code (n_StmtID req) (stmt s)
    else stmtOk action (n_ReqID req) (n_StmtID req)).

(** The fields of a statement, reclaimed when [body] is done. *)
Definition with_fields (get : prog (Z * Z * ptr)) (action : bytes) (reqID stmtID : Z) (s : StmtItem)
    (body : Z -> ptr -> prog unit) : prog unit :=
  r ← get;
  let '(code, num, fields) := r in
  if negb (code =? 0) then stmtFail action reqID code stmtID (stmt s)
  else body num fields;; call_ (C_TaosStmtReclaimFields (stmt s) fields).

(** [StmtParseTag] and [StmtParseColumn]: the values, and the types with their lengths. *)
Context (StmtParseTag : option bytes -> list StmtField -> list value + bytes).
Context (StmtParseColumn : option bytes -> list StmtField -> list ColumnType ->
           (list (list value) * list ColumnType) + bytes).

Definition stmtSetTags (action : bytes) (req : stmtDataRequest) : prog unit :=
  stmtValidateAndLock action (d_ReqID req) (d_StmtID req) (fun o s =>
    with_fields (TaosStmtGetTagFields (stmt s)) action (d_ReqID req) (d_StmtID req) s (fun tagNums tagFields =>
      if tagNums =? 0 then stmtOk action (d_ReqID req) (d_StmtID req)
      else
        fields ← call_ (C_StmtParseFields tagNums tagFields);
        match StmtParseTag (Raw req) fields with
        | inr err => stmtErrorResponse action (d_ReqID req) 65535 (str "stmt parse tag json:" ++ err) (d_StmtID req)
        | inl data =>
          code ← TaosStmtSetTags (stmt s) data;
          if negb (code =? 0) then stmtFail action (d_ReqID req) code (d_StmtID req) (stmt s)
          else stmtOk action (d_ReqID req) (d_StmtID req)
        end)).

(** The loop that asks every field for its type. *)
Definition field_types (colNums : Z) (fields : list StmtField) : go (list ColumnType) :=
  mapM (fun i => f ← zget fields i; GetType f) (seqZ 0 colNums).

Definition stmtBind (action : bytes) (req : stmtDataRequest) : prog unit :=
  stmtValidateAndLock action (d_ReqID req) (d_StmtID req) (fun o s =>
    with_fields (TaosStmtGetColFields (stmt s)) action (d_ReqID req) (d_StmtID req) s (fun colNums colFields =>
      if colNums =? 0 then stmtOk action (d_ReqID req) (d_StmtID req)
      else
        fields ← call_ (C_StmtParseFields colNums colFields);
        match field_types colNums fields with
        | Ret fieldTypes =>
          match StmtParseColumn (Raw req) fields fieldTypes with
          | inr err => stmtErrorResponse action (d_ReqID req) 65535 (str "stmt parse column json:" ++ err) (d_StmtID req)
          | inl (data, fieldTypes) =>
            code ← TaosStmtBindParamBatch (stmt s) data fieldTypes;
            if negb (code =? 0) then stmtFail action (d_ReqID req) code (d_StmtID req) (stmt s)
            else stmtOk action (d_ReqID req) (d_StmtID req)
          end
        | Err e =>
          stmtErrorResponse action (d_ReqID req) 65535 (str "stmt get column type error, err:" ++ str e) (d_StmtID req)
        | _ => Crash
        end)).

Definition stmtAddBatch (action : bytes) (req : idRequest) : prog unit :=
  stmtValidateAndLock action (i_ReqID req) (ID req) (fun o s =>
    code ← TaosStmtAddBatch (stmt s);
    if negb (code =? 0) then stmtFail action (i_ReqID req) code (ID req) (stmt s)
    else stmtOk action (i_ReqID req) (ID req)).

Definition stmtExec (action : bytes) (req : idRequest) : prog unit :=
  stmtValidateAndLock action (i_ReqID req) (ID req) (fun o s =>
    code ← TaosStmtExecute (stmt s);
    if negb (code =? 0) then stmtFail action (i_ReqID req) code (ID req) (stmt s)
    else
      affected ← call_ (C_TaosStmtAffectedRowsOnce (stmt s));
      t ← GetDuration;
      send (ExecResp action (i_ReqID req) t (ID req) affected)).

Definition stmtClose (action : bytes) (req : idRequest) : prog unit :=
  err ← FreeStmtByID (ID req) false;
  match err with
  | Some e => stmtErrorResponse action (i_ReqID req) 65535 e (ID req)
  | None => mret tt
  end.

(** [stmtGetTagFields] and [stmtGetColFields], which differ in the call for the fields. *)
Definition stmtGetFields (get : ptr -> prog (Z * Z * ptr)) (action : bytes) (req : idRequest) : prog unit :=
  stmtValidateAndLock action (i_ReqID req) (ID req) (fun o s =>
    with_fields (get (stmt s)) action (i_ReqID req) (ID req) s (fun nums fields =>
      fs ← (if nums =? 0 then mret [] else call_ (C_StmtParseFields nums fields));
      t ← GetDuration;
      send (FieldsResp action (i_ReqID req) t (ID req) fs))).
Definition stmtGetTagFields := stmtGetFields TaosStmtGetTagFields.
Definition stmtGetColFields := stmtGetFields TaosStmtGetColFields.

(** A result that stays the property of the statement. *)
Definition add_stmt_result (result : ptr) (respond : Z -> Z -> RowsHeader -> Z -> prog unit) : prog unit :=
  fieldsCount ← call_ (C_TaosNumFields result);
  rowsHeader ← ReadColumn result fieldsCount;
  precision ← call_ (C_TaosResultPrecision result);
  idx ← do_ (OAdd Results (OResult (mkQueryResult 0 result fieldsCount rowsHeader 0 nilp precision None true)));
  header ← deref rowsHeader;
  respond idx fieldsCount header precision.

Definition stmtUseResult (action : bytes) (req : idRequest) : prog unit :=
  stmtValidateAndLock action (i_ReqID req) (ID req) (fun o s =>
    result ← call_ (C_TaosStmtUseResult (stmt s));
    if result =? nilp then stmtFail action (i_ReqID req) 65535 (ID req) (stmt s)
    else
      add_stmt_result result (fun idx fieldsCount header precision =>
        t ← GetDuration;
        send (UseResultResp action (i_ReqID req) t (ID req) idx fieldsCount header precision))).

Definition stmtNumParams (action : bytes) (req : idRequest) : prog unit :=
  stmtValidateAndLock action (i_ReqID req) (ID req) (fun o s =>
    r ← TaosStmtNumParams (stmt s);
    if negb (snd r =? 0) then stmtFail action (i_ReqID req) (snd r) (ID req) (stmt s)
    else
      t ← GetDuration;
      send (NumParamsResp action (i_ReqID req) t (ID req) (fst r))).

Definition stmtGetParam (action : bytes) (req : stmtParamRequest) : prog unit :=
  stmtValidateAndLock action (g_ReqID req) (g_StmtID req) (fun o s =>
    r ← TaosStmtGetParam (stmt s) (Index req);
    let '(dataType, length, err) := r in
    match err with
    | Some (code, errStr) => stmtErrorResponse action (g_ReqID req) code errStr (g_StmtID req)
    | None =>
      t ← GetDuration;
      send (GetParamResp action (g_ReqID req) t (g_StmtID req) (Index req) dataType length)
    end).

(** The block of a binary message starts at its byte 24. *)
Definition stmtBinarySetTags (action : bytes) (reqID stmtID : Z) (message : bytes) : prog unit :=
  let block := AddPointer 0 24 in
  columns ← lift (RawBlockGetNumOfCols message block);
  rows ← lift (RawBlockGetNumOfRows message block);
  if negb (rows =? 1) then stmtErrorResponse action reqID 65535 (str "rows not equal 1") stmtID
  else
    stmtValidateAndLock action reqID stmtID (fun o s =>
      with_fields (TaosStmtGetTagFields (stmt s)) action reqID stmtID s (fun tagNums tagFields =>
        if tagNums =? 0 then stmtOk action reqID stmtID
        else if negb (columns =? tagNums) then
          stmtErrorResponse action reqID 65535 (str "stmt tags count not match") stmtID
        else
          fields ← call_ (C_StmtParseFields tagNums tagFields);
          tags ← lift (Convert.BlockConvert message block rows fields None);
          reTags ← lift (mapM (fun i => c ← zget (fst tags) i; zget c 0) (seqZ 0 tagNums));
          code ← TaosStmtSetTags (stmt s) reTags;
          if negb (code =? 0) then stmtFail action reqID code stmtID (stmt s)
          else stmtOk action reqID stmtID)).

(** The type of a column of a query's parameters; [None] is unsupported. *)
Definition row_block_type (t : Z) : option ColumnType :=
  if t =? TSDB_DATA_TYPE_BOOL then Some (mkColumnType TaosBoolType 0)
  else if t =? TSDB_DATA_TYPE_TINYINT then Some (mkColumnType TaosTinyintType 0)
  else if t =? TSDB_DATA_TYPE_SMALLINT then Some (mkColumnType TaosSmallintType 0)
  else if t =? TSDB_DATA_TYPE_INT then Some (mkColumnType TaosIntType 0)
  else if t =? TSDB_DATA_TYPE_BIGINT then Some (mkColumnType TaosBigintType 0)
  else if t =? TSDB_DATA_TYPE_FLOAT then Some (mkColumnType TaosFloatType 0)
  else if t =? TSDB_DATA_TYPE_DOUBLE then Some (mkColumnType TaosDoubleType 0)
  else if t =? TSDB_DATA_TYPE_BINARY then Some (mkColumnType TaosBinaryType 0)
  else if t =? TSDB_DATA_TYPE_NCHAR then Some (mkColumnType TaosNcharType 0)
  else if t =? TSDB_DATA_TYPE_UTINYINT then Some (mkColumnType TaosUTinyintType 0)
  else if t =? TSDB_DATA_TYPE_USMALLINT then Some (mkColumnType TaosUSmallintType 0)
  else if t =? TSDB_DATA_TYPE_UINT then Some (mkColumnType TaosUIntType 0)
  else if t =? TSDB_DATA_TYPE_UBIGINT then Some (mkColumnType TaosUBigintType 0)
  else if t =? TSDB_DATA_TYPE_JSON then Some (mkColumnType TaosJsonType 0)
  else if t =? TSDB_DATA_TYPE_VARBINARY then Some (mkColumnType TaosBinaryType 0)
  else None.

Definition ErrUnsupportedDataType (t : Z) : error := ("unsupported data type " ++ pretty t)%string.

(** The loop goes on after a type that is not supported; the error is that of the last one. *)
Definition parseRowBlockInfo (m : mem) (block columns : Z) : go (list StmtField * list ColumnType) :=
  if columns <? 0 then Panic
  else
    infos ← RawBlockGetColInfo m block (replicate (Z.to_nat columns) (mkRawBlockColInfo 0 0));
    match last (filter (fun t => row_block_type t = None) (ci_ColType <$> infos)) with
    | Some t => Err (ErrUnsupportedDataType t)
    | None => Ret ((fun i => mkStmtField [] (ci_ColType i) 0 0 0) <$> infos, omap row_block_type (ci_ColType <$> infos))
    end.

Definition bind_batch (action : bytes) (reqID stmtID : Z) (s : StmtItem) (message : bytes) (rows : Z)
    (fields : list StmtField) (types : list ColumnType) : prog unit :=
  data ← lift (Convert.BlockConvert message (AddPointer 0 24) rows fields (Some types));
  code ← TaosStmtBindParamBatch (stmt s) (fst data) (default [] (snd data));
  if negb (code =? 0) then stmtFail action reqID code stmtID (stmt s)
  else stmtOk action reqID stmtID.

Definition stmtBinaryBind (action : bytes) (reqID stmtID : Z) (message : bytes) : prog unit :=
  let block := AddPointer 0 24 in
  columns ← lift (RawBlockGetNumOfCols message block);
  rows ← lift (RawBlockGetNumOfRows message block);
  stmtValidateAndLock action reqID stmtID (fun o s =>
    if isInsert s then
      with_fields (TaosStmtGetColFields (stmt s)) action reqID stmtID s (fun colNums colFields =>
        if colNums =? 0 then stmtOk action reqID stmtID
        else
          fields ← call_ (C_StmtParseFields colNums colFields);
          match field_types colNums fields with
          | Ret fieldTypes =>
            if negb (columns =? colNums) then
              stmtErrorResponse action reqID 65535 (str "stmt column count not match") stmtID
            else bind_batch action reqID stmtID s message rows fields fieldTypes
          | Err e =>
            stmtErrorResponse action reqID 65535 (str "stmt get column type error, err:" ++ str e) stmtID
          | _ => Crash
          end)
    else
      match parseRowBlockInfo message block columns with
      | Ret (fields, types) => bind_batch action reqID stmtID s message rows fields types
      | Err e => stmtErrorResponse action reqID 65535 (str "parse row block info error, err:" ++ str e) stmtID
      | _ => Crash
      end).

(** ** Statements of the second interface ([stmt2.go]) *)

Definition stmt2Init (action : bytes) (req : stmt2InitRequest) : prog unit :=
  hc ← call_ C_Stmt2PoolGet;
  conn ← conn_;
  st ← TaosStmt2Init conn (i64 (t_ReqID req)) (SingleStbInsert req) (SingleTableBindOnce req) (fst hc);
  if st =? nilp then
    call_ (C_Stmt2PoolPut (fst hc));;
    errStr ← call_ (C_TaosStmtErrStr st);
    commonErrorResponse action (t_ReqID req) 65535 errStr
  else
    idx ← do_ (OAdd Stmts (OStmt (mkStmtItem 0 st false true nilp (fst hc) (snd hc))));
    stmtOk action (t_ReqID req) idx.

Definition stmt2ValidateAndLock (action : bytes) (reqID stmtID : Z) (body : nat -> StmtItem -> prog unit) : prog unit :=
  validate (Stmts_GetStmt2 stmtID) (str "stmt2 is nil") action reqID stmtID body.

Definition stmt2Fail (action : bytes) (reqID code stmtID : Z) (st : ptr) : prog unit :=
  errStr ← call_ (C_TaosStmt2Error st); stmtErrorResponse action reqID code errStr stmtID.

Definition stmt2Prepare (action : bytes) (req : stmtPrepareRequest) : prog unit :=
  stmt2ValidateAndLock action (p_ReqID req) (p_StmtID req) (fun o s =>
    code ← TaosStmt2Prepare (stmt s) (p_SQL req);
    if negb (code =? 0) then stmt2Fail action (p_ReqID req) code (p_StmtID req) (stmt s)
    else
      r ← TaosStmt2IsInsert (stmt s);
      if negb (snd r =? 0) then stmt2Fail action (p_ReqID req) (snd r) (p_StmtID req) (stmt s)
      else
        write_stmt o (set_isInsert s (fst r));;
        if GetFields req then
          f ← TaosStmt2GetFields (stmt s);
          let '(code, count, fields) := f in
          if negb (code =? 0) then stmt2Fail action (p_ReqID req) code (p_StmtID req) (stmt s)
          else
            stbFields ← call_ (C_Stmt2ParseAllFields count fields);
            t ← GetDuration;
            send (Prepare2Resp action (p_ReqID req) t (p_StmtID req) (fst r) stbFields count);;
            call_ (C_TaosStmt2FreeFields (stmt s) fields)
        else
          t ← GetDuration;
          send (Prepare2Resp action (p_ReqID req) t (p_StmtID req) (fst r) [] 0)).

Definition stmt2Exec (action : bytes) (req : idRequest) : prog unit :=
  stmt2ValidateAndLock action (i_ReqID req) (ID req) (fun o s =>
    code ← TaosStmt2Exec (stmt s);
    if negb (code =? 0) then stmtFail action (i_ReqID req) code (ID req) (stmt s)
    else
      result ← call_ (C_Stmt2ExecResult (stmt s) (s_caller s));
      if e_N result <? 0 then stmtFail action (i_ReqID req) (e_N result) (ID req) (stmt s)
      else
        write_stmt o (set_s_result s (e_Res result));;
        t ← GetDuration;
        send (ExecResp action (i_ReqID req) t (ID req) (Affected result))).

Definition stmt2UseResult (action : bytes) (req : idRequest) : prog unit :=
  stmt2ValidateAndLock action (i_ReqID req) (ID req) (fun o s =>
    add_stmt_result (s_result s) (fun idx fieldsCount header precision =>
      t ← GetDuration;
      send (UseResultResp action (i_ReqID req) t (ID req) idx fieldsCount header precision))).

Definition stmt2Close (action : bytes) (req : idRequest) : prog unit :=
  err ← FreeStmtByID (ID req) true;
  match err with
  | Some e => stmtErrorResponse action (i_ReqID req) 65535 e (ID req)
  | None => stmtOk action (i_ReqID req) (ID req)
  end.

Definition Stmt2BindProtocolVersion1 : Z := 1.

Definition stmt2BinaryBind (action : bytes) (reqID stmtID : Z) (message : bytes) : prog unit :=
  if zlen message <? 30 then stmtErrorResponse action reqID 65535 (str "message length is too short") stmtID
  else
    v ← lift (load_u 2 message 24);
    if negb (v =? Stmt2BindProtocolVersion1) then
      stmtErrorResponse action reqID 65535 (str "unknown stmt2 bind version") stmtID
    else
      colIndex ← lift (load_s 4 message 26);
      stmt2ValidateAndLock action reqID stmtID (fun o s =>
        err ← TaosStmt2BindBinary (stmt s) (drop 30 message) colIndex;
        match err with
        | Some (TaosErr code m) => stmtErrorResponse action reqID code m stmtID
        | Some (PlainErr m) => stmtErrorResponse action reqID 65535 m stmtID
        | None => stmtOk action reqID stmtID
        end).

(** ** Schemaless and raw writes ([schemaless.go], [raw.go]) *)

Definition schemalessWrite (action : bytes) (req : schemalessRequest) : prog unit :=
  if Protocol req =? 0 then
    commonErrorResponse action (sl_ReqID req) 65535 (str "schemaless write protocol is null")
  else
    conn ← conn_;
    r ← TaosSchemalessInsert conn (Data req) (Protocol req) (sl_Precision req) (TTL req) (i64 (sl_ReqID req)) (TableNameKey req);
    let '(totalRows, result) := r in
    code ← call_ (C_TaosError result);
    (if negb (code =? 0) then
       errStr ← call_ (C_TaosErrorStr result);
       commonErrorResponse action (sl_ReqID req) code errStr
     else
       affectedRows ← call_ (C_TaosAffectedRows result);
       t ← GetDuration;
       send (SchemalessResp action (sl_ReqID req) t affectedRows totalRows));;
    FreeResult result.

(** The response of a raw write. *)
Definition raw_response (action : bytes) (reqID code : Z) : prog unit :=
  if negb (code =? 0) then
    errStr ← call_ (C_TMQErr2Str (i32 code)); commonErrorResponse action reqID code errStr
  else commonSuccessResponse action reqID.

Definition binaryTMQRawMessage (action : bytes) (reqID : Z) (message : bytes) : prog unit :=
  length ← lift (load_u 4 message (AddPointer 0 24));
  metaType ← lift (load_u 2 message (AddPointer 0 28));
  let data := AddPointer 0 30 in
  conn ← conn_;
  code ← TMQWriteRaw conn length metaType data;
  raw_response action reqID code.

(** The offset of the block is computed in [uint16]. *)
Definition binaryRawBlockMessage (action : bytes) (reqID : Z) (message : bytes) : prog unit :=
  numOfRows ← lift (load_s 4 message (AddPointer 0 24));
  tableNameLength ← lift (load_u 2 message (AddPointer 0 28));
  tableName ← lift (load message 30 tableNameLength);
  let rawBlock := AddPointer 0 (u16 (30 + tableNameLength)) in
  conn ← conn_;
  code ← TaosWriteRawBlockWithReqID conn numOfRows rawBlock tableName (i64 reqID);
  raw_response action reqID code.

Definition binaryRawBlockMessageWithFields (action : bytes) (reqID : Z) (message : bytes) : prog unit :=
  numOfRows ← lift (load_s 4 message (AddPointer 0 24));
  tableNameLength ← lift (load_u 2 message (AddPointer 0 28));
  tableName ← lift (load message 30 tableNameLength);
  let rawBlock := AddPointer 0 (30 + tableNameLength) in
  blockLength ← lift (RawBlockGetLength message rawBlock);
  numOfColumn ← lift (RawBlockGetNumOfCols message rawBlock);
  let fieldsBlock := AddPointer 0 (30 + tableNameLength + blockLength) in
  conn ← conn_;
  code ← TaosWriteRawBlockWithFieldsWithReqID conn numOfRows rawBlock tableName fieldsBlock numOfColumn (i64 reqID);
  raw_response action reqID code.

(** ** The rest ([misc.go]) *)

Definition getCurrentDB (action : bytes) (reqID : Z) : prog unit :=
  conn ← conn_;
  r ← TaosGetCurrentDB conn;
  match snd r with
  | Some (code, errStr) =>
    commonErrorResponse action reqID code (TaosErr.Error (TaosErr.mkTaosError code errStr))
  | None => t ← GetDuration; send (TextResp action reqID t (fst r))
  end.

Definition getServerInfo (action : bytes) (reqID : Z) : prog unit :=
  conn ← conn_;
  serverInfo ← TaosGetServerInfo conn;
  t ← GetDuration; send (TextResp action reqID t serverInfo).

Context (TaosClientVersion : bytes).
Definition version (action : bytes) (reqID : Z) : prog unit :=
  t ← GetDuration; send (TextResp action reqID t TaosClientVersion).

(** The elements of the list are pointers; [None] is nil. *)
Fixpoint set_options (conn : ptr) (action : bytes) (reqID : Z) (options : list (option (Z * option bytes))) : prog unit :=
  match options with
  | [] => commonSuccessResponse action reqID
  | None :: _ => Crash
  | Some (opt, v) :: options =>
    code ← TaosOptionsConnection conn opt v;
    if negb (code =? 0) then
      errStr ← call_ (C_TaosErrorStr nilp);
      commonErrorResponse action reqID code errStr
    else set_options conn action reqID options
  end.

Definition optionsConnection (action : bytes) (req : optionsRequest) : prog unit :=
  conn ← conn_;
  set_options conn action (o_ReqID req) (Options req).

(** ** Dispatch ([handler.go]) *)

(** What the decoders make of the bytes of a message and of its [args]; [None] is an error.  The
    [args] of a message without them are the nil slice. *)
Record decoders := mkDecoders {
  d_Request : bytes -> option (bytes * option bytes);
  getReqID : option bytes -> Z;
  d_version : option bytes -> option Z;
  d_conn : option bytes -> option connRequest;
  d_query : option bytes -> option sqlRequest;
  d_fetch : option bytes -> option idRequest;
  d_fetchBlock : option bytes -> option idRequest;
  d_freeResult : option bytes -> option idRequest;
  d_numFields : option bytes -> option idRequest;
  d_schemalessWrite : option bytes -> option schemalessRequest;
  d_stmtInit : option bytes -> option Z;
  d_stmtPrepare : option bytes -> option stmtPrepareRequest;
  d_stmtSetTableName : option bytes -> option stmtNameRequest;
  d_stmtSetTags : option bytes -> option stmtDataRequest;
  d_stmtBind : option bytes -> option stmtDataRequest;
  d_stmtID : option bytes -> option idRequest;
  d_stmtGetParam : option bytes -> option stmtParamRequest;
  d_stmt2Init : option bytes -> option stmt2InitRequest;
  d_reqOnly : option bytes -> option Z;
  d_options : option bytes -> option optionsRequest }.

Context (D : decoders).

(** The decoding of the [args] of an action, or the error that it cannot be decoded. *)
Definition decoded {R} (args : option bytes) (action : bytes) (what : bytes) (req : option R) (h : R -> prog unit) : prog unit :=
  match req with
  | None => commonErrorResponse action (getReqID D args) 65535 (str "unmarshal " ++ what ++ str " request error")
  | Some r => h r
  end.

Definition is_action (action : bytes) (name : string) : bool := bool_decide (action = str name).

Definition dispatch_query (action : bytes) (args : option bytes) (next : prog unit) : prog unit :=
  if is_action action "query" then decoded args action (str "query") (d_query D args) (query action)
  else if is_action action "fetch" then decoded args action (str "fetch") (d_fetch D args) (fetch action)
  else if is_action action "fetch_block" then decoded args action (str "fetch block") (d_fetchBlock D args) (fetchBlock action)
  else if is_action action "free_result" then decoded args action (str "free result") (d_freeResult D args) freeResult
  else if is_action action "num_fields" then decoded args action (str "num fields") (d_numFields D args) (numFields action)
  else if is_action action "insert" then
    decoded args action (str "schemaless insert") (d_schemalessWrite D args) (schemalessWrite action)
  else next.

Definition dispatch_stmt (action : bytes) (args : option bytes) (next : prog unit) : prog unit :=
  if is_action action "init" then decoded args action (str "stmt init") (d_stmtInit D args) (stmtInit action)
  else if is_action action "prepare" then decoded args action (str "stmt prepare") (d_stmtPrepare D args) (stmtPrepare action)
  else if is_action action "set_table_name" then
    decoded args action (str "stmt set table name") (d_stmtSetTableName D args) (stmtSetTableName action)
  else if is_action action "set_tags" then decoded args action (str "stmt set tags") (d_stmtSetTags D args) (stmtSetTags action)
  else if is_action action "bind" then decoded args action (str "stmt bind") (d_stmtBind D args) (stmtBind action)
  else if is_action action "add_batch" then decoded args action (str "stmt add batch") (d_stmtID D args) (stmtAddBatch action)
  else if is_action action "exec" then decoded args action (str "stmt exec") (d_stmtID D args) (stmtExec action)
  else if is_action action "close" then decoded args action (str "stmt close") (d_stmtID D args) (stmtClose action)
  else if is_action action "get_tag_fields" then
    decoded args action (str "stmt get tag fields") (d_stmtID D args) (stmtGetTagFields action)
  else if is_action action "get_col_fields" then
    decoded args action (str "stmt get col fields") (d_stmtID D args) (stmtGetColFields action)
  else if is_action action "use_result" then decoded args action (str "stmt use result") (d_stmtID D args) (stmtUseResult action)
  else if is_action action "stmt_num_params" then
    decoded args action (str "stmt num params") (d_stmtID D args) (stmtNumParams action)
  else if is_action action "stmt_get_param" then
    decoded args action (str "stmt get param") (d_stmtGetParam D args) (stmtGetParam action)
  else next.

Definition dispatch_stmt2 (action : bytes) (args : option bytes) (next : prog unit) : prog unit :=
  if is_action action "stmt2_init" then decoded args action (str "stmt2 init") (d_stmt2Init D args) (stmt2Init action)
  else if is_action action "stmt2_prepare" then
    decoded args action (str "stmt2 prepare") (d_stmtPrepare D args) (stmt2Prepare action)
  else if is_action action "stmt2_exec" then decoded args action (str "stmt2 exec") (d_stmtID D args) (stmt2Exec action)
  else if is_action action "stmt2_result" then decoded args action (str "stmt2 result") (d_stmtID D args) (stmt2UseResult action)
  else if is_action action "stmt2_close" then decoded args action (str "stmt2 close") (d_stmtID D args) (stmt2Close action)
  else next.

Definition dispatch_misc (action : bytes) (args : option bytes) (next : prog unit) : prog unit :=
  if is_action action "get_current_db" then
    decoded args action (str "get current db") (d_reqOnly D args) (getCurrentDB action)
  else if is_action action "get_server_info" then
    decoded args action (str "get server info") (d_reqOnly D args) (getServerInfo action)
  else if is_action action "options_connection" then
    decoded args action (str "options connection") (d_options D args) (optionsConnection action)
  else next.

Definition handleMessage (data : bytes) : prog unit :=
  match d_Request D data with
  | None => commonErrorResponse [] 0 65535 (str "unmarshal request error")
  | Some (action, args) =>
    if bool_decide (action = []) then commonErrorResponse [] (getReqID D args) 65535 (str "request no action")
    else if is_action action "version" then
      match args with
      | None => version action 0
      | Some _ => decoded args action (str "version") (d_version D args) (version action)
      end
    else if is_action action "conn" then decoded args action (str "connect") (d_conn D args) (connect action)
    else
      conn ← conn_;
      if conn =? nilp then commonErrorResponse action (getReqID D args) 65535 (str "server not connected")
      else
        dispatch_query action args (
        dispatch_stmt action args (
        dispatch_stmt2 action args (
        dispatch_misc action args (
        commonErrorResponse action (getReqID D args) 65535 (str "unknown action " ++ action)))))
  end.

Definition getActionString (binaryAction : Z) : bytes :=
  if binaryAction =? 1 then str "set_tags"
  else if binaryAction =? 2 then str "bind"
  else if binaryAction =? 3 then str "write_raw"
  else if binaryAction =? 4 then str "write_raw_block"
  else if binaryAction =? 5 then str "write_raw_block_with_fields"
  else if binaryAction =? 6 then str "binary_query"
  else if binaryAction =? 7 then str "fetch_raw_block"
  else if binaryAction =? 9 then str "stmt2_bind"
  else str "unknown".

Definition handleMessageBinary (message : bytes) : prog unit :=
  _ ← lift (zget message 0);
  reqID ← lift (load_u 8 message 0);
  resourceID ← lift (load_u 8 message (AddPointer 0 8));
  action ← lift (load_u 8 message (AddPointer 0 16));
  let actionStr := getActionString action in
  conn ← conn_;
  if conn =? nilp then commonErrorResponse actionStr reqID 65535 (str "server not connected")
  else if action =? 1 then stmtBinarySetTags actionStr reqID resourceID message
  else if action =? 2 then stmtBinaryBind actionStr reqID resourceID message
  else if action =? 3 then binaryTMQRawMessage actionStr reqID message
  else if action =? 4 then binaryRawBlockMessage actionStr reqID message
  else if action =? 5 then binaryRawBlockMessageWithFields actionStr reqID message
  else if action =? 6 then binaryQuery actionStr reqID message
  else if action =? 7 then fetchRawBlock reqID resourceID message
  else if action =? 9 then stmt2BinaryBind actionStr reqID resourceID message
  else commonErrorResponse actionStr reqID 65535 (str "unknown binary action " ++ itoa action).

(** The goroutine of a message ([ws.go]); [h.wait.Done()] is deferred. *)
Definition serve (m : request) : prog bool :=
  closed ← isClosed;
  (if (closed : bool) then mret tt
   else match m with Text data => handleMessage data | Binary data => handleMessageBinary data end);;
  do_ OWaitDone;;
  mret false.

Definition CloseWs : prog bool := Close;; mret false.

End Session.
End Handlers.
