(* ===== verification/WsReplies.v ===== *)
(** * WsReplies: every request is answered

    How many messages a handler sends, on every path through it: whatever the C library, the other
    goroutines and the lists answer. *)
From S2P Require Import Prelude Common RawBlock Stmt2 StmtConvert Rest Types WsProg WsHandlers.
From stdpp Require Import gmap sets.
#[local] Open Scope Z_scope.

Module Replies.
Import Rest Ws Handlers.

(** ** Counting messages *)

Definition sent_by {X} (e : op X) : option message := match e with OSend m => Some m | _ => None end.

(** Every path that does not crash sends between [lo] and [hi] messages, each of which satisfies
    [P]; a path that crashes sends fewer than [hi]. *)
Fixpoint replies {A} (P : message -> Prop) (lo hi : nat) (p : prog A) : Prop :=
  match p with
  | Done _ => lo = 0%nat
  | Crash => (0 < hi)%nat
  | Vis e k =>
    match sent_by e, hi with
    | None, _ => forall x, replies P lo hi (k x)
    | Some m, S hi => P m /\ forall x, replies P (pred lo) hi (k x)
    | Some _, O => False
    end
  end.

(** No path sends anything. *)
Fixpoint silent {A} (p : prog A) : Prop :=
  match p with
  | Done _ | Crash => True
  | Vis e k => sent_by e = None /\ forall x, silent (k x)
  end.

(** ... and none crashes. *)
Fixpoint mute {A} (p : prog A) : Prop :=
  match p with
  | Done _ => True
  | Crash => False
  | Vis e k => sent_by e = None /\ forall x, mute (k x)
  end.

Lemma replies_silent {A B} P lo hi (p : prog A) (f : A -> prog B) :
  (0 < hi)%nat -> silent p -> (forall x, replies P lo hi (f x)) -> replies P lo hi (p ≫= f).
Proof.
  intros Hhi Hp Hf. induction p as [a| |X e k IH]; cbn; [apply Hf|done|].
  destruct Hp as [-> Hk]. intros x. by apply IH.
Qed.

Lemma replies_none {A} P hi (p : prog A) : (0 < hi)%nat -> silent p -> replies P 0 hi p.
Proof.
  intros Hhi Hp. induction p as [a| |X e k IH]; cbn; [done|done|]. destruct Hp as [-> Hk]. intros x. by apply IH.
Qed.

Lemma silent_bind {A B} (p : prog A) (f : A -> prog B) :
  silent p -> (forall x, silent (f x)) -> silent (p ≫= f).
Proof.
  intros Hp Hf. induction p as [a| |X e k IH]; cbn; [apply Hf|done|].
  destruct Hp as [-> Hk]. split; [done|]. intros x. by apply IH.
Qed.

Lemma mute_bind {A B} (p : prog A) (f : A -> prog B) : mute p -> (forall x, mute (f x)) -> mute (p ≫= f).
Proof.
  intros Hp Hf. induction p as [a| |X e k IH]; cbn; [apply Hf|done|].
  destruct Hp as [-> Hk]. split; [done|]. intros x. by apply IH.
Qed.

(** What follows the messages sends nothing, and does not crash. *)
Lemma replies_then_silent {A B} P lo hi (p : prog A) (f : A -> prog B) :
  replies P lo hi p -> (forall x, mute (f x)) -> replies P lo hi (p ≫= f).
Proof.
  intros Hp Hf. revert lo hi Hp. induction p as [a| |X e k IH]; intros lo hi; cbn.
  - intros ->. specialize (Hf a). clear -Hf. revert hi.
    induction (f a) as [| |X e k IH]; intros hi; [done|done|].
    destruct Hf as [Hs Hf]. cbn. rewrite Hs. intros x. by apply IH.
  - done.
  - destruct (sent_by e); [destruct hi; [done|]|].
    + intros [HP Hk]. split; [done|]. intros x. by apply IH.
    + intros Hk x. by apply IH.
Qed.

Lemma replies_weaken {A} (P Q : message -> Prop) lo hi (p : prog A) :
  (forall m, P m -> Q m) -> replies P lo hi p -> replies Q lo hi p.
Proof.
  intros HPQ. revert lo hi. induction p as [a| |X e k IH]; intros lo hi; cbn; [done|done|].
  destruct (sent_by e); [destruct hi; [done|]|]; [|eauto].
  intros [HP Hk]. split; [auto|eauto].
Qed.

(** ** Which request a message answers *)

(** The action and the request number of a JSON response.  The frame of [fetch_block] goes out in the
    buffer of the result and has no request number but that of the result.  A binary message ([raw])
    that asks for a block is answered by a frame: one that reports an error or the end of the rows has
    the number at byte 26, and a block goes out in the buffer of the result. *)
Definition answers (raw : bool) (action : bytes) (reqID : Z) (m : message) : Prop :=
  match m with
  | CommonResp _ _ a id _ | StmtResp _ _ a id _ _ | TextResp a id _ _ | UpdateResp a id _ _
  | QueryResp a id _ _ _ _ _ | FetchResp a id _ _ _ _ _ | NumFieldsResp a id _ _
  | SchemalessResp a id _ _ _ | PrepareResp a id _ _ _ | Prepare2Resp a id _ _ _ _ _
  | ExecResp a id _ _ _ | FieldsResp a id _ _ _ | UseResultResp a id _ _ _ _ _ _
  | NumParamsResp a id _ _ _ | GetParamResp a id _ _ _ _ _ => a = action /\ id = reqID
  | BinaryResp d => raw = true /\ load_u 8 d 26 = Ret (wrap_u 64 reqID)
  | BufferResp _ => action = str "fetch_block" \/ raw = true
  end.

(** The handlers answer with the messages of [resp.go]. *)
Section Answers.
Context {raw : bool} (action : bytes) (reqID : Z).

Lemma send_answer m : answers raw action reqID m -> replies (answers raw action reqID) 1 1 (send m).
Proof. by split. Qed.

Lemma duration_answer (f : Z -> message) :
  (forall t, answers raw action reqID (f t)) -> replies (answers raw action reqID) 1 1 (t ← GetDuration; send (f t)).
Proof. intros H t. by split. Qed.

Lemma commonErrorResponse_answer code msg : replies (answers raw action reqID) 1 1 (commonErrorResponse action reqID code msg).
Proof. by apply duration_answer. Qed.

Lemma commonSuccessResponse_answer : replies (answers raw action reqID) 1 1 (commonSuccessResponse action reqID).
Proof. by apply duration_answer. Qed.

Lemma stmtErrorResponse_answer code msg id : replies (answers raw action reqID) 1 1 (stmtErrorResponse action reqID code msg id).
Proof. by apply duration_answer. Qed.

Lemma stmtOk_answer id : replies (answers raw action reqID) 1 1 (stmtOk action reqID id).
Proof. by apply duration_answer. Qed.
End Answers.

Create HintDb silent discriminated.
Create HintDb answers discriminated.
#[export] Hint Constants Opaque : silent.
#[export] Hint Constants Opaque : answers.
#[export] Hint Resolve commonErrorResponse_answer commonSuccessResponse_answer stmtErrorResponse_answer
  stmtOk_answer : answers.

(** Walks along a program that sends nothing, and along one that answers. *)
Ltac no_send :=
  lazymatch goal with
  | |- silent (_ ≫= _) => apply silent_bind; [no_send | intros; no_send]
  | |- silent (do_ _) => by split
  | |- silent (call_ _) => by split
  | |- silent (match ?x with _ => _ end) => destruct x; no_send
  | |- silent (mret _) => exact I
  | |- silent (let _ := _ in _) => cbv zeta; no_send
  | |- silent _ => first [solve [auto with silent] | done]
  end.

Ltac no_say :=
  lazymatch goal with
  | |- mute (_ ≫= _) => apply mute_bind; [no_say | intros; no_say]
  | |- mute (do_ _) => by split
  | |- mute (call_ _) => by split
  | |- mute (match ?x with _ => _ end) => destruct x; no_say
  | |- mute (mret _) => exact I
  | |- mute _ => first [solve [auto with silent] | done]
  end.

Ltac answer :=
  lazymatch goal with
  | |- replies _ _ _ (match ?x with _ => _ end) => destruct x; answer
  | |- replies _ _ _ (let _ := _ in _) => cbv zeta; answer
  | |- replies _ _ _ (send _) => solve [split; [cbn; auto|done]]
  | |- replies _ _ _ (?p ≫= ?f) =>
    first
      [ apply replies_silent; [lia | solve [no_send] | intros; answer]
      | apply replies_then_silent; [solve [answer] | intros; solve [no_say]] ]
  | |- replies _ _ _ Crash => solve [cbn; lia]
  | |- replies _ _ _ (mret _) => done
  | |- replies _ _ _ _ => solve [eauto with answers]
  end.

Lemma limited_silent {X} s (c : call X) : silent (limited s c).
Proof. unfold limited. no_send. Qed.
#[export] Hint Resolve limited_silent : silent.

Lemma limited_mute {X} s (c : call X) : mute (limited s c).
Proof. unfold limited. no_say. Qed.
#[export] Hint Resolve limited_mute : silent.

Lemma lift_silent {A} (x : go A) : silent (lift x).
Proof. by destruct x. Qed.
#[export] Hint Resolve lift_silent : silent.

Lemma deref_silent {A} (x : option A) : silent (deref x).
Proof. by destruct x. Qed.
#[export] Hint Resolve deref_silent : silent.

Ltac unfold_calls :=
  unfold Results_Get, Stmts_Get, Stmts_GetStmt2, FreeResult, FreeResultAsync, TaosClose, TaosConnect, TaosStmtInitWithReqID, TaosStmtPrepare, TaosStmtIsInsert,
    TaosStmtSetTBName, TaosStmtGetTagFields, TaosStmtSetTags, TaosStmtGetColFields, TaosStmtBindParamBatch,
    TaosStmtAddBatch, TaosStmtExecute, TaosStmtClose, TMQWriteRaw, TaosWriteRawBlockWithReqID,
    TaosWriteRawBlockWithFieldsWithReqID, TaosGetCurrentDB, TaosGetServerInfo, TaosStmtNumParams, TaosStmtGetParam,
    TaosSchemalessInsert, TaosStmt2Init, TaosStmt2Prepare, TaosStmt2IsInsert, TaosStmt2GetFields, TaosStmt2Exec,
    TaosStmt2Close, TaosStmt2BindBinary, TaosOptionsConnection, TaosQuery, TaosFetchRawBlockA, ReadColumn, GetDuration,
    conn_, isClosed, then_unlock, read_result, write_result, read_stmt, write_stmt, GetWhitelist,
    RegisterChangeWhitelist, RegisterDropUser, register, fetchRawBlockMessage, reserve in *.

Lemma QueryResult_free_silent o : silent (QueryResult_free o).
Proof. unfold QueryResult_free. unfold_calls. no_send. Qed.
Lemma StmtItem_free_silent o : silent (StmtItem_free o).
Proof. unfold StmtItem_free. unfold_calls. no_send. Qed.
#[export] Hint Resolve QueryResult_free_silent StmtItem_free_silent : silent.

Lemma FreeResultByID_silent i : silent (FreeResultByID i).
Proof. unfold FreeResultByID. no_send. Qed.
Lemma FreeStmtByID_silent i b : silent (FreeStmtByID i b).
Proof. unfold FreeStmtByID. unfold_calls. no_send. Qed.
#[export] Hint Resolve FreeResultByID_silent FreeStmtByID_silent : silent.

(** ** The handlers *)

Section Handlers.
Context (ip ipStr : bytes).
Context (StmtParseTag : option bytes -> list StmtField -> list value + bytes).
Context (StmtParseColumn : option bytes -> list StmtField -> list ColumnType ->
           (list (list value) * list ColumnType) + bytes).
Context (TaosClientVersion : bytes) (D : decoders).
Context {raw : bool} (action : bytes).
Abbreviation once id p := (replies (answers raw action id) 1 1 p).

Lemma handleConnectError_answer conn id err : once id (handleConnectError conn action id err).
Proof. unfold handleConnectError. unfold_calls. destruct err; answer. Qed.
Hint Resolve handleConnectError_answer : answers.

Lemma connect_new_answer req : once (c_ReqID req) (connect_new ip ipStr action req).
Proof. unfold connect_new, connect_mode, connect_option. unfold_calls. answer. Qed.
Hint Resolve connect_new_answer : answers.

Lemma run_query_answer id sql : once id (run_query action id sql).
Proof. unfold run_query. unfold_calls. answer. Qed.

Lemma binaryQuery_answer id m : once id (binaryQuery action id m).
Proof. pose proof run_query_answer. unfold binaryQuery. answer. Qed.

(** What follows the lookup of a result sends one message, unless the lookup did. *)
Lemma resultValidateAndLock_answer id rid (f : option nat -> prog unit) :
  replies (answers raw action id) 0 0 (f None) -> (forall o, once id (f (Some o))) ->
  once id (resultValidateAndLock action id rid ≫= f).
Proof.
  intros Hn Hf [o|]; [|intros t; by split]. intros [] [r|st]; [|cbn; lia].
  cbn. destruct (TaosResult r =? nilp); [|apply Hf]. intros _ t. by split.
Qed.

Lemma fetch_answer req : once (i_ReqID req) (fetch action req).
Proof. apply resultValidateAndLock_answer; [done|]. intros o. unfold_calls. answer. Qed.

Lemma fetchBlock_answer req : is_action action "fetch_block" = true -> once (i_ReqID req) (fetchBlock action req).
Proof. intros Ha%bool_decide_eq_true. apply resultValidateAndLock_answer; [done|]. intros o. unfold_calls. answer. Qed.

Lemma numFields_answer req : once (i_ReqID req) (numFields action req).
Proof. apply resultValidateAndLock_answer; [done|]. intros o. unfold_calls. answer. Qed.

(** The frames that are built in place carry the number of the request. *)
Lemma lift_answer {A} id (x : go A) (f : A -> prog unit) : (forall a, x = Ret a -> once id (f a)) -> once id (lift x ≫= f).
Proof. intros Hf. destruct x; cbn; [by apply Hf|lia..]. Qed.

Ltac frame :=
  cbv zeta; apply lift_answer; intros buf Hbuf; repeat (apply go_bind_Ret_inv in Hbuf as (? & ? & Hbuf));
  split; [split; [done|]|done]; written.

Lemma fetchRawBlockErrorResponse_answer code msg id rid t :
  raw = true -> once id (fetchRawBlockErrorResponse code msg id rid t).
Proof. intros Ha. pose proof (zlen_nonneg msg). unfold fetchRawBlockErrorResponse. frame. Qed.
Lemma fetchRawBlockFinishResponse_answer id rid t :
  raw = true -> once id (fetchRawBlockFinishResponse id rid t).
Proof. intros Ha. unfold fetchRawBlockFinishResponse. frame. Qed.
Hint Resolve fetchRawBlockErrorResponse_answer fetchRawBlockFinishResponse_answer : answers.

Lemma fetchRawBlock_answer id rid m : raw = true -> once id (fetchRawBlock id rid m).
Proof. intros Ha. unfold fetchRawBlock. unfold_calls. answer. Qed.

Lemma validate_answer get isNil id sid body :
  silent get -> (forall o s, once id (body o s)) -> once id (validate get isNil action id sid body).
Proof. intros Hg Hb. unfold validate. unfold_calls. answer. Qed.

Lemma Stmts_Get_silent i : silent (Stmts_Get i).
Proof. unfold_calls. no_send. Qed.
Lemma Stmts_GetStmt2_silent i : silent (Stmts_GetStmt2 i).
Proof. unfold_calls. no_send. Qed.

Lemma stmtValidateAndLock_answer id sid body :
  (forall o s, once id (body o s)) -> once id (stmtValidateAndLock action id sid body).
Proof. apply validate_answer, Stmts_Get_silent. Qed.
Lemma stmt2ValidateAndLock_answer id sid body :
  (forall o s, once id (body o s)) -> once id (stmt2ValidateAndLock action id sid body).
Proof. apply validate_answer, Stmts_GetStmt2_silent. Qed.

Lemma stmtFail_answer id code sid st : once id (stmtFail action id code sid st).
Proof. unfold stmtFail. answer. Qed.
Lemma stmt2Fail_answer id code sid st : once id (stmt2Fail action id code sid st).
Proof. unfold stmt2Fail. answer. Qed.
Hint Resolve stmtFail_answer stmt2Fail_answer : answers.

Lemma with_fields_answer get id sid s body :
  silent get -> (forall n f, once id (body n f)) -> once id (with_fields get action id sid s body).
Proof. intros Hg Hb. unfold with_fields. answer. Qed.

Lemma raw_response_answer id code : once id (raw_response action id code).
Proof. unfold raw_response. answer. Qed.
Hint Resolve raw_response_answer : answers.

Ltac stmt_answer :=
  repeat lazymatch goal with
  | |- replies _ _ _ (stmtValidateAndLock _ _ _ _) => apply stmtValidateAndLock_answer; intros o s
  | |- replies _ _ _ (stmt2ValidateAndLock _ _ _ _) => apply stmt2ValidateAndLock_answer; intros o s
  | |- replies _ _ _ (with_fields _ _ _ _ _ _) => apply with_fields_answer; [by unfold_calls; no_send|intros n f]
  end;
  unfold_calls; answer.

Lemma stmtInit_answer id : once id (stmtInit action id).
Proof. unfold stmtInit. stmt_answer. Qed.
Lemma stmtPrepare_answer req : once (p_ReqID req) (stmtPrepare action req).
Proof. unfold stmtPrepare. stmt_answer. Qed.
Lemma stmtSetTableName_answer req : once (n_ReqID req) (stmtSetTableName action req).
Proof. unfold stmtSetTableName. stmt_answer. Qed.
Lemma stmtSetTags_answer req : once (d_ReqID req) (stmtSetTags StmtParseTag action req).
Proof. unfold stmtSetTags. stmt_answer. Qed.
Lemma stmtBind_answer req : once (d_ReqID req) (stmtBind StmtParseColumn action req).
Proof. unfold stmtBind. stmt_answer. Qed.
Lemma stmtAddBatch_answer req : once (i_ReqID req) (stmtAddBatch action req).
Proof. unfold stmtAddBatch. stmt_answer. Qed.
Lemma stmtExec_answer req : once (i_ReqID req) (stmtExec action req).
Proof. unfold stmtExec. stmt_answer. Qed.
Lemma stmtGetFields_answer get req : (forall st, silent (get st)) -> once (i_ReqID req) (stmtGetFields get action req).
Proof.
  intros Hg. apply stmtValidateAndLock_answer. intros o s. apply with_fields_answer; [done|]. intros n f. unfold_calls. answer.
Qed.
Lemma stmtUseResult_answer req : once (i_ReqID req) (stmtUseResult action req).
Proof. unfold stmtUseResult, add_stmt_result. stmt_answer. Qed.
Lemma stmtNumParams_answer req : once (i_ReqID req) (stmtNumParams action req).
Proof. unfold stmtNumParams. stmt_answer. Qed.
Lemma stmtGetParam_answer req : once (g_ReqID req) (stmtGetParam action req).
Proof. unfold stmtGetParam. stmt_answer. Qed.
Lemma bind_batch_answer id sid s m rows fields types : once id (bind_batch action id sid s m rows fields types).
Proof. unfold bind_batch. stmt_answer. Qed.
Hint Resolve bind_batch_answer : answers.
Lemma stmtBinarySetTags_answer id sid m : once id (stmtBinarySetTags action id sid m).
Proof.
  unfold stmtBinarySetTags. cbv zeta. do 2 (apply replies_silent; [lia|no_send|intros ?]).
  destruct (negb _); [answer|stmt_answer].
Qed.
Lemma stmtBinaryBind_answer id sid m : once id (stmtBinaryBind action id sid m).
Proof.
  unfold stmtBinaryBind. cbv zeta. do 2 (apply replies_silent; [lia|no_send|intros ?]).
  apply stmtValidateAndLock_answer. intros o s. destruct (isInsert s); stmt_answer.
Qed.
Lemma stmt2Init_answer req : once (t_ReqID req) (stmt2Init action req).
Proof. unfold stmt2Init. stmt_answer. Qed.
Lemma stmt2Prepare_answer req : once (p_ReqID req) (stmt2Prepare action req).
Proof. unfold stmt2Prepare. stmt_answer. Qed.
Lemma stmt2Exec_answer req : once (i_ReqID req) (stmt2Exec action req).
Proof. unfold stmt2Exec. stmt_answer. Qed.
Lemma stmt2UseResult_answer req : once (i_ReqID req) (stmt2UseResult action req).
Proof. unfold stmt2UseResult, add_stmt_result. stmt_answer. Qed.
Lemma stmt2Close_answer req : once (i_ReqID req) (stmt2Close action req).
Proof. unfold stmt2Close. answer. Qed.
Lemma stmt2BinaryBind_answer id sid m : once id (stmt2BinaryBind action id sid m).
Proof.
  unfold stmt2BinaryBind. destruct (zlen m <? 30); [answer|]. apply replies_silent; [lia|no_send|intros v].
  destruct (negb _); [answer|]. apply replies_silent; [lia|no_send|intros c]. stmt_answer.
Qed.
Lemma schemalessWrite_answer req : once (sl_ReqID req) (schemalessWrite action req).
Proof. unfold schemalessWrite. stmt_answer. Qed.
Lemma binaryTMQRawMessage_answer id m : once id (binaryTMQRawMessage action id m).
Proof. unfold binaryTMQRawMessage. stmt_answer. Qed.
Lemma binaryRawBlockMessage_answer id m : once id (binaryRawBlockMessage action id m).
Proof. unfold binaryRawBlockMessage. stmt_answer. Qed.
Lemma binaryRawBlockMessageWithFields_answer id m : once id (binaryRawBlockMessageWithFields action id m).
Proof. unfold binaryRawBlockMessageWithFields. stmt_answer. Qed.
Lemma getCurrentDB_answer id : once id (getCurrentDB action id).
Proof. unfold getCurrentDB. stmt_answer. Qed.
Lemma getServerInfo_answer id : once id (getServerInfo action id).
Proof. unfold getServerInfo. stmt_answer. Qed.
Lemma version_answer id : once id (version TaosClientVersion action id).
Proof. unfold version. stmt_answer. Qed.
Lemma optionsConnection_answer req : once (o_ReqID req) (optionsConnection action req).
Proof.
  intros conn. cbn. induction (Options req) as [|[[opt v]|] l IH]; cbn [set_options]; [answer| |cbn; lia].
  apply replies_silent; [lia|unfold_calls; no_send|]. intros code. destruct (negb _); [answer|exact IH].
Qed.


Lemma decoded_answer {R} args what (req : option R) (id : R -> Z) h lo :
  (forall r, req = Some r -> id r = getReqID D args) -> (lo <= 1)%nat ->
  (forall r, replies (answers raw action (id r)) lo 1 (h r)) ->
  replies (answers raw action (getReqID D args)) lo 1 (decoded D args action what req h).
Proof.
  intros Hid Hlo Hh. unfold decoded. destruct req as [r|]; [rewrite <- (Hid r eq_refl); apply Hh|].
  intros t. split; [done|]. intros u. cbn. lia.
Qed.
End Handlers.

(** ** Dispatch *)

(** Every request struct is decoded with the number that [getReqID] finds in the same bytes, and
    there is none without [args]. *)
Record ids_agree (D : decoders) : Prop := mkAgree {
  a_none : getReqID D None = 0;
  a_version : forall args r, d_version D args = Some r -> r = getReqID D args;
  a_conn : forall args r, d_conn D args = Some r -> c_ReqID r = getReqID D args;
  a_query : forall args r, d_query D args = Some r -> q_ReqID r = getReqID D args;
  a_fetch : forall args r, d_fetch D args = Some r -> i_ReqID r = getReqID D args;
  a_fetchBlock : forall args r, d_fetchBlock D args = Some r -> i_ReqID r = getReqID D args;
  a_freeResult : forall args r, d_freeResult D args = Some r -> i_ReqID r = getReqID D args;
  a_numFields : forall args r, d_numFields D args = Some r -> i_ReqID r = getReqID D args;
  a_schemaless : forall args r, d_schemalessWrite D args = Some r -> sl_ReqID r = getReqID D args;
  a_stmtInit : forall args r, d_stmtInit D args = Some r -> r = getReqID D args;
  a_stmtPrepare : forall args r, d_stmtPrepare D args = Some r -> p_ReqID r = getReqID D args;
  a_name : forall args r, d_stmtSetTableName D args = Some r -> n_ReqID r = getReqID D args;
  a_tags : forall args r, d_stmtSetTags D args = Some r -> d_ReqID r = getReqID D args;
  a_bind : forall args r, d_stmtBind D args = Some r -> d_ReqID r = getReqID D args;
  a_stmtID : forall args r, d_stmtID D args = Some r -> i_ReqID r = getReqID D args;
  a_param : forall args r, d_stmtGetParam D args = Some r -> g_ReqID r = getReqID D args;
  a_stmt2Init : forall args r, d_stmt2Init D args = Some r -> t_ReqID r = getReqID D args;
  a_reqOnly : forall args r, d_reqOnly D args = Some r -> r = getReqID D args;
  a_options : forall args r, d_options D args = Some r -> o_ReqID r = getReqID D args }.

Section Dispatch.
Context (ip ipStr : bytes).
Context (StmtParseTag : option bytes -> list StmtField -> list value + bytes).
Context (StmtParseColumn : option bytes -> list StmtField -> list ColumnType ->
           (list (list value) * list ColumnType) + bytes).
Context (TaosClientVersion : bytes) (D : decoders) (HD : ids_agree D).

(** The actions that may leave a request without an answer. *)
Definition quiet (action : bytes) : bool :=
  is_action action "free_result" || is_action action "close" || is_action action "conn".
Definition least (action : bytes) : nat := if quiet action then 0 else 1.

Lemma replies_least {A} P lo hi (p : prog A) : replies P lo hi p -> replies P 0 hi p.
Proof.
  revert lo hi. induction p as [a| |X e k IH]; intros lo hi; cbn; [done|done|].
  destruct (sent_by e); [destruct hi; [done|]|]; [|eauto].
  intros [HP Hk]. split; [done|]. intros x. eapply IH, Hk.
Qed.

Lemma answer_least {A} action P (p : prog A) : replies P 1 1 p -> replies P (least action) 1 p.
Proof. unfold least. destruct (quiet action); [apply replies_least|done]. Qed.

Lemma stmtClose_answer action req : replies (answers false action (i_ReqID req)) 0 1 (stmtClose action req).
Proof.
  unfold stmtClose. apply replies_silent; [lia|no_send|]. intros [e|]; [|done].
  eapply replies_least, stmtErrorResponse_answer.
Qed.

Lemma freeResult_answer action id req : replies (answers false action id) 0 1 (freeResult req).
Proof. apply replies_none; [lia|apply FreeResultByID_silent]. Qed.

Lemma connect_answer action req : replies (answers false action (c_ReqID req)) 0 1 (connect ip ipStr action req).
Proof.
  unfold connect. apply replies_silent; [lia|no_send|]. intros _. apply replies_silent; [lia|no_send|]. intros [].
  - by apply replies_then_silent.
  - apply replies_then_silent; [|done]. apply replies_silent; [lia|no_send|]. intros c. eapply replies_least.
    destruct (negb _); [apply commonErrorResponse_answer|apply connect_new_answer].
Qed.

Ltac dispatch :=
  repeat lazymatch goal with
  | |- replies _ _ _ (if is_action ?a ?n then _ else _) =>
    let E := fresh "E" in destruct (is_action a n) eqn:E
  end.

(** One action: the agreement of the decoder and the answer of the handler. *)
Tactic Notation "action_by" uconstr(HA) uconstr(Hh) := eapply decoded_answer; [apply HA, HD | unfold least; destruct (quiet _); lia |
  intros; first [apply answer_least, Hh | unfold least, quiet;
    repeat match goal with H : is_action _ _ = _ |- _ => rewrite H end; rewrite ?orb_true_r; apply Hh]].

Lemma dispatch_query_answer action args next :
  replies (answers false action (getReqID D args)) (least action) 1 next ->
  replies (answers false action (getReqID D args)) (least action) 1 (dispatch_query D action args next).
Proof.
  intros Hn. unfold dispatch_query. dispatch; [..|done].
  - action_by a_query run_query_answer.
  - action_by a_fetch fetch_answer.
  - action_by a_fetchBlock (fun r => fetchBlock_answer action r E1).
  - action_by a_freeResult freeResult_answer.
  - action_by a_numFields numFields_answer.
  - action_by a_schemaless schemalessWrite_answer.
Qed.

Lemma dispatch_stmt_answer action args next :
  replies (answers false action (getReqID D args)) (least action) 1 next ->
  replies (answers false action (getReqID D args)) (least action) 1 (dispatch_stmt StmtParseTag StmtParseColumn D action args next).
Proof.
  intros Hn. unfold dispatch_stmt. dispatch; [..|done].
  - eapply (decoded_answer D action args _ _ (fun r => r)); [apply a_stmtInit, HD|unfold least; destruct (quiet _); lia|].
    intros. apply answer_least, stmtInit_answer.
  - action_by a_stmtPrepare stmtPrepare_answer.
  - action_by a_name stmtSetTableName_answer.
  - action_by a_tags stmtSetTags_answer.
  - action_by a_bind stmtBind_answer.
  - action_by a_stmtID stmtAddBatch_answer.
  - action_by a_stmtID stmtExec_answer.
  - action_by a_stmtID stmtClose_answer.
  - eapply decoded_answer; [apply a_stmtID, HD|unfold least; destruct (quiet _); lia|].
    intros. apply answer_least, stmtGetFields_answer. intros. unfold_calls. no_send.
  - eapply decoded_answer; [apply a_stmtID, HD|unfold least; destruct (quiet _); lia|].
    intros. apply answer_least, stmtGetFields_answer. intros. unfold_calls. no_send.
  - action_by a_stmtID stmtUseResult_answer.
  - action_by a_stmtID stmtNumParams_answer.
  - action_by a_param stmtGetParam_answer.
Qed.

Lemma dispatch_stmt2_answer action args next :
  replies (answers false action (getReqID D args)) (least action) 1 next ->
  replies (answers false action (getReqID D args)) (least action) 1 (dispatch_stmt2 D action args next).
Proof.
  intros Hn. unfold dispatch_stmt2. dispatch; [..|done].
  - action_by a_stmt2Init stmt2Init_answer.
  - action_by a_stmtPrepare stmt2Prepare_answer.
  - action_by a_stmtID stmt2Exec_answer.
  - action_by a_stmtID stmt2UseResult_answer.
  - action_by a_stmtID stmt2Close_answer.
Qed.

Lemma dispatch_misc_answer action args next :
  replies (answers false action (getReqID D args)) (least action) 1 next ->
  replies (answers false action (getReqID D args)) (least action) 1 (dispatch_misc D action args next).
Proof.
  intros Hn. unfold dispatch_misc. dispatch; [..|done].
  - eapply (decoded_answer D action args _ _ (fun r => r)); [apply a_reqOnly, HD|unfold least; destruct (quiet _); lia|].
    intros. apply answer_least, getCurrentDB_answer.
  - eapply (decoded_answer D action args _ _ (fun r => r)); [apply a_reqOnly, HD|unfold least; destruct (quiet _); lia|].
    intros. apply answer_least, getServerInfo_answer.
  - action_by a_options optionsConnection_answer.
Qed.

(** C20. Every text message that is handled is answered by exactly one message, unless its goroutine
    panics, which it only does before it has sent anything; [free_result], [close] and [conn] are
    answered by at most one.  The answer is a JSON response with the action and the number of the
    request; only for [fetch_block] it may be the frame of a block instead, which has neither.  The
    decoders are assumed to agree on the number of a request ([ids_agree]). *)
Theorem handleMessage_answers data action args :
  d_Request D data = Some (action, args) ->
  replies (answers false action (getReqID D args)) (least action) 1
    (handleMessage ip ipStr StmtParseTag StmtParseColumn TaosClientVersion D data).
Proof.
  intros E0. unfold handleMessage. rewrite E0. case_bool_decide as Ea.
  { subst. apply commonErrorResponse_answer. }
  destruct (is_action action "version") eqn:Ev.
  { destruct args as [args|].
    - eapply (decoded_answer D action _ _ _ (fun r => r)); [apply a_version, HD|unfold least; destruct (quiet _); lia|].
      intros. apply answer_least, version_answer.
    - rewrite (a_none _ HD). apply answer_least, version_answer. }
  destruct (is_action action "conn") eqn:Ec.
  { action_by a_conn connect_answer. }
  apply replies_silent; [lia|unfold_calls; no_send|]. intros conn. destruct (conn =? nilp).
  { apply answer_least, commonErrorResponse_answer. }
  apply dispatch_query_answer, dispatch_stmt_answer, dispatch_stmt2_answer, dispatch_misc_answer.
  apply answer_least, commonErrorResponse_answer.
Qed.

(** A binary message that is long enough for its head is answered by exactly one message, unless its
    goroutine panics before.  The message has the number of the request, but for a block, which goes
    out in the buffer of the result, where another request may have left its number. *)
Theorem handleMessageBinary_answers message reqID action :
  load_u 8 message 0 = Ret reqID -> load_u 8 message 16 = Ret action ->
  replies (answers true (getActionString action) reqID) 1 1 (handleMessageBinary message).
Proof.
  intros E1 E2. unfold handleMessageBinary. apply replies_silent; [lia|no_send|]. intros _.
  rewrite E1. cbn [lift mbind prog_mbind]. apply replies_silent; [lia|no_send|]. intros rid.
  change (AddPointer 0 16) with 16. rewrite E2. cbn [lift mbind prog_mbind]. cbv zeta.
  apply replies_silent; [lia|unfold_calls; no_send|]. intros conn.
  destruct (conn =? nilp); [apply commonErrorResponse_answer|].
  destruct (action =? 1); [apply stmtBinarySetTags_answer|].
  destruct (action =? 2); [apply stmtBinaryBind_answer|].
  destruct (action =? 3); [apply binaryTMQRawMessage_answer|].
  destruct (action =? 4); [apply binaryRawBlockMessage_answer|].
  destruct (action =? 5); [apply binaryRawBlockMessageWithFields_answer|].
  destruct (action =? 6); [apply binaryQuery_answer|].
  destruct (Z.eqb_spec action 7) as [->|]; [by apply fetchRawBlock_answer|].
  destruct (action =? 9); [apply stmt2BinaryBind_answer|apply commonErrorResponse_answer].
Qed.

End Dispatch.
End Replies.
