(* ===== verification/WsLogic.v ===== *)
(** * WsLogic: a program logic for the goroutines of a session

    What a goroutine knows at a point of its program: the locks it holds, with the contents of the
    items they protect, and the resources it has to give back.  [pre] says for each operation what
    a goroutine has to know and what it knows afterwards, and [wp] extends this to programs.
    [holds] is when the knowledge is right, [other] what the steps of other goroutines leave alone,
    and [inv] the invariant of the shared state; [op_sound] and [answer_sound] show that an
    operation whose precondition is met is never [Bad] and keeps all three. *)
From S2P Require Import Prelude Common Stmt2 Rest Types WsProg.
From stdpp Require Import gmap sets.
#[local] Open Scope Z_scope.

Module Logic.
Import Ws.

(** ** What a goroutine knows *)

(** A value for each of two things, the lists or the semaphores. *)
Class Two (I : Type) := { is_first : I -> bool; is_first_inj : forall i j, is_first i = is_first j -> i = j }.
#[export] Instance tbl_two : Two tbl.
Proof. refine {| is_first := fun t => match t with Results => true | Stmts => false end |}. by intros [] []. Defined.
#[export] Instance sem_two : Two sem.
Proof. refine {| is_first := fun s => match s with SyncLocker => true | AsyncLocker => false end |}. by intros [] []. Defined.

Record per (I A : Type) := Per { p_first : A; p_second : A }.
Arguments Per {I A} _ _.
Arguments p_first {I A} _.
Arguments p_second {I A} _.
Definition at_ {I A} `{Two I} (p : per I A) (i : I) : A := if is_first i then p_first p else p_second p.
Coercion at_ : per >-> Funclass.
Definition upd {I A} `{Two I} (p : per I A) (i : I) (a : A) : per I A :=
  if is_first i then Per a (p_second p) else Per (p_first p) a.

Lemma upd_at {I A} `{Two I, EqDecision I} (p : per I A) i a j : upd p i a j = if decide (j = i) then a else p j.
Proof.
  unfold upd, at_. case_decide as E; [subst; by destruct (is_first i)|].
  destruct (is_first i) eqn:Ei, (is_first j) eqn:Ej; try done; exfalso; apply E, is_first_inj; congruence.
Qed.

(** The lock of a list: not held, held, or held with the items known. *)
Inductive held := NotHeld | HeldLock | HeldAll (l : list nat).

Record know := mkKnow {
  k_hlock : bool;            (* holds the lock of the handler *)
  k_hopen : bool;            (* ... and saw under it that the handler is open *)
  k_hconn : option ptr;      (* ... and read [h.conn] *)
  k_table : per tbl held;
  k_objs : gmap nat obj;     (* the items whose locks it holds *)
  k_flight : gset res;       (* what it has to give back *)
  k_sres : gmap ptr ptr;     (* results of statements, with the statements *)
  k_items : gset nat; k_bufs : gset nat; k_dead : gset nat;
  k_counted : bool;          (* counted by [h.wait] *)
  k_open : bool;             (* ... and found the handler open *)
  k_conn : option ptr;
  k_closing : bool;          (* has marked the handler as closed *)
  k_drained : bool;          (* ... and waited for the counted goroutines *)
  k_freed : per tbl bool;     (* the list was emptied since *)
  k_pool : nat; k_sem : per sem nat;
  k_once : bool }.           (* ... and has run the body of [h.once] *)

Definition k_init (counted : bool) : know :=
  mkKnow false false None (Per NotHeld NotHeld) ∅ ∅ ∅ ∅ ∅ ∅ counted false None false false (Per false false) 0 (Per 0 0)%nat false.


Definition with_hlock b K := mkKnow b false None (k_table K) (k_objs K) (k_flight K) (k_sres K) (k_items K) (k_bufs K) (k_dead K) (k_counted K) (k_open K) (k_conn K) (k_closing K) (k_drained K) (k_freed K) (k_pool K) (k_sem K) (k_once K).
Definition with_hopen b K := mkKnow (k_hlock K) b (k_hconn K) (k_table K) (k_objs K) (k_flight K) (k_sres K) (k_items K) (k_bufs K) (k_dead K) (k_counted K) (k_open K) (k_conn K) (k_closing K) (k_drained K) (k_freed K) (k_pool K) (k_sem K) (k_once K).
Definition with_hconn c K := mkKnow (k_hlock K) (k_hopen K) c (k_table K) (k_objs K) (k_flight K) (k_sres K) (k_items K) (k_bufs K) (k_dead K) (k_counted K) (k_open K) (k_conn K) (k_closing K) (k_drained K) (k_freed K) (k_pool K) (k_sem K) (k_once K).
Definition with_table t h K := mkKnow (k_hlock K) (k_hopen K) (k_hconn K) (upd (k_table K) t h) (k_objs K) (k_flight K) (k_sres K) (k_items K) (k_bufs K) (k_dead K) (k_counted K) (k_open K) (k_conn K) (k_closing K) (k_drained K) (k_freed K) (k_pool K) (k_sem K) (k_once K).
Definition with_objs m K := mkKnow (k_hlock K) (k_hopen K) (k_hconn K) (k_table K) m (k_flight K) (k_sres K) (k_items K) (k_bufs K) (k_dead K) (k_counted K) (k_open K) (k_conn K) (k_closing K) (k_drained K) (k_freed K) (k_pool K) (k_sem K) (k_once K).
Definition with_flight l K := mkKnow (k_hlock K) (k_hopen K) (k_hconn K) (k_table K) (k_objs K) l (k_sres K) (k_items K) (k_bufs K) (k_dead K) (k_counted K) (k_open K) (k_conn K) (k_closing K) (k_drained K) (k_freed K) (k_pool K) (k_sem K) (k_once K).
Definition with_sres l K := mkKnow (k_hlock K) (k_hopen K) (k_hconn K) (k_table K) (k_objs K) (k_flight K) l (k_items K) (k_bufs K) (k_dead K) (k_counted K) (k_open K) (k_conn K) (k_closing K) (k_drained K) (k_freed K) (k_pool K) (k_sem K) (k_once K).
Definition with_items l K := mkKnow (k_hlock K) (k_hopen K) (k_hconn K) (k_table K) (k_objs K) (k_flight K) (k_sres K) l (k_bufs K) (k_dead K) (k_counted K) (k_open K) (k_conn K) (k_closing K) (k_drained K) (k_freed K) (k_pool K) (k_sem K) (k_once K).
Definition with_bufs l K := mkKnow (k_hlock K) (k_hopen K) (k_hconn K) (k_table K) (k_objs K) (k_flight K) (k_sres K) (k_items K) l (k_dead K) (k_counted K) (k_open K) (k_conn K) (k_closing K) (k_drained K) (k_freed K) (k_pool K) (k_sem K) (k_once K).
Definition with_dead l K := mkKnow (k_hlock K) (k_hopen K) (k_hconn K) (k_table K) (k_objs K) (k_flight K) (k_sres K) (k_items K) (k_bufs K) l (k_counted K) (k_open K) (k_conn K) (k_closing K) (k_drained K) (k_freed K) (k_pool K) (k_sem K) (k_once K).
Definition with_counted b o K := mkKnow (k_hlock K) (k_hopen K) (k_hconn K) (k_table K) (k_objs K) (k_flight K) (k_sres K) (k_items K) (k_bufs K) (k_dead K) b o (k_conn K) (k_closing K) (k_drained K) (k_freed K) (k_pool K) (k_sem K) (k_once K).
Definition with_conn c K := mkKnow (k_hlock K) (k_hopen K) (k_hconn K) (k_table K) (k_objs K) (k_flight K) (k_sres K) (k_items K) (k_bufs K) (k_dead K) (k_counted K) (k_open K) c (k_closing K) (k_drained K) (k_freed K) (k_pool K) (k_sem K) (k_once K).
Definition with_closing b K := mkKnow (k_hlock K) (k_hopen K) (k_hconn K) (k_table K) (k_objs K) (k_flight K) (k_sres K) (k_items K) (k_bufs K) (k_dead K) (k_counted K) (k_open K) (k_conn K) b (k_drained K) (k_freed K) (k_pool K) (k_sem K) (k_once K).
Definition with_drained b K := mkKnow (k_hlock K) (k_hopen K) (k_hconn K) (k_table K) (k_objs K) (k_flight K) (k_sres K) (k_items K) (k_bufs K) (k_dead K) (k_counted K) (k_open K) (k_conn K) (k_closing K) b (k_freed K) (k_pool K) (k_sem K) (k_once K).
Definition with_freed f K := mkKnow (k_hlock K) (k_hopen K) (k_hconn K) (k_table K) (k_objs K) (k_flight K) (k_sres K) (k_items K) (k_bufs K) (k_dead K) (k_counted K) (k_open K) (k_conn K) (k_closing K) (k_drained K) f (k_pool K) (k_sem K) (k_once K).
Definition with_pool n K := mkKnow (k_hlock K) (k_hopen K) (k_hconn K) (k_table K) (k_objs K) (k_flight K) (k_sres K) (k_items K) (k_bufs K) (k_dead K) (k_counted K) (k_open K) (k_conn K) (k_closing K) (k_drained K) (k_freed K) n (k_sem K) (k_once K).
Definition with_sem f K := mkKnow (k_hlock K) (k_hopen K) (k_hconn K) (k_table K) (k_objs K) (k_flight K) (k_sres K) (k_items K) (k_bufs K) (k_dead K) (k_counted K) (k_open K) (k_conn K) (k_closing K) (k_drained K) (k_freed K) (k_pool K) f (k_once K).
Definition with_once b K := mkKnow (k_hlock K) (k_hopen K) (k_hconn K) (k_table K) (k_objs K) (k_flight K) (k_sres K) (k_items K) (k_bufs K) (k_dead K) (k_counted K) (k_open K) (k_conn K) (k_closing K) (k_drained K) (k_freed K) (k_pool K) (k_sem K) b.

(** ** What an operation needs and tells *)

Definition res_set (x : obj) : gset res := list_to_set (resources x).

(** The list an item belongs in. *)
Definition sort (x : obj) : tbl := match x with OResult _ => Results | OStmt _ => Stmts end.

(** The pointer of a result item to a result of a statement, the result that a statement item keeps, with
    the statement, and the buffer of an item. *)
Definition result_of (x : obj) : ptr :=
  match x with OResult r => if inStmt r then TaosResult r else nilp | OStmt _ => nilp end.
Definition lent (x : obj) : gmap ptr ptr :=
  match x with
  | OResult _ => ∅
  | OStmt s => if (s_result s =? nilp) || (stmt s =? nilp) then ∅ else {[s_result s := stmt s]}
  end.
Definition buffer (x : obj) : option nat :=
  match x with OResult r => fst <$> r_buf r | OStmt _ => None end.

Definition k_obj_ok (K : know) (x : obj) : Prop :=
  lent x ⊆ k_sres K /\ forall b, buffer x = Some b -> b ∈ k_bufs K.

(** A connection seen while the goroutine is counted, or while it holds the lock, is live. *)
Definition conn_usable (K : know) (c : ptr) : Prop :=
  (k_counted K = true /\ k_open K = true /\ k_conn K = Some c) \/
  (k_hlock K = true /\ k_hopen K = true /\ k_hconn K = Some c).

(** The result of a statement is there while the goroutine has the statement. *)
Definition stmt_held (K : know) (p : ptr) : Prop :=
  p = nilp \/ exists s, k_sres K !! p = Some s /\ (s = nilp \/ (KStmt, s) ∈ k_flight K).
(** It is in an item whose lock the goroutine holds: the statement may have been closed. *)
Definition stmt_result_held (K : know) (p : ptr) : Prop :=
  k_counted K = true /\ k_open K = true /\ exists o x, k_objs K !! o = Some x /\ result_of x = p.

Definition permitted (K : know) (r : res) : Prop :=
  snd r = nilp \/ r ∈ k_flight K \/ (fst r = KConn /\ conn_usable K (snd r)) \/
  (fst r = KResult /\ (stmt_held K (snd r) \/ stmt_result_held K (snd r))).

Definition res_opt (r : option res) : gset res :=
  match r with Some r => if snd r =? nilp then ∅ else {[r]} | None => ∅ end.
Definition sres_opt (r : option (ptr * ptr)) : gmap ptr ptr :=
  match r with Some (r, s) => if r =? nilp then ∅ else {[r := s]} | None => ∅ end.

Definition after_answer {X} (K : know) (c : call X) (x : X) : know :=
  with_sres (sres_opt (stmt_result c x) ∪ k_sres K) (with_flight (res_opt (allocs c x) ∪ k_flight K) K).

Lemma lookup_hand (l : list res) (x : owner) (m : gmap res owner) (r : res) :
  hand l x m !! r = if decide (r ∈ l) then (fun _ => x) <$> m !! r else m !! r.
Proof.
  induction l as [|y l IH]; [by rewrite decide_False by apply not_elem_of_nil|].
  change (hand (y :: l) x m) with (alter (fun _ => x) y (hand l x m)). destruct (decide (r = y)) as [->|Hr].
  - rewrite lookup_alter_eq, IH, (decide_True _ _ (list_elem_of_here y l)). case_decide; [|done].
    by destruct (m !! y).
  - rewrite lookup_alter_ne, IH by done. repeat case_decide; try done; set_solver.
Qed.

Lemma lookup_snoc {A} (l : list A) y o x : (l ++ [y]) !! o = Some x <-> (o = length l /\ x = y) \/ l !! o = Some x.
Proof.
  rewrite lookup_app_Some, list_lookup_singleton_Some. split.
  - intros [?|(? & ? & <-)]; [by right|left]. split; [lia|done].
  - intros [(-> & ->)|?]; [right|by left]. split; [done|]. split; [lia|done].
Qed.

(** A fetch that fails has its error text read once the lock of the result is released, when the
    result may be gone.  [may_fail] is whether fetches fail; the rest of the file is about both. *)
Definition is_error_text {X} (c : call X) : bool := match c with C_TaosErrorStr _ => true | _ => false end.
Definition fetched {X} (c : call X) : X -> bool :=
  match c in call X return X -> bool with C_FetchResult _ => fun x => 0 <=? N x | _ => fun _ => true end.

Section MayFail.
Context (may_fail : bool).

Definition allowed {X} (K : know) (c : call X) (r : res) : Prop :=
  permitted K r \/ (may_fail = true /\ is_error_text c = true).

(** What is left of a call once it has started. *)
Definition pending {X} (K : know) (c : call X) (Q : X -> know -> Prop) : Prop :=
  (forall r, r ∈ uses c -> frees c = Some r \/ allowed K c r) /\
  forall x, answer_ok c x = true -> (may_fail = false -> fetched c x = true) ->
    res_opt (allocs c x) ## k_flight K -> Q x (after_answer K c x).

Definition pre (K : know) {X} (e : op X) : (X -> know -> Prop) -> Prop :=
  match e in op X return (X -> know -> Prop) -> Prop with
  | OLock LHandler => fun Q => k_hlock K = false /\ Q tt (with_hlock true K)
  | OUnlock LHandler => fun Q => k_hlock K = true /\ k_closing K = false /\ Q tt (with_hlock false K)
  | OLock (LTable t) => fun Q => k_table K t = NotHeld /\ Q tt (with_table t HeldLock K)
  | OUnlock (LTable t) => fun Q => k_table K t <> NotHeld /\
      Q tt (with_freed (upd (k_freed K) t (k_freed K t || (k_closing K && k_drained K &&
              match k_table K t with HeldAll [] => true | _ => false end)))
           (with_table t NotHeld K))
  | OLock (LObj o) => fun Q => o ∈ k_items K /\ k_objs K !! o = None /\
      forall x, res_set x ## k_flight K -> (forall r, r ∈ resources x -> snd r <> nilp) ->
        (o ∈ k_dead K -> resources x = []) ->
        Q tt (with_bufs (match buffer x with Some b => {[b]} | None => ∅ end ∪ k_bufs K)
             (with_sres (lent x ∪ k_sres K)
             (with_flight (res_set x ∪ k_flight K) (with_objs (<[o := x]> (k_objs K)) K))))
  | OUnlock (LObj o) => fun Q => exists x, k_objs K !! o = Some x /\ res_set x ⊆ k_flight K /\
      Q tt (with_dead ((if bool_decide (resources x = []) then {[o]} else ∅) ∪ k_dead K)
           (with_flight (k_flight K ∖ res_set x) (with_objs (delete o (k_objs K)) K)))
  | OIsClosed => fun Q => Q true K /\
      Q false (with_hopen (k_hlock K) (with_counted (k_counted K) (k_counted K) K))
  | OSetClosed => fun Q => k_hlock K = true /\ k_hopen K = true /\
      Q tt (with_once false (with_closing true (with_drained false (with_hopen false (with_hconn None K)))))
  | OOnce => fun Q => k_closing K = true /\ Q (negb (k_once K)) (with_once true K)
  | OWaitAll => fun Q => k_closing K = true /\ k_drained K = false /\ k_counted K = false /\
      forall c, (c = nilp \/ (KConn, c) ∉ k_flight K) ->
        Q tt (with_drained true (with_hconn (Some c) (with_flight (res_opt (Some (KConn, c)) ∪ k_flight K) K)))
  | OCloseExit => fun Q => k_closing K = true /\ k_freed K Results = true /\ k_freed K Stmts = true /\
      Q tt (with_closing false (with_drained false K))
  | OGetConn => fun Q => forall c, (k_hlock K = true -> forall c', k_hconn K = Some c' -> c = c') ->
      Q c (with_conn (Some c) (if k_hlock K then with_hconn (Some c) K else K))
  | OSetConn c => fun Q => k_hlock K = true /\ k_hopen K = true /\ k_hconn K = Some nilp /\ c <> nilp /\
      (KConn, c) ∈ k_flight K /\ Q tt (with_flight (k_flight K ∖ {[(KConn, c)]}) (with_hconn (Some c) K))
  | OAdd t x => fun Q => sort x = t /\ res_set x ⊆ k_flight K /\ k_obj_ok K x /\ stmt_held K (result_of x) /\ k_counted K = true /\ k_open K = true /\
      forall i, Q i (with_flight (k_flight K ∖ res_set x) K)
  | OGet t _ => fun Q => Q None K /\ forall o, Q (Some o) (with_items ({[o]} ∪ k_items K) K)
  | OFind t _ => fun Q => k_table K t <> NotHeld /\
      Q None K /\ forall o, Q (Some o) (with_items ({[o]} ∪ k_items K) K)
  | OAll t => fun Q => k_table K t <> NotHeld /\
      forall l, Q l (with_table t (HeldAll l) (with_items (list_to_set l ∪ k_items K) K))
  | ORemove t o => fun Q => o ∈ k_dead K /\
      match k_table K t with
      | NotHeld => False
      | HeldLock => Q tt K
      | HeldAll l => Q tt (with_table t (HeldAll (filter (fun p => p <> o) l)) K)
      end
  | ORead o => fun Q => o ∈ k_items K /\
      forall x, (forall y, k_objs K !! o = Some y -> x = y) -> Q x K
  | OWrite o x => fun Q => exists y, k_objs K !! o = Some y /\ sort x = sort y /\ (resources x = resources y \/ resources x = []) /\
      k_obj_ok K x /\ (result_of x = result_of y \/ result_of x = nilp) /\ Q tt (with_objs (<[o := x]> (k_objs K)) K)
  | OMakeBuf _ => fun Q => forall b, Q b (with_bufs ({[b]} ∪ k_bufs K) K)
  | OCapBuf b => fun Q => b ∈ k_bufs K /\ forall c, Q c K
  | OFillBuf b _ => fun Q => b ∈ k_bufs K /\ Q tt K
  | OSend _ => fun Q => Q tt K
  | OPoolGet => fun Q => Q tt (with_pool (S (k_pool K)) K)
  | OPoolPut => fun Q => (0 < k_pool K)%nat /\ Q tt (with_pool (pred (k_pool K)) K)
  | OAcquire s => fun Q => Q tt (with_sem (upd (k_sem K) s (S (k_sem K s))) K)
  | ORelease s => fun Q => (0 < k_sem K s)%nat /\ Q tt (with_sem (upd (k_sem K) s (pred (k_sem K s))) K)
  | OGoWaitSignal => fun Q => Q tt K
  | OPutHandles => fun Q => Q tt K
  | OWaitDone => fun Q => k_counted K = true /\ Q tt (with_counted false false K)
  | OCall c => fun Q => (forall r, r ∈ uses c -> allowed K c r) /\
      (forall r, frees c = Some r -> snd r = nilp \/ r ∈ k_flight K) /\
      pending (with_flight (k_flight K ∖ res_opt (frees c)) K) c Q
  end.

(** At its end a goroutine holds nothing and has given everything back. *)
Definition final (K : know) : Prop :=
  k_hlock K = false /\ (forall t, k_table K t = NotHeld) /\ k_objs K = ∅ /\ k_flight K = ∅ /\
  k_counted K = false /\ k_closing K = false /\ k_pool K = 0%nat /\ (forall s, k_sem K s = 0%nat).

Fixpoint wp {A} (Q : A -> know -> Prop) (K : know) (p : prog A) : Prop :=
  match p with
  | Done a => Q a K
  | Crash => True
  | Vis e k => pre K e (fun x K' => wp Q K' (k x))
  end.


(** ** When the knowledge is right *)

Definition times (i : nat) (l : list nat) : nat := length (filter (fun j => j = i) l).
#[local] Arguments upd : simpl never.
#[local] Arguments at_ : simpl never.
Definition sem_times (s : sem) (i : nat) (l : list (sem * nat)) : nat := length (filter (fun x => x = (s, i)) l).
#[local] Arguments times : simpl never.
#[local] Arguments sem_times : simpl never.

Definition dead (w : world) (o : nat) : Prop := exists x l, w_objs w !! o = Some (x, l) /\ resources x = [].

Record holds (i : nat) (K : know) (w : world) : Prop := mkHolds {
  h_hlock : w_hlock w = Some i <-> k_hlock K = true;
  h_hopen : k_hlock K = true -> k_hopen K = true -> w_closed w = false;
  h_hconn : k_hlock K = true -> forall c, k_hconn K = Some c -> w_conn w = c;
  h_tlock : forall t, t_lock (get_table t w) = Some i <-> k_table K t <> NotHeld;
  h_tlist : forall t l, k_table K t = HeldAll l -> t_list (get_table t w) = l;
  h_objs : forall o x, w_objs w !! o = Some (x, Some i) <-> k_objs K !! o = Some x;
  h_flight : forall r, w_live w !! r = Some (Goroutine i) <-> r ∈ k_flight K;
  h_sres : k_sres K ⊆ w_sres w;
  h_items : forall o, o ∈ k_items K -> (o < length (w_objs w))%nat;
  h_bufs : forall b, b ∈ k_bufs K -> (b < length (w_bufs w))%nat;
  h_dead : forall o, o ∈ k_dead K -> dead w o;
  h_counted : i ∈ w_wait w <-> k_counted K = true;
  h_open : k_counted K = true -> k_open K = true -> w_drained w = false;
  h_conn : forall c, k_conn K = Some c -> c <> nilp -> w_conn w = c;
  h_closing : k_closing K = true ->
    k_hlock K = true /\ w_closed w = true /\ w_exit w = false /\ w_drained w = k_drained K /\ w_once w = k_once K;
  h_freed : forall t, k_freed K t = true -> w_drained w = true /\ t_list (get_table t w) = [];
  h_pool : times i (w_pool w) = k_pool K;
  h_sem : forall s, sem_times s i (w_sems w) = k_sem K s }.

(** What a step of another goroutine leaves alone for goroutine [j]. *)
Record other (j : nat) (w w' : world) : Prop := mkOther {
  o_hlock : w_hlock w' = Some j <-> w_hlock w = Some j;
  o_closed : w_hlock w = Some j -> w_closed w' = w_closed w /\ w_conn w' = w_conn w /\
    w_exit w' = w_exit w /\ w_drained w' = w_drained w /\ w_once w' = w_once w;
  o_tlock : forall t, t_lock (get_table t w') = Some j <-> t_lock (get_table t w) = Some j;
  o_tlist : forall t, t_lock (get_table t w) = Some j -> t_list (get_table t w') = t_list (get_table t w);
  o_objs : forall o x, w_objs w' !! o = Some (x, Some j) <-> w_objs w !! o = Some (x, Some j);
  o_flight : forall r, w_live w' !! r = Some (Goroutine j) <-> w_live w !! r = Some (Goroutine j);
  o_sres : w_sres w ⊆ w_sres w';
  o_items : (length (w_objs w) <= length (w_objs w'))%nat;
  o_bufs : (length (w_bufs w) <= length (w_bufs w'))%nat;
  o_dead : forall o, dead w o -> dead w' o;
  o_counted : j ∈ w_wait w' <-> j ∈ w_wait w;
  o_drained : j ∈ w_wait w -> w_drained w = false -> w_drained w' = false;
  o_conn : w_conn w <> nilp -> w_conn w' = w_conn w;
  o_freed : w_drained w = true -> w_drained w' = true /\
    forall t, t_list (get_table t w) = [] -> t_list (get_table t w') = [];
  o_pool : times j (w_pool w') = times j (w_pool w);
  o_sem : forall s, sem_times s j (w_sems w') = sem_times s j (w_sems w) }.

Lemma holds_other j K w w' : holds j K w -> other j w w' -> holds j K w'.
Proof.
  intros H O. constructor.
  - rewrite (o_hlock _ _ _ O). apply H.
  - intros Hl Ho. destruct (o_closed _ _ _ O) as [-> _]; [by apply H|]. by apply (h_hopen _ _ _ H).
  - intros Hl c Hc. destruct (o_closed _ _ _ O) as (_ & -> & _); [by apply H|]. by apply (h_hconn _ _ _ H).
  - intros t. rewrite (o_tlock _ _ _ O). apply H.
  - intros t l Hl. rewrite (o_tlist _ _ _ O); [by apply (h_tlist _ _ _ H)|]. apply H. by rewrite Hl.
  - intros o x. rewrite (o_objs _ _ _ O). apply H.
  - intros r. rewrite (o_flight _ _ _ O). apply H.
  - etransitivity; [apply (h_sres _ _ _ H)|apply (o_sres _ _ _ O)].
  - intros o Ho. pose proof (o_items _ _ _ O). pose proof (h_items _ _ _ H o Ho). lia.
  - intros b Hb. pose proof (o_bufs _ _ _ O). pose proof (h_bufs _ _ _ H b Hb). lia.
  - intros o Ho. eapply o_dead, (h_dead _ _ _ H); eauto.
  - rewrite (o_counted _ _ _ O). apply H.
  - intros Hc Ho. eapply o_drained; [done|by apply H|]. by apply (h_open _ _ _ H).
  - intros c Hc Hn. pose proof (h_conn _ _ _ H c Hc Hn) as E. rewrite (o_conn _ _ _ O); by rewrite E.
  - intros Hc. destruct (h_closing _ _ _ H Hc) as (Hl & E1 & E2 & E3).
    destruct (o_closed _ _ _ O) as (-> & _ & -> & -> & ->); [by apply H|]. done.
  - intros t Ht. destruct (h_freed _ _ _ H t Ht) as [Hd El]. destruct (o_freed _ _ _ O Hd) as [? Hf]. auto.
  - rewrite (o_pool _ _ _ O). apply H.
  - intros s. rewrite (o_sem _ _ _ O). apply H.
Qed.

(** ** The invariant of the shared state *)

Definition obj_ok (w : world) (x : obj) : Prop :=
  lent x ⊆ w_sres w /\ (result_of x = nilp \/ result_of x ∈ dom (w_sres w)) /\
  forall b, buffer x = Some b -> (b < length (w_bufs w))%nat.

Record inv (w : world) : Prop := mkInv {
  i_objs : forall o x r, w_objs w !! o = Some (x, None) -> r ∈ resources x -> w_live w !! r = Some (Item o);
  i_item : forall o r, w_live w !! r = Some (Item o) -> exists x, w_objs w !! o = Some (x, None) /\ r ∈ resources x;
  i_listed : forall o x l, w_objs w !! o = Some (x, l) -> resources x <> [] -> exists t, o ∈ t_list (get_table t w);
  i_list : forall t o, o ∈ t_list (get_table t w) -> (o < length (w_objs w))%nat;
  i_ok : forall o x l, w_objs w !! o = Some (x, l) -> obj_ok w x;
  i_conn : w_conn w <> nilp -> w_drained w = false -> w_live w !! (KConn, w_conn w) = Some Handle;
  i_handle : forall r, w_live w !! r = Some Handle -> r = (KConn, w_conn w) /\ w_conn w <> nilp /\ w_drained w = false;
  i_drained : w_drained w = true -> w_closed w = true;
  i_exit : w_exit w = true -> w_drained w = true /\ forall t, t_list (get_table t w) = [];
  i_ever : forall r, is_Some (w_live w !! r) -> r ∈ w_ever w;
  i_nonnil : forall r, is_Some (w_live w !! r) -> snd r <> nilp;
  i_sort : forall t o x l, o ∈ t_list (get_table t w) -> w_objs w !! o = Some (x, l) -> sort x = t;
  i_sres : forall p, p ∈ dom (w_sres w) -> (KResult, p) ∉ w_ever w;
  i_once : w_once w = true -> w_closed w = true }.


(** ** One operation keeps everything right *)

Definition good {X} (i : nat) (w : world) (Q : X -> know -> Prop) (r : outcome (X * world)) : Prop :=
  match r with
  | Ok (x, w') => inv w' /\ (exists K', Q x K' /\ holds i K' w') /\ forall j, j <> i -> other j w w'
  | Bad => False
  | _ => True
  end.

Lemma other_refl j w : other j w w.
Proof. by constructor. Qed.
#[local] Hint Resolve other_refl : core.

Lemma get_set_table t t' x w : get_table t (set_table t' x w) = if decide (t = t') then x else get_table t w.
Proof. by destruct t, t'. Qed.

Lemma mine_spec i l : mine i l = true <-> l = Some i.
Proof.
  destruct l as [j|]; cbn; [|done]. rewrite Nat.eqb_eq. split; [by intros ->|by intros [= ->]].
Qed.

Lemma times_cons i j l : times j (i :: l) = ((if decide (i = j) then 1 else 0) + times j l)%nat.
Proof. unfold times. rewrite filter_cons. by case_decide. Qed.

Lemma times_delete i j n (l : list nat) : l !! n = Some i -> times j (delete n l) = (times j l - (if decide (i = j) then 1 else 0))%nat.
Proof.
  revert n. induction l as [|k l IH]; intros [|n]; try done.
  - intros [= ->]. change (delete 0%nat (i :: l)) with l. rewrite times_cons. lia.
  - intros Hn. change (delete (S n) (k :: l)) with (k :: delete n l). cbn in Hn. rewrite !times_cons, (IH _ Hn).
    destruct (decide (i = j)) as [->|]; [|lia].
    assert (0 < times j l)%nat; [|lia]. unfold times.
    apply list_elem_of_lookup_2 in Hn. assert (Hf : j ∈ filter (fun k => k = j) l) by (by apply list_elem_of_filter).
    destruct (filter _ l); [by apply not_elem_of_nil in Hf|cbn; lia].
Qed.

(** The operations that touch one field nobody else looks at. *)
Section Ops.
Context (i : nat) (w : world) (K : know) (Hw : inv w) (HK : holds i K w).

Lemma inv_frame w' :
  w_objs w' = w_objs w -> w_live w' = w_live w -> (forall t, t_list (get_table t w') = t_list (get_table t w)) ->
  (length (w_bufs w) <= length (w_bufs w'))%nat -> w_sres w' = w_sres w -> w_conn w' = w_conn w ->
  w_drained w' = w_drained w -> (w_closed w = true -> w_closed w' = true) -> w_exit w' = w_exit w -> w_ever w' = w_ever w ->
  w_once w' = w_once w -> inv w'.
Proof.
  intros E1 E2 E3 E4 E5 E6 E7 E8 E9 E10 E11. constructor; rewrite ?E1, ?E2, ?E5, ?E6, ?E7, ?E9, ?E10, ?E11; try apply Hw.
  - intros o x l Ho Hr. destruct (i_listed _ Hw o x l Ho Hr) as [t Ht]. exists t. by rewrite E3.
  - intros t o. rewrite E3. apply Hw.
  - intros o x l Ho. destruct (i_ok _ Hw o x l Ho) as (Hb & Hs & Hf). unfold obj_ok. rewrite E5. split; [done|]. split; [done|].
    intros b Hx. specialize (Hf b Hx). lia.
  - intros Hd. by apply E8, Hw.
  - intros He. destruct (i_exit _ Hw He) as [Hd Hl]. split; [done|]. intros t. by rewrite E3.
  - intros t o x l. rewrite E3. apply Hw.
  - intros Ho. by apply E8, (i_once _ Hw).
Qed.

Context (a : oracle).

Lemma ok_IsClosed Q : pre K OIsClosed Q -> good i w Q (exec_op i a OIsClosed w).
Proof.
  intros [Ht Hf]. cbn. destruct (w_closed w) eqn:E; (split; [done|]; split; [|done]).
  - by exists K.
  - eexists. split; [exact Hf|]. constructor; cbn; try apply HK; try done.
    intros Hc _. destruct (w_drained w) eqn:Ed; [|done]. by rewrite (i_drained _ Hw Ed) in E.
Qed.

Lemma ok_Once Q : pre K OOnce Q -> good i w Q (exec_op i a OOnce w).
Proof.
  intros [Hc HQ]. cbn. destruct (h_closing _ _ _ HK Hc) as (Hl & Hcl & He & Hd & Ho).
  pose proof (proj2 (h_hlock _ _ _ HK) Hl) as Hm. split; [constructor; cbn; try apply Hw; done|]. split.
  - eexists. rewrite Ho. split; [exact HQ|]. constructor; cbn; try apply HK; done.
  - intros j Hj. constructor; cbn; try done. rewrite Hm. congruence.
Qed.

Lemma ok_GetConn Q : pre K OGetConn Q -> good i w Q (exec_op i a OGetConn w).
Proof.
  intros HQ. cbn. split; [done|]. split; [|done]. eexists. split.
  - apply (HQ (w_conn w)). intros Hl c' Hc. by apply (h_hconn _ _ _ HK).
  - destruct (k_hlock K) eqn:Hl; constructor; cbn; try apply HK; try congruence;
      try (by rewrite Hl; apply HK); by intros c [= <-].
Qed.

Lemma search_lt t index o : search w t index = Some o -> (o < length (w_objs w))%nat.
Proof.
  unfold search. intros Hs. destruct (filter _ _) as [|x l] eqn:E; [done|]. injection Hs as <-.
  assert (Ho : x ∈ filter (index_is w index) (t_list (get_table t w))) by (rewrite E; left).
  apply list_elem_of_filter in Ho as [_ Ho]. by eapply i_list.
Qed.

Lemma ok_search t index (Q : option nat -> know -> Prop) :
  Q None K -> (forall o, Q (Some o) (with_items ({[o]} ∪ k_items K) K)) -> good i w Q (Ok (search w t index, w)).
Proof.
  intros Hn Hs. split; [done|]. split; [|done]. destruct (search w t index) as [o|] eqn:E; [|by exists K].
  eexists. split; [apply Hs|]. constructor; cbn; try apply HK. intros o' [->%elem_of_singleton|Ho]%elem_of_union.
  - by eapply search_lt. - by apply HK.
Qed.

Lemma ok_Get t index Q : pre K (OGet t index) Q -> good i w Q (exec_op i a (OGet t index) w).
Proof. intros [Hn Hs]. cbn. destruct (free_or_mine _); [by apply ok_search|done]. Qed.

Lemma table_mine t : k_table K t <> NotHeld -> mine i (t_lock (get_table t w)) = true.
Proof. intros H. by apply mine_spec, HK. Qed.

Lemma ok_Find t index Q : pre K (OFind t index) Q -> good i w Q (exec_op i a (OFind t index) w).
Proof. intros (Hl & Hn & Hs). cbn. rewrite table_mine by done. by apply ok_search. Qed.

Lemma ok_All t Q : pre K (OAll t) Q -> good i w Q (exec_op i a (OAll t) w).
Proof.
  intros (Hl & Hs). cbn. rewrite table_mine by done. split; [done|]. split; [|done]. eexists. split; [apply Hs|].
  constructor; cbn; try apply HK.
  - intros t'. rewrite upd_at. case_decide as Et; [subst t'|apply HK]. split; [done|]. intros _. by apply HK.
  - intros t' l. rewrite upd_at. case_decide as Et; [subst t'; by intros [= <-]|apply HK].
  - intros o [Ho%elem_of_list_to_set|Ho]%elem_of_union; [by eapply i_list|by apply HK].
Qed.

Lemma ok_Read o Q : pre K (ORead o) Q -> good i w Q (exec_op i a (ORead o) w).
Proof.
  intros (Ho & Hs). cbn. destruct (lookup_lt_is_Some_2 _ _ (h_items _ _ _ HK o Ho)) as [[x l] Hx]. rewrite Hx.
  split; [done|]. split; [|done]. exists K. split; [|done]. apply Hs. intros y Hy.
  apply (h_objs _ _ _ HK) in Hy. congruence.
Qed.

Lemma ok_CapBuf b Q : pre K (OCapBuf b) Q -> good i w Q (exec_op i a (OCapBuf b) w).
Proof.
  intros (Hb & Hs). apply (h_bufs _ _ _ HK), lookup_lt_is_Some_2 in Hb as [x Hx]. cbn.
  destruct (w_bufs w !! b); [|done]. split; [done|]. split; [|done]. by exists K.
Qed.

Lemma ok_GoWaitSignal Q : pre K OGoWaitSignal Q -> good i w Q (exec_op i a OGoWaitSignal w).
Proof. intros HQ. split; [done|]. split; [|done]. by exists K. Qed.

Lemma ok_SetClosed Q : pre K OSetClosed Q -> good i w Q (exec_op i a OSetClosed w).
Proof.
  intros (Hl & Ho & HQ). cbn. pose proof (proj2 (h_hlock _ _ _ HK) Hl) as Hm.
  pose proof (h_hopen _ _ _ HK Hl Ho) as Hc. split; [by apply inv_frame|]. split.
  - eexists. split; [exact HQ|]. constructor; cbn; try apply HK; try done. intros _. split; [done|]. split; [done|]. split.
    + destruct (w_exit w) eqn:E; [|done]. destruct (i_exit _ Hw E) as [Hd%(i_drained _ Hw) _]. congruence.
    + split; [destruct (w_drained w) eqn:E; [|done]; apply (i_drained _ Hw) in E; congruence|].
      destruct (w_once w) eqn:E; [|done]. apply (i_once _ Hw) in E. congruence.
  - intros j Hj. constructor; cbn; try done. rewrite Hm. congruence.
Qed.

Lemma ok_CloseExit Q : pre K OCloseExit Q -> good i w Q (exec_op i a OCloseExit w).
Proof.
  intros (Hc & Hr & Hs & HQ). destruct (h_closing _ _ _ HK Hc) as (Hl & Hcl & He & Hd). cbn. rewrite He.
  pose proof (proj2 (h_hlock _ _ _ HK) Hl) as Hm.
  destruct (h_freed _ _ _ HK _ Hr) as [Hd' Er]. destruct (h_freed _ _ _ HK _ Hs) as [_ Es]. split; [|split].
  - constructor; cbn; try apply Hw. intros _. split; [done|]. by intros [].
  - eexists. split; [exact HQ|]. constructor; cbn; try apply HK; done.
  - intros j Hj. constructor; cbn; try done. rewrite Hm. congruence.
Qed.

Lemma ok_MakeBuf n Q : pre K (OMakeBuf n) Q -> good i w Q (exec_op i a (OMakeBuf n) w).
Proof.
  intros HQ. cbn. split; [apply inv_frame; try done; cbn; rewrite length_app; lia|]. split.
  - eexists. split; [apply HQ|]. constructor; cbn; try apply HK. rewrite length_app. cbn.
    intros b [->%elem_of_singleton|Hb]%elem_of_union; [lia|]. pose proof (h_bufs _ _ _ HK b Hb). lia.
  - intros j Hj. constructor; cbn; try done. rewrite length_app. lia.
Qed.

Lemma ok_FillBuf b d Q : pre K (OFillBuf b d) Q -> good i w Q (exec_op i a (OFillBuf b d) w).
Proof.
  intros (Hb & HQ). apply (h_bufs _ _ _ HK), lookup_lt_is_Some_2 in Hb as [x Hx]. cbn.
  destruct (w_bufs w !! b); [|done]. split; [apply inv_frame; try done; cbn; by rewrite length_insert|]. split.
  - exists K. split; [done|]. constructor; cbn; try apply HK. rewrite length_insert. apply HK.
  - intros j Hj. constructor; cbn; try done. by rewrite length_insert.
Qed.

Lemma ok_Send m Q : pre K (OSend m) Q -> good i w Q (exec_op i a (OSend m) w).
Proof.
  intros HQ. cbn. split; [by apply inv_frame|]. split; [|by constructor].
  exists K. split; [done|]. constructor; apply HK.
Qed.

Lemma ok_PutHandles Q : pre K OPutHandles Q -> good i w Q (exec_op i a OPutHandles w).
Proof.
  intros HQ. cbn. split; [by apply inv_frame|]. split; [|by constructor].
  exists K. split; [done|]. constructor; apply HK.
Qed.

Lemma ok_PoolGet Q : pre K OPoolGet Q -> good i w Q (exec_op i a OPoolGet w).
Proof.
  intros HQ. cbn. match goal with |- context [if ?b then _ else _] => destruct b end; [|done].
  split; [by apply inv_frame|]. split.
  - eexists. split; [exact HQ|]. constructor; cbn; try apply HK. rewrite times_cons, decide_True by done.
    by rewrite (h_pool _ _ _ HK).
  - intros j Hj. constructor; cbn; try done. by rewrite times_cons, decide_False by congruence.
Qed.

Lemma times_pos j l : (0 < times j l)%nat -> exists n, list_find (j =.) l = Some (n, j) /\ l !! n = Some j.
Proof.
  unfold times. intros H. destruct (filter (fun k => k = j) l) as [|k l'] eqn:E; [cbn in H; lia|].
  assert (Hk : k ∈ filter (fun k => k = j) l) by (rewrite E; left). apply list_elem_of_filter in Hk as [-> Hk].
  destruct (list_find_elem_of (j =.) l j Hk eq_refl) as [[n x] Hf]. exists n.
  apply list_find_Some in Hf as Hf'. destruct Hf' as (Hl & <- & _). done.
Qed.

Lemma ok_PoolPut Q : pre K OPoolPut Q -> good i w Q (exec_op i a OPoolPut w).
Proof.
  intros (Hp & HQ). rewrite <- (h_pool _ _ _ HK) in Hp. destruct (times_pos _ _ Hp) as (n & Hf & Hn).
  cbn. rewrite Hf. split; [by apply inv_frame|]. split.
  - eexists. split; [exact HQ|]. constructor; cbn; try apply HK.
    rewrite (times_delete i _ n _ Hn), decide_True by done. rewrite (h_pool _ _ _ HK). lia.
  - intros j Hj. constructor; cbn; try done. rewrite (times_delete i _ n _ Hn), decide_False by congruence. lia.
Qed.

Lemma ok_WaitDone Q : pre K OWaitDone Q -> good i w Q (exec_op i a OWaitDone w).
Proof.
  intros (Hc & HQ). cbn. split; [by apply inv_frame|]. split.
  - eexists. split; [exact HQ|]. constructor; cbn; try apply HK; try done.
    split; [|done]. intros [? _]%list_elem_of_filter. done.
  - intros j Hj. constructor; cbn; try done; rewrite list_elem_of_filter; naive_solver.
Qed.

Lemma sem_times_cons s j (x : sem * nat) l : sem_times s j (x :: l) = ((if decide (x = (s, j)) then 1 else 0) + sem_times s j l)%nat.
Proof. unfold sem_times. rewrite filter_cons. by case_decide. Qed.

Lemma sem_times_delete s j n x (l : list (sem * nat)) :
  l !! n = Some x -> sem_times s j (delete n l) = (sem_times s j l - (if decide (x = (s, j)) then 1 else 0))%nat.
Proof.
  revert n. induction l as [|k l IH]; intros [|n]; try done.
  - intros [= ->]. change (delete 0%nat (x :: l)) with l. rewrite sem_times_cons. lia.
  - intros Hn. change (delete (S n) (k :: l)) with (k :: delete n l). cbn in Hn. rewrite !sem_times_cons, (IH _ Hn).
    destruct (decide (x = (s, j))) as [->|]; [|lia].
    assert (0 < sem_times s j l)%nat; [|lia]. unfold sem_times.
    apply list_elem_of_lookup_2 in Hn. assert (Hf : (s, j) ∈ filter (fun k => k = (s, j)) l) by (by apply list_elem_of_filter).
    destruct (filter _ l); [by apply not_elem_of_nil in Hf|cbn; lia].
Qed.

Lemma ok_Acquire s Q : pre K (OAcquire s) Q -> good i w Q (exec_op i a (OAcquire s) w).
Proof.
  intros HQ. cbn. match goal with |- context [if ?b then _ else _] => destruct b end; [|done].
  split; [by apply inv_frame|]. split.
  - eexists. split; [exact HQ|]. constructor; cbn; try apply HK. intros s'. rewrite sem_times_cons, upd_at.
    rewrite <- !(h_sem _ _ _ HK). repeat case_decide; simplify_eq; lia.
  - intros j Hj. constructor; cbn; try done. intros s'. rewrite sem_times_cons, decide_False by congruence. done.
Qed.

Lemma ok_Release s Q : pre K (ORelease s) Q -> good i w Q (exec_op i a (ORelease s) w).
Proof.
  intros (Hp & HQ). rewrite <- (h_sem _ _ _ HK) in Hp.
  assert (exists n, list_find ((s, i) =.) (w_sems w) = Some (n, (s, i)) /\ w_sems w !! n = Some (s, i)) as (n & Hf & Hn).
  { unfold sem_times in Hp. destruct (filter (fun x => x = (s, i)) (w_sems w)) as [|k l'] eqn:E; [cbn in Hp; lia|].
    assert (Hk : k ∈ filter (fun x => x = (s, i)) (w_sems w)) by (rewrite E; left). apply list_elem_of_filter in Hk as [-> Hk].
    destruct (list_find_elem_of ((s, i) =.) _ _ Hk eq_refl) as [[n x] Hf]. exists n.
    apply list_find_Some in Hf as Hf'. destruct Hf' as (Hl & <- & _). done. }
  cbn. rewrite Hf. split; [by apply inv_frame|]. split.
  - eexists. split; [exact HQ|]. constructor; cbn; try apply HK. intros s'.
    rewrite (sem_times_delete _ _ n _ _ Hn), (h_sem _ _ _ HK), upd_at. repeat case_decide; simplify_eq; lia.
  - intros j Hj. constructor; cbn; try done. intros s'. rewrite (sem_times_delete _ _ n _ _ Hn), decide_False by congruence. lia.
Qed.

(** *** Locks of the handler and of the lists *)

Lemma ok_LockHandler Q : pre K (OLock LHandler) Q -> good i w Q (exec_op i a (OLock LHandler) w).
Proof.
  intros (Hl & HQ). cbn. destruct (w_hlock w) eqn:E; [done|]. split; [by apply inv_frame|]. split.
  - eexists. split; [exact HQ|]. constructor; cbn; try apply HK; try done.
    intros Hc. destruct (h_closing _ _ _ HK Hc). congruence.
  - intros j Hj. constructor; cbn; try done; rewrite ?E; naive_solver.
Qed.

Lemma ok_UnlockHandler Q : pre K (OUnlock LHandler) Q -> good i w Q (exec_op i a (OUnlock LHandler) w).
Proof.
  intros (Hl & Hc & HQ). cbn. pose proof (proj2 (h_hlock _ _ _ HK) Hl) as E. rewrite (proj2 (mine_spec _ _) E).
  split; [by apply inv_frame|]. split.
  - eexists. split; [exact HQ|]. constructor; cbn; try apply HK; try done. rewrite Hc. done.
  - intros j Hj. constructor; cbn; try done; rewrite ?E; naive_solver.
Qed.

(** Changing only the lock of a list. *)
Lemma inv_relock t l : inv (set_table t (mkTable (t_index (get_table t w)) (t_list (get_table t w)) l) w).
Proof. apply inv_frame; try done. intros t'. rewrite get_set_table. by case_decide; subst. Qed.

Lemma other_relock t l j :
  t_lock (get_table t w) <> Some j -> l <> Some j ->
  other j w (set_table t (mkTable (t_index (get_table t w)) (t_list (get_table t w)) l) w).
Proof.
  intros H1 H2. constructor; cbn; try done.
  - intros t'. rewrite get_set_table. case_decide; subst; done.
  - intros t'. rewrite get_set_table. case_decide; subst; done.
  - intros Hd. split; [done|]. intros t'. rewrite get_set_table. case_decide; subst; done.
Qed.

Lemma ok_LockTable t Q : pre K (OLock (LTable t)) Q -> good i w Q (exec_op i a (OLock (LTable t)) w).
Proof.
  intros (Hl & HQ). cbn. destruct (t_lock (get_table t w)) eqn:E; [done|]. split; [apply inv_relock|]. split.
  - eexists. split; [exact HQ|]. constructor; try apply HK; cbn [k_table with_table k_freed].
    + intros t'. rewrite get_set_table, upd_at. case_decide; subst; [done|apply HK].
    + intros t' l. rewrite get_set_table, upd_at. case_decide; subst; [done|apply HK].
    + intros t' Hf. rewrite get_set_table. destruct (h_freed _ _ _ HK _ Hf). case_decide; subst; done.
  - intros j Hj. apply other_relock; congruence.
Qed.

Lemma ok_UnlockTable t Q : pre K (OUnlock (LTable t)) Q -> good i w Q (exec_op i a (OUnlock (LTable t)) w).
Proof.
  intros (Hl & HQ). cbn. rewrite table_mine by done. split; [apply inv_relock|]. split.
  - eexists. split; [exact HQ|]. constructor; try apply HK; cbn [k_table with_table k_freed with_freed k_closing].
    + intros t'. rewrite get_set_table, upd_at. case_decide; subst; [done|apply HK].
    + intros t' l. rewrite get_set_table, upd_at. case_decide; subst; [done|apply HK].
    + intros t'. rewrite get_set_table, upd_at. case_decide; subst; [|apply HK]. cbn [t_list].
      intros [Hf|((Hc & Hd)%andb_true_iff & He)%andb_true_iff]%orb_true_iff; [by apply HK|].
      destruct (h_closing _ _ _ HK Hc) as (_ & _ & _ & Ed & _). rewrite Hd in Ed. split; [done|].
      destruct (k_table K t) as [| |[|]] eqn:Et; try done. by apply (h_tlist _ _ _ HK).
  - intros j Hj. apply other_relock; [|done]. rewrite (proj2 (h_tlock _ _ _ HK t) Hl). congruence.
Qed.

(** *** Locks of the items *)

Definition owner_of (o : nat) (l : option nat) : owner := match l with None => Item o | Some j => Goroutine j end.

Definition relock (o : nat) (x : obj) (l : option nat) : world :=
  set_live (hand (resources x) (owner_of o l) (w_live w)) (set_objs (<[o := (x, l)]> (w_objs w)) w).

Lemma inv_relock_obj o x l l' :
  w_objs w !! o = Some (x, l) -> (forall r, r ∈ resources x -> w_live w !! r = Some (owner_of o l)) ->
  inv (relock o x l').
Proof.
  intros Ho Hl. pose proof (lookup_lt_Some _ _ _ Ho) as Hlt.
  constructor; unfold relock; cbn; try apply Hw.
  - intros o' x' r. rewrite lookup_hand, list_lookup_insert_Some. intros [(-> & [= <- ->] & _)|[Hn Ho']] Hr.
    + by rewrite decide_True, (Hl r Hr) by done.
    + pose proof (i_objs _ Hw _ _ _ Ho' Hr) as E. rewrite decide_False; [done|]. intros Hx.
      rewrite (Hl r Hx) in E. destruct l; cbn in E; congruence.
  - intros o' r. rewrite lookup_hand. case_decide as Hr.
    + rewrite (Hl r Hr). cbn. intros E. destruct l' as [j|]; cbn in E; [done|]. injection E as <-.
      exists x. by rewrite list_lookup_insert_eq.
    + intros (x' & Ho' & Hr')%(i_item _ Hw). exists x'. rewrite list_lookup_insert_ne; [done|]. congruence.
  - intros o' x' l0. rewrite list_lookup_insert_Some. intros [(-> & [= <- ->] & _)|[Hn Ho']] Hr.
    + by eapply (i_listed _ Hw).
    + by eapply (i_listed _ Hw).
  - rewrite length_insert. apply Hw.
  - intros o' x' l0. rewrite list_lookup_insert_Some. intros [(-> & [= <- ->] & _)|[Hn Ho']]; by eapply (i_ok _ Hw).
  - intros Hc Hd. rewrite lookup_hand. pose proof (i_conn _ Hw Hc Hd) as E. rewrite decide_False; [done|].
    intros Hr. specialize (Hl _ Hr). destruct l; cbn in Hl; congruence.
  - intros r. rewrite lookup_hand. case_decide as Hr; [|apply Hw]. rewrite (Hl r Hr). by destruct l'.
  - intros r Hr. apply (i_ever _ Hw). rewrite lookup_hand in Hr. case_decide; [|done]. by rewrite fmap_is_Some in Hr.
  - intros r Hr. apply (i_nonnil _ Hw). rewrite lookup_hand in Hr. case_decide; [|done]. by rewrite fmap_is_Some in Hr.
  - intros t o' x' l0 Ht. rewrite list_lookup_insert_Some.
    intros [(-> & [= <- ->] & _)|[_ Ho']]; by eapply (i_sort _ Hw).
Qed.

Lemma other_relock_obj o x l l' j :
  w_objs w !! o = Some (x, l) -> (forall r, r ∈ resources x -> w_live w !! r = Some (owner_of o l)) ->
  l <> Some j -> l' <> Some j -> other j w (relock o x l').
Proof.
  intros Ho Hl H1 H2. pose proof (lookup_lt_Some _ _ _ Ho) as Hlt. constructor; unfold relock; cbn; try done.
  - intros o' x'. rewrite list_lookup_insert_Some. split; [naive_solver|]. intros Ho'. right. split; [|done]. congruence.
  - intros r. rewrite lookup_hand. case_decide as Hr; [|done]. rewrite (Hl r Hr). cbn.
    destruct l, l'; cbn; split; congruence.
  - by rewrite length_insert.
  - intros o' (x' & l0 & Ho' & Hr). unfold dead. cbn. destruct (decide (o' = o)) as [->|Hn].
    + exists x, l'. rewrite list_lookup_insert_eq by done. split; [done|]. congruence.
    + exists x', l0. by rewrite list_lookup_insert_ne.
Qed.

Lemma ok_LockObj o Q : pre K (OLock (LObj o)) Q -> good i w Q (exec_op i a (OLock (LObj o)) w).
Proof.
  intros (Hi & Hn & HQ). cbn. destruct (lookup_lt_is_Some_2 _ _ (h_items _ _ _ HK o Hi)) as [[x l] Ho].
  pose proof (lookup_lt_Some _ _ _ Ho) as Hlt. rewrite Ho.
  destruct l; [done|]. assert (Hl : forall r, r ∈ resources x -> w_live w !! r = Some (owner_of o None)).
  { intros r Hr. by apply (i_objs _ Hw _ _ _ Ho). }
  change (set_live _ _) with (relock o x (Some i)). split; [by eapply inv_relock_obj|]. split.
  - eexists. split; [apply (HQ x)|].
    + intros r Hr%elem_of_list_to_set Hf%(h_flight _ _ _ HK). rewrite (Hl r Hr) in Hf. done.
    + intros r Hr. apply (i_nonnil _ Hw). by rewrite (Hl r Hr).
    + intros (x' & l' & Ho' & Hr)%(h_dead _ _ _ HK). congruence.
    + constructor; unfold relock; cbn; try apply HK.
      * intros o' x'. rewrite list_lookup_insert_Some, lookup_insert_Some, <- (h_objs _ _ _ HK). naive_solver.
      * intros r. rewrite lookup_hand, elem_of_union, <- (h_flight _ _ _ HK). unfold res_set. rewrite elem_of_list_to_set.
        case_decide as Hr; [rewrite (Hl r Hr); cbn; naive_solver|naive_solver].
      * apply map_union_least; [apply (i_ok _ Hw _ _ _ Ho)|apply HK].
      * rewrite length_insert. apply HK.
      * intros b [Hb|Hb]%elem_of_union; [|by apply HK]. destruct (i_ok _ Hw _ _ _ Ho) as (_ & _ & Hf).
        destruct (buffer x) as [b'|] eqn:Eb; [|set_solver]. apply elem_of_singleton in Hb as ->. auto.
      * intros o' Hd%(h_dead _ _ _ HK). destruct Hd as (x' & l0 & Ho' & Hr). unfold dead. cbn.
        destruct (decide (o' = o)) as [->|Hne].
        -- exists x, (Some i). rewrite list_lookup_insert_eq by done. split; [done|]. congruence.
        -- exists x', l0. by rewrite list_lookup_insert_ne.
  - intros j Hj. eapply other_relock_obj; [done|done|done|congruence].
Qed.

(** What a goroutine holds and an item has is with the goroutine. *)
Lemma flight_live x r : res_set x ⊆ k_flight K -> r ∈ resources x -> w_live w !! r = Some (Goroutine i).
Proof. intros Hf Hr. apply (h_flight _ _ _ HK), Hf. by apply elem_of_list_to_set. Qed.

Lemma ok_UnlockObj o Q : pre K (OUnlock (LObj o)) Q -> good i w Q (exec_op i a (OUnlock (LObj o)) w).
Proof.
  intros (x & Hx & Hf & HQ). pose proof (proj2 (h_objs _ _ _ HK o x) Hx) as Ho. cbn.
  pose proof (lookup_lt_Some _ _ _ Ho) as Hlt. rewrite Ho, (proj2 (mine_spec i (Some i)) eq_refl).
  assert (Hl : forall r, r ∈ resources x -> w_live w !! r = Some (owner_of o (Some i))).
  { intros r. by apply flight_live. }
  change (set_live _ _) with (relock o x None). split; [by eapply inv_relock_obj|]. split.
  - eexists. split; [apply HQ|]. constructor; unfold relock; cbn; try apply HK.
    + intros o' x'. rewrite list_lookup_insert_Some, lookup_delete_Some, <- (h_objs _ _ _ HK). naive_solver.
    + intros r. rewrite lookup_hand, elem_of_difference, <- (h_flight _ _ _ HK). unfold res_set. rewrite elem_of_list_to_set.
      case_decide as Hr; [rewrite (Hl r Hr); cbn; naive_solver|naive_solver].
    + rewrite length_insert. apply HK.
    + intros o'. unfold dead. cbn. destruct (decide (o' = o)) as [->|Hne].
      * intros Hd. exists x, None. rewrite list_lookup_insert_eq by done. split; [done|].
        apply elem_of_union in Hd as [Hd|Hd]; [case_bool_decide; set_solver|].
        apply (h_dead _ _ _ HK) in Hd as (x' & l0 & Ho' & Hr). congruence.
      * intros Hd. assert (Hd' : o' ∈ k_dead K) by (case_bool_decide; set_solver).
        apply (h_dead _ _ _ HK) in Hd' as (x' & l0 & Ho' & Hr). exists x', l0. by rewrite list_lookup_insert_ne.
  - intros j Hj. eapply other_relock_obj; [done|done|congruence|done].
Qed.

(** *** The connection *)

Lemma lookup_hand_conn c x r :
  hand [(KConn, c)] x (w_live w) !! r =
    if decide (r = (KConn, c)) then (fun _ => x) <$> w_live w !! (KConn, c) else w_live w !! r.
Proof. rewrite lookup_hand. destruct (decide (r = (KConn, c))) as [->|]; case_decide; set_solver. Qed.

Lemma ok_SetConn c Q : pre K (OSetConn c) Q -> good i w Q (exec_op i a (OSetConn c) w).
Proof.
  intros (Hl & Ho & Hn & Hc & Hf & HQ). pose proof (proj2 (h_hlock _ _ _ HK) Hl) as Hm.
  pose proof (h_hconn _ _ _ HK Hl _ Hn) as En. apply (h_flight _ _ _ HK) in Hf. cbn [exec_op].
  assert (Hd : w_drained w = false).
  { destruct (w_drained w) eqn:E; [|done]. apply (i_drained _ Hw) in E. by rewrite (h_hopen _ _ _ HK Hl Ho) in E. }
  split; [|split].
  - constructor; cbn [w_objs w_live w_conn w_drained w_closed w_exit w_ever set_live set_conn]; try apply Hw.
    + intros o x r Hx Hr. rewrite lookup_hand_conn, decide_False; [by apply (i_objs _ Hw _ _ _ Hx)|].
      intros ->. pose proof (i_objs _ Hw _ _ _ Hx Hr). congruence.
    + intros o r. rewrite lookup_hand_conn. case_decide; [|apply Hw]. rewrite Hf. done.
    + intros _ _. by rewrite lookup_hand_conn, decide_True, Hf.
    + intros r. rewrite lookup_hand_conn. case_decide as E; [by intros _|].
      intros (_ & Hx & _)%(i_handle _ Hw). done.
    + intros r Hr. apply (i_ever _ Hw). rewrite lookup_hand_conn in Hr. case_decide; [subst; by rewrite Hf|done].
    + intros r Hr. apply (i_nonnil _ Hw). rewrite lookup_hand_conn in Hr. case_decide; [subst; by rewrite Hf|done].
  - eexists. split; [exact HQ|]. constructor; cbn -[hand]; try apply HK.
    + by intros _ c' [= <-].
    + intros r. rewrite lookup_hand_conn, elem_of_difference, <- (h_flight _ _ _ HK).
      case_decide; [subst; rewrite Hf; cbn; set_solver|set_solver].
    + intros c' Hc' Hn'. pose proof (h_conn _ _ _ HK c' Hc' Hn'). congruence.
  - intros j Hj. constructor; cbn -[hand]; try done.
    + rewrite Hm. congruence.
    + intros r. rewrite lookup_hand_conn. case_decide; [subst; rewrite Hf; cbn; naive_solver|done].
Qed.

Lemma conn_live r : w_drained w = false -> r = (KConn, w_conn w) -> w_live w !! r = None \/ w_live w !! r = Some Handle.
Proof.
  intros Hd ->. destruct (decide (w_conn w = nilp)) as [E|E]; [left|right; by apply (i_conn _ Hw)].
  destruct (w_live w !! _) eqn:El; [|done]. exfalso. apply (i_nonnil _ Hw (KConn, w_conn w)); [by rewrite El|done].
Qed.

Lemma ok_WaitAll Q : pre K OWaitAll Q -> good i w Q (exec_op i a OWaitAll w).
Proof.
  intros (Hc & Hk & Hn & HQ). destruct (h_closing _ _ _ HK Hc) as (Hl & Hcl & He & Hd & Hon). rewrite Hk in Hd.
  pose proof (proj2 (h_hlock _ _ _ HK) Hl) as Hm. cbn [exec_op]. destruct (w_wait w) eqn:Ew; [|done].
  pose proof (fun r => conn_live r Hd) as Hcon. split; [|split].
  - constructor; cbn [w_objs w_live w_conn w_drained w_closed w_exit w_ever set_live set_drained]; try apply Hw; try done.
    + intros o x r Hx Hr. rewrite lookup_hand_conn, decide_False; [by apply (i_objs _ Hw _ _ _ Hx)|].
      intros Er. pose proof (i_objs _ Hw _ _ _ Hx Hr). destruct (Hcon r Er); congruence.
    + intros o r. rewrite lookup_hand_conn. case_decide as E; [|apply Hw]. destruct (_ !! _); done.
    + intros r. rewrite lookup_hand_conn. case_decide as E; [by destruct (_ !! _)|].
      intros (Hx & _)%(i_handle _ Hw). done.
    + congruence.
    + intros r Hr. apply (i_ever _ Hw). rewrite lookup_hand_conn in Hr. case_decide; [|done].
      subst. by rewrite fmap_is_Some in Hr.
    + intros r Hr. apply (i_nonnil _ Hw). rewrite lookup_hand_conn in Hr. case_decide; [|done].
      subst. by rewrite fmap_is_Some in Hr.
  - eexists. split.
    + apply (HQ (w_conn w)). destruct (decide (w_conn w = nilp)) as [|E]; [by left|right].
      rewrite <- (h_flight _ _ _ HK), (i_conn _ Hw E Hd). done.
    + constructor; cbn -[hand res_opt]; try apply HK; try congruence.
      * intros r. rewrite lookup_hand_conn, elem_of_union, <- (h_flight _ _ _ HK). unfold res_opt. cbn.
        destruct (w_conn w =? nilp) eqn:E; [apply Z.eqb_eq in E|apply Z.eqb_neq in E].
        -- case_decide as Er; [|set_solver]. rewrite <- Er. destruct (Hcon r Er) as [El|El]; [rewrite El; set_solver|].
           by destruct (i_handle _ Hw _ El) as (_ & ? & _).
        -- case_decide as Er; [|set_solver]. rewrite (i_conn _ Hw E Hd). cbn. set_solver.
      * intros _. split; [done|]. split; [done|]. by split.
      * intros t Ht. split; [done|]. by apply (h_freed _ _ _ HK).
  - intros j Hj. constructor; cbn -[hand]; try done.
    + rewrite Hm. congruence.
    + intros r. rewrite lookup_hand_conn. case_decide as Er; [|done]. rewrite <- Er.
      destruct (Hcon r Er) as [->| ->]; cbn; split; congruence.
    + rewrite Ew. by intros ?%not_elem_of_nil.
Qed.

(** *** The items *)

Lemma resources_set_index x n : resources (set_index x n) = resources x.
Proof. by destruct x. Qed.

Lemma obj_ok_know x : k_obj_ok K x -> result_of x = nilp \/ result_of x ∈ dom (w_sres w) -> obj_ok w x.
Proof.
  intros [Hb Hf] Hr. split; [|split; [done|intros b ?; by apply (h_bufs _ _ _ HK), Hf]].
  etransitivity; [done|apply (h_sres _ _ _ HK)].
Qed.

Lemma stmt_held_dom p : stmt_held K p -> p = nilp \/ p ∈ dom (w_sres w).
Proof. intros [?|(s & Hs & _)]; [by left|right]. apply elem_of_dom. exists s. by eapply lookup_weaken, (h_sres _ _ _ HK). Qed.

Definition added (t : tbl) (x : obj) (n : Z) : world :=
  set_table t (mkTable n (t_list (get_table t w) ++ [length (w_objs w)]) None)
    (set_live (hand (resources x) (Item (length (w_objs w))) (w_live w))
    (set_objs (w_objs w ++ [(set_index x n, None)]) w)).

Lemma inv_add t x n :
  sort x = t -> res_set x ⊆ k_flight K -> k_obj_ok K x -> stmt_held K (result_of x) -> w_drained w = false -> inv (added t x n).
Proof.
  intros Hso Hf Hx Hsh Hd. pose proof (fun r => flight_live x r Hf) as Hl. unfold added. set (o := length (w_objs w)).
  assert (Hnone : w_objs w !! o = None) by (apply lookup_ge_None; lia).
  constructor; cbn [w_objs w_live w_conn w_drained w_closed w_exit w_ever set_live set_objs set_table]; try apply Hw.
  - intros o' x' r. rewrite lookup_snoc, lookup_hand. intros [(-> & [= ->])|Ho'] Hr.
    + rewrite resources_set_index in Hr. by rewrite decide_True, (Hl r Hr) by done.
    + pose proof (i_objs _ Hw _ _ _ Ho' Hr). rewrite decide_False; [done|]. intros Hx'%Hl. congruence.
  - intros o' r. rewrite lookup_hand. case_decide as Hr.
    + rewrite (Hl r Hr). intros [= <-]. exists (set_index x n). rewrite lookup_snoc, resources_set_index. auto.
    + intros (x' & Ho' & Hr')%(i_item _ Hw). exists x'. rewrite lookup_snoc. auto.
  - intros o' x' l'. rewrite lookup_snoc. intros [(-> & _)|Ho'] Hr.
    + exists t. rewrite get_set_table, decide_True by done. apply elem_of_app. right. by left.
    + destruct (i_listed _ Hw _ _ _ Ho' Hr) as [t' Ht']. exists t'. rewrite get_set_table. case_decide; [subst t'|done].
      apply elem_of_app. by left.
  - intros t' o'. rewrite get_set_table, length_app. cbn. case_decide; [subst t'|].
    + intros [Ho'|Ho'%list_elem_of_singleton]%elem_of_app; [apply (i_list _ Hw) in Ho'|]; lia.
    + intros Ho'%(i_list _ Hw). lia.
  - intros o' x' l'. rewrite lookup_snoc. intros [(-> & [= -> _])|Ho']; [|by eapply (i_ok _ Hw)].
    pose proof (obj_ok_know _ Hx (stmt_held_dom _ Hsh)) as Hok. by destruct x.
  - intros Hcn _. rewrite lookup_hand. pose proof (i_conn _ Hw Hcn Hd). rewrite decide_False; [done|].
    intros Hr%Hl. congruence.
  - intros r. rewrite lookup_hand. case_decide as Hr; [by rewrite (Hl r Hr)|apply Hw].
  - intros He. destruct (i_exit _ Hw He). congruence.
  - intros r Hr. apply (i_ever _ Hw). rewrite lookup_hand in Hr. case_decide; [by rewrite fmap_is_Some in Hr|done].
  - intros r Hr. apply (i_nonnil _ Hw). rewrite lookup_hand in Hr. case_decide; [by rewrite fmap_is_Some in Hr|done].
  - intros t' o' x' l'. rewrite get_set_table, lookup_snoc. intros Ht' [(-> & [= -> _])|Ho'].
    + case_decide; [subst t'; by destruct x|]. apply (i_list _ Hw) in Ht'. unfold o in Ht'. lia.
    + case_decide; [subst t'|by eapply (i_sort _ Hw)].
      apply elem_of_app in Ht' as [?|Hx'%list_elem_of_singleton]; [by eapply (i_sort _ Hw)|congruence].
Qed.

Lemma ok_Add t x Q : pre K (OAdd t x) Q -> good i w Q (exec_op i a (OAdd t x) w).
Proof.
  intros (Hso & Hf & Hx & Hsh & Hc & Hop & HQ). cbn [exec_op]. unfold exec_add. destruct (t_lock (get_table t w)) eqn:El; [done|].
  cbn [free_or_mine]. pose proof (h_open _ _ _ HK Hc Hop) as Hd. pose proof (fun r => flight_live x r Hf) as Hl.
  cbv zeta. change (set_table _ _ _) with (added t x (u64 (t_index (get_table t w) + 1))). set (n := u64 _).
  split; [by apply inv_add|]. unfold added. set (o := length (w_objs w)).
  assert (Hnone : w_objs w !! o = None) by (apply lookup_ge_None; lia). split.
  - eexists. split; [apply HQ|]. constructor; cbn [w_objs w_live w_conn w_drained w_closed w_exit w_ever w_hlock w_sres w_bufs w_wait w_pool w_sems set_live set_objs set_table
      with_flight k_hlock k_hopen k_hconn k_table k_objs k_flight k_sres k_items k_bufs k_dead k_counted k_open k_conn k_closing k_drained k_freed k_pool k_sem]; try apply HK.
    + intros t'. rewrite get_set_table, <- (h_tlock _ _ _ HK). case_decide; [subst t'|done]. cbn. by rewrite El.
    + intros t' l' Ht'. rewrite get_set_table. case_decide; [subst t'|by apply (h_tlist _ _ _ HK)].
      pose proof (proj2 (h_tlock _ _ _ HK t)) as Hk. rewrite Ht' in Hk. by rewrite El in Hk; specialize (Hk ltac:(done)).
    + intros o' x'. rewrite lookup_snoc, <- (h_objs _ _ _ HK). naive_solver.
    + intros r. rewrite lookup_hand, elem_of_difference, <- (h_flight _ _ _ HK). unfold res_set. rewrite elem_of_list_to_set.
      case_decide as Hr; [rewrite (Hl r Hr); cbn; naive_solver|naive_solver].
    + intros o' Ho'. rewrite length_app. pose proof (h_items _ _ _ HK o' Ho'). cbn. lia.
    + intros o' (x' & l' & Ho' & Hr)%(h_dead _ _ _ HK). exists x', l'. split; [apply lookup_snoc; auto|done].
    + intros t' Ht'. destruct (h_freed _ _ _ HK t' Ht'). congruence.
  - intros j Hj. constructor; cbn [w_objs w_live w_conn w_drained w_closed w_exit w_ever w_hlock w_sres w_bufs w_wait w_pool w_sems set_live set_objs set_table]; try done.
    + intros t'. rewrite get_set_table. case_decide; [subst t'; cbn; by rewrite El|done].
    + intros t'. rewrite get_set_table. case_decide; [subst t'; by rewrite El|done].
    + intros o' x'. rewrite lookup_snoc. naive_solver.
    + intros r. rewrite lookup_hand. case_decide as Hr; [|done]. rewrite (Hl r Hr). cbn. split; congruence.
    + rewrite length_app. lia.
    + intros o' (x' & l' & Ho' & Hr). exists x', l'. split; [apply lookup_snoc; auto|done].
    + congruence.
Qed.

Lemma ok_Remove t o Q : pre K (ORemove t o) Q -> good i w Q (exec_op i a (ORemove t o) w).
Proof.
  intros (Hd & HQ). cbn [exec_op]. apply (h_dead _ _ _ HK) in Hd as (x & l & Ho & Hx).
  assert (Ht : k_table K t <> NotHeld) by (by destruct (k_table K t)). rewrite table_mine by done.
  pose proof (proj2 (h_tlock _ _ _ HK t) Ht) as El. split; [|split].
  - constructor; cbn [w_objs w_live w_conn w_drained w_closed w_exit w_ever set_table]; try apply Hw.
    + intros o' x' l' Ho' Hr. destruct (i_listed _ Hw _ _ _ Ho' Hr) as [t' Ht']. exists t'. rewrite get_set_table.
      case_decide; [subst|done]. apply list_elem_of_filter. split; [|done]. intros ->. congruence.
    + intros t' o'. rewrite get_set_table. case_decide; [subst|apply Hw].
      intros [_ Ho']%list_elem_of_filter. by eapply (i_list _ Hw).
    + intros He. destruct (i_exit _ Hw He) as [? Hn]. split; [done|]. intros t'. rewrite get_set_table.
      case_decide; [subst|done]. cbn. by rewrite Hn.
    + intros t' o' x' l'. rewrite get_set_table. case_decide; [subst|apply Hw].
      intros [_ Ho']%list_elem_of_filter. by apply (i_sort _ Hw).
  - assert (HK' : forall h, (match h with NotHeld => False | HeldLock => True
                    | HeldAll l' => filter (fun p => p <> o) (t_list (get_table t w)) = l' end) ->
      holds i (with_table t h K) (set_table t (mkTable (t_index (get_table t w))
        (filter (fun p => p <> o) (t_list (get_table t w))) (t_lock (get_table t w))) w)).
    { intros h Hh. constructor; cbn -[get_table set_table]; try apply HK.
      - intros t'. rewrite get_set_table, upd_at. case_decide; [subst|apply HK]. cbn. rewrite El. by destruct h.
      - intros t' l'. rewrite get_set_table, upd_at. case_decide; [subst|apply HK]. by intros ->.
      - intros t' Ht'. destruct (h_freed _ _ _ HK t' Ht') as [? Hn]. split; [done|]. rewrite get_set_table.
        case_decide; [subst|done]. cbn. by rewrite Hn. }
    destruct (k_table K t) as [| |l'] eqn:Ek; [done| |].
    + exists K. split; [done|]. specialize (HK' HeldLock I).
      destruct HK' as [? ? ? Htl Hta ? ? ? ? ? ? ? ? ? ? Hfr ? ?]. constructor; try done.
      * intros t'. rewrite Htl. cbn. rewrite upd_at. case_decide; [subst; by rewrite Ek|done].
      * intros t' l' Hl'. apply Hta. cbn. rewrite upd_at. case_decide; [subst; congruence|done].
    + eexists. split; [exact HQ|]. apply HK'. by rewrite (h_tlist _ _ _ HK _ _ Ek).
  - intros j Hj. constructor; cbn -[get_table set_table]; try done.
    + intros t'. rewrite get_set_table. case_decide; by subst.
    + intros t'. rewrite get_set_table. case_decide; [subst; congruence|done].
    + intros Hd. split; [done|]. intros t' Hn. rewrite get_set_table. case_decide; [subst|done]. cbn. by rewrite Hn.
Qed.

Lemma ok_Write o x Q : pre K (OWrite o x) Q -> good i w Q (exec_op i a (OWrite o x) w).
Proof.
  intros (y & Hy & Hso & Hr & Hok & Hrs & HQ). pose proof (proj2 (h_objs _ _ _ HK o y) Hy) as Ho. cbn.
  pose proof (lookup_lt_Some _ _ _ Ho) as Hlt. rewrite Ho, (proj2 (mine_spec i (Some i)) eq_refl).
  assert (Hdead : forall o', dead w o' -> dead (set_objs (<[o := (x, Some i)]> (w_objs w)) w) o').
  { intros o' (x' & l' & Ho' & Hx'). unfold dead. cbn. destruct (decide (o' = o)) as [->|Hne].
    - exists x, (Some i). rewrite list_lookup_insert_eq by done. split; [done|].
      assert (y = x') as -> by congruence. destruct Hr; congruence.
    - exists x', l'. by rewrite list_lookup_insert_ne. }
  split; [|split].
  - constructor; cbn; try apply Hw.
    + intros o' x' r. rewrite list_lookup_insert_Some. intros [(_ & [=] & _)|[_ Ho']]. by apply (i_objs _ Hw).
    + intros o' r (x' & Ho' & Hr')%(i_item _ Hw). exists x'. rewrite list_lookup_insert_ne by congruence. done.
    + intros o' x' l'. rewrite list_lookup_insert_Some. intros [(-> & [= -> ->] & _)|[_ Ho']] Hn.
      * eapply (i_listed _ Hw _ _ _ Ho). destruct Hr as [<-|]; [done|congruence].
      * by eapply (i_listed _ Hw).
    + rewrite length_insert. apply Hw.
    + intros o' x' l'. rewrite list_lookup_insert_Some. intros [(-> & [= -> ->] & _)|[_ Ho']].
      * apply obj_ok_know; [done|]. destruct Hrs as [->|]; [apply (i_ok _ Hw _ _ _ Ho)|by left]. * by eapply (i_ok _ Hw).
    + intros t o' x' l' Ht. rewrite list_lookup_insert_Some. intros [(-> & [= <- <-] & _)|[_ Ho']].
      * rewrite Hso. by apply (i_sort _ Hw _ _ _ _ Ht Ho). * by eapply (i_sort _ Hw).
  - eexists. split; [exact HQ|]. constructor; cbn; try apply HK.
    + intros o' x'. rewrite list_lookup_insert_Some, lookup_insert_Some, <- (h_objs _ _ _ HK). naive_solver.
    + rewrite length_insert. apply HK.
    + intros o' Ho'. by apply Hdead, (h_dead _ _ _ HK).
  - intros j Hj. constructor; cbn; try done.
    + intros o' x'. rewrite list_lookup_insert_Some. split; [naive_solver|]. intros Ho'. right. split; [|done]. congruence.
    + by rewrite length_insert.
Qed.

Lemma op_sound {X} (e : op X) Q : call_of e = None -> pre K e Q -> good i w Q (exec_op i a e w).
Proof.
  destruct e as [[| |]|[| |]| | | | | | | | | | | | | | | | | | | | | | | | | |]; intros Hc; try discriminate Hc;
    auto using ok_LockHandler, ok_LockTable, ok_LockObj, ok_UnlockHandler, ok_UnlockTable, ok_UnlockObj, ok_IsClosed,
      ok_SetClosed, ok_Once, ok_WaitAll, ok_CloseExit, ok_GetConn, ok_SetConn, ok_Add, ok_Get, ok_Find, ok_All, ok_Remove,
      ok_Read, ok_Write, ok_MakeBuf, ok_CapBuf, ok_FillBuf, ok_Send, ok_PoolGet, ok_PoolPut, ok_Acquire, ok_Release,
      ok_GoWaitSignal, ok_PutHandles, ok_WaitDone.
Qed.

(** *** Calls *)

Lemma stmt_result_allocs {X} (c : call X) x p : stmt_result c x = Some p -> allocs c x = None.
Proof. by destruct c. Qed.

Lemma keep_sound {X} (c : call X) (x : X) (Q : X -> know -> Prop) :
  sres_opt (stmt_result c x) = ∅ -> res_opt (allocs c x) = ∅ ->
  (res_opt (allocs c x) ## k_flight K -> Q x (after_answer K c x)) -> good i w Q (Ok (x, w)).
Proof.
  intros E1 E2 HQ. split; [done|]. split; [|done]. eexists. split; [apply HQ; rewrite E2; set_solver|].
  unfold after_answer. rewrite E1, E2. constructor; cbn; try apply HK; [intros r|]; rewrite (left_id_L ∅ (∪)); apply HK.
Qed.

Lemma borrow_sound {X} (c : call X) (x : X) p s (Q : X -> know -> Prop) :
  stmt_result c x = Some (p, s) -> p <> nilp -> (KResult, p) ∉ w_ever w -> default s (w_sres w !! p) = s ->
  (res_opt (allocs c x) ## k_flight K -> Q x (after_answer K c x)) ->
  good i w Q (Ok (x, set_sres (<[p := s]> (w_sres w)) w)).
Proof.
  intros Es Hp Hev Hds HQ. assert (Hsub : w_sres w ⊆ <[p := s]> (w_sres w)).
  { destruct (w_sres w !! p) as [s'|] eqn:E; [cbn in Hds; subst s'; by rewrite insert_id|by apply insert_subseteq]. }
  assert (E2 : res_opt (allocs c x) = ∅) by (by rewrite (stmt_result_allocs _ _ _ Es)).
  split; [|split].
  - constructor; cbn; try apply Hw.
    + intros o y l Hy. destruct (i_ok _ Hw _ _ _ Hy) as (Hb & Hr & Hf). split; [by etransitivity|]. split; [|done]. cbn. rewrite dom_insert. set_solver.
    + intros q. rewrite dom_insert. intros [->%elem_of_singleton|Hq]%elem_of_union; [done|by apply Hw].
  - eexists. split; [apply HQ; rewrite E2; set_solver|]. unfold after_answer. rewrite E2, Es. cbn.
    rewrite (proj2 (Z.eqb_neq _ _) Hp). constructor; cbn; try apply HK.
    + intros r. rewrite (left_id_L ∅ (∪)). apply HK.
    + apply map_union_least; [apply map_singleton_subseteq_l, lookup_insert_eq|]. etransitivity; [apply HK|done].
  - intros j Hj. by constructor.
Qed.

Lemma inv_alloc r :
  snd r <> nilp -> r ∉ w_ever w -> snd r ∉ dom (w_sres w) -> w_live w !! r = None ->
  inv (set_live (<[r := Goroutine i]> (w_live w)) (set_ever ({[r]} ∪ w_ever w) w)).
Proof.
  intros Hn Hev Hsr Hl. constructor; cbn; try apply Hw.
  - intros o y r' Hy Hr'. pose proof (i_objs _ Hw _ _ _ Hy Hr'). rewrite lookup_insert_ne; congruence.
  - intros o r'. rewrite lookup_insert_Some. intros [[_ [=]]|[_ ?]]. by apply (i_item _ Hw).
  - intros Hc Hd. pose proof (i_conn _ Hw Hc Hd). rewrite lookup_insert_ne; congruence.
  - intros r'. rewrite lookup_insert_Some. intros [[_ [=]]|[_ ?]]. by apply (i_handle _ Hw).
  - intros r' Hr'. destruct (decide (r = r')) as [->|Hne]; [set_solver|].
    rewrite lookup_insert_ne in Hr' by done. apply elem_of_union. right. by apply (i_ever _ Hw).
  - intros r' Hr'. destruct (decide (r = r')) as [->|Hne]; [done|].
    rewrite lookup_insert_ne in Hr' by done. by apply (i_nonnil _ Hw).
  - intros p Hp. pose proof (i_sres _ Hw p Hp). apply not_elem_of_union. split; [|done].
    intros <-%elem_of_singleton. cbn in Hsr. done.
Qed.

Lemma alloc_sound {X} (c : call X) (x : X) r (Q : X -> know -> Prop) :
  stmt_result c x = None -> allocs c x = Some r -> snd r <> nilp -> r ∉ w_ever w -> snd r ∉ dom (w_sres w) ->
  (res_opt (allocs c x) ## k_flight K -> Q x (after_answer K c x)) ->
  good i w Q (Ok (x, set_live (<[r := Goroutine i]> (w_live w)) (set_ever ({[r]} ∪ w_ever w) w))).
Proof.
  intros Es Eal Hn Hev Hsr HQ. assert (Hl : w_live w !! r = None).
  { destruct (w_live w !! r) eqn:E; [|done]. exfalso. apply Hev, (i_ever _ Hw). by rewrite E. }
  assert (Hset : res_opt (Some r) = {[r]}) by (cbn; by rewrite (proj2 (Z.eqb_neq _ _) Hn)).
  split; [by apply inv_alloc|]. split.
  - eexists. split; [apply HQ; rewrite Eal, Hset; intros r' ->%elem_of_singleton Hf%(h_flight _ _ _ HK); congruence|].
    unfold after_answer. rewrite Es, Eal, Hset. constructor; cbn; try apply HK.
    + intros r'. rewrite lookup_insert_Some, elem_of_union, elem_of_singleton, <- (h_flight _ _ _ HK).
      destruct (decide (r = r')) as [->|]; naive_solver.
    + rewrite (left_id_L ∅ (∪)). apply HK.
  - intros j Hj. constructor; cbn; try done. intros r'. rewrite lookup_insert_Some.
    split; [naive_solver|]. intros ?. right. split; [congruence|done].
Qed.

Lemma answer_sound {X} (c : call X) Q :
  (may_fail = false -> fetched c (a X c) = true) -> pending K c Q -> good i w Q (exec_answer i c (a X c) w).
Proof.
  intros Hfe [_ HQ]. specialize (HQ (a X c)). unfold exec_answer. set (x := a X c) in *.
  destruct (answer_ok c x); [|done]. specialize (HQ eq_refl Hfe). cbn [negb].
  destruct (stmt_result c x) as [[p s]|] eqn:Es.
  - destruct (Z.eqb_spec p nilp) as [->|Hp].
    + apply (keep_sound c x); [by rewrite Es| |done]. by rewrite (stmt_result_allocs _ _ _ Es).
    + case_bool_decide as Hev; [done|]. case_bool_decide as Hds; [done|]. by eapply borrow_sound.
  - destruct (allocs c x) as [r|] eqn:Eal; [|by apply (keep_sound c x); rewrite ?Es, ?Eal].
    destruct (Z.eqb_spec (snd r) nilp) as [Hn|Hn].
    + apply (keep_sound c x); [by rewrite Es| |by rewrite Eal]. rewrite Eal. cbn. by rewrite (proj2 (Z.eqb_eq _ _) Hn).
    + case_bool_decide as Hev; [done|]. case_bool_decide as Hsr; [done|].
      apply (alloc_sound c x); try done. by rewrite Eal.
Qed.

End Ops.

(** ** Programs *)

Lemma pre_mono {X} K (e : op X) (Q Q' : X -> know -> Prop) :
  (forall x K', Q x K' -> Q' x K') -> pre K e Q -> pre K e Q'.
Proof.
  intros HQ. destruct e as [[| |]|[| |]| | | | | | | | | | | | | | | | | | | | | | | | | |]; cbn; try naive_solver.
  - intros [Hd Hk]. split; [done|]. destruct (k_table K t); auto.
  - intros (Hu & Hf & Hp & HQx). split; [done|]. split; [done|]. split; [done|]. auto.
Qed.

Lemma wp_mono {A} K (p : prog A) (Q Q' : A -> know -> Prop) :
  (forall x K', Q x K' -> Q' x K') -> wp Q K p -> wp Q' K p.
Proof.
  intros HQ. revert K. induction p as [a| |X e k IH]; intros K; cbn; auto. apply pre_mono. auto.
Qed.

Lemma wp_bind {A B} K (p : prog A) (f : A -> prog B) Q :
  wp (fun x K' => wp Q K' (f x)) K p -> wp Q K (p ≫= f).
Proof. revert K. induction p as [a| |X e k IH]; intros K; cbn; auto. apply pre_mono. auto. Qed.

Lemma wp_lift {A} K (x : go A) Q : (forall a, Q a K) -> wp Q K (lift x).
Proof. intros HQ. destruct x; cbn; auto. Qed.

(** A call that hands out nothing and takes nothing back. *)
Definition plain {X} (c : call X) : Prop := frees c = None /\ forall x, stmt_result c x = None /\ allocs c x = None.

Lemma after_plain {X} K (c : call X) x : plain c -> after_answer (with_flight (k_flight K ∖ res_opt (frees c)) K) c x = K.
Proof.
  intros [Hf Hp]. destruct (Hp x) as [E1 E2]. unfold after_answer. rewrite Hf, E1, E2. destruct K. unfold with_sres, with_flight. cbn.
  by rewrite difference_empty_L, !(left_id_L ∅ (∪)).
Qed.

Lemma wp_call {X} K (c : call X) Q :
  (forall r, r ∈ uses c -> allowed K c r) -> (forall r, frees c = Some r -> snd r = nilp \/ r ∈ k_flight K) ->
  (forall r, r ∈ uses c -> frees c = Some r \/ allowed (with_flight (k_flight K ∖ res_opt (frees c)) K) c r) ->
  (forall x, answer_ok c x = true -> (may_fail = false -> fetched c x = true) ->
     res_opt (allocs c x) ## k_flight K ∖ res_opt (frees c) ->
     Q x (after_answer (with_flight (k_flight K ∖ res_opt (frees c)) K) c x)) ->
  wp Q K (call_ c).
Proof. intros Hu Hf Hp HQ. cbn. split; [done|]. split; [done|]. split; [done|]. exact HQ. Qed.

Lemma wp_plain {X} K (c : call X) Q :
  plain c -> (forall r, r ∈ uses c -> allowed K c r) ->
  (forall x, answer_ok c x = true -> (may_fail = false -> fetched c x = true) -> Q x K) -> wp Q K (call_ c).
Proof.
  intros Hp Hu HQ. destruct Hp as [Hf Hp]. apply wp_call; [done|by rewrite Hf| |].
  - intros r Hr. right. destruct (Hu r Hr) as [H|H]; [left|by right]. rewrite Hf. cbn [res_opt].
    rewrite difference_empty_L. by destruct K.
  - intros x Ha Hfe _. rewrite after_plain by done. auto.
Qed.

End MayFail.
End Logic.
