(* ===== verification/WsSafety.v ===== *)
(** * WsSafety: the resources of a WebSocket session

    Under every interleaving of the goroutines of a session, no call works on a connection, a
    statement or a query result that was given back, nothing is given back twice, no lock is
    released that is not held, and when the session is closed everything has been given back.  There
    are two exceptions: the error text of a failed fetch, which is read after the lock of the result is
    released ([late_read]), and the result of a statement, which stays in the list of results when the
    statement is closed ([stale_result]); [step_sound] shows that nothing else goes wrong.

    [step_sound] extends the logic of [WsLogic] to the steps of a session, and the rest of the file
    applies it to the programs of [WsHandlers]. *)
From S2P Require Import Prelude Common RawBlock Stmt2 StmtConvert Rest Types WsProg WsHandlers WsLogic.
From stdpp Require Import gmap sets.
#[local] Open Scope Z_scope.

Module Safety.
Import Ws Handlers Logic.

(** ** What was given back stays so *)

Definition gone (w : world) (r : res) : Prop := r ∈ w_ever w /\ w_live w !! r = None.

Lemma gone_hand l x w (r : res) : w_live w !! r = None -> hand l x (w_live w) !! r = None.
Proof. intros E. rewrite lookup_hand, E. by case_decide. Qed.

Lemma gone_answer i {X} (c : call X) y w x w' r : exec_answer i c y w = Ok (x, w') -> gone w r -> gone w' r.
Proof.
  intros He [Hr Hn]. unfold exec_answer in He. repeat (case_match; simplify_eq; try done); split; cbn; try done.
  - set_solver.
  - match goal with H : bool_decide (?r' ∈ _) || _ = false |- _ => apply orb_false_iff in H as [H%bool_decide_eq_false _] end.
    rewrite lookup_insert_ne; [done|]. congruence.
Qed.

Lemma gone_exec i a {X} (e : op X) w x w' r : exec_op i a e w = Ok (x, w') -> gone w r -> gone w' r.
Proof.
  intros He Hg. destruct (call_of e) eqn:Ec; [destruct e; try discriminate Ec; by eapply gone_answer|].
  destruct Hg as [Hr Hn]. unfold gone.
  destruct e as [[| |]|[| |]| | | | | | | | | | | | | | | | | | | | | | | | | |]; cbn -[hand] in He; unfold exec_add in He;
    repeat (case_match; simplify_eq; cbn -[hand]; auto using gone_hand); simplify_eq; cbn -[hand]; auto using gone_hand.
  all: split; [done|]; by apply (gone_hand [(KConn, _)]).
Qed.

(** ** The results of statements *)

(** Until the session is drained, the statement of every result that an item points to is there. *)
Definition results_ok (w : world) : Prop :=
  w_drained w = false -> forall o x l, w_objs w !! o = Some (x, l) -> result_of x <> nilp ->
    exists s, w_sres w !! result_of x = Some s /\ live_ok w (KStmt, s) = true.

Definition more_live (w w' : world) : Prop := forall r, is_Some (w_live w !! r) -> is_Some (w_live w' !! r).

Lemma live_ok_spec w r : live_ok w r = true <-> snd r = nilp \/ is_Some (w_live w !! r).
Proof. unfold live_ok. by rewrite orb_true_iff, bool_decide_eq_true, Z.eqb_eq, elem_of_dom. Qed.
Lemma more_live_ok w w' r : more_live w w' -> live_ok w r = true -> live_ok w' r = true.
Proof. intros Hl. rewrite !live_ok_spec. intros [?|?]; [by left|right; auto]. Qed.
Lemma more_live_hand l x w w' : w_live w' = hand l x (w_live w) -> more_live w w'.
Proof. intros E r Hr. rewrite E, lookup_hand. case_decide; [by apply fmap_is_Some|done]. Qed.

Lemma more_live_eq w w' : w_live w' = w_live w -> more_live w w'.
Proof. intros E r. by rewrite E. Qed.

Lemma results_mono w w' :
  (w_drained w' = false -> w_drained w = false) -> w_sres w ⊆ w_sres w' -> more_live w w' ->
  (forall o x l, w_objs w' !! o = Some (x, l) -> result_of x <> nilp ->
     (exists o' x' l', w_objs w !! o' = Some (x', l') /\ result_of x' = result_of x) \/
     exists s, w_sres w' !! result_of x = Some s /\ live_ok w' (KStmt, s) = true) ->
  results_ok w -> results_ok w'.
Proof.
  intros Hd Hs Hl Ho H Hd' o x l Hx Hn. destruct (Ho o x l Hx Hn) as [(o' & x' & l' & Hx' & E)|?]; [|done].
  destruct (H (Hd Hd') o' x' l' Hx' ltac:(by rewrite E)) as (st & H1 & H2). rewrite E in H1. exists st.
  split; [by eapply lookup_weaken|by eapply more_live_ok].
Qed.

(** The items are those of before, up to their locks. *)
Lemma results_same w w' :
  w_drained w' = w_drained w -> w_sres w' = w_sres w -> more_live w w' -> w_objs w' = w_objs w -> results_ok w -> results_ok w'.
Proof. intros E1 E2 Hl E3. apply results_mono; rewrite ?E1, ?E2; try done. rewrite E3. eauto 6. Qed.
Lemma results_relock w w' o x l l' :
  w_drained w' = w_drained w -> w_sres w' = w_sres w -> more_live w w' -> w_objs w !! o = Some (x, l) ->
  w_objs w' = <[o := (x, l')]> (w_objs w) -> results_ok w -> results_ok w'.
Proof.
  intros E1 E2 Hl Hx E3. apply results_mono; rewrite ?E1, ?E2; try done. intros o' x' l0. rewrite E3, list_lookup_insert_Some.
  intros [(-> & [= <- <-] & _)|[_ Ho']] _; left; eauto.
Qed.

Lemma stmt_held_ok i K w p : holds i K w -> stmt_held K p -> p <> nilp -> exists s, w_sres w !! p = Some s /\ live_ok w (KStmt, s) = true.
Proof.
  intros HK [?|(s & Hs & Hl)] Hn; [done|]. exists s. split; [by eapply lookup_weaken, (h_sres _ _ _ HK)|]. apply live_ok_spec.
  destruct Hl as [?|Hl]; [by left|right]. apply (h_flight _ _ _ HK) in Hl. by rewrite Hl.
Qed.

Lemma results_answer i {X} (c : call X) y w x w' : exec_answer i c y w = Ok (x, w') -> results_ok w -> results_ok w'.
Proof.
  intros He. unfold exec_answer in He. repeat (case_match; simplify_eq; try done); apply results_mono; cbn; try done; try (by eauto 6); try (by intros r).
  - match goal with H : bool_decide _ || bool_decide (default ?s _ <> _) = false |- _ => apply orb_false_iff in H as [_ Hd%bool_decide_eq_false]; apply dec_stable in Hd end.
    destruct (w_sres w !! _) as [s'|] eqn:E; [cbn in Hd; subst s'; by rewrite insert_id|by apply insert_subseteq].
  - intros r' Hr'. cbn. match goal with |- is_Some (<[?r := _]> _ !! _) => destruct (decide (r = r')) as [->|] end;
      [by rewrite lookup_insert_eq|by rewrite lookup_insert_ne].
Qed.

Lemma results_exec may_fail i K a {X} (e : op X) Q w x w' :
  holds i K w -> call_of e = None -> pre may_fail K e Q -> exec_op i a e w = Ok (x, w') -> results_ok w -> results_ok w'.
Proof.
  intros HK Hc Hp He Hr.
  destruct e as [[|t|o]|[|t|o]| | | | | | | | | | | | | |o x0| | | | | | | | | | | |]; try discriminate Hc; cbn -[hand] in He; unfold exec_add in He;
    repeat (case_match; simplify_eq; try done); simplify_eq.
  all: try (by (eapply results_same; [done|done|by apply more_live_eq|done|exact Hr])).
  all: try (by (eapply results_same; [done|done|by eapply more_live_hand|done|exact Hr])).
  - by apply (results_relock w _ o o0 None (Some i)); try by eapply more_live_hand.
  - by eapply (results_relock w _ o o0 _ None); try by eapply more_live_hand.
  - eapply results_same; [| |apply (more_live_hand [(KConn, c)] Handle)| |exact Hr]; done.
  - revert Hr. apply results_mono; try done; [by eapply more_live_hand|]. cbn [w_objs set_table set_live set_objs w_sres].
    intros o x' l. rewrite lookup_snoc. intros [(-> & [= -> _])|Ho] Hn; [right|left; eauto].
    replace (result_of (set_index x0 _)) with (result_of x0) in * by (by destruct x0). destruct Hp as (_ & _ & _ & Hsh & _).
    destruct (stmt_held_ok _ _ _ _ HK Hsh Hn) as (st & H1 & H2). exists st. split; [done|].
    eapply more_live_ok, H2. by eapply more_live_hand.
  - revert Hr. apply results_mono; try done; [by apply more_live_eq|]. cbn [w_objs set_objs w_sres]. intros o' x' l. rewrite list_lookup_insert_Some.
    intros [(-> & [= <- <-] & _)|[_ Ho]] Hn; [|left; eauto]. destruct Hp as (y & Hy & _ & _ & _ & [E|E] & _); [|done].
    left. apply (h_objs _ _ _ HK) in Hy. eauto.
Qed.

(** ** The invariant of a session *)

Section System.
Context (may_fail : bool).

Abbreviation wp := (Logic.wp may_fail).
Abbreviation ends := (fun (_ : bool) (K : know) => final K).

(** A goroutine in a call: what is left of it, and what it frees is already gone. *)
Definition resumes {X} (w : world) (K : know) (e : op X) : (X -> know -> Prop) -> Prop :=
  match e in op X return (X -> know -> Prop) -> Prop with
  | OCall c => fun Q => pending may_fail K c Q /\ forall r, frees c = Some r -> snd r = nilp \/ gone w r
  | _ => fun _ => False
  end.

Definition thread_ok (w : world) (K : know) (t : thread) : Prop :=
  if t_pend t then
    match t_prog t with Vis e k => resumes w K e (fun x K' => wp ends K' (k x)) | _ => False end
  else wp ends K (t_prog t).

Record sys_ok (s : sys) : Prop := mkSysOk {
  s_inv : inv (w s);
  s_threads : forall i t, threads s !! i = Some t -> exists K, holds i K (w s) /\ thread_ok (w s) K t;
  s_none : forall i, threads s !! i = None -> holds i (k_init false) (w s);
  s_results : may_fail = false -> results_ok (w s) }.

Lemma holds_final i K w : holds i K w -> final K -> holds i (k_init false) w.
Proof.
  intros H (Hl & Ht & Ho & Hf & Hc & Hcl & Hp & Hs). pose proof H as []. constructor; cbn; try done; try congruence.
  - intros t. rewrite (h_tlock _ _ _ H), Ht. by destruct t.
  - by intros [].
  - intros o x. by rewrite (h_objs _ _ _ H), Ho.
  - intros r. by rewrite (h_flight _ _ _ H), Hf.
  - apply map_empty_subseteq.
  - by intros [].
  - intros s. rewrite (h_sem _ _ _ H), Hs. by destruct s.
Qed.

Lemma resumes_other {X} w w' K (e : op X) Q :
  (forall r, gone w r -> gone w' r) -> resumes w K e Q -> resumes w' K e Q.
Proof. intros Hg. destruct e; try done. cbn. intros [Hp Hf]. split; [done|]. intros r Hr. destruct (Hf r Hr); auto. Qed.

(** The others after a step of goroutine [i]. *)
Lemma threads_other s w' i (ts : list thread) :
  sys_ok s -> (forall j, j <> i -> other j (w s) w') -> (forall r, gone (w s) r -> gone w' r) ->
  (forall j, j <> i -> ts !! j = threads s !! j) ->
  forall j t, j <> i -> ts !! j = Some t -> exists K, holds j K w' /\ thread_ok w' K t.
Proof.
  intros Hs Ho Hg Hts j t Hj Ht. rewrite Hts in Ht by done. destruct (s_threads _ Hs j t Ht) as (K & HK & Hok).
  exists K. split; [by eapply holds_other, Ho|]. revert Hok. unfold thread_ok.
  destruct (t_pend t), (t_prog t); try done. by apply resumes_other.
Qed.

Lemma none_other s w' i (ts : list thread) :
  sys_ok s -> (forall j, j <> i -> other j (w s) w') -> (forall j, j <> i -> ts !! j = threads s !! j) ->
  forall j, j <> i -> ts !! j = None -> holds j (k_init false) w'.
Proof. intros Hs Ho Hts j Hj Ht. rewrite Hts in Ht by done. eapply holds_other, Ho; [by apply (s_none _ Hs)|done]. Qed.

(** ** The start of a call *)

Lemma usable_conn i K w c :
  inv w -> holds i K w -> conn_usable K c -> c <> nilp -> w_live w !! (KConn, c) = Some Handle.
Proof.
  intros Hw HK Hc Hn. assert (w_conn w = c /\ w_drained w = false) as [<- Hd]; [|by apply (i_conn _ Hw)].
  destruct Hc as [(Hc & Ho & Hp)|(Hl & Ho & Hp)].
  - split; [by apply (h_conn _ _ _ HK)|by apply (h_open _ _ _ HK)].
  - split; [by apply (h_hconn _ _ _ HK)|]. destruct (w_drained w) eqn:E; [|done].
    apply (i_drained _ Hw) in E. by rewrite (h_hopen _ _ _ HK Hl Ho) in E.
Qed.

(** What a goroutine may use is there, but for the result of a closed statement in an item. *)
Lemma permitted_ok i K w r :
  inv w -> holds i K w -> permitted K r ->
  use_ok w r = true \/ (~ results_ok w /\ exists q p, r = (KResult, q) /\ q <> nilp /\ w_sres w !! q = Some p /\ live_ok w (KStmt, p) = false).
Proof.
  intros Hw HK Hp. destruct (live_ok w r) eqn:El; [left; unfold use_ok; by rewrite El|].
  assert (Hl : ~ (snd r = nilp \/ is_Some (w_live w !! r))) by (rewrite <- live_ok_spec; congruence).
  destruct r as [kd q]. cbn in *. destruct Hp as [?|[Hf|[[Hk Hc]|[Hk Hc]]]]; [tauto| | |]; cbn in *; subst.
  - exfalso. apply Hl. right. apply (h_flight _ _ _ HK) in Hf. by rewrite Hf.
  - exfalso. apply Hl. right. exists Handle. eapply usable_conn; try done. intros ->. tauto.
  - assert (Hn : q <> nilp) by tauto. destruct Hc as [Hc|(Hc & Ho & o & x & Hx & Ex)].
    + left. destruct (stmt_held_ok _ _ _ _ HK Hc Hn) as (p & H1 & H2). unfold use_ok. cbn. by rewrite H1, H2, orb_true_r.
    + apply (h_objs _ _ _ HK) in Hx. pose proof (i_ok _ Hw _ _ _ Hx) as (_ & [?|Hd] & _); [congruence|]. rewrite Ex in Hd.
      apply elem_of_dom in Hd as [p Hp]. destruct (live_ok w (KStmt, p)) eqn:Elp.
      * left. unfold use_ok. cbn. by rewrite Hp, Elp, orb_true_r.
      * right. split; [|by exists q, p]. intros Hr. destruct (Hr (h_open _ _ _ HK Hc Ho) o x _ Hx) as (p' & H1 & H2); [congruence|].
        rewrite Ex in H1. congruence.
Qed.

(** The resources a goroutine's next or pending call works on, and what it gives back. *)
Definition calling (t : thread) : list res :=
  match t_prog t with Vis e _ => match call_of e with Some (us, _) => us | None => [] end | _ => [] end.
Definition giving_back (t : thread) : option res :=
  match t_prog t with Vis e _ => match call_of e with Some (_, fr) => fr | None => None end | _ => None end.

(** An item points to a result of statement [p], before the session is drained. *)
Definition result_listed (w : world) (p : ptr) : Prop :=
  w_drained w = false /\ exists o x l, w_objs w !! o = Some (x, l) /\ result_of x <> nilp /\ w_sres w !! result_of x = Some p.

(** A call that works on what goroutine [i] has is one that reads an error text, or works on a result of
    the statement that goroutine [i] has. *)
Lemma not_busy s i K j t r :
  sys_ok s -> holds i K (w s) -> j <> i -> r ∈ k_flight K -> threads s !! j = Some t -> in_call (w s) r t = true ->
  (may_fail = true /\ exists X (c : call X) k ro, t = mkThread ro (Vis (OCall c) k) true /\ is_error_text c = true /\ r ∈ uses c) \/
  exists p q, r = (KStmt, p) /\ q <> nilp /\ t_pend t = true /\ (KResult, q) ∈ calling t /\ w_sres (w s) !! q = Some p /\
    (may_fail = true \/ result_listed (w s) p).
Proof.
  intros Hs HK Hj Hr Ht Hc. destruct (s_threads _ Hs j t Ht) as (Kj & HKj & Hok). destruct t as [ro p pend].
  pose proof (s_inv _ Hs) as Hw. unfold in_call, thread_ok in *. cbn in *. destruct pend; [|done]. destruct p as [| |X e k]; try done.
  destruct e as [| | | | | | | | | | | | | | | | | | | | | | | | | | |Y c]; try done. cbn in Hc.
  apply existsb_exists in Hc as (u & Hin%list_elem_of_In & Hwk). destruct Hok as [[Hu _] Hfr].
  pose proof (proj2 (h_flight _ _ _ HK r) Hr) as Hl. assert (Hn : snd r <> nilp) by (apply (i_nonnil _ Hw); by rewrite Hl).
  unfold works_on in Hwk. apply orb_true_iff in Hwk as [->%bool_decide_eq_true|[[[Hku Hkr]%bool_decide_eq_true Hun]%andb_true_iff Hsr%bool_decide_eq_true]%andb_true_iff].
  - left. destruct (Hu r Hin) as [Hf|[Hp|[Hm He]]].
    + destruct (Hfr r Hf) as [?|[_ ?]]; [done|congruence].
    + exfalso. destruct Hp as [?|[Hf|[[Hk Hcu]|[Hk Hsr]]]]; [done| | |].
      * apply (h_flight _ _ _ HKj) in Hf. congruence.
      * destruct r as [kd p]. cbn in *. subst kd. pose proof (usable_conn _ _ _ _ Hw HKj Hcu Hn). congruence.
      * assert (Hd : snd r ∈ dom (w_sres (w s))).
        { destruct Hsr as [Hsr|(_ & _ & o & x & Hx & Ex)]; [by destruct (stmt_held_dom _ _ _ HKj _ Hsr)|].
          apply (h_objs _ _ _ HKj) in Hx. destruct (i_ok _ Hw _ _ _ Hx) as (_ & [?|?] & _); congruence. }
        apply (i_sres _ Hw) in Hd. apply Hd. destruct r as [kd p]. cbn in *. subst kd. apply (i_ever _ Hw). by rewrite Hl.
    + split; [done|]. by exists Y, c, k, ro.
  - right. destruct r as [kr p], u as [ku q]. cbn in *. subst kr ku. apply negb_true_iff, Z.eqb_neq in Hun.
    assert (Hev : (KResult, q) ∉ w_ever (w s)) by (apply (i_sres _ Hw), elem_of_dom; by exists p).
    exists p, q. do 3 (split; [done|]). split; [exact Hin|]. split; [done|]. destruct (Hu _ Hin) as [Hf|[Hp|[Hm _]]]; [| |by left].
    + destruct (Hfr _ Hf) as [?|[? _]]; done.
    + destruct Hp as [?|[Hf|[[? _]|[_ [[?|(p' & Hp' & Hf)]|(Hcn & Hop & o & x & Hx & Ex)]]]]]; try done.
      * apply (h_flight _ _ _ HKj) in Hf. destruct Hev. apply (i_ever _ Hw). by rewrite Hf.
      * pose proof (lookup_weaken _ _ _ _ Hp' (h_sres _ _ _ HKj)) as Hs'. cbn in Hs'. assert (p' = p) as -> by congruence.
        destruct Hf as [?|Hf]; [done|]. apply (h_flight _ _ _ HKj) in Hf. congruence.
      * right. split; [by apply (h_open _ _ _ HKj)|]. apply (h_objs _ _ _ HKj) in Hx. exists o, x, (Some j). cbn in Ex. by rewrite Ex.
Qed.

(** The result whose error text a goroutine reads or is about to. *)
Definition error_text (t : thread) : option ptr :=
  match t_prog t with
  | Vis e _ => match e with OCall c => match c with C_TaosErrorStr p => Some p | _ => None end | _ => None end
  | _ => None
  end.

(** The error text of a result is read after the result was given back, or while it is. *)
Definition late_read (s : sys) (i : nat) : Prop :=
  exists j t p, threads s !! j = Some t /\ error_text t = Some p /\
    ((j = i /\ t_pend t = false /\ use_ok (w s) (KResult, p) = false) \/
     (j <> i /\ t_pend t = true /\ exists ti, threads s !! i = Some ti /\ giving_back ti = Some (KResult, p))).

(** A result is worked on after its statement was closed, or while it is. *)
Definition stale_result (s : sys) (i : nat) : Prop :=
  exists j t p q, threads s !! j = Some t /\ (KResult, q) ∈ calling t /\ q <> nilp /\ w_sres (w s) !! q = Some p /\
    ((j = i /\ t_pend t = false /\ live_ok (w s) (KStmt, p) = false) \/
     (j <> i /\ t_pend t = true /\ exists ti, threads s !! i = Some ti /\ giving_back ti = Some (KStmt, p))).

(** Goroutine [i] is about to close a statement while an item points to a result of it. *)
Definition closes_result (s : sys) (i : nat) : Prop :=
  exists t p, threads s !! i = Some t /\ t_pend t = false /\ giving_back t = Some (KStmt, p) /\ result_listed (w s) p.

Lemma inv_free i K w r : inv w -> holds i K w -> r ∈ k_flight K -> inv (set_live (delete r (w_live w)) w).
Proof.
  intros Hw HK Hr. apply (h_flight _ _ _ HK) in Hr. constructor; cbn; try apply Hw.
  - intros o x r' Hx Hr'. pose proof (i_objs _ Hw _ _ _ Hx Hr'). rewrite lookup_delete_ne; congruence.
  - intros o r' [_ H]%lookup_delete_Some. by apply (i_item _ Hw).
  - intros Hc Hd. pose proof (i_conn _ Hw Hc Hd). rewrite lookup_delete_ne; congruence.
  - intros r' [_ H]%lookup_delete_Some. by apply (i_handle _ Hw).
  - intros r' [x [_ H]%lookup_delete_Some]. by apply (i_ever _ Hw).
  - intros r' [x [_ H]%lookup_delete_Some]. by apply (i_nonnil _ Hw).
Qed.

Lemma busy_spec w r i ts :
  busy w r i ts = true -> exists j t, j <> i /\ ts !! j = Some t /\ in_call w r t = true.
Proof.
  unfold busy. intros (j & _ & [Hj Ht]%andb_true_iff)%existsb_exists. destruct (ts !! j) as [t|] eqn:E; [|done].
  exists j, t. split; [|done]. intros ->. by rewrite Nat.eqb_refl in Hj.
Qed.

Definition begun {X} (s : sys) (i : nat) (K : know) (c : call X) (w' : world) : Prop :=
  inv w' /\ holds i (with_flight (k_flight K ∖ res_opt (frees c)) K) w' /\ (forall j, j <> i -> other j (w s) w') /\
  (forall r, gone (w s) r -> gone w' r) /\ (forall r, frees c = Some r -> snd r = nilp \/ gone w' r) /\
  (may_fail = false -> results_ok w').

Lemma begun_same {X} s i K (c : call X) :
  sys_ok s -> holds i K (w s) -> res_opt (frees c) = ∅ -> (forall r, frees c = Some r -> snd r = nilp) -> begun s i K c (w s).
Proof.
  intros Hs HK E Hf. split; [apply Hs|]. rewrite E, difference_empty_L.
  split; [|split; [intros; apply other_refl|split; [done|split; [auto|apply Hs]]]]. destruct HK. by constructor.
Qed.

Lemma results_free w r : results_ok w -> (forall p, r = (KStmt, p) -> ~ result_listed w p) -> results_ok (set_live (delete r (w_live w)) w).
Proof.
  intros Hr Hn Hd o x l Hx Hx0. cbn in *. destruct (Hr Hd o x l Hx Hx0) as (p & H1 & H2). exists p. split; [done|].
  rewrite live_ok_spec in *. destruct H2 as [?|H2]; [by left|right]. cbn. rewrite lookup_delete_ne; [done|]. intros ->.
  apply (Hn p eq_refl). split; [done|]. by exists o, x, l.
Qed.

Lemma begun_free {X} s i K (c : call X) r :
  sys_ok s -> holds i K (w s) -> frees c = Some r -> snd r <> nilp -> r ∈ k_flight K ->
  (may_fail = false -> forall p, r = (KStmt, p) -> ~ result_listed (w s) p) ->
  begun s i K c (set_live (delete r (w_live (w s))) (w s)).
Proof.
  intros Hs HK Ef Hn Hr Hcl. pose proof (s_inv _ Hs) as Hw.
  pose proof (proj2 (h_flight _ _ _ HK r) Hr) as Hl. split; [by eapply inv_free|].
  assert (E : res_opt (frees c) = {[r]}) by (rewrite Ef; cbn; by rewrite (proj2 (Z.eqb_neq _ _) Hn)). rewrite E.
  split; [|split; [|split; [|split]]].
  - pose proof HK as []. constructor; cbn; try done. intros r'. rewrite lookup_delete_Some, elem_of_difference, (h_flight _ _ _ HK).
    set_solver.
  - intros j Hj. constructor; cbn; try done. intros r'. rewrite lookup_delete_Some. naive_solver.
  - intros r' [He Hg]. split; [done|]. cbn. apply lookup_delete_None. by right.
  - intros r' [= <-]%(eq_trans (eq_sym Ef)). right. split; [apply (i_ever _ Hw); by rewrite Hl|]. apply lookup_delete_eq.
  - intros Hm. apply results_free; [by apply Hs|by apply Hcl].
Qed.

Lemma unusable w us : forallb (use_ok w) us = false -> exists r, r ∈ us /\ use_ok w r = false.
Proof.
  induction us as [|y l IH]; [done|]. cbn. destruct (use_ok w y) eqn:E; [|exists y; split; [by left|done]].
  intros H. destruct (IH H) as (r & ? & ?). exists r. split; [by right|done].
Qed.

Lemma begin_sound {X} s i K ro (c : call X) k Q :
  sys_ok s -> holds i K (w s) -> threads s !! i = Some (mkThread ro (Vis (OCall c) k) false) -> pre may_fail K (OCall c) Q ->
  (may_fail = false -> ~ closes_result s i) ->
  match begin_call i (uses c) (frees c) s with
  | Ok w' => begun s i K c w'
  | _ => may_fail = true /\ (late_read s i \/ stale_result s i)
  end.
Proof.
  intros Hs HK Ht (Hu & Hf & _) Hcl. pose proof (s_inv _ Hs) as Hw. unfold begin_call.
  destruct (forallb (use_ok (w s)) (uses c)) eqn:Eu.
  - destruct (frees c) as [r|] eqn:Ef; [|by apply begun_same; rewrite ?Ef].
    destruct (Z.eqb_spec (snd r) nilp) as [Hn|Hn].
    { apply begun_same; try done; rewrite Ef; [cbn; by rewrite (proj2 (Z.eqb_eq _ _) Hn)|by intros ? [= <-]]. }
    destruct (Hf r eq_refl) as [?|Hr]; [done|]. pose proof (proj2 (h_flight _ _ _ HK r) Hr) as Hl.
    assert (Hno : may_fail = false -> forall p, r = (KStmt, p) -> ~ result_listed (w s) p).
    { intros Hm p -> Hli. apply (Hcl Hm). eexists _, p. split; [exact Ht|]. split; [done|]. split; [cbn; by rewrite Ef|done]. }
    rewrite bool_decide_eq_true_2 by (apply elem_of_dom; by rewrite Hl). destruct (busy (w s) r i (threads s)) eqn:Eb; [|by eapply begun_free].
    apply busy_spec in Eb as (j & t & Hj & Htj & Hc).
    destruct (not_busy _ _ _ _ _ _ Hs HK Hj Hr Htj Hc) as [(Hm & Y & c' & k' & ro' & -> & Het & Hur)|(p & q & -> & Hq & Hpd & Hin & Hsr & Hm)].
    + split; [done|]. left. destruct c'; try discriminate Het. apply list_elem_of_singleton in Hur as ->.
      exists j, (mkThread ro' (Vis (OCall (C_TaosErrorStr r0)) k') true), r0. repeat (split; [done|]). right.
      split; [done|]. split; [done|]. eexists. split; [done|]. cbn. by rewrite Ef.
    + assert (may_fail = true) as Hm'.
      { destruct Hm as [?|Hli]; [done|]. destruct may_fail; [done|]. by destruct (Hno eq_refl p eq_refl). }
      split; [done|]. right. exists j, t, p, q. do 4 (split; [done|]). right. do 2 (split; [done|]). eexists. split; [exact Ht|]. cbn. by rewrite Ef.
  - destruct (unusable _ _ Eu) as (r & Hr & Er). destruct (Hu r Hr) as [Hp|[Hm He]].
    + destruct (permitted_ok _ _ _ _ Hw HK Hp) as [?|(Hnr & q & p & -> & Hq & Hsr & Hlv)]; [congruence|].
      split; [apply not_false_is_true; intros Hm; by apply Hnr, (s_results _ Hs Hm)|]. right.
      eexists i, _, p, q. split; [exact Ht|]. do 3 (split; [done|]). by left.
    + split; [done|]. left. destruct c; try discriminate He. apply list_elem_of_singleton in Hr as ->.
      eexists i, _, _. split; [exact Ht|]. split; [done|]. by left.
Qed.

(** ** The steps of a session *)

(** No fetch fails. *)
Definition calm (a : oracle) : Prop := forall r, 0 <= N (a _ (C_FetchResult r)).
Definition calm_action (a : action) : Prop := match a with AStep _ o => calm o | _ => True end.

(** No statement is closed, before the session is, while an item points to a result of it. *)
Definition keeps_results (s : sys) (a : action) : Prop := match a with AStep i _ => ~ closes_result s i | _ => True end.

Lemma calm_fetched a {X} (c : call X) : calm a -> fetched c (a X c) = true.
Proof. intros Ha. destruct c; try done. apply Z.leb_le, Ha. Qed.

Lemma thread_done w K ro b : final K -> thread_ok w K (mkThread ro (Done b) false).
Proof. done. Qed.

(** After an operation of goroutine [i] that went well. *)
Lemma after_op s i ro {X} (e : op X) (k : X -> prog bool) x w' :
  sys_ok s -> (i < length (threads s))%nat ->
  good i (w s) (fun x K' => wp ends K' (k x)) (Ok (x, w')) -> (forall r, gone (w s) r -> gone w' r) ->
  (may_fail = false -> results_ok w') ->
  let ts := <[i := mkThread ro (k x) false]> (threads s) in
  sys_ok (mkSys w' (if is_go e then ts ++ [mkThread Waiting (Done true) false] else ts) (reader s)).
Proof.
  intros Hs Hlt (Hw' & (K' & HQ & HK') & Ho) Hg Hres ts.
  assert (Hts : forall j, j <> i -> ts !! j = threads s !! j) by (intros; by apply list_lookup_insert_ne).
  pose proof (threads_other s w' i ts Hs Ho Hg Hts) as HA. pose proof (none_other s w' i ts Hs Ho Hts) as HB.
  assert (Hi : ts !! i = Some (mkThread ro (k x) false)) by (by apply list_lookup_insert_eq).
  assert (Hlen : length ts = length (threads s)) by apply length_insert.
  assert (H1 : forall j t, ts !! j = Some t -> exists K, holds j K w' /\ thread_ok w' K t).
  { intros j t Ht. destruct (decide (j = i)) as [->|Hj]; [|by apply HA]. rewrite Hi in Ht. injection Ht as <-. eauto. }
  assert (H2 : forall j, ts !! j = None -> holds j (k_init false) w').
  { intros j Ht. apply HB; [|done]. intros ->. congruence. }
  constructor; [done| | |done]; cbn [threads w]; destruct (is_go e); try done.
  - intros j t. rewrite lookup_snoc. intros [(-> & ->)|Ht]; [|by apply H1].
    exists (k_init false). split; [apply H2, lookup_ge_None; lia|]. apply thread_done. repeat split; by intros [].
  - intros j Ht. apply H2. apply lookup_ge_None. apply lookup_ge_None in Ht. rewrite length_app in Ht. lia.
Qed.

Lemma step_thread_sound s i a :
  sys_ok s -> (may_fail = false -> calm a /\ ~ closes_result s i) ->
  match step_thread s i a with Ok s' => sys_ok s' | Bad => may_fail = true /\ (late_read s i \/ stale_result s i) | _ => True end.
Proof.
  intros Hs Ha. unfold step_thread. destruct (threads s !! i) as [[ro p pend]|] eqn:Ht; [|done].
  destruct p as [| |X e k]; [done|done|]. pose proof (lookup_lt_Some _ _ _ Ht) as Hlt.
  destruct (s_threads _ Hs i _ Ht) as (K & HK & Hok). pose proof (s_inv _ Hs) as Hw.
  assert (Hop : forall r, good i (w s) (fun x K' => wp ends K' (k x)) r -> exec_op i a e (w s) = r ->
    (forall x w', r = Ok (x, w') -> results_ok (w s) -> results_ok w') ->
    match match r with
          | Ok (x, w') =>
            let ts := <[i := mkThread ro (k x) false]> (threads s) in
            Ok (mkSys w' (if is_go e then ts ++ [mkThread Waiting (Done true) false] else ts) (reader s))
          | Blocked => Blocked | Bad => Bad | Stuck => Stuck
          end with
    | Ok s' => sys_ok s' | Bad => may_fail = true /\ (late_read s i \/ stale_result s i) | _ => True end).
  { intros [[x w']| | |] Hr Er Hres; try done. apply after_op; try done; [intros r; by apply (gone_exec _ _ _ _ _ _ _ Er)|].
    intros Hm. by eapply Hres, Hs. }
  destruct (call_of e) as [[us fr]|] eqn:Ec.
  - destruct e as [| | | | | | | | | | | | | | | | | | | | | | | | | | |Y c]; try discriminate Ec. injection Ec as <- <-.
    destruct pend; unfold thread_ok in Hok; cbn in Hok.
    + apply (Hop (exec_op i a (OCall c) (w s))); [|done|intros x w' Ex; by eapply results_answer, Ex]. destruct Hok as [Hp _]. cbn.
      eapply answer_sound; [done|done| |exact Hp]. intros Hm. by apply calm_fetched, Ha.
    + pose proof (begin_sound s i K ro c k _ Hs HK Ht Hok (fun Hm => proj2 (Ha Hm))) as Hb.
      destruct (begin_call i (uses c) (frees c) s) as [w'| | |]; [|done|done|done].
      destruct Hb as (Hw' & HK' & Ho & Hg & Hfr & Hres). destruct Hok as (_ & _ & Hpend).
      set (ts := <[i := _]> (threads s)).
      assert (Hts : forall j, j <> i -> ts !! j = threads s !! j) by (intros; by apply list_lookup_insert_ne).
      constructor; [done| | |done]; cbn [threads w].
      * intros j t Htj. destruct (decide (j = i)) as [->|Hj]; [|by eapply threads_other].
        unfold ts in Htj. rewrite list_lookup_insert_eq in Htj by done. injection Htj as <-.
        eexists. split; [exact HK'|]. done.
      * intros j Htj. destruct (decide (j = i)) as [->|Hj]; [|by eapply none_other].
        unfold ts in Htj. by rewrite list_lookup_insert_eq in Htj.
  - destruct pend; unfold thread_ok in Hok; cbn in Hok; [by destruct e|].
    apply (Hop (exec_op i a e (w s))); [by eapply op_sound|done|]. intros x w' Ex. by eapply results_exec.
Qed.

Section Session.
Context (handle : request -> prog bool) (on_signal : signal -> prog bool) (close_session : prog bool).
Context (handle_ok : forall m, wp ends (k_init true) (handle m)).
Context (signal_ok : forall x, wp ends (k_init false) (on_signal x)).
Context (close_ok : wp ends (k_init false) close_session).

Lemma spawn_ok s w' t K :
  sys_ok s -> inv w' -> (forall j, j <> length (threads s) -> other j (w s) w') ->
  (forall r, gone (w s) r -> gone w' r) -> (may_fail = false -> results_ok w') ->
  holds (length (threads s)) K w' -> thread_ok w' K t ->
  forall r, sys_ok (mkSys w' (threads s ++ [t]) r).
Proof.
  intros Hs Hw' Ho Hg Hres HK Hok r. set (n := length (threads s)) in *. constructor; [done| | |done]; cbn [threads w].
  - intros j t'. rewrite lookup_snoc. intros [(-> & ->)|Ht]; [by exists K|].
    eapply (threads_other s w' n (threads s)); try done. apply lookup_lt_Some in Ht. unfold n. lia.
  - intros j Ht%lookup_ge_None. rewrite length_app in Ht. cbn in Ht.
    eapply (none_other s w' n (threads s)); try done; [|apply lookup_ge_None]; unfold n; lia.
Qed.

Lemma inv_wait w l : inv w -> inv (set_wait l w).
Proof. intros []. by constructor. Qed.

Lemma step_sound s a :
  sys_ok s -> (may_fail = false -> calm_action a /\ keeps_results s a) ->
  match step handle on_signal close_session s a with
  | Ok s' => sys_ok s'
  | Bad => may_fail = true /\ exists i o, a = AStep i o /\ (late_read s i \/ stale_result s i)
  | _ => True
  end.
Proof.
  intros Hs Ha. destruct a as [i o|m| | |i x]; cbn [step].
  - pose proof (step_thread_sound s i o Hs Ha) as H. destruct (step_thread s i o); try done. destruct H. eauto.
  - destruct (reader s); [done|]. destruct (w_closed (w s)); [done|]. by destruct Hs.
  - destruct (reader s) as [m|]; [|done]. pose proof (s_none _ Hs (length (threads s)) (lookup_ge_None_2 _ _ (le_n _))) as HN.
    apply (spawn_ok s _ _ (k_init true)); try done.
    + by apply inv_wait, Hs.
    + intros j Hj. constructor; cbn; try done; rewrite elem_of_cons; naive_solver.
    + intros Hm. eapply results_same; [done|done|by apply more_live_eq|done|by apply Hs].
    + pose proof HN as []. constructor; cbn; try done. split; [done|]. intros _. by left.
    + apply handle_ok.
  - apply (spawn_ok s _ _ (k_init false)); try done.
    + apply Hs. + apply Hs. + by apply (s_none _ Hs), lookup_ge_None_2.
  - destruct (threads s !! i) as [[ro p pend]|] eqn:Ht; [|done]. destruct ro; try done. destruct p as [[]| |]; try done.
    assert (Hsys : sys_ok (mkSys (w s) (<[i := mkThread Waiting (on_signal x) false]> (threads s)) (reader s))).
    { constructor; [apply Hs| | |apply Hs]; cbn [threads w].
      - intros j t. rewrite list_lookup_insert_Some. intros [(<- & <- & _)|[_ Htj]]; [|by apply (s_threads _ Hs)].
        destruct (s_threads _ Hs _ _ Ht) as (K & HK & Hok). exists (k_init false).
        destruct pend; [done|]. split; [by eapply holds_final|]. apply signal_ok.
      - intros j Htj%lookup_ge_None. rewrite length_insert in Htj. by apply (s_none _ Hs), lookup_ge_None. }
    by destruct x, (w_exit (w s)).
Qed.

(** [P] holds at every step of a run. *)
Fixpoint along (P : sys -> action -> Prop) (s : sys) (acts : list action) : Prop :=
  match acts with
  | [] => True
  | a :: acts => P s a /\ match step handle on_signal close_session s a with Ok s' => along P s' acts | _ => True end
  end.

Lemma run_sound s acts s' :
  sys_ok s -> (may_fail = false -> Forall calm_action acts /\ along keeps_results s acts) ->
  run handle on_signal close_session s acts = Ok s' -> sys_ok s'.
Proof.
  revert s. induction acts as [|a acts IH]; intros s Hs Ha Hr; [by injection Hr as <-|]. cbn in Hr.
  assert (Ha' : may_fail = false -> calm_action a /\ keeps_results s a).
  { intros Hm. destruct (Ha Hm) as [H1 [H2 _]]. split; [by eapply Forall_inv|done]. }
  pose proof (step_sound s a Hs Ha') as H. destruct (step _ _ _ s a) as [s1| | |] eqn:E; try done.
  apply (IH s1 H); [|done]. intros Hm. destruct (Ha Hm) as [H1 [_ H2]]. rewrite E in H2. split; [by eapply Forall_inv_tail|done].
Qed.

Lemma new_ok n m : sys_ok (newHandler n m).
Proof.
  constructor; cbn; [|done| |by intros _ _ ? ? ?].
  - constructor; cbn; try done; try (by intros [? [=]]); try (by intros [] ? []%not_elem_of_nil); by intros ? [].
  - intros i _. constructor; cbn; try done; try (by intros []). split; [by intros ?%not_elem_of_nil|done].
Qed.

End Session.

End System.
End Safety.
