(* ===== verification/WsSession.v ===== *)
(** * WsSession: the handlers keep to the logic

    Every program of [WsHandlers] meets the preconditions of the operations it performs: the
    goroutine of a message, whatever the message, the goroutine that closes the session, and the one
    of [waitSignal].  With the soundness of the logic this gives the safety of a session. *)
From S2P Require Import Prelude Common RawBlock Stmt2 StmtConvert Rest Types WsProg WsHandlers WsLogic WsSafety.
From stdpp Require Import gmap sets.
#[local] Open Scope Z_scope.

Module Session.
Import Ws Handlers Logic Safety.

#[local] Arguments res_set : simpl never.

Section Programs.
Context (may_fail : bool).
Abbreviation wp := (Logic.wp may_fail).

(** ** Calls *)

Lemma wp_limited {X} K s (c : call X) Q :
  (forall r, r ∈ uses c -> allowed may_fail K c r) -> (forall r, frees c = Some r -> snd r = nilp \/ r ∈ k_flight K) ->
  (forall r, r ∈ uses c -> frees c = Some r \/ allowed may_fail (with_flight (k_flight K ∖ res_opt (frees c)) K) c r) ->
  (forall x, answer_ok c x = true -> (may_fail = false -> fetched c x = true) ->
     res_opt (allocs c x) ## k_flight K ∖ res_opt (frees c) ->
     Q x (after_answer (with_flight (k_flight K ∖ res_opt (frees c)) K) c x)) ->
  wp Q K (limited s c).
Proof.
  intros Hu Hf Hp HQ. unfold limited. apply wp_bind. destruct K as [? ? ? ? ? ? ? ? ? ? ? ? ? ? ? ? ? [n1 n2] ?].
  cbn [Logic.wp do_ pre]. apply wp_bind, wp_call; [exact Hu|exact Hf|exact Hp|]. intros x Ha Hfe Hd.
  specialize (HQ x Ha Hfe Hd). by destruct s; cbn; (split; [unfold upd, at_; cbn; lia|]).
Qed.

Lemma wp_limited_plain {X} K s (c : call X) Q :
  plain c -> (forall r, r ∈ uses c -> allowed may_fail K c r) ->
  (forall x, answer_ok c x = true -> (may_fail = false -> fetched c x = true) -> Q x K) -> wp Q K (limited s c).
Proof.
  intros Hp Hu HQ. destruct Hp as [Hf Hp]. apply wp_limited; [done|by rewrite Hf| |].
  - intros r Hr. right. destruct (Hu r Hr) as [H|H]; [left|by right]. rewrite Hf. cbn [res_opt].
    rewrite difference_empty_L. by destruct K.
  - intros x Ha Hfe _. rewrite after_plain by done. auto.
Qed.

(** To have more to give back takes no permission away. *)
Lemma permitted_flight K f r : f ⊆ k_flight K -> permitted (with_flight f K) r -> permitted K r.
Proof.
  intros Hs [?|[?|[?|[Hk [[?|(s & H1 & H2)]|?]]]]]; [by left|right; left; by apply Hs|by do 2 right; left| | |];
    do 3 right; (split; [done|]); [left; by left|left; right; exists s|by right].
  split; [done|]. destruct H2; [by left|right; by apply Hs].
Qed.

(** A call that gives [r] back. *)
Definition freeing {X} (c : call X) (r : res) : Prop := frees c = Some r /\ forall x, stmt_result c x = None /\ allocs c x = None.

Lemma wp_limited_free {X} K s (c : call X) r Q :
  freeing c r -> (forall r', r' ∈ uses c -> r' = r \/ permitted (with_flight (k_flight K ∖ {[r]}) K) r') ->
  (snd r = nilp \/ r ∈ k_flight K) -> (snd r = nilp -> r ∉ k_flight K) ->
  (forall x, Q x (with_flight (k_flight K ∖ {[r]}) K)) -> wp Q K (limited s c).
Proof.
  intros [Hf Hp] Hu Hr Hn HQ.
  assert (E : k_flight K ∖ res_opt (Some r) = k_flight K ∖ {[r]}).
  { cbn. destruct (Z.eqb_spec (snd r) nilp) as [e|]; [|done]. specialize (Hn e). set_solver. }
  apply wp_limited; rewrite ?Hf, ?E.
  - intros r' Hr'. left. destruct (Hu r' Hr') as [->|H]; [unfold permitted; tauto|].
    eapply permitted_flight, H. set_solver.
  - by intros ? [= <-].
  - intros r' Hr'. destruct (Hu r' Hr') as [->|H]; [by left|right; by left].
  - intros x _ _ _. destruct (Hp x) as [E1 E2]. unfold after_answer. rewrite E1, E2. specialize (HQ x).
    destruct K. unfold with_flight, with_sres in *. cbn in *. by rewrite !(left_id_L ∅ (∪)).
Qed.

(** ** Programs that leave the knowledge as it is *)

Definition quiet {A} (p : prog A) : Prop := forall K (Q : A -> know -> Prop), (forall x, Q x K) -> wp Q K p.

Lemma quiet_ret {A} (x : A) : quiet (mret x).
Proof. intros K Q HQ. apply HQ. Qed.
Lemma quiet_bind {A B} (p : prog A) (f : A -> prog B) : quiet p -> (forall x, quiet (f x)) -> quiet (p ≫= f).
Proof. intros Hp Hf K Q HQ. apply wp_bind, Hp. intros x. by apply Hf. Qed.
Lemma quiet_lift {A} (x : go A) : quiet (lift x).
Proof. intros K Q HQ. by apply wp_lift. Qed.
Lemma quiet_send m : quiet (send m).
Proof. intros K Q HQ. apply (HQ tt). Qed.
Lemma quiet_deref {A} (x : option A) : quiet (deref x).
Proof. intros K Q HQ. destruct x; [apply HQ|done]. Qed.
Lemma quiet_call {X} (c : call X) : plain c -> (forall r, r ∈ uses c -> snd r = nilp) -> quiet (call_ c).
Proof. intros Hp Hu K Q HQ. apply wp_plain; [done| |auto]. intros r Hr. left. left. auto. Qed.

Lemma quiet_duration : quiet GetDuration.
Proof. apply quiet_call; [done|]. by intros r ?%not_elem_of_nil. Qed.
Lemma quiet_error_text : quiet (call_ (C_TaosErrorStr nilp)).
Proof. apply quiet_call; [done|]. by intros r ->%list_elem_of_singleton. Qed.
Lemma quiet_tmq_text code : quiet (call_ (C_TMQErr2Str code)).
Proof. apply quiet_call; [done|]. by intros r ?%not_elem_of_nil. Qed.

Ltac quiet :=
  repeat lazymatch goal with
    | |- quiet (mbind _ _) => apply quiet_bind; [|intros ?]
    | |- quiet (mret _) => apply quiet_ret
    | |- quiet (lift _) => apply quiet_lift
    | |- quiet (deref _) => apply quiet_deref
    | |- quiet (send _) => apply quiet_send
    | |- quiet GetDuration => apply quiet_duration
    | |- quiet (call_ (C_TaosErrorStr nilp)) => apply quiet_error_text
    | |- quiet (call_ (C_TMQErr2Str _)) => apply quiet_tmq_text
    end.

Lemma quiet_commonError action reqID code msg : quiet (commonErrorResponse action reqID code msg).
Proof. unfold commonErrorResponse. quiet. Qed.
Lemma quiet_commonSuccess action reqID : quiet (commonSuccessResponse action reqID).
Proof. unfold commonSuccessResponse. quiet. Qed.
Lemma quiet_stmtError action reqID code msg stmtID : quiet (stmtErrorResponse action reqID code msg stmtID).
Proof. unfold stmtErrorResponse. quiet. Qed.
Lemma quiet_stmtOk action reqID stmtID : quiet (stmtOk action reqID stmtID).
Proof. unfold stmtOk. quiet. Qed.
Lemma quiet_rawError code msg reqID resultID t : quiet (fetchRawBlockErrorResponse code msg reqID resultID t).
Proof. unfold fetchRawBlockErrorResponse. quiet. Qed.
Lemma quiet_rawFinish reqID resultID t : quiet (fetchRawBlockFinishResponse reqID resultID t).
Proof. unfold fetchRawBlockFinishResponse. quiet. Qed.
Lemma quiet_raw_response action reqID code : quiet (raw_response action reqID code).
Proof. unfold raw_response. case_match; [|apply quiet_commonSuccess]. quiet. apply quiet_commonError. Qed.

(** ** Permissions *)

Lemma res_opt_some k p : p <> nilp -> res_opt (Some (k, p)) = {[(k, p)]}.
Proof. intros Hp. cbn. by rewrite (proj2 (Z.eqb_neq _ _) Hp). Qed.

(** What goes for a goroutine without locks: a state of the knowledge that forgets the sets that
    only grow. *)
Definition st (objs : gmap nat obj) (flight : gset res) (pool : nat) (K : know) : Prop :=
  k_hlock K = false /\ k_table K = Per NotHeld NotHeld /\ k_objs K = objs /\ k_flight K = flight /\
  k_counted K = true /\ k_open K = true /\ k_closing K = false /\ k_pool K = pool /\ k_sem K = Per 0%nat 0%nat.

(** Knowledge is equal when its fields are. *)
Lemma know_eq K K' :
  k_hlock K = k_hlock K' -> k_hopen K = k_hopen K' -> k_hconn K = k_hconn K' -> k_table K = k_table K' ->
  k_objs K = k_objs K' -> k_flight K = k_flight K' -> k_sres K = k_sres K' -> k_items K = k_items K' ->
  k_bufs K = k_bufs K' -> k_dead K = k_dead K' -> k_counted K = k_counted K' -> k_open K = k_open K' ->
  k_conn K = k_conn K' -> k_closing K = k_closing K' -> k_drained K = k_drained K' -> k_freed K = k_freed K' ->
  k_pool K = k_pool K' -> k_sem K = k_sem K' -> k_once K = k_once K' -> K = K'.
Proof. destruct K, K'. cbn. intros. by subst. Qed.

(** The fields that are sets of resources, or maps of results. *)
Ltac know_sets := first [by rewrite (left_id_L ∅ (∪)) | set_solver].

(** ** The holders *)

Definition grows (K K' : know) : Prop :=
  exists s i b d, K' = with_dead d (with_bufs b (with_items i (with_sres s K))) /\ k_items K ⊆ i /\ k_dead K ⊆ d.

(** The lock of an item, with what is learned about the item. *)
Definition locked (o : nat) (x : obj) (K : know) : know :=
  with_bufs (match buffer x with Some b => {[b]} | None => ∅ end ∪ k_bufs K)
    (with_sres (lent x ∪ k_sres K)
    (with_flight (res_set x ∪ k_flight K) (with_objs (<[o := x]> (k_objs K)) K))).

Lemma wp_lock o K Q :
  o ∈ k_items K -> k_objs K !! o = None ->
  (forall x, res_set x ## k_flight K -> (forall r, r ∈ resources x -> snd r <> nilp) ->
     (o ∈ k_dead K -> resources x = []) -> Q tt (locked o x K)) ->
  wp Q K (do_ (OLock (LObj o))).
Proof. intros Hi Hn HQ. cbn. auto. Qed.

Lemma locked_ok o x K : k_obj_ok (locked o x K) x.
Proof.
  unfold locked. split; cbn -[lent].
  - apply map_union_subseteq_l.
  - intros b ->. set_solver.
Qed.

Lemma wp_read o x K Q : o ∈ k_items K -> k_objs K !! o = Some x -> Q x K -> wp Q K (do_ (ORead o)).
Proof. intros Hi Hx HQ. cbn. split; [done|]. intros y Hy. by rewrite (Hy x Hx). Qed.

Lemma wp_read_result o x K Q :
  o ∈ k_items K -> k_objs K !! o = Some x -> (forall r, x = OResult r -> Q r K) -> wp Q K (read_result o).
Proof. intros Hi Hx HQ. apply wp_bind, (wp_read o x); [done|done|]. destruct x; [by apply HQ|done]. Qed.

Lemma wp_read_stmt o x K Q :
  o ∈ k_items K -> k_objs K !! o = Some x -> (forall s, x = OStmt s -> Q s K) -> wp Q K (read_stmt o).
Proof. intros Hi Hx HQ. apply wp_bind, (wp_read o x); [done|done|]. destruct x; [done|by apply HQ]. Qed.

Lemma wp_write o y x K Q :
  k_objs K !! o = Some y -> sort x = sort y -> (resources x = resources y \/ resources x = []) -> k_obj_ok K x ->
  (result_of x = result_of y \/ result_of x = nilp) -> Q tt (with_objs (<[o := x]> (k_objs K)) K) -> wp Q K (do_ (OWrite o x)).
Proof. intros Hy Hs Hr Hok Hrs HQ. cbn. by exists y. Qed.

Lemma wp_unlock o x K Q :
  k_objs K !! o = Some x -> res_set x ⊆ k_flight K ->
  Q tt (with_dead ((if bool_decide (resources x = []) then {[o]} else ∅) ∪ k_dead K)
       (with_flight (k_flight K ∖ res_set x) (with_objs (delete o (k_objs K)) K))) ->
  wp Q K (do_ (OUnlock (LObj o))).
Proof. intros Hx Hf HQ. cbn. by exists x. Qed.

Lemma st_grows objs flight pool K K' : grows K K' -> st objs flight pool K -> st objs flight pool K'.
Proof. intros (s & i & b & d & -> & _) H. by destruct K. Qed.

(** An item that was freed while it was locked: unlocked it is dead, and nothing is left of it. *)
Lemma wp_unlock_freed o x y K K1 Q :
  k_objs K !! o = None -> res_set x ## k_flight K -> resources y = [] ->
  K1 = with_flight (k_flight (locked o x K) ∖ res_set x) (with_objs (<[o := y]> (k_objs (locked o x K))) (locked o x K)) ->
  (forall K', grows K K' -> o ∈ k_dead K' -> Q tt K') -> wp Q K1 (do_ (OUnlock (LObj o))).
Proof.
  intros Hn Hd Hy -> HQ. apply (wp_unlock o y); [by cbn; rewrite lookup_insert_eq| |].
  { unfold res_set at 1. rewrite Hy. set_solver. }
  rewrite bool_decide_eq_true_2 by done. apply HQ; [|cbn; set_solver].
  exists (k_sres (locked o x K)), (k_items K), (k_bufs (locked o x K)), ({[o]} ∪ k_dead K).
  split; [|split; [done|set_solver]].
  apply know_eq; try reflexivity; cbn.
  - by rewrite insert_insert_eq, delete_insert_id.
  - unfold res_set at 3. rewrite Hy. set_solver.
Qed.

Lemma wp_call_free {X} K (c : call X) r Q :
  freeing c r -> uses c = [r] -> r ∈ k_flight K -> snd r <> nilp ->
  (forall x, Q x (with_flight (k_flight K ∖ {[r]}) K)) -> wp Q K (call_ c).
Proof.
  intros [Hf Hp] Hu Hr Hn HQ. pose proof (res_opt_some (fst r) (snd r) Hn) as E. rewrite <- surjective_pairing in E.
  apply wp_call; rewrite ?Hf, ?Hu, ?E.
  - intros r' ->%list_elem_of_singleton. left. right. by left.
  - intros ? [= <-]. by right.
  - intros r' ->%list_elem_of_singleton. by left.
  - intros x _ _ _. destruct (Hp x) as [E1 E2]. unfold after_answer. rewrite E1, E2. specialize (HQ x).
    eapply eq_rect; [exact HQ|]. apply know_eq; try reflexivity; cbn; know_sets.
Qed.

Lemma wp_QueryResult_free o K Q :
  o ∈ k_items K -> k_objs K !! o = None -> (forall K', grows K K' -> o ∈ k_dead K' -> Q tt K') ->
  wp Q K (QueryResult_free o).
Proof.
  intros Hi Hn HQ. apply wp_bind, wp_lock; [done|done|]. intros x Hd Hnn _. apply wp_bind.
  assert (Hx : k_objs (locked o x K) !! o = Some x) by (cbn; by rewrite lookup_insert_eq).
  apply wp_bind, (wp_read_result o x); [done|done|]. intros r ->. pose proof (locked_ok o (OResult r) K) as Hok.
  set (L := locked o (OResult r) K) in *. apply wp_bind, (wp_write o (OResult r)); [done|done|by left|done|by left|].
  set (L1 := with_objs _ L). destruct (Z.eqb_spec (TaosResult r) nilp) as [E|E].
  - apply (wp_unlock_freed o (OResult r) (OResult (set_result r (TaosResult r) nilp)) K); try done; [cbn; by rewrite E|].
    apply know_eq; try reflexivity; cbn. unfold res_set. cbn. rewrite E. set_solver.
  - assert (Hwrite : forall K2 Q', K2 = with_flight (k_flight L ∖ res_set (OResult r)) L1 -> (forall K', grows K K' -> o ∈ k_dead K' -> Q' tt K') ->
      wp (fun x K' => wp (fun _ => Q' x) K' (do_ (OUnlock (LObj o)))) K2 (write_result o (set_result r nilp nilp))).
    { intros K2 Q' -> HQ'. apply (wp_write o (OResult (set_result r (TaosResult r) nilp))); try done.
      - cbn. by rewrite lookup_insert_eq. - by right.
      - right. cbn. by destruct (inStmt r).
      - apply (wp_unlock_freed o (OResult r) (OResult (set_result r nilp nilp)) K); try done.
        apply know_eq; try reflexivity; cbn. by rewrite !insert_insert_eq. }
    destruct (inStmt r) eqn:Ei.
    + apply (Hwrite L1 (fun _ => Q tt)); [|done]. apply know_eq; try reflexivity; cbn. unfold res_set. cbn. rewrite Ei, orb_true_r. set_solver.
    + apply wp_bind. unfold FreeResultAsync. rewrite (proj2 (Z.eqb_neq _ _) E).
      assert (Er : res_set (OResult r) = {[(KResult, TaosResult r)]}).
      { unfold res_set. cbn. rewrite (proj2 (Z.eqb_neq _ _) E), Ei. cbn. set_solver. }
      apply (wp_limited_free _ _ _ (KResult, TaosResult r)); [done| | |done|].
      * intros r' ->%list_elem_of_singleton. by left.
      * right. cbn. rewrite Er. set_solver.
      * intros _. apply (Hwrite _ (fun _ => Q tt)); [|done]. apply know_eq; try reflexivity; cbn. by rewrite Er.
Qed.

Lemma wp_StmtItem_free o K Q :
  o ∈ k_items K -> k_objs K !! o = None -> (forall K', grows K K' -> o ∈ k_dead K' -> Q tt K') ->
  wp Q K (StmtItem_free o).
Proof.
  intros Hi Hn HQ. apply wp_bind, wp_lock; [done|done|]. intros x Hd Hnn _. apply wp_bind.
  assert (Hx : k_objs (locked o x K) !! o = Some x) by (cbn; by rewrite lookup_insert_eq).
  apply wp_bind, (wp_read_stmt o x); [done|done|]. intros s ->. pose proof (locked_ok o (OStmt s) K) as Hok.
  set (L := locked o (OStmt s) K) in *. destruct (Z.eqb_spec (stmt s) nilp) as [E|E].
  - apply (wp_unlock_freed o (OStmt s) (OStmt s) K); try done; [cbn; by rewrite E|].
    apply know_eq; try reflexivity; cbn; [by rewrite insert_insert_eq|]. unfold res_set. cbn. rewrite E. set_solver.
  - assert (Hwrite : forall K2 Q', K2 = with_flight (k_flight L ∖ res_set (OStmt s)) L ->
      (forall K', grows K K' -> o ∈ k_dead K' -> Q' tt K') ->
      wp (fun x K' => wp (fun _ => Q' x) K' (do_ (OUnlock (LObj o)))) K2 (write_stmt o (set_stmt s nilp))).
    { intros K2 Q' -> HQ'. apply (wp_write o (OStmt s)); try done.
      - by right.
      - split; [cbn; rewrite orb_true_r; apply map_empty_subseteq|done].
      - by left.
      - apply (wp_unlock_freed o (OStmt s) (OStmt (set_stmt s nilp)) K); try done. }
    apply wp_bind. apply Z.eqb_neq in E as E'. destruct (isStmt2 s) eqn:Ei.
    + assert (Er : res_set (OStmt s) = {[(KStmt, stmt s); (KHandle, s_handler s)]}).
      { unfold res_set. cbn. rewrite E', Ei. cbn. set_solver. }
      assert (Hh : s_handler s <> nilp).
      { apply (Hnn (KHandle, s_handler s)). cbn. rewrite E', Ei. right. by left. }
      apply wp_bind, (wp_limited_free _ _ _ (KStmt, stmt s)); [done| | |done|].
      * intros r' ->%list_elem_of_singleton. by left.
      * right. cbn. rewrite Er. set_solver.
      * intros _. apply (wp_call_free _ _ (KHandle, s_handler s)); [done|done| |done|].
        -- cbn. rewrite Er. set_solver.
        -- intros _. apply (Hwrite _ (fun _ => Q tt)); [|done]. apply know_eq; try reflexivity; cbn. rewrite Er. set_solver.
    + assert (Er : res_set (OStmt s) = {[(KStmt, stmt s)]}).
      { unfold res_set. cbn. rewrite E', Ei. cbn. set_solver. }
      apply wp_bind, (wp_limited_free _ _ _ (KStmt, stmt s)); [done| | |done|].
      * intros r' ->%list_elem_of_singleton. by left.
      * right. cbn. rewrite Er. set_solver.
      * intros _. apply (Hwrite _ (fun _ => Q tt)); [|done]. apply know_eq; try reflexivity; cbn. by rewrite Er.
Qed.

Lemma grows_refl K : grows K K.
Proof. exists (k_sres K), (k_items K), (k_bufs K), (k_dead K). split; [by destruct K|done]. Qed.

Lemma grows_trans K K' K'' : grows K K' -> grows K' K'' -> grows K K''.
Proof.
  intros (s & i & b & d & -> & Hi & Hd) (s' & i' & b' & d' & -> & Hi' & Hd'). cbn in *.
  exists s', i', b', d'. split; [by apply know_eq|]. split; set_solver.
Qed.

(** The loop of [FreeAll] takes every item out of the list. *)
Lemma wp_free_items t (free : nat -> prog unit) l K Q :
  (forall o K (Q : unit -> know -> Prop), o ∈ k_items K -> k_objs K !! o = None ->
     (forall K', grows K K' -> o ∈ k_dead K' -> Q tt K') -> wp Q K (free o)) ->
  k_objs K = ∅ -> (forall o, o ∈ l -> o ∈ k_items K) -> forall all, k_table K t = HeldAll all -> (forall o, o ∈ all -> o ∈ l) ->
  (forall K', grows (with_table t (HeldAll []) K) K' -> Q tt K') -> wp Q K (free_items t free l).
Proof.
  intros Hfree. revert K. induction l as [|o l IH]; intros K Ho Hi all Hall Hsub HQ.
  - cbn. apply HQ. destruct all as [|o all]; [|by destruct (not_elem_of_nil o); apply Hsub; left].
    replace (with_table t (HeldAll []) K) with K; [apply grows_refl|]. apply know_eq; try reflexivity. cbn.
    destruct (k_table K) as [h1 h2], t; unfold at_, upd in *; cbn in *; by subst.
  - cbn [free_items]. apply wp_bind, Hfree; [apply Hi; by left|by rewrite Ho|]. intros K' (s & i & b & d & -> & Hsi & Hsd) Hdo.
    apply wp_bind. cbn [Logic.wp do_ pre]. split; [done|].
    change (k_table (with_dead _ _)) with (k_table K). rewrite Hall.
    eapply IH; [done| | | |].
    + intros o' Ho'. cbn. apply Hsi, Hi. by right.
    + cbn. by rewrite upd_at, decide_True.
    + intros o' [Hne Ho']%list_elem_of_filter. apply Hsub in Ho'. apply elem_of_cons in Ho' as [->|]; done.
    + intros K' Hg. apply HQ. eapply grows_trans, Hg. exists s, i, b, d. split; [|done]. apply know_eq; try reflexivity; cbn.
      destruct (k_table K) as [h1 h2], t; reflexivity.
Qed.

Lemma with_table_back t K K' h : k_table K t = NotHeld -> grows (with_table t h K) K' -> grows K (with_table t NotHeld K').
Proof.
  intros Ht (s & i & b & d & -> & Hi & Hd). exists s, i, b, d. split; [|done]. apply know_eq; try reflexivity. cbn.
  destruct (k_table K) as [h1 h2], t; unfold at_, upd in *; cbn in *; by subst.
Qed.

Lemma grows_items K i : k_items K ⊆ i -> grows K (with_items i K).
Proof. intros Hi. exists (k_sres K), i, (k_bufs K), (k_dead K). split; [by apply know_eq|done]. Qed.

Lemma wp_FreeAll t (free : nat -> prog unit) K Q :
  (forall o K (Q : unit -> know -> Prop), o ∈ k_items K -> k_objs K !! o = None ->
     (forall K', grows K K' -> o ∈ k_dead K' -> Q tt K') -> wp Q K (free o)) ->
  k_table K t = NotHeld -> k_objs K = ∅ -> k_closing K = true -> k_drained K = true ->
  (forall K', grows (with_freed (upd (k_freed K) t true) K) K' -> Q tt K') ->
  wp Q K (do_ (OLock (LTable t));; l ← do_ (OAll t); free_items t free l;; do_ (OUnlock (LTable t))).
Proof.
  intros Hfree Ht Ho Hc Hd HQ. apply wp_bind. cbn [Logic.wp do_ pre]. split; [done|]. apply wp_bind. cbn [Logic.wp do_ pre].
  split; [cbn; by rewrite upd_at, decide_True|]. intros l. apply wp_bind.
  eapply (wp_free_items t free l _ _ Hfree).
  - done.
  - intros o Hl. cbn. apply elem_of_union_l, elem_of_list_to_set, Hl.
  - cbn. by rewrite upd_at, decide_True.
  - done.
  - intros K' (s & i & b & d & -> & Hi & Hdd). cbn [Logic.wp do_ pre]. cbn in Hi, Hdd. split.
    { cbn. by rewrite upd_at, decide_True. }
    apply HQ. exists s, i, b, d. split; [|set_solver]. apply know_eq; try reflexivity; cbn.
    + destruct (k_table K) as [h1 h2], t; unfold at_, upd in *; cbn in *; by subst.
    + rewrite Hc, Hd, upd_at, decide_True by done. cbn. by rewrite orb_true_r.
Qed.

(** A search of a list under its lock, from the lock to its release. *)
Lemma grows_table t K K' : grows (with_table t HeldLock K) K' -> k_table K' t = HeldLock.
Proof. intros (s & i & b & d & -> & _). cbn. by rewrite upd_at, decide_True. Qed.

Lemma wp_unlock_table t objs flight pool K K' Q :
  st objs flight pool K -> grows (with_table t HeldLock K) K' -> (forall K', st objs flight pool K' -> Q tt K') ->
  wp Q K' (do_ (OUnlock (LTable t))).
Proof.
  intros HK Hg HQ. cbn [Logic.wp do_ pre]. split; [by rewrite (grows_table t K K' Hg)|]. apply HQ.
  assert (Ht : k_table K t = NotHeld) by (destruct HK as (_ & -> & _); by destruct t).
  pose proof (with_table_back t K K' HeldLock Ht Hg) as (s & i & b & d & E & _). rewrite E.
  destruct HK as (? & ? & ? & ? & ? & ? & ? & ? & ?). by repeat split.
Qed.

Lemma wp_remove t o K Q : o ∈ k_dead K -> k_table K t = HeldLock -> Q tt K -> wp Q K (do_ (ORemove t o)).
Proof. intros Hd Ht HQ. cbn. by rewrite Ht. Qed.

Lemma wp_find t index flight pool K Q :
  st ∅ flight pool K -> (forall K', grows (with_table t HeldLock K) K' -> Q None K') ->
  (forall o K', grows (with_table t HeldLock K) K' -> o ∈ k_items K' -> k_objs K' !! o = None -> Q (Some o) K') ->
  wp Q K (do_ (OLock (LTable t));; do_ (OFind t index)).
Proof.
  intros HK Hn Hs. pose proof HK as (_ & Ht & Ho & _). apply wp_bind. cbn [Logic.wp do_ pre].
  split; [rewrite Ht; by destruct t|]. split; [cbn; by rewrite upd_at, decide_True|]. split; [apply Hn, grows_refl|].
  intros o. apply Hs; [apply grows_items; cbn; set_solver|cbn; set_solver|cbn; by rewrite Ho].
Qed.

Lemma bind_assoc {A B C} (p : prog A) (f : A -> prog B) (g : B -> prog C) K Q :
  wp Q K ((p ≫= f) ≫= g) -> wp Q K (p ≫= fun x => f x ≫= g).
Proof.
  revert K Q. induction p as [a| |X e k IH]; intros K Q; [done|done|]. apply pre_mono. intros x K'. apply IH.
Qed.

Lemma wp_FreeResultByID index flight pool K Q :
  st ∅ flight pool K -> (forall K', st ∅ flight pool K' -> Q tt K') -> wp Q K (FreeResultByID index).
Proof.
  intros HK HQ. unfold FreeResultByID. apply bind_assoc, wp_bind. eapply wp_find; [done| |].
  - intros K' Hg. apply wp_bind. by eapply wp_unlock_table.
  - intros o K' Hg Hi Ho. apply wp_bind, wp_bind, wp_QueryResult_free; [done|done|]. intros K2 Hg2 Hd.
    assert (Hg' : grows (with_table Results HeldLock K) K2) by (by eapply grows_trans).
    apply wp_remove; [done|by eapply grows_table|]. by eapply wp_unlock_table.
Qed.

Lemma wp_FreeStmtByID index is2 flight pool K Q :
  st ∅ flight pool K -> (forall x K', st ∅ flight pool K' -> Q x K') -> wp Q K (FreeStmtByID index is2).
Proof.
  intros HK HQ. unfold FreeStmtByID. apply bind_assoc, wp_bind. eapply wp_find; [done| |].
  - intros K' Hg. apply wp_bind, wp_bind. eapply wp_unlock_table; [done|done|intros; by apply HQ].
  - intros o K' Hg Hi Ho. apply wp_bind, wp_bind, wp_bind. cbn [Logic.wp do_ pre]. split; [done|]. intros [r|s] _; [done|].
    cbn [Logic.wp mret prog_mret]. destruct (negb _); [apply wp_bind; eapply wp_unlock_table; [done|done|intros; by apply HQ]|].
    apply wp_bind, wp_StmtItem_free; [done|done|]. intros K2 Hg2 Hd.
    assert (Hg' : grows (with_table Stmts HeldLock K) K2) by (by eapply grows_trans).
    apply wp_bind, wp_remove; [done|by eapply grows_table|]. apply wp_bind. eapply wp_unlock_table; [done|done|intros; by apply HQ].
Qed.

(** ** A goroutine that is allowed its calls *)

Definition quiet_at {A} (K : know) (p : prog A) : Prop := forall (Q : A -> know -> Prop), (forall x, Q x K) -> wp Q K p.

Lemma qa_quiet {A} K (p : prog A) : quiet p -> quiet_at K p.
Proof. intros H Q. apply H. Qed.
Lemma qa_bind {A B} K (p : prog A) (f : A -> prog B) : quiet_at K p -> (forall x, quiet_at K (f x)) -> quiet_at K (p ≫= f).
Proof. intros Hp Hf Q HQ. apply wp_bind, Hp. intros x. by apply Hf. Qed.

Definition grants {X} (K : know) (c : call X) : Prop := Forall (permitted K) (uses c).

Lemma qa_call {X} K (c : call X) : plain c -> grants K c -> quiet_at K (call_ c).
Proof. intros Hp Hu Q HQ. apply wp_plain; [done| |auto]. intros r Hr. left. by eapply Forall_forall. Qed.
Lemma qa_limited {X} K s (c : call X) : plain c -> grants K c -> quiet_at K (limited s c).
Proof. intros Hp Hu Q HQ. apply wp_limited_plain; [done| |auto]. intros r Hr. left. by eapply Forall_forall. Qed.

Lemma perm_nil K k : permitted K (k, nilp).
Proof. by left. Qed.
Lemma perm_flight K r : r ∈ k_flight K -> permitted K r.
Proof. right. by left. Qed.
Lemma perm_opt K k p : res_opt (Some (k, p)) ⊆ k_flight K -> permitted K (k, p).
Proof. cbn. destruct (Z.eqb_spec p nilp) as [->|]; [intros _; apply perm_nil|]. intros H. apply perm_flight. set_solver. Qed.
Lemma perm_conn K c : k_counted K = true -> k_open K = true -> k_conn K = Some c -> permitted K (KConn, c).
Proof. intros. right. right. left. split; [done|]. by left. Qed.
Lemma perm_stmt_held K p : stmt_held K p -> permitted K (KResult, p).
Proof. intros Hp. do 3 right. split; [done|by left]. Qed.
Lemma stmt_held_nil K : stmt_held K nilp.
Proof. by left. Qed.

(** The rights a goroutine has, by lemmas or by hypotheses. *)
Ltac grant := unfold grants; cbn [uses]; repeat (constructor; try (first [assumption|apply perm_nil])).

Ltac head t := lazymatch t with ?f _ => head f | _ => t end.

Ltac calm :=
  repeat lazymatch goal with
    | |- quiet_at _ (mbind _ _) => apply qa_bind; [|intros ?]
    | |- quiet_at _ (mret _) => apply qa_quiet, quiet_ret
    | |- quiet_at _ (lift _) => apply qa_quiet, quiet_lift
    | |- quiet_at _ (deref _) => apply qa_quiet, quiet_deref
    | |- quiet_at _ (send _) => apply qa_quiet, quiet_send
    | |- quiet_at _ GetDuration => apply qa_quiet, quiet_duration
    | |- quiet_at _ Crash => done
    | |- quiet_at _ (commonErrorResponse _ _ _ _) => apply qa_quiet, quiet_commonError
    | |- quiet_at _ (commonSuccessResponse _ _) => apply qa_quiet, quiet_commonSuccess
    | |- quiet_at _ (stmtErrorResponse _ _ _ _ _) => apply qa_quiet, quiet_stmtError
    | |- quiet_at _ (stmtOk _ _ _) => apply qa_quiet, quiet_stmtOk
    | |- quiet_at _ (raw_response _ _ _) => apply qa_quiet, quiet_raw_response
    | |- quiet_at _ (call_ _) => apply qa_call; [done|grant]
    | |- quiet_at _ (limited _ _) => apply qa_limited; [done|grant]
    | |- quiet_at _ (if ?b then _ else _) => destruct b
    | |- quiet_at _ (match ?x with _ => _ end) => destruct x
    | |- quiet_at _ (let _ := _ in _) => cbv zeta
    | |- quiet_at _ ?p => let h := head p in progress unfold h
    end.

(** ** What a message leaves behind: nothing *)

Definition keeps {A} (p : prog A) : Prop := forall K, st ∅ ∅ 0 K -> wp (fun _ => st ∅ ∅ 0) K p.

Lemma keeps_qa {A} (p : prog A) : (forall K, quiet_at K p) -> keeps p.
Proof. intros H K HK. by apply H. Qed.

(** Handlers that only read the connection and call the library with it. *)
Lemma wp_conn_ objs flight pool K Q :
  st objs flight pool K ->
  (forall c K', st objs flight pool K' -> k_sres K' = k_sres K -> k_items K' = k_items K -> permitted K' (KConn, c) -> Q c K') ->
  wp Q K conn_.
Proof.
  intros HK HQ. cbn. intros c _. pose proof HK as (Hl & Ht & Ho & Hf & Hc & Hop & Hcl & Hp & Hs). rewrite Hl.
  apply HQ; [by destruct K|done|done|by apply perm_conn].
Qed.

Lemma keeps_conn {A} (f : ptr -> prog A) : (forall c K, permitted K (KConn, c) -> quiet_at K (f c)) -> keeps (conn_ ≫= f).
Proof. intros Hf K HK. apply wp_bind. eapply wp_conn_; [done|]. intros c K' HK' _ _ Hp. by apply (Hf c K' Hp). Qed.

Lemma keeps_getCurrentDB action reqID : keeps (getCurrentDB action reqID).
Proof. apply keeps_conn. intros c K Hp. calm. Qed.
Lemma keeps_getServerInfo action reqID : keeps (getServerInfo action reqID).
Proof. apply keeps_conn. intros c K Hp. calm. Qed.
Lemma keeps_version v action reqID : keeps (version v action reqID).
Proof. apply keeps_qa. intros K. calm. Qed.

Lemma keeps_bind {A B} (p : prog A) (f : A -> prog B) : keeps p -> (forall x, keeps (f x)) -> keeps (p ≫= f).
Proof. intros Hp Hf K HK. apply wp_bind. eapply wp_mono, Hp, HK. intros x K'. apply Hf. Qed.
Lemma keeps_quiet {A} (p : prog A) : quiet p -> keeps p.
Proof. intros H K HK. by apply H. Qed.
Lemma keeps_lift {A B} (x : go A) (f : A -> prog B) : (forall a, keeps (f a)) -> keeps (lift x ≫= f).
Proof. apply keeps_bind, keeps_quiet, quiet_lift. Qed.

(** A handler step by step; what is left over is for its own lemma. *)
Ltac keep :=
  repeat lazymatch goal with
    | |- keeps (conn_ ≫= _) => apply keeps_conn; intros ? ? ?; calm
    | |- keeps (lift _ ≫= _) => apply keeps_lift; intros ?
    | |- keeps (commonErrorResponse _ _ _ _) => apply keeps_quiet, quiet_commonError
    | |- keeps (stmtErrorResponse _ _ _ _ _) => apply keeps_quiet, quiet_stmtError
    | |- keeps (mret _) => apply keeps_quiet, quiet_ret
    | |- keeps Crash => done
    | |- keeps (if ?b then _ else _) => destruct b
    | |- keeps (match ?x with _ => _ end) => destruct x
    | |- keeps (let _ := _ in _) => cbv zeta
    end.

Lemma keeps_TMQRaw action reqID message : keeps (binaryTMQRawMessage action reqID message).
Proof. unfold binaryTMQRawMessage. keep. Qed.
Lemma keeps_rawBlock action reqID message : keeps (binaryRawBlockMessage action reqID message).
Proof. unfold binaryRawBlockMessage. keep. Qed.
Lemma keeps_rawBlockFields action reqID message : keeps (binaryRawBlockMessageWithFields action reqID message).
Proof. unfold binaryRawBlockMessageWithFields. keep. Qed.

Lemma keeps_options action req : keeps (optionsConnection action req).
Proof.
  apply keeps_conn. intros c K Hp. induction (Options req) as [|[[opt v]|] options IH]; cbn [set_options]; calm. apply IH.
Qed.

(** ** Handlers that make something *)

Lemma wp_alloc {X} K (c : call X) Q :
  frees c = None -> (forall x, stmt_result c x = None) -> grants K c ->
  (forall x, answer_ok c x = true -> res_opt (allocs c x) ## k_flight K -> Q x (with_flight (res_opt (allocs c x) ∪ k_flight K) K)) ->
  wp Q K (call_ c).
Proof.
  intros Hf Hs Hu HQ. assert (E : k_flight K ∖ res_opt None = k_flight K) by apply difference_empty_L.
  apply wp_call; rewrite ?Hf, ?E.
  - intros r Hr. left. by eapply Forall_forall.
  - done.
  - intros r Hr. right. left. destruct K. by eapply (proj1 (Forall_forall _ _)).
  - intros x Ha _ Hd. specialize (HQ x Ha Hd). eapply eq_rect; [exact HQ|]. unfold after_answer. rewrite Hs.
    apply know_eq; try reflexivity; cbn. by rewrite (left_id_L ∅ (∪)).
Qed.

Lemma wp_limited_alloc {X} K s (c : call X) Q :
  frees c = None -> (forall x, stmt_result c x = None) -> grants K c ->
  (forall x, answer_ok c x = true -> res_opt (allocs c x) ## k_flight K -> Q x (with_flight (res_opt (allocs c x) ∪ k_flight K) K)) ->
  wp Q K (limited s c).
Proof.
  intros Hf Hs Hu HQ. assert (E : k_flight K ∖ res_opt None = k_flight K) by apply difference_empty_L.
  apply wp_limited; rewrite ?Hf, ?E.
  - intros r Hr. left. by eapply Forall_forall.
  - done.
  - intros r Hr. right. left. destruct K. by eapply (proj1 (Forall_forall _ _)).
  - intros x Ha _ Hd. specialize (HQ x Ha Hd). eapply eq_rect; [exact HQ|]. unfold after_answer. rewrite Hs.
    apply know_eq; try reflexivity; cbn. by rewrite (left_id_L ∅ (∪)).
Qed.

Lemma wp_FreeResult p K Q :
  res_opt (Some (KResult, p)) ⊆ k_flight K -> (p = nilp -> (KResult, p) ∉ k_flight K) ->
  Q tt (with_flight (k_flight K ∖ res_opt (Some (KResult, p))) K) -> wp Q K (FreeResult p).
Proof.
  intros Hr Hn HQ. unfold FreeResult. destruct (Z.eqb_spec p nilp) as [E|E].
  - subst. cbn in *. rewrite difference_empty_L in HQ. by destruct K.
  - rewrite res_opt_some in Hr, HQ by done. apply (wp_limited_free _ _ _ (KResult, p)); [done| | |done|].
    + intros r' ->%list_elem_of_singleton. by left.
    + right. set_solver.
    + by intros [].
Qed.

Lemma st_flight objs flight pool K flight' : st objs flight pool K -> st objs flight' pool (with_flight flight' K).
Proof. intros (? & ? & ? & ? & ? & ? & ? & ? & ?). by repeat split. Qed.

Lemma keeps_schemaless action req : keeps (schemalessWrite action req).
Proof.
  unfold schemalessWrite. destruct (Protocol req =? 0); [keep|]. intros K HK. apply wp_bind. eapply wp_conn_; [done|]. intros c K1 HK1 _ _ Hp.
  apply wp_bind, wp_limited_alloc; [done|done|grant|]. intros [totalRows result] _ Hd. cbn [allocs snd] in *.
  pose proof HK1 as (_ & _ & _ & Hf & _). rewrite Hf, (right_id_L ∅ (∪)).
  set (K2 := with_flight _ K1). assert (Hr : permitted K2 (KResult, result)) by (apply perm_opt; done).
  apply wp_bind. assert (Hq : quiet_at K2 (call_ (C_TaosError result))) by calm. apply Hq. intros code.
  apply wp_bind. match goal with |- Logic.wp _ _ _ ?p => assert (Hq2 : quiet_at K2 p) by calm end.
  apply Hq2. intros _. apply wp_FreeResult; [done| |].
  - intros ->. cbn. set_solver.
  - eapply st_flight in HK1. eapply (eq_rect _ (st ∅ ∅ 0)); [exact HK1|]. apply know_eq; try reflexivity. cbn. set_solver.
Qed.

Lemma st_eq objs flight pool K K' : st objs flight pool K -> K = K' -> st objs flight pool K'.
Proof. by intros ? <-. Qed.

Lemma wp_qa {A} K (p : prog A) Q : quiet_at K p -> (forall x, Q x K) -> wp Q K p.
Proof. intros H. apply H. Qed.

Lemma wp_PoolGet objs flight pool K Q :
  st objs flight pool K -> (forall K', K' = with_pool (S pool) K -> st objs flight (S pool) K' -> Q tt K') -> wp Q K (do_ OPoolGet).
Proof.
  intros HK HQ. pose proof HK as (? & ? & ? & ? & ? & ? & ? & Hp & ?). cbn. rewrite Hp. apply HQ; [done|]. by repeat split.
Qed.

Lemma wp_PoolPut objs flight pool K Q :
  st objs flight (S pool) K -> (forall K', st objs flight pool K' -> Q tt K') -> wp Q K (do_ OPoolPut).
Proof.
  intros HK HQ. pose proof HK as (? & ? & ? & ? & ? & ? & ? & Hp & ?). cbn. rewrite Hp. split; [lia|]. apply HQ. by repeat split.
Qed.

Lemma wp_add objs flight pool t x K Q :
  st objs flight pool K -> sort x = t -> res_set x ⊆ flight -> k_obj_ok K x -> stmt_held K (result_of x) ->
  (forall i, st objs (flight ∖ res_set x) pool (with_flight (flight ∖ res_set x) K) -> Q i (with_flight (flight ∖ res_set x) K)) ->
  wp Q K (do_ (OAdd t x)).
Proof.
  intros HK Hs Hr Hok Hh HQ. pose proof HK as (? & ? & ? & Hf & ? & ? & ? & ? & ?). cbn. rewrite Hf.
  do 6 (split; [done|]). intros i. apply HQ. by eapply st_flight.
Qed.

Lemma res_set_result i p f h size b prec buf :
  res_set (OResult (mkQueryResult i p f h size b prec buf false)) = res_opt (Some (KResult, p)).
Proof. unfold res_set. cbn. rewrite orb_false_r. destruct (p =? nilp); cbn; set_solver. Qed.

Lemma perm_result K p f : st ∅ (res_opt (Some (KResult, p))) f K -> permitted K (KResult, p).
Proof. intros (_ & _ & _ & Hf & _). apply perm_opt. by rewrite Hf. Qed.

Lemma nil_result p : p = nilp -> (KResult, p) ∉ (res_opt (Some (KResult, p)) : gset res).
Proof. intros ->. cbn. set_solver. Qed.

(** A result that is freed, with what follows. *)
Lemma wp_drop p pool K Q :
  st ∅ (res_opt (Some (KResult, p))) pool K -> (forall K', st ∅ ∅ pool K' -> Q tt K') -> wp Q K (FreeResult p).
Proof.
  intros HK HQ. pose proof HK as (_ & _ & _ & Hf & _). apply wp_FreeResult; rewrite Hf; [done|apply nil_result|].
  apply HQ. eapply st_eq; [by eapply (st_flight _ _ _ _ ∅)|]. apply know_eq; try reflexivity. cbn. set_solver.
Qed.

Lemma wp_TaosQuery conn sql reqID pool K Q :
  st ∅ ∅ pool K -> permitted K (KConn, conn) ->
  (forall x K', st ∅ (res_opt (Some (KResult, Res x))) pool K' -> Q x K') -> wp Q K (TaosQuery conn sql reqID).
Proof.
  intros HK Hp HQ. unfold TaosQuery. apply wp_bind, wp_qa; [calm|]. intros id.
  apply wp_bind, wp_qa; [calm|]. intros _. apply wp_alloc; [done|done|grant|]. intros x _ Hd. cbn [allocs] in *.
  apply HQ. pose proof HK as (_ & _ & _ & Hf & _). rewrite Hf, (right_id_L ∅ (∪)). by eapply st_flight.
Qed.

Lemma keeps_run_query action reqID sql : keeps (run_query action reqID sql).
Proof.
  intros K HK. unfold run_query. apply wp_bind. eapply wp_PoolGet; [done|]. intros K1 _ HK1.
  apply wp_bind. eapply wp_conn_; [done|]. intros c K2 HK2 _ _ Hp. apply wp_bind. eapply wp_TaosQuery; [done|done|].
  intros result K3 HK3. pose proof (perm_result _ _ _ HK3) as Hr. apply wp_bind, wp_qa; [calm|]. intros code.
  apply wp_bind. assert (Hput : forall K', st ∅ ∅ 1 K' -> wp (fun _ => st ∅ ∅ 0) K' (do_ OPoolPut)).
  { intros K' HK'. by eapply wp_PoolPut. }
  destruct (negb _).
  - apply wp_bind, wp_qa; [calm|]. intros errStr. apply wp_bind. eapply wp_drop; [done|]. intros K' HK'.
    apply wp_qa; [calm|]. intros _. by apply Hput.
  - apply wp_bind, wp_qa; [calm|]. intros [].
    + apply wp_bind, wp_qa; [calm|]. intros n. apply wp_bind. eapply wp_drop; [done|]. intros K' HK'.
      apply wp_qa; [calm|]. intros _. by apply Hput.
    + apply wp_bind, wp_qa; [calm|]. intros n. apply wp_bind, wp_qa; [calm|]. intros h.
      apply wp_bind, wp_qa; [calm|]. intros prec. apply wp_bind. eapply wp_add; [done|done| | |apply stmt_held_nil|].
      * by rewrite res_set_result.
      * split; [apply map_empty_subseteq|done].
      * intros i HK4. rewrite res_set_result, difference_diag_L in *. apply wp_qa; [calm|]. intros _. by apply Hput.
Qed.

Lemma keeps_binaryQuery action reqID message : keeps (binaryQuery action reqID message).
Proof. unfold binaryQuery. keep. apply keeps_run_query. Qed.

(** ** Handlers that hold the lock of an item *)

Definition in_item (o : nat) (x : obj) (pool : nat) (K : know) : Prop :=
  st {[o := x]} (res_set x) pool K /\ k_obj_ok K x /\ o ∈ k_items K.

Lemma wp_lock_item o pool K Q :
  st ∅ ∅ pool K -> o ∈ k_items K -> (forall x K', in_item o x pool K' -> Q tt K') -> wp Q K (do_ (OLock (LObj o))).
Proof.
  intros HK Hi HQ. pose proof HK as (? & ? & Ho & Hf & ? & ? & ? & ? & ?). apply wp_lock; [done|by rewrite Ho|].
  intros x _ _ _. apply (HQ x). split; [|split; [apply locked_ok|done]]. repeat split; cbn; try done.
  - by rewrite Ho, insert_empty. - rewrite Hf. set_solver.
Qed.

Lemma wp_unlock_item o x pool K Q :
  in_item o x pool K -> (forall K', st ∅ ∅ pool K' -> o ∈ k_items K' -> Q tt K') -> wp Q K (do_ (OUnlock (LObj o))).
Proof.
  intros (HK & _ & Hi) HQ. pose proof HK as (? & ? & Ho & Hf & ? & ? & ? & ? & ?).
  apply (wp_unlock o x); [by rewrite Ho, lookup_singleton_eq|by rewrite Hf|]. apply HQ; [|done]. repeat split; cbn; try done.
  - by rewrite Ho, delete_singleton_eq. - rewrite Hf. set_solver.
Qed.

Lemma wp_write_item o y x pool K Q :
  in_item o y pool K -> sort x = sort y -> resources x = resources y -> k_obj_ok K x -> result_of x = result_of y ->
  (forall K', in_item o x pool K' -> k_bufs K' = k_bufs K -> Q tt K') -> wp Q K (do_ (OWrite o x)).
Proof.
  intros (HK & _ & Hi) Hs Hr Hok Hrs HQ. pose proof HK as (? & ? & Ho & Hf & ? & ? & ? & ? & ?).
  apply (wp_write o y); [by rewrite Ho, lookup_singleton_eq|done|by left|done|by left|]. apply HQ; [|done].
  split; [|done]. repeat split; cbn; try done.
  - by rewrite Ho, insert_singleton_eq. - unfold res_set. by rewrite Hr.
Qed.

Lemma wp_read_item_result o x pool K Q :
  in_item o x pool K -> (forall r, x = OResult r -> Q r K) -> wp Q K (read_result o).
Proof.
  intros (HK & _ & Hi) HQ. pose proof HK as (_ & _ & Ho & _).
  apply (wp_read_result o x); [done|by rewrite Ho, lookup_singleton_eq|done].
Qed.

Lemma wp_read_item_stmt o x pool K Q :
  in_item o x pool K -> (forall s, x = OStmt s -> Q s K) -> wp Q K (read_stmt o).
Proof.
  intros (HK & _ & Hi) HQ. pose proof HK as (_ & _ & Ho & _).
  apply (wp_read_stmt o x); [done|by rewrite Ho, lookup_singleton_eq|done].
Qed.

Lemma perm_item_result o r pool K : in_item o (OResult r) pool K -> permitted K (KResult, TaosResult r).
Proof.
  intros (HK & _). pose proof HK as (_ & _ & Ho & Hf & Hc & Hop & _). unfold res_set in Hf. cbn in Hf.
  destruct (inStmt r) eqn:Ei.
  { do 3 right. split; [done|]. right. do 2 (split; [done|]). exists o, (OResult r). split; [by rewrite Ho, lookup_singleton_eq|].
    cbn. by rewrite Ei. } rewrite orb_false_r in Hf. destruct (Z.eqb_spec (TaosResult r) nilp) as [->|E].
  - apply perm_nil. - apply perm_flight. rewrite Hf. set_solver.
Qed.

Lemma perm_item_stmt o s pool K : in_item o (OStmt s) pool K -> permitted K (KStmt, stmt s).
Proof.
  intros (HK & _ & _). pose proof HK as (_ & _ & _ & Hf & _). unfold res_set in Hf. cbn in Hf.
  destruct (Z.eqb_spec (stmt s) nilp) as [->|E]; [apply perm_nil|]. apply perm_flight. rewrite Hf. set_solver.
Qed.

Lemma wp_get t index pool K Q :
  st ∅ ∅ pool K -> Q None K -> (forall o K', st ∅ ∅ pool K' -> o ∈ k_items K' -> Q (Some o) K') -> wp Q K (do_ (OGet t index)).
Proof. intros HK Hn Hs. cbn. split; [done|]. intros o. apply Hs; [by destruct K|set_solver]. Qed.

Lemma wp_resultValidateAndLock action reqID resultID K Q :
  st ∅ ∅ 0 K -> (forall K', st ∅ ∅ 0 K' -> Q None K') -> (forall o r K', in_item o (OResult r) 0 K' -> Q (Some o) K') ->
  wp Q K (resultValidateAndLock action reqID resultID).
Proof.
  intros HK Hn Hs. apply wp_bind. eapply wp_get; [done| |].
  - apply wp_bind, wp_qa; [calm|]. intros _. by apply Hn.
  - intros o K1 HK1 Hi. apply wp_bind. eapply wp_lock_item; [done|done|]. intros x K2 HK2.
    apply wp_bind. eapply wp_read_item_result; [done|]. intros r ->. destruct (_ =? _).
    + apply wp_bind. eapply wp_unlock_item; [done|]. intros K3 HK3 _. apply wp_bind, wp_qa; [calm|]. intros _. by apply Hn.
    + by eapply Hs.
Qed.

Lemma keeps_numFields action req : keeps (numFields action req).
Proof.
  intros K HK. apply wp_bind. eapply wp_resultValidateAndLock; [done|by intros|]. intros o r K1 HK1. cbv beta iota.
  unfold then_unlock. apply wp_bind, wp_bind. eapply wp_read_item_result; [done|]. intros r' [= <-].
  pose proof (perm_item_result _ _ _ _ HK1). apply wp_qa; [calm|]. intros []. apply wp_bind. by eapply wp_unlock_item.
Qed.

(** The error text of a failed fetch. *)
Lemma wp_late_text p n K Q :
  (may_fail = false -> (0 <=? n) = true) -> (n <? 0) = true -> (forall x, Q x K) -> wp Q K (call_ (C_TaosErrorStr p)).
Proof.
  intros Hf Hn HQ. apply wp_plain; [done| |auto]. intros r ->%list_elem_of_singleton. right. split; [|done].
  destruct may_fail; [done|]. specialize (Hf eq_refl). lia.
Qed.

Lemma wp_fetch o r pool K Q :
  in_item o (OResult r) pool K -> (forall x, (may_fail = false -> (0 <=? N x) = true) -> Q x K) ->
  wp Q K (TaosFetchRawBlockA (TaosResult r)).
Proof.
  intros HK HQ. pose proof (perm_item_result _ _ _ _ HK). apply wp_bind, wp_qa; [calm|]. intros _.
  apply wp_plain; [done| |intros x _; apply HQ]. intros r' ->%list_elem_of_singleton. by left.
Qed.

Lemma in_item_pool o x pool K : in_item o x pool K -> in_item o x (S pool) (with_pool (S pool) K).
Proof. intros ((? & ? & ? & ? & ? & ? & ? & ? & ?) & Hok & Hi). split; [by repeat split|done]. Qed.

Lemma wp_PoolGet_item o x pool K Q :
  in_item o x pool K -> (forall K', in_item o x (S pool) K' -> Q tt K') -> wp Q K (do_ OPoolGet).
Proof.
  intros HK HQ. apply (wp_PoolGet {[o := x]} (res_set x) pool); [apply HK|]. intros K' -> _. by apply HQ, in_item_pool.
Qed.

(** The end of a result: it is freed, the response goes out, and the callback handler goes back. *)
Lemma wp_finish resultID (p : prog unit) K :
  st ∅ ∅ 1 K -> (forall K, quiet_at K p) -> wp (fun _ K' => wp (fun _ => st ∅ ∅ 0) K' (do_ OPoolPut)) K (FreeResultByID resultID;; p).
Proof.
  intros HK Hp. apply wp_bind. eapply wp_FreeResultByID; [done|]. intros K' HK'. apply Hp. intros _. by eapply wp_PoolPut.
Qed.

Lemma keeps_fetch action req : keeps (fetch action req).
Proof.
  intros K HK. apply wp_bind. eapply wp_resultValidateAndLock; [done|by intros|]. intros o r K1 HK1. cbv beta iota.
  apply wp_bind. eapply wp_PoolGet_item; [done|]. intros K2 HK2. apply wp_bind.
  eapply wp_read_item_result; [done|]. intros r' [= <-]. apply wp_bind. eapply wp_fetch; [done|]. intros result Hfe.
  apply wp_bind. destruct (N result =? 0); [|destruct (N result <? 0) eqn:EN].
  - apply wp_bind. eapply wp_unlock_item; [done|]. intros K3 HK3 _. apply wp_finish; [done|]. intros. calm.
  - apply wp_bind. eapply wp_unlock_item; [done|]. intros K3 HK3 _. apply wp_bind. eapply wp_late_text; [done|done|]. intros errStr.
    apply wp_finish; [done|]. intros. calm.
  - pose proof (perm_item_result _ _ _ _ HK2). apply wp_bind, wp_qa; [calm|]. intros length.
    apply wp_bind, wp_qa; [calm|]. intros block. apply wp_bind. eapply wp_write_item; [done|done|done|apply HK2|done|].
    intros K3 HK3 _. apply wp_bind. eapply wp_unlock_item; [done|]. intros K4 HK4 _. apply wp_qa; [calm|]. intros _.
    by eapply wp_PoolPut.
Qed.

Lemma wp_MakeBuf o x pool n K Q :
  in_item o x pool K -> (forall b K', in_item o x pool K' -> b ∈ k_bufs K' -> Q b K') -> wp Q K (do_ (OMakeBuf n)).
Proof.
  intros (HK & [Hb Hf] & Hi) HQ. cbn. intros b. apply HQ; [|set_solver]. split; [by destruct K|]. split; [|done].
  split; [done|]. intros b' Hb'. cbn. specialize (Hf b' Hb'). set_solver.
Qed.

Lemma wp_reserve o r pool n K Q :
  in_item o (OResult r) pool K -> (forall b K', in_item o (OResult r) pool K' -> b ∈ k_bufs K' -> Q b K') ->
  wp Q K (reserve (r_buf r) n).
Proof.
  intros HK HQ. unfold reserve. destruct (r_buf r) as [[b l]|] eqn:Eb; [|by eapply wp_MakeBuf].
  assert (Hb : b ∈ k_bufs K). { destruct HK as (_ & [_ Hf] & _). apply Hf. cbn. by rewrite Eb. }
  apply wp_bind. cbn. split; [done|]. intros c. destruct (_ <? _); [by eapply wp_MakeBuf|by apply HQ].
Qed.

Lemma obj_ok_buf K r b n block size :
  k_obj_ok K (OResult r) -> b ∈ k_bufs K -> k_obj_ok K (OResult (set_buf (set_block r block size) (Some (b, n)))).
Proof. intros [Hb _] Hin. split; [exact Hb|]. by intros b' [= <-]. Qed.

Lemma wp_FillBuf b d K Q : b ∈ k_bufs K -> Q tt K -> wp Q K (do_ (OFillBuf b d)).
Proof. done. Qed.

Lemma keeps_fetchBlock action req : keeps (fetchBlock action req).
Proof.
  intros K HK. apply wp_bind. eapply wp_resultValidateAndLock; [done|by intros|]. intros o r K1 HK1. cbv beta iota.
  unfold then_unlock. apply wp_bind, wp_bind. eapply wp_read_item_result; [done|]. intros r' [= <-].
  assert (Hun : forall x K', in_item o x 0 K' -> wp (fun _ => st ∅ ∅ 0) K' (do_ (OUnlock (LObj o));; mret tt)).
  { intros x K' HK'. apply wp_bind. by eapply wp_unlock_item. }
  destruct (Block r =? nilp); [apply wp_qa; [calm|]; intros []; by eapply Hun|].
  pose proof (perm_item_result _ _ _ _ HK1). apply wp_bind, wp_qa; [calm|]. intros m.
  apply wp_bind, wp_lift. intros len. destruct (len <=? 0); [apply wp_qa; [calm|]; intros []; by eapply Hun|].
  apply wp_bind. eapply wp_reserve; [done|]. intros b K2 HK2 Hb. apply wp_bind.
  eapply wp_write_item; [done|done|done|by apply (obj_ok_buf _ r _ _ (Block r) (Size r)); [apply HK2|]|done|].
  intros K3 HK3 E3. rewrite <- E3 in Hb. apply wp_bind, wp_qa; [calm|]. intros t. apply wp_bind, wp_lift. intros data.
  apply wp_bind, wp_FillBuf; [done|]. apply wp_qa; [calm|]. intros []. by eapply Hun.
Qed.

Lemma wp_fetchRawBlockMessage o r pool reqID resultID t len m K Q :
  in_item o (OResult r) pool K ->
  (forall b n K', in_item o (OResult r) pool K' -> b ∈ k_bufs K' -> Q (Some (b, n)) K') ->
  wp Q K (fetchRawBlockMessage (r_buf r) reqID resultID t len m).
Proof.
  intros HK HQ. apply wp_bind, wp_lift. intros data. apply wp_bind. eapply wp_reserve; [done|]. intros b K1 HK1 Hb.
  apply wp_bind, wp_FillBuf; [done|]. by apply HQ.
Qed.

Lemma wp_read_any o K Q : o ∈ k_items K -> (forall r, Q r K) -> wp Q K (read_result o).
Proof. intros Hi HQ. apply wp_bind. cbn. split; [done|]. intros [r|s] _; cbn; auto. Qed.

Lemma keeps_fetchRawBlock reqID resultID message : keeps (fetchRawBlock reqID resultID message).
Proof.
  unfold fetchRawBlock. cbv zeta.
  assert (Herr : forall code msg K, quiet_at K (t ← GetDuration; fetchRawBlockErrorResponse code msg reqID resultID (u64 t))).
  { intros. apply qa_bind; [calm|]. intros t. apply qa_quiet, quiet_rawError. }
  destruct (_ <? _); [intros K HK; by apply Herr|]. apply keeps_lift. intros v.
  destruct (negb _); [intros K HK; by apply Herr|]. intros K HK. apply wp_bind. eapply wp_get; [done|by apply Herr|].
  intros o K1 HK1 Hi. apply wp_bind. eapply wp_lock_item; [done|done|]. intros x K2 HK2. apply wp_bind.
  eapply wp_read_item_result; [done|]. intros r ->. destruct (TaosResult r =? nilp).
  { apply wp_bind. eapply wp_unlock_item; [done|]. intros K3 HK3 _. by apply Herr. }
  apply wp_bind. eapply wp_PoolGet_item; [done|]. intros K3 HK3. apply wp_bind. eapply wp_fetch; [done|]. intros result Hfe.
  apply wp_bind. destruct (N result =? 0); [|destruct (N result <? 0) eqn:EN].
  { apply wp_bind. eapply wp_unlock_item; [done|]. intros K4 HK4 _. apply wp_finish; [done|]. intros. apply qa_bind; [calm|].
    intros t. apply qa_quiet, quiet_rawFinish. }
  { apply wp_bind. eapply wp_unlock_item; [done|]. intros K4 HK4 _. apply wp_bind. eapply wp_late_text; [done|done|]. intros errStr.
    by apply wp_finish. }
  pose proof (perm_item_result _ _ _ _ HK3). apply wp_bind, wp_qa; [calm|]. intros block. apply wp_bind.
  eapply wp_write_item; [done|done|done|apply HK3|done|]. intros K4 HK4 _. pose proof (perm_item_result _ _ _ _ HK4) as Hp4.
  cbn [set_block TaosResult] in Hp4. apply wp_bind, wp_qa; [calm|]. intros m. apply wp_bind, wp_lift. intros len.
  destruct (len <=? 0).
  { apply wp_bind. eapply wp_unlock_item; [done|]. intros K5 HK5 _. apply Herr. intros _. by eapply wp_PoolPut. }
  apply wp_bind, wp_qa; [calm|]. intros t. apply wp_bind.
  eapply (wp_fetchRawBlockMessage o (set_block r block (N result))); [done|]. intros b n K5 HK5 Hb. apply wp_bind.
  eapply wp_write_item; [done|done|done|by apply (obj_ok_buf _ (set_block r block (N result)) _ _ block (N result)); [apply HK5|]|done|].
  intros K6 HK6 _. apply wp_bind. eapply wp_unlock_item; [done|]. intros K7 HK7 Hi7. apply wp_bind, wp_read_any; [done|]. intros r'.
  apply wp_qa; [calm|]. intros _. by eapply wp_PoolPut.
Qed.

(** ** Statements *)

Lemma wp_read_any_stmt o K Q : o ∈ k_items K -> (forall s, Q s K) -> wp Q K (read_stmt o).
Proof. intros Hi HQ. apply wp_bind. cbn. split; [done|]. intros [r|s] _; cbn; auto. Qed.

Definition finds (get : prog (option nat)) : Prop :=
  forall K (Q : option nat -> know -> Prop), st ∅ ∅ 0 K -> (forall K', st ∅ ∅ 0 K' -> Q None K') ->
    (forall o K', st ∅ ∅ 0 K' -> o ∈ k_items K' -> Q (Some o) K') -> wp Q K get.

Lemma finds_Stmts_Get index : finds (Stmts_Get index).
Proof.
  intros K Q HK Hn Hs. apply wp_bind. eapply wp_get; [done|by apply Hn|]. intros o K1 HK1 Hi.
  apply wp_bind, wp_read_any_stmt; [done|]. intros s. cbn. destruct (isStmt2 s); auto.
Qed.

Lemma finds_Stmts_GetStmt2 index : finds (Stmts_GetStmt2 index).
Proof.
  intros K Q HK Hn Hs. apply wp_bind. eapply wp_get; [done|by apply Hn|]. intros o K1 HK1 Hi.
  apply wp_bind, wp_read_any_stmt; [done|]. intros s. cbn. destruct (isStmt2 s); auto.
Qed.

(** What a handler may do with the statement it has locked. *)
Definition stmt_body (body : nat -> StmtItem -> prog unit) : Prop :=
  forall o s K, stmt s <> nilp -> in_item o (OStmt s) 0 K -> wp (fun _ K' => exists s', in_item o (OStmt s') 0 K') K (body o s).

Lemma keeps_validate get isNil action reqID stmtID body :
  finds get -> stmt_body body -> keeps (validate get isNil action reqID stmtID body).
Proof.
  intros Hg Hb K HK. apply wp_bind, Hg; [done|intros K' HK'; apply wp_qa; [calm|by intros]|]. intros o K1 HK1 Hi.
  apply wp_bind. eapply wp_lock_item; [done|done|]. intros x K2 HK2. apply wp_bind. eapply wp_read_item_stmt; [done|].
  intros s ->. destruct (Z.eqb_spec (stmt s) nilp) as [|Hn].
  - apply wp_bind. eapply wp_unlock_item; [done|]. intros K3 HK3 _. apply wp_qa; [calm|by intros].
  - apply wp_bind. eapply wp_mono, Hb, HK2; [|done]. intros [] K3 (s' & HK3). apply wp_bind. by eapply wp_unlock_item.
Qed.

Lemma keeps_stmt action reqID stmtID body : stmt_body body -> keeps (stmtValidateAndLock action reqID stmtID body).
Proof. apply keeps_validate, finds_Stmts_Get. Qed.
Lemma keeps_stmt2 action reqID stmtID body : stmt_body body -> keeps (stmt2ValidateAndLock action reqID stmtID body).
Proof. apply keeps_validate, finds_Stmts_GetStmt2. Qed.

(** A body that only calls the library. *)
Lemma body_quiet (body : nat -> StmtItem -> prog unit) :
  (forall o s K, permitted K (KStmt, stmt s) -> quiet_at K (body o s)) -> stmt_body body.
Proof. intros H o s K _ HK. apply (H o s K); [by eapply perm_item_stmt|]. intros _. by exists s. Qed.

Ltac body := apply body_quiet; intros o s K Hp; calm.

Lemma keeps_stmtSetTableName action req : keeps (stmtSetTableName action req).
Proof. unfold stmtSetTableName. apply keeps_stmt. body. Qed.
Lemma keeps_stmtAddBatch action req : keeps (stmtAddBatch action req).
Proof. unfold stmtAddBatch. apply keeps_stmt. body. Qed.
Lemma keeps_stmtExec action req : keeps (stmtExec action req).
Proof. unfold stmtExec. apply keeps_stmt. body. Qed.
Lemma keeps_stmtNumParams action req : keeps (stmtNumParams action req).
Proof. unfold stmtNumParams. apply keeps_stmt. body. Qed.
Lemma keeps_stmtGetParam action req : keeps (stmtGetParam action req).
Proof. unfold stmtGetParam. apply keeps_stmt. body. Qed.
Lemma keeps_stmt2BinaryBind action reqID stmtID message : keeps (stmt2BinaryBind action reqID stmtID message).
Proof. unfold stmt2BinaryBind. keep. apply keeps_stmt2. body. Qed.

Lemma keeps_stmtPrepare action req : keeps (stmtPrepare action req).
Proof.
  unfold stmtPrepare. apply keeps_stmt. intros o s K Hn HK. pose proof (perm_item_stmt _ _ _ _ HK) as Hp. apply wp_bind, wp_qa; [calm|]. intros code.
  destruct (negb _); [apply wp_qa; [calm|eauto]|]. apply wp_bind, wp_qa; [calm|]. intros r.
  destruct (negb _); [apply wp_qa; [calm|eauto]|]. apply wp_bind. eapply wp_write_item; [done|done|done|apply HK|done|].
  intros K1 HK1 _. apply wp_qa; [calm|eauto].
Qed.

Lemma keeps_stmtClose action req : keeps (stmtClose action req).
Proof.
  intros K HK. apply wp_bind. eapply wp_FreeStmtByID; [done|]. intros [e|] K1 HK1; (apply wp_qa; [calm|by intros]).
Qed.
Lemma keeps_stmt2Close action req : keeps (stmt2Close action req).
Proof.
  intros K HK. apply wp_bind. eapply wp_FreeStmtByID; [done|]. intros [e|] K1 HK1; (apply wp_qa; [calm|by intros]).
Qed.

(** The fields of a statement are live until they are reclaimed. *)
Definition gets_fields (g : call (Z * Z * ptr)) (st : ptr) : Prop :=
  frees g = None /\ (forall x, stmt_result g x = None) /\ uses g = [(KStmt, st)] /\
  forall x, allocs g x = if fst (fst x) =? 0 then Some (KFields, snd x) else None.

Lemma wp_reclaim (c : call unit) p f K Q :
  freeing c (KFields, f) -> uses c = [(KStmt, p); (KFields, f)] -> permitted K (KStmt, p) ->
  res_opt (Some (KFields, f)) ## k_flight K -> Q tt K ->
  wp Q (with_flight (res_opt (Some (KFields, f)) ∪ k_flight K) K) (call_ c).
Proof.
  intros [Hf Hs] Hu Hp Hd HQ. set (F := res_opt (Some (KFields, f))) in *.
  assert (E : (F ∪ k_flight K) ∖ F = k_flight K) by set_solver.
  assert (Hmono : forall K1, k_flight K ⊆ k_flight K1 -> K1 = with_flight (k_flight K1) K -> permitted K1 (KStmt, p)).
  { intros K1 Hsub EK. destruct Hp as [?|[?|[[? _]|[? _]]]]; [by left|right; left; set_solver|done|done]. }
  apply wp_call; rewrite ?Hf, ?Hu; fold F.
  - intros r [->|[->|?%not_elem_of_nil]%elem_of_cons]%elem_of_cons; [left; apply Hmono; [set_solver|done]| |done].
    left. apply perm_opt. fold F. cbn. set_solver.
  - intros r [= <-]. unfold F. cbn. destruct (Z.eqb_spec f nilp); [by left|right; set_solver].
  - intros r [->|[->|?%not_elem_of_nil]%elem_of_cons]%elem_of_cons; [right; left; apply Hmono; [cbn; set_solver|done]|by left|done].
  - intros [] _ _ _. destruct (Hs tt) as [E1 E2]. unfold after_answer. rewrite E1, E2. eapply eq_rect; [exact HQ|].
    apply know_eq; try reflexivity; cbn; know_sets.
Qed.

Lemma wp_with_fields sl (g : call (Z * Z * ptr)) action reqID stmtID o s K body :
  gets_fields g (stmt s) -> in_item o (OStmt s) 0 K ->
  (forall num fields K', permitted K' (KFields, fields) -> permitted K' (KStmt, stmt s) -> quiet_at K' (body num fields)) ->
  wp (fun _ K' => exists s', in_item o (OStmt s') 0 K') K (with_fields (limited sl g) action reqID stmtID s body).
Proof.
  intros (Hf & Hs & Hu & Ha) HK Hb. pose proof (perm_item_stmt _ _ _ _ HK) as Hp. unfold with_fields.
  apply wp_bind, wp_limited_alloc; [done|done|unfold grants; rewrite Hu; by apply Forall_singleton|].
  intros [[code num] fields] _ Hd. rewrite Ha in *. cbn [fst snd] in *. destruct (code =? 0); cbn [negb].
  - set (K1 := with_flight _ K). assert (Hp1 : permitted K1 (KStmt, stmt s)).
    { apply (permitted_flight K1 (k_flight K)); [cbn -[res_opt]; set_solver|]. by destruct K. }
    apply wp_bind. apply (Hb num fields K1); [|done|].
    + apply perm_opt. cbn -[res_opt]. set_solver.
    + intros _. apply (wp_reclaim _ (stmt s)); try done. by exists s.
  - replace (with_flight _ K) with K; [apply wp_qa; [calm|eauto]|]. apply know_eq; try reflexivity. cbn. set_solver.
Qed.

Section Parsers.
Context (StmtParseTag : option bytes -> list StmtField -> list value + bytes).
Context (StmtParseColumn : option bytes -> list StmtField -> list ColumnType ->
           (list (list value) * list ColumnType) + bytes).

Ltac fields := intros o s K Hn HK; apply wp_with_fields; [done|done|]; intros num fs K' Hf Hp; calm.

Lemma keeps_stmtSetTags action req : keeps (stmtSetTags StmtParseTag action req).
Proof. unfold stmtSetTags. apply keeps_stmt. fields. Qed.
Lemma keeps_stmtBind action req : keeps (stmtBind StmtParseColumn action req).
Proof. unfold stmtBind. apply keeps_stmt. fields. Qed.
Lemma keeps_stmtGetTagFields action req : keeps (stmtGetTagFields action req).
Proof. unfold stmtGetTagFields, stmtGetFields. apply keeps_stmt. fields. Qed.
Lemma keeps_stmtGetColFields action req : keeps (stmtGetColFields action req).
Proof. unfold stmtGetColFields, stmtGetFields. apply keeps_stmt. fields. Qed.
Lemma keeps_stmtBinarySetTags action reqID stmtID message : keeps (stmtBinarySetTags action reqID stmtID message).
Proof. unfold stmtBinarySetTags. keep. apply keeps_stmt. fields. Qed.

Lemma keeps_stmtBinaryBind action reqID stmtID message : keeps (stmtBinaryBind action reqID stmtID message).
Proof.
  unfold stmtBinaryBind. keep. apply keeps_stmt. intros o s K Hn HK. destruct (isInsert s).
  - revert o s K Hn HK. fields.
  - pose proof (perm_item_stmt _ _ _ _ HK) as Hp. apply wp_qa; [calm|eauto].
Qed.

End Parsers.

(** Results that belong to their statement. *)
Definition borrows {X} (c : call X) (s : StmtItem) : Prop :=
  frees c = None /\ uses c = [(KStmt, stmt s)] /\
  forall y, allocs c y = None /\ exists p, stmt_result c y = Some (p, stmt s).

Lemma lent_after {X} (c : call X) s y K :
  borrows c s -> lent (OStmt s) ⊆ k_sres K -> lent (OStmt s) ⊆ k_sres (after_answer K c y).
Proof.
  intros (_ & _ & Hy) Hl. destruct (Hy y) as (_ & p & Ep). unfold after_answer. rewrite Ep. cbn in *.
  destruct ((s_result s =? nilp) || (stmt s =? nilp)); [apply map_empty_subseteq|]. apply map_singleton_subseteq_l in Hl.
  apply map_singleton_subseteq_l. destruct (p =? nilp); [by rewrite (left_id_L ∅ (∪))|].
  destruct (decide (p = s_result s)) as [->|Hn]; apply lookup_union_Some_raw; [left; apply lookup_singleton_eq|right].
  by rewrite lookup_singleton_ne.
Qed.

Lemma wp_borrow {X} (c : call X) o s pool K Q :
  borrows c s -> in_item o (OStmt s) pool K ->
  (forall y K', in_item o (OStmt s) pool K' -> (forall p, stmt_result c y = Some (p, stmt s) -> p = nilp \/ k_sres K' !! p = Some (stmt s)) -> Q y K') ->
  wp Q K (call_ c).
Proof.
  intros Hb Hin HQ. pose proof Hb as (Hf & Hu & Hy). pose proof (perm_item_stmt _ _ _ _ Hin) as Hp.
  pose proof Hin as (HK & [Hl Hbf] & Hi). assert (E : k_flight K ∖ res_opt None = k_flight K) by apply difference_empty_L.
  apply wp_call; rewrite ?Hf, ?Hu, ?E.
  - intros r ->%list_elem_of_singleton. by left.
  - done.
  - intros r ->%list_elem_of_singleton. right. left. by destruct K.
  - intros y _ _ _. apply HQ.
    + split; [|split; [split; [by apply lent_after|done]|done]]. unfold after_answer. rewrite (proj1 (Hy y)).
      destruct HK as (? & ? & ? & Hfl & ? & ? & ? & ? & ?). repeat split; cbn; try done. by rewrite (left_id_L ∅ (∪)).
    + intros p Es. unfold after_answer. cbn -[sres_opt]. rewrite Es. cbn. destruct (Z.eqb_spec p nilp); [by left|right].
      apply lookup_union_Some_raw. left. apply lookup_singleton_eq.
Qed.

(** The results of the statement that the goroutine has locked. *)
Lemma item_stmt_held o s pool K p : in_item o (OStmt s) pool K -> p = nilp \/ k_sres K !! p = Some (stmt s) -> stmt_held K p.
Proof.
  intros (HK & _) [->|Hp]; [apply stmt_held_nil|]. right. exists (stmt s). split; [done|]. pose proof HK as (_ & _ & _ & Hf & _).
  unfold res_set in Hf. cbn in Hf. destruct (Z.eqb_spec (stmt s) nilp); [by left|right]. rewrite Hf. set_solver.
Qed.

Lemma wp_add_stmt_result result o s K respond :
  in_item o (OStmt s) 0 K -> result = nilp \/ k_sres K !! result = Some (stmt s) ->
  (forall i n h p K', quiet_at K' (respond i n h p)) ->
  wp (fun _ K' => exists s', in_item o (OStmt s') 0 K') K (add_stmt_result result respond).
Proof.
  intros HK Hr Hq. pose proof (item_stmt_held _ _ _ _ _ HK Hr) as Hh. pose proof (perm_stmt_held _ _ Hh) as Hp. apply wp_bind, wp_qa; [calm|]. intros n.
  apply wp_bind, wp_qa; [calm|]. intros h. apply wp_bind, wp_qa; [calm|]. intros prec. apply wp_bind.
  assert (E : forall y, res_set (OResult (mkQueryResult 0 result n h 0 nilp prec y true)) = ∅).
  { intros y. unfold res_set. cbn. by rewrite orb_true_r. }
  eapply wp_add; [apply HK|done|rewrite E; set_solver|by split; [apply map_empty_subseteq|]|done|]. intros i HK1. rewrite E, difference_empty_L in *.
  assert (Hin : in_item o (OStmt s) 0 (with_flight (res_set (OStmt s)) K)).
  { split; [done|]. destruct HK as (_ & Hok & Hi). by destruct K. }
  apply wp_bind, wp_qa; [calm|]. intros header. apply Hq. eauto.
Qed.

Lemma keeps_stmtUseResult action req : keeps (stmtUseResult action req).
Proof.
  unfold stmtUseResult. apply keeps_stmt. intros o s K Hn HK. pose proof (perm_item_stmt _ _ _ _ HK) as Hp. apply wp_bind.
  eapply wp_borrow; [by split; [|split; [|split; [|eexists]]]|done|]. intros p K1 HK1 Hs. pose proof (perm_item_stmt _ _ _ _ HK1) as Hp1.
  destruct (p =? nilp); [apply wp_qa; [calm|eauto]|].
  apply (wp_add_stmt_result _ o s); [done|by eapply Hs|]. intros. calm.
Qed.

Lemma keeps_stmt2UseResult action req : keeps (stmt2UseResult action req).
Proof.
  unfold stmt2UseResult. apply keeps_stmt2. intros o s K Hn HK.
  apply (wp_add_stmt_result _ o s); [done| |intros; calm]. pose proof HK as (_ & [Hl _] & _). cbn in Hl.
  destruct (Z.eqb_spec (s_result s) nilp); [by left|right]. rewrite (proj2 (Z.eqb_neq _ _) Hn) in Hl. by apply map_singleton_subseteq_l in Hl.
Qed.

Lemma lent_new s p K : p = nilp \/ k_sres K !! p = Some (stmt s) -> lent (OStmt (set_s_result s p)) ⊆ k_sres K.
Proof.
  intros Hp. cbn. destruct (Z.eqb_spec p nilp) as [|Hn]; [apply map_empty_subseteq|]. destruct (stmt s =? nilp); [apply map_empty_subseteq|].
  apply map_singleton_subseteq_l. by destruct Hp.
Qed.

Lemma keeps_stmt2Exec action req : keeps (stmt2Exec action req).
Proof.
  unfold stmt2Exec. apply keeps_stmt2. intros o s K Hn HK. pose proof (perm_item_stmt _ _ _ _ HK) as Hp.
  apply wp_bind, wp_qa; [calm|]. intros code. destruct (negb _); [apply wp_qa; [calm|eauto]|]. apply wp_bind.
  eapply wp_borrow; [by split; [|split; [|split; [|eexists]]]|done|]. intros x K1 HK1 Hs. pose proof (perm_item_stmt _ _ _ _ HK1) as Hp1.
  destruct (e_N x <? 0); [apply wp_qa; [calm|eauto]|]. apply wp_bind.
  eapply wp_write_item; [done|done|done| |done|]. { split; [|done]. by apply lent_new, Hs. }
  intros K2 HK2 _. apply wp_qa; [calm|eauto].
Qed.

Lemma keeps_stmt2Prepare action req : keeps (stmt2Prepare action req).
Proof.
  unfold stmt2Prepare. apply keeps_stmt2. intros o s K Hn HK. pose proof (perm_item_stmt _ _ _ _ HK) as Hp.
  apply wp_bind, wp_qa; [calm|]. intros code. destruct (negb _); [apply wp_qa; [calm|eauto]|].
  apply wp_bind, wp_qa; [calm|]. intros r. destruct (negb _); [apply wp_qa; [calm|eauto]|]. apply wp_bind.
  eapply wp_write_item; [done|done|done|apply HK|done|]. intros K1 HK1 _. pose proof (perm_item_stmt _ _ _ _ HK1) as Hp1.
  destruct (GetFields req); [|apply wp_qa; [calm|eauto]].
  apply wp_bind, wp_limited_alloc; [done|done|grant|]. intros [[code' num] fields] _ Hd. cbn [fst snd allocs] in *.
  destruct (code' =? 0); cbn [negb].
  - set (K2 := with_flight _ K1). assert (Hpf : permitted K2 (KFields, fields)) by (apply perm_opt; cbn -[res_opt]; set_solver).
    apply wp_bind, wp_qa; [calm|]. intros stb. apply wp_bind, wp_qa; [calm|]. intros t. apply wp_bind, wp_qa; [calm|]. intros _.
    apply (wp_reclaim _ (stmt s)); try done. eauto.
  - replace (with_flight _ K1) with K1; [apply wp_qa; [calm|eauto]|]. apply know_eq; try reflexivity. cbn. set_solver.
Qed.

(** ** New statements *)

Lemma keeps_stmtInit action reqID : keeps (stmtInit action reqID).
Proof.
  intros K HK. apply wp_bind. eapply wp_conn_; [done|]. intros c K1 HK1 _ _ Hp.
  apply wp_bind, wp_limited_alloc; [done|done|grant|]. intros p _ Hd. cbn [allocs] in *.
  pose proof HK1 as (_ & _ & _ & Hf & _). rewrite Hf, (right_id_L ∅ (∪)).
  pose proof (fun F => st_flight _ _ _ _ F HK1) as HK2. destruct (Z.eqb_spec p nilp) as [->|E].
  - apply wp_qa; [calm|]. intros _. apply HK2.
  - rewrite res_opt_some by done. apply wp_bind.
    assert (Er : res_set (OStmt (mkStmtItem 0 p false false nilp 0 0)) = {[(KStmt, p)]}).
    { unfold res_set. cbn. rewrite (proj2 (Z.eqb_neq _ _) E). cbn. set_solver. }
    eapply wp_add; [apply HK2|done|by rewrite Er|by split; [apply map_empty_subseteq|]|apply stmt_held_nil|]. intros i HK3. rewrite Er, difference_diag_L in *.
    apply wp_qa; [calm|by intros].
Qed.

Lemma keeps_stmt2Init action req : keeps (stmt2Init action req).
Proof.
  intros K HK. apply wp_bind, wp_alloc; [done|done|grant|]. intros [h cl] Hh _. cbn [allocs fst snd] in *.
  assert (Hn : h <> nilp) by (intros ->; discriminate Hh). pose proof HK as (_ & _ & _ & Hf & _).
  rewrite Hf, (right_id_L ∅ (∪)), res_opt_some by done. eapply st_flight in HK as HK0.
  apply wp_bind. eapply wp_conn_; [exact HK0|]. intros c K1 HK1 _ _ Hp. pose proof HK1 as (_ & _ & _ & Hf1 & _).
  assert (Hph : permitted K1 (KHandle, h)) by (apply perm_flight; rewrite Hf1; set_solver).
  apply wp_bind, wp_limited_alloc; [done|done|grant|]. intros p _ Hd. cbn [allocs] in *. rewrite Hf1.
  destruct (Z.eqb_spec p nilp) as [->|E].
  - apply wp_bind, (wp_call_free _ _ (KHandle, h)); [done|done|cbn; set_solver|done|]. intros _.
    apply wp_qa; [calm|]. intros _. eapply st_eq; [by eapply (st_flight _ _ _ _ ∅)|]. apply know_eq; try reflexivity. cbn. set_solver.
  - rewrite res_opt_some by done. apply wp_bind.
    assert (Er : res_set (OStmt (mkStmtItem 0 p false true nilp h cl)) = {[(KStmt, p)]} ∪ {[(KHandle, h)]}).
    { unfold res_set. cbn. rewrite (proj2 (Z.eqb_neq _ _) E). cbn. set_solver. }
    eapply wp_add; [by eapply st_flight|done|by rewrite Er|by split; [apply map_empty_subseteq|]|apply stmt_held_nil|]. intros i HK3. rewrite Er, difference_diag_L in *.
    apply wp_qa; [calm|by intros].
Qed.

(** ** The connection *)

(** A goroutine with the lock of the handler: that of a [conn] message, or of [waitSignal]. *)
Definition hst (counted : bool) (conn : option ptr) (flight : gset res) (K : know) : Prop :=
  k_hlock K = true /\ k_table K = Per NotHeld NotHeld /\ k_objs K = ∅ /\ k_flight K = flight /\ k_counted K = counted /\
  k_open K = counted /\ k_closing K = false /\ k_pool K = 0%nat /\ k_sem K = Per 0%nat 0%nat /\
  (forall c, conn = Some c -> k_hopen K = true /\ k_hconn K = Some c).

Lemma hst_flight counted conn flight flight' K : hst counted conn flight K -> hst counted conn flight' (with_flight flight' K).
Proof. intros (? & ? & ? & ? & ? & ? & ? & ? & ? & Hc). by repeat (split; [done|]). Qed.

Abbreviation leaves := (fun (_ : unit) => hst true None ∅).

Lemma hst_weaken counted conn flight K : hst counted conn flight K -> hst counted None flight K.
Proof. intros (? & ? & ? & ? & ? & ? & ? & ? & ? & Hc). by repeat (split; [done|]). Qed.

Lemma wp_TaosClose conn K Q :
  hst true (Some nilp) (res_opt (Some (KConn, conn))) K -> (forall K', hst true None ∅ K' -> Q tt K') -> wp Q K (TaosClose conn).
Proof.
  intros HK HQ. unfold TaosClose. destruct (Z.eqb_spec conn nilp) as [->|E]; [by eapply HQ, hst_weaken|].
  rewrite res_opt_some in HK by done. pose proof HK as (_ & _ & _ & Hf & _).
  apply (wp_limited_free _ _ _ (KConn, conn)); [done| |right; rewrite Hf; set_solver|done|].
  - intros r' ->%list_elem_of_singleton. by left.
  - intros []. apply HQ. rewrite Hf, difference_diag_L. by eapply hst_weaken, hst_flight.
Qed.

Lemma wp_handleConnectError conn action reqID err K :
  hst true (Some nilp) (res_opt (Some (KConn, conn))) K -> wp leaves K (handleConnectError conn action reqID err).
Proof.
  intros HK. unfold handleConnectError. destruct err as [code m|m]; apply wp_bind; eapply wp_TaosClose; try done;
    intros K' HK'; (apply wp_qa; [calm|by intros]).
Qed.

Section Connect.
Context (conn : ptr) (Hconn : conn <> nilp).
Abbreviation connecting := (hst true (Some nilp) {[(KConn, conn)]}).

Lemma perm_connecting K : connecting K -> permitted K (KConn, conn).
Proof. intros (_ & _ & _ & Hf & _). apply perm_flight. rewrite Hf. set_solver. Qed.

Lemma wp_connect_fail action reqID err K : connecting K -> wp leaves K (handleConnectError conn action reqID err).
Proof. intros HK. apply wp_handleConnectError. by rewrite res_opt_some. Qed.

Lemma wp_connect_option action reqID wanted opt v next :
  (forall K, connecting K -> wp leaves K next) ->
  forall K, connecting K -> wp leaves K (connect_option conn action reqID wanted opt v next).
Proof.
  intros Hn K HK. pose proof (perm_connecting _ HK) as Hp. unfold connect_option. destruct wanted; [|by apply Hn].
  apply wp_bind, wp_qa; [calm|]. intros code. destruct (negb _); [|by apply Hn].
  apply wp_bind, wp_qa; [calm|]. intros e. by apply wp_connect_fail.
Qed.

Lemma wp_connect_mode action reqID mode next :
  (forall K, connecting K -> wp leaves K next) ->
  forall K, connecting K -> wp leaves K (connect_mode conn action reqID mode next).
Proof.
  intros Hn K HK. pose proof (perm_connecting _ HK) as Hp. unfold connect_mode. destruct mode as [mode|]; [|by apply Hn].
  destruct (_ =? _); [|by apply wp_connect_fail]. apply wp_bind, wp_qa; [calm|]. intros code. destruct (negb _); [|by apply Hn].
  apply wp_bind, wp_qa; [calm|]. intros e. by apply wp_connect_fail.
Qed.

Lemma wp_GetWhitelist K Q : permitted K (KConn, conn) -> (forall x, Q x K) -> wp Q K (GetWhitelist conn).
Proof. intros Hp HQ. apply wp_qa; [calm|done]. Qed.

Lemma wp_register notify K Q : permitted K (KConn, conn) -> (forall x, Q x K) -> wp Q K (register conn notify).
Proof. intros Hp HQ. apply wp_qa; [calm|done]. Qed.

Lemma wp_SetConn K Q :
  connecting K -> (forall K', hst true None ∅ K' -> Q tt K') -> wp Q K (do_ (OSetConn conn)).
Proof.
  intros (Hl & Ht & Ho & Hf & Hc & Hop & Hcl & Hp & Hs & Hn) HQ. destruct (Hn nilp eq_refl) as [H1 H2]. cbn [Logic.wp do_ pre].
  rewrite Hf. repeat (split; [done|]). split; [set_solver|]. rewrite difference_diag_L. apply HQ. by repeat (split; [done|]).
Qed.

End Connect.

Lemma wp_connect_new ip ipStr action req K : hst true (Some nilp) ∅ K -> wp leaves K (connect_new ip ipStr action req).
Proof.
  intros HK. pose proof HK as (_ & _ & _ & Hf & _). unfold connect_new. apply wp_bind, wp_limited_alloc; [done|done|grant|].
  intros [conn|err] Ha _; rewrite Hf; cbn [allocs].
  - assert (Hc : conn <> nilp) by (intros ->; discriminate Ha). rewrite res_opt_some, (right_id_L ∅ (∪)) by done.
    apply (hst_flight _ _ _ {[(KConn, conn)]}) in HK. set (K1 := with_flight _ K) in *.
    assert (Hp : permitted K1 (KConn, conn)) by (by eapply perm_connecting).
    apply wp_bind, wp_GetWhitelist; [done|]. intros [wl|err]; [|by apply wp_connect_fail].
    destruct (negb _); [by apply wp_connect_fail|]. apply wp_bind, wp_register; [done|]. intros [err|]; [by apply wp_connect_fail|].
    apply wp_bind, wp_register; [done|]. intros [err|]; [by apply wp_connect_fail|]. clearbody K1. revert K1 HK Hp. intros K1 HK _.
    revert K1 HK. apply wp_connect_mode; [done|]. apply wp_connect_option; [done|]. apply wp_connect_option; [done|].
    apply wp_connect_option; [done|]. intros K1 HK. apply wp_bind. eapply wp_SetConn; [done|done|]. intros K2 HK2.
    apply wp_bind. cbn [Logic.wp do_ pre]. apply wp_qa; [calm|by intros].
  - apply wp_handleConnectError. cbn. rewrite (right_id_L ∅ (∪)). by eapply hst_flight.
Qed.

Lemma wp_unlock_handler counted K Q :
  hst counted None ∅ K ->
  (forall K', k_hlock K' = false -> k_table K' = Per NotHeld NotHeld -> k_objs K' = ∅ -> k_flight K' = ∅ -> k_counted K' = counted ->
     k_open K' = counted -> k_closing K' = false -> k_pool K' = 0%nat -> k_sem K' = Per 0%nat 0%nat -> Q tt K') ->
  wp Q K (do_ (OUnlock LHandler)).
Proof. intros (? & ? & ? & ? & ? & ? & ? & ? & ? & ?) HQ. cbn [Logic.wp do_ pre]. split; [done|]. split; [done|]. by apply HQ. Qed.

Lemma wp_isClosed K Q : Q true K -> Q false (with_hopen (k_hlock K) (with_counted (k_counted K) (k_counted K) K)) -> wp Q K isClosed.
Proof. done. Qed.

Lemma wp_conn_locked counted K Q :
  hst counted None ∅ K -> k_hopen K = true -> (forall c K', hst counted (Some c) ∅ K' -> Q c K') -> wp Q K conn_.
Proof.
  intros (Hl & ? & ? & ? & ? & ? & ? & ? & ? & ?) Hopen HQ. cbn [Logic.wp do_ pre conn_]. intros c _. rewrite Hl. apply HQ.
  do 9 (split; [done|]). by intros c' [= <-].
Qed.

(** The lock of the handler is taken, and the handler found closed or open. *)
Lemma wp_lock_handler counted K Q :
  k_hlock K = false -> k_table K = Per NotHeld NotHeld -> k_objs K = ∅ -> k_flight K = ∅ -> k_counted K = counted ->
  k_open K = counted -> k_closing K = false -> k_pool K = 0%nat -> k_sem K = Per 0%nat 0%nat ->
  (forall K', hst counted None ∅ K' -> Q true K') -> (forall K', hst counted None ∅ K' -> k_hopen K' = true -> Q false K') ->
  wp Q K (do_ (OLock LHandler);; isClosed).
Proof.
  intros Hl Ht Ho Hf Hc Hop Hcl Hp Hs Ht' Hf'. cbn [Logic.wp do_ pre isClosed mbind prog_mbind]. split; [done|]. split.
  - apply Ht'. by do 9 (split; [done|]).
  - apply Hf'; [|done]. cbn. rewrite Hc. by do 9 (split; [done|]).
Qed.

Lemma keeps_connect ip ipStr action req : keeps (connect ip ipStr action req).
Proof.
  intros K (Hl & Ht & Ho & Hf & Hc & Hop & Hcl & Hp & Hs). unfold connect. apply bind_assoc, wp_bind.
  assert (Hun : forall K', hst true None ∅ K' -> wp (fun _ => st ∅ ∅ 0) K' (do_ (OUnlock LHandler))).
  { intros K' HK'. eapply wp_unlock_handler; [done|]. intros. by repeat (split; [done|]). }
  apply (wp_lock_handler true); [done..|intros K1 HK1|intros K1 HK1 Hopen]; apply wp_bind; [by apply Hun|].
  apply wp_bind. eapply wp_conn_locked; [done|done|]. intros c K2 HK2. destruct (Z.eqb_spec c nilp) as [->|E]; cbn [negb].
  - eapply wp_mono, wp_connect_new, HK2. intros [] K' HK'. by apply Hun.
  - apply wp_qa; [calm|]. intros _. by eapply Hun, hst_weaken.
Qed.

(** ** The end of the session *)

(** The goroutine that closes the session, once it has waited for the others. *)
Definition closing (conn : ptr) (flight : gset res) (fr fs : bool) (K : know) : Prop :=
  k_hlock K = true /\ k_table K = Per NotHeld NotHeld /\ k_objs K = ∅ /\ k_flight K = flight /\ k_counted K = false /\
  k_closing K = true /\ k_drained K = true /\ k_freed K = Per fr fs /\ k_hconn K = Some conn /\ k_pool K = 0%nat /\
  k_sem K = Per 0%nat 0%nat /\ k_open K = false.

Lemma closing_grows conn flight fr fs fr' fs' K K' :
  closing conn flight fr fs K -> grows (with_freed (Per fr' fs') K) K' -> closing conn flight fr' fs' K'.
Proof.
  intros (? & ? & ? & ? & ? & ? & ? & ? & ? & ? & ? & ?) (s & i & b & d & -> & _). by do 11 (split; [done|]).
Qed.

Lemma wp_Results_FreeAll conn flight fr fs K Q :
  closing conn flight fr fs K -> (forall K', closing conn flight true fs K' -> Q tt K') -> wp Q K Results_FreeAll.
Proof.
  intros HK HQ. pose proof HK as (_ & Ht & Ho & _ & _ & Hc & Hd & Hfr & _). apply wp_FreeAll; try done.
  - intros. by apply wp_QueryResult_free.
  - by rewrite Ht.
  - intros K' Hg. rewrite Hfr in Hg. by eapply HQ, closing_grows.
Qed.

Lemma wp_Stmts_FreeAll conn flight fr fs K Q :
  closing conn flight fr fs K -> (forall K', closing conn flight fr true K' -> Q tt K') -> wp Q K Stmts_FreeAll.
Proof.
  intros HK HQ. pose proof HK as (_ & Ht & Ho & _ & _ & Hc & Hd & Hfr & _). apply wp_FreeAll; try done.
  - intros. by apply wp_StmtItem_free.
  - by rewrite Ht.
  - intros K' Hg. rewrite Hfr in Hg. by eapply HQ, closing_grows.
Qed.

Lemma wp_close_conn conn fr fs K Q :
  closing conn (res_opt (Some (KConn, conn))) fr fs K -> (forall K', closing conn ∅ fr fs K' -> Q tt K') ->
  wp Q K (c ← conn_; if negb (c =? nilp) then TaosClose c else mret tt).
Proof.
  intros HK HQ. pose proof HK as (Hl & Ht & Ho & Hf & Hc & Hcl & Hd & Hfr & Hcn & Hp & Hs & Hop). apply wp_bind.
  cbn [Logic.wp do_ pre conn_]. intros c Hcc. assert (c = conn) as -> by (by apply (Hcc Hl)). rewrite Hl.
  unfold TaosClose. destruct (Z.eqb_spec conn nilp) as [->|E]; cbn [negb].
  - apply HQ. by do 11 (split; [done|]).
  - rewrite res_opt_some in Hf by done. apply (wp_limited_free _ _ _ (KConn, conn)); [done| |right; cbn; rewrite Hf; set_solver|done|].
    + intros r' ->%list_elem_of_singleton. by left.
    + intros []. apply HQ. cbn [k_flight with_conn with_hconn]. rewrite Hf, difference_diag_L. by do 11 (split; [done|]).
Qed.

(** Outside of the handler: no lock, nothing to give back, not counted. *)
Definition out (K : know) : Prop :=
  k_hlock K = false /\ k_table K = Per NotHeld NotHeld /\ k_objs K = ∅ /\ k_flight K = ∅ /\ k_counted K = false /\
  k_open K = false /\ k_closing K = false /\ k_pool K = 0%nat /\ k_sem K = Per 0%nat 0%nat.

Lemma out_final K : out K -> final K.
Proof.
  intros (? & Ht & ? & ? & ? & ? & ? & ? & Hs). do 1 (split; [done|]). split; [rewrite Ht; by intros []|]. do 5 (split; [done|]).
  rewrite Hs. by intros [].
Qed.

Lemma wp_unlock_out K Q : hst false None ∅ K -> (forall K', out K' -> Q tt K') -> wp Q K (do_ (OUnlock LHandler)).
Proof. intros HK HQ. eapply wp_unlock_handler; [done|]. intros. apply HQ. by do 8 (split; [done|]). Qed.

Lemma wp_stop K Q :
  hst false None ∅ K -> k_hopen K = true ->
  (forall conn K', closing conn ∅ true true K' -> Q tt K') -> wp Q K (do_ OSetClosed;; stop).
Proof.
  intros (Hl & Ht & Ho & Hf & Hc & Hop & Hcl & Hp & Hs & _) Hopen HQ. apply wp_bind. cbn [Logic.wp do_ pre].
  split; [done|]. split; [done|]. unfold stop. apply wp_bind. cbn [Logic.wp do_ pre]. split; [done|]. cbn [k_once with_once negb].
  apply wp_bind. cbn [Logic.wp do_ pre]. split; [done|]. split; [done|]. split; [done|]. intros conn _.
  set (K1 := with_drained true _). destruct (k_freed K) as [fr fs] eqn:Efr.
  assert (HK1 : closing conn (res_opt (Some (KConn, conn))) fr fs K1).
  { do 3 (split; [done|]). split; [cbn -[res_opt]; rewrite Hf; set_solver|]. by do 7 (split; [done|]). }
  clearbody K1. apply wp_bind. eapply wp_Results_FreeAll; [done|]. intros K2 HK2. apply wp_bind.
  eapply wp_Stmts_FreeAll; [done|]. intros K3 HK3. eapply wp_close_conn; [done|]. intros K4 HK4. by eapply HQ.
Qed.

Lemma wp_CloseExit conn K Q :
  closing conn ∅ true true K -> (forall K', hst false None ∅ K' -> Q tt K') -> wp Q K (do_ OCloseExit).
Proof.
  intros (Hl & Ht & Ho & Hf & Hc & Hcl & Hd & Hfr & Hcn & Hp & Hs & Hop) HQ. cbn [Logic.wp do_ pre]. rewrite Hfr.
  split; [done|]. split; [done|]. split; [done|]. apply HQ. by do 9 (split; [done|]).
Qed.

Lemma wp_Close K Q : out K -> (forall K', out K' -> Q tt K') -> wp Q K Close.
Proof.
  intros (Hl & Ht & Ho & Hf & Hc & Hop & Hcl & Hp & Hs) HQ. unfold Close. apply bind_assoc, wp_bind.
  apply (wp_lock_handler false); [done..|intros K1 HK1|intros K1 HK1 Hopen]; apply wp_bind; [by eapply wp_unlock_out|].
  apply bind_assoc, wp_bind. apply wp_stop; [done|done|]. intros conn K2 HK2. eapply wp_CloseExit; [done|]. intros K3 HK3.
  by eapply wp_unlock_out.
Qed.

Abbreviation ends := (fun (_ : bool) (K : know) => final K).

Lemma out_init : out (k_init false).
Proof. by do 8 (split; [done|]). Qed.

Lemma wp_CloseWs : wp ends (k_init false) CloseWs.
Proof. apply wp_bind, wp_Close; [apply out_init|]. intros K HK. by apply out_final. Qed.

Lemma wp_signalExit K Q : hst false None ∅ K -> (forall K', out K' -> Q tt K') -> wp Q K signalExit.
Proof. intros HK HQ. apply wp_bind. eapply wp_unlock_out; [done|]. intros K1 HK1. by apply wp_Close. Qed.

Lemma wp_leave K : out K -> wp ends K (do_ OPutHandles;; mret false).
Proof. intros HK. by apply out_final. Qed.

Lemma perm_hconn counted c flight K : hst counted (Some c) flight K -> permitted K (KConn, c).
Proof.
  intros (Hl & _ & _ & _ & _ & _ & _ & _ & _ & Hc). destruct (Hc c eq_refl). right. right. left. split; [done|]. by right.
Qed.

Lemma wp_waitSignal ip x : wp ends (k_init false) (waitSignal ip x).
Proof.
  destruct x; cbn [waitSignal]; [| |apply wp_leave, out_init]; apply bind_assoc, wp_bind;
    (apply (wp_lock_handler false); [done..|intros K1 HK1|intros K1 HK1 Hopen]);
    try (apply wp_bind; eapply wp_unlock_out; [done|]; intros; by apply wp_leave).
  - apply wp_bind, wp_signalExit; [done|]. intros K2 HK2. by apply wp_leave.
  - apply wp_bind. eapply wp_conn_locked; [done|done|]. intros c K2 HK2. apply wp_bind, wp_GetWhitelist; [by eapply perm_hconn|].
    apply hst_weaken in HK2. intros [wl|err].
    + destruct (negb _); [apply wp_bind, wp_signalExit; [done|]; intros K3 HK3; by apply wp_leave|].
      apply wp_bind. eapply wp_unlock_out; [done|]. intros K3 HK3. by apply out_final.
    + apply wp_bind, wp_signalExit; [done|]. intros K3 HK3. by apply wp_leave.
Qed.

(** ** Every message *)

Section Dispatch.
Context (ip ipStr : bytes).
Context (StmtParseTag : option bytes -> list StmtField -> list value + bytes).
Context (StmtParseColumn : option bytes -> list StmtField -> list ColumnType -> (list (list value) * list ColumnType) + bytes).
Context (TaosClientVersion : bytes) (D : decoders).

Lemma keeps_decoded {R} args action what (req : option R) h : (forall r, keeps (h r)) -> keeps (decoded D args action what req h).
Proof. intros Hh. destruct req; [apply Hh|]. apply keeps_quiet, quiet_commonError. Qed.

Lemma keeps_freeResult req : keeps (freeResult req).
Proof. intros K HK. by eapply wp_FreeResultByID. Qed.

Ltac act H := destruct (is_action _ _); [apply keeps_decoded; intros ?; apply H|].

Lemma keeps_dispatch_query action args next : keeps next -> keeps (dispatch_query D action args next).
Proof.
  intros Hn. unfold dispatch_query, query. act keeps_run_query. act keeps_fetch. act keeps_fetchBlock. act keeps_freeResult.
  act keeps_numFields. by act keeps_schemaless.
Qed.

Lemma keeps_dispatch_stmt action args next :
  keeps next -> keeps (dispatch_stmt StmtParseTag StmtParseColumn D action args next).
Proof.
  intros Hn. unfold dispatch_stmt. act keeps_stmtInit. act keeps_stmtPrepare. act keeps_stmtSetTableName. act keeps_stmtSetTags.
  act keeps_stmtBind. act keeps_stmtAddBatch. act keeps_stmtExec. act keeps_stmtClose. act keeps_stmtGetTagFields.
  act keeps_stmtGetColFields. act keeps_stmtUseResult. act keeps_stmtNumParams. by act keeps_stmtGetParam.
Qed.

Lemma keeps_dispatch_stmt2 action args next : keeps next -> keeps (dispatch_stmt2 D action args next).
Proof.
  intros Hn. unfold dispatch_stmt2. act keeps_stmt2Init. act keeps_stmt2Prepare. act keeps_stmt2Exec. act keeps_stmt2UseResult.
  by act keeps_stmt2Close.
Qed.

Lemma keeps_dispatch_misc action args next : keeps next -> keeps (dispatch_misc D action args next).
Proof. intros Hn. unfold dispatch_misc. act keeps_getCurrentDB. act keeps_getServerInfo. by act keeps_options. Qed.

Lemma keeps_handleMessage data :
  keeps (handleMessage ip ipStr StmtParseTag StmtParseColumn TaosClientVersion D data).
Proof.
  unfold handleMessage. destruct (d_Request D data) as [[action args]|]; [|apply keeps_quiet, quiet_commonError].
  destruct (bool_decide _); [apply keeps_quiet, quiet_commonError|]. destruct (is_action _ _).
  { destruct args; [apply keeps_decoded; intros ?|]; apply keeps_version. }
  act keeps_connect. apply keeps_bind; [intros K HK; by eapply wp_conn_|]. intros conn.
  destruct (conn =? nilp); [apply keeps_quiet, quiet_commonError|].
  apply keeps_dispatch_query, keeps_dispatch_stmt, keeps_dispatch_stmt2, keeps_dispatch_misc, keeps_quiet, quiet_commonError.
Qed.

Lemma keeps_handleMessageBinary message : keeps (handleMessageBinary message).
Proof.
  unfold handleMessageBinary. do 4 (apply keeps_lift; intros ?). cbv zeta. apply keeps_bind; [intros K HK; by eapply wp_conn_|]. intros conn.
  destruct (conn =? nilp); [apply keeps_quiet, quiet_commonError|].
  destruct (_ =? 1); [apply keeps_stmtBinarySetTags|]. destruct (_ =? 2); [apply keeps_stmtBinaryBind|].
  destruct (_ =? 3); [apply keeps_TMQRaw|]. destruct (_ =? 4); [apply keeps_rawBlock|].
  destruct (_ =? 5); [apply keeps_rawBlockFields|]. destruct (_ =? 6); [apply keeps_binaryQuery|].
  destruct (_ =? 7); [apply keeps_fetchRawBlock|]. destruct (_ =? 9); [apply keeps_stmt2BinaryBind|].
  apply keeps_quiet, quiet_commonError.
Qed.

Lemma wp_serve m : wp ends (k_init true) (serve ip ipStr StmtParseTag StmtParseColumn TaosClientVersion D m).
Proof.
  unfold serve. apply wp_bind, wp_isClosed; apply wp_bind.
  - cbn. by repeat split; intros [].
  - assert (Hk : forall p : prog unit, keeps p -> wp (fun _ K' => wp ends K' (do_ OWaitDone;; mret false))
      (with_hopen (k_hlock (k_init true)) (with_counted (k_counted (k_init true)) (k_counted (k_init true)) (k_init true))) p).
    { intros p Hp. eapply wp_mono, Hp; [|by do 8 (split; [done|])]. intros [] K (? & Ht & ? & ? & ? & ? & ? & ? & Hs).
      apply wp_bind. cbn [Logic.wp do_ pre]. split; [done|]. cbn. do 1 (split; [done|]). split; [cbn; rewrite Ht; by intros []|].
      do 5 (split; [done|]). cbn. rewrite Hs. by intros []. }
    destruct m; apply Hk; [apply keeps_handleMessage|apply keeps_handleMessageBinary].
Qed.

End Dispatch.

End Programs.

(** ** The session *)

(** Every goroutine has ended, or waits for a signal. *)
Definition finished (s : sys) : Prop := Forall (fun t => exists b, t_prog t = Done b) (threads s).

Section Whole.
Context (ip ipStr : bytes).
Context (StmtParseTag : option bytes -> list StmtField -> list value + bytes).
Context (StmtParseColumn : option bytes -> list StmtField -> list ColumnType -> (list (list value) * list ColumnType) + bytes).
Context (TaosClientVersion : bytes) (D : decoders).

(** One step of a session, and its first steps from a new handler on. *)
Definition session_step : sys -> action -> outcome sys :=
  step (serve ip ipStr StmtParseTag StmtParseColumn TaosClientVersion D) (waitSignal ip) CloseWs.
Definition session_run (poolsize semsize : nat) (acts : list action) : outcome sys :=
  run (serve ip ipStr StmtParseTag StmtParseColumn TaosClientVersion D) (waitSignal ip) CloseWs
    (newHandler poolsize semsize) acts.

(** No statement is closed by a message while an item of the session points to a result of it. *)
Definition results_kept (poolsize semsize : nat) (acts : list action) : Prop :=
  along (serve ip ipStr StmtParseTag StmtParseColumn TaosClientVersion D) (waitSignal ip) CloseWs keeps_results
    (newHandler poolsize semsize) acts.

Lemma session_ok may_fail n m acts s :
  (may_fail = false -> Forall calm_action acts /\ results_kept n m acts) -> session_run n m acts = Ok s -> sys_ok may_fail s.
Proof.
  intros Ha Hr. eapply run_sound; [| | |apply new_ok|exact Ha|exact Hr].
  - intros r. apply wp_serve. - intros x. apply wp_waitSignal. - apply wp_CloseWs.
Qed.

Lemma session_step_ok may_fail s a :
  sys_ok may_fail s -> (may_fail = false -> calm_action a /\ keeps_results s a) ->
  match session_step s a with
  | Ok s' => sys_ok may_fail s'
  | Bad => may_fail = true /\ exists i o, a = AStep i o /\ (late_read s i \/ stale_result s i)
  | _ => True
  end.
Proof.
  intros Hs Ha. apply step_sound; [| | |done|done].
  - intros r. apply wp_serve. - intros x. apply wp_waitSignal. - apply wp_CloseWs.
Qed.

(** C1. As long as no fetch fails and no message closes a statement while an item of the list of
    results still points to a result of that statement, no step of any goroutine of a session, in any
    interleaving and with any answers of the library, goes wrong: no call works on a connection,
    result, statement, field list or callback handle that was given back or is being given back, nor
    on a result whose statement was closed or is being closed, nothing is given back twice, no lock is
    released that the goroutine does not hold, no list is touched without its lock, the handler pool
    and the semaphores get back only what they gave, and the exit channel is closed once. *)
Theorem session_safe n m acts s a :
  Forall calm_action acts -> calm_action a -> results_kept n m acts -> keeps_results s a ->
  session_run n m acts = Ok s -> session_step s a <> Bad.
Proof.
  intros Hacts Ha Hk Hka Hr.
  pose proof (session_step_ok false s a (session_ok false _ _ _ _ (fun _ => conj Hacts Hk) Hr) (fun _ => conj Ha Hka)) as H.
  intros E. rewrite E in H. by destruct H.
Qed.

(** C12. Without any condition on fetches and on the order in which statements are closed, only two
    steps of a session go wrong.  One is the reading of the error text of a failed fetch, which
    happens after the lock of the result is released: the result is already gone, or another goroutine
    frees it meanwhile ([late_read]).  The other is a call on the result of a statement which was
    closed, as closing a statement leaves its results in the list, or the closing of a statement while
    another goroutine is in a call on a result of it ([stale_result]). *)
Theorem session_bad_is_late_or_stale n m acts s a :
  session_run n m acts = Ok s -> session_step s a = Bad ->
  exists i o, a = AStep i o /\ (late_read s i \/ stale_result s i).
Proof.
  intros Hr E. assert (Hs : sys_ok true s) by (by eapply (session_ok true); [|exact Hr]).
  pose proof (session_step_ok true s a Hs) as H. rewrite E in H. by apply H.
Qed.

(** What a finished goroutine knows. *)
Lemma finished_final s i : sys_ok true s -> finished s -> holds i (k_init false) (w s).
Proof.
  intros Hs Hf. destruct (threads s !! i) as [t|] eqn:Ht; [|by apply (s_none _ _ Hs)].
  destruct (s_threads _ _ Hs i t Ht) as (K & HK & Hok). destruct (proj1 (Forall_lookup _ _) Hf i t Ht) as [b Eb].
  unfold thread_ok in Hok. rewrite Eb in Hok. destruct (t_pend t); [done|]. by eapply holds_final.
Qed.

(** C24. When all goroutines of a session have ended, no lock is held, the handler pool and the
    semaphores are complete, and everything the library handed out has been given back but the
    connection of the handler and what the items of its two lists hold. *)
Theorem session_quiet n m acts s :
  session_run n m acts = Ok s -> finished s ->
  w_hlock (w s) = None /\ (forall t, t_lock (get_table t (w s)) = None) /\
  (forall o x l, w_objs (w s) !! o = Some (x, l) -> l = None) /\ w_pool (w s) = [] /\ w_sems (w s) = [] /\
  forall r ow, w_live (w s) !! r = Some ow ->
    r = (KConn, w_conn (w s)) \/
    exists t o x, o ∈ t_list (get_table t (w s)) /\ w_objs (w s) !! o = Some (x, None) /\ r ∈ resources x.
Proof.
  intros Hr Hf. assert (Hs : sys_ok true s) by (by eapply (session_ok true); [|exact Hr]).
  pose proof (fun i => finished_final s i Hs Hf) as HF. pose proof (s_inv _ _ Hs) as Hw. split; [|split; [|split; [|split; [|split]]]].
  - destruct (w_hlock (w s)) as [i|] eqn:E; [|done]. by apply (h_hlock _ _ _ (HF i)) in E.
  - intros t. destruct (t_lock _) as [i|] eqn:E; [|done]. apply (h_tlock _ _ _ (HF i)) in E. by destruct t.
  - intros o x [i|] E; [|done]. by apply (h_objs _ _ _ (HF i)) in E.
  - destruct (w_pool (w s)) as [|i l] eqn:E; [done|]. pose proof (h_pool _ _ _ (HF i)) as H. rewrite E in H.
    by rewrite times_cons, decide_True in H.
  - destruct (w_sems (w s)) as [|[sm i] l] eqn:E; [done|]. pose proof (h_sem _ _ _ (HF i) sm) as H. rewrite E in H.
    rewrite sem_times_cons, decide_True in H by done. by destruct sm.
  - intros r [i|o|] E.
    + by apply (h_flight _ _ _ (HF i)) in E.
    + right. destruct (i_item _ Hw _ _ E) as (x & Hx & Hrx).
      destruct (i_listed _ Hw _ _ _ Hx) as [t Ht]; [by intros Ex; rewrite Ex in Hrx; apply not_elem_of_nil in Hrx|].
      by exists t, o, x.
    + left. by apply (i_handle _ Hw).
Qed.

(** C2. When the session has been closed and all goroutines have ended, everything that the library
    handed out has been given back: connections, query results, statements, field lists and
    callback handles. *)
Theorem session_no_leak n m acts s :
  session_run n m acts = Ok s -> finished s -> w_exit (w s) = true -> w_live (w s) = ∅.
Proof.
  intros Hr Hf He. assert (Hs : sys_ok true s) by (by eapply (session_ok true); [|exact Hr]).
  pose proof (s_inv _ _ Hs) as Hw. destruct (i_exit _ Hw He) as [Hd Hl]. apply map_eq. intros r. rewrite lookup_empty.
  destruct (w_live (w s) !! r) as [[i|o|]|] eqn:E; [| | |done].
  - by apply (h_flight _ _ _ (finished_final s i Hs Hf)) in E.
  - destruct (i_item _ Hw _ _ E) as (x & Hx & Hrx).
    destruct (i_listed _ Hw _ _ _ Hx) as [t Ht]; [by intros Ex; rewrite Ex in Hrx; apply not_elem_of_nil in Hrx|].
    rewrite Hl in Ht. by apply not_elem_of_nil in Ht.
  - destruct (i_handle _ Hw _ E) as (_ & _ & ?). congruence.
Qed.

(** C35. The two lists of a session are well typed at every moment: each of their nodes is an item,
    a result in the list of results and a statement in the list of statements, so the type
    assertions on list nodes never fail. *)
Theorem session_lists_typed n m acts s t o :
  session_run n m acts = Ok s -> o ∈ t_list (get_table t (w s)) ->
  exists x l, w_objs (w s) !! o = Some (x, l) /\
    match t, x with Results, OResult _ => True | Stmts, OStmt _ => True | _, _ => False end.
Proof.
  intros Hr Ho. assert (Hs : sys_ok true s) by (by eapply (session_ok true); [|exact Hr]). pose proof (s_inv _ _ Hs) as Hw.
  destruct (lookup_lt_is_Some_2 _ _ (i_list _ Hw _ _ Ho)) as [[x l] Hx]. exists x, l. split; [done|].
  pose proof (i_sort _ Hw _ _ _ _ Ho Hx). by destruct t, x.
Qed.

End Whole.
End Session.
