(* ===== verification/WsDeadlock.v ===== *)
(** * WsDeadlock: sessions that never end

    Two ways in which goroutines of a session wait for each other.  Nothing that any goroutine of
    the session does, and nothing that the client or the library does, ever ends the wait. *)
From S2P Require Import Prelude Common Stmt2 StmtConvert Rest Types WsProg WsHandlers WsLogic WsSafety WsSession.
From stdpp Require Import gmap sets.
#[local] Open Scope Z_scope.

Module Deadlock.
Import Ws Handlers.

(** A set of goroutines, each with the operation it waits in, and what they have to be sure of. *)
Section Waiting.
Context (handle : request -> prog bool) (on_signal : signal -> prog bool) (close_session : prog bool).
Context (i j : nat) (ti tj : thread) (P : world -> Prop).
Context (blocked : forall s o, P (w s) -> threads s !! i = Some ti -> threads s !! j = Some tj ->
  step_thread s i o = Blocked /\ step_thread s j o = Blocked).
Context (keeps_op : forall h o X (e : op X) w x w', h <> i -> h <> j -> P w -> exec_op h o e w = Ok (x, w') -> P w').
Context (keeps_live : forall w m, P w -> P (set_live m w)).
Context (keeps_wait : forall h w, P w -> P (set_wait (h :: w_wait w) w)).
Context (busy_i : forall b, t_prog ti <> Done b) (busy_j : forall b, t_prog tj <> Done b).

Definition waits (s : sys) : Prop := P (w s) /\ threads s !! i = Some ti /\ threads s !! j = Some tj.

Lemma waits_op s h o s' : waits s -> step_thread s h o = Ok s' -> waits s'.
Proof.
  intros (HP & Hi & Hj) Hs. destruct (blocked s o HP Hi Hj) as [Bi Bj].
  assert (Hni : h <> i) by congruence. assert (Hnj : h <> j) by congruence. unfold step_thread in Hs.
  destruct (threads s !! h) as [[ro p pend]|] eqn:Ht; [|done]. destruct p as [| |X e k]; [done|done|].
  assert (Hts : forall t, <[h := t]> (threads s) !! i = Some ti /\ <[h := t]> (threads s) !! j = Some tj).
  { intros t. by rewrite !list_lookup_insert_ne. }
  assert (Hex : forall r, match exec_op h o e (w s) with
    | Ok (x, w') => let ts := <[h := mkThread ro (k x) false]> (threads s) in
        Ok (mkSys w' (if is_go e then ts ++ [mkThread Waiting (Done true) false] else ts) (reader s))
    | Blocked => Blocked | Bad => Bad | Stuck => Stuck end = Ok r -> waits r).
  { intros r. destruct (exec_op h o e (w s)) as [[x w']| | |] eqn:Ee; try done. intros [= <-].
    destruct (Hts (mkThread ro (k x) false)) as [H1 H2]. split; [by eapply keeps_op|].
    cbn. destruct (is_go e); [|done]. by rewrite !lookup_app_l by (by eapply lookup_lt_Some). }
  destruct (call_of e) as [[us fr]|]; [|by apply Hex]. destruct pend; [by apply Hex|].
  unfold begin_call in Hs. destruct (forallb _ us); [|done].
  assert (Hb : forall w', P w' -> Ok (mkSys w' (<[h := mkThread ro (Vis e k) true]> (threads s)) (reader s)) = Ok s' -> waits s').
  { intros w' Hw' [= <-]. by split; [|apply Hts]. }
  destruct fr as [r|]; [|by apply (Hb (w s))]. destruct (snd r =? nilp); [by apply (Hb (w s))|].
  destruct (_ && _); [|done]. eapply Hb; [by apply keeps_live|done].
Qed.

Lemma waits_step s a s' : waits s -> step handle on_signal close_session s a = Ok s' -> waits s'.
Proof.
  intros Hw Hs. pose proof Hw as (HP & Hi & Hj). destruct a as [h o|m| | |h x]; cbn in Hs.
  - by eapply waits_op.
  - destruct (reader s); [done|]. destruct (w_closed (w s)); by injection Hs as <-.
  - destruct (reader s); [|done]. injection Hs as <-. split; [by apply keeps_wait|]. cbn.
    by rewrite !lookup_app_l by (by eapply lookup_lt_Some).
  - injection Hs as <-. split; [done|]. cbn. by rewrite !lookup_app_l by (by eapply lookup_lt_Some).
  - destruct (threads s !! h) as [[ro p pend]|] eqn:Ht; [|done]. destruct ro; try done. destruct p as [[]| |]; try done.
    assert (h <> i). { intros ->. rewrite Hi in Ht. injection Ht as ->. by eapply busy_i. }
    assert (h <> j). { intros ->. rewrite Hj in Ht. injection Ht as ->. by eapply busy_j. }
    assert (Hk : forall t, waits (mkSys (w s) (<[h := t]> (threads s)) (reader s))).
    { intros t. split; [done|]. cbn. by rewrite !list_lookup_insert_ne. }
    destruct x, (w_exit (w s)); try done; injection Hs as <-; apply Hk.
Qed.

Lemma waits_run s acts s' : waits s -> run handle on_signal close_session s acts = Ok s' -> waits s'.
Proof.
  revert s. induction acts as [|a acts IH]; intros s Hw Hr; [by injection Hr as <-|]. cbn in Hr.
  destruct (step handle on_signal close_session s a) as [s1| | |] eqn:Es; try done. eapply IH; [by eapply waits_step|done].
Qed.

End Waiting.

(** ** Closing while a client connects *)

(** Goroutine [i] is counted and is about to lock the handler; goroutine [j] holds that lock and
    waits for the counted goroutines. *)
Record closing_waits (i j : nat) (s : sys) : Prop := mkClosingWaits {
  cw_lock : exists ro k, threads s !! i = Some (mkThread ro (Vis (OLock LHandler) k) false);
  cw_wait : exists ro k, threads s !! j = Some (mkThread ro (Vis OWaitAll k) false);
  cw_counted : i ∈ w_wait (w s);
  cw_held : w_hlock (w s) = Some j }.

Section Session.
Context (handle : request -> prog bool) (on_signal : signal -> prog bool) (close_session : prog bool).

Lemma exec_keeps_wait h o X (e : op X) w x w' (i j : nat) :
  h <> i -> h <> j -> i ∈ w_wait w /\ w_hlock w = Some j -> exec_op h o e w = Ok (x, w') ->
  i ∈ w_wait w' /\ w_hlock w' = Some j.
Proof.
  intros Hi Hj [Hw Hl] He. assert (Hm : mine h (Some j) = false) by (cbn; by apply Nat.eqb_neq).
  destruct e as [[| |]|[| |]| | | | | | | | | | | | | | | | | | | | | | | | | |]; cbn in He;
    unfold exec_add, exec_answer in He; rewrite ?Hl, ?Hm in He;
    repeat (case_match; simplify_eq; try done); simplify_eq; cbn; try done; [by apply not_elem_of_nil in Hw|].
  split; [|done]. by apply list_elem_of_filter.
Qed.

Lemma closing_waits_forever i j s acts s' o :
  closing_waits i j s -> run handle on_signal close_session s acts = Ok s' ->
  closing_waits i j s' /\ step handle on_signal close_session s' (AStep i o) = Blocked /\
  step handle on_signal close_session s' (AStep j o) = Blocked.
Proof.
  intros [(ro & k & Hi) (ro' & k' & Hj) Hc Hh] Hr.
  set (P := fun w => i ∈ w_wait w /\ w_hlock w = Some j).
  assert (HB : forall s o, P (w s) -> threads s !! i = Some (mkThread ro (Vis (OLock LHandler) k) false) ->
    threads s !! j = Some (mkThread ro' (Vis OWaitAll k') false) ->
    step_thread s i o = Blocked /\ step_thread s j o = Blocked).
  { intros s0 o0 [Hw0 Hl0] Hi0 Hj0. unfold step_thread. rewrite Hi0, Hj0. cbn. rewrite Hl0. split; [done|].
    by destruct (w_wait (w s0)); [apply not_elem_of_nil in Hw0|]. }
  assert (Hs' : waits i j (mkThread ro (Vis (OLock LHandler) k) false) (mkThread ro' (Vis OWaitAll k') false) P s').
  { eapply (waits_run handle on_signal close_session); [exact HB| | | |done|done|by split; [split|]|exact Hr].
    - intros h o0 X e w0 x w1 H1 H2 HP. by eapply exec_keeps_wait.
    - done.
    - intros h w0 [? ?]. split; [by right|done]. }
  destruct Hs' as (HP & Hi' & Hj'). split; [|by apply HB]. destruct HP. constructor; eauto.
Qed.

(** ** Fetching with an exhausted handler pool *)

(** Goroutine [i] holds the last handler of the pool and is about to lock item [o] to free it;
    goroutine [j] has locked the item and is about to take a handler. *)
Record pool_waits (i j o : nat) (s : sys) : Prop := mkPoolWaits {
  pw_lock : exists ro k, threads s !! i = Some (mkThread ro (Vis (OLock (LObj o)) k) false);
  pw_get : exists ro k, threads s !! j = Some (mkThread ro (Vis OPoolGet k) false);
  pw_pool : w_pool (w s) = [i] /\ w_poolsize (w s) = 1%nat;
  pw_held : exists x, w_objs (w s) !! o = Some (x, Some j) }.

Lemma exec_keeps_pool h oc X (e : op X) w x w' (i j o : nat) :
  h <> i -> h <> j -> (w_pool w = [i] /\ w_poolsize w = 1%nat) /\ (exists y, w_objs w !! o = Some (y, Some j)) ->
  exec_op h oc e w = Ok (x, w') -> (w_pool w' = [i] /\ w_poolsize w' = 1%nat) /\ exists y, w_objs w' !! o = Some (y, Some j).
Proof.
  intros Hi Hj [[Hp Hs] [y Hy]] He. assert (Hm : mine h (Some j) = false) by (cbn; by apply Nat.eqb_neq).
  destruct e as [[| |p]|[| |p]| | | | | | | |t z| | | | | |p z| | | | | | | | | | | |]; cbn in He;
    unfold exec_answer in He.
  all: try (by repeat (case_match; simplify_eq; try done); simplify_eq; eauto).
  - destruct (decide (p = o)) as [->|Hne]; [by rewrite Hy in He|].
    repeat (case_match; simplify_eq; try done). split; [done|]. cbn. exists y. by rewrite list_lookup_insert_ne.
  - destruct (decide (p = o)) as [->|Hne]; [by rewrite Hy, Hm in He|].
    repeat (case_match; simplify_eq; try done). split; [done|]. cbn. exists y. by rewrite list_lookup_insert_ne.
  - unfold exec_add in He. repeat (case_match; simplify_eq; try done). split; [done|]. cbn. exists y.
    rewrite lookup_app_l; [done|]. by eapply lookup_lt_Some.
  - destruct (decide (p = o)) as [->|Hne]; [by rewrite Hy, Hm in He|].
    repeat (case_match; simplify_eq; try done). split; [done|]. cbn. exists y. by rewrite list_lookup_insert_ne.
  - rewrite Hp, Hs in He. done.
  - rewrite Hp in He. cbn in He. by rewrite decide_False in He.
Qed.

(** Two fetches of the same result, with no free handler in the pool, never end: the first has
    met the end of the rows, released the lock of the item and now wants it back to free the result,
    the second holds that lock and wants the handler of the first. *)
Theorem fetch_pool_deadlock i j o s acts s' oc :
  pool_waits i j o s -> run handle on_signal close_session s acts = Ok s' ->
  pool_waits i j o s' /\ step handle on_signal close_session s' (AStep i oc) = Blocked /\
  step handle on_signal close_session s' (AStep j oc) = Blocked.
Proof.
  intros [(ro & k & Hi) (ro' & k' & Hj) Hp Hh] Hr.
  set (P := fun w => (w_pool w = [i] /\ w_poolsize w = 1%nat) /\ exists y, w_objs w !! o = Some (y, Some j)).
  assert (HB : forall s o', P (w s) -> threads s !! i = Some (mkThread ro (Vis (OLock (LObj o)) k) false) ->
    threads s !! j = Some (mkThread ro' (Vis OPoolGet k') false) ->
    step_thread s i o' = Blocked /\ step_thread s j o' = Blocked).
  { intros s0 o0 [[Hp0 Hs0] [y Hy]] Hi0 Hj0. unfold step_thread. rewrite Hi0, Hj0. cbn. by rewrite Hy, Hp0, Hs0. }
  assert (Hs' : waits i j (mkThread ro (Vis (OLock (LObj o)) k) false) (mkThread ro' (Vis OPoolGet k') false) P s').
  { eapply (waits_run handle on_signal close_session); [exact HB| | | |done|done|by split; [split|]|exact Hr]; try done.
    intros h o0 X e w0 x w1 H1 H2 HP. by eapply exec_keeps_pool. }
  destruct Hs' as (HP & Hi' & Hj'). split; [|by apply HB]. destruct HP. constructor; eauto.
Qed.

End Session.

(** ** The sessions that get there *)

Section Whole.
Context (ip ipStr : bytes).
Context (StmtParseTag : option bytes -> list StmtField -> list value + bytes).
Context (StmtParseColumn : option bytes -> list StmtField -> list ColumnType -> (list (list value) * list ColumnType) + bytes).
Context (TaosClientVersion : bytes) (D : decoders).

Abbreviation session_run := (Session.session_run ip ipStr StmtParseTag StmtParseColumn TaosClientVersion D).
Abbreviation session_step := (Session.session_step ip ipStr StmtParseTag StmtParseColumn TaosClientVersion D).
Abbreviation session_go :=
  (run (serve ip ipStr StmtParseTag StmtParseColumn TaosClientVersion D) (waitSignal ip) CloseWs).

(** A [conn] message arrives, its goroutine finds the session open, and the client goes away. *)
Definition connect_and_close (data : bytes) (o : oracle) : list action :=
  [ARecv (Text data); ASpawn; AStep 0 o; AClose] ++ replicate 4 (AStep 1 o).

Lemma connect_and_close_waits n m data args req o :
  d_Request D data = Some (str "conn", args) -> d_conn D args = Some req ->
  exists s, session_run n m (connect_and_close data o) = Ok s /\ closing_waits 0 1 s.
Proof.
  intros Hd Hc. eexists. split; [reflexivity|]. constructor; cbn; [|eauto|by left|done].
  unfold handleMessage. rewrite Hd, bool_decide_eq_false_2 by done.
  change (is_action (str "conn") "version") with false. change (is_action (str "conn") "conn") with true. cbn iota.
  rewrite Hc. cbn. eauto.
Qed.

(** C36. A session that is closed while a [conn] message is being handled may never end: the
    message has found the session open and is about to lock the handler when the session is closed,
    the goroutine that closes holds that lock and waits for the message, and the message waits for the
    lock.  Whatever happens afterwards, neither of the two ever takes another step. *)
Theorem close_connect_deadlock n m data args req o :
  d_Request D data = Some (str "conn", args) -> d_conn D args = Some req ->
  exists s, session_run n m (connect_and_close data o) = Ok s /\
    forall acts s' o', session_go s acts = Ok s' ->
      ~ Session.finished s' /\ session_step s' (AStep 0 o') = Blocked /\ session_step s' (AStep 1 o') = Blocked.
Proof.
  intros Hd Hc. destruct (connect_and_close_waits n m _ _ _ o Hd Hc) as (s & E & Hw). exists s. split; [exact E|].
  intros acts s' o' Hr. destruct (closing_waits_forever _ _ _ 0 1 s acts s' o' Hw Hr) as (Hw' & Hb). split; [|exact Hb].
  intros Hf. destruct (cw_lock _ _ _ Hw') as (ro & k & Ht). by destruct (proj1 (Forall_lookup _ _) Hf _ _ Ht).
Qed.

End Whole.
End Deadlock.
