(* ===== verification/WsScenarios.v ===== *)
(** * WsScenarios: sessions that run

    A concrete library and concrete decoders, and sessions of the handlers of [WsHandlers] that
    are run with them: the ones that show that the theorems of [WsSession] and [WsReplies] apply,
    and the ones that show where the handlers go wrong. *)
From S2P Require Import Prelude Common RawBlock Stmt2 StmtConvert Rest Types WsProg WsHandlers WsReplies WsLogic WsSafety WsSession WsDeadlock.
From stdpp Require Import gmap sets.
#[local] Open Scope Z_scope.

Module Scenarios.
Import Rest Ws Handlers Logic Safety Session.

(** ** A library *)

Definition localhost : bytes := [127; 0; 0; 1].

(** A library that hands out [p], fetches [n] rows and finds blocks of sixteen bytes. *)
Definition lib (p n : Z) : oracle := fun X c =>
  match c in call X return X with
  | C_TaosConnect _ _ _ => inl p
  | C_TaosClose _ | C_TaosFetchWhitelistA _ | C_TaosQueryA _ _ _ | C_TaosFetchRawBlockA _ | C_TaosFreeResult _
  | C_TaosStmtReclaimFields _ _ | C_Stmt2PoolPut _ | C_TaosStmt2FreeFields _ _ => tt
  | C_WhitelistResult _ => (0, [(localhost, [255; 255; 255; 255])])
  | C_TaosSetNotifyCB _ _ | C_TaosSetConnMode _ _ _ | C_TaosOptionsConnection _ _ _ | C_TaosError _ | C_TaosAffectedRows _
  | C_TaosNumFields _ | C_TaosResultPrecision _ | C_TMQWriteRaw _ _ _ _ | C_TaosWriteRawBlock _ _ _ _ _
  | C_TaosWriteRawBlockWithFields _ _ _ _ _ _ _ | C_TaosStmtPrepare _ _ | C_TaosStmtSetTBName _ _ | C_TaosStmtSetTags _ _
  | C_TaosStmtBindParamBatch _ _ _ | C_TaosStmtAddBatch _ | C_TaosStmtExecute _ | C_TaosStmtAffectedRowsOnce _
  | C_TaosStmtClose _ | C_TaosStmt2Prepare _ _ | C_TaosStmt2Exec _ | C_TaosStmt2Close _ | C_GetReqID | C_GetDuration => 0
  | C_TaosGetCurrentDB _ => ([], None)
  | C_TaosGetServerInfo _ | C_TaosErrorStr _ | C_TMQErr2Str _ | C_TaosStmtErrStr _ | C_TaosStmt2Error _ => []
  | C_QueryResult _ => mkResult p 0
  | C_TaosIsUpdateQuery _ => false
  | C_TaosFetchFields _ _ => mkHeader [] [] []
  | C_FetchResult r => mkResult r n
  | C_FetchLengths _ _ => []
  | C_TaosGetRawBlock _ => 4096
  | C_BlockMemory _ _ => [1; 0; 0; 0; 16; 0; 0; 0; 1; 0; 0; 0; 0; 0; 0; 0]
  | C_SchemalessInsert _ _ _ _ _ _ _ => (0, p)
  | C_TaosStmtInit _ _ => p
  | C_TaosStmtIsInsert _ | C_TaosStmt2IsInsert _ => (false, 0)
  | C_TaosStmtGetTagFields _ | C_TaosStmtGetColFields _ | C_TaosStmt2GetFields _ => (0, 0, p)
  | C_StmtParseFields _ _ => []
  | C_TaosStmtUseResult _ => p
  | C_TaosStmtNumParams _ => (0, 0)
  | C_TaosStmtGetParam _ _ => (0, 0, None)
  | C_Stmt2PoolGet => (p, 0)
  | C_TaosStmt2Init _ _ _ _ _ => p
  | C_Stmt2ParseAllFields _ _ => []
  | C_Stmt2ExecResult _ _ => mkExec p 0 0
  | C_TaosStmt2BindBinary _ _ _ => None
  end.

(** ** Requests *)

(** The text of a message is its action; every request has number 7 and is about the first result
    or statement. *)
Definition when {A} (args : option bytes) (x : A) : option A := match args with Some _ => Some x | None => None end.

Definition D0 : decoders := {|
  d_Request := fun data => Some (data, Some data);
  getReqID := fun args => match args with Some _ => 7 | None => 0 end;
  d_version := fun args => when args 7;
  d_conn := fun args => when args (mkConnRequest 7 [] [] [] None [] [] []);
  d_query := fun args => when args (mkSqlRequest 7 []);
  d_fetch := fun args => when args (mkIdRequest 7 1);
  d_fetchBlock := fun args => when args (mkIdRequest 7 1);
  d_freeResult := fun args => when args (mkIdRequest 7 1);
  d_numFields := fun args => when args (mkIdRequest 7 1);
  d_schemalessWrite := fun args => when args (mkSchemalessRequest 7 1 [] 0 [] []);
  d_stmtInit := fun args => when args 7;
  d_stmtPrepare := fun args => when args (mkStmtPrepareRequest 7 1 [] false);
  d_stmtSetTableName := fun args => when args (mkStmtNameRequest 7 1 []);
  d_stmtSetTags := fun args => when args (mkStmtDataRequest 7 1 None);
  d_stmtBind := fun args => when args (mkStmtDataRequest 7 1 None);
  d_stmtID := fun args => when args (mkIdRequest 7 1);
  d_stmtGetParam := fun args => when args (mkStmtParamRequest 7 1 0);
  d_stmt2Init := fun args => when args (mkStmt2InitRequest 7 false false);
  d_reqOnly := fun args => when args 7;
  d_options := fun args => when args (mkOptionsRequest 7 [None]) |}.

Definition parse_tag : option bytes -> list StmtField -> list value + bytes := fun _ _ => inr [].
Definition parse_column : option bytes -> list StmtField -> list ColumnType -> (list (list value) * list ColumnType) + bytes :=
  fun _ _ _ => inr [].

Definition play : nat -> nat -> list action -> outcome sys := session_run localhost [] parse_tag parse_column [] D0.
Definition next : sys -> action -> outcome sys := session_step localhost [] parse_tag parse_column [] D0.

(** A message arrives and its goroutine starts; [n] steps of goroutine [i]. *)
Definition message (name : string) : list action := [ARecv (Text (str name)); ASpawn].
Definition steps (n i : nat) (o : oracle) : list action := replicate n (AStep i o).

Definition ending (n m : nat) (acts : list action) (f : sys -> bool) : bool :=
  match play n m acts with Ok s => f s | _ => false end.

Lemma plays n m acts f : ending n m acts f = true -> exists s, play n m acts = Ok s /\ f s = true.
Proof. unfold ending. destruct (play n m acts) as [s| | |]; try done. by exists s. Qed.

Definition is_done (t : thread) : bool := match t_prog t with Done _ => true | _ => false end.
Definition is_crash (t : thread) : bool := match t_prog t with Crash => true | _ => false end.

Lemma finished_done s : forallb is_done (threads s) = true -> finished s.
Proof.
  intros H. apply Forall_forall. intros t Ht. rewrite forallb_forall in H. specialize (H t (proj1 (list_elem_of_In _ _) Ht)).
  unfold is_done in H. destruct (t_prog t); try done. eauto.
Qed.

Lemma calm_lib p n : 0 <= n -> calm (lib p n).
Proof. by intros Hn r. Qed.

Lemma calm_steps n i p k : 0 <= k -> Forall calm_action (steps n i (lib p k)).
Proof. intros Hk. apply Forall_forall. intros a ->%elem_of_replicate_inv. by apply calm_lib. Qed.

Lemma calm_message name : Forall calm_action (message name).
Proof. by repeat constructor. Qed.

(** ** A session from the connection to the end *)

Definition connected : list action := message "conn" ++ steps 27 0 (lib 11 0).
Definition queried : list action := connected ++ message "query" ++ steps 26 2 (lib 12 0).
Definition fetched_and_prepared : list action :=
  queried ++ message "fetch" ++ steps 24 3 (lib 13 5) ++ message "stmt2_init" ++ steps 14 4 (lib 14 0).
Definition closed : list action := fetched_and_prepared ++ [AClose] ++ steps 39 5 (lib 15 0).

(** Whether an action closes a statement a result of which is in an item. *)
Definition listed (w : world) (p : ptr) : bool :=
  negb (w_drained w) &&
  existsb (fun xl => negb (result_of (fst xl) =? nilp) && bool_decide (w_sres w !! result_of (fst xl) = Some p)) (w_objs w).
Definition closes (s : sys) (a : action) : bool :=
  match a with
  | AStep i _ => match threads s !! i with
                 | Some t => negb (t_pend t) && match giving_back t with Some (KStmt, p) => listed (w s) p | _ => false end
                 | None => false end
  | _ => false
  end.

Lemma listed_spec w p : result_listed w p -> listed w p = true.
Proof.
  intros (Hd & o & x & l & Hx & Hn & Hs). unfold listed. rewrite Hd. cbn. apply existsb_exists. exists (x, l).
  split; [by eapply list_elem_of_In, list_elem_of_lookup_2|]. cbn. by rewrite (proj2 (Z.eqb_neq _ _) Hn), bool_decide_eq_true_2.
Qed.

Lemma closes_spec s a : closes s a = false -> keeps_results s a.
Proof.
  destruct a as [i o| | | |]; try done. cbn. intros H (t & p & Ht & Hp & Hg & Hl%listed_spec). rewrite Ht, Hp, Hg, Hl in H. done.
Qed.

Fixpoint closes_none (s : sys) (acts : list action) : bool :=
  match acts with
  | [] => true
  | a :: acts => negb (closes s a) && match next s a with Ok s' => closes_none s' acts | _ => true end
  end.

Lemma closes_none_kept n m acts :
  closes_none (newHandler n m) acts = true -> results_kept localhost [] parse_tag parse_column [] D0 n m acts.
Proof.
  unfold results_kept. generalize (newHandler n m). induction acts as [|a acts IH]; intros s H; [done|]. cbn in *.
  apply andb_true_iff in H as [Ha%negb_true_iff%closes_spec H]. split; [done|]. unfold next, session_step in H.
  destruct (step _ _ _ s a); try done. by apply IH.
Qed.

(** A statement is queried, the result is fetched from and freed, and the statement is closed. *)
Definition stmt_used : list action :=
  connected ++ message "init" ++ steps 12 2 (lib 12 0) ++ message "use_result" ++ steps 20 3 (lib 13 0) ++
  message "fetch" ++ steps 24 4 (lib 15 5) ++ message "free_result" ++ steps 12 5 (lib 16 0) ++ message "close" ++ steps 8 6 (lib 17 0).

Lemma calm_used : Forall calm_action stmt_used.
Proof. unfold stmt_used, connected. rewrite !Forall_app. repeat split; try apply calm_message; by apply calm_steps. Qed.

(** The next step closes the statement. *)
Lemma session_safe_witness : exists s, play 2 2 stmt_used = Ok s /\
  giving_back <$> threads s !! 6%nat = Some (Some (KStmt, 12)) /\ next s (AStep 6 (lib 17 0)) <> Bad.
Proof.
  destruct (plays 2 2 stmt_used (fun s => closes_none (newHandler 2 2) stmt_used && negb (closes s (AStep 6 (lib 17 0))) &&
    bool_decide (giving_back <$> threads s !! 6%nat = Some (Some (KStmt, 12))))) as (s & E & H); [vm_compute; reflexivity|].
  apply andb_true_iff in H as [[H1%closes_none_kept H2%negb_true_iff%closes_spec]%andb_true_iff H3%bool_decide_eq_true].
  exists s. split; [exact E|]. split; [exact H3|].
  exact (session_safe localhost [] parse_tag parse_column [] D0 2 2 stmt_used s (AStep 6 (lib 17 0)) calm_used
    (calm_lib 17 0 ltac:(done)) H1 H2 E).
Defined.

Lemma session_quiet_witness : exists s, play 2 2 fetched_and_prepared = Ok s /\ w_hlock (w s) = None /\ w_pool (w s) = [] /\
  w_live (w s) !! (KConn, 11) = Some Handle /\ w_live (w s) !! (KResult, 12) = Some (Item 0) /\
  w_live (w s) !! (KStmt, 14) = Some (Item 1).
Proof.
  destruct (plays 2 2 fetched_and_prepared (fun s => forallb is_done (threads s) &&
    bool_decide (w_live (w s) !! (KConn, 11) = Some Handle /\ w_live (w s) !! (KResult, 12) = Some (Item 0) /\
                 w_live (w s) !! (KStmt, 14) = Some (Item 1)))) as (s & E & [H1 H2]%andb_true_iff); [vm_compute; reflexivity|].
  exists s. split; [exact E|]. apply bool_decide_eq_true in H2. apply finished_done in H1.
  destruct (session_quiet localhost [] parse_tag parse_column [] D0 2 2 fetched_and_prepared s E H1) as (Hl & _ & _ & Hp & _). auto.
Defined.

Lemma session_no_leak_witness : exists s, play 2 2 closed = Ok s /\ w_exit (w s) = true /\ w_live (w s) = ∅.
Proof.
  destruct (plays 2 2 closed (fun s => forallb is_done (threads s) && w_exit (w s))) as (s & E & [H1 H2]%andb_true_iff);
    [vm_compute; reflexivity|]. exists s. split; [exact E|]. split; [exact H2|]. apply finished_done in H1.
  exact (session_no_leak localhost [] parse_tag parse_column [] D0 2 2 closed s E H1 H2).
Defined.

Lemma session_lists_typed_witness : exists s, play 2 2 fetched_and_prepared = Ok s /\
  exists x l, w_objs (w s) !! 1%nat = Some (x, l) /\ match x with OResult _ => False | OStmt _ => True end.
Proof.
  destruct (plays 2 2 fetched_and_prepared (fun s => bool_decide (1%nat ∈ t_list (get_table Stmts (w s))))) as (s & E & H%bool_decide_eq_true);
    [vm_compute; reflexivity|]. exists s. split; [exact E|].
  exact (session_lists_typed localhost [] parse_tag parse_column [] D0 2 2 fetched_and_prepared s Stmts 1 E H).
Defined.

(** ** The error text of a failed fetch *)

(** A fetch fails and releases the lock of the result, and another message frees the result. *)
Definition freed_meanwhile : list action :=
  queried ++ message "fetch" ++ steps 14 3 (lib 13 (-1)) ++ message "free_result" ++ steps 16 4 (lib 14 0).

Lemma freed_meanwhile_bad : exists s, play 2 2 freed_meanwhile = Ok s /\ next s (AStep 3 (lib 13 (-1))) = Bad.
Proof.
  destruct (plays 2 2 freed_meanwhile (fun s => match next s (AStep 3 (lib 13 (-1))) with Bad => true | _ => false end)) as (s & E & H);
    [vm_compute; reflexivity|]. exists s. split; [exact E|]. by destruct (next s _).
Qed.

Lemma session_bad_is_late_or_stale_witness : exists s, play 2 2 freed_meanwhile = Ok s /\
  exists i o, AStep 3 (lib 13 (-1)) = AStep i o /\ (late_read s i \/ stale_result s i).
Proof.
  destruct freed_meanwhile_bad as (s & E & H). exists s. split; [exact E|].
  exact (session_bad_is_late_or_stale localhost [] parse_tag parse_column [] D0 2 2 freed_meanwhile s _ E H).
Defined.

(** ** Deadlocks *)

Definition at_lock (l : lock) (t : thread) : bool :=
  match t with
  | mkThread _ (Vis e _) false =>
    match e, l with OLock LHandler, LHandler => true | OLock (LObj o), LObj o' => Nat.eqb o o' | _, _ => false end
  | _ => false
  end.

Lemma at_lock_spec l t : at_lock l t = true -> exists ro k, t = mkThread ro (Vis (OLock l) k) false.
Proof.
  destruct t as [ro [| |X e k] []]; try done. destruct e as [[| |o]| | | | | | | | | | | | | | | | | | | | | | | | | | |]; try done;
    destruct l as [| |o']; try done; cbn; [eauto|]. intros ->%Nat.eqb_eq. eauto.
Qed.

Definition at_wait (t : thread) : bool :=
  match t with mkThread _ (Vis e _) false => match e with OWaitAll => true | _ => false end | _ => false end.
Definition at_pool (t : thread) : bool :=
  match t with mkThread _ (Vis e _) false => match e with OPoolGet => true | _ => false end | _ => false end.

Lemma at_wait_spec t : at_wait t = true -> exists ro k, t = mkThread ro (Vis OWaitAll k) false.
Proof. destruct t as [ro [| |X e k] []]; try done. destruct e; try done. eauto. Qed.
Lemma at_pool_spec t : at_pool t = true -> exists ro k, t = mkThread ro (Vis OPoolGet k) false.
Proof. destruct t as [ro [| |X e k] []]; try done. destruct e; try done. eauto. Qed.

Definition thread_is (i : nat) (f : thread -> bool) (s : sys) : bool := match threads s !! i with Some t => f t | None => false end.

Lemma thread_is_spec i f s : thread_is i f s = true -> exists t, threads s !! i = Some t /\ f t = true.
Proof. unfold thread_is. destruct (threads s !! i); [eauto|done]. Qed.

Lemma close_connect_deadlock_witness : exists s,
  play 2 2 (Deadlock.connect_and_close (str "conn") (lib 11 0)) = Ok s /\
  next s (AStep 0 (lib 13 0)) = Blocked /\ next s (AStep 1 (lib 13 0)) = Blocked.
Proof.
  destruct (Deadlock.close_connect_deadlock localhost [] parse_tag parse_column [] D0 2 2 (str "conn") (Some (str "conn"))
    (mkConnRequest 7 [] [] [] None [] [] []) (lib 11 0) eq_refl eq_refl) as (s & E & H).
  exists s. split; [exact E|]. exact (proj2 (H [] s (lib 13 0) eq_refl)).
Defined.

(** A pool of one handler, and two fetches of a result that has no more rows. *)
Definition fetched_twice : list action :=
  queried ++ message "fetch" ++ message "fetch" ++ steps 14 3 (lib 13 0) ++ steps 5 4 (lib 14 0) ++ steps 2 3 (lib 13 0).

Lemma fetched_twice_waits : exists s, play 1 2 fetched_twice = Ok s /\ Deadlock.pool_waits 3 4 0 s.
Proof.
  destruct (plays 1 2 fetched_twice (fun s => thread_is 3 (at_lock (LObj 0)) s && thread_is 4 at_pool s &&
    bool_decide (w_pool (w s) = [3%nat] /\ w_poolsize (w s) = 1%nat /\ (snd <$> w_objs (w s) !! 0%nat) = Some (Some 4%nat))))
    as (s & E & H); [vm_compute; reflexivity|].
  exists s. split; [exact E|]. apply andb_true_iff in H as [[H1 H2]%andb_true_iff (H3 & H4 & H5)%bool_decide_eq_true].
  apply thread_is_spec in H1 as (t1 & Ht1 & (ro & k & ->)%at_lock_spec).
  apply thread_is_spec in H2 as (t2 & Ht2 & (ro' & k' & ->)%at_pool_spec).
  apply fmap_Some in H5 as ([x l] & Hx & Hl). cbn in Hl. subst l. constructor; eauto.
Qed.

Lemma fetch_pool_deadlock_witness : exists s, play 1 2 fetched_twice = Ok s /\
  next s (AStep 3 (lib 13 0)) = Blocked /\ next s (AStep 4 (lib 13 0)) = Blocked.
Proof.
  destruct fetched_twice_waits as (s & E & H). exists s. split; [exact E|].
  exact (proj2 (Deadlock.fetch_pool_deadlock (serve localhost [] parse_tag parse_column [] D0) (waitSignal localhost) CloseWs
    3 4 0 s [] s (lib 13 0) H eq_refl)).
Defined.

(** ** The result of a closed statement *)

Definition stmt_closed : list action :=
  connected ++ message "init" ++ steps 12 2 (lib 12 0) ++ message "use_result" ++ steps 20 3 (lib 13 0) ++
  message "close" ++ steps 16 4 (lib 14 0) ++ message "fetch" ++ steps 8 5 (lib 15 0).

Definition stale_call (s : sys) : bool := thread_is 5 (fun t => bool_decide ((KResult, 13) ∈ calling t /\ t_pend t = false)) s.

(** The result that [use_result] or [stmt2_result] hands to the client stays in the list of
    results when its statement is closed, and the next fetch works on it: here goroutine 5 is about to
    fetch from result 13 of statement 12, which was closed, and which freed the result. *)
Theorem fetch_after_stmt_close : exists s, play 2 2 stmt_closed = Ok s /\
  gone (w s) (KStmt, 12) /\ next s (AStep 5 (lib 15 0)) = Bad /\ stale_result s 5.
Proof.
  destruct (plays 2 2 stmt_closed (fun s => match next s (AStep 5 (lib 15 0)) with Bad => true | _ => false end && stale_call s &&
    bool_decide (w_sres (w s) !! 13 = Some 12 /\ (KStmt, 12) ∈ w_ever (w s) /\ w_live (w s) !! (KStmt, 12) = None)))
    as (s & E & [[H1 Hc]%andb_true_iff (H2 & H3 & H4)%bool_decide_eq_true]%andb_true_iff); [vm_compute; reflexivity|].
  exists s. split; [exact E|clear E]. split; [by split|]. split; [by destruct (next s _)|].
  apply thread_is_spec in Hc as (t & Ht & [Hc Hp]%bool_decide_eq_true). exists 5%nat, t, 12, 13. do 4 (split; [done|]).
  left. do 2 (split; [done|]). unfold live_ok. rewrite bool_decide_eq_false_2; [done|]. by rewrite elem_of_dom, H4; intros [].
Qed.

(** ** Messages that end the process *)

(** An empty binary message, which needs no login, and an option that is null in
    [options_connection] end the process: their goroutines panic, and nothing recovers. *)
Theorem messages_that_crash :
  (exists s, play 2 2 ([ARecv (Binary []); ASpawn] ++ steps 1 0 (lib 11 0)) = Ok s /\ thread_is 0 is_crash s = true) /\
  exists s, play 2 2 (connected ++ message "options_connection" ++ steps 3 2 (lib 12 0)) = Ok s /\ thread_is 2 is_crash s = true.
Proof. split; apply plays; vm_compute; reflexivity. Qed.

(** ** The buffer of a result *)

(** The request of [fetch_raw_block] with its number. *)
Definition raw_request (reqID : Z) : bytes := le_bytes 8 reqID ++ le_bytes 8 1 ++ le_bytes 8 7 ++ le_bytes 2 1.
Definition raw_twice : list action :=
  queried ++ [ARecv (Binary (raw_request 1)); ASpawn] ++ steps 27 3 (lib 13 5) ++
  [ARecv (Binary (raw_request 2)); ASpawn] ++ steps 27 4 (lib 14 5).

(** What is written to the client for a queued message, when it is written now: the slice is read
    at that time. *)
Definition written (w : world) (m : Ws.message) : bytes :=
  match m with BufferResp (Some (b, n)) => take (Z.to_nat n) (default [] (w_bufs w !! b)) | BinaryResp d => d | _ => [] end.

(** The request number in a response of [fetch_raw_block]. *)
Definition raw_reqID (d : bytes) : go Z := load_u 8 d 26.

(** Responses of [fetch_raw_block] are queued as slices of the buffer of the result, which the
    next fetch overwrites: when two fetches are answered before the first response is written, both
    responses that go out are those of the second. *)
Theorem raw_responses_alias : exists s, play 2 2 raw_twice = Ok s /\
  raw_reqID <$> (written (w s) <$> drop 2 (w_sent (w s))) = [Ret 2; Ret 2].
Proof.
  destruct (plays 2 2 raw_twice (fun s => match raw_reqID <$> (written (w s) <$> drop 2 (w_sent (w s))) with
    | [Ret a; Ret b] => (a =? 2) && (b =? 2) | _ => false end)) as (s & E & H); [vm_compute; reflexivity|].
  exists s. split; [exact E|clear E]. destruct (raw_reqID <$> _) as [|[a| | |] [|[b| | |] []]]; try done.
  apply andb_true_iff in H as [->%Z.eqb_eq ->%Z.eqb_eq]. done.
Qed.

(** ** The notification handles *)

(** A session that never connects keeps its two notification handles: only the goroutine of
    [waitSignal], which a successful [conn] starts, gives them back. *)
Theorem handles_kept : exists s, play 2 2 ([AClose] ++ steps 14 0 (lib 11 0)) = Ok s /\
  finished s /\ w_exit (w s) = true /\ w_handles (w s) = true.
Proof.
  destruct (plays 2 2 ([AClose] ++ steps 14 0 (lib 11 0)) (fun s => forallb is_done (threads s) && w_exit (w s) && w_handles (w s)))
    as (s & E & [[H1 H2]%andb_true_iff H3]%andb_true_iff); [vm_compute; reflexivity|].
  exists s. split; [exact E|clear E]. split; [by apply finished_done|done].
Qed.

(** ** Answers *)

Lemma D0_agree : Replies.ids_agree D0.
Proof. constructor; try done; intros [args|] r; cbn; by intros [= <-]. Qed.

Lemma handleMessage_answers_witness :
  Replies.replies (Replies.answers false (str "fetch") 7) 1 1
    (handleMessage localhost [] parse_tag parse_column [] D0 (str "fetch")).
Proof.
  exact (Replies.handleMessage_answers localhost [] parse_tag parse_column [] D0 D0_agree (str "fetch") (str "fetch") (Some (str "fetch"))
    eq_refl).
Defined.

Lemma handleMessageBinary_answers_witness :
  Replies.replies (Replies.answers true (str "fetch_raw_block") 2) 1 1 (handleMessageBinary (raw_request 2)).
Proof. apply (Replies.handleMessageBinary_answers (raw_request 2) 2 7); vm_compute; reflexivity. Defined.

End Scenarios.
