(* ===== verification/TmqProg.v ===== *)
(** * TmqProg: programs of the TMQ endpoint

    The goroutines of a session of [src/controller/ws/tmq/tmq.go] as programs over the shared [TMQ]
    value: its three locks (of the handler, of the last message, of the asynchronous calls), the
    consumer, the last message, the wait group, and what the C library has handed out.

    A call to the C library takes two steps, its start and its end.  An asynchronous call, which the
    code starts on the thread of the session and whose answer it receives from a channel of the
    handler, is such a call too; two of them at once would mix up the answers, which is [Bad].
    The limiter [thread.SyncLocker] around some calls only delays them and is left out. *)
From S2P Require Import Prelude Common Rest WsProg.
From stdpp Require Import gmap sets.
#[local] Open Scope Z_scope.

Module TmqWs.
Import Rest.
Export Ws(goerr(..), slice, outcome(..)).

Abbreviation bytes := (list Z) (only parsing).
Abbreviation ptr := Z (only parsing).
Definition nilp : Z := 0.

(** ** The data of a session *)

Record Message := mkMessage {
  Index : Z; Topic : bytes; VGroupID : Z; Offset : Z; MType : Z; CPointer : ptr; buffer : slice }.

(** The fields that no lock protects; [nextTime] is [None] for the zero time. *)
Record settings := mkSettings {
  unsubscribed : bool; isAutoCommit : bool; autocommitInterval : Z; nextTime : option Z }.
Definition set_unsubscribed b c := mkSettings b (isAutoCommit c) (autocommitInterval c) (nextTime c).
Definition set_isAutoCommit b c := mkSettings (unsubscribed c) b (autocommitInterval c) (nextTime c).
Definition set_autocommitInterval z c := mkSettings (unsubscribed c) (isAutoCommit c) z (nextTime c).
Definition set_nextTime t c := mkSettings (unsubscribed c) (isAutoCommit c) (autocommitInterval c) t.

Record Assignment := mkAssignment { a_VGroupID : Z; a_Offset : Z; a_Begin : Z; a_End : Z }.

(** ** The C library *)

(** What has to be given back; the connection of a consumer lives as long as the consumer. *)
Inductive kind := KConsumer | KMessage | KConf | KList | KRaw | KRawData | KMeta | KThread | KHandler | KConn.
#[export] Instance kind_eq_dec : EqDecision kind.
Proof. solve_decision. Defined.
#[export] Instance kind_countable : Countable kind.
Proof.
  refine (inj_countable'
    (fun k => match k with KConsumer => 0 | KMessage => 1 | KConf => 2 | KList => 3 | KRaw => 4 | KRawData => 5
                         | KMeta => 6 | KThread => 7 | KHandler => 8 | KConn => 9 end)
    (fun z => nth (Z.to_nat z) [KConsumer; KMessage; KConf; KList; KRaw; KRawData; KMeta; KThread; KHandler; KConn] KConn) _).
  by intros [].
Defined.
Notation res := (kind * Z)%type (only parsing).

(** The thread and the handler of the session. *)
Definition the_thread : res := (KThread, 1).
Definition the_handler : res := (KHandler, 1).

(** [A_]: the functions of [asynctmq] with the receive of their answer; [C_]: the functions of
    [wrapper], [tool] and [syncinterface]; [C_Range] is the order of an iteration over a map. *)
Inductive call : Type -> Type :=
| A_NewConsumer (conf : ptr) : call (ptr * bytes)
| A_Subscribe (consumer topics : ptr) : call Z
| A_Unsubscribe (consumer : ptr) : call Z
| A_ConsumerClose (consumer : ptr) : call Z
| A_Commit (consumer : ptr) : call Z
| A_Poll (consumer : ptr) (blockingTime : Z) : call ptr
| A_FreeResult (message : ptr) : call unit
| A_FetchRawBlock (message : ptr) : call (Z * Z * ptr)
| A_GetRaw (message raw : ptr) : call Z
| A_GetJsonMeta (message : ptr) : call ptr
| A_GetTopicAssignment (consumer : ptr) (topic : bytes) : call (Z * list Assignment)
| A_OffsetSeek (consumer : ptr) (topic : bytes) (vgroupID offset : Z) : call Z
| A_Committed (consumer : ptr) (topic : bytes) (vgroupID : Z) : call Z
| A_Position (consumer : ptr) (topic : bytes) (vgroupID : Z) : call Z
| A_CommitOffset (consumer : ptr) (topic : bytes) (vgroupID offset : Z) : call Z
| C_TMQListNew : call ptr
| C_TMQListAppend (topics : ptr) (topic : bytes) : call Z
| C_TMQListToCArray (topics : ptr) : call (list bytes)
| C_TMQListDestroy (topics : ptr) : call unit
| C_TMQConfNew : call ptr
| C_TMQConfSet (conf : ptr) (k v : bytes) : call Z
| C_TMQConfDestroy (conf : ptr) : call unit
| C_TMQErr2Str (code : Z) : call bytes
| C_TMQGetConnect (consumer : ptr) : call ptr
| C_TMQSubscription (consumer : ptr) : call (Z * ptr)
| C_FetchWhitelist (conn : ptr) : call (Z * list (bytes * bytes))
| C_TaosSetNotifyCB (conn : ptr) (notify : Z) : call Z
| C_TaosOptionsConnection (conn : ptr) (opt : Z) (value : bytes) : call Z
| C_TaosErrorStr : call bytes
| C_TMQGetResType (message : ptr) : call Z
| C_TMQGetTopicName (message : ptr) : call bytes
| C_TMQGetVgroupID (message : ptr) : call Z
| C_TMQGetVgroupOffset (message : ptr) : call Z
| C_TMQGetDBName (message : ptr) : call bytes
| C_TMQGetTableName (message : ptr) : call bytes
| C_TaosNumFields (message : ptr) : call Z
| C_TaosFetchFields (message : ptr) (count : Z) : call RowsHeader
| C_TaosResultPrecision (message : ptr) : call Z
| C_BlockMemory (message block : ptr) : call mem
| C_FreeResult (message : ptr) : call unit
| C_InitTMQRaw : call ptr
| C_FreeTMQRaw (raw : ptr) : call unit
| C_ParseRawMeta (raw : ptr) : call (Z * Z * mem)
| C_TMQFreeRaw (raw : ptr) : call unit
| C_JsonMeta (meta : ptr) : call mem
| C_TMQFreeJsonMeta (meta : ptr) : call unit
| C_DestroyTMQThread : call unit
| C_HandlerPut : call unit
| C_Range (l : list (bytes * bytes)) : call (list (bytes * bytes))
| C_Now : call Z
| C_GetDuration : call Z.

Definition is_async {X} (c : call X) : bool :=
  match c with
  | A_NewConsumer _ | A_Subscribe _ _ | A_Unsubscribe _ | A_ConsumerClose _ | A_Commit _ | A_Poll _ _ | A_FreeResult _
  | A_FetchRawBlock _ | A_GetRaw _ _ | A_GetJsonMeta _ | A_GetTopicAssignment _ _ | A_OffsetSeek _ _ _ _
  | A_Committed _ _ _ | A_Position _ _ _ | A_CommitOffset _ _ _ _ => true
  | _ => false
  end.

(** The resources a call works on, beside the thread and the handler of an asynchronous one; nil
    stands for none. *)
Definition args {X} (c : call X) : list res :=
  match c with
  | A_NewConsumer p => [(KConf, p)]
  | A_Subscribe q l => [(KConsumer, q); (KList, l)]
  | A_Unsubscribe q | A_ConsumerClose q | A_Commit q | A_Poll q _ | A_GetTopicAssignment q _ | A_OffsetSeek q _ _ _
  | A_Committed q _ _ | A_Position q _ _ | A_CommitOffset q _ _ _ | C_TMQGetConnect q | C_TMQSubscription q => [(KConsumer, q)]
  | A_FreeResult m | A_FetchRawBlock m | A_GetJsonMeta m | C_TMQGetResType m | C_TMQGetTopicName m | C_TMQGetVgroupID m
  | C_TMQGetVgroupOffset m | C_TMQGetDBName m | C_TMQGetTableName m | C_TaosNumFields m | C_TaosFetchFields m _
  | C_TaosResultPrecision m | C_BlockMemory m _ | C_FreeResult m => [(KMessage, m)]
  | A_GetRaw m r => [(KMessage, m); (KRaw, r)]
  | C_TMQListAppend l _ | C_TMQListToCArray l | C_TMQListDestroy l => [(KList, l)]
  | C_TMQConfSet p _ _ | C_TMQConfDestroy p => [(KConf, p)]
  | C_FetchWhitelist c | C_TaosSetNotifyCB c _ | C_TaosOptionsConnection c _ _ => [(KConn, c)]
  | C_FreeTMQRaw r => [(KRaw, r)]
  | C_ParseRawMeta r | C_TMQFreeRaw r => [(KRaw, r); (KRawData, r)]
  | C_JsonMeta p | C_TMQFreeJsonMeta p => [(KMeta, p)]
  | C_DestroyTMQThread => [the_thread]
  | C_HandlerPut => [the_handler]
  | _ => []
  end.
Definition uses {X} (c : call X) : list res := (if is_async c then [the_thread; the_handler] else []) ++ args c.

(** The resource a call gives back. *)
Definition frees {X} (c : call X) : option res :=
  match c with
  | A_ConsumerClose q => Some (KConsumer, q)
  | A_FreeResult m | C_FreeResult m => Some (KMessage, m)
  | C_TMQListDestroy l => Some (KList, l)
  | C_TMQConfDestroy p => Some (KConf, p)
  | C_FreeTMQRaw r => Some (KRaw, r)
  | C_TMQFreeRaw r => Some (KRawData, r)
  | C_TMQFreeJsonMeta p => Some (KMeta, p)
  | C_DestroyTMQThread => Some the_thread
  | C_HandlerPut => Some the_handler
  | _ => None
  end.

(** The resource an answer hands out; nil stands for none. *)
Definition allocs {X} (c : call X) : X -> option res :=
  match c in call X return X -> option res with
  | A_NewConsumer _ => fun x => Some (KConsumer, fst x)
  | A_Poll _ _ => fun x => Some (KMessage, x)
  | A_GetRaw _ r => fun x => if x =? 0 then Some (KRawData, r) else None
  | A_GetJsonMeta _ => fun x => Some (KMeta, x)
  | C_TMQListNew => fun x => Some (KList, x)
  | C_TMQConfNew => fun x => Some (KConf, x)
  | C_TMQSubscription _ => fun x => Some (KList, snd x)
  | C_InitTMQRaw => fun x => Some (KRaw, x)
  | _ => fun _ => None
  end.

(** The connection of a consumer. *)
Definition conn_of {X} (c : call X) : X -> option (ptr * ptr) :=
  match c in call X return X -> option (ptr * ptr) with
  | C_TMQGetConnect q => fun x => if x =? nilp then None else Some (x, q)
  | _ => fun _ => None
  end.

(** Two lists of options with the same elements. *)
Fixpoint permuted (l l' : list (bytes * bytes)) : bool :=
  match l with
  | [] => match l' with [] => true | _ => false end
  | x :: l => match list_find (x =.) l' with Some (n, _) => permuted l (delete n l') | None => false end
  end.

(** What the library promises of its answers: a consumer comes without an error text, a new list,
    configuration or raw value is not nil, the length and type of a raw message are unsigned numbers of
    32 and 16 bits, and an iteration gives every entry once. *)
Definition answer_ok {X} (c : call X) : X -> bool :=
  match c in call X return X -> bool with
  | A_NewConsumer _ => fun x => bool_decide (snd x = []) || (fst x =? nilp)
  | C_TMQListNew | C_TMQConfNew | C_InitTMQRaw => fun x => negb (x =? nilp)
  | C_ParseRawMeta _ => fun x => (0 <=? fst (fst x)) && (fst (fst x) <? 2 ^ 32) && (0 <=? snd (fst x)) && (snd (fst x) <? 2 ^ 16)
  | C_Range l => fun x => permuted l x
  | _ => fun _ => true
  end.

(** ** Responses *)

Inductive message :=
| WSTMQErrorResp (code : Z) (msg action : bytes) (reqID timing : Z) (messageID : option Z)
| WSErrorResp (code : Z) (msg action : bytes) (reqID timing : Z)
| VersionResp
| OkResp (action : bytes) (reqID timing : Z)
| CommitResp (action : bytes) (reqID timing messageID : Z)
| PollResp (action : bytes) (reqID timing : Z) (have : option (bytes * bytes * Z * Z * Z * Z))
| FetchResp (action : bytes) (reqID timing messageID : Z) (data : option (bytes * Z * Z * RowsHeader * Z))
| JsonMetaResp (action : bytes) (reqID timing messageID : Z) (data : option bytes)
| AssignmentResp (action : bytes) (reqID timing : Z) (assignment : list Assignment)
| OffsetsResp (action : bytes) (reqID timing : Z) (offsets : list Z)
| TopicsResp (action : bytes) (reqID timing : Z) (topics : list bytes)
| CommitOffsetResp (action : bytes) (reqID timing : Z) (topic : bytes) (vgroupID offset : Z)
| BinaryResp (data : bytes)
| BufferResp (buf : slice).

(** ** Operations and programs *)

Inductive lock := LHandler | LMessage | LAsync.
#[export] Instance lock_eq_dec : EqDecision lock.
Proof. solve_decision. Defined.

Inductive op : Type -> Type :=
| OLock (l : lock) : op unit
| OUnlock (l : lock) : op unit
| OIsClosed : op bool
| OSetClosed : op unit
| OWaitAll : op unit                     (* [t.wg.Wait()] *)
| OWaitDone : op unit                    (* [t.wg.Done()] *)
| OCloseExit : op unit                   (* [close(t.exit)] *)
| OConsumer : op ptr                     (* reads [t.consumer] *)
| OConn : op ptr                         (* reads [t.conn], under the lock *)
| OSetConsumer (conn consumer : ptr) : op unit
| OSettings : op settings
| OUpdate (f : settings -> settings) : op unit
| OReadMsg : op Message
| OWriteMsg (m : Message) : op unit
| OMakeBuf (cap : Z) : op nat
| OCapBuf (b : nat) : op Z
| OFillBuf (b : nat) (data : bytes) : op unit
| OSend (m : message) : op unit
| OGoWaitSignal : op unit
| OPutHandles : op unit
| OCall {X} (c : call X) : op X.

Inductive prog (A : Type) : Type :=
| Done (a : A)
| Crash
| Vis {X : Type} (e : op X) (k : X -> prog A).
Arguments Done {A} a.
Arguments Crash {A}.
Arguments Vis {A X} e k.

#[export] Instance prog_mret : MRet prog := @Done.
#[export] Instance prog_mbind : MBind prog := fun A B f =>
  fix bind (p : prog A) : prog B :=
    match p with
    | Done a => f a
    | Crash => Crash
    | Vis e k => Vis e (fun x => bind (k x))
    end.

Definition do_ {X} (e : op X) : prog X := Vis e Done.
Definition call_ {X} (c : call X) : prog X := Vis (OCall c) Done.
Definition lift {A} (x : go A) : prog A := match x with Ret a => Done a | _ => Crash end.

(** ** The shared state *)

(** Who has to give a resource back: a goroutine (also while it holds the lock of the message), the
    last message, or the session. *)
Inductive owner := Goroutine (i : nat) | Slot | Session.
#[export] Instance owner_eq_dec : EqDecision owner.
Proof. solve_decision. Defined.

(** [w_drained]: [t.wg.Wait()] has returned, and what belongs to the session passes to the
    goroutine that closes it. *)
Record world := mkWorld {
  w_closed : bool; w_exit : bool; w_drained : bool; w_lock : lock -> option nat; w_wait : list nat;
  w_consumer : ptr; w_conn : ptr; w_settings : settings; w_msg : Message;
  w_bufs : list bytes; w_sent : list message; w_handles : bool;
  w_live : gmap res owner; w_ever : gset res; w_conns : gmap ptr ptr }.

Definition set_closed b w := mkWorld b (w_exit w) (w_drained w) (w_lock w) (w_wait w) (w_consumer w) (w_conn w) (w_settings w) (w_msg w) (w_bufs w) (w_sent w) (w_handles w) (w_live w) (w_ever w) (w_conns w).
Definition set_exit b w := mkWorld (w_closed w) b (w_drained w) (w_lock w) (w_wait w) (w_consumer w) (w_conn w) (w_settings w) (w_msg w) (w_bufs w) (w_sent w) (w_handles w) (w_live w) (w_ever w) (w_conns w).
Definition set_drained b w := mkWorld (w_closed w) (w_exit w) b (w_lock w) (w_wait w) (w_consumer w) (w_conn w) (w_settings w) (w_msg w) (w_bufs w) (w_sent w) (w_handles w) (w_live w) (w_ever w) (w_conns w).
Definition set_lock l o w := mkWorld (w_closed w) (w_exit w) (w_drained w) (fun l' => if decide (l' = l) then o else w_lock w l') (w_wait w) (w_consumer w) (w_conn w) (w_settings w) (w_msg w) (w_bufs w) (w_sent w) (w_handles w) (w_live w) (w_ever w) (w_conns w).
Definition set_wait l w := mkWorld (w_closed w) (w_exit w) (w_drained w) (w_lock w) l (w_consumer w) (w_conn w) (w_settings w) (w_msg w) (w_bufs w) (w_sent w) (w_handles w) (w_live w) (w_ever w) (w_conns w).
Definition set_consumer c q w := mkWorld (w_closed w) (w_exit w) (w_drained w) (w_lock w) (w_wait w) q c (w_settings w) (w_msg w) (w_bufs w) (w_sent w) (w_handles w) (w_live w) (w_ever w) (w_conns w).
Definition set_settings s w := mkWorld (w_closed w) (w_exit w) (w_drained w) (w_lock w) (w_wait w) (w_consumer w) (w_conn w) s (w_msg w) (w_bufs w) (w_sent w) (w_handles w) (w_live w) (w_ever w) (w_conns w).
Definition set_msg m w := mkWorld (w_closed w) (w_exit w) (w_drained w) (w_lock w) (w_wait w) (w_consumer w) (w_conn w) (w_settings w) m (w_bufs w) (w_sent w) (w_handles w) (w_live w) (w_ever w) (w_conns w).
Definition set_bufs l w := mkWorld (w_closed w) (w_exit w) (w_drained w) (w_lock w) (w_wait w) (w_consumer w) (w_conn w) (w_settings w) (w_msg w) l (w_sent w) (w_handles w) (w_live w) (w_ever w) (w_conns w).
Definition set_sent l w := mkWorld (w_closed w) (w_exit w) (w_drained w) (w_lock w) (w_wait w) (w_consumer w) (w_conn w) (w_settings w) (w_msg w) (w_bufs w) l (w_handles w) (w_live w) (w_ever w) (w_conns w).
Definition set_handles b w := mkWorld (w_closed w) (w_exit w) (w_drained w) (w_lock w) (w_wait w) (w_consumer w) (w_conn w) (w_settings w) (w_msg w) (w_bufs w) (w_sent w) b (w_live w) (w_ever w) (w_conns w).
Definition set_live m w := mkWorld (w_closed w) (w_exit w) (w_drained w) (w_lock w) (w_wait w) (w_consumer w) (w_conn w) (w_settings w) (w_msg w) (w_bufs w) (w_sent w) (w_handles w) m (w_ever w) (w_conns w).
Definition set_ever s w := mkWorld (w_closed w) (w_exit w) (w_drained w) (w_lock w) (w_wait w) (w_consumer w) (w_conn w) (w_settings w) (w_msg w) (w_bufs w) (w_sent w) (w_handles w) (w_live w) s (w_conns w).
Definition set_conns m w := mkWorld (w_closed w) (w_exit w) (w_drained w) (w_lock w) (w_wait w) (w_consumer w) (w_conn w) (w_settings w) (w_msg w) (w_bufs w) (w_sent w) (w_handles w) (w_live w) (w_ever w) m.

(** The resource of the last message, and those of the session. *)
Definition resources (m : Message) : list res := if CPointer m =? nilp then [] else [(KMessage, CPointer m)].
Definition belongings (w : world) : list res :=
  the_thread :: the_handler :: (if w_consumer w =? nilp then [] else [(KConsumer, w_consumer w)]).

Definition hand (l : list res) (x : owner) (m : gmap res owner) : gmap res owner :=
  foldr (fun r m => alter (fun _ => x) r m) m l.

(** ** One operation *)

Definition oracle := forall X, call X -> X.
Definition mine (i : nat) (l : option nat) : bool := match l with Some j => Nat.eqb i j | None => false end.

Definition exec_lock (i : nat) (l : lock) (w : world) : outcome (unit * world) :=
  match w_lock w l with
  | Some _ => Blocked
  | None =>
    let w := set_lock l (Some i) w in
    Ok (tt, match l with LMessage => set_live (hand (resources (w_msg w)) (Goroutine i) (w_live w)) w | _ => w end)
  end.
Definition exec_unlock (i : nat) (l : lock) (w : world) : outcome (unit * world) :=
  if mine i (w_lock w l) then
    let w := set_lock l None w in
    Ok (tt, match l with LMessage => set_live (hand (resources (w_msg w)) Slot (w_live w)) w | _ => w end)
  else Bad.

(** The end of a call: the answer, with what it hands out. *)
Definition exec_answer (i : nat) {X} (c : call X) (x : X) (w : world) : outcome (X * world) :=
  if negb (answer_ok c x) then Stuck
  else
    match conn_of c x with
    | Some (p, q) => if bool_decide (default q (w_conns w !! p) <> q) then Stuck else Ok (x, set_conns (<[p := q]> (w_conns w)) w)
    | None =>
      match allocs c x with
      | None => Ok (x, w)
      | Some r =>
        if snd r =? nilp then Ok (x, w)
        else if bool_decide (r ∈ w_ever w) then Stuck
        else Ok (x, set_live (<[r := Goroutine i]> (w_live w)) (set_ever ({[r]} ∪ w_ever w) w))
      end
    end.

Definition exec_op (i : nat) (a : oracle) {X} (e : op X) : world -> outcome (X * world) :=
  match e in op X return world -> outcome (X * world) with
  | OLock l => exec_lock i l
  | OUnlock l => exec_unlock i l
  | OIsClosed => fun w => Ok (w_closed w, w)
  | OSetClosed => fun w => Ok (tt, set_closed true w)
  | OWaitAll => fun w =>
      match w_wait w with
      | [] => Ok (tt, set_drained true (set_live (hand (belongings w) (Goroutine i) (w_live w)) w))
      | _ => Blocked
      end
  | OWaitDone => fun w => Ok (tt, set_wait (filter (fun j => j <> i) (w_wait w)) w)
  | OCloseExit => fun w => if w_exit w then Bad else Ok (tt, set_exit true w)
  | OConsumer => fun w => Ok (w_consumer w, w)
  | OConn => fun w => if mine i (w_lock w LHandler) then Ok (w_conn w, w) else Bad
  | OSetConsumer c q => fun w =>
      if mine i (w_lock w LHandler) then Ok (tt, set_live (hand [(KConsumer, q)] Session (w_live w)) (set_consumer c q w)) else Bad
  | OSettings => fun w => Ok (w_settings w, w)
  | OUpdate f => fun w => Ok (tt, set_settings (f (w_settings w)) w)
  | OReadMsg => fun w => if mine i (w_lock w LMessage) then Ok (w_msg w, w) else Bad
  | OWriteMsg m => fun w => if mine i (w_lock w LMessage) then Ok (tt, set_msg m w) else Bad
  | OMakeBuf n => fun w => Ok (length (w_bufs w), set_bufs (w_bufs w ++ [replicate (Z.to_nat n) 0]) w)
  | OCapBuf b => fun w => match w_bufs w !! b with Some l => Ok (zlen l, w) | None => Bad end
  | OFillBuf b data => fun w =>
      match w_bufs w !! b with
      | Some l => Ok (tt, set_bufs (<[b := data ++ drop (length data) l]> (w_bufs w)) w)
      | None => Bad
      end
  | OSend m => fun w => Ok (tt, set_sent (w_sent w ++ [m]) w)
  | OGoWaitSignal => fun w => Ok (tt, w)
  | OPutHandles => fun w => Ok (tt, set_handles false w)
  | OCall c => exec_answer i c (a _ c)
  end.

(** ** The goroutines of a session *)

Inductive role := Handling | Closing | Waiting.
Record thread := mkThread { t_role : role; t_prog : prog bool; t_pend : bool }.
Inductive signal := DropUser | WhitelistChange | Exit.

Record sys := mkSys { w : world; threads : list thread; reader : option bytes }.

(** The call an operation is: what it uses and frees, and whether it is asynchronous. *)
Definition call_of {X} (e : op X) : option (list res * option res * bool) :=
  match e with OCall c => Some (uses c, frees c, is_async c) | _ => None end.
Definition is_go {X} (e : op X) : bool := match e with OGoWaitSignal => true | _ => false end.

(** The resource that has to be there for [r]: for a connection, its consumer. *)
Definition real (w : world) (r : res) : option res :=
  if snd r =? nilp then None
  else match fst r with
       | KConn => Some (KConsumer, default nilp (w_conns w !! snd r))
       | _ => Some r
       end.

(** Goroutine [t] is in a call that works on [r], or in an asynchronous call. *)
Definition pending_call (t : thread) : option (list res * option res * bool) :=
  if t_pend t then match t_prog t with Vis e _ => call_of e | _ => None end else None.
Definition in_call (w : world) (r : res) (t : thread) : bool :=
  match pending_call t with Some (us, _, _) => existsb (fun u => bool_decide (real w u = Some r)) us | None => false end.
Definition in_async (t : thread) : bool := match pending_call t with Some (_, _, b) => b | None => false end.
Definition another (f : thread -> bool) (i : nat) (ts : list thread) : bool :=
  existsb (fun j => negb (Nat.eqb j i) && match ts !! j with Some t => f t | None => false end) (seq 0 (length ts)).

Definition use_ok (w : world) (r : res) : bool :=
  match real w r with None => true | Some r => bool_decide (r ∈ dom (w_live w)) end.

(** The start of a call: everything it works on is there, what it frees no other call uses, and no
    other asynchronous call is in progress. *)
Definition begin_call (i : nat) (us : list res) (fr : option res) (async : bool) (s : sys) : outcome world :=
  if negb (forallb (use_ok (w s)) us) then Bad
  else if async && another in_async i (threads s) then Bad
  else
    match fr with
    | None => Ok (w s)
    | Some r =>
      if snd r =? nilp then Ok (w s)
      else if bool_decide (r ∈ dom (w_live (w s))) && negb (another (in_call (w s) r) i (threads s))
      then Ok (set_live (delete r (w_live (w s))) (w s))
      else Bad
    end.

Inductive action :=
| AStep (i : nat) (a : oracle)
| ARecv (m : bytes)
| ASpawn
| AClose
| ASignal (i : nat) (s : signal).

Section Session.
Context (handle : bytes -> prog bool) (on_signal : signal -> prog bool) (close_session : prog bool).

Definition step_thread (s : sys) (i : nat) (a : oracle) : outcome sys :=
  match threads s !! i with
  | Some (mkThread ro (Vis e k) pend) =>
    match call_of e, pend with
    | Some (us, fr, async), false =>
      match begin_call i us fr async s with
      | Ok w' => Ok (mkSys w' (<[i := mkThread ro (Vis e k) true]> (threads s)) (reader s))
      | Blocked => Blocked | Bad => Bad | Stuck => Stuck
      end
    | _, _ =>
      match exec_op i a e (w s) with
      | Ok (x, w') =>
        let ts := <[i := mkThread ro (k x) false]> (threads s) in
        Ok (mkSys w' (if is_go e then ts ++ [mkThread Waiting (Done true) false] else ts) (reader s))
      | Blocked => Blocked | Bad => Bad | Stuck => Stuck
      end
    end
  | _ => Blocked
  end.

(** The reading goroutine checks [isClosed], adds to the wait group and starts a goroutine; a close
    frame, an error and the disconnect each close the session; a signal arrives at a goroutine in
    the [select] of [waitSignal]. *)
Definition step (s : sys) (a : action) : outcome sys :=
  match a with
  | AStep i a => step_thread s i a
  | ARecv m => match reader s with
               | Some _ => Blocked
               | None => Ok (if w_closed (w s) then s else mkSys (w s) (threads s) (Some m))
               end
  | ASpawn =>
    match reader s with
    | None => Blocked
    | Some m =>
      let i := length (threads s) in
      Ok (mkSys (set_wait (i :: w_wait (w s)) (w s)) (threads s ++ [mkThread Handling (handle m) false]) None)
    end
  | AClose => Ok (mkSys (w s) (threads s ++ [mkThread Closing close_session false]) (reader s))
  | ASignal i x =>
    match threads s !! i with
    | Some (mkThread Waiting (Done true) _) =>
      match x, w_exit (w s) with
      | Exit, false => Blocked
      | _, _ => Ok (mkSys (w s) (<[i := mkThread Waiting (on_signal x) false]> (threads s)) (reader s))
      end
    | _ => Blocked
    end
  end.

Fixpoint run (s : sys) (acts : list action) : outcome sys :=
  match acts with
  | [] => Ok s
  | a :: acts => match step s a with Ok s' => run s' acts | Blocked => Blocked | Bad => Bad | Stuck => Stuck end
  end.

End Session.

(** [NewTaosTMQ]: auto commit every five seconds, the thread, the handler and the notification
    handles are taken. *)
Definition NewTaosTMQ : sys :=
  mkSys (mkWorld false false false (fun _ => None) [] nilp nilp (mkSettings false true 5000000000 None)
           (mkMessage 0 [] 0 0 0 nilp None) [] [] true
           {[the_thread := Session; the_handler := Session]} {[the_thread; the_handler]} ∅) [] None.

End TmqWs.
