(* ===== verification/TmqHandlers.v ===== *)
(** * TmqHandlers: the handlers of the TMQ endpoint

    The programs of [src/controller/ws/tmq/tmq.go]: every action of a message, the wrappers of the
    asynchronous calls, the goroutine that waits for signals and [Close].  Log output is left out.
    The decoding of a request is a parameter; a message that cannot be decoded is not answered.
    [send] is [WSWriteJson] or [WSWriteBinary]; the encoding of a response as JSON is left out. *)
From S2P Require Import Prelude Common RawBlock Text Rest Types WsProg WsHandlers TmqProg.
From stdpp Require Import gmap sets.
#[local] Open Scope Z_scope.

Module TmqHandlers.
Import Text Rest TmqWs.
Import Handlers(CheckWhitelist, Contains, TAOS_NOTIFY_WHITELIST_VER, TAOS_NOTIFY_USER_DROPPED,
  TSDB_OPTION_CONNECTION_TIMEZONE, TSDB_OPTION_CONNECTION_USER_IP, TSDB_OPTION_CONNECTION_USER_APP).

(** ** Responses *)

Definition send (m : message) : prog unit := do_ (OSend m).
Definition GetDuration : prog Z := call_ C_GetDuration.

Definition wsTMQErrorMsg (code : Z) (msg action : bytes) (reqID : Z) (messageID : option Z) : prog unit :=
  t ← GetDuration; send (WSTMQErrorResp (Z.land code 65535) msg action reqID t messageID).
Definition WSErrorMsg (code : Z) (msg action : bytes) (reqID : Z) : prog unit :=
  t ← GetDuration; send (WSErrorResp (Z.land code 65535) msg action reqID t).
Definition WSError (err : goerr) (action : bytes) (reqID : Z) : prog unit :=
  match err with
  | TaosErr code msg => WSErrorMsg (Z.land code 65535) msg action reqID
  | PlainErr msg => WSErrorMsg 65535 msg action reqID
  end.
Definition newError (code : Z) (msg : bytes) : goerr := TaosErr (TaosErr.Code (TaosErr.NewError code msg)) msg.

Definition TMQRawMessage : Z := 3.
Definition TMQFetchRawNewMessage : Z := 8.
Definition OffsetInvalid : Z := -2147467247.

Definition tmqFetchRawBlockErrorMsg (code : Z) (msg : bytes) (reqID messageID : Z) : prog unit :=
  let bufLength := 8 + 8 + 2 + 8 + 8 + 4 + 4 + zlen msg + 8 in
  let buf := replicate (Z.to_nat bufLength) 0 in
  t ← GetDuration;
  buf ← lift (
    buf ← zput buf 0 (le_bytes 8 (2 ^ 64 - 1));
    buf ← zput buf 8 (le_bytes 8 TMQFetchRawNewMessage);
    buf ← zput buf 16 (le_bytes 2 1);
    buf ← zput buf 18 (le_bytes 8 t);
    buf ← zput buf 26 (le_bytes 8 reqID);
    buf ← zput buf 34 (le_bytes 4 (Z.land code 65535));
    buf ← zput buf 38 (le_bytes 4 (zlen msg));
    buf ← zcopy buf 42 msg;
    zput buf (42 + zlen msg) (le_bytes 8 messageID));
  send (BinaryResp buf).

(** ** Buffers *)

(** The buffer with room for [n] bytes: the old array when its capacity is enough. *)
Definition reserve (buf : slice) (n : Z) : prog nat :=
  match buf with
  | None => do_ (OMakeBuf n)
  | Some (b, _) => c ← do_ (OCapBuf b); if c <? n then do_ (OMakeBuf n) else mret b
  end.
(** [message.buffer] is filled with [data]. *)
Definition fill (buf : slice) (data : bytes) : prog slice :=
  b ← reserve buf (zlen data);
  do_ (OFillBuf b data);;
  mret (Some (b, zlen data)).

Definition set_buffer (m : Message) (b : slice) : Message :=
  mkMessage (Index m) (Topic m) (VGroupID m) (Offset m) (MType m) (CPointer m) b.
Definition set_pointer (m : Message) (p : ptr) (b : slice) : Message :=
  mkMessage (Index m) (Topic m) (VGroupID m) (Offset m) (MType m) p b.

(** [wsFetchRawBlockMessage]. *)
Definition wsFetchRawBlockMessage (buf : slice) (reqID resultID metaType blockLength : Z) (rawBlock : mem) : prog slice :=
  t ← GetDuration;
  data ← lift (load rawBlock 0 blockLength);
  fill buf (le_bytes 8 (2 ^ 64 - 1) ++ le_bytes 8 TMQFetchRawNewMessage ++ le_bytes 2 1 ++ le_bytes 8 t ++
    le_bytes 8 reqID ++ le_bytes 4 0 ++ le_bytes 4 0 ++ le_bytes 8 resultID ++ le_bytes 2 metaType ++
    le_bytes 4 blockLength ++ data).

(** ** The asynchronous calls *)

Definition isClosed : prog bool := do_ OIsClosed.

(** The lock, the call, its answer. *)
Definition async {X} (c : call X) : prog X :=
  do_ (OLock LAsync);; x ← call_ c; do_ (OUnlock LAsync);; mret x.
(** The same unless the session is closed ([None]). *)
Definition async_open {X} (c : ptr -> call X) : prog (option X) :=
  do_ (OLock LAsync);;
  closed ← isClosed;
  if (closed : bool) then do_ (OUnlock LAsync);; mret None
  else
    consumer ← do_ OConsumer;
    x ← call_ (c consumer);
    do_ (OUnlock LAsync);;
    mret (Some x).

Definition wrapperCloseConsumer (consumer : ptr) : prog Z := async (A_ConsumerClose consumer).
Definition wrapperSubscribe (consumer topicList : ptr) : prog Z := async (A_Subscribe consumer topicList).
Definition wrapperConsumerNew (conf : ptr) : prog (ptr + TaosErr.TaosError) :=
  result ← async (A_NewConsumer conf);
  if negb (bool_decide (snd result = [])) then mret (inr (TaosErr.NewError (-1) (snd result)))
  else if fst result =? nilp then mret (inr (TaosErr.NewError (-1) (str "new consumer return nil")))
  else mret (inl (fst result)).
Definition wrapperCommit : prog (option Z) := async_open A_Commit.
Definition wrapperPoll (blockingTime : Z) : prog (option ptr) := async_open (fun q => A_Poll q blockingTime).
(** Whether the session is closed.  The second early return keeps the lock. *)
Definition wrapperFreeResult : prog bool :=
  do_ (OLock LAsync);;
  closed ← isClosed;
  if (closed : bool) then do_ (OUnlock LAsync);; mret true
  else
    m ← do_ OReadMsg;
    if CPointer m =? nilp then mret false
    else
      call_ (A_FreeResult (CPointer m));;
      do_ (OUnlock LAsync);;
      mret false.
Definition wrapperFetchRawBlock (res : ptr) : prog (option (Z * Z * ptr)) := async_open (fun _ => A_FetchRawBlock res).
Definition wrapperGetRaw (res rawData : ptr) : prog (option Z) := async_open (fun _ => A_GetRaw res rawData).
Definition wrapperGetJsonMeta (res : ptr) : prog (option ptr) := async_open (fun _ => A_GetJsonMeta res).
Definition wrapperUnsubscribe : prog (option Z) := async_open A_Unsubscribe.
Definition wrapperGetTopicAssignment (topic : bytes) : prog (option (Z * list Assignment)) :=
  async_open (fun q => A_GetTopicAssignment q topic).
Definition wrapperOffsetSeek (topic : bytes) (vgroupID offset : Z) : prog (option Z) :=
  async_open (fun q => A_OffsetSeek q topic vgroupID offset).
Definition wrapperCommitted (topic : bytes) (vgroupID : Z) : prog (option Z) := async_open (fun q => A_Committed q topic vgroupID).
Definition wrapperPosition (topic : bytes) (vgroupID : Z) : prog (option Z) := async_open (fun q => A_Position q topic vgroupID).
Definition wrapperCommitOffset (topic : bytes) (vgroupID offset : Z) : prog (option Z) :=
  async_open (fun q => A_CommitOffset q topic vgroupID offset).

(** ** Closing *)

Definition freeMessage (closing : bool) : prog unit :=
  do_ (OLock LMessage);;
  m ← do_ OReadMsg;
  (if negb (CPointer m =? nilp) then
     do_ (OLock LAsync);;
     closed ← (if closing then mret false else isClosed);
     if (closed : bool) then do_ (OUnlock LAsync)
     else
       call_ (A_FreeResult (CPointer m));;
       do_ (OUnlock LAsync);;
       do_ (OWriteMsg (set_pointer m nilp None))
   else do_ (OWriteMsg (set_buffer m None)));;
  do_ (OUnlock LMessage).

(** The error text of a call that failed, for the log. *)
Definition log_error (code : Z) : prog unit := if negb (code =? 0) then call_ (C_TMQErr2Str code);; mret tt else mret tt.

Definition Close : prog unit :=
  do_ (OLock LHandler);;
  closed ← isClosed;
  (if (closed : bool) then mret tt
   else
     do_ OSetClosed;;
     do_ OWaitAll;;
     freeMessage true;;
     consumer ← do_ OConsumer;
     (if negb (consumer =? nilp) then
        st ← do_ OSettings;
        (if negb (unsubscribed st) then
           r ← wrapperUnsubscribe;
           log_error (default 0 r)
         else mret tt);;
        code ← wrapperCloseConsumer consumer;
        log_error code
      else mret tt);;
     do_ OCloseExit;;
     do_ (OLock LAsync);;
     call_ C_DestroyTMQThread;;
     do_ (OUnlock LAsync);;
     call_ C_HandlerPut);;
  do_ (OUnlock LHandler).

(** ** Signals *)

Section Session.
(** The address of the client, and its text; [strconv.Quote]. *)
Context (ip ipStr : bytes) (Quote : bytes -> bytes).

Definition GetWhitelist (conn : ptr) : prog (list (bytes * bytes) + goerr) :=
  data ← call_ (C_FetchWhitelist conn);
  if negb (fst data =? 0) then e ← call_ C_TaosErrorStr; mret (inr (newError (fst data) e))
  else mret (inl (snd data)).
Definition register (conn : ptr) (notify : Z) : prog (option goerr) :=
  errCode ← call_ (C_TaosSetNotifyCB conn notify);
  if negb (errCode =? 0) then e ← call_ C_TaosErrorStr; mret (Some (newError errCode e)) else mret None.

(** [session.Close()] queues a close message; the lock is released before [Close] takes it. *)
Definition signalExit : prog unit := do_ (OUnlock LHandler);; Close.

(** One round of the loop of [waitSignal]; whether it goes on. *)
Definition waitSignal (s : signal) : prog bool :=
  let leave := do_ OPutHandles;; mret false in
  match s with
  | DropUser =>
    do_ (OLock LHandler);;
    closed ← isClosed;
    if (closed : bool) then do_ (OUnlock LHandler);; leave
    else signalExit;; leave
  | WhitelistChange =>
    do_ (OLock LHandler);;
    closed ← isClosed;
    if (closed : bool) then do_ (OUnlock LHandler);; leave
    else
      conn ← do_ OConn;
      wl ← GetWhitelist conn;
      match wl with
      | inr _ => signalExit;; leave
      | inl whitelist =>
        if negb (CheckWhitelist whitelist ip) then signalExit;; leave
        else do_ (OUnlock LHandler);; mret true
      end
  | Exit => leave
  end.

(** ** Subscribing *)

Record TMQSubscribeReq := mkSubscribe {
  s_ReqID : Z; User : bytes; Password : bytes; DB : bytes; GroupID : bytes; ClientID : bytes; OffsetRest : bytes;
  OffsetReset : bytes; Topics : list bytes; AutoCommit : bytes; AutoCommitIntervalMS : bytes; SnapshotEnable : bytes;
  WithTableName : bytes; EnableBatchMeta : bytes; MsgConsumeExcluded : bytes; SessionTimeoutMS : bytes;
  MaxPollIntervalMS : bytes; TZ : bytes; App : bytes; IP : bytes }.

Definition option_when (v : bytes) (k : list Z) : list (bytes * bytes) := if bool_decide (v = []) then [] else [(k, v)].

Definition tmqOptions (req : TMQSubscribeReq) : list (bytes * bytes) :=
  let offsetReset := if bool_decide (OffsetReset req = []) then OffsetRest req else OffsetReset req in
  option_when (GroupID req) (str "group.id") ++
  option_when (ClientID req) (str "client.id") ++
  option_when (DB req) (str "td.connect.db") ++
  option_when offsetReset (str "auto.offset.reset") ++
  [(str "td.connect.user", User req); (str "td.connect.pass", Password req)] ++
  option_when (WithTableName req) (str "msg.with.table.name") ++
  option_when (MsgConsumeExcluded req) (str "msg.consume.excluded") ++
  [(str "enable.auto.commit", str "false")] ++
  option_when (SnapshotEnable req) (str "experimental.snapshot.enable") ++
  option_when (EnableBatchMeta req) (str "msg.enable.batchmeta") ++
  option_when (SessionTimeoutMS req) (str "session.timeout.ms") ++
  option_when (MaxPollIntervalMS req) (str "max.poll.interval.ms").

Definition num_error (func s : bytes) (range : bool) : bytes :=
  str "strconv." ++ func ++ str ": parsing " ++ Quote s ++ str ": " ++
  (if range then str "value out of range" else str "invalid syntax").

(** The first error of appending the topics. *)
Fixpoint append_topics (topicList : ptr) (topics : list bytes) : prog Z :=
  match topics with
  | [] => mret 0
  | topic :: topics =>
    errCode ← call_ (C_TMQListAppend topicList topic);
    if negb (errCode =? 0) then mret errCode else append_topics topicList topics
  end.
Fixpoint conf_set (conf : ptr) (options : list (bytes * bytes)) : prog Z :=
  match options with
  | [] => mret 0
  | (k, v) :: options =>
    errCode ← call_ (C_TMQConfSet conf k v);
    if negb (errCode =? 0) then mret errCode else conf_set conf options
  end.

Definition respond_ok (action : bytes) (reqID : Z) : prog unit := t ← GetDuration; send (OkResp action reqID t).
Definition respond_code (code : Z) (action : bytes) (reqID : Z) (messageID : option Z) : prog unit :=
  errStr ← call_ (C_TMQErr2Str code); wsTMQErrorMsg code errStr action reqID messageID.

Definition resubscribe (consumer : ptr) (action : bytes) (req : TMQSubscribeReq) : prog unit :=
  topicList ← call_ C_TMQListNew;
  errCode ← append_topics topicList (Topics req);
  (if negb (errCode =? 0) then respond_code errCode action (s_ReqID req) None
   else
     errCode ← wrapperSubscribe consumer topicList;
     if negb (errCode =? 0) then respond_code errCode action (s_ReqID req) None
     else
       do_ (OUpdate (set_unsubscribed false));;
       respond_ok action (s_ReqID req));;
  call_ (C_TMQListDestroy topicList).

Definition closeConsumerWithErrLog (consumer : ptr) (action : bytes) (reqID : Z) (err : goerr) : prog unit :=
  errCode ← wrapperCloseConsumer consumer;
  log_error errCode;;
  WSError err action reqID.

(** One option of the connection, with what follows when it is set. *)
Definition conn_option (conn : ptr) (fail : goerr -> prog unit) (wanted : bool) (opt : Z) (v : bytes)
    (next : prog unit) : prog unit :=
  if wanted then
    code ← call_ (C_TaosOptionsConnection conn opt v);
    if negb (code =? 0) then e ← call_ C_TaosErrorStr; fail (newError code e) else next
  else next.

(** From the new consumer on. *)
Definition start_consumer (cPointer topicList : ptr) (action : bytes) (req : TMQSubscribeReq) : prog unit :=
  let fail := closeConsumerWithErrLog cPointer action (s_ReqID req) in
  errCode ← append_topics topicList (Topics req);
  if negb (errCode =? 0) then e ← call_ (C_TMQErr2Str errCode); fail (newError errCode e)
  else
    errCode ← wrapperSubscribe cPointer topicList;
    if negb (errCode =? 0) then e ← call_ (C_TMQErr2Str errCode); fail (newError errCode e)
    else
      conn ← call_ (C_TMQGetConnect cPointer);
      wl ← GetWhitelist conn;
      match wl with
      | inr err => fail err
      | inl whitelist =>
        if negb (CheckWhitelist whitelist ip) then fail (PlainErr (str "whitelist prohibits current IP access"))
        else
          err ← register conn TAOS_NOTIFY_WHITELIST_VER;
          match err with
          | Some err => fail err
          | None =>
            err ← register conn TAOS_NOTIFY_USER_DROPPED;
            match err with
            | Some err => fail err
            | None =>
              conn_option conn fail true TSDB_OPTION_CONNECTION_USER_IP
                (if bool_decide (IP req = []) then ipStr else IP req) (
              conn_option conn fail (negb (bool_decide (TZ req = []))) TSDB_OPTION_CONNECTION_TIMEZONE (TZ req) (
              conn_option conn fail (negb (bool_decide (App req = []))) TSDB_OPTION_CONNECTION_USER_APP (App req) (
              do_ (OSetConsumer conn cPointer);;
              do_ OGoWaitSignal;;
              respond_ok action (s_ReqID req))))
            end
          end
      end.

Definition new_consumer (tmqConfig : ptr) (action : bytes) (req : TMQSubscribeReq) : prog unit :=
  options ← call_ (C_Range (tmqOptions req));
  errCode ← conf_set tmqConfig options;
  if negb (errCode =? 0) then respond_code errCode action (s_ReqID req) None
  else
    r ← wrapperConsumerNew tmqConfig;
    match r with
    | inr err => wsTMQErrorMsg 65535 (TaosErr.Error err) action (s_ReqID req) None
    | inl cPointer =>
      topicList ← call_ C_TMQListNew;
      start_consumer cPointer topicList action req;;
      call_ (C_TMQListDestroy topicList)
    end.

(** The settings for the automatic commit, with what follows; a bad value of [auto_commit] turns
    it off. *)
Definition commit_settings (action : bytes) (req : TMQSubscribeReq) (next : prog unit) : prog unit :=
  let interval :=
    if bool_decide (AutoCommitIntervalMS req = []) then next
    else match ParseInt (AutoCommitIntervalMS req) with
         | inr range => wsTMQErrorMsg 65535 (num_error (str "ParseInt") (AutoCommitIntervalMS req) range) action (s_ReqID req) None
         | inl ms => do_ (OUpdate (set_autocommitInterval (i64 (ms * 1000000))));; next
         end in
  if bool_decide (AutoCommit req = []) then interval
  else match ParseBool (AutoCommit req) with
       | None => do_ (OUpdate (set_isAutoCommit false));;
                 wsTMQErrorMsg 65535 (num_error (str "ParseBool") (AutoCommit req) false) action (s_ReqID req) None
       | Some b => do_ (OUpdate (set_isAutoCommit b));; interval
       end.

Definition subscribe (req : TMQSubscribeReq) : prog unit :=
  let action := str "subscribe" in
  do_ (OLock LHandler);;
  closed ← isClosed;
  (if (closed : bool) then mret tt
   else
     consumer ← do_ OConsumer;
     if negb (consumer =? nilp) then
       st ← do_ OSettings;
       if unsubscribed st then resubscribe consumer action req
       else wsTMQErrorMsg 65535 (str "tmq should have unsubscribed first") action (s_ReqID req) None
     else
       tmqConfig ← call_ C_TMQConfNew;
       commit_settings action req (new_consumer tmqConfig action req);;
       call_ (C_TMQConfDestroy tmqConfig));;
  do_ (OUnlock LHandler).

Definition unsubscribe (reqID : Z) : prog unit :=
  let action := str "unsubscribe" in
  do_ (OLock LHandler);;
  closed ← isClosed;
  (if (closed : bool) then mret tt
   else
     consumer ← do_ OConsumer;
     if consumer =? nilp then wsTMQErrorMsg 65535 (str "tmq not init") action reqID None
     else
       r ← wrapperUnsubscribe;
       match r with
       | None => mret tt
       | Some errCode =>
         if negb (errCode =? 0) then respond_code errCode action reqID None
         else
           freeMessage false;;
           do_ (OUpdate (set_unsubscribed true));;
           respond_ok action reqID
       end);;
  do_ (OUnlock LHandler).

(** ** Polling *)

(** What follows unless there is no consumer. *)
Definition with_consumer (error : bytes -> prog unit) (next : prog unit) : prog unit :=
  consumer ← do_ OConsumer;
  if consumer =? nilp then error (str "tmq not init") else next.

(** The answer of an asynchronous call: nothing when the session is closed, an error for a code. *)
Definition with_code (r : option Z) (action : bytes) (reqID : Z) (next : prog unit) : prog unit :=
  match r with
  | None => mret tt
  | Some code => if negb (code =? 0) then respond_code code action reqID None else next
  end.

Definition commit (reqID messageID : Z) : prog unit :=
  let action := str "commit" in
  with_consumer (fun msg => wsTMQErrorMsg 65535 msg action reqID None) (
    r ← wrapperCommit;
    with_code r action reqID (t ← GetDuration; send (CommitResp action reqID t messageID))).

Definition TMQ_RES_DATA : Z := 1.
Definition TMQ_RES_TABLE_META : Z := 2.
Definition TMQ_RES_METADATA : Z := 3.
Definition canGetData (messageType : Z) : bool := (messageType =? TMQ_RES_DATA) || (messageType =? TMQ_RES_METADATA).
Definition messageTypeIsValid (messageType : Z) : bool :=
  (messageType =? TMQ_RES_DATA) || (messageType =? TMQ_RES_TABLE_META) || (messageType =? TMQ_RES_METADATA).

(** The commit before a poll; [false] when the session is closed. *)
Definition auto_commit : prog bool :=
  now ← call_ C_Now;
  st ← do_ OSettings;
  if isAutoCommit st && match nextTime st with None => true | Some t => t <? now end then
    r ← wrapperCommit;
    match r with
    | None => mret false
    | Some errCode =>
      log_error errCode;;
      st ← do_ OSettings;
      do_ (OUpdate (set_nextTime (Some (now + autocommitInterval st))));;
      mret true
    end
  else mret true.

(** A message of a known type becomes the last message, in place of the old one. *)
Definition keep_message (message messageType : Z) (action : bytes) (reqID : Z) : prog unit :=
  do_ (OLock LMessage);;
  m ← do_ OReadMsg;
  closed ← (if negb (CPointer m =? nilp) then wrapperFreeResult else mret false);
  (if (closed : bool) then call_ (C_FreeResult message)
   else
     let index := u64 (Index m + 1) in
     topic ← call_ (C_TMQGetTopicName message);
     vgroupID ← call_ (C_TMQGetVgroupID message);
     offset ← call_ (C_TMQGetVgroupOffset message);
     do_ (OWriteMsg (mkMessage index topic vgroupID offset messageType message (buffer m)));;
     db ← call_ (C_TMQGetDBName message);
     t ← GetDuration;
     send (PollResp action reqID t (Some (topic, db, vgroupID, messageType, index, offset))));;
  do_ (OUnlock LMessage).

Definition poll (reqID blockingTime : Z) : prog unit :=
  let action := str "poll" in
  with_consumer (fun msg => wsTMQErrorMsg 65535 msg action reqID None) (
    go ← auto_commit;
    if negb go then mret tt
    else
      r ← wrapperPoll blockingTime;
      let message := default nilp r in
      if message =? nilp then t ← GetDuration; send (PollResp action reqID t None)
      else
        messageType ← call_ (C_TMQGetResType message);
        if messageTypeIsValid messageType then keep_message message messageType action reqID
        else
          call_ (C_FreeResult message);;
          wsTMQErrorMsg 65535 (str "unavailable tmq type:" ++ Itoa messageType) action reqID None).

(** ** Fetching *)

(** The last message under its lock, when its identifier is [messageID]. *)
Definition with_message (error : bytes -> prog unit) (unequal : bytes) (messageID : Z) (body : Message -> prog unit) : prog unit :=
  with_consumer error (
    do_ (OLock LMessage);;
    m ← do_ OReadMsg;
    (if CPointer m =? nilp then error (str "message has been freed")
     else if negb (Index m =? messageID) then error unequal
     else body m);;
    do_ (OUnlock LMessage)).

Definition fetch (reqID messageID : Z) : prog unit :=
  let action := str "fetch" in
  let error msg := wsTMQErrorMsg 65535 msg action reqID (Some messageID) in
  with_message error (str "message ID are not equal") messageID (fun m =>
    if negb (canGetData (MType m)) then error (str "message type is not data")
    else
      r ← wrapperFetchRawBlock (CPointer m);
      match r with
      | None => mret tt
      | Some (errCode, blockSize, block) =>
        if negb (errCode =? 0) then respond_code errCode action reqID (Some messageID)
        else if blockSize =? 0 then send (FetchResp action reqID 0 messageID None)
        else
          tableName ← call_ (C_TMQGetTableName (CPointer m));
          fieldsCount ← call_ (C_TaosNumFields (CPointer m));
          rowsHeader ← call_ (C_TaosFetchFields (CPointer m) fieldsCount);
          precision ← call_ (C_TaosResultPrecision (CPointer m));
          mem ← call_ (C_BlockMemory (CPointer m) block);
          blockLength ← lift (RawBlockGetLength mem 0);
          data ← lift (if blockLength <? 0 then Panic else load mem 0 blockLength);
          b ← fill (buffer m) (le_bytes 8 0 ++ le_bytes 8 reqID ++ le_bytes 8 messageID ++ data);
          do_ (OWriteMsg (set_buffer m b));;
          t ← GetDuration;
          send (FetchResp action reqID t messageID (Some (tableName, blockSize, fieldsCount, rowsHeader, precision)))
      end).

Definition fetchBlock (reqID messageID : Z) : prog unit :=
  let action := str "fetch_block" in
  let error msg := wsTMQErrorMsg 65535 msg action reqID (Some messageID) in
  with_message error (str "message is nil") messageID (fun m =>
    if negb (canGetData (MType m)) then error (str "message type is not data")
    else
      match buffer m with
      | None => error (str "no fetch data")
      | Some (b, n) =>
        if n =? 0 then error (str "no fetch data")
        else
          t ← GetDuration;
          do_ (OFillBuf b (le_bytes 8 (u64 t)));;
          send (BufferResp (buffer m))
      end).

Definition fetchRawBlock (reqID messageID : Z) : prog unit :=
  let action := str "fetch_raw" in
  let error msg := wsTMQErrorMsg 65535 msg action reqID (Some messageID) in
  with_message error (str "message ID is not equal") messageID (fun m =>
    rawData ← call_ C_InitTMQRaw;
    r ← wrapperGetRaw (CPointer m) rawData;
    match r with
    | None => mret tt
    | Some errCode =>
      if negb (errCode =? 0) then respond_code errCode action reqID (Some messageID)
      else
        x ← call_ (C_ParseRawMeta rawData);
        let '(length, metaType, mem) := x in
        t ← GetDuration;
        data ← lift (load mem 0 length);
        b ← fill (buffer m) (le_bytes 8 (u64 t) ++ le_bytes 8 reqID ++ le_bytes 8 messageID ++
               le_bytes 8 TMQRawMessage ++ le_bytes 4 length ++ le_bytes 2 metaType ++ data);
        do_ (OWriteMsg (set_buffer m b));;
        call_ (C_TMQFreeRaw rawData);;
        send (BufferResp b)
    end;;
    call_ (C_FreeTMQRaw rawData)).

Definition fetchRawBlockNew (reqID messageID : Z) : prog unit :=
  let error code msg := tmqFetchRawBlockErrorMsg code msg reqID messageID in
  with_message (error 65535) (str "message ID is not equal") messageID (fun m =>
    rawData ← call_ C_InitTMQRaw;
    r ← wrapperGetRaw (CPointer m) rawData;
    match r with
    | None => mret tt
    | Some errCode =>
      if negb (errCode =? 0) then errStr ← call_ (C_TMQErr2Str errCode); error errCode errStr
      else
        x ← call_ (C_ParseRawMeta rawData);
        let '(length, metaType, mem) := x in
        b ← wsFetchRawBlockMessage (buffer m) reqID messageID metaType length mem;
        do_ (OWriteMsg (set_buffer m b));;
        call_ (C_TMQFreeRaw rawData);;
        send (BufferResp b)
    end;;
    call_ (C_FreeTMQRaw rawData)).

(** The bytes before the first zero; [Crash] when there is none. *)
Fixpoint c_string (m : mem) : prog bytes :=
  match m with
  | [] => Crash
  | c :: m => if c =? 0 then mret [] else s ← c_string m; mret (c :: s)
  end.

Definition fetchJsonMeta (reqID messageID : Z) : prog unit :=
  let action := str "fetch_json_meta" in
  let error msg := wsTMQErrorMsg 65535 msg action reqID (Some messageID) in
  with_message error (str "message ID is not equal") messageID (fun m =>
    r ← wrapperGetJsonMeta (CPointer m);
    match r with
    | None => mret tt
    | Some jsonMeta =>
      data ← (if jsonMeta =? nilp then mret None
              else mem ← call_ (C_JsonMeta jsonMeta);
                   s ← c_string mem; mret (if bool_decide (s = []) then None else Some s));
      call_ (C_TMQFreeJsonMeta jsonMeta);;
      t ← GetDuration;
      send (JsonMetaResp action reqID t messageID data)
    end).

(** ** Positions *)

Definition assignment (reqID : Z) (topic : bytes) : prog unit :=
  let action := str "assignment" in
  with_consumer (fun msg => wsTMQErrorMsg 65535 msg action reqID None) (
    r ← wrapperGetTopicAssignment topic;
    match r with
    | None => mret tt
    | Some (code, assignment) =>
      if negb (code =? 0) then respond_code code action reqID None
      else t ← GetDuration; send (AssignmentResp action reqID t assignment)
    end).

Definition offsetSeek (reqID : Z) (topic : bytes) (vgroupID offset : Z) : prog unit :=
  let action := str "seek" in
  with_consumer (fun msg => wsTMQErrorMsg 65535 msg action reqID None) (
    r ← wrapperOffsetSeek topic vgroupID offset;
    with_code r action reqID (respond_ok action reqID)).

(** The loops of [committed] and [position] over the topics and vgroups. *)
Fixpoint offsets_of (get : bytes -> Z -> prog (option Z)) (action : bytes) (reqID : Z) (l : list (bytes * Z))
    (offsets : list Z) : prog unit :=
  match l with
  | [] => t ← GetDuration; send (OffsetsResp action reqID t offsets)
  | (topic, vgroupID) :: l =>
    r ← get topic vgroupID;
    match r with
    | None => mret tt
    | Some res =>
      if (res <? 0) && negb (res =? OffsetInvalid) then
        errStr ← call_ (C_TMQErr2Str (i32 res)); wsTMQErrorMsg res errStr action reqID None
      else offsets_of get action reqID l (offsets ++ [res])
    end
  end.
Definition committed (reqID : Z) (l : list (bytes * Z)) : prog unit :=
  let action := str "committed" in
  with_consumer (fun msg => wsTMQErrorMsg 65535 msg action reqID None) (offsets_of wrapperCommitted action reqID l []).
Definition position (reqID : Z) (l : list (bytes * Z)) : prog unit :=
  let action := str "position" in
  with_consumer (fun msg => wsTMQErrorMsg 65535 msg action reqID None) (offsets_of wrapperPosition action reqID l []).

Definition listTopics (reqID : Z) : prog unit :=
  let action := str "list_topics" in
  with_consumer (fun msg => wsTMQErrorMsg 65535 msg action reqID None) (
    closed ← isClosed;
    if (closed : bool) then mret tt
    else
      closed ← isClosed;
      if (closed : bool) then mret tt
      else
        consumer ← do_ OConsumer;
        x ← call_ (C_TMQSubscription consumer);
        let '(code, topicsPointer) := x in
        (if negb (code =? 0) then respond_code code action reqID None
         else
           topics ← call_ (C_TMQListToCArray topicsPointer);
           t ← GetDuration;
           send (TopicsResp action reqID t topics));;
        call_ (C_TMQListDestroy topicsPointer)).

Definition commitOffset (reqID : Z) (topic : bytes) (vgroupID offset : Z) : prog unit :=
  let action := str "commit_offset" in
  with_consumer (fun msg => wsTMQErrorMsg 65535 msg action reqID None) (
    r ← wrapperCommitOffset topic vgroupID offset;
    with_code r action reqID (t ← GetDuration; send (CommitOffsetResp action reqID t topic vgroupID offset))).

(** ** Messages *)

Inductive request :=
| Version
| Subscribe (req : TMQSubscribeReq)
| Poll (reqID blockingTime : Z)
| Fetch (reqID messageID : Z)
| FetchBlock (reqID messageID : Z)
| Commit (reqID messageID : Z)
| FetchJsonMeta (reqID messageID : Z)
| FetchRaw (reqID messageID : Z)
| FetchRawNew (reqID messageID : Z)
| Unsubscribe (reqID : Z)
| GetTopicAssignment (reqID : Z) (topic : bytes)
| Seek (reqID : Z) (topic : bytes) (vgroupID offset : Z)
| Committed (reqID : Z) (l : list (bytes * Z))
| Position (reqID : Z) (l : list (bytes * Z))
| ListTopics (reqID : Z)
| CommitOffset (reqID : Z) (topic : bytes) (vgroupID offset : Z)
| Unknown.

(** The unmarshalling of a message; [None] when it fails. *)
Context (unmarshal : bytes -> option request).

Definition dispatch (r : request) : prog unit :=
  match r with
  | Version => send VersionResp
  | Subscribe req => subscribe req
  | Poll reqID blockingTime => poll reqID blockingTime
  | Fetch reqID messageID => fetch reqID messageID
  | FetchBlock reqID messageID => fetchBlock reqID messageID
  | Commit reqID messageID => commit reqID messageID
  | FetchJsonMeta reqID messageID => fetchJsonMeta reqID messageID
  | FetchRaw reqID messageID => fetchRawBlock reqID messageID
  | FetchRawNew reqID messageID => fetchRawBlockNew reqID messageID
  | Unsubscribe reqID => unsubscribe reqID
  | GetTopicAssignment reqID topic => assignment reqID topic
  | Seek reqID topic vgroupID offset => offsetSeek reqID topic vgroupID offset
  | Committed reqID l => committed reqID l
  | Position reqID l => position reqID l
  | ListTopics reqID => listTopics reqID
  | CommitOffset reqID topic vgroupID offset => commitOffset reqID topic vgroupID offset
  | Unknown => mret tt
  end.

(** The goroutine of a message. *)
Definition HandleMessage (data : bytes) : prog bool :=
  closed ← isClosed;
  (if (closed : bool) then mret tt
   else match unmarshal data with None => mret tt | Some r => dispatch r end);;
  do_ OWaitDone;;
  mret false.

Definition HandleClose : prog bool := Close;; mret false.

End Session.
End TmqHandlers.
