(* ===== verification/TmqLogic.v ===== *)
(** * TmqLogic: a program logic for the goroutines of a TMQ session

    As in [WsLogic]: what a goroutine knows at a point of its program (the locks it holds, with the
    message the one of them protects, what it has to give back), [pre] for what an operation needs
    and tells, [wp] for programs, [holds] for when the knowledge is right, [other] for what the steps
    of others leave alone, [inv] for the shared state, and the soundness of every operation. *)
From S2P Require Import Prelude Common Rest WsProg TmqProg.
From stdpp Require Import gmap sets.
#[local] Open Scope Z_scope.

Module TmqLogic.
Import TmqWs.

(** ** What a goroutine knows *)

Record know := mkKnow {
  k_handler : bool;          (* holds the lock of the handler *)
  k_hopen : bool;            (* ... and saw under it that the session is open *)
  k_hcons : option ptr;      (* ... and read [t.consumer] *)
  k_msg : option Message;    (* holds the lock of the last message, which is this *)
  k_async : bool;            (* holds the lock of the asynchronous calls *)
  k_flight : gset res;       (* what it has to give back *)
  k_conns : gmap ptr ptr;    (* connections and their consumers *)
  k_bufs : gset nat;
  k_counted : bool;          (* counted by [t.wg] *)
  k_open : bool;             (* ... and found the session open *)
  k_consumer : option ptr;   (* the last reading of [t.consumer] *)
  k_seen : bool;             (* saw that the session is closed *)
  k_closing : bool;          (* has marked the session as closed *)
  k_drained : bool;          (* ... and waited for the counted goroutines *)
  k_emptied : bool }.        (* ... and freed the last message *)

Definition k_init (counted : bool) : know :=
  mkKnow false false None None false ∅ ∅ ∅ counted false None false false false false.

Definition with_handler b K := mkKnow b false None (k_msg K) (k_async K) (k_flight K) (k_conns K) (k_bufs K) (k_counted K) (k_open K) (k_consumer K) (k_seen K) (k_closing K) (k_drained K) (k_emptied K).
Definition with_hopen x K := mkKnow (k_handler K) x (k_hcons K) (k_msg K) (k_async K) (k_flight K) (k_conns K) (k_bufs K) (k_counted K) (k_open K) (k_consumer K) (k_seen K) (k_closing K) (k_drained K) (k_emptied K).
Definition with_hcons x K := mkKnow (k_handler K) (k_hopen K) x (k_msg K) (k_async K) (k_flight K) (k_conns K) (k_bufs K) (k_counted K) (k_open K) (k_consumer K) (k_seen K) (k_closing K) (k_drained K) (k_emptied K).
Definition with_msg x K := mkKnow (k_handler K) (k_hopen K) (k_hcons K) x (k_async K) (k_flight K) (k_conns K) (k_bufs K) (k_counted K) (k_open K) (k_consumer K) (k_seen K) (k_closing K) (k_drained K) (k_emptied K).
Definition with_async x K := mkKnow (k_handler K) (k_hopen K) (k_hcons K) (k_msg K) x (k_flight K) (k_conns K) (k_bufs K) (k_counted K) (k_open K) (k_consumer K) (k_seen K) (k_closing K) (k_drained K) (k_emptied K).
Definition with_flight x K := mkKnow (k_handler K) (k_hopen K) (k_hcons K) (k_msg K) (k_async K) x (k_conns K) (k_bufs K) (k_counted K) (k_open K) (k_consumer K) (k_seen K) (k_closing K) (k_drained K) (k_emptied K).
Definition with_conns x K := mkKnow (k_handler K) (k_hopen K) (k_hcons K) (k_msg K) (k_async K) (k_flight K) x (k_bufs K) (k_counted K) (k_open K) (k_consumer K) (k_seen K) (k_closing K) (k_drained K) (k_emptied K).
Definition with_bufs x K := mkKnow (k_handler K) (k_hopen K) (k_hcons K) (k_msg K) (k_async K) (k_flight K) (k_conns K) x (k_counted K) (k_open K) (k_consumer K) (k_seen K) (k_closing K) (k_drained K) (k_emptied K).
Definition with_reading x K := mkKnow (k_handler K) (k_hopen K) (k_hcons K) (k_msg K) (k_async K) (k_flight K) (k_conns K) (k_bufs K) (k_counted K) (k_open K) x (k_seen K) (k_closing K) (k_drained K) (k_emptied K).
Definition with_seen x K := mkKnow (k_handler K) (k_hopen K) (k_hcons K) (k_msg K) (k_async K) (k_flight K) (k_conns K) (k_bufs K) (k_counted K) (k_open K) (k_consumer K) x (k_closing K) (k_drained K) (k_emptied K).
Definition with_closing x K := mkKnow (k_handler K) (k_hopen K) (k_hcons K) (k_msg K) (k_async K) (k_flight K) (k_conns K) (k_bufs K) (k_counted K) (k_open K) (k_consumer K) (k_seen K) x (k_drained K) (k_emptied K).
Definition with_drained x K := mkKnow (k_handler K) (k_hopen K) (k_hcons K) (k_msg K) (k_async K) (k_flight K) (k_conns K) (k_bufs K) (k_counted K) (k_open K) (k_consumer K) (k_seen K) (k_closing K) x (k_emptied K).
Definition with_emptied x K := mkKnow (k_handler K) (k_hopen K) (k_hcons K) (k_msg K) (k_async K) (k_flight K) (k_conns K) (k_bufs K) (k_counted K) (k_open K) (k_consumer K) (k_seen K) (k_closing K) (k_drained K) x.
Definition with_counted b o K := mkKnow (k_handler K) (k_hopen K) (k_hcons K) (k_msg K) (k_async K) (k_flight K) (k_conns K) (k_bufs K) b o (k_consumer K) (k_seen K) (k_closing K) (k_drained K) (k_emptied K).

(** ** What an operation needs and tells *)

Definition res_set (m : Message) : gset res := list_to_set (resources m).
Definition buf_of (m : Message) : gset nat := match buffer m with Some (b, _) => {[b]} | None => ∅ end.

(** The thread, the handler and the consumer of the session are there for a counted goroutine that
    found the session open, and for one that did so under the lock of the handler. *)
Definition session_usable (K : know) : Prop :=
  (k_counted K = true /\ k_open K = true) \/ (k_handler K = true /\ k_hopen K = true).
Definition known (K : know) (q : ptr) : Prop :=
  k_consumer K = Some q \/ (k_handler K = true /\ k_hcons K = Some q).
Definition consumer_usable (K : know) (q : ptr) : Prop := (KConsumer, q) ∈ k_flight K \/ (session_usable K /\ known K q).

Definition permitted (K : know) (r : res) : Prop :=
  snd r = nilp \/ (fst r <> KConn /\ r ∈ k_flight K) \/
  (session_usable K /\ (r = the_thread \/ r = the_handler)) \/
  (fst r = KConsumer /\ consumer_usable K (snd r)) \/
  (fst r = KConn /\ exists q, k_conns K !! snd r = Some q /\ q <> nilp /\ consumer_usable K q).

Definition res_opt (r : option res) : gset res :=
  match r with Some r => if snd r =? nilp then ∅ else {[r]} | None => ∅ end.
Definition after_answer {X} (K : know) (c : call X) (x : X) : know :=
  with_conns (match conn_of c x with Some (p, q) => <[p := q]> (k_conns K) | None => k_conns K end)
    (with_flight ((match conn_of c x with Some _ => ∅ | None => res_opt (allocs c x) end) ∪ k_flight K) K).

(** The consumer is unsubscribed only while the session is open. *)
Definition only_open {X} (c : call X) : bool := match c with A_Unsubscribe _ => true | _ => false end.

(** What is left of a call once it has started. *)
Definition pending {X} (K : know) (c : call X) (Q : X -> know -> Prop) : Prop :=
  (forall r, r ∈ uses c -> frees c = Some r \/ permitted K r) /\
  (is_async c = true -> k_async K = true) /\
  forall x, answer_ok c x = true -> (conn_of c x = None -> res_opt (allocs c x) ## k_flight K) -> Q x (after_answer K c x).

Definition pre (K : know) {X} (e : op X) : (X -> know -> Prop) -> Prop :=
  match e in op X return (X -> know -> Prop) -> Prop with
  | OLock LHandler => fun Q => k_handler K = false /\ Q tt (with_handler true K)
  | OUnlock LHandler => fun Q => k_handler K = true /\ k_closing K = false /\ Q tt (with_handler false K)
  | OLock LMessage => fun Q => k_msg K = None /\
      forall m, res_set m ## k_flight K ->
        Q tt (with_bufs (buf_of m ∪ k_bufs K) (with_flight (res_set m ∪ k_flight K) (with_msg (Some m) K)))
  | OUnlock LMessage => fun Q => exists m, k_msg K = Some m /\ res_set m ⊆ k_flight K /\
      Q tt (with_emptied (k_emptied K || (k_closing K && k_drained K && (CPointer m =? nilp)))
           (with_flight (k_flight K ∖ res_set m) (with_msg None K)))
  | OLock LAsync => fun Q => k_async K = false /\ Q tt (with_async true K)
  | OUnlock LAsync => fun Q => k_async K = true /\ Q tt (with_async false K)
  | OIsClosed => fun Q =>
      (k_handler K && k_hopen K = false -> Q true (with_seen true K)) /\
      (k_seen K = false -> Q false (with_hopen (k_handler K) (with_counted (k_counted K) (k_counted K) K)))
  | OSetClosed => fun Q => k_handler K = true /\ k_hopen K = true /\
      Q tt (with_closing true (with_drained false (with_seen true (with_hopen false K))))
  | OWaitAll => fun Q => k_closing K = true /\ k_drained K = false /\ k_counted K = false /\
      forall q, (forall q', k_hcons K = Some q' -> q = q') ->
        list_to_set (the_thread :: the_handler :: (if q =? nilp then [] else [(KConsumer, q)])) ## k_flight K ->
        Q tt (with_drained true (with_hcons (Some q) (with_flight
          (list_to_set (the_thread :: the_handler :: (if q =? nilp then [] else [(KConsumer, q)])) ∪ k_flight K) K)))
  | OWaitDone => fun Q => k_counted K = true /\ Q tt (with_counted false false K)
  | OCloseExit => fun Q => k_closing K = true /\ k_emptied K = true /\ Q tt (with_closing false (with_drained false K))
  | OConsumer => fun Q => forall q, (k_handler K = true -> forall q', k_hcons K = Some q' -> q = q') ->
      Q q (with_reading (Some q) (with_hcons (if k_handler K then Some q else k_hcons K) K))
  | OConn => fun Q => k_handler K = true /\ forall c q, (forall q', k_hcons K = Some q' -> q = q') -> (c <> nilp -> q <> nilp) ->
      Q c (with_hcons (Some q) (with_conns (if c =? nilp then k_conns K else <[c := q]> (k_conns K)) K))
  | OSetConsumer c q => fun Q => k_handler K = true /\ k_hopen K = true /\ k_hcons K = Some nilp /\ q <> nilp /\
      (KConsumer, q) ∈ k_flight K /\ (c = nilp \/ k_conns K !! c = Some q) /\
      Q tt (with_flight (k_flight K ∖ {[(KConsumer, q)]}) (with_hcons (Some q) K))
  | OSettings => fun Q => forall s, Q s K
  | OUpdate _ => fun Q => Q tt K
  | OReadMsg => fun Q => exists m, k_msg K = Some m /\ Q m K
  | OWriteMsg m' => fun Q => exists m, k_msg K = Some m /\ buf_of m' ⊆ k_bufs K /\
      (resources m' = [] \/ resources m' = resources m \/ (k_counted K = true /\ k_open K = true)) /\
      Q tt (with_msg (Some m') K)
  | OMakeBuf _ => fun Q => forall b, Q b (with_bufs ({[b]} ∪ k_bufs K) K)
  | OCapBuf b => fun Q => b ∈ k_bufs K /\ forall c, Q c K
  | OFillBuf b _ => fun Q => b ∈ k_bufs K /\ Q tt K
  | OSend _ => fun Q => Q tt K
  | OGoWaitSignal => fun Q => Q tt K
  | OPutHandles => fun Q => Q tt K
  | OCall c => fun Q => (forall r, r ∈ uses c -> permitted K r) /\
      (only_open c = true -> k_handler K = true /\ k_hopen K = true) /\
      (forall r, frees c = Some r -> snd r = nilp \/ r ∈ k_flight K) /\
      pending (with_flight (k_flight K ∖ res_opt (frees c)) K) c Q
  end.

(** At its end a goroutine holds nothing and has given everything back. *)
Definition final (K : know) : Prop :=
  k_handler K = false /\ k_msg K = None /\ k_async K = false /\ k_flight K = ∅ /\
  k_counted K = false /\ k_closing K = false.

Fixpoint wp {A} (Q : A -> know -> Prop) (K : know) (p : prog A) : Prop :=
  match p with
  | Done a => Q a K
  | Crash => True
  | Vis e k => pre K e (fun x K' => wp Q K' (k x))
  end.

(** ** When the knowledge is right *)

Record holds (i : nat) (K : know) (w : world) : Prop := mkHolds {
  h_handler : w_lock w LHandler = Some i <-> k_handler K = true;
  h_hopen : k_handler K = true -> k_hopen K = true -> w_closed w = false;
  h_hcons : k_handler K = true -> forall q, k_hcons K = Some q -> w_consumer w = q;
  h_mlock : w_lock w LMessage = Some i <-> k_msg K <> None;
  h_msg : forall m, k_msg K = Some m -> w_msg w = m;
  h_async : w_lock w LAsync = Some i <-> k_async K = true;
  h_flight : forall r, w_live w !! r = Some (Goroutine i) <-> r ∈ k_flight K;
  h_conns : forall c q, k_conns K !! c = Some q -> w_conns w !! c = Some q;
  h_bufs : forall b, b ∈ k_bufs K -> (b < length (w_bufs w))%nat;
  h_counted : i ∈ w_wait w <-> k_counted K = true;
  h_open : k_counted K = true -> k_open K = true -> w_drained w = false;
  h_consumer : forall q, k_consumer K = Some q -> q <> nilp -> w_consumer w = q;
  h_seen : k_seen K = true -> w_closed w = true;
  h_closing : k_closing K = true ->
    k_handler K = true /\ w_closed w = true /\ w_exit w = false /\ w_drained w = k_drained K;
  h_emptied : k_emptied K = true -> w_drained w = true /\ CPointer (w_msg w) = nilp }.

(** What a step of another goroutine leaves alone for goroutine [j]. *)
Record other (j : nat) (w w' : world) : Prop := mkOther {
  o_lock : forall l, w_lock w' l = Some j <-> w_lock w l = Some j;
  o_handler : w_lock w LHandler = Some j -> w_closed w' = w_closed w /\ w_consumer w' = w_consumer w /\
    w_exit w' = w_exit w /\ w_drained w' = w_drained w;
  o_msg : w_lock w LMessage = Some j -> w_msg w' = w_msg w;
  o_flight : forall r, w_live w' !! r = Some (Goroutine j) <-> w_live w !! r = Some (Goroutine j);
  o_conns : forall c q, w_conns w !! c = Some q -> w_conns w' !! c = Some q;
  o_bufs : (length (w_bufs w) <= length (w_bufs w'))%nat;
  o_counted : j ∈ w_wait w' <-> j ∈ w_wait w;
  o_open : j ∈ w_wait w -> w_drained w = false -> w_drained w' = false;
  o_consumer : w_consumer w <> nilp -> w_consumer w' = w_consumer w;
  o_closed : w_closed w = true -> w_closed w' = true;
  o_emptied : w_drained w = true -> CPointer (w_msg w) = nilp -> w_drained w' = true /\ CPointer (w_msg w') = nilp }.

Lemma tmq_holds_other j K w w' : holds j K w -> other j w w' -> holds j K w'.
Proof.
  intros H O. constructor.
  - rewrite (o_lock _ _ _ O). apply H.
  - intros Hl Ho. destruct (o_handler _ _ _ O) as [-> _]; [by apply H|]. by apply (h_hopen _ _ _ H).
  - intros Hl q Hq. destruct (o_handler _ _ _ O) as (_ & -> & _); [by apply H|]. by apply (h_hcons _ _ _ H).
  - rewrite (o_lock _ _ _ O). apply H.
  - intros m Hm. rewrite (o_msg _ _ _ O); [by apply H|]. apply (h_mlock _ _ _ H). by rewrite Hm.
  - rewrite (o_lock _ _ _ O). apply H.
  - intros r. rewrite (o_flight _ _ _ O). apply H.
  - intros c q Hc. by apply (o_conns _ _ _ O), (h_conns _ _ _ H).
  - intros b Hb. pose proof (o_bufs _ _ _ O). pose proof (h_bufs _ _ _ H b Hb). lia.
  - rewrite (o_counted _ _ _ O). apply H.
  - intros Hc Ho. apply (o_open _ _ _ O); [by apply H|by apply (h_open _ _ _ H)].
  - intros q Hq Hn. pose proof (h_consumer _ _ _ H q Hq Hn) as E. rewrite (o_consumer _ _ _ O); by rewrite E.
  - intros Hs. by apply (o_closed _ _ _ O), (h_seen _ _ _ H).
  - intros Hc. destruct (h_closing _ _ _ H Hc) as (Hl & E1 & E2 & E3).
    destruct (o_handler _ _ _ O) as (-> & _ & -> & ->); [by apply H|]. done.
  - intros He. destruct (h_emptied _ _ _ H He). by apply (o_emptied _ _ _ O).
Qed.

(** ** The invariant of the shared state *)

Record inv (w : world) : Prop := mkInv {
  i_slot : w_lock w LMessage = None -> forall r, r ∈ resources (w_msg w) -> w_live w !! r = Some Slot;
  i_slot_only : forall r, w_live w !! r = Some Slot -> w_lock w LMessage = None /\ r ∈ resources (w_msg w);
  i_session : w_drained w = false -> forall r, r ∈ belongings w -> w_live w !! r = Some Session;
  i_session_only : forall r, w_live w !! r = Some Session -> w_drained w = false /\ r ∈ belongings w;
  i_conn : w_conn w <> nilp -> w_conns w !! w_conn w = Some (w_consumer w) /\ w_consumer w <> nilp;
  i_drained : w_drained w = true -> w_closed w = true;
  i_exit : w_exit w = true -> w_drained w = true /\ CPointer (w_msg w) = nilp;
  i_ever : forall r, is_Some (w_live w !! r) -> r ∈ w_ever w;
  i_nonnil : forall r, is_Some (w_live w !! r) -> snd r <> nilp;
  i_buf : forall b n, buffer (w_msg w) = Some (b, n) -> (b < length (w_bufs w))%nat }.

Definition good {X} (i : nat) (w : world) (Q : X -> know -> Prop) (r : outcome (X * world)) : Prop :=
  match r with
  | Ok (x, w') => inv w' /\ (exists K', Q x K' /\ holds i K' w') /\ forall j, j <> i -> other j w w'
  | Bad => False
  | _ => True
  end.

Lemma tmq_other_refl j w : other j w w.
Proof. by constructor. Qed.

Lemma tmq_mine i l : mine i l = true <-> l = Some i.
Proof. destruct l as [j|]; cbn; [|done]. rewrite Nat.eqb_eq. split; [by intros ->|by intros [= ->]]. Qed.

Lemma tmq_lookup_hand (l : list res) (x : owner) (m : gmap res owner) (r : res) :
  hand l x m !! r = if decide (r ∈ l) then (fun _ => x) <$> m !! r else m !! r.
Proof.
  induction l as [|y l IH]; [by rewrite decide_False by apply not_elem_of_nil|].
  change (hand (y :: l) x m) with (alter (fun _ => x) y (hand l x m)). destruct (decide (r = y)) as [->|Hr].
  - rewrite lookup_alter_eq, IH, (decide_True _ _ (list_elem_of_here y l)). case_decide; [|done]. by destruct (m !! y).
  - rewrite lookup_alter_ne, IH by done. repeat case_decide; try done; set_solver.
Qed.

(** ** One operation keeps everything right *)

#[local] Arguments hand : simpl never.
#[local] Arguments belongings : simpl never.

Section Ops.
Context (i : nat) (w : world) (K : know) (Hw : inv w) (HK : holds i K w).

(** Steps that leave what the invariant is about. *)
Lemma tmq_inv_frame w' :
  (forall l, l = LMessage -> w_lock w' l = w_lock w l) -> w_msg w' = w_msg w -> w_live w' = w_live w ->
  w_drained w' = w_drained w -> w_consumer w' = w_consumer w -> w_conn w' = w_conn w -> w_conns w' = w_conns w ->
  (w_closed w = true -> w_closed w' = true) -> w_exit w' = w_exit w -> w_ever w' = w_ever w ->
  (length (w_bufs w) <= length (w_bufs w'))%nat -> inv w'.
Proof.
  intros E1 E2 E3 E4 E5 E6 E7 E8 E9 E10 E11. specialize (E1 _ eq_refl).
  assert (Eb : belongings w' = belongings w) by (unfold belongings; by rewrite E5).
  constructor; rewrite ?E1, ?E2, ?E3, ?E4, ?E5, ?E6, ?E7, ?E9, ?E10, ?Eb; try apply Hw.
  - intros H. by apply E8, (i_drained _ Hw).
  - intros b n H. pose proof (i_buf _ Hw b n H). lia.
Qed.

Context (a : oracle).

Lemma tok_IsClosed Q : pre K OIsClosed Q -> good i w Q (exec_op i a OIsClosed w).
Proof.
  intros [Ht Hf]. cbn. destruct (w_closed w) eqn:E; (split; [done|]; split; [|intros; apply tmq_other_refl]).
  - eexists. split; [apply Ht|].
    + destruct (k_handler K) eqn:E1; [|done]. destruct (k_hopen K) eqn:E2; [|done].
      rewrite (h_hopen _ _ _ HK E1 E2) in E. done.
    + constructor; cbn; try apply HK. done.
  - eexists. split; [apply Hf|].
    + destruct (k_seen K) eqn:E1; [|done]. rewrite (h_seen _ _ _ HK E1) in E. done.
    + constructor; cbn; try apply HK; try done.
      intros Hc _. destruct (w_drained w) eqn:Ed; [|done]. by rewrite (i_drained _ Hw Ed) in E.
Qed.

Lemma tok_SetClosed Q : pre K OSetClosed Q -> good i w Q (exec_op i a OSetClosed w).
Proof.
  intros (Hl & Ho & HQ). cbn. pose proof (proj2 (h_handler _ _ _ HK) Hl) as Hm.
  pose proof (h_hopen _ _ _ HK Hl Ho) as Hc. split; [by apply tmq_inv_frame|]. split.
  - eexists. split; [exact HQ|]. constructor; cbn; try apply HK; try done. intros _. split_and!; [done|done|..].
    + destruct (w_exit w) eqn:E; [|done]. destruct (i_exit _ Hw E) as [Hd%(i_drained _ Hw) _]. congruence.
    + destruct (w_drained w) eqn:E; [|done]. apply (i_drained _ Hw) in E. congruence.
  - intros j Hj. constructor; cbn; try done. rewrite Hm. congruence.
Qed.

Lemma tok_WaitAll Q : pre K OWaitAll Q -> good i w Q (exec_op i a OWaitAll w).
Proof.
  intros (Hc & Hd & Hn & HQ). cbn. destruct (w_wait w) eqn:Ew; [|done].
  destruct (h_closing _ _ _ HK Hc) as (Hl & Hcl & He & Ed). rewrite Hd in Ed.
  pose proof (proj2 (h_handler _ _ _ HK) Hl) as Hm.
  assert (Hb : forall r, r ∈ belongings w -> w_live w !! r = Some Session) by (by apply (i_session _ Hw)).
  split_and!.
  - constructor; cbn; try apply Hw.
    + intros Hlm r Hr. rewrite tmq_lookup_hand. pose proof (i_slot _ Hw Hlm r Hr) as E. rewrite decide_False; [done|].
      intros Hr'%Hb. congruence.
    + intros r. rewrite tmq_lookup_hand. case_decide as Hr; [rewrite (Hb r Hr); done|]. apply Hw.
    + done.
    + intros r. rewrite tmq_lookup_hand. case_decide as Hr; [rewrite (Hb r Hr); done|]. intros [_ ?]%(i_session_only _ Hw). done.
    + done.
    + intros [Hx _]%(i_exit _ Hw). congruence.
    + intros r Hr. apply (i_ever _ Hw). rewrite tmq_lookup_hand in Hr. case_decide; [|done]. by rewrite fmap_is_Some in Hr.
    + intros r Hr. apply (i_nonnil _ Hw). rewrite tmq_lookup_hand in Hr. case_decide; [|done]. by rewrite fmap_is_Some in Hr.
  - assert (Hfl : forall r, r ∈ belongings w -> r ∉ k_flight K).
    { intros r Hr Hr'. apply (h_flight _ _ _ HK) in Hr'. rewrite (Hb r Hr) in Hr'. done. }
    eexists. split; [apply (HQ (w_consumer w))|].
    + intros q' Hq'. by apply (h_hcons _ _ _ HK).
    + intros r Hr%elem_of_list_to_set. by apply Hfl.
    + constructor; cbn -[list_to_set]; try apply HK; try done; try congruence.
      * intros r. rewrite tmq_lookup_hand, elem_of_union, elem_of_list_to_set, <- (h_flight _ _ _ HK).
        change (the_thread :: the_handler :: _) with (belongings w).
        case_decide as Hr; [rewrite (Hb r Hr); cbn|]; naive_solver.
      * intros He'. destruct (h_emptied _ _ _ HK He'). congruence.
  - intros j Hj. constructor; cbn; try done.
    + intros Hlj. congruence.
    + intros r. rewrite tmq_lookup_hand. case_decide as Hr; [|done]. rewrite (Hb r Hr). cbn. split; [congruence|done].
    + rewrite Ew. by intros ?%not_elem_of_nil.
Qed.

Lemma tok_WaitDone Q : pre K OWaitDone Q -> good i w Q (exec_op i a OWaitDone w).
Proof.
  intros (Hc & HQ). cbn. split; [by apply tmq_inv_frame|]. split.
  - eexists. split; [exact HQ|]. constructor; cbn; try apply HK; try done.
    split; [|done]. intros [? _]%list_elem_of_filter. done.
  - intros j Hj. constructor; cbn; try done; rewrite list_elem_of_filter; naive_solver.
Qed.

Lemma tok_CloseExit Q : pre K OCloseExit Q -> good i w Q (exec_op i a OCloseExit w).
Proof.
  intros (Hc & He & HQ). destruct (h_closing _ _ _ HK Hc) as (Hl & Hcl & Hx & Hd). cbn. rewrite Hx.
  pose proof (proj2 (h_handler _ _ _ HK) Hl) as Hm. destruct (h_emptied _ _ _ HK He) as [Hd' Hp]. split; [|split].
  - constructor; cbn; try apply Hw. done.
  - eexists. split; [exact HQ|]. constructor; cbn; try apply HK; done.
  - intros j Hj. constructor; cbn; try done. rewrite Hm. congruence.
Qed.

Lemma tok_Consumer Q : pre K OConsumer Q -> good i w Q (exec_op i a OConsumer w).
Proof.
  intros HQ. cbn. split; [done|]. split; [|intros; apply tmq_other_refl]. eexists. split.
  - apply (HQ (w_consumer w)). intros Hl q Hq. by apply (h_hcons _ _ _ HK).
  - constructor; cbn; try apply HK.
    + intros Hl q. rewrite Hl. by intros [= <-].
    + by intros q [= <-].
Qed.

Lemma tok_Conn Q : pre K OConn Q -> good i w Q (exec_op i a OConn w).
Proof.
  intros (Hl & HQ). cbn. rewrite (proj2 (tmq_mine _ _) (proj2 (h_handler _ _ _ HK) Hl)).
  split; [done|]. split; [|intros; apply tmq_other_refl]. eexists. split.
  - apply (HQ (w_conn w) (w_consumer w)).
    + intros q Hq. by apply (h_hcons _ _ _ HK).
    + intros Hn. by apply (i_conn _ Hw Hn).
  - constructor; cbn; try apply HK.
    + by intros _ q [= <-].
    + destruct (Z.eqb_spec (w_conn w) nilp) as [|Hn]; [apply HK|].
      intros c q [[<- <-]|[_ H]]%lookup_insert_Some; [by apply (i_conn _ Hw)|by apply HK].
Qed.

Lemma tok_SetConsumer c q Q : pre K (OSetConsumer c q) Q -> good i w Q (exec_op i a (OSetConsumer c q) w).
Proof.
  intros (Hl & Ho & Hn & Hq & Hf & Hc & HQ). pose proof (proj2 (h_handler _ _ _ HK) Hl) as Hm. cbn [exec_op].
  rewrite (proj2 (tmq_mine _ _) Hm). pose proof (h_hcons _ _ _ HK Hl _ Hn) as Ecn.
  pose proof (proj2 (h_flight _ _ _ HK _) Hf) as Hlive.
  assert (Hd : w_drained w = false).
  { destruct (w_drained w) eqn:E; [|done]. apply (i_drained _ Hw) in E. by rewrite (h_hopen _ _ _ HK Hl Ho) in E. }
  assert (Hhand : forall r, hand [(KConsumer, q)] Session (w_live w) !! r = if decide (r = (KConsumer, q)) then Some Session else w_live w !! r).
  { intros r. rewrite tmq_lookup_hand. repeat case_decide; subst; try done.
    - by rewrite Hlive. - exfalso. set_solver. - exfalso. set_solver. }
  assert (Hbel : forall r, r ∈ belongings (set_live (hand [(KConsumer, q)] Session (w_live w)) (set_consumer c q w)) <->
    r = (KConsumer, q) \/ r ∈ belongings w).
  { intros r. unfold belongings. cbn [w_consumer set_live set_consumer]. rewrite Ecn, (proj2 (Z.eqb_neq q nilp) Hq). cbn. set_solver. }
  split_and!.
  - constructor; cbn; try apply Hw.
    + intros Hlm r Hr. rewrite Hhand. pose proof (i_slot _ Hw Hlm r Hr) as E. case_decide; [congruence|done].
    + intros r. rewrite Hhand. case_decide; [done|]. apply Hw.
    + intros _ r. rewrite Hbel, Hhand. intros [->|Hr]; [by rewrite decide_True|]. case_decide; [done|]. by apply (i_session _ Hw).
    + intros r. rewrite Hbel, Hhand. case_decide as E; [by auto|]. intros [? ?]%(i_session_only _ Hw). auto.
    + intros Hcn. destruct Hc as [?|Hc]; [done|]. split; [by apply (h_conns _ _ _ HK)|done].
    + intros r. rewrite Hhand. case_decide; subst; [|apply Hw]. intros _. apply (i_ever _ Hw). by rewrite Hlive.
    + intros r. rewrite Hhand. case_decide; subst; [done|apply Hw].
  - eexists. split; [exact HQ|]. constructor; cbn; try apply HK.
    + by intros _ q' [= <-].
    + intros r. rewrite Hhand, elem_of_difference, elem_of_singleton, <- (h_flight _ _ _ HK). case_decide; naive_solver.
    + intros q' Hq' Hn'. pose proof (h_consumer _ _ _ HK q' Hq' Hn'). congruence.
  - intros j Hj. constructor; cbn; try done.
    + rewrite Hm. congruence.
    + intros r. rewrite Hhand. case_decide as E; [subst; rewrite Hlive; split; congruence|done].
Qed.

Lemma tok_Settings Q : pre K OSettings Q -> good i w Q (exec_op i a OSettings w).
Proof. intros HQ. split; [done|]. split; [|intros; apply tmq_other_refl]. exists K. by split. Qed.

(** An operation on a field that no knowledge is about. *)
Lemma tok_frame {X} (x : X) w' (Q : X -> know -> Prop) : Q x K -> inv w' -> holds i K w' ->
  (forall j, other j w w') -> good i w Q (Ok (x, w')).
Proof. intros H1 H2 H3 H4. split; [done|]. split; [eauto|auto]. Qed.

Lemma tok_Update f Q : pre K (OUpdate f) Q -> good i w Q (exec_op i a (OUpdate f) w).
Proof. intros HQ. apply tok_frame; [done|by apply tmq_inv_frame|constructor; apply HK|by constructor]. Qed.
Lemma tok_Send m Q : pre K (OSend m) Q -> good i w Q (exec_op i a (OSend m) w).
Proof. intros HQ. apply tok_frame; [done|by apply tmq_inv_frame|constructor; apply HK|by constructor]. Qed.
Lemma tok_PutHandles Q : pre K OPutHandles Q -> good i w Q (exec_op i a OPutHandles w).
Proof. intros HQ. apply tok_frame; [done|by apply tmq_inv_frame|constructor; apply HK|by constructor]. Qed.
Lemma tok_GoWaitSignal Q : pre K OGoWaitSignal Q -> good i w Q (exec_op i a OGoWaitSignal w).
Proof. intros HQ. apply tok_frame; [done|done|done|intros; apply tmq_other_refl]. Qed.

Lemma tmq_msg_mine m : k_msg K = Some m -> mine i (w_lock w LMessage) = true /\ w_msg w = m.
Proof. intros H. split; [|by apply HK]. apply tmq_mine, (h_mlock _ _ _ HK). by rewrite H. Qed.

Lemma tok_ReadMsg Q : pre K OReadMsg Q -> good i w Q (exec_op i a OReadMsg w).
Proof.
  intros (m & Hm & HQ). destruct (tmq_msg_mine m Hm) as [E <-]. cbn. rewrite E.
  apply tok_frame; [done|done|done|intros; apply tmq_other_refl].
Qed.

Lemma tok_WriteMsg m' Q : pre K (OWriteMsg m') Q -> good i w Q (exec_op i a (OWriteMsg m') w).
Proof.
  intros (m & Hm & Hb & Hr & HQ). destruct (tmq_msg_mine m Hm) as [E <-]. cbn. rewrite E. apply tmq_mine in E.
  assert (Hp : w_drained w = true -> CPointer (w_msg w) = nilp -> CPointer m' = nilp).
  { intros Hd Hn. destruct Hr as [Hr|[Hr|[Hc Ho]]].
    - unfold resources in Hr. by destruct (Z.eqb_spec (CPointer m') nilp).
    - unfold resources in Hr. rewrite Hn in Hr. cbn in Hr. by destruct (Z.eqb_spec (CPointer m') nilp).
    - rewrite (h_open _ _ _ HK Hc Ho) in Hd. done. }
  split_and!.
  - constructor; cbn; try apply Hw.
    + rewrite E. done.
    + intros r [Hl _]%(i_slot_only _ Hw). rewrite E in Hl. done.
    + intros [Hd Hn]%(i_exit _ Hw). auto.
    + intros b n Hbn. apply (h_bufs _ _ _ HK), Hb. unfold buf_of. rewrite Hbn. set_solver.
  - eexists. split; [exact HQ|]. constructor; cbn; try apply HK.
    + split; [done|]. intros _. exact E.
    + by intros ? [= <-].
    + intros He. destruct (h_emptied _ _ _ HK He). auto.
  - intros j Hj. constructor; cbn; try done.
    + intros Hlj. congruence.
    + auto.
Qed.

Lemma tok_MakeBuf n Q : pre K (OMakeBuf n) Q -> good i w Q (exec_op i a (OMakeBuf n) w).
Proof.
  intros HQ. cbn. split; [apply tmq_inv_frame; try done; cbn; rewrite length_app; lia|]. split.
  - eexists. split; [apply HQ|]. constructor; cbn; try apply HK. rewrite length_app. cbn.
    intros b [->%elem_of_singleton|Hb]%elem_of_union; [lia|]. pose proof (h_bufs _ _ _ HK b Hb). lia.
  - intros j Hj. constructor; cbn; try done. rewrite length_app. lia.
Qed.

Lemma tok_CapBuf b Q : pre K (OCapBuf b) Q -> good i w Q (exec_op i a (OCapBuf b) w).
Proof.
  intros (Hb & HQ). apply (h_bufs _ _ _ HK), lookup_lt_is_Some_2 in Hb as [x Hx]. cbn. rewrite Hx.
  apply tok_frame; [done|done|done|intros; apply tmq_other_refl].
Qed.

Lemma tok_FillBuf b d Q : pre K (OFillBuf b d) Q -> good i w Q (exec_op i a (OFillBuf b d) w).
Proof.
  intros (Hb & HQ). apply (h_bufs _ _ _ HK), lookup_lt_is_Some_2 in Hb as [x Hx]. cbn. rewrite Hx.
  apply tok_frame; [done|apply tmq_inv_frame; try done; cbn; by rewrite length_insert| |].
  - constructor; cbn; try apply HK. rewrite length_insert. apply HK.
  - intros j. constructor; cbn; try done. by rewrite length_insert.
Qed.

(** *** Locks *)

Lemma tmq_set_lock l o l' : w_lock (set_lock l o w) l' = if decide (l' = l) then o else w_lock w l'.
Proof. done. Qed.

Lemma tok_LockHandler Q : pre K (OLock LHandler) Q -> good i w Q (exec_op i a (OLock LHandler) w).
Proof.
  intros (Hl & HQ). cbn. unfold exec_lock. destruct (w_lock w LHandler) eqn:E; [done|]. split; [by apply tmq_inv_frame; try (by intros ? ->)|]. split.
  - eexists. split; [exact HQ|]. constructor; cbn; try apply HK; try done.
    intros Hc. destruct (h_closing _ _ _ HK Hc). congruence.
  - intros j Hj. constructor; cbn; try done.
    + intros l. case_decide; subst; rewrite ?E; naive_solver.
Qed.

Lemma tok_UnlockHandler Q : pre K (OUnlock LHandler) Q -> good i w Q (exec_op i a (OUnlock LHandler) w).
Proof.
  intros (Hl & Hc & HQ). pose proof (proj2 (h_handler _ _ _ HK) Hl) as E. cbn. unfold exec_unlock. rewrite (proj2 (tmq_mine _ _) E).
  split; [by apply tmq_inv_frame; try (by intros ? ->)|]. split.
  - eexists. split; [exact HQ|]. constructor; cbn; try apply HK; try done. rewrite Hc. done.
  - intros j Hj. constructor; cbn; try done.
    intros l. case_decide; subst; rewrite ?E; naive_solver.
Qed.

Lemma tok_LockAsync Q : pre K (OLock LAsync) Q -> good i w Q (exec_op i a (OLock LAsync) w).
Proof.
  intros (Hl & HQ). cbn. unfold exec_lock. destruct (w_lock w LAsync) eqn:E; [done|]. split; [by apply tmq_inv_frame; try (by intros ? ->)|]. split.
  - eexists. split; [exact HQ|]. constructor; cbn; try apply HK; done.
  - intros j Hj. constructor; cbn; try done.
    intros l. case_decide; subst; rewrite ?E; naive_solver.
Qed.

Lemma tok_UnlockAsync Q : pre K (OUnlock LAsync) Q -> good i w Q (exec_op i a (OUnlock LAsync) w).
Proof.
  intros (Hl & HQ). pose proof (proj2 (h_async _ _ _ HK) Hl) as E. cbn. unfold exec_unlock. rewrite (proj2 (tmq_mine _ _) E).
  split; [by apply tmq_inv_frame; try (by intros ? ->)|]. split.
  - eexists. split; [exact HQ|]. constructor; cbn; try apply HK; done.
  - intros j Hj. constructor; cbn; try done.
    intros l. case_decide; subst; rewrite ?E; naive_solver.
Qed.

(** The lock of the last message changes hands, and its resource with it. *)
Definition slot_owner (l : option nat) : owner := match l with None => Slot | Some j => Goroutine j end.
Definition relock (l : option nat) : world :=
  set_live (hand (resources (w_msg w)) (slot_owner l) (w_live w)) (set_lock LMessage l w).

Lemma tmq_inv_relock l : (forall r, r ∈ resources (w_msg w) -> w_live w !! r = Some (slot_owner (w_lock w LMessage))) ->
  inv (relock l).
Proof.
  intros Hl. constructor; unfold relock; cbn; try apply Hw.
  - intros El r Hr. assert (l = None) as -> by exact El. by rewrite tmq_lookup_hand, decide_True, (Hl r Hr) by done.
  - intros r. rewrite tmq_lookup_hand. case_decide as Hr.
    + rewrite (Hl r Hr). cbn. destruct l; done.
    + intros [_ ?]%(i_slot_only _ Hw). done.
  - intros Hd r Hr. rewrite tmq_lookup_hand. pose proof (i_session _ Hw Hd r Hr) as E. rewrite decide_False; [done|].
    intros Hr'. rewrite (Hl r Hr') in E. by destruct (w_lock w LMessage).
  - intros r. rewrite tmq_lookup_hand. case_decide as Hr; [rewrite (Hl r Hr); by destruct l|]. apply Hw.
  - intros r Hr. apply (i_ever _ Hw). rewrite tmq_lookup_hand in Hr. case_decide; [|done]. by rewrite fmap_is_Some in Hr.
  - intros r Hr. apply (i_nonnil _ Hw). rewrite tmq_lookup_hand in Hr. case_decide; [|done]. by rewrite fmap_is_Some in Hr.
Qed.

Lemma tmq_other_relock l j : (forall r, r ∈ resources (w_msg w) -> w_live w !! r = Some (slot_owner (w_lock w LMessage))) ->
  w_lock w LMessage <> Some j -> l <> Some j -> other j w (relock l).
Proof.
  intros Hl H1 H2. constructor; unfold relock; cbn; try done.
  - intros l'. case_decide; subst; done.
  - intros r. rewrite tmq_lookup_hand. case_decide as Hr; [|done]. rewrite (Hl r Hr). cbn.
    destruct l, (w_lock w LMessage); cbn; split; congruence.
Qed.

Lemma tok_LockMessage Q : pre K (OLock LMessage) Q -> good i w Q (exec_op i a (OLock LMessage) w).
Proof.
  intros (Hn & HQ). cbn. unfold exec_lock. destruct (w_lock w LMessage) eqn:E; [done|].
  assert (Hl : forall r, r ∈ resources (w_msg w) -> w_live w !! r = Some (slot_owner (w_lock w LMessage)))
    by (rewrite E; by apply (i_slot _ Hw)).
  change (set_live _ _) with (relock (Some i)). split; [by apply tmq_inv_relock|]. split.
  - eexists. split; [apply (HQ (w_msg w))|].
    + intros r Hr%elem_of_list_to_set Hf%(h_flight _ _ _ HK). rewrite (Hl r Hr), E in Hf. done.
    + constructor; unfold relock; cbn; try apply HK; try done.
      * by intros m [= <-].
      * intros r. rewrite tmq_lookup_hand, elem_of_union, <- (h_flight _ _ _ HK). unfold res_set. rewrite elem_of_list_to_set.
        case_decide as Hr; [rewrite (Hl r Hr); cbn; naive_solver|naive_solver].
      * intros b [Hb|Hb]%elem_of_union; [|by apply HK]. unfold buf_of in Hb. destruct (buffer (w_msg w)) as [[b' n]|] eqn:Eb; [|set_solver].
        apply elem_of_singleton in Hb as ->. by eapply (i_buf _ Hw).
  - intros j Hj. apply tmq_other_relock; [done|by rewrite E|congruence].
Qed.

Lemma tok_UnlockMessage Q : pre K (OUnlock LMessage) Q -> good i w Q (exec_op i a (OUnlock LMessage) w).
Proof.
  intros (m & Hm & Hr & HQ). destruct (tmq_msg_mine m Hm) as [E <-]. cbn. unfold exec_unlock. rewrite E. apply tmq_mine in E.
  assert (Hl : forall r, r ∈ resources (w_msg w) -> w_live w !! r = Some (slot_owner (w_lock w LMessage))).
  { rewrite E. intros r Hx. apply (h_flight _ _ _ HK), Hr. by apply elem_of_list_to_set. }
  change (set_live _ _) with (relock None). split; [by apply tmq_inv_relock|]. split.
  - eexists. split; [exact HQ|]. constructor; unfold relock; cbn; try apply HK; try done.
    + intros r. rewrite tmq_lookup_hand, elem_of_difference, <- (h_flight _ _ _ HK). unfold res_set. rewrite elem_of_list_to_set.
      case_decide as Hx; [rewrite (Hl r Hx); cbn; naive_solver|naive_solver].
    + intros [He|((Hc & Hd)%andb_true_iff & Hp%Z.eqb_eq)%andb_true_iff]%orb_true_iff; [by apply HK|].
      destruct (h_closing _ _ _ HK Hc) as (_ & _ & _ & ->). done.
  - intros j Hj. apply tmq_other_relock; [done|rewrite E; congruence|done].
Qed.

(** *** The answers of calls *)

Lemma tok_answer {X} (c : call X) x Q : pending K c Q -> good i w Q (exec_answer i c x w).
Proof.
  intros (_ & _ & HQ). unfold exec_answer. destruct (answer_ok c x) eqn:Ea; [|done]. cbn [negb].
  specialize (HQ x Ea). unfold after_answer in HQ. destruct (conn_of c x) as [[p q]|] eqn:Ec.
  - case_bool_decide as Ed; [done|].
    assert (Hsame : forall c' q', w_conns w !! c' = Some q' -> <[p := q]> (w_conns w) !! c' = Some q').
    { intros c' q' H. destruct (decide (c' = p)) as [->|Hne]; [|by rewrite lookup_insert_ne].
      rewrite H in Ed. cbn in Ed. subst. by rewrite lookup_insert_eq. }
    split_and!.
    + constructor; cbn; try apply Hw. intros Hn. destruct (i_conn _ Hw Hn) as [H1 H2]. auto.
    + eexists. split; [apply HQ; done|]. constructor; cbn; try apply HK.
      * intros r. rewrite union_empty_l_L. apply HK.
      * intros c' q' [[<- <-]|[Hne H]]%lookup_insert_Some; [apply lookup_insert_eq|]. apply Hsame. by apply (h_conns _ _ _ HK).
    + intros j Hj. by constructor.
  - assert (Hsame : res_opt (allocs c x) = ∅ -> good i w Q (Ok (x, w))).
    { intros E. apply tok_frame with (w' := w); try done; try (intros; apply tmq_other_refl).
      specialize (HQ (fun _ => ltac:(rewrite E; set_solver))). rewrite E, union_empty_l_L in HQ. by destruct K. }
    destruct (allocs c x) as [r|] eqn:Er; [|by apply Hsame].
    cbn [res_opt] in Hsame, HQ. destruct (Z.eqb_spec (snd r) nilp) as [|Hn]; [by apply Hsame|].
    case_bool_decide as He; [done|].
    assert (Hnone : w_live w !! r = None).
    { destruct (w_live w !! r) eqn:E; [|done]. exfalso. apply He, (i_ever _ Hw). by rewrite E. }
    assert (Hins : forall r' o, w_live w !! r' = Some o -> <[r := Goroutine i]> (w_live w) !! r' = Some o).
    { intros r' o H. rewrite lookup_insert_ne; [done|]. congruence. }
    split_and!.
    + constructor; cbn; try apply Hw.
      * intros Hl r' Hr'. by apply Hins, (i_slot _ Hw).
      * intros r' [[<- ?]|[_ H]]%lookup_insert_Some; [done|by apply (i_slot_only _ Hw)].
      * intros Hd r' Hr'. by apply Hins, (i_session _ Hw).
      * intros r' [[<- ?]|[_ H]]%lookup_insert_Some; [done|by apply (i_session_only _ Hw)].
      * intros r' [o [[<- _]|[_ H]]%lookup_insert_Some]; [set_solver|]. apply elem_of_union. right. by apply (i_ever _ Hw).
      * intros r' [o [[<- _]|[_ H]]%lookup_insert_Some]; [done|]. by apply (i_nonnil _ Hw).
    + eexists. split; [apply HQ|].
      * intros _. apply disjoint_singleton_l. intros Hf%(h_flight _ _ _ HK). congruence.
      * constructor; cbn; try apply HK. intros r'. rewrite lookup_insert_Some, elem_of_union, elem_of_singleton, <- (h_flight _ _ _ HK).
        split; [naive_solver|]. intros [->|H]; [by left|right]. split; [congruence|done].
    + intros j Hj. constructor; cbn; try done. intros r'. rewrite lookup_insert_Some. split; [naive_solver|].
      intros H. right. split; [congruence|done].
Qed.

Lemma tok_op {X} (e : op X) Q : call_of e = None -> pre K e Q -> good i w Q (exec_op i a e w).
Proof.
  intros Hc. destruct e as [[]|[]| | | | | | | | | | | | | | | | | | |]; try done.
  - apply tok_LockHandler. - apply tok_LockMessage. - apply tok_LockAsync.
  - apply tok_UnlockHandler. - apply tok_UnlockMessage. - apply tok_UnlockAsync.
  - apply tok_IsClosed. - apply tok_SetClosed. - apply tok_WaitAll. - apply tok_WaitDone. - apply tok_CloseExit.
  - apply tok_Consumer. - apply tok_Conn. - apply tok_SetConsumer. - apply tok_Settings. - apply tok_Update.
  - apply tok_ReadMsg. - apply tok_WriteMsg. - apply tok_MakeBuf. - apply tok_CapBuf. - apply tok_FillBuf.
  - apply tok_Send. - apply tok_GoWaitSignal. - apply tok_PutHandles.
Qed.

End Ops.

End TmqLogic.
