(* ===== verification/TmqSafety.v ===== *)
(** * TmqSafety: the steps of a TMQ session are sound

    [tmq_step_sound] extends the logic of [TmqLogic] to the steps of a session: when the programs meet
    their preconditions, no step is [Bad], in any interleaving and with any answers of the library.
    The rest of the file proves the preconditions of the programs of [TmqHandlers]. *)
From S2P Require Import Prelude Common RawBlock Text Rest Types WsProg WsHandlers TmqProg TmqHandlers TmqLogic.
From stdpp Require Import gmap sets.
#[local] Open Scope Z_scope.

Module TmqSafety.
Import TmqWs TmqLogic.
#[local] Arguments hand : simpl never.
#[local] Arguments belongings : simpl never.

(** ** What was given back stays so *)

Definition gone (w : world) (r : res) : Prop := r ∈ w_ever w /\ w_live w !! r = None.

Lemma tmq_gone_hand l x w (r : res) : w_live w !! r = None -> hand l x (w_live w) !! r = None.
Proof. intros E. rewrite tmq_lookup_hand, E. by case_decide. Qed.

Lemma tmq_gone_answer i {X} (c : call X) y w x w' r : exec_answer i c y w = Ok (x, w') -> gone w r -> gone w' r.
Proof.
  intros He [Hr Hn]. unfold exec_answer in He. repeat (case_match; simplify_eq; try done); split; cbn; try done.
  - set_solver.
  - match goal with H : bool_decide (?r' ∈ _) = false |- _ => apply bool_decide_eq_false in H end.
    rewrite lookup_insert_ne; [done|]. congruence.
Qed.

Lemma tmq_gone_exec i a {X} (e : op X) w x w' r : exec_op i a e w = Ok (x, w') -> gone w r -> gone w' r.
Proof.
  intros He Hg. destruct (call_of e) eqn:Ec; [destruct e; try discriminate Ec; by eapply tmq_gone_answer|].
  destruct Hg as [Hr Hn]. unfold gone.
  destruct e as [[]|[]| | | | | | | | | | | | | | | | | | |]; cbn in He; unfold exec_lock, exec_unlock in He;
    repeat (case_match; simplify_eq; cbn; auto using tmq_gone_hand); simplify_eq; cbn; auto using tmq_gone_hand.
Qed.

(** ** The invariant of a session *)

Abbreviation ends := (fun (_ : bool) (K : know) => final K).

Definition resumes {X} (w : world) (K : know) (e : op X) : (X -> know -> Prop) -> Prop :=
  match e in op X return (X -> know -> Prop) -> Prop with
  | OCall c => fun Q => pending K c Q /\ forall r, frees c = Some r -> snd r = nilp \/ gone w r
  | _ => fun _ => False
  end.

Definition thread_ok (w : world) (K : know) (t : thread) : Prop :=
  if t_pend t then
    match t_prog t with Vis e k => resumes w K e (fun x K' => wp ends K' (k x)) | _ => False end
  else wp ends K (t_prog t).

Record sys_ok (s : sys) : Prop := mkSysOk {
  s_inv : inv (w s);
  s_threads : forall i t, threads s !! i = Some t -> exists K, holds i K (w s) /\ thread_ok (w s) K t;
  s_none : forall i, threads s !! i = None -> holds i (k_init false) (w s) }.

Lemma tmq_holds_final i K w : holds i K w -> final K -> holds i (k_init false) w.
Proof.
  intros H (Hl & Hm & Ha & Hf & Hc & Hcl). pose proof H as []. constructor; cbn; try done; try congruence.
  intros r. by rewrite (h_flight _ _ _ H), Hf.
Qed.

Lemma tmq_resumes_other {X} w w' K (e : op X) Q :
  (forall r, gone w r -> gone w' r) -> resumes w K e Q -> resumes w' K e Q.
Proof. intros Hg. destruct e; try done. cbn. intros [Hp Hf]. split; [done|]. intros r Hr. destruct (Hf r Hr); auto. Qed.

Lemma tmq_threads_other s w' i (ts : list thread) :
  sys_ok s -> (forall j, j <> i -> other j (w s) w') -> (forall r, gone (w s) r -> gone w' r) ->
  (forall j, j <> i -> ts !! j = threads s !! j) ->
  forall j t, j <> i -> ts !! j = Some t -> exists K, holds j K w' /\ thread_ok w' K t.
Proof.
  intros Hs Ho Hg Hts j t Hj Ht. rewrite Hts in Ht by done. destruct (s_threads _ Hs j t Ht) as (K & HK & Hok).
  exists K. split; [by eapply tmq_holds_other, Ho|]. revert Hok. unfold thread_ok.
  destruct (t_pend t), (t_prog t); try done. by apply tmq_resumes_other.
Qed.

Lemma tmq_none_other s w' i (ts : list thread) :
  sys_ok s -> (forall j, j <> i -> other j (w s) w') -> (forall j, j <> i -> ts !! j = threads s !! j) ->
  forall j, j <> i -> ts !! j = None -> holds j (k_init false) w'.
Proof. intros Hs Ho Hts j Hj Ht. rewrite Hts in Ht by done. eapply tmq_holds_other, Ho; [by apply (s_none _ Hs)|done]. Qed.

(** ** The start of a call *)

Lemma tmq_usable_open i K w : inv w -> holds i K w -> session_usable K -> w_drained w = false.
Proof.
  intros Hw HK [[Hc Ho]|[Hl Ho]]; [by apply (h_open _ _ _ HK)|]. destruct (w_drained w) eqn:E; [|done].
  apply (i_drained _ Hw) in E. by rewrite (h_hopen _ _ _ HK Hl Ho) in E.
Qed.

Lemma tmq_usable_consumer i K w q : inv w -> holds i K w -> session_usable K -> known K q -> q <> nilp ->
  w_live w !! (KConsumer, q) = Some Session.
Proof.
  intros Hw HK Hu Hk Hn. apply (i_session _ Hw); [by eapply tmq_usable_open|]. unfold belongings.
  assert (w_consumer w = q) as ->; [|rewrite (proj2 (Z.eqb_neq q nilp) Hn); set_solver].
  destruct Hk as [Hk|[Hl Hk]]; [by apply (h_consumer _ _ _ HK)|by apply (h_hcons _ _ _ HK)].
Qed.

(** What a permitted resource stands for is live, and belongs to the goroutine or to the session. *)
Lemma tmq_permitted i K w r r' : inv w -> holds i K w -> permitted K r -> real w r = Some r' ->
  w_live w !! r' = Some (Goroutine i) \/ w_live w !! r' = Some Session.
Proof.
  intros Hw HK Hp Hr. unfold real in Hr. destruct (Z.eqb_spec (snd r) nilp) as [|Hn]; [done|].
  assert (Hc : forall q, consumer_usable K q -> q <> nilp ->
    w_live w !! (KConsumer, q) = Some (Goroutine i) \/ w_live w !! (KConsumer, q) = Some Session).
  { intros q [Hf|[Hu Hk]] Hq; [left; by apply HK|right; by eapply tmq_usable_consumer]. }
  destruct Hp as [?|[[Hk Hf]|[[Hu He]|[[Hk Hq]|(Hk & q & Hq & Hqn & Hcu)]]]]; [done|..].
  - assert (r' = r) as -> by (destruct (fst r); congruence). left. by apply HK.
  - assert (r' = r) as -> by (destruct He as [-> | ->]; cbn in Hr; congruence). right.
    apply (i_session _ Hw); [by eapply tmq_usable_open|]. unfold belongings. set_solver.
  - destruct r as [k p]. cbn in *. subst k. injection Hr as <-. by apply Hc.
  - rewrite Hk in Hr. apply (h_conns _ _ _ HK) in Hq. rewrite Hq in Hr. cbn in Hr. injection Hr as <-. by apply Hc.
Qed.

Lemma tmq_permitted_ok i K w r : inv w -> holds i K w -> permitted K r -> use_ok w r = true.
Proof.
  intros Hw HK Hp. unfold use_ok. destruct (real w r) as [r'|] eqn:E; [|done]. apply bool_decide_eq_true, elem_of_dom.
  destruct (tmq_permitted _ _ _ _ _ Hw HK Hp E) as [-> | ->]; eauto.
Qed.

Lemma tmq_pending_call t us fr b : pending_call t = Some (us, fr, b) ->
  exists ro X (c : call X) k, t = mkThread ro (Vis (OCall c) k) true /\ us = uses c /\ fr = frees c /\ b = is_async c.
Proof.
  destruct t as [ro p pend]. unfold pending_call. cbn. destruct pend; [|done]. destruct p as [| |X e k]; try done.
  destruct e; try done. cbn. intros [= <- <- <-]. eauto 10.
Qed.

Lemma tmq_frees_real {X} (c : call X) w r : frees c = Some r -> snd r <> nilp -> real w r = Some r.
Proof. intros H Hn. unfold real. rewrite (proj2 (Z.eqb_neq _ _) Hn). by destruct c; simplify_eq/=. Qed.

(** No other goroutine is in a call that works on what goroutine [i] has to give back. *)
Lemma tmq_not_busy s i K j t r :
  sys_ok s -> holds i K (w s) -> j <> i -> r ∈ k_flight K -> threads s !! j = Some t -> in_call (w s) r t = false.
Proof.
  intros Hs HK Hj Hr Ht. destruct (in_call (w s) r t) eqn:E; [exfalso|done]. unfold in_call in E.
  destruct (pending_call t) as [[[us fr] b]|] eqn:Ep; [|done]. apply tmq_pending_call in Ep as (ro & X & c & k & -> & -> & _ & _).
  apply existsb_exists in E as (u & Hu%list_elem_of_In & E%bool_decide_eq_true).
  destruct (s_threads _ Hs j _ Ht) as (Kj & HKj & Hok). cbn in Hok. destruct Hok as [(Hp & _ & _) Hg].
  pose proof (proj2 (h_flight _ _ _ HK r) Hr) as Hl.
  assert (Hn : snd r <> nilp) by (apply (i_nonnil _ (s_inv _ Hs)); by rewrite Hl).
  destruct (Hp u Hu) as [Hf|Hpu].
  - assert (Hun : snd u <> nilp) by (intros Hx; unfold real in E; by rewrite Hx in E).
    rewrite (tmq_frees_real c (w s) u Hf Hun) in E. injection E as ->. destruct (Hg r Hf) as [?|[_ ?]]; [done|congruence].
  - destruct (tmq_permitted _ _ _ _ _ (s_inv _ Hs) HKj Hpu E) as [H|H]; rewrite Hl in H; congruence.
Qed.

(** No other goroutine is in an asynchronous call when goroutine [i] holds their lock. *)
Lemma tmq_not_async s i K j t :
  sys_ok s -> holds i K (w s) -> j <> i -> k_async K = true -> threads s !! j = Some t -> in_async t = false.
Proof.
  intros Hs HK Hj Ha Ht. destruct (in_async t) eqn:E; [exfalso|done]. unfold in_async in E.
  destruct (pending_call t) as [[[us fr] b]|] eqn:Ep; [|done]. apply tmq_pending_call in Ep as (ro & X & c & k & -> & _ & _ & ->).
  destruct (s_threads _ Hs j _ Ht) as (Kj & HKj & Hok). cbn in Hok. destruct Hok as [(_ & Hpa & _) _].
  apply Hpa, (h_async _ _ _ HKj) in E. apply (h_async _ _ _ HK) in Ha. congruence.
Qed.

Lemma tmq_another f i ts : another f i ts = true -> exists j t, j <> i /\ ts !! j = Some t /\ f t = true.
Proof.
  unfold another. intros (j & _ & [Hj Ht]%andb_true_iff)%existsb_exists. destruct (ts !! j) as [t|] eqn:E; [|done].
  exists j, t. split; [|done]. intros ->. by rewrite Nat.eqb_refl in Hj.
Qed.

Lemma tmq_inv_free i K w r : inv w -> holds i K w -> r ∈ k_flight K -> inv (set_live (delete r (w_live w)) w).
Proof.
  intros Hw HK Hr. apply (h_flight _ _ _ HK) in Hr. constructor; cbn; try apply Hw.
  - intros Hl r' Hr'. pose proof (i_slot _ Hw Hl r' Hr'). rewrite lookup_delete_ne; congruence.
  - intros r' [_ H]%lookup_delete_Some. by apply (i_slot_only _ Hw).
  - intros Hd r' Hr'. pose proof (i_session _ Hw Hd r' Hr'). rewrite lookup_delete_ne; congruence.
  - intros r' [_ H]%lookup_delete_Some. by apply (i_session_only _ Hw).
  - intros r' [x [_ H]%lookup_delete_Some]. by apply (i_ever _ Hw).
  - intros r' [x [_ H]%lookup_delete_Some]. by apply (i_nonnil _ Hw).
Qed.

Definition begun {X} (s : sys) (i : nat) (K : know) (c : call X) (w' : world) : Prop :=
  inv w' /\ holds i (with_flight (k_flight K ∖ res_opt (frees c)) K) w' /\ (forall j, j <> i -> other j (w s) w') /\
  (forall r, gone (w s) r -> gone w' r) /\ (forall r, frees c = Some r -> snd r = nilp \/ gone w' r).

Lemma tmq_begun_same {X} s i K (c : call X) :
  inv (w s) -> holds i K (w s) -> res_opt (frees c) = ∅ -> (forall r, frees c = Some r -> snd r = nilp) -> begun s i K c (w s).
Proof.
  intros Hw HK E Hf. split; [done|]. rewrite E, difference_empty_L. split; [|split; [intros; apply tmq_other_refl|auto]].
  destruct HK. by constructor.
Qed.

Lemma tmq_begun_free {X} s i K (c : call X) r :
  inv (w s) -> holds i K (w s) -> frees c = Some r -> snd r <> nilp -> r ∈ k_flight K ->
  begun s i K c (set_live (delete r (w_live (w s))) (w s)).
Proof.
  intros Hw HK Ef Hn Hr. pose proof (proj2 (h_flight _ _ _ HK r) Hr) as Hl. split; [by eapply tmq_inv_free|].
  assert (E : res_opt (frees c) = {[r]}) by (rewrite Ef; cbn; by rewrite (proj2 (Z.eqb_neq _ _) Hn)). rewrite E.
  split; [|split; [|split]].
  - pose proof HK as []. constructor; cbn; try done. intros r'. rewrite lookup_delete_Some, elem_of_difference, (h_flight _ _ _ HK).
    set_solver.
  - intros j Hj. constructor; cbn; try done. intros r'. rewrite lookup_delete_Some. naive_solver.
  - intros r' [He Hg]. split; [done|]. cbn. apply lookup_delete_None. by right.
  - intros r' [= <-]%(eq_trans (eq_sym Ef)). right. split; [apply (i_ever _ Hw); by rewrite Hl|]. apply lookup_delete_eq.
Qed.

Lemma tmq_begin_sound {X} s i K ro (c : call X) k Q :
  sys_ok s -> holds i K (w s) -> threads s !! i = Some (mkThread ro (Vis (OCall c) k) false) -> pre K (OCall c) Q ->
  exists w', begin_call i (uses c) (frees c) (is_async c) s = Ok w' /\ begun s i K c w'.
Proof.
  intros Hs HK Ht (Hu & _ & Hf & (_ & Ha & _)). pose proof (s_inv _ Hs) as Hw. unfold begin_call.
  assert (forallb (use_ok (w s)) (uses c) = true) as ->.
  { apply forallb_forall. intros r Hr%list_elem_of_In. by eapply tmq_permitted_ok, Hu. }
  assert (is_async c && another in_async i (threads s) = false) as ->.
  { destruct (is_async c) eqn:E; [|done]. cbn. destruct (another in_async i (threads s)) eqn:Ea; [exfalso|done].
    apply tmq_another in Ea as (j & t & Hj & Htj & Hx). by rewrite (tmq_not_async s i K j t Hs HK Hj (Ha eq_refl) Htj) in Hx. }
  cbn [negb]. destruct (frees c) as [r|] eqn:Ef; [|eexists; split; [done|]; by apply tmq_begun_same; rewrite ?Ef].
  destruct (Z.eqb_spec (snd r) nilp) as [Hn|Hn].
  { eexists. split; [done|]. apply tmq_begun_same; try done; rewrite Ef; [cbn; by rewrite (proj2 (Z.eqb_eq _ _) Hn)|by intros ? [= <-]]. }
  destruct (Hf r eq_refl) as [?|Hr]; [done|]. pose proof (proj2 (h_flight _ _ _ HK r) Hr) as Hl.
  rewrite bool_decide_eq_true_2 by (apply elem_of_dom; by rewrite Hl).
  destruct (another (in_call (w s) r) i (threads s)) eqn:Eb.
  - apply tmq_another in Eb as (j & t & Hj & Htj & Hc). by rewrite (tmq_not_busy _ _ _ _ _ _ Hs HK Hj Hr Htj) in Hc.
  - eexists. split; [done|]. by eapply tmq_begun_free.
Qed.

(** ** The steps of a session *)

Lemma tmq_snoc {A} (l : list A) y o x : (l ++ [y]) !! o = Some x <-> (o = length l /\ x = y) \/ l !! o = Some x.
Proof.
  rewrite lookup_app_Some, list_lookup_singleton_Some. split.
  - intros [?|(? & ? & <-)]; [by right|left]. split; [lia|done].
  - intros [(-> & ->)|?]; [right|by left]. split; [done|]. split; [lia|done].
Qed.

Lemma tmq_after_op s i ro {X} (e : op X) (k : X -> prog bool) x w' :
  sys_ok s -> (i < length (threads s))%nat ->
  good i (w s) (fun x K' => wp ends K' (k x)) (Ok (x, w')) -> (forall r, gone (w s) r -> gone w' r) ->
  let ts := <[i := mkThread ro (k x) false]> (threads s) in
  sys_ok (mkSys w' (if is_go e then ts ++ [mkThread Waiting (Done true) false] else ts) (reader s)).
Proof.
  intros Hs Hlt (Hw' & (K' & HQ & HK') & Ho) Hg ts.
  assert (Hts : forall j, j <> i -> ts !! j = threads s !! j) by (intros; by apply list_lookup_insert_ne).
  pose proof (tmq_threads_other s w' i ts Hs Ho Hg Hts) as HA. pose proof (tmq_none_other s w' i ts Hs Ho Hts) as HB.
  assert (Hi : ts !! i = Some (mkThread ro (k x) false)) by (by apply list_lookup_insert_eq).
  assert (Hlen : length ts = length (threads s)) by apply length_insert.
  assert (H1 : forall j t, ts !! j = Some t -> exists K, holds j K w' /\ thread_ok w' K t).
  { intros j t Ht. destruct (decide (j = i)) as [->|Hj]; [|by apply HA]. rewrite Hi in Ht. injection Ht as <-. eauto. }
  assert (H2 : forall j, ts !! j = None -> holds j (k_init false) w').
  { intros j Ht. apply HB; [|done]. intros ->. congruence. }
  constructor; [done| |]; cbn [threads w]; destruct (is_go e); try done.
  - intros j t. rewrite tmq_snoc. intros [(-> & ->)|Ht]; [|by apply H1].
    exists (k_init false). split; [apply H2, lookup_ge_None; lia|]. by repeat split.
  - intros j Ht. apply H2. apply lookup_ge_None. apply lookup_ge_None in Ht. rewrite length_app in Ht. lia.
Qed.

Lemma tmq_step_thread s i a : sys_ok s ->
  match step_thread s i a with Ok s' => sys_ok s' | Bad => False | _ => True end.
Proof.
  intros Hs. unfold step_thread. destruct (threads s !! i) as [[ro p pend]|] eqn:Ht; [|done].
  destruct p as [| |X e k]; [done|done|]. pose proof (lookup_lt_Some _ _ _ Ht) as Hlt.
  destruct (s_threads _ Hs i _ Ht) as (K & HK & Hok). pose proof (s_inv _ Hs) as Hw.
  assert (Hop : forall r, good i (w s) (fun x K' => wp ends K' (k x)) r -> exec_op i a e (w s) = r ->
    match match r with
          | Ok (x, w') =>
            let ts := <[i := mkThread ro (k x) false]> (threads s) in
            Ok (mkSys w' (if is_go e then ts ++ [mkThread Waiting (Done true) false] else ts) (reader s))
          | Blocked => Blocked | Bad => Bad | Stuck => Stuck
          end with
    | Ok s' => sys_ok s' | Bad => False | _ => True end).
  { intros [[x w']| | |] Hr Er; try done. apply tmq_after_op; try done. intros r. by apply (tmq_gone_exec _ _ _ _ _ _ _ Er). }
  destruct (call_of e) as [[[us fr] b]|] eqn:Ec.
  - destruct e; try discriminate Ec. injection Ec as <- <- <-. destruct pend; unfold thread_ok in Hok; cbn in Hok.
    + apply (Hop (exec_op i a (OCall c) (w s))); [|done]. destruct Hok as [Hp _]. cbn. by eapply tok_answer.
    + destruct (tmq_begin_sound s i K ro c k _ Hs HK Ht Hok) as (w' & -> & Hw' & HK' & Ho & Hg & Hfr).
      destruct Hok as (_ & _ & _ & Hpend). set (ts := <[i := _]> (threads s)).
      assert (Hts : forall j, j <> i -> ts !! j = threads s !! j) by (intros; by apply list_lookup_insert_ne).
      constructor; [done| |]; cbn [threads w].
      * intros j t Htj. destruct (decide (j = i)) as [->|Hj]; [|by eapply tmq_threads_other].
        unfold ts in Htj. rewrite list_lookup_insert_eq in Htj by done. injection Htj as <-.
        eexists. split; [exact HK'|]. done.
      * intros j Htj. destruct (decide (j = i)) as [->|Hj]; [|by eapply tmq_none_other].
        unfold ts in Htj. by rewrite list_lookup_insert_eq in Htj.
  - destruct pend; unfold thread_ok in Hok; cbn in Hok; [by destruct e|].
    apply (Hop (exec_op i a e (w s))); [|done]. by eapply tok_op.
Qed.

Section Session.
Context (handle : list Z -> prog bool) (on_signal : signal -> prog bool) (close_session : prog bool).
Context (handle_ok : forall m, wp ends (k_init true) (handle m)).
Context (signal_ok : forall x, wp ends (k_init false) (on_signal x)).
Context (close_ok : wp ends (k_init false) close_session).

Lemma tmq_spawn_ok s w' t K :
  sys_ok s -> inv w' -> (forall j, j <> length (threads s) -> other j (w s) w') ->
  (forall r, gone (w s) r -> gone w' r) -> holds (length (threads s)) K w' -> thread_ok w' K t ->
  forall r, sys_ok (mkSys w' (threads s ++ [t]) r).
Proof.
  intros Hs Hw' Ho Hg HK Hok r. set (n := length (threads s)) in *. constructor; [done| |]; cbn [threads w].
  - intros j t'. rewrite tmq_snoc. intros [(-> & ->)|Ht]; [by exists K|].
    eapply (tmq_threads_other s w' n (threads s)); try done. apply lookup_lt_Some in Ht. unfold n. lia.
  - intros j Ht%lookup_ge_None. rewrite length_app in Ht. cbn in Ht.
    eapply (tmq_none_other s w' n (threads s)); try done; [|apply lookup_ge_None]; unfold n; lia.
Qed.

Lemma tmq_step_sound s a : sys_ok s ->
  match step handle on_signal close_session s a with Ok s' => sys_ok s' | Bad => False | _ => True end.
Proof.
  intros Hs. destruct a as [i o|m| | |i x]; cbn [step].
  - by apply tmq_step_thread.
  - destruct (reader s); [done|]. destruct (w_closed (w s)); [done|]. by destruct Hs.
  - destruct (reader s) as [m|]; [|done]. pose proof (s_none _ Hs (length (threads s)) (lookup_ge_None_2 _ _ (le_n _))) as HN.
    apply (tmq_spawn_ok s _ _ (k_init true)); try done.
    + destruct (s_inv _ Hs). by constructor.
    + intros j Hj. constructor; cbn; try done; rewrite elem_of_cons; naive_solver.
    + pose proof HN as []. constructor; cbn; try done. split; [done|]. intros _. by left.
    + apply handle_ok.
  - apply (tmq_spawn_ok s _ _ (k_init false)); try done.
    + apply Hs.
    + by apply (s_none _ Hs), lookup_ge_None_2.
  - destruct (threads s !! i) as [[ro p pend]|] eqn:Ht; [|done]. destruct ro; try done. destruct p as [[]| |]; try done.
    assert (Hsys : sys_ok (mkSys (w s) (<[i := mkThread Waiting (on_signal x) false]> (threads s)) (reader s))).
    { constructor; [apply Hs| |]; cbn [threads w].
      - intros j t. rewrite list_lookup_insert_Some. intros [(<- & <- & _)|[_ Htj]]; [|by apply (s_threads _ Hs)].
        destruct (s_threads _ Hs _ _ Ht) as (K & HK & Hok). exists (k_init false).
        destruct pend; [done|]. split; [by eapply tmq_holds_final|]. apply signal_ok.
      - intros j Htj%lookup_ge_None. rewrite length_insert in Htj. by apply (s_none _ Hs), lookup_ge_None. }
    by destruct x, (w_exit (w s)).
Qed.

Lemma tmq_run_sound acts : forall s s', sys_ok s -> run handle on_signal close_session s acts = Ok s' -> sys_ok s'.
Proof.
  induction acts as [|a acts IH]; intros s s' Hs Hr; [by injection Hr as <-|]. cbn in Hr.
  pose proof (tmq_step_sound s a Hs) as H. destruct (step _ _ _ s a) as [s1| | |]; try done. by apply (IH s1).
Qed.

End Session.

Lemma tmq_new_ok : sys_ok NewTaosTMQ.
Proof.
  assert (Hl : forall r x, w_live (w NewTaosTMQ) !! r = Some x -> (r = the_thread \/ r = the_handler) /\ x = Session).
  { intros r x H. cbn in H. apply lookup_insert_Some in H as [[<- <-]|[_ H]]; [auto|].
    apply lookup_singleton_Some in H as [<- <-]. auto. }
  constructor; [|done|].
  - constructor; try done.
    + intros _ r []%not_elem_of_nil.
    + by intros r [_ ?]%Hl.
    + intros _ r [->|[->|[]%not_elem_of_nil]%elem_of_cons]%elem_of_cons; reflexivity.
    + intros r [[-> | ->] _]%Hl; (split; [done|]); unfold belongings; set_solver.
    + intros r [x [[-> | ->] _]%Hl]; set_solver.
    + by intros r [x [[-> | ->] _]%Hl].
  - intros i _. constructor; try done.
    + intros r. split; [by intros [_ ?]%Hl|set_solver].
    + split; [by intros ?%not_elem_of_nil|done].
Qed.

End TmqSafety.
