(* ===== verification/TmqSession.v ===== *)
(** * TmqSession: the handlers of the TMQ endpoint keep to the logic

    Every program of [TmqHandlers] meets the preconditions of the operations it performs: the
    goroutine of a message, whatever the message, the one that closes the session and the one of
    [waitSignal].  With the soundness of the logic this gives the safety of a session. *)
From S2P Require Import Prelude Common RawBlock Text Rest Types WsProg WsHandlers TmqProg TmqHandlers TmqLogic TmqSafety.
From stdpp Require Import gmap sets.
#[local] Open Scope Z_scope.

Module TmqSession.
Import Text TmqWs TmqHandlers TmqLogic TmqSafety.

#[local] Arguments res_set : simpl never.
#[local] Arguments res_opt : simpl never.

(** ** Programs and calls *)

Lemma tmq_pre_mono {X} K (e : op X) (Q Q' : X -> know -> Prop) : (forall x K', Q x K' -> Q' x K') -> pre K e Q -> pre K e Q'.
Proof.
  intros HQ. destruct e as [[]|[]| | | | | | | | | | | | | | | | | | |]; cbn; unfold pending; naive_solver.
Qed.

Lemma tmq_wp_bind {A B} (p : prog A) (f : A -> prog B) K Q : wp (fun x K' => wp Q K' (f x)) K p -> wp Q K (p ≫= f).
Proof. revert K. induction p as [a| |X e k IH]; intros K; cbn; auto. apply tmq_pre_mono. auto. Qed.

Lemma tmq_wp_assoc {A B D} (p : prog A) (f : A -> prog B) (g : B -> prog D) K Q :
  wp Q K ((p ≫= f) ≫= g) -> wp Q K (p ≫= (fun x => f x ≫= g)).
Proof. revert K. induction p as [a| |X e k IH]; intros K; cbn; auto. apply tmq_pre_mono. auto. Qed.

(** A call that neither hands out nor takes back. *)
Definition plain {X} (c : call X) : Prop := frees c = None /\ only_open c = false /\ forall x, conn_of c x = None /\ allocs c x = None.

Lemma tmq_wp_plain {X} K (c : call X) Q :
  plain c -> (forall r, r ∈ uses c -> permitted K r) -> (is_async c = true -> k_async K = true) ->
  (forall x, answer_ok c x = true -> Q x K) -> wp Q K (call_ c).
Proof.
  intros (Hf & Ho & Hp) Hu Ha HQ. cbn. rewrite Ho, Hf. split; [done|]. split; [done|]. split; [done|].
  assert (E : with_flight (k_flight K ∖ ∅) K = K) by (rewrite difference_empty_L; by destruct K).
  change (res_opt None) with (∅ : gset res). rewrite E. unfold pending. rewrite Hf. split; [auto|]. split; [done|].
  intros x Hx _. destruct (Hp x) as [E1 E2]. unfold after_answer. rewrite E1, E2. change (res_opt None) with (∅ : gset res).
  rewrite (left_id_L ∅ (∪)). specialize (HQ x Hx). by destruct K.
Qed.

Lemma tmq_perm_mono K fl r : fl ⊆ k_flight K -> permitted (with_flight fl K) r -> permitted K r.
Proof.
  intros Hs H. assert (Hc : forall q, consumer_usable (with_flight fl K) q -> consumer_usable K q) by (intros q [?|?]; [left; auto|by right]).
  destruct H as [?|[[]|[?|[[]|(? & q & ? & ? & ?)]]]]; [by left| | | |].
  - right. left. auto.
  - right. right. by left.
  - right. right. right. left. auto.
  - right. right. right. right. split; [done|]. exists q. auto.
Qed.

(** A call that gives [r] back. *)
Lemma tmq_wp_free {X} K (c : call X) r Q :
  frees c = Some r -> only_open c = false -> (forall x, conn_of c x = None /\ allocs c x = None) ->
  (is_async c = true -> k_async K = true) ->
  (forall r', r' ∈ uses c -> r' = r \/ permitted (with_flight (k_flight K ∖ res_opt (Some r)) K) r') ->
  fst r <> KConn -> (snd r = nilp \/ r ∈ k_flight K) ->
  (forall x, Q x (with_flight (k_flight K ∖ res_opt (Some r)) K)) -> wp Q K (call_ c).
Proof.
  intros Hf Ho Hp Ha Hu Hk Hr HQ. cbn. rewrite Ho, Hf.
  split. { intros r' Hr'. destruct (Hu r' Hr') as [->|H]; [destruct Hr; [by left|right; by left]|].
    apply (tmq_perm_mono _ (k_flight K ∖ res_opt (Some r))); [set_solver|done]. }
  split; [done|]. split; [by intros ? [= <-]|]. unfold pending. rewrite Hf. split.
  { intros r' Hr'. destruct (Hu r' Hr') as [->|H]; [by left|by right]. }
  split; [done|]. intros x Hx _. destruct (Hp x) as [E1 E2]. unfold after_answer. rewrite E1, E2.
  change (res_opt None) with (∅ : gset res). rewrite (left_id_L ∅ (∪)). specialize (HQ x). by destruct K.
Qed.

Lemma tmq_res_opt k p : p <> nilp -> res_opt (Some (k, p)) = {[(k, p)]}.
Proof. intros H. unfold res_opt. cbn. by rewrite (proj2 (Z.eqb_neq _ _) H). Qed.
Lemma tmq_res_nil k p : p = nilp -> res_opt (Some (k, p)) = ∅.
Proof. by intros ->. Qed.
Lemma tmq_res_set m : CPointer m <> nilp -> res_set m = {[(KMessage, CPointer m)]}.
Proof. intros H. unfold res_set, resources. rewrite (proj2 (Z.eqb_neq _ _) H). set_solver. Qed.
Lemma tmq_res_set_nil m : CPointer m = nilp -> res_set m = ∅.
Proof. intros H. unfold res_set, resources. by rewrite H. Qed.

(** A call that hands out a resource. *)
Lemma tmq_wp_alloc {X} K (c : call X) Q :
  frees c = None -> only_open c = false -> (forall x, conn_of c x = None) -> (is_async c = true -> k_async K = true) ->
  (forall r, r ∈ uses c -> permitted K r) ->
  (forall x, answer_ok c x = true -> res_opt (allocs c x) ## k_flight K ->
     Q x (with_flight (res_opt (allocs c x) ∪ k_flight K) K)) -> wp Q K (call_ c).
Proof.
  intros Hf Ho Hc Ha Hu HQ. cbn. rewrite Ho, Hf. split; [done|]. split; [done|]. split; [done|].
  assert (E : with_flight (k_flight K ∖ ∅) K = K) by (rewrite difference_empty_L; by destruct K).
  change (res_opt None) with (∅ : gset res). rewrite E. unfold pending. rewrite Hf. split; [auto|]. split; [done|].
  intros x Hx Hd. specialize (HQ x Hx (Hd (Hc x))). unfold after_answer. rewrite (Hc x). by destruct K.
Qed.

Lemma tmq_wp_op {X B} (e : op X) (f : X -> prog B) K Q : pre K e (fun x K' => wp Q K' (f x)) -> wp Q K (do_ e ≫= f).
Proof. done. Qed.
Lemma tmq_wp_ret {A} (x : A) K Q : Q x K -> wp Q K (mret x).
Proof. done. Qed.
Lemma tmq_wp_do {X} (e : op X) K Q : pre K e Q -> wp Q K (do_ e).
Proof. done. Qed.

(** The fields of the knowledge, computed. *)
Ltac nk :=
  cbv beta iota delta [with_handler with_hopen with_hcons with_msg with_async with_flight with_conns with_bufs
    with_reading with_seen with_closing with_drained with_emptied with_counted
    k_handler k_hopen k_hcons k_msg k_async k_flight k_conns k_bufs k_counted k_open k_consumer k_seen k_closing
    k_drained k_emptied].
(** One operation of a program. *)
Ltac op := first [apply tmq_wp_op | apply tmq_wp_do]; cbn [pre]; nk.

(** ** Programs that leave the knowledge as it is *)

Definition quiet {A} (p : prog A) : Prop := forall K (Q : A -> know -> Prop), (forall x, Q x K) -> wp Q K p.

Lemma tmq_quiet_ret {A} (x : A) : quiet (mret x).
Proof. intros K Q HQ. apply HQ. Qed.
Lemma tmq_quiet_bind {A B} (p : prog A) (f : A -> prog B) : quiet p -> (forall x, quiet (f x)) -> quiet (p ≫= f).
Proof. intros Hp Hf K Q HQ. apply tmq_wp_bind, Hp. intros x. by apply Hf. Qed.
Lemma tmq_quiet_lift {A} (x : go A) : quiet (lift x).
Proof. intros K Q HQ. by destruct x; [apply HQ|..]. Qed.
Lemma tmq_quiet_send m : quiet (send m).
Proof. intros K Q HQ. apply (HQ tt). Qed.
Lemma tmq_quiet_call {X} (c : call X) : plain c -> is_async c = false -> args c = [] -> quiet (call_ c).
Proof.
  intros Hp Ha He K Q HQ. apply tmq_wp_plain; [done| |by rewrite Ha|auto].
  unfold uses. rewrite Ha, He. by intros r ?%not_elem_of_nil.
Qed.
Lemma tmq_quiet_string m : quiet (c_string m).
Proof.
  induction m as [|c m IH]; intros K Q HQ; cbn [c_string]; [done|]. destruct (c =? 0); [apply HQ|].
  apply tmq_wp_bind, IH. intros x. apply HQ.
Qed.

Lemma tmq_quiet_settings : quiet (do_ OSettings).
Proof. intros K Q HQ. exact HQ. Qed.
Lemma tmq_quiet_update f : quiet (do_ (OUpdate f)).
Proof. intros K Q HQ. exact (HQ tt). Qed.

Ltac quiet :=
  repeat lazymatch goal with
    | |- quiet (mbind _ _) => apply tmq_quiet_bind; [|intros ?]
    | |- quiet (mret _) => apply tmq_quiet_ret
    | |- quiet (lift _) => apply tmq_quiet_lift
    | |- quiet (send _) => apply tmq_quiet_send
    | |- quiet (do_ OSettings) => apply tmq_quiet_settings
    | |- quiet (do_ (OUpdate _)) => apply tmq_quiet_update
    | |- quiet GetDuration => by apply tmq_quiet_call
    | |- quiet (call_ _) => by apply tmq_quiet_call
    | |- quiet (match ?x with _ => _ end) => destruct x
    end.

Lemma tmq_quiet_error code msg action reqID id : quiet (wsTMQErrorMsg code msg action reqID id).
Proof. unfold wsTMQErrorMsg. quiet. Qed.
Lemma tmq_quiet_WSError err action reqID : quiet (WSError err action reqID).
Proof. unfold WSError, WSErrorMsg. quiet. Qed.
Lemma tmq_quiet_raw_error code msg reqID id : quiet (tmqFetchRawBlockErrorMsg code msg reqID id).
Proof. unfold tmqFetchRawBlockErrorMsg. quiet. Qed.
Lemma tmq_quiet_log code : quiet (log_error code).
Proof. unfold log_error. quiet. Qed.
Lemma tmq_quiet_ok action reqID : quiet (respond_ok action reqID).
Proof. unfold respond_ok. quiet. Qed.
Lemma tmq_quiet_code code action reqID id : quiet (respond_code code action reqID id).
Proof. unfold respond_code. quiet. apply tmq_quiet_error. Qed.

(** ** A message outside the locks *)

(** The knowledge of a counted goroutine that found the session open and holds no lock, and of one
    that holds the lock of the last message. *)
Abbreviation held m a fl C B q s := (mkKnow false false None m a fl C B true true q s false false false) (only parsing).
Abbreviation idle C B q s := (held None false ∅ C B q s) (only parsing).

(** A program of such a goroutine that gives back what it takes. *)
Definition tame {A} (p : prog A) : Prop :=
  forall C B q s (Q : A -> know -> Prop), (forall x q' s' C' B', Q x (idle C' B' q' s')) -> wp Q (idle C B q s) p.

Lemma tmq_tame_quiet {A} (p : prog A) : quiet p -> tame p.
Proof. intros Hp C B q s Q HQ. by apply Hp. Qed.
Lemma tmq_tame_bind {A B} (p : prog A) (f : A -> prog B) : tame p -> (forall x, tame (f x)) -> tame (p ≫= f).
Proof. intros Hp Hf C B' q s Q HQ. apply tmq_wp_bind, Hp. intros. by apply Hf. Qed.

(** Permissions of a counted goroutine. *)
Lemma tmq_perm_session m a fl C B q s r : r = the_thread \/ r = the_handler -> permitted (held m a fl C B q s) r.
Proof. intros Hr. right. right. left. split; [by left|done]. Qed.
Lemma tmq_perm_consumer m a fl C B q s : permitted (held m a fl C B (Some q) s) (KConsumer, q).
Proof. right. right. right. left. split; [done|]. right. split; [by left|by left]. Qed.
Lemma tmq_perm_flight K r : fst r <> KConn -> r ∈ k_flight K -> permitted K r.
Proof. intros Hk Hr. right. by left. Qed.
Lemma tmq_perm_nil K r : snd r = nilp -> permitted K r.
Proof. by left. Qed.

(** The resources of a call, one by one. *)
Lemma tmq_uses {X} (c : call X) (P : res -> Prop) :
  (is_async c = true -> P the_thread /\ P the_handler) -> Forall P (args c) -> forall r, r ∈ uses c -> P r.
Proof.
  intros Ha Hf r Hr. unfold uses in Hr. apply elem_of_app in Hr as [Hr|Hr]; [|by eapply Forall_forall in Hf].
  destruct (is_async c); [|by apply not_elem_of_nil in Hr]. destruct (Ha eq_refl).
  apply elem_of_cons in Hr as [->|[->|[]%not_elem_of_nil]%elem_of_cons]; done.
Qed.

#[local] Hint Resolve tmq_perm_session tmq_perm_consumer tmq_perm_flight tmq_perm_nil : tmq.

(** Everything a call works on is in flight. *)
Ltac flights := cbn [args]; rewrite !Forall_cons, Forall_nil; repeat split; apply tmq_perm_flight; cbn; set_solver.

(** An asynchronous call on an open session, outside the lock of the handler. *)
Lemma tmq_wp_async_open {X} (c : ptr -> call X) m fl C B q s Q :
  (forall s', Q None (held m false fl C B q s')) ->
  (forall p, wp (fun x K' => k_async K' = true /\ Q (Some x) (with_async false K')) (held m true fl C B (Some p) s) (call_ (c p))) ->
  wp Q (held m false fl C B q s) (async_open c).
Proof.
  intros HN HS. unfold async_open. apply tmq_wp_bind. cbn. split; [done|]. split; [intros _; split; [done|apply HN]|].
  intros _ p _. refine (tmq_pre_mono _ _ _ _ _ (HS p)). done.
Qed.

(** ... which neither hands out nor takes back and works on the consumer or what is in flight. *)
Lemma tmq_wp_async_plain {X} (c : ptr -> call X) m fl C B q s Q :
  (forall p, plain (c p)) ->
  (forall p, Forall (fun r => r = (KConsumer, p) \/ (fst r <> KConn /\ r ∈ fl)) (args (c p))) ->
  (forall x q' s', Q x (held m false fl C B q' s')) -> wp Q (held m false fl C B q s) (async_open c).
Proof.
  intros Hp Hu HQ. apply tmq_wp_async_open; [auto|]. intros p. apply tmq_wp_plain; [done| |done|].
  - apply tmq_uses; [auto with tmq|]. eapply Forall_impl; [apply Hu|]. intros r [->|[]]; auto with tmq.
  - intros x _. split; [done|]. apply HQ.
Qed.

Lemma tmq_tame_plain {X} (c : ptr -> call X) :
  (forall p, plain (c p)) -> (forall p, args (c p) = [(KConsumer, p)]) -> tame (async_open c).
Proof. intros Hp Hu C B q s Q HQ. apply tmq_wp_async_plain; [done| |auto]. intros p. rewrite Hu. by repeat constructor. Qed.

Lemma tmq_tame_consumer error next : (forall msg, quiet (error msg)) -> tame next -> tame (with_consumer error next).
Proof.
  intros He Hn C B q s Q HQ. unfold with_consumer. apply tmq_wp_bind. cbn. intros p _.
  destruct (p =? nilp); [apply He; intros; apply HQ|by apply Hn].
Qed.

Lemma tmq_tame_ret {A} (x : A) : tame (mret x).
Proof. apply tmq_tame_quiet, tmq_quiet_ret. Qed.
Lemma tmq_tame_code r action reqID next : tame next -> tame (with_code r action reqID next).
Proof.
  intros Hn. unfold with_code. destruct r as [code|]; [|apply tmq_tame_ret].
  destruct (code =? 0); [done|]. apply tmq_tame_quiet, tmq_quiet_code.
Qed.

#[local] Hint Resolve tmq_quiet_error tmq_quiet_code tmq_quiet_ok tmq_quiet_raw_error tmq_quiet_log : tmq.
Ltac tame :=
  repeat first
    [ apply tmq_tame_consumer; [intros; auto with tmq|]
    | apply tmq_tame_code
    | apply tmq_tame_ret
    | apply tmq_tame_plain; done
    | apply tmq_tame_quiet; solve [auto with tmq | quiet]
    | apply tmq_tame_bind; [|intros ?]
    | lazymatch goal with |- tame (match ?x with _ => _ end) => destruct x end ].

Lemma tmq_tame_commit reqID id : tame (commit reqID id).
Proof. unfold commit, wrapperCommit. tame. Qed.
Lemma tmq_tame_assignment reqID topic : tame (assignment reqID topic).
Proof. unfold assignment, wrapperGetTopicAssignment. tame. Qed.
Lemma tmq_tame_seek reqID topic v o : tame (offsetSeek reqID topic v o).
Proof. unfold offsetSeek, wrapperOffsetSeek. tame. Qed.
Lemma tmq_tame_commitOffset reqID topic v o : tame (commitOffset reqID topic v o).
Proof. unfold commitOffset, wrapperCommitOffset. tame. Qed.
Lemma tmq_tame_offsets get action reqID l : forall offsets, (forall t v, tame (get t v)) -> tame (offsets_of get action reqID l offsets).
Proof.
  induction l as [|[t v] l IH]; intros offsets Hg; cbn [offsets_of]; [tame|].
  apply tmq_tame_bind; [apply Hg|]. intros [r|]; [|tame]. destruct (_ && _); [tame|auto].
Qed.
Lemma tmq_tame_committed reqID l : tame (committed reqID l).
Proof. unfold committed. tame. apply tmq_tame_offsets. intros. by apply tmq_tame_plain. Qed.
Lemma tmq_tame_position reqID l : tame (position reqID l).
Proof. unfold position. tame. apply tmq_tame_offsets. intros. by apply tmq_tame_plain. Qed.

Lemma tmq_wp_list_destroy K p Q :
  p = nilp \/ (KList, p) ∈ k_flight K -> (forall x, Q x (with_flight (k_flight K ∖ res_opt (Some (KList, p))) K)) ->
  wp Q K (call_ (C_TMQListDestroy p)).
Proof.
  intros Hp HQ. apply (tmq_wp_free _ _ (KList, p)); try done. intros r ->%list_elem_of_singleton. by left.
Qed.

Lemma tmq_tame_listTopics reqID : tame (listTopics reqID).
Proof.
  unfold listTopics. apply tmq_tame_consumer; [auto with tmq|]. intros C B q s Q HQ.
  op. split; [intros _; apply HQ|]. intros _. op. split; [intros _; apply HQ|]. intros _. op. intros p _.
  apply tmq_wp_bind, tmq_wp_alloc; try done.
  { intros r ->%list_elem_of_singleton. apply tmq_perm_consumer. }
  intros [code l] _ _. cbn [allocs snd]. nk. rewrite (right_id_L ∅ (∪)).
  assert (Hl : l = nilp \/ (KList, l) ∈ res_opt (Some (KList, l))).
  { destruct (decide (l = nilp)); [by left|right]. rewrite tmq_res_opt by done. set_solver. }
  assert (Hd : forall q' s' C' B', wp Q (held None false (res_opt (Some (KList, l))) C' B' q' s') (call_ (C_TMQListDestroy l))).
  { intros. apply tmq_wp_list_destroy; [done|]. intros x. nk. rewrite difference_diag_L. apply HQ. }
  apply tmq_wp_bind. destruct (code =? 0); cbn [negb]; [|by apply tmq_quiet_code].
  apply tmq_wp_bind, tmq_wp_plain; [done| |done|].
  { intros r ->%list_elem_of_singleton. destruct Hl; [by left|by apply tmq_perm_flight]. }
  intros topics _. assert (Hq : quiet (t ← GetDuration; send (TopicsResp (str "list_topics") reqID t topics))) by quiet.
  by apply Hq.
Qed.

(** ** The last message *)

(** The buffer of a message has room for the data. *)
Definition slice_in (b : slice) (B : gset nat) : Prop := match b with Some (b, _) => b ∈ B | None => True end.

Lemma tmq_slice_in m B : buf_of m ⊆ B -> slice_in (buffer m) B.
Proof. unfold buf_of, slice_in. destruct (buffer m) as [[b n]|]; set_solver. Qed.

Lemma tmq_wp_fill buf data m a fl C B q s Q :
  slice_in buf B ->
  (forall b B', B ⊆ B' -> slice_in b B' -> Q b (held m a fl C B' q s)) -> wp Q (held m a fl C B q s) (fill buf data).
Proof.
  intros Hb HQ. unfold fill. apply tmq_wp_bind.
  assert (Hm : wp (fun x K' => wp Q K' (do_ (OFillBuf x data);; mret (Some (x, zlen data)))) (held m a fl C B q s) (do_ (OMakeBuf (zlen data)))).
  { cbn. intros b. split; [set_solver|]. nk. apply HQ; [set_solver|]. cbn. set_solver. }
  unfold reserve. destruct buf as [[b n]|]; [|done]. apply tmq_wp_bind. cbn. split; [done|]. intros c.
  destruct (c <? zlen data); [exact Hm|]. cbn. split; [done|]. by apply HQ.
Qed.

(** A program on the locked last message [m]: it may write another buffer, and gives back what it
    takes beside the message. *)
Definition mild {A} (m : Message) (p : prog A) : Prop :=
  forall C B q s (Q : A -> know -> Prop), buf_of m ⊆ B ->
    (forall x m' C' B' q' s', CPointer m' = CPointer m -> buf_of m' ⊆ B' -> Q x (held (Some m') false (res_set m) C' B' q' s')) ->
    wp Q (held (Some m) false (res_set m) C B q s) p.

Lemma tmq_mild_quiet {A} m (p : prog A) : quiet p -> mild m p.
Proof. intros Hp C B q s Q Hb HQ. apply Hp. auto. Qed.

Lemma tmq_tame_message error unequal id body :
  (forall msg, quiet (error msg)) -> (forall m, CPointer m <> nilp -> mild m (body m)) -> tame (with_message error unequal id body).
Proof.
  intros He Hb. unfold with_message. apply tmq_tame_consumer; [done|]. intros C B q s Q HQ. op. split; [done|]. intros m _.
  rewrite (right_id_L ∅ (∪)). op. exists m. split; [done|].
  assert (Hm : mild m (if CPointer m =? nilp then error (str "message has been freed")
     else if negb (Index m =? id) then error unequal else body m)).
  { destruct (Z.eqb_spec (CPointer m) nilp); [apply tmq_mild_quiet, He|].
    destruct (Index m =? id); [by apply Hb|apply tmq_mild_quiet, He]. }
  apply tmq_wp_bind, Hm; [set_solver|]. intros x m' C' B' q' s' E _.
  assert (Er : res_set m' = res_set m) by (unfold res_set, resources; by rewrite E).
  op. exists m'. split; [done|]. rewrite Er. split; [done|]. rewrite difference_diag_L. apply HQ.
Qed.

Lemma tmq_mild_bind {A B} m (p : prog A) (f : A -> prog B) : quiet p -> (forall x, mild m (f x)) -> mild m (p ≫= f).
Proof. intros Hp Hf C B' q s Q Hb HQ. apply tmq_wp_bind, Hp. intros x. by apply Hf. Qed.

(** A call on the locked message. *)
Lemma tmq_mild_plain {X B} m (c : call X) (f : X -> prog B) :
  CPointer m <> nilp -> plain c -> is_async c = false -> args c = [(KMessage, CPointer m)] -> (forall x, mild m (f x)) ->
  mild m (call_ c ≫= f).
Proof.
  intros Hm Hp Ha Hu Hf C B' q s Q Hb HQ. apply tmq_wp_bind, tmq_wp_plain; [done| |by rewrite Ha|].
  - apply tmq_uses; [by rewrite Ha|]. rewrite Hu. constructor; [|done]. apply tmq_perm_flight; [done|]. cbn.
    rewrite tmq_res_set by done. set_solver.
  - intros x _. by apply Hf.
Qed.

Lemma tmq_buf_set m b B : slice_in b B -> buf_of (set_buffer m b) ⊆ B.
Proof. unfold slice_in, buf_of. cbn. destruct b as [[b n]|]; set_solver. Qed.

(** The new buffer of the message, with the rest of the program. *)
Lemma tmq_mild_fill m data (p : slice -> prog unit) : (forall b, quiet (p b)) ->
  mild m (b ← fill (buffer m) data; do_ (OWriteMsg (set_buffer m b));; p b).
Proof.
  intros Hp C B q s Q Hb HQ. apply tmq_wp_bind, tmq_wp_fill; [by apply tmq_slice_in|]. intros b B' Hs Hin.
  op. exists m. split; [done|]. split; [by apply tmq_buf_set|]. split; [right; by left|]. apply Hp. intros x.
  apply HQ; [done|by apply tmq_buf_set].
Qed.

(** An asynchronous call on the locked message, which neither hands out nor takes back. *)
Lemma tmq_mild_async {X B} m (c : call X) (f : option X -> prog B) :
  CPointer m <> nilp -> plain c -> args c = [(KMessage, CPointer m)] -> (forall x, mild m (f x)) ->
  mild m (async_open (fun _ => c) ≫= f).
Proof.
  intros Hm Hp Hu Hf C B' q s Q Hb HQ. apply tmq_wp_bind, tmq_wp_async_plain; [done| |].
  - intros p. rewrite Hu. constructor; [|done]. right. split; [done|]. rewrite tmq_res_set by done. set_solver.
  - intros x q' s'. by apply Hf.
Qed.

Lemma tmq_tame_fetch reqID id : tame (fetch reqID id).
Proof.
  unfold fetch, wrapperFetchRawBlock. apply tmq_tame_message; [auto with tmq|]. intros m Hm.
  destruct (canGetData (MType m)); cbn [negb]; [|apply tmq_mild_quiet; auto with tmq].
  apply tmq_mild_async; [done|done|done|]. intros [[[code size] block]|]; [|apply tmq_mild_quiet; quiet].
  destruct (code =? 0); cbn [negb]; [|apply tmq_mild_quiet; auto with tmq].
  destruct (size =? 0); [apply tmq_mild_quiet; quiet|].
  do 5 (apply tmq_mild_plain; [done|done|done|done|]; intros ?).
  do 2 (apply tmq_mild_bind; [apply tmq_quiet_lift|]; intros ?). apply tmq_mild_fill. intros b. quiet.
Qed.

Lemma tmq_tame_fetchBlock reqID id : tame (fetchBlock reqID id).
Proof.
  unfold fetchBlock. apply tmq_tame_message; [auto with tmq|]. intros m Hm.
  destruct (canGetData (MType m)); cbn [negb]; [|apply tmq_mild_quiet; auto with tmq].
  destruct (buffer m) as [[b n]|] eqn:Eb; [|apply tmq_mild_quiet; auto with tmq].
  destruct (n =? 0); [apply tmq_mild_quiet; auto with tmq|]. apply tmq_mild_bind; [quiet|]. intros t C B q s Q Hb HQ.
  op. split. { pose proof (tmq_slice_in _ _ Hb) as H. by rewrite Eb in H. }
  op. by apply HQ.
Qed.

(** A raw value is taken for the time of [body]. *)
Lemma tmq_mild_raw {A} m (get : ptr -> prog A) (rest : ptr -> A -> prog unit) : CPointer m <> nilp ->
  (forall raw C B q s Q, raw <> nilp -> buf_of m ⊆ B ->
     (forall x m' C' B' q' s', CPointer m' = CPointer m -> buf_of m' ⊆ B' ->
        Q x (held (Some m') false ({[(KRaw, raw)]} ∪ res_set m) C' B' q' s')) ->
     wp Q (held (Some m) false ({[(KRaw, raw)]} ∪ res_set m) C B q s) (x ← get raw; rest raw x)) ->
  mild m (rawData ← call_ C_InitTMQRaw; x ← get rawData; rest rawData x;; call_ (C_FreeTMQRaw rawData)).
Proof.
  intros Hm Hb C B q s Q Hbuf HQ. apply tmq_wp_bind, tmq_wp_alloc; try done; [by intros r ?%not_elem_of_nil|].
  intros raw Hraw%negb_true_iff%Z.eqb_neq. cbn [allocs]. nk. rewrite tmq_res_opt by done. intros Hd.
  apply (tmq_wp_assoc _ _ (fun _ => call_ (C_FreeTMQRaw raw))), tmq_wp_bind, Hb; [done|done|]. intros [] m' C' B' q' s' E Hb'.
  apply (tmq_wp_free _ _ (KRaw, raw)); try done.
  - intros r ->%list_elem_of_singleton. by left.
  - right. cbn. set_solver.
  - intros x. nk. rewrite tmq_res_opt by done.
    assert ((({[(KRaw, raw)]} ∪ res_set m) ∖ {[(KRaw, raw)]} : gset res) = res_set m) as -> by set_solver. by apply HQ.
Qed.

Definition finish_raw (m : Message) (raw : ptr) (b : slice) : prog unit :=
  do_ (OWriteMsg (set_buffer m b));; call_ (C_TMQFreeRaw raw);; send (BufferResp b).

(** The raw data of the message, and what the program does with it. *)
Lemma tmq_wp_raw m raw (fail : Z -> prog unit) (ok : Z * Z * mem -> prog unit) C B q s Q :
  CPointer m <> nilp -> raw <> nilp -> buf_of m ⊆ B -> (forall code, quiet (fail code)) ->
  (forall x fl C B q s Q, buf_of m ⊆ B ->
     (forall b B', B ⊆ B' -> slice_in b B' -> wp Q (held (Some m) false fl C B' q s) (finish_raw m raw b)) ->
     wp Q (held (Some m) false fl C B q s) (ok x)) ->
  (forall x m' C' B' q' s', CPointer m' = CPointer m -> buf_of m' ⊆ B' ->
     Q x (held (Some m') false ({[(KRaw, raw)]} ∪ res_set m) C' B' q' s')) ->
  wp Q (held (Some m) false ({[(KRaw, raw)]} ∪ res_set m) C B q s)
    (r ← wrapperGetRaw (CPointer m) raw;
     match r with
     | None => mret tt
     | Some errCode =>
       if negb (errCode =? 0) then fail errCode
       else
         x ← call_ (C_ParseRawMeta raw); ok x
     end).
Proof.
  intros Hm Hraw Hb Hfail Hok HQ. apply tmq_wp_bind, tmq_wp_async_open; [intros s'; by apply HQ|].
  intros p. apply tmq_wp_alloc; try done.
  { apply tmq_uses; [auto with tmq|]. rewrite tmq_res_set by done. flights. }
  intros code _ Hd. split; [done|]. cbn [allocs] in *. nk. destruct (Z.eqb_spec code 0) as [Hc|Hc]; cbn [negb].
  2: { change (res_opt None) with (∅ : gset res). rewrite (left_id_L ∅ (∪)). apply Hfail. intros x. by apply HQ. }
  rewrite tmq_res_opt in * by done. cbn in Hd. apply tmq_wp_bind, tmq_wp_plain; [done| |done|].
  { apply tmq_uses; [done|]. flights. }
  intros x _. apply Hok; [done|]. intros b B' Hs Hin. unfold finish_raw. op. exists m. split; [done|].
  split; [by apply tmq_buf_set|]. split; [right; by left|]. apply tmq_wp_bind, (tmq_wp_free _ _ (KRawData, raw)); try done.
  - apply tmq_uses; [done|]. cbn [args]. rewrite !Forall_cons, Forall_nil. split; [right|by split; [left|]]. apply tmq_perm_flight; [done|]. cbn.
    rewrite tmq_res_opt by done. set_solver.
  - right. cbn. set_solver.
  - intros _. nk. rewrite tmq_res_opt by done.
    assert ((({[(KRawData, raw)]} ∪ ({[(KRaw, raw)]} ∪ res_set m)) ∖ {[(KRawData, raw)]} : gset res) = {[(KRaw, raw)]} ∪ res_set m)
      as -> by (rewrite tmq_res_set by done; set_solver).
    op. apply HQ; [done|by apply tmq_buf_set].
Qed.

Lemma tmq_tame_fetchRaw reqID id : tame (fetchRawBlock reqID id).
Proof.
  unfold fetchRawBlock. apply tmq_tame_message; [auto with tmq|]. intros m Hm. apply tmq_mild_raw; [done|].
  intros raw C B q s Q Hraw Hb HQ. apply (tmq_wp_raw m raw _ (fun x => let '(length, metaType, mem) := x in _)); try done.
  - auto with tmq.
  - clear. intros [[length metaType] mem] fl C B q s Q Hb HQ. apply tmq_wp_bind, tmq_quiet_call; [done|done|done|]. intros t.
    apply tmq_wp_bind, tmq_quiet_lift. intros data. apply tmq_wp_bind, tmq_wp_fill; [by apply tmq_slice_in|apply HQ].
Qed.

Lemma tmq_tame_fetchRawNew reqID id : tame (fetchRawBlockNew reqID id).
Proof.
  unfold fetchRawBlockNew. apply tmq_tame_message; [auto with tmq|]. intros m Hm. apply tmq_mild_raw; [done|].
  intros raw C B q s Q Hraw Hb HQ. apply (tmq_wp_raw m raw _ (fun x => let '(length, metaType, mem) := x in _)); try done.
  - intros code. quiet. auto with tmq.
  - clear. intros [[length metaType] mem] fl C B q s Q Hb HQ. apply tmq_wp_bind. unfold wsFetchRawBlockMessage.
    apply tmq_wp_bind, tmq_quiet_call; [done|done|done|]. intros t. apply tmq_wp_bind, tmq_quiet_lift. intros data.
    apply tmq_wp_fill; [by apply tmq_slice_in|apply HQ].
Qed.

Lemma tmq_tame_fetchJsonMeta reqID id : tame (fetchJsonMeta reqID id).
Proof.
  unfold fetchJsonMeta, wrapperGetJsonMeta. apply tmq_tame_message; [auto with tmq|]. intros m Hm C B q s Q Hb HQ.
  apply tmq_wp_bind, tmq_wp_async_open; [intros s'; by apply HQ|].
  intros p. apply tmq_wp_alloc; try done.
  { apply tmq_uses; [auto with tmq|]. rewrite tmq_res_set by done. flights. }
  intros meta _ Hd. split; [done|]. cbn [allocs] in *. nk. cbn in Hd.
  assert (Hfree : forall data, wp Q (held (Some m) false (res_opt (Some (KMeta, meta)) ∪ res_set m) C B (Some p) s)
    (call_ (C_TMQFreeJsonMeta meta);; t ← GetDuration; send (JsonMetaResp (str "fetch_json_meta") reqID t id data))).
  { intros data. apply tmq_wp_bind, (tmq_wp_free _ _ (KMeta, meta)); try done.
    - intros r ->%list_elem_of_singleton. by left.
    - destruct (decide (meta = nilp)); [by left|right]. cbn. rewrite tmq_res_opt by done. set_solver.
    - intros _. nk.
      assert (((res_opt (Some (KMeta, meta)) ∪ res_set m) ∖ res_opt (Some (KMeta, meta)) : gset res) = res_set m) as -> by set_solver.
      assert (Hq : quiet (t ← GetDuration; send (JsonMetaResp (str "fetch_json_meta") reqID t id data))) by quiet.
      apply Hq. intros x. by apply HQ. }
  apply tmq_wp_bind. destruct (Z.eqb_spec meta nilp) as [E|E]; [by apply tmq_quiet_ret|].
  apply tmq_wp_bind, tmq_wp_plain; [done| |done|].
  - intros r ->%list_elem_of_singleton. apply tmq_perm_flight; [done|]. cbn. rewrite tmq_res_opt by done. set_solver.
  - intros mem _. apply tmq_wp_bind, tmq_quiet_string. intros data. by apply tmq_quiet_ret.
Qed.

(** ** Polling *)

Lemma tmq_tame_auto_commit : tame auto_commit.
Proof. unfold auto_commit, wrapperCommit. tame. Qed.

(** A plain call on a message in flight. *)
Lemma tmq_wp_message {X} K (c : call X) p Q :
  plain c -> is_async c = false -> args c = [(KMessage, p)] -> (KMessage, p) ∈ k_flight K -> (forall x, Q x K) -> wp Q K (call_ c).
Proof.
  intros Hp Ha Hu Hf HQ. apply tmq_wp_plain; [done| |by rewrite Ha|auto]. apply tmq_uses; [by rewrite Ha|].
  rewrite Hu. constructor; [|done]. by apply tmq_perm_flight.
Qed.
Lemma tmq_wp_free_result K p Q :
  p <> nilp -> (KMessage, p) ∈ k_flight K -> (forall x, Q x (with_flight (k_flight K ∖ {[(KMessage, p)]}) K)) ->
  wp Q K (call_ (C_FreeResult p)).
Proof.
  intros Hn Hf HQ. apply (tmq_wp_free _ _ (KMessage, p)); try done; rewrite ?tmq_res_opt by done; [|by right|done].
  intros r ->%list_elem_of_singleton. by left.
Qed.

(** The message in place of the old one: unless the session is closed only the new one is in flight. *)
Lemma tmq_wp_replace m p C B q s Q :
  p <> nilp -> res_set m ## {[(KMessage, p)]} ->
  (forall s', Q true (held (Some m) false (res_set m ∪ {[(KMessage, p)]}) C B q s')) ->
  Q false (held (Some m) false {[(KMessage, p)]} C B q s) ->
  wp Q (held (Some m) false (res_set m ∪ {[(KMessage, p)]}) C B q s)
    (if negb (CPointer m =? nilp) then wrapperFreeResult else mret false).
Proof.
  intros Hp Hd HT HF. destruct (Z.eqb_spec (CPointer m) nilp) as [E|E]; cbn [negb].
  { cbn. rewrite tmq_res_set_nil by done. by rewrite (left_id_L ∅ (∪)). }
  rewrite tmq_res_set in * by done. unfold wrapperFreeResult. op. split; [done|]. op. split.
  { intros _. op. split; [done|]. apply HT. }
  intros _. op. exists m. split; [done|]. rewrite (proj2 (Z.eqb_neq _ _) E).
  apply tmq_wp_bind, (tmq_wp_free _ _ (KMessage, CPointer m)); try done.
  - apply tmq_uses; [intros _; split; right; apply tmq_perm_session; auto|]. constructor; [by left|done].
  - right. cbn. set_solver.
  - intros _. op. split; [done|]. rewrite tmq_res_opt by done.
    assert ((({[(KMessage, CPointer m)]} ∪ {[(KMessage, p)]}) ∖ {[(KMessage, CPointer m)]} : gset res) = {[(KMessage, p)]})
      as -> by set_solver.
    apply HF.
Qed.

Lemma tmq_wp_keep p ty action reqID C B q s Q :
  p <> nilp -> (forall x q' s' C' B', Q x (idle C' B' q' s')) ->
  wp Q (held None false {[(KMessage, p)]} C B q s) (keep_message p ty action reqID).
Proof.
  intros Hp HQ. unfold keep_message. op. split; [done|]. intros m Hd. op. exists m. split; [done|].
  apply tmq_wp_bind, tmq_wp_replace; [done|done| |]; [intros s'|]; apply tmq_wp_bind.
  - apply tmq_wp_free_result; [done|cbn; set_solver|]. intros _. op. exists m. split; [done|].
    assert (((res_set m ∪ {[(KMessage, p)]}) ∖ {[(KMessage, p)]} : gset res) = res_set m) as -> by set_solver.
    split; [done|]. rewrite difference_diag_L. apply HQ.
  - do 3 (apply tmq_wp_bind, (tmq_wp_message _ _ p); [done|done|done|cbn; set_solver|]; intros ?).
    set (m' := mkMessage _ _ _ _ _ p (buffer m)).
    op. exists m. split; [done|]. split; [unfold buf_of, m' in *; cbn; set_solver|]. split; [by right; right|].
    apply tmq_wp_bind, (tmq_wp_message _ _ p); [done|done|done|cbn; set_solver|]. intros db.
    apply tmq_wp_bind, tmq_quiet_call; [done|done|done|]. intros t. op. op. exists m'. split; [done|].
    rewrite tmq_res_set by done. split; [done|]. rewrite difference_diag_L. apply HQ.
Qed.

Lemma tmq_tame_poll reqID blocking : tame (poll reqID blocking).
Proof.
  unfold poll, wrapperPoll. apply tmq_tame_consumer; [auto with tmq|]. apply tmq_tame_bind; [apply tmq_tame_auto_commit|].
  intros go. destruct go; cbn [negb]; [|apply tmq_tame_ret]. intros C B q s Q HQ.
  assert (Hn : quiet (t ← GetDuration; send (PollResp (str "poll") reqID t None))) by quiet.
  apply tmq_wp_bind, tmq_wp_async_open; [intros s'; cbn; by apply Hn|].
  intros p. apply tmq_wp_alloc; try done.
  { apply tmq_uses; [auto with tmq|]. constructor; [apply tmq_perm_consumer|done]. }
  intros msg _ _. split; [done|]. cbn [allocs default id]. nk. rewrite (right_id_L ∅ (∪)).
  destruct (Z.eqb_spec msg nilp) as [->|E]; [rewrite tmq_res_nil by done; by apply Hn|]. rewrite tmq_res_opt by done.
  apply tmq_wp_bind, (tmq_wp_message _ _ msg); [done|done|done|cbn; set_solver|]. intros ty.
  destruct (messageTypeIsValid ty); [by apply tmq_wp_keep|]. apply tmq_wp_bind, tmq_wp_free_result; [done|cbn; set_solver|].
  intros _. nk. rewrite difference_diag_L. apply tmq_quiet_error. intros x. apply HQ.
Qed.

(** ** Under the lock of the handler *)

(** A counted goroutine with the lock of the handler that found the session open under it. *)
Abbreviation locked hc m a fl C B q s := (mkKnow true true hc m a fl C B true true q s false false false) (only parsing).

Lemma tmq_lock_session hc m a fl C B q s r : r = the_thread \/ r = the_handler -> permitted (locked hc m a fl C B q s) r.
Proof. intros Hr. right. right. left. split; [by left|done]. Qed.
Lemma tmq_lock_consumer p m a fl C B q s : permitted (locked (Some p) m a fl C B q s) (KConsumer, p).
Proof. right. right. right. left. split; [done|]. right. split; [by left|by right]. Qed.
#[local] Hint Resolve tmq_lock_session tmq_lock_consumer : tmq.

Lemma tmq_wp_append list topics hc fl C B q s Q :
  (KList, list) ∈ fl -> (forall x, Q x (locked hc None false fl C B q s)) ->
  wp Q (locked hc None false fl C B q s) (append_topics list topics).
Proof.
  intros Hl HQ. induction topics as [|t topics IH]; cbn [append_topics]; [apply HQ|].
  apply tmq_wp_bind, tmq_wp_plain; [done| |done|]; [apply tmq_uses; [done|]; flights|].
  intros code _. destruct (code =? 0); cbn [negb]; [done|apply HQ].
Qed.
Lemma tmq_wp_conf conf options hc fl C B q s Q :
  (KConf, conf) ∈ fl -> (forall x, Q x (locked hc None false fl C B q s)) ->
  wp Q (locked hc None false fl C B q s) (conf_set conf options).
Proof.
  intros Hl HQ. induction options as [|[k v] options IH]; cbn [conf_set]; [apply HQ|].
  apply tmq_wp_bind, tmq_wp_plain; [done| |done|]; [apply tmq_uses; [done|]; flights|].
  intros code _. destruct (code =? 0); cbn [negb]; [done|apply HQ].
Qed.

Lemma tmq_wp_async {X} (c : call X) hc fl C B q s Q :
  wp (fun x K' => k_async K' = true /\ Q x (with_async false K')) (locked hc None true fl C B q s) (call_ c) ->
  wp Q (locked hc None false fl C B q s) (async c).
Proof. intros H. unfold async. op. split; [done|]. apply tmq_wp_bind. exact H. Qed.

(** The consumer is usable: it is the session's, or in flight. *)
Lemma tmq_wp_subscribe p list hc fl C B q s Q :
  hc = Some p \/ (KConsumer, p) ∈ fl -> (KList, list) ∈ fl -> (forall x, Q x (locked hc None false fl C B q s)) ->
  wp Q (locked hc None false fl C B q s) (wrapperSubscribe p list).
Proof.
  intros Hp Hl HQ. apply tmq_wp_async, tmq_wp_plain; [done| |done|by intros x _].
  apply tmq_uses; [auto with tmq|]. cbn [args]. rewrite !Forall_cons, Forall_nil.
  split; [|split; [by apply tmq_perm_flight|done]]. destruct Hp as [->|Hp]; [apply tmq_lock_consumer|by apply tmq_perm_flight].
Qed.

Lemma tmq_wp_new_list hc fl C B q s Q :
  (forall l, l <> nilp -> (KList, l) ∉ fl -> Q l (locked hc None false ({[(KList, l)]} ∪ fl) C B q s)) ->
  wp Q (locked hc None false fl C B q s) (call_ C_TMQListNew).
Proof.
  intros HQ. apply tmq_wp_alloc; try done; [by intros r ?%not_elem_of_nil|].
  intros l Hl%negb_true_iff%Z.eqb_neq. cbn [allocs]. nk. rewrite tmq_res_opt by done. intros Hd. apply HQ; [done|set_solver].
Qed.
Lemma tmq_wp_end_list l hc fl C B q s Q :
  l <> nilp -> (KList, l) ∉ fl -> (forall x, Q x (locked hc None false fl C B q s)) ->
  wp Q (locked hc None false ({[(KList, l)]} ∪ fl) C B q s) (call_ (C_TMQListDestroy l)).
Proof.
  intros Hl Hn HQ. apply tmq_wp_list_destroy; [right; cbn; set_solver|]. intros x. nk. rewrite tmq_res_opt by done.
  by assert ((({[(KList, l)]} ∪ fl) ∖ {[(KList, l)]} : gset res) = fl) as -> by set_solver.
Qed.

Lemma tmq_wp_resubscribe p action req C B q s Q :
  (forall x, Q x (locked (Some p) None false ∅ C B q s)) ->
  wp Q (locked (Some p) None false ∅ C B q s) (resubscribe p action req).
Proof.
  intros HQ. unfold resubscribe. apply tmq_wp_bind, tmq_wp_new_list. intros l Hl Hn.
  assert (Hend : forall x : unit, wp Q (locked (Some p) None false ({[(KList, l)]} ∪ ∅) C B q s) (call_ (C_TMQListDestroy l)))
    by (intros _; by apply tmq_wp_end_list).
  apply tmq_wp_bind, tmq_wp_append; [set_solver|]. intros code. apply tmq_wp_bind.
  destruct (code =? 0); cbn [negb]; [|by apply tmq_quiet_code].
  apply tmq_wp_bind, tmq_wp_subscribe; [by left|set_solver|]. intros code'.
  destruct (code' =? 0); cbn [negb]; [|by apply tmq_quiet_code]. op. by apply tmq_quiet_ok.
Qed.

(** The connection of a consumer in flight. *)
Definition conn_known (conn p : ptr) (C : gmap ptr ptr) : Prop := conn = nilp \/ C !! conn = Some p.

Lemma tmq_perm_conn conn p hc m a fl C B q s :
  p <> nilp -> (KConsumer, p) ∈ fl -> conn_known conn p C -> permitted (locked hc m a fl C B q s) (KConn, conn).
Proof.
  intros Hp Hf [->|Hc]; [by left|]. right. right. right. right. split; [done|]. exists p. split; [done|]. split; [done|]. by left.
Qed.

Lemma tmq_wp_conn {X} (c : call X) conn p hc fl C B q s Q :
  plain c -> is_async c = false -> args c = [(KConn, conn)] -> p <> nilp -> (KConsumer, p) ∈ fl -> conn_known conn p C ->
  (forall x, Q x (locked hc None false fl C B q s)) -> wp Q (locked hc None false fl C B q s) (call_ c).
Proof.
  intros Hc Ha Hu Hp Hf Hk HQ. apply tmq_wp_plain; [done| |by rewrite Ha|auto]. apply tmq_uses; [by rewrite Ha|].
  rewrite Hu. constructor; [|done]. by apply (tmq_perm_conn _ p).
Qed.

Section Consumer.
Context (ip ipStr : list Z) (Quote : list Z -> list Z).
Context (p conn list : ptr) (C : gmap ptr ptr) (B : gset nat) (q : option ptr) (s : bool) (fl : gset res).
Context (Hp : p <> nilp) (Hf : (KConsumer, p) ∈ fl) (Q : unit -> know -> Prop).
(** The consumer is in flight while it is set up, and then it is closed or given to the session. *)
Abbreviation setup C := (locked (Some nilp) None false fl C B q s) (only parsing).
Context (HQ : forall x hc' C', Q x (locked hc' None false (fl ∖ {[(KConsumer, p)]}) C' B q s)).

Lemma tmq_wp_fail C' err action reqID : wp Q (setup C') (closeConsumerWithErrLog p action reqID err).
Proof.
  unfold closeConsumerWithErrLog. apply tmq_wp_bind, tmq_wp_async, (tmq_wp_free _ _ (KConsumer, p)); try done.
  - apply tmq_uses; [intros _; split; right; apply tmq_lock_session; auto|]. constructor; [by left|done].
  - by right.
  - intros code. split; [done|]. nk. rewrite tmq_res_opt by done.
    apply tmq_wp_bind, tmq_quiet_log. intros _. apply tmq_quiet_WSError. intros x. apply HQ.
Qed.

Context (Hk : conn_known conn p C).

Lemma tmq_wp_whitelist Q' : (forall x, Q' x (setup C)) -> wp Q' (setup C) (GetWhitelist conn).
Proof.
  intros HQ'. unfold GetWhitelist. apply tmq_wp_bind, (tmq_wp_conn _ conn p); try done. intros x.
  destruct (fst x =? 0); cbn [negb]; [apply HQ'|]. apply tmq_wp_bind, tmq_quiet_call; [done|done|done|]. intros e. apply HQ'.
Qed.
Lemma tmq_wp_register n Q' : (forall x, Q' x (setup C)) -> wp Q' (setup C) (register conn n).
Proof.
  intros HQ'. unfold register. apply tmq_wp_bind, (tmq_wp_conn _ conn p); try done. intros x.
  destruct (x =? 0); cbn [negb]; [apply HQ'|]. apply tmq_wp_bind, tmq_quiet_call; [done|done|done|]. intros e. apply HQ'.
Qed.
Lemma tmq_wp_option fail wanted opt v next :
  (forall err, wp Q (setup C) (fail err)) -> wp Q (setup C) next -> wp Q (setup C) (conn_option conn fail wanted opt v next).
Proof.
  intros Hfail Hn. unfold conn_option. destruct wanted; [|done]. apply tmq_wp_bind, (tmq_wp_conn _ conn p); try done. intros x.
  destruct (x =? 0); cbn [negb]; [done|]. apply tmq_wp_bind, tmq_quiet_call; [done|done|done|]. intros e. apply Hfail.
Qed.
End Consumer.

Lemma tmq_wp_connect p fl C B q s Q :
  (KConsumer, p) ∈ fl -> (forall conn C', conn_known conn p C' -> Q conn (locked (Some nilp) None false fl C' B q s)) ->
  wp Q (locked (Some nilp) None false fl C B q s) (call_ (C_TMQGetConnect p)).
Proof.
  intros Hf HQ. apply tmq_wp_do. cbn [pre]. split; [apply tmq_uses; [done|]; flights|]. split; [done|]. split; [done|].
  change (res_opt (frees (C_TMQGetConnect p))) with (∅ : gset res). nk. rewrite difference_empty_L.
  split; [|split; [done|]]. { intros r Hr. right. revert r Hr. apply tmq_uses; [done|]. flights. }
  intros conn _ _. unfold after_answer. cbn [conn_of]. nk. destruct (Z.eqb_spec conn nilp) as [E|E]; cbn [allocs].
  - change (res_opt None) with (∅ : gset res). rewrite (left_id_L ∅ (∪)). apply HQ. by left.
  - rewrite (left_id_L ∅ (∪)). apply HQ. right. apply lookup_insert_eq.
Qed.

(** The last message is given back, and its pointer cleared. *)
Lemma tmq_wp_clear h ho hc m fl C B ct oo q sn cl dr em Q :
  CPointer m <> nilp -> res_set m ## fl ->
  (forall r, r = the_thread \/ r = the_handler -> permitted (mkKnow h ho hc (Some m) true fl C B ct oo q sn cl dr em) r) ->
  Q tt (mkKnow h ho hc (Some (set_pointer m nilp None)) false fl C B ct oo q sn cl dr em) ->
  wp Q (mkKnow h ho hc (Some m) true (res_set m ∪ fl) C B ct oo q sn cl dr em)
    (call_ (A_FreeResult (CPointer m));; do_ (OUnlock LAsync);; do_ (OWriteMsg (set_pointer m nilp None))).
Proof.
  intros Hm Hd Hp HQ. rewrite tmq_res_set in * by done.
  assert (E : (({[(KMessage, CPointer m)]} ∪ fl) ∖ {[(KMessage, CPointer m)]} : gset res) = fl) by set_solver.
  apply tmq_wp_bind, (tmq_wp_free _ _ (KMessage, CPointer m)); rewrite ?tmq_res_opt by done; nk; rewrite ?E; try done.
  - apply tmq_uses; [intros _; split; right; auto|]. constructor; [by left|done].
  - right. set_solver.
  - intros _. op. split; [done|]. op. exists m. split; [done|]. split; [done|]. split; [by left|done].
Qed.

Lemma tmq_res_cleared m b : res_set (set_pointer m nilp b) = ∅.
Proof. by apply tmq_res_set_nil. Qed.

Lemma tmq_wp_freeMessage hc fl C B q s Q :
  (forall C' B' q' s', Q tt (locked hc None false fl C' B' q' s')) ->
  wp Q (locked hc None false fl C B q s) (freeMessage false).
Proof.
  intros HQ. unfold freeMessage. op. split; [done|]. intros m Hd. op. exists m. split; [done|]. apply tmq_wp_bind.
  destruct (Z.eqb_spec (CPointer m) nilp) as [E|E]; cbn [negb].
  - op. exists m. split; [done|]. split; [done|]. split; [right; by left|]. op. eexists. split; [done|].
    rewrite (tmq_res_set_nil m), (tmq_res_set_nil (set_buffer m None)) by done. split; [set_solver|].
    rewrite (left_id_L ∅ (∪)), difference_empty_L. apply HQ.
  - op. split; [done|]. op. split; [done|]. intros _. apply tmq_wp_clear; [done|done|intros; by apply tmq_lock_session|].
    op. eexists. split; [done|]. rewrite tmq_res_cleared. split; [set_solver|]. rewrite difference_empty_L. apply HQ.
Qed.

(** The goroutine that closes the session, after [t.wg.Wait()]. *)
Abbreviation closing hc m a fl C B q em := (mkKnow true false hc m a fl C B false false q true true true em) (only parsing).

Lemma tmq_wp_freeLast hc fl C B q em Q :
  the_thread ∈ fl -> the_handler ∈ fl ->
  (forall C' B' q', Q tt (closing hc None false fl C' B' q' true)) ->
  wp Q (closing hc None false fl C B q em) (freeMessage true).
Proof.
  intros Ht Hh HQ. unfold freeMessage. op. split; [done|]. intros m Hd. op. exists m. split; [done|]. apply tmq_wp_bind.
  destruct (Z.eqb_spec (CPointer m) nilp) as [E|E]; cbn [negb].
  - op. exists m. split; [done|]. split; [done|]. split; [right; by left|]. op. eexists. split; [done|].
    rewrite (tmq_res_set_nil m), (tmq_res_set_nil (set_buffer m None)) by done. split; [set_solver|].
    rewrite (left_id_L ∅ (∪)), difference_empty_L. cbn [CPointer set_buffer]. rewrite E. destruct em; apply HQ.
  - op. split; [done|]. apply tmq_wp_bind, tmq_wp_ret. apply tmq_wp_clear; [done|done| |].
    { intros r Hr. apply tmq_perm_flight; cbn; by destruct Hr as [-> | ->]. }
    op. eexists. split; [done|]. rewrite tmq_res_cleared. split; [set_solver|]. rewrite difference_empty_L.
    destruct em; apply HQ.
Qed.

(** ** Closing *)

(** A goroutine that is not counted and holds no lock. *)
Abbreviation outside C B q s dr em := (mkKnow false false None None false ∅ C B false false q s false dr em) (only parsing).

(** The consumer is not unsubscribed any more, since the session is closed. *)
Lemma tmq_wp_no_unsubscribe hc fl C B q em Q :
  Q None (closing hc None false fl C B q em) -> wp Q (closing hc None false fl C B q em) wrapperUnsubscribe.
Proof.
  intros HQ. unfold wrapperUnsubscribe, async_open. op. split; [done|]. op. split; [|done]. intros _. op. by split.
Qed.

Lemma tmq_wp_close_consumer p fl C B q em Q :
  p <> nilp -> (KConsumer, p) ∈ fl -> the_thread ∈ fl -> the_handler ∈ fl ->
  (forall x, Q x (closing (Some p) None false (fl ∖ {[(KConsumer, p)]}) C B q em)) ->
  wp Q (closing (Some p) None false fl C B q em) (wrapperCloseConsumer p).
Proof.
  intros Hp Hf Ht Hh HQ. unfold wrapperCloseConsumer, async. op. split; [done|].
  apply tmq_wp_bind, (tmq_wp_free _ _ (KConsumer, p)); try done; rewrite ?tmq_res_opt by done; nk.
  - apply tmq_uses; [|constructor; [by left|done]].
    intros _. split; right; (apply tmq_perm_flight; [done|]); cbn; apply elem_of_difference; (split; [done|]); set_solver.
  - by right.
  - intros x. op. split; [done|]. apply tmq_wp_ret, HQ.
Qed.

(** From the closing of [t.exit] on. *)
Lemma tmq_wp_release hc C B q Q :
  (forall C' B' q' s' dr em, Q tt (outside C' B' q' s' dr em)) ->
  wp (fun _ K => wp Q K (do_ (OUnlock LHandler))) (closing hc None false {[the_thread; the_handler]} C B q true)
    (do_ OCloseExit;; do_ (OLock LAsync);; call_ C_DestroyTMQThread;; do_ (OUnlock LAsync);; call_ C_HandlerPut).
Proof.
  intros HQ. op. split; [done|]. split; [done|]. op. split; [done|].
  apply tmq_wp_bind, (tmq_wp_free _ _ the_thread); try done; [intros r ->%list_elem_of_singleton; by left|right; cbn; set_solver|].
  intros _. op. split; [done|]. assert (({[the_thread; the_handler]} ∖ res_opt (Some the_thread) : gset res) = {[the_handler]}) as ->
    by (change (res_opt (Some the_thread)) with ({[the_thread]} : gset res); set_solver).
  apply (tmq_wp_free _ _ the_handler); try done; [intros r ->%list_elem_of_singleton; by left|right; cbn; set_solver|].
  intros _. nk. change (res_opt (Some the_handler)) with ({[the_handler]} : gset res). rewrite difference_diag_L.
  op. split; [done|]. split; [done|]. apply HQ.
Qed.

Lemma tmq_wp_Close C B q s dr em Q :
  (forall C' B' q' s' dr em, Q tt (outside C' B' q' s' dr em)) -> wp Q (outside C B q s dr em) Close.
Proof.
  intros HQ. unfold Close. op. split; [done|]. op. split; [intros _; op; split; [done|]; split; [done|]; apply HQ|].
  intros _. apply tmq_wp_bind. op. split; [done|]. split; [done|]. op. do 3 (split; [done|]). intros p _ _.
  rewrite (right_id_L ∅ (∪)). set (fl := list_to_set _).
  assert (Hfl : the_thread ∈ fl /\ the_handler ∈ fl) by (subst fl; destruct (p =? nilp); set_solver). destruct Hfl as [Ht Hh].
  apply tmq_wp_bind, tmq_wp_freeLast; [done|done|]. intros C' B' q'. op. intros p' Hp'.
  rewrite (Hp' eq_refl p eq_refl). apply tmq_wp_bind.
  destruct (Z.eqb_spec p nilp) as [E|E]; cbn [negb].
  { apply tmq_wp_ret. assert (fl = {[the_thread; the_handler]}) as -> by (subst fl; set_solver). by apply tmq_wp_release. }
  assert (Hend : forall C B q, wp (fun _ K => wp (fun _ K => wp Q K (do_ (OUnlock LHandler))) K
    (do_ OCloseExit;; do_ (OLock LAsync);; call_ C_DestroyTMQThread;; do_ (OUnlock LAsync);; call_ C_HandlerPut))
    (closing (Some p) None false fl C B q true) (code ← wrapperCloseConsumer p; log_error code)).
  { intros. apply tmq_wp_bind, tmq_wp_close_consumer; [done|subst fl; set_solver|done|done|]. intros code. apply tmq_quiet_log.
    intros _. assert ((fl ∖ {[(KConsumer, p)]} : gset res) = {[the_thread; the_handler]}) as -> by (subst fl; set_solver).
    by apply tmq_wp_release. }
  op. intros st. apply tmq_wp_bind. destruct (unsubscribed st); cbn [negb]; [apply tmq_wp_ret, Hend|].
  apply tmq_wp_bind, tmq_wp_no_unsubscribe, tmq_quiet_log. intros _. apply Hend.
Qed.

Lemma tmq_close_ok : wp ends (k_init false) HandleClose.
Proof. unfold HandleClose. apply tmq_wp_bind, tmq_wp_Close. intros. by repeat split. Qed.

Section Handlers.
Context (ip ipStr : list Z) (Quote : list Z -> list Z).

Lemma tmq_wp_start p list action req fl C B q s Q :
  p <> nilp -> (KConsumer, p) ∈ fl -> (KList, list) ∈ fl ->
  (forall x hc' C', Q x (locked hc' None false (fl ∖ {[(KConsumer, p)]}) C' B q s)) ->
  wp Q (locked (Some nilp) None false fl C B q s) (start_consumer ip ipStr p list action req).
Proof.
  intros Hp Hf Hl HQ. unfold start_consumer.
  assert (Hfail : forall C' err, wp Q (locked (Some nilp) None false fl C' B q s) (closeConsumerWithErrLog p action (s_ReqID req) err)).
  { intros. by apply tmq_wp_fail. }
  assert (Htext : forall C' code, wp Q (locked (Some nilp) None false fl C' B q s)
    (e ← call_ (C_TMQErr2Str code); closeConsumerWithErrLog p action (s_ReqID req) (newError code e))).
  { intros. apply tmq_wp_bind, tmq_quiet_call; [done|done|done|]. auto. }
  apply tmq_wp_bind, tmq_wp_append; [done|]. intros code. destruct (code =? 0); cbn [negb]; [|apply Htext].
  apply tmq_wp_bind, tmq_wp_subscribe; [by right|done|]. intros code'. destruct (code' =? 0); cbn [negb]; [|apply Htext].
  apply tmq_wp_bind, tmq_wp_connect; [done|]. intros conn C' Hk.
  apply tmq_wp_bind, (tmq_wp_whitelist p); [done|done|done|]. intros [whitelist|err]; [|apply Hfail].
  destruct (Handlers.CheckWhitelist whitelist ip); cbn [negb]; [|apply Hfail].
  do 2 (apply tmq_wp_bind, (tmq_wp_register p); [done|done|done|]; intros [err|]; [apply Hfail|]).
  do 3 (apply (tmq_wp_option p); [done|done|done|apply Hfail|]).
  op. do 3 (split; [done|]). split; [done|]. split; [done|]. split; [done|]. op. apply tmq_quiet_ok. intros x. apply HQ.
Qed.

Lemma tmq_wp_new_consumer conf action req C B q s Q :
  (forall x hc' C', Q x (locked hc' None false {[(KConf, conf)]} C' B q s)) ->
  wp Q (locked (Some nilp) None false {[(KConf, conf)]} C B q s) (new_consumer ip ipStr conf action req).
Proof.
  intros HQ. unfold new_consumer. apply tmq_wp_bind, tmq_quiet_call; [done|done|done|]. intros options.
  apply tmq_wp_bind, tmq_wp_conf; [set_solver|]. intros code. destruct (code =? 0); cbn [negb]; [|by apply tmq_quiet_code].
  unfold wrapperConsumerNew. apply tmq_wp_bind, tmq_wp_bind, tmq_wp_async, tmq_wp_alloc; try done.
  { apply tmq_uses; [auto with tmq|]. flights. }
  intros [p text] Ha Hd. split; [done|]. cbn [allocs fst snd] in *. nk.
  assert (Hno : forall err, p = nilp -> wp Q (locked (Some nilp) None false (res_opt (Some (KConsumer, p)) ∪ {[(KConf, conf)]}) C B q s)
    (wsTMQErrorMsg 65535 (TaosErr.Error err) action (s_ReqID req) None)).
  { intros err Hp. rewrite tmq_res_nil by done. rewrite (left_id_L ∅ (∪)). by apply tmq_quiet_error. }
  destruct (decide (text = [])) as [Ht|Ht].
  2: { rewrite bool_decide_eq_false_2 by done. apply Hno. cbn in Ha. rewrite bool_decide_eq_false_2 in Ha by done. by apply Z.eqb_eq. }
  rewrite bool_decide_eq_true_2 by done. cbn [negb]. destruct (Z.eqb_spec p nilp) as [Hp|Hp]; [by apply Hno|].
  rewrite tmq_res_opt in * by done. apply tmq_wp_ret, tmq_wp_bind, tmq_wp_new_list. intros l Hl Hn. cbn in Hd.
  apply tmq_wp_bind, tmq_wp_start; [done|set_solver|set_solver|]. intros x hc' C'.
  assert ((({[(KList, l)]} ∪ ({[(KConsumer, p)]} ∪ {[(KConf, conf)]})) ∖ {[(KConsumer, p)]} : gset res) = {[(KList, l)]} ∪ {[(KConf, conf)]})
    as -> by set_solver.
  apply tmq_wp_end_list; [done|set_solver|]. intros y. apply HQ.
Qed.

Lemma tmq_wp_settings action req next fl C B q s Q :
  wp Q (locked (Some nilp) None false fl C B q s) next -> (forall x, Q x (locked (Some nilp) None false fl C B q s)) ->
  wp Q (locked (Some nilp) None false fl C B q s) (commit_settings Quote action req next).
Proof.
  intros Hn HQ. unfold commit_settings.
  set (interval := if bool_decide (AutoCommitIntervalMS req = []) then _ else _).
  assert (Hi : wp Q (locked (Some nilp) None false fl C B q s) interval).
  { subst interval. case_bool_decide; [done|]. destruct (ParseInt _); [by op|by apply tmq_quiet_error]. }
  case_bool_decide; [done|]. destruct (ParseBool _); op; [done|by apply tmq_quiet_error].
Qed.

Lemma tmq_tame_subscribe req : tame (subscribe ip ipStr Quote req).
Proof.
  intros C B q s Q HQ. unfold subscribe. op. split; [done|]. op.
  split; [intros _; op; split; [done|]; split; [done|]; apply HQ|]. intros Hs. apply tmq_wp_bind.
  assert (Hend : forall (x : unit) hc' C' q' s', wp Q (locked hc' None false ∅ C' B q' s') (do_ (OUnlock LHandler))).
  { intros. op. split; [done|]. split; [done|]. apply HQ. }
  op. intros p _. destruct (Z.eqb_spec p nilp) as [->|Hp]; cbn [negb].
  - apply tmq_wp_bind, tmq_wp_alloc; try done; [by intros r ?%not_elem_of_nil|].
    intros conf Hc%negb_true_iff%Z.eqb_neq _. cbn [allocs]. nk. rewrite tmq_res_opt by done. rewrite (right_id_L ∅ (∪)).
    assert (Hd : forall (x : unit) hc' C' q' s', wp Q (locked hc' None false {[(KConf, conf)]} C' B q' s')
      (call_ (C_TMQConfDestroy conf);; do_ (OUnlock LHandler))).
    { intros. apply tmq_wp_bind, (tmq_wp_free _ _ (KConf, conf)); try done.
      - intros r ->%list_elem_of_singleton. by left.
      - right. cbn. set_solver.
      - intros y. nk. rewrite tmq_res_opt, difference_diag_L by done. by apply Hend. }
    apply tmq_wp_bind, tmq_wp_settings; [|intros x; by apply (Hd x)].
    apply tmq_wp_new_consumer. intros x hc' C'. by apply (Hd x).
  - op. intros st. destruct (unsubscribed st); [|by apply tmq_quiet_error; intros x; apply (Hend x)].
    apply tmq_wp_resubscribe. intros x. by apply (Hend x).
Qed.

Lemma tmq_tame_unsubscribe reqID : tame (unsubscribe reqID).
Proof.
  intros C B q s Q HQ. unfold unsubscribe. op. split; [done|]. op.
  split; [intros _; op; split; [done|]; split; [done|]; apply HQ|]. intros Hs. apply tmq_wp_bind.
  assert (Hend : forall (x : unit) hc' C' B' q' s', wp Q (locked hc' None false ∅ C' B' q' s') (do_ (OUnlock LHandler))).
  { intros. op. split; [done|]. split; [done|]. apply HQ. }
  op. intros p _. destruct (p =? nilp); [apply tmq_quiet_error; intros x; by apply (Hend x)|].
  unfold wrapperUnsubscribe, async_open. apply tmq_wp_bind. op. split; [done|]. op. split; [done|]. intros _. op. intros p' Hp'.
  rewrite (Hp' eq_refl p eq_refl). apply tmq_wp_bind, tmq_wp_do. cbn [pre].
  assert (Hu : forall r, r ∈ uses (A_Unsubscribe p) -> permitted (locked (Some p) None true ∅ C B (Some p) s) r).
  { apply tmq_uses; [auto with tmq|]. constructor; [apply tmq_lock_consumer|done]. }
  split; [done|]. split; [done|]. split; [done|]. change (res_opt (frees (A_Unsubscribe p))) with (∅ : gset res). nk.
  rewrite difference_empty_L. split; [auto|]. split; [done|]. intros code _ _. unfold after_answer. cbn [conn_of allocs]. nk.
  change (res_opt None) with (∅ : gset res). rewrite (left_id_L ∅ (∪)). op. split; [done|].
  apply tmq_wp_ret. destruct (code =? 0); cbn [negb]; [|apply tmq_quiet_code; intros x; by apply (Hend x)].
  apply tmq_wp_bind, tmq_wp_freeMessage. intros. op. apply tmq_quiet_ok. intros x. by apply (Hend x).
Qed.

(** ** Messages and signals *)

Context (unmarshal : list Z -> option request).

Lemma tmq_tame_dispatch r : tame (dispatch ip ipStr Quote r).
Proof.
  destruct r; cbn [dispatch]; auto using tmq_tame_subscribe, tmq_tame_poll, tmq_tame_fetch, tmq_tame_fetchBlock,
    tmq_tame_commit, tmq_tame_fetchJsonMeta, tmq_tame_fetchRaw, tmq_tame_fetchRawNew, tmq_tame_unsubscribe,
    tmq_tame_assignment, tmq_tame_seek, tmq_tame_committed, tmq_tame_position, tmq_tame_listTopics, tmq_tame_commitOffset,
    tmq_tame_quiet, tmq_quiet_send, tmq_tame_ret.
Qed.

Lemma tmq_handle_ok data : wp ends (k_init true) (HandleMessage ip ipStr Quote unmarshal data).
Proof.
  unfold HandleMessage. op. split; [intros _; op; by repeat split|]. intros _. apply tmq_wp_bind.
  assert (Hend : forall (x : unit) q' s' C' B', wp ends (idle C' B' q' s') (do_ OWaitDone;; mret false)).
  { intros. op. by repeat split. }
  destruct (unmarshal data) as [r|]; [|by apply tmq_wp_ret]. by apply tmq_tame_dispatch.
Qed.

Lemma tmq_wp_exit hc C B q s Q :
  (forall C' B' q' s' dr em, Q tt (outside C' B' q' s' dr em)) ->
  wp Q (mkKnow true true hc None false ∅ C B false false q s false false false) signalExit.
Proof. intros HQ. unfold signalExit. op. split; [done|]. split; [done|]. by apply tmq_wp_Close. Qed.

Lemma tmq_signal_ok x : wp ends (k_init false) (waitSignal ip x).
Proof.
  assert (Hend : forall (x : unit) C B q s dr em, wp ends (outside C B q s dr em) (do_ OPutHandles;; mret false)).
  { intros. op. by repeat split. }
  destruct x; cbn [waitSignal]; [| |by apply (Hend tt)]; (op; split; [done|]; op; split; [intros _; op; split; [done|]; split; [done|]; by apply (Hend tt)|]; intros _).
  - apply tmq_wp_bind, tmq_wp_exit. by apply (Hend tt).
  - op. split; [done|]. intros conn p _ Hn.
    assert (Hp : forall C, (if conn =? nilp then True else C !! conn = Some p) ->
      permitted (mkKnow true true (Some p) None false ∅ C ∅ false false None false false false false) (KConn, conn)).
    { intros C HC. destruct (Z.eqb_spec conn nilp); [by left|]. right. right. right. right. split; [done|].
      exists p. split; [done|]. split; [auto|]. right. split; [by right|by right]. }
    unfold GetWhitelist. apply tmq_wp_bind, tmq_wp_bind, tmq_wp_plain; [done| |done|].
    { intros r ->%list_elem_of_singleton. apply Hp. destruct (conn =? nilp); [done|]. apply lookup_insert_eq. }
    intros [code whitelist] _. cbn [fst snd]. destruct (code =? 0); cbn [negb].
    + apply tmq_wp_ret. destruct (Handlers.CheckWhitelist whitelist ip); cbn [negb].
      * op. by repeat split.
      * apply tmq_wp_bind, tmq_wp_exit. by apply (Hend tt).
    + apply tmq_wp_bind, tmq_quiet_call; [done|done|done|]. intros text.
      apply tmq_wp_ret, tmq_wp_bind, tmq_wp_exit. by apply (Hend tt).
Qed.

End Handlers.

End TmqSession.
