(* ===== verification/TmqSpec.v ===== *)
(** * TmqSpec: the theorems about TMQ sessions

    A session from [NewTaosTMQ] on, in any interleaving of its goroutines and with any answers of
    the library: it is safe, gives everything back, unsubscribes only while it is open, answers a
    request once, and never ends when it is closed while a message is at the lock of the handler. *)
From S2P Require Import Prelude Common RawBlock Text Rest Types WsProg WsHandlers TmqProg TmqHandlers TmqLogic TmqSafety TmqSession.
From stdpp Require Import gmap sets.
#[local] Open Scope Z_scope.

Module TmqSpec.
Import TmqWs TmqHandlers TmqLogic TmqSafety TmqSession.

Definition finished (s : sys) : Prop := Forall (fun t => exists b, t_prog t = Done b) (threads s).

Section Whole.
Context (ip ipStr : list Z) (Quote : list Z -> list Z) (unmarshal : list Z -> option request).

(** One step of a session, and its first steps from a new one on. *)
Definition tmq_step : sys -> action -> outcome sys :=
  step (HandleMessage ip ipStr Quote unmarshal) (waitSignal ip) HandleClose.
Definition tmq_run : list action -> outcome sys :=
  run (HandleMessage ip ipStr Quote unmarshal) (waitSignal ip) HandleClose NewTaosTMQ.

Lemma tmq_run_ok acts s : tmq_run acts = Ok s -> sys_ok s.
Proof.
  intros Hr. eapply tmq_run_sound; [| | |apply tmq_new_ok|exact Hr].
  - intros m. apply tmq_handle_ok.
  - intros x. apply tmq_signal_ok; exact (fun _ => None).
  - apply tmq_close_ok.
Qed.

(** C3. No step of any goroutine of a TMQ session, in any interleaving and with any answers of the
    library, goes wrong: no call works on a consumer, message, list, configuration, raw value or
    thread that was given back or is being given back, nothing is given back twice, no two
    asynchronous calls run at once on the thread of the session, the last message is read and written
    only under its lock, no lock is released by a goroutine that does not hold it, and the exit
    channel is closed once. *)
Theorem tmq_safe acts s a : tmq_run acts = Ok s -> tmq_step s a <> Bad.
Proof.
  intros Hr E. assert (H : match tmq_step s a with Ok s' => sys_ok s' | Bad => False | _ => True end).
  { apply tmq_step_sound; [| | |by eapply tmq_run_ok].
    - intros m. apply tmq_handle_ok. - intros x. apply tmq_signal_ok; exact (fun _ => None). - apply tmq_close_ok. }
  by rewrite E in H.
Qed.

(** What a finished goroutine knows. *)
Lemma tmq_finished_final s i : sys_ok s -> finished s -> holds i (k_init false) (w s).
Proof.
  intros Hs Hf. destruct (threads s !! i) as [t|] eqn:Ht; [|by apply (s_none _ Hs)].
  destruct (s_threads _ Hs i t Ht) as (K & HK & Hok). destruct (proj1 (Forall_lookup _ _) Hf i t Ht) as [b Eb].
  unfold thread_ok in Hok. rewrite Eb in Hok. destruct (t_pend t); [done|]. by eapply tmq_holds_final.
Qed.

(** C4. When all goroutines of a TMQ session have ended, none of its locks is held, and what the library
    handed out has been given back but the thread, the handler and the consumer of a session that
    was not closed, and its last message; when the session has been closed, everything has. *)
Theorem tmq_no_leak acts s :
  tmq_run acts = Ok s -> finished s ->
  (forall l, w_lock (w s) l = None) /\
  (forall r x, w_live (w s) !! r = Some x -> r ∈ belongings (w s) \/ r ∈ resources (w_msg (w s))) /\
  (w_exit (w s) = true -> w_live (w s) = ∅).
Proof.
  intros Hr Hf. pose proof (tmq_run_ok _ _ Hr) as Hs. pose proof (s_inv _ Hs) as Hw.
  pose proof (fun i => tmq_finished_final s i Hs Hf) as HF.
  assert (Hl : forall r x, w_live (w s) !! r = Some x ->
    (x = Slot /\ r ∈ resources (w_msg (w s))) \/ (x = Session /\ w_drained (w s) = false /\ r ∈ belongings (w s))).
  { intros r [i| |] E; [by apply (h_flight _ _ _ (HF i)) in E| |].
    - left. split; [done|]. by apply (i_slot_only _ Hw).
    - right. split; [done|]. by apply (i_session_only _ Hw). }
  split; [|split].
  - intros l. destruct (w_lock (w s) l) as [i|] eqn:E; [|done]. pose proof (HF i) as H. destruct l.
    + by apply (h_handler _ _ _ H) in E. + by apply (h_mlock _ _ _ H) in E. + by apply (h_async _ _ _ H) in E.
  - intros r x [[_ ?]|(_ & _ & ?)]%Hl; auto.
  - intros He. destruct (i_exit _ Hw He) as [Hd Hp]. apply map_eq. intros r. rewrite lookup_empty.
    destruct (w_live (w s) !! r) as [x|] eqn:E; [|done]. apply Hl in E as [[_ E]|(_ & E & _)]; [|congruence].
    unfold resources in E. rewrite Hp in E. by apply not_elem_of_nil in E.
Qed.

(** C22. The consumer of a session is unsubscribed only while the session is open: whenever a goroutine is
    about to call [TaosaTMQUnsubscribeA], it holds the lock of the handler and the session has not been
    marked as closed.  [Close] marks it first, so it closes the consumer without unsubscribing it. *)
Theorem tmq_unsubscribe_only_open acts s i ro q k :
  tmq_run acts = Ok s -> threads s !! i = Some (mkThread ro (Vis (OCall (A_Unsubscribe q)) k) false) ->
  w_lock (w s) LHandler = Some i /\ w_closed (w s) = false.
Proof.
  intros Hr Ht. pose proof (tmq_run_ok _ _ Hr) as Hs. destruct (s_threads _ Hs _ _ Ht) as (K & HK & Hok).
  cbn in Hok. destruct Hok as (_ & Ho & _). destruct (Ho eq_refl) as [Hh Hop].
  split; [by apply (h_handler _ _ _ HK)|by apply (h_hopen _ _ _ HK)].
Qed.

(** ** Closing while a message is at the lock of the handler *)

(** Goroutine [i] is counted and is about to lock the handler; goroutine [j] holds that lock and
    waits for the counted goroutines. *)
Record tmq_closing_waits (i j : nat) (s : sys) : Prop := mkTmqClosingWaits {
  tw_lock : exists ro k, threads s !! i = Some (mkThread ro (Vis (OLock LHandler) k) false);
  tw_wait : exists ro k, threads s !! j = Some (mkThread ro (Vis OWaitAll k) false);
  tw_counted : i ∈ w_wait (w s);
  tw_held : w_lock (w s) LHandler = Some j }.

Lemma tmq_exec_keeps_wait h o X (e : op X) w x w' (i j : nat) :
  h <> i -> h <> j -> i ∈ w_wait w -> w_lock w LHandler = Some j -> exec_op h o e w = Ok (x, w') ->
  i ∈ w_wait w' /\ w_lock w' LHandler = Some j.
Proof.
  intros Hi Hj Hw Hl He. assert (Hm : mine h (Some j) = false) by (cbn; by apply Nat.eqb_neq).
  destruct e as [[]|[]| | | | | | | | | | | | | | | | | | |]; cbn in He;
    unfold exec_lock, exec_unlock, exec_answer in He; rewrite ?Hl, ?Hm in He;
    repeat (case_match; simplify_eq; try done); simplify_eq; cbn; try done; try (by apply not_elem_of_nil in Hw).
  split; [|done]. by apply list_elem_of_filter.
Qed.

Lemma tmq_waits_blocked i j s o : tmq_closing_waits i j s -> step_thread s i o = Blocked /\ step_thread s j o = Blocked.
Proof.
  intros [(ro & k & Hi) (ro' & k' & Hj) Hc Hh]. unfold step_thread. rewrite Hi, Hj. cbn. unfold exec_lock. rewrite Hh.
  split; [done|]. by destruct (w_wait (w s)); [apply not_elem_of_nil in Hc|].
Qed.

(** Another world and another list of goroutines in which the two are the same. *)
Lemma tmq_waits_frame i j s s' :
  tmq_closing_waits i j s -> threads s' !! i = threads s !! i -> threads s' !! j = threads s !! j ->
  i ∈ w_wait (w s') -> w_lock (w s') LHandler = Some j -> tmq_closing_waits i j s'.
Proof. intros [] Hi Hj Hc Hh. constructor; rewrite ?Hi, ?Hj; done. Qed.

Lemma tmq_waits_thread i j s h o s' : tmq_closing_waits i j s -> step_thread s h o = Ok s' -> tmq_closing_waits i j s'.
Proof.
  intros Hw Hs. pose proof (tmq_waits_blocked i j s o Hw) as [Bi Bj].
  assert (Hi : h <> i) by congruence. assert (Hj : h <> j) by congruence. pose proof Hw as [(r1 & k1 & Li) (r2 & k2 & Lj) Hc Hh].
  unfold step_thread in Hs. destruct (threads s !! h) as [[ro p pend]|]; [|done]. destruct p as [| |X e k]; [done|done|].
  assert (Hex : match exec_op h o e (w s) with
    | Ok (x, w') => let ts := <[h := mkThread ro (k x) false]> (threads s) in
        Ok (mkSys w' (if is_go e then ts ++ [mkThread Waiting (Done true) false] else ts) (reader s))
    | Blocked => Blocked | Bad => Bad | Stuck => Stuck end = Ok s' -> tmq_closing_waits i j s').
  { destruct (exec_op h o e (w s)) as [[x w']| | |] eqn:Ee; try done. intros [= <-].
    destruct (tmq_exec_keeps_wait _ _ _ _ _ _ _ i j Hi Hj Hc Hh Ee).
    apply (tmq_waits_frame i j s); cbn; try done; (destruct (is_go e); [rewrite lookup_app_l|]);
      rewrite ?length_insert; try (by apply list_lookup_insert_ne); by eapply lookup_lt_Some. }
  assert (Hb : forall w', w_wait w' = w_wait (w s) -> w_lock w' = w_lock (w s) ->
    Ok (mkSys w' (<[h := mkThread ro (Vis e k) true]> (threads s)) (reader s)) = Ok s' -> tmq_closing_waits i j s').
  { intros w' E1 E2 [= <-]. apply (tmq_waits_frame i j s); cbn; rewrite ?E1, ?E2; try done; by apply list_lookup_insert_ne. }
  destruct (call_of e) as [[[us fr] async]|]; [|exact (Hex Hs)]. destruct pend; [exact (Hex Hs)|].
  unfold begin_call in Hs. destruct (negb _); [done|]. destruct (async && _); [done|].
  destruct fr as [r|]; [|by apply (Hb (w s))]. destruct (snd r =? nilp); [by apply (Hb (w s))|].
  destruct (_ && _); [|done]. by eapply Hb, Hs.
Qed.

Lemma tmq_waits_step i j s a s' : tmq_closing_waits i j s -> tmq_step s a = Ok s' -> tmq_closing_waits i j s'.
Proof.
  intros Hw Hs. pose proof Hw as [(r1 & k1 & Li) (r2 & k2 & Lj) Hc Hh]. destruct a as [h o|m| | |h x]; cbn in Hs.
  - by eapply tmq_waits_thread.
  - destruct (reader s); [done|]. destruct (w_closed (w s)); injection Hs as <-; [done|]. by apply (tmq_waits_frame i j s).
  - destruct (reader s); [|done]. injection Hs as <-.
    apply (tmq_waits_frame i j s); cbn; try done; [by rewrite lookup_app_l by (by eapply lookup_lt_Some)..|by right].
  - injection Hs as <-. apply (tmq_waits_frame i j s); cbn; try done; by rewrite lookup_app_l by (by eapply lookup_lt_Some).
  - destruct (threads s !! h) as [[ro p pend]|] eqn:Ht; [|done]. destruct ro; try done. destruct p as [[]| |]; try done.
    assert (h <> i) by congruence. assert (h <> j) by congruence.
    destruct x, (w_exit (w s)); try done; injection Hs as <-; apply (tmq_waits_frame i j s); cbn; try done; by apply list_lookup_insert_ne.
Qed.

Lemma tmq_waits_forever i j s acts s' :
  tmq_closing_waits i j s -> run (HandleMessage ip ipStr Quote unmarshal) (waitSignal ip) HandleClose s acts = Ok s' ->
  tmq_closing_waits i j s'.
Proof.
  revert s. induction acts as [|a acts IH]; intros s Hw Hr; [by injection Hr as <-|]. cbn in Hr.
  destruct (step _ _ _ s a) as [s1| | |] eqn:Es; try done. eapply IH; [by eapply tmq_waits_step|done].
Qed.

(** A message arrives, its goroutine finds the session open, and the client goes away. *)
Definition handle_and_close (data : list Z) (o : oracle) : list action :=
  [ARecv data; ASpawn; AStep 0 o; AClose] ++ replicate 3 (AStep 1 o).

(** The messages whose handlers lock the session. *)
Definition locks_session (r : request) : bool := match r with Subscribe _ | Unsubscribe _ => true | _ => false end.

Lemma tmq_handle_and_close_waits data r o :
  unmarshal data = Some r -> locks_session r = true ->
  exists s, tmq_run (handle_and_close data o) = Ok s /\ tmq_closing_waits 0 1 s.
Proof.
  intros Hu Hr. eexists. split; [reflexivity|]. constructor; cbn; [|eauto|by left|done].
  rewrite Hu. destruct r; try discriminate Hr; cbn; eauto.
Qed.

(** C37. A TMQ session that is closed while a [subscribe] or [unsubscribe] message is being handled may
    never end: the message has found the session open and is about to lock it when it is closed, the
    goroutine that closes holds that lock and waits for the message, and the message waits for the
    lock.  Whatever happens afterwards, neither of the two ever takes another step. *)
Theorem tmq_close_deadlock data r o :
  unmarshal data = Some r -> locks_session r = true ->
  exists s, tmq_run (handle_and_close data o) = Ok s /\
    forall acts s' o', run (HandleMessage ip ipStr Quote unmarshal) (waitSignal ip) HandleClose s acts = Ok s' ->
      ~ finished s' /\ tmq_step s' (AStep 0 o') = Blocked /\ tmq_step s' (AStep 1 o') = Blocked.
Proof.
  intros Hu Hl. destruct (tmq_handle_and_close_waits _ _ o Hu Hl) as (s & E & Hw). exists s. split; [exact E|].
  intros acts s' o' Hr. pose proof (tmq_waits_forever _ _ _ _ _ Hw Hr) as Hw'. split; [|by apply tmq_waits_blocked].
  intros Hf. destruct (tw_lock _ _ _ Hw') as (ro & k & Ht). by destruct (proj1 (Forall_lookup _ _) Hf _ _ Ht).
Qed.

End Whole.
End TmqSpec.
