(* ===== verification/TmqReplies.v ===== *)
(** * TmqReplies: a request of a TMQ session is answered once

    How many messages a handler sends on every path through it, whatever the library and the other
    goroutines do: at most one, and one unless the handler saw that the session is closed or panics. *)
From S2P Require Import Prelude Common RawBlock Text Rest Types WsProg WsHandlers TmqProg TmqHandlers.
From stdpp Require Import gmap sets.
#[local] Open Scope Z_scope.

Module TmqReplies.
Import Rest TmqWs TmqHandlers.

Definition sent_by {X} (e : op X) : option message := match e with OSend m => Some m | _ => None end.
(** The answer [x] of operation [e] tells that the session is closed. *)
Definition sees {X} (e : op X) : X -> bool := match e in op X return X -> bool with OIsClosed => fun b => b | _ => fun _ => false end.

(** What a goroutine has done so far: the messages it sent, whether it saw that the session is closed,
    and what it last filled a buffer with. *)
Record tally := mkTally { sent : nat; closed : bool; filled : option (nat * bytes) }.

(** The action and the number of the request that a message answers.  The response to [version] has no
    number, as the request has none; a frame has its number in its bytes, at 8 for [fetch_raw] and at
    26 for [fetch_raw_data]; the frame of [fetch_block] is the one that a [fetch] left in the buffer. *)
Definition answers (action : list Z) (reqID : Z) (t : tally) (m : message) : Prop :=
  match m with
  | WSTMQErrorResp _ _ a id _ _ | WSErrorResp _ _ a id _ | OkResp a id _ | CommitResp a id _ _ | PollResp a id _ _
  | FetchResp a id _ _ _ | JsonMetaResp a id _ _ _ | AssignmentResp a id _ _ | OffsetsResp a id _ _ | TopicsResp a id _ _
  | CommitOffsetResp a id _ _ _ _ => a = action /\ id = reqID
  | VersionResp => action = str "version"
  | BinaryResp d => action = str "fetch_raw_data" /\ load_u 8 d 26 = Ret (wrap_u 64 reqID)
  | BufferResp b =>
    action = str "fetch_block" \/
    exists n d at_, b = Some (n, zlen d) /\ filled t = Some (n, d) /\ load_u 8 d at_ = Ret (wrap_u 64 reqID) /\
      ((action = str "fetch_raw" /\ at_ = 8) \/ (action = str "fetch_raw_data" /\ at_ = 26))
  end.

Definition fills {X} (e : op X) (f : option (nat * bytes)) : option (nat * bytes) :=
  match e with OFillBuf b d => Some (b, d) | _ => f end.

Section Count.
Context (action : list Z) (reqID : Z).

(** Every path sends only answers; it crashes only when nothing was sent, or ends with [Q] of its
    result and the tally.  It starts with the tally [t]. *)
Fixpoint count {A} (Q : A -> tally -> Prop) (t : tally) (p : prog A) : Prop :=
  match p with
  | Done a => Q a t
  | Crash => sent t = 0%nat
  | Vis e k =>
    match sent_by e with
    | Some m => answers action reqID t m /\ forall x, count Q (mkTally (S (sent t)) (closed t) (filled t)) (k x)
    | None => forall x, count Q (mkTally (sent t) (closed t || sees e x) (fills e (filled t))) (k x)
    end
  end.

Definition start : tally := mkTally 0 false None.

(** The number of messages is right at the end. *)
Definition once {A} (_ : A) (t : tally) : Prop := (sent t <= 1)%nat /\ (closed t = false -> sent t = 1%nat).

Lemma tmq_count_mono {A} (Q Q' : A -> tally -> Prop) t p :
  (forall x t, Q x t -> Q' x t) -> count Q t p -> count Q' t p.
Proof.
  intros HQ. revert t. induction p as [a| |X e k IH]; intros t; cbn; auto.
  destruct (sent_by e); [intros [? ?]; split|]; auto.
Qed.
Lemma tmq_count_bind {A B} (p : prog A) (f : A -> prog B) t Q :
  count (fun x t => count Q t (f x)) t p -> count Q t (p ≫= f).
Proof.
  revert t. induction p as [a| |X e k IH]; intros t; cbn; auto.
  destruct (sent_by e); [intros [? ?]; split|]; auto.
Qed.

Lemma tmq_count_ret {A} (x : A) t Q : Q x t -> count Q t (mret x).
Proof. done. Qed.

(** A program that sends nothing and fills no buffer, one that does not crash either, and one that
    sends one answer; none looks at the session. *)
Definition silent {A} (p : prog A) : Prop :=
  forall t (Q : A -> tally -> Prop), sent t = 0%nat -> (forall x, Q x t) -> count Q t p.
Definition mute {A} (p : prog A) : Prop := forall t (Q : A -> tally -> Prop), (forall x, Q x t) -> count Q t p.
Definition speaks (p : prog unit) : Prop :=
  forall t (Q : unit -> tally -> Prop), sent t = 0%nat -> Q tt (mkTally (S (sent t)) (closed t) (filled t)) -> count Q t p.

Lemma tmq_silent_ret {A} (x : A) : silent (mret x).
Proof. intros t Q _ HQ. apply HQ. Qed.
Lemma tmq_silent_bind {A B} (p : prog A) (f : A -> prog B) : silent p -> (forall x, silent (f x)) -> silent (p ≫= f).
Proof. intros Hp Hf t Q Ht HQ. apply tmq_count_bind, Hp; [done|]. intros x. by apply Hf. Qed.
Lemma tmq_mute_op {X} (e : op X) : sent_by e = None -> (forall x, sees e x = false) -> (forall f, fills e f = f) -> mute (do_ e).
Proof. intros Hs Hx Hf t Q HQ. cbn. rewrite Hs. intros x. rewrite Hx, Hf, orb_false_r. destruct t. apply HQ. Qed.
Lemma tmq_silent_mute {A} (p : prog A) : mute p -> silent p.
Proof. intros Hp t Q _. apply Hp. Qed.
Lemma tmq_mute_call {X} (x : call X) : mute (call_ x).
Proof. by apply (tmq_mute_op (OCall x)). Qed.
Lemma tmq_silent_call {X} (x : call X) : silent (call_ x).
Proof. apply tmq_silent_mute, tmq_mute_call. Qed.
Lemma tmq_silent_lift {A} (x : go A) : silent (lift x).
Proof. intros t Q Ht HQ. by destruct x; [apply HQ|..]. Qed.
Lemma tmq_silent_string m : silent (c_string m).
Proof.
  induction m as [|b m IH]; intros t Q Ht HQ; cbn [c_string]; [done|]. destruct (b =? 0); [apply HQ|].
  apply tmq_count_bind, IH; [done|]. intros x. apply HQ.
Qed.
Lemma tmq_speaks_send m : (forall t, answers action reqID t m) -> speaks (send m).
Proof. intros Hm t Q Ht HQ. cbn. split; [done|]. by intros []. Qed.
Lemma tmq_speaks_bind {A} (p : prog A) (f : A -> prog unit) : silent p -> (forall x, speaks (f x)) -> speaks (p ≫= f).
Proof. intros Hp Hf t Q Ht HQ. apply tmq_count_bind, Hp; [done|]. intros x. by apply Hf. Qed.

(** A number in a buffer that was filled with a frame. *)
Lemma answers_frame t b d k :
  filled t = Some (b, d) -> load_u 8 d k = Ret (wrap_u 64 reqID) ->
  (action = str "fetch_raw" /\ k = 8) \/ (action = str "fetch_raw_data" /\ k = 26) -> answers action reqID t (BufferResp (Some (b, zlen d))).
Proof. intros Hf Hl Ha. right. by exists b, d, k. Qed.

End Count.

Create HintDb tmq_silent discriminated.
#[export] Hint Resolve tmq_silent_ret tmq_silent_call tmq_silent_lift tmq_silent_string : tmq_silent.

(** Walks along a program that sends nothing, or one message at its end. *)
Ltac silent :=
  lazymatch goal with
  | |- silent _ _ (_ ≫= _) => apply tmq_silent_bind; [silent | intros; silent]
  | |- silent _ _ (match ?x with _ => _ end) => destruct x; silent
  | |- silent _ _ (do_ _) => by apply tmq_silent_mute, tmq_mute_op
  | |- silent _ _ GetDuration => apply tmq_silent_call
  | |- silent _ _ _ => solve [auto with tmq_silent]
  end.
Ltac speaks :=
  lazymatch goal with
  | |- speaks _ _ (send _) => apply tmq_speaks_send; done
  | |- speaks _ _ (_ ≫= _) => apply tmq_speaks_bind; [silent | intros; speaks]
  | |- speaks _ _ (match ?x with _ => _ end) => destruct x; speaks
  end.

Section Replies.
Context (ip ipStr : list Z) (Quote : list Z -> list Z).

Lemma tmq_silent_log a r code : silent a r (log_error code).
Proof. unfold log_error. silent. Qed.
Lemma tmq_silent_append a r l topics : silent a r (append_topics l topics).
Proof. induction topics as [|t topics IH]; cbn [append_topics]; silent. Qed.
Lemma tmq_silent_conf a r l options : silent a r (conf_set l options).
Proof. induction options as [|[k v] options IH]; cbn [conf_set]; silent. Qed.
Lemma tmq_silent_whitelist a r conn : silent a r (GetWhitelist conn).
Proof. unfold GetWhitelist. silent. Qed.
Lemma tmq_silent_register a r conn n : silent a r (register conn n).
Proof. unfold register. silent. Qed.
Lemma tmq_silent_async {X} a r (c : call X) : silent a r (async c).
Proof. unfold async. silent. Qed.
#[local] Hint Resolve tmq_silent_log tmq_silent_append tmq_silent_conf tmq_silent_whitelist tmq_silent_register
  tmq_silent_async : tmq_silent.
Lemma tmq_silent_new a r conf : silent a r (wrapperConsumerNew conf).
Proof. unfold wrapperConsumerNew. silent. Qed.
Lemma tmq_silent_close a r p : silent a r (wrapperCloseConsumer p).
Proof. apply tmq_silent_async. Qed.
Lemma tmq_silent_subscribe a r p l : silent a r (wrapperSubscribe p l).
Proof. apply tmq_silent_async. Qed.
#[local] Hint Resolve tmq_silent_new tmq_silent_close tmq_silent_subscribe : tmq_silent.

Lemma tmq_speaks_error code msg a r id : speaks a r (wsTMQErrorMsg code msg a r id).
Proof. unfold wsTMQErrorMsg. speaks. Qed.
Lemma tmq_speaks_WSError err a r : speaks a r (WSError err a r).
Proof. unfold WSError, WSErrorMsg. speaks. Qed.
Lemma tmq_speaks_raw code msg r id : speaks (str "fetch_raw_data") r (tmqFetchRawBlockErrorMsg code msg r id).
Proof.
  unfold tmqFetchRawBlockErrorMsg. cbv zeta. apply tmq_speaks_bind; [silent|]. intros d t Q Ht HQ. pose proof (zlen_nonneg msg).
  apply tmq_count_bind. destruct (zput _ 0 _ ≫= _) as [buf| | |] eqn:Hbuf; [|done..]. apply tmq_speaks_send; [|done|done].
  intros t0. split; [done|]. repeat (apply go_bind_Ret_inv in Hbuf as (? & ? & Hbuf)). written.
Qed.
Lemma tmq_speaks_ok a r : speaks a r (respond_ok a r).
Proof. unfold respond_ok. speaks. Qed.
Lemma tmq_speaks_code code a r id : speaks a r (respond_code code a r id).
Proof. unfold respond_code. apply tmq_speaks_bind; [silent|]. intros. apply tmq_speaks_error. Qed.
Lemma tmq_speaks_close p a r err : speaks a r (closeConsumerWithErrLog p a r err).
Proof. unfold closeConsumerWithErrLog. apply tmq_speaks_bind; [silent|]. intros. apply tmq_speaks_bind; [silent|]. intros. apply tmq_speaks_WSError. Qed.

(** The look at the session, and the calls that start with it. *)
Definition saw (t : tally) : tally := mkTally (sent t) true (filled t).
Lemma tmq_count_closed a r t Q : Q true (saw t) -> Q false t -> count a r Q t isClosed.
Proof. intros HT HF []; cbn; rewrite ?orb_true_r, ?orb_false_r; by destruct t. Qed.
Lemma tmq_count_async {X} a r (f : ptr -> call X) t Q :
  Q None (saw t) -> (forall x, Q (Some x) t) -> count a r Q t (async_open f).
Proof.
  intros HN HS. unfold async_open. apply tmq_count_bind, tmq_mute_op; [done..|]. intros [].
  apply tmq_count_bind, tmq_count_closed.
  - by intros [].
  - intros p x []. cbn. rewrite !orb_false_r. destruct t. apply HS.
Qed.

(** Filling the buffer of a message. *)
Lemma tmq_count_fillbuf a r b data t Q :
  Q tt (mkTally (sent t) (closed t) (Some (b, data))) -> count a r Q t (do_ (OFillBuf b data)).
Proof. intros HQ []. cbn. by rewrite orb_false_r. Qed.
Lemma tmq_count_fill a r buf data t Q :
  (forall b, Q (Some (b, zlen data)) (mkTally (sent t) (closed t) (Some (b, data)))) -> count a r Q t (fill buf data).
Proof.
  intros HQ. assert (Hb : forall Q', (forall b : nat, Q' b t) -> count a r Q' t (reserve buf (zlen data))).
  { intros Q' HQ'. unfold reserve. destruct buf as [[b n]|]; [|by apply tmq_mute_op].
    apply tmq_count_bind, tmq_mute_op; [done..|]. intros c. destruct (_ <? _); [by apply tmq_mute_op|apply HQ']. }
  apply tmq_count_bind, Hb. intros b. apply tmq_count_bind, tmq_count_fillbuf. apply HQ.
Qed.

(** One operation, call or branch of a program at a time. *)
Ltac walk :=
  cbv delta [wrapperCommit wrapperPoll wrapperFetchRawBlock wrapperGetRaw wrapperGetJsonMeta wrapperUnsubscribe
    wrapperGetTopicAssignment wrapperOffsetSeek wrapperCommitOffset];
  repeat (cbv beta; cbn [negb];
  lazymatch goal with
  | |- count _ _ _ _ (_ ≫= _) => apply tmq_count_bind
  | |- count _ _ _ _ (with_code _ _ _ _) => unfold with_code
  | |- count _ _ _ _ (with_consumer _ _) => unfold with_consumer
  | |- count _ _ _ _ (with_message _ _ _ _) => unfold with_message
  | |- count _ _ _ _ (async_open _) => apply tmq_count_async; [|intros ?]
  | |- count _ _ _ _ isClosed => apply tmq_count_closed
  | |- count _ _ _ _ (mret _) => apply tmq_count_ret; cbv beta iota
  | |- count _ _ _ _ Crash => done
  | |- count _ _ _ _ (match ?x with _ => _ end) => destruct x
  | |- count _ _ _ _ (wsTMQErrorMsg _ _ _ _ _) => apply tmq_speaks_error; [done|]
  | |- count _ _ _ _ (respond_code _ _ _ _) => apply tmq_speaks_code; [done|]
  | |- count _ _ _ _ (respond_ok _ _) => apply tmq_speaks_ok; [done|]
  | |- count _ _ _ _ (closeConsumerWithErrLog _ _ _ _) => apply tmq_speaks_close; [done|]
  | |- count _ _ _ _ (tmqFetchRawBlockErrorMsg _ _ _ _) => apply tmq_speaks_raw; [done|]
  | |- count _ _ _ _ (wsFetchRawBlockMessage _ _ _ _ _ _) => unfold wsFetchRawBlockMessage
  | |- count _ _ _ _ (fill _ _) => apply tmq_count_fill; intros ?
  | |- count _ _ _ _ (do_ (OFillBuf _ _)) => apply tmq_count_fillbuf
  | |- count _ _ _ _ (send (BufferResp _)) => split; [|intros []]
  | |- count _ _ _ _ (send _) => apply tmq_speaks_send; [done..|]
  | |- count _ _ _ _ (wrapperFreeResult) => unfold wrapperFreeResult
  | |- count ?a ?r _ _ ?p =>
    first [apply tmq_mute_call; intros ? | apply tmq_mute_op; [done..|intros ?] |
           let H := fresh in assert (H : silent a r p) by silent; apply H; clear H; [done|intros ?]]
  | |- once _ _ => split; [cbn; lia|done]
  end).

Lemma tmq_commit_once reqID id : count (str "commit") reqID once start (commit reqID id).
Proof. unfold commit. generalize (str "commit"). intros a. walk. Qed.
Lemma tmq_assignment_once reqID topic : count (str "assignment") reqID once start (assignment reqID topic).
Proof. unfold assignment. generalize (str "assignment"). intros a. walk. Qed.
Lemma tmq_seek_once reqID topic v o : count (str "seek") reqID once start (offsetSeek reqID topic v o).
Proof. unfold offsetSeek. generalize (str "seek"). intros a. walk. Qed.
Lemma tmq_commitOffset_once reqID topic v o : count (str "commit_offset") reqID once start (commitOffset reqID topic v o).
Proof. unfold commitOffset. generalize (str "commit_offset"). intros a. walk. Qed.
Lemma tmq_listTopics_once reqID : count (str "list_topics") reqID once start (listTopics reqID).
Proof. unfold listTopics. generalize (str "list_topics"). intros a. walk. Qed.
Lemma tmq_poll_once reqID t : count (str "poll") reqID once start (poll reqID t).
Proof. unfold poll, auto_commit, keep_message. generalize (str "poll"). intros a. walk. Qed.
Lemma tmq_fetch_once reqID id : count (str "fetch") reqID once start (fetch reqID id).
Proof. unfold fetch. generalize (str "fetch"). intros a. walk. Qed.
Lemma tmq_fetchBlock_once reqID id : count (str "fetch_block") reqID once start (fetchBlock reqID id).
Proof. unfold fetchBlock. walk. by left. Qed.
Lemma tmq_fetchRaw_once reqID id : count (str "fetch_raw") reqID once start (fetchRawBlock reqID id).
Proof. unfold fetchRawBlock. walk. eapply (answers_frame _ _ _ _ _ 8); [done| |by left]. by apply load_u_mid. Qed.
Lemma tmq_fetchRawNew_once reqID id : count (str "fetch_raw_data") reqID once start (fetchRawBlockNew reqID id).
Proof.
  unfold fetchRawBlockNew. walk. eapply (answers_frame _ _ _ _ _ 26); [done| |by right].
  rewrite (app_assoc (le_bytes 8 _) (le_bytes 8 _)), (app_assoc (_ ++ _) (le_bytes 2 _)), (app_assoc (_ ++ _) (le_bytes 8 _)).
  by apply load_u_mid.
Qed.
Lemma tmq_fetchJsonMeta_once reqID id : count (str "fetch_json_meta") reqID once start (fetchJsonMeta reqID id).
Proof. unfold fetchJsonMeta. generalize (str "fetch_json_meta"). intros a. walk. Qed.
Lemma tmq_offsets_once get a reqID l : (forall t v n Q, Q None (saw n) -> (forall x, Q (Some x) n) -> count a reqID Q n (get t v)) ->
  forall offsets, count a reqID once start (offsets_of get a reqID l offsets).
Proof.
  intros Hg. induction l as [|[t v] l IH]; intros offsets; cbn [offsets_of]; [walk|].
  apply tmq_count_bind, Hg; [walk|]. intros x. walk. apply IH.
Qed.
Lemma tmq_committed_once reqID l : count (str "committed") reqID once start (committed reqID l).
Proof. unfold committed. generalize (str "committed"). intros a. walk. apply tmq_offsets_once. intros. by apply tmq_count_async. Qed.
Lemma tmq_position_once reqID l : count (str "position") reqID once start (position reqID l).
Proof. unfold position. generalize (str "position"). intros a. walk. apply tmq_offsets_once. intros. by apply tmq_count_async. Qed.
Lemma tmq_unsubscribe_once reqID : count (str "unsubscribe") reqID once start (unsubscribe reqID).
Proof. unfold unsubscribe, freeMessage. generalize (str "unsubscribe"). intros a. walk. Qed.
Lemma tmq_subscribe_once req : count (str "subscribe") (s_ReqID req) once start (subscribe ip ipStr Quote req).
Proof. unfold subscribe, resubscribe, commit_settings, new_consumer, start_consumer, conn_option. generalize (str "subscribe"). intros a. walk. Qed.

(** ** Every request *)

Definition action_of (r : request) : list Z :=
  match r with
  | Version => str "version" | Subscribe _ => str "subscribe" | Poll _ _ => str "poll" | Fetch _ _ => str "fetch"
  | FetchBlock _ _ => str "fetch_block" | Commit _ _ => str "commit" | FetchJsonMeta _ _ => str "fetch_json_meta"
  | FetchRaw _ _ => str "fetch_raw" | FetchRawNew _ _ => str "fetch_raw_data" | Unsubscribe _ => str "unsubscribe"
  | GetTopicAssignment _ _ => str "assignment" | Seek _ _ _ _ => str "seek" | Committed _ _ => str "committed"
  | Position _ _ => str "position" | ListTopics _ => str "list_topics" | CommitOffset _ _ _ _ => str "commit_offset"
  | Unknown => []
  end.
Definition reqID_of (r : request) : Z :=
  match r with
  | Version | Unknown => 0
  | Subscribe req => s_ReqID req
  | Poll id _ | Fetch id _ | FetchBlock id _ | Commit id _ | FetchJsonMeta id _ | FetchRaw id _ | FetchRawNew id _
  | Unsubscribe id | GetTopicAssignment id _ | Seek id _ _ _ | Committed id _ | Position id _ | ListTopics id
  | CommitOffset id _ _ _ => id
  end.

#[local] Hint Resolve tmq_commit_once tmq_assignment_once tmq_seek_once tmq_commitOffset_once tmq_listTopics_once
  tmq_poll_once tmq_fetch_once tmq_fetchBlock_once tmq_fetchRaw_once tmq_fetchRawNew_once tmq_fetchJsonMeta_once
  tmq_committed_once tmq_position_once tmq_unsubscribe_once tmq_subscribe_once : tmq_once.

Lemma tmq_dispatch_once r : r <> Unknown -> count (action_of r) (reqID_of r) once start (dispatch ip ipStr Quote r).
Proof. intros Hr. destruct r; cbn [dispatch action_of reqID_of]; auto with tmq_once; [|done]. by split. Qed.


End Replies.
End TmqReplies.
