(* ===== verification/TmqScenarios.v ===== *)
(** * TmqScenarios: TMQ sessions that run

    A concrete library and concrete requests, and sessions of the handlers of [TmqHandlers] that are
    run with them: the ones that show that the theorems of [TmqSpec] and [TmqReplies] apply, and the
    ones that show where the handlers go wrong. *)
From S2P Require Import Prelude Common RawBlock Text Rest Types WsProg WsHandlers TmqProg TmqHandlers TmqLogic TmqSafety TmqSession TmqSpec TmqReplies.
From stdpp Require Import gmap sets.
#[local] Open Scope Z_scope.

Module TmqScenarios.
Import Rest TmqWs TmqHandlers TmqLogic TmqSafety TmqSpec.

(** ** A library *)

Definition localhost : list Z := [127; 0; 0; 1].

(** A library that hands out [p]; its blocks have sixteen bytes, the last of them [p]. *)
Definition lib (p : Z) : oracle := fun X c =>
  match c in call X return X with
  | A_NewConsumer _ => (p, [])
  | A_Subscribe _ _ | A_Unsubscribe _ | A_ConsumerClose _ | A_Commit _ | A_GetRaw _ _ | A_OffsetSeek _ _ _ _
  | A_Committed _ _ _ | A_Position _ _ _ | A_CommitOffset _ _ _ _ | C_TMQListAppend _ _ | C_TMQConfSet _ _ _
  | C_TaosSetNotifyCB _ _ | C_TaosOptionsConnection _ _ _ | C_TMQGetVgroupID _ | C_TMQGetVgroupOffset _ | C_TaosNumFields _
  | C_TaosResultPrecision _ | C_Now | C_GetDuration => 0
  | A_Poll _ _ | A_GetJsonMeta _ | C_TMQListNew | C_TMQConfNew | C_TMQGetConnect _ | C_InitTMQRaw => p
  | A_FreeResult _ | C_TMQListDestroy _ | C_TMQConfDestroy _ | C_FreeResult _ | C_FreeTMQRaw _ | C_TMQFreeRaw _
  | C_TMQFreeJsonMeta _ | C_DestroyTMQThread | C_HandlerPut => tt
  | A_FetchRawBlock _ => (0, 1, 4096)
  | A_GetTopicAssignment _ _ => (0, [])
  | C_TMQListToCArray _ => []
  | C_TMQErr2Str _ | C_TaosErrorStr | C_TMQGetTopicName _ | C_TMQGetDBName _ | C_TMQGetTableName _ => []
  | C_TMQSubscription _ => (0, p)
  | C_FetchWhitelist _ => (0, [(localhost, [255; 255; 255; 255])])
  | C_TMQGetResType _ => 1
  | C_TaosFetchFields _ _ => mkHeader [] [] []
  | C_BlockMemory _ _ => [1; 0; 0; 0; 16; 0; 0; 0; 1; 0; 0; 0; 0; 0; 0; p]
  | C_ParseRawMeta _ => (1, 1, [p])
  | C_JsonMeta _ => [0]
  | C_Range l => l
  end.

(** ** Requests *)

(** The text of a message is its action; messages have the numbers 1 and 2. *)
Definition names : list (list Z * request) :=
  [(str "subscribe", Subscribe (mkSubscribe 7 [] [] [] [] [] [] [] [str "t"] [] [] [] [] [] [] [] [] [] [] []));
   (str "unsubscribe", Unsubscribe 7); (str "poll", Poll 7 500); (str "fetch", Fetch 7 1); (str "fetch_block", FetchBlock 7 2);
   (str "fetch_raw", FetchRaw 7 1); (str "commit", Commit 7 1)].
Definition requests (data : list Z) : option request := snd <$> (snd <$> list_find (fun x => fst x = data) names).

Definition play : list action -> outcome sys := tmq_run localhost [] id requests.
Definition next : sys -> action -> outcome sys := tmq_step localhost [] id requests.

(** A message arrives and its goroutine starts; [n] steps of goroutine [i]. *)
Definition message (name : string) : list action := [ARecv (str name); ASpawn].
Definition steps (n i : nat) (o : oracle) : list action := replicate n (AStep i o).

Definition ending (acts : list action) (f : sys -> bool) : bool := match play acts with Ok s => f s | _ => false end.

Lemma tmq_plays acts f : ending acts f = true -> exists s, play acts = Ok s /\ f s = true.
Proof. unfold ending. destruct (play acts) as [s| | |]; try done. by exists s. Qed.

Definition is_done (t : thread) : bool := match t_prog t with Done _ => true | _ => false end.

Lemma tmq_finished_done s : forallb is_done (threads s) = true -> finished s.
Proof.
  intros H. apply Forall_forall. intros t Ht. rewrite forallb_forall in H. specialize (H t (proj1 (list_elem_of_In _ _) Ht)).
  unfold is_done in H. destruct (t_prog t); try done. eauto.
Qed.

(** ** A session from the subscription to the end *)

Definition subscribed : list action := message "subscribe" ++ steps 47 0 (lib 11).
Definition polled : list action := subscribed ++ message "poll" ++ steps 37 2 (lib 12).
Definition fetched : list action := polled ++ message "fetch" ++ steps 28 3 (lib 13).
Definition closed : list action := fetched ++ [AClose] ++ steps 29 4 (lib 14).

Lemma tmq_safe_witness : exists s, play fetched = Ok s /\ next s AClose <> Bad /\ next s (ARecv (str "poll")) <> Bad.
Proof.
  destruct (tmq_plays fetched (fun _ => true)) as (s & E & _); [vm_compute; reflexivity|]. exists s. split; [exact E|].
  split; exact (tmq_safe localhost [] id requests fetched s _ E).
Defined.

Lemma tmq_no_leak_witness : exists s, play closed = Ok s /\ w_exit (w s) = true /\ w_live (w s) = ∅.
Proof.
  destruct (tmq_plays closed (fun s => forallb is_done (threads s) && w_exit (w s))) as (s & E & [H1 H2]%andb_true_iff);
    [vm_compute; reflexivity|]. exists s. split; [exact E|]. split; [exact H2|]. apply tmq_finished_done in H1.
  exact (proj2 (proj2 (tmq_no_leak localhost [] id requests closed s E H1)) H2).
Defined.

(** ** Unsubscribing *)

Definition thread_is (i : nat) (f : thread -> bool) (s : sys) : bool := match threads s !! i with Some t => f t | None => false end.
Lemma tmq_thread_is i f s : thread_is i f s = true -> exists t, threads s !! i = Some t /\ f t = true.
Proof. unfold thread_is. destruct (threads s !! i); [eauto|done]. Qed.

Definition at_unsubscribe (t : thread) : bool :=
  match t with
  | mkThread _ (Vis e _) false => match e with OCall c => match c with A_Unsubscribe q => q =? 11 | _ => false end | _ => false end
  | _ => false
  end.
Lemma tmq_at_unsubscribe t : at_unsubscribe t = true -> exists ro k, t = mkThread ro (Vis (OCall (A_Unsubscribe 11)) k) false.
Proof. destruct t as [ro [| |X e k] []]; try done. destruct e; try done. destruct c; try done. cbn. intros ->%Z.eqb_eq. eauto. Qed.

Definition unsubscribing : list action := fetched ++ message "unsubscribe" ++ steps 7 4 (lib 14).

Lemma tmq_unsubscribe_only_open_witness : exists s, play unsubscribing = Ok s /\
  w_lock (w s) LHandler = Some 4%nat /\ w_closed (w s) = false.
Proof.
  destruct (tmq_plays unsubscribing (thread_is 4 at_unsubscribe)) as (s & E & H); [vm_compute; reflexivity|].
  exists s. split; [exact E|]. apply tmq_thread_is in H as (t & Ht & (ro & k & ->)%tmq_at_unsubscribe).
  exact (tmq_unsubscribe_only_open localhost [] id requests unsubscribing s 4 ro 11 k E Ht).
Defined.

(** ** The deadlock *)

Lemma tmq_close_deadlock_witness : exists s, play (handle_and_close (str "unsubscribe") (lib 11)) = Ok s /\
  next s (AStep 0 (lib 13)) = Blocked /\ next s (AStep 1 (lib 13)) = Blocked.
Proof.
  destruct (tmq_close_deadlock localhost [] id requests (str "unsubscribe") (Unsubscribe 7) (lib 11) eq_refl eq_refl) as (s & E & H).
  exists s. split; [exact E|]. exact (proj2 (H [] s (lib 13) eq_refl)).
Defined.

(** ** Blocks *)

(** A message is polled and a block of it fetched, the next message is polled, and [fetch_block] asks
    for the block of that one. *)
Definition stale : list action :=
  fetched ++ message "poll" ++ steps 35 4 (lib 14) ++ message "fetch_block" ++ steps 10 5 (lib 15).

(** What is written to the client for a queued message, when it is written now. *)
Definition written (w : world) (m : TmqWs.message) : list Z :=
  match m with BufferResp (Some (b, n)) => take (Z.to_nat n) (default [] (w_bufs w !! b)) | BinaryResp d => d | _ => [] end.

(** [poll] leaves the buffer of the last message as it is, so a [fetch_block] that follows it without
    a [fetch] is answered with the block of an earlier message: the request is for message 2, the
    frame is the one of message 1. *)
Theorem tmq_stale_block : exists s, play stale = Ok s /\ Index (w_msg (w s)) = 2 /\
  (written (w s) <$> last (w_sent (w s))) =
    Some (le_bytes 8 0 ++ le_bytes 8 7 ++ le_bytes 8 1 ++ [1; 0; 0; 0; 16; 0; 0; 0; 1; 0; 0; 0; 0; 0; 0; 13]).
Proof.
  destruct (tmq_plays stale (fun s => bool_decide (Index (w_msg (w s)) = 2 /\ (written (w s) <$> last (w_sent (w s))) =
    Some (le_bytes 8 0 ++ le_bytes 8 7 ++ le_bytes 8 1 ++ [1; 0; 0; 0; 16; 0; 0; 0; 1; 0; 0; 0; 0; 0; 0; 13]))))
    as (s & E & H%bool_decide_eq_true); [vm_compute; reflexivity|].
  exists s. split; [exact E|exact H].
Qed.

(** ** Answers *)


End TmqScenarios.
