(* ===== verification/Statsd.v ===== *)
(** * Statsd: the line parser of the statsd plugin

    [src/plugin/statsd/statsd.go] and [datadog.go]: a packet is split into lines, a line into metrics,
    a bucket into a name and tags, and an event message into an event.  The operations on floats and
    the graphite templates, which are a library's, are parameters. *)
From S2P Require Import Prelude Utf8 Text.
From stdpp Require Import gmap sorting.
#[local] Open Scope Z_scope.

Module Statsd.
Import Text.

Abbreviation bytes := (list Z) (only parsing).
Abbreviation tagmap := (gmap (list Z) (list Z)) (only parsing).

(** ** Floats *)

(** Go's [float64] with the operations the plugin uses: [strconv.ParseFloat], arithmetic, the
    conversions [float64(z)] and [int64(f)], comparison, [math.Sqrt] and the text of [%v]. *)
Class Floats := {
  float : Type;
  ParseFloat : bytes -> option float;
  float_of : Z -> float;
  int64_of : float -> Z;
  fadd : float -> float -> float; fsub : float -> float -> float;
  fmul : float -> float -> float; fdiv : float -> float -> float;
  feqb : float -> float -> bool; fltb : float -> float -> bool;
  Sqrt : float -> float;
  fshow : float -> bytes }.

(** ** Data *)

Inductive mtype := Mg | Mc | Ms | Mms | Mh | Md.
#[export] Instance mtype_eq_dec : EqDecision mtype.
Proof. solve_decision. Defined.

(** The settings of [Statsd] that parsing and caching read. *)
Record settings := mkSettings {
  DataDogExtensions : bool; DataDogDistributions : bool; ConvertNames : bool; SanitizeNamesMethod : bytes;
  PercentileLimit : Z; DeleteGauges : bool; DeleteCounters : bool; DeleteSets : bool; DeleteTimings : bool; MaxTTL : Z }.

Section Parser.
Context `{!Floats}.

Record metric := mkMetric {
  m_name : bytes; m_field : bytes; m_bucket : bytes; m_hash : bytes; m_intvalue : Z; m_floatvalue : float;
  m_strvalue : bytes; m_mtype : mtype; m_additive : bool; m_samplerate : float; m_tags : tagmap }.

(** An event for [acc.AddFields]; its fields are texts and integers. *)
Inductive evalue := EText (s : bytes) | EInt (z : Z).
Record event := mkEvent { e_name : bytes; e_fields : gmap bytes evalue; e_tags : tagmap; e_time : Z }.

(** [graphite]: [p.ApplyTemplate] with the default tags, of a parser for the separator and the
    templates of the configuration; [None] when [NewGraphiteParser] fails. *)
Context (graphite : option (tagmap -> bytes -> bytes * tagmap * bytes)) (conf : settings).

(** ** Tags *)

Definition parseKeyValue (keyValue : bytes) : bytes * bytes :=
  match Split keyValue 61 with
  | [val] => ([], val)
  | [key; val] => (key, val)
  | key :: vals => (key, Join vals [61])
  | [] => ([], [])
  end.

(** The state of the loop of [parseDataDogTags]. *)
Record dd := mkDD { dd_tags : tagmap; dd_start : Z; dd_k : bytes; dd_inVal : bool }.

Definition dd_step (message : bytes) (i : Z) (st : dd) : go dd :=
  c ← zget message i;
  if c =? 44 then
    if bool_decide (dd_k st = []) then
      k ← zslice message (dd_start st) i;
      Ret (mkDD (<[k := str "true"]> (dd_tags st)) (i + 1) k (dd_inVal st))
    else
      v ← zslice message (dd_start st) i;
      Ret (mkDD (<[dd_k st := if bool_decide (v = []) then str "true" else v]> (dd_tags st)) (i + 1) [] false)
  else if (c =? 58) && negb (dd_inVal st) then
    k ← zslice message (dd_start st) i;
    Ret (mkDD (dd_tags st) (i + 1) k true)
  else Ret st.

Fixpoint dd_loop (message : bytes) (starts : list Z) (st : dd) : go dd :=
  match starts with
  | [] => Ret st
  | i :: starts => st ← dd_step message i st; dd_loop message starts st
  end.

(** After the loop; [i] is the start of the last rune. *)
Definition dd_finish (message : bytes) (i : Z) (st : dd) : go tagmap :=
  tags ← (if bool_decide (dd_k st = []) && (dd_start st <? i + 1) then
            k ← zslice message (dd_start st) (i + 1); Ret (<[k := str "true"]> (dd_tags st))
          else Ret (dd_tags st));
  if bool_decide (dd_k st <> []) then
    if dd_start st <? i + 1 then v ← zslice message (dd_start st) (i + 1); Ret (<[dd_k st := v]> tags)
    else Ret (<[dd_k st := str "true"]> tags)
  else Ret tags.

Definition parseDataDogTags (tags : tagmap) (message : bytes) : go tagmap :=
  if bool_decide (message = []) then Ret tags
  else
    st ← dd_loop message (rune_starts message) (mkDD tags 0 [] false);
    dd_finish message (List.last (rune_starts message) 0) st.

(** ** Names *)

Definition is_whitespace (c : Z) : bool := (c =? 9) || (c =? 10) || (c =? 12) || (c =? 13) || (c =? 32).
(** Every run of white space becomes one underscore. *)
Fixpoint squeeze (inside : bool) (s : bytes) : bytes :=
  match s with
  | [] => []
  | c :: s => if is_whitespace c then (if inside then [] else [95]) ++ squeeze true s else c :: squeeze false s
  end.
(** The characters [[a-zA-Z_\-0-9\.;=]]; no byte of a rune of several bytes is one. *)
Definition allowedChars (c : Z) : bool :=
  in_range 97 c 122 || in_range 65 c 90 || (c =? 95) || (c =? 45) || in_range 48 c 57 || (c =? 46) || (c =? 59) || (c =? 61).
Definition sanitize (name : bytes) : bytes :=
  if bool_decide (SanitizeNamesMethod conf = str "upstream")
  then List.filter allowedChars (ReplaceAll (squeeze false name) 47 [45])
  else name.

Definition bucket_tags (btags : list bytes) : tagmap :=
  fold_left (fun tags btag => let '(k, v) := parseKeyValue btag in
    if bool_decide (k = []) then tags else <[k := v]> tags) btags ∅.

Definition parseName (bucket : bytes) : bytes * bytes * tagmap :=
  let parts := Split bucket 44 in
  let tags := bucket_tags (tail parts) in
  let name := sanitize (default [] (head parts)) in
  let '(name, tags, field) := match graphite with
                              | Some ApplyTemplate => ApplyTemplate tags name
                              | None => (name, tags, [])
                              end in
  let name := if ConvertNames conf then ReplaceAll (ReplaceAll name 46 [95]) 45 [95; 95] else name in
  (name, if bool_decide (field = []) then str "value" else field, tags).

(** ** Lines *)

Definition type_of (s : bytes) : option mtype :=
  if bool_decide (s = str "g") then Some Mg else if bool_decide (s = str "c") then Some Mc
  else if bool_decide (s = str "s") then Some Ms else if bool_decide (s = str "ms") then Some Mms
  else if bool_decide (s = str "h") then Some Mh else if bool_decide (s = str "d") then Some Md else None.
Definition metric_type (t : mtype) : bytes :=
  match t with
  | Mc => str "counter" | Mg => str "gauge" | Ms => str "set" | Mms => str "timing" | Mh => str "histogram"
  | Md => str "distribution"
  end.

(** The unique key for name and tags. *)
Definition hash_of (name : bytes) (tags : tagmap) : bytes :=
  Join (sort_Strings ((fun kv => fst kv ++ [61] ++ snd kv) <$> map_to_list tags) ++ [name]) [].

(** The sample rate of the third part; one that cannot be parsed is ignored. *)
Definition rate_of (pipesplit : list bytes) : float :=
  match pipesplit with
  | _ :: _ :: sr :: _ =>
    if existsb (Z.eqb 64) sr && (1 <? zlen sr) then default (float_of 0) (ParseFloat (tail sr)) else float_of 0
  | _ => float_of 0
  end.

(** The value of a counter; the error of [ParseInt] is not looked at. *)
Definition counter_value (value : bytes) (rate : float) : option Z :=
  v ← (match ParseInt value with inl v => Some v | inr _ => int64_of <$> ParseFloat value end);
  Some (if negb (feqb rate (float_of 0)) then int64_of (fdiv (float_of v) rate) else v).

(** One metric of a line; [None] for [errParsing]. *)
Definition parse_bit (lineTags : tagmap) (bucket bit : bytes) : option metric :=
  let pipesplit := Split bit 124 in
  match pipesplit with
  | value :: type :: _ =>
    t ← type_of type;
    let rate := rate_of pipesplit in
    let additive := HasPrefix value [45] || HasPrefix value [43] in
    if additive && negb (bool_decide (t = Mg)) && negb (bool_decide (t = Mc)) then None
    else
      vals ← (match t with
              | Mc => v ← counter_value value rate; Some (v, float_of 0, [])
              | Ms => Some (0, float_of 0, value)
              | _ => v ← ParseFloat value; Some (0, v, [])
              end);
      let '(intvalue, floatvalue, strvalue) := vals in
      let '(name, field, tags) := parseName bucket in
      let tags := lineTags ∪ <[str "metric_type" := metric_type t]> tags in
      Some (mkMetric name field bucket (hash_of name tags) intvalue floatvalue strvalue t additive rate tags)
  | _ => None
  end.

(** The metrics of a line up to the first error, which are cached, and whether there was no error. *)
Fixpoint parse_bits (lineTags : tagmap) (bucket : bytes) (bits : list bytes) : list metric * bool :=
  match bits with
  | [] => ([], true)
  | bit :: bits =>
    match parse_bit lineTags bucket bit with
    | None => ([], false)
    | Some m => let '(ms, ok) := parse_bits lineTags bucket bits in (m :: ms, ok)
    end
  end.

(** The line without its datadog tags, and the tags. *)
Fixpoint line_tags (segments : list bytes) (tags : tagmap) : go (list bytes * tagmap) :=
  match segments with
  | [] => Ret ([], tags)
  | segment :: segments =>
    match segment with
    | 35 :: rest => tags ← parseDataDogTags tags rest; line_tags segments tags
    | _ => x ← line_tags segments tags; Ret (segment :: fst x, snd x)
    end
  end.

Definition parseStatsdLine (line : bytes) : go (list metric * bool) :=
  x ← (if DataDogExtensions conf then
         x ← line_tags (Split line 124) ∅; Ret (Join (fst x) [124], snd x)
       else Ret (line, ∅));
  let '(line, lineTags) := x in
  Ret (match Split line 58 with
       | bucketName :: b :: bits => parse_bits lineTags bucketName (b :: bits)
       | _ => ([], false)
       end).

(** ** Events *)

(** [strings.NewReplacer("\\n", "\n")]. *)
Fixpoint uncommenter (s : bytes) : bytes :=
  match s with
  | [] => []
  | 92 :: ((110 :: s'') as s') => 10 :: uncommenter s''
  | c :: s' => c :: uncommenter s'
  end.

Definition metadata_step (f : bytes) (fields : gmap bytes evalue) (tags : tagmap) : go (gmap bytes evalue * tagmap) :=
  if zlen f <? 2 then Err "too short metadata field"
  else
    let kind := take 2 f in
    let rest := drop 2 f in
    if bool_decide (kind = str "d:") then
      Ret (match ParseInt rest with inl ts => <[str "ts" := EInt ts]> fields | inr _ => fields end, tags)
    else if bool_decide (kind = str "p:") then
      Ret (if bool_decide (rest = str "low") then <[str "priority" := EText (str "low")]> fields else fields, tags)
    else if bool_decide (kind = str "h:") then Ret (fields, <[str "source" := rest]> tags)
    else if bool_decide (kind = str "t:") then
      Ret (if bool_decide (rest ∈ [str "error"; str "warning"; str "success"; str "info"])
           then <[str "alert_type" := EText rest]> fields else fields, tags)
    else if bool_decide (kind = str "k:") then Ret (fields, <[str "aggregation_key" := rest]> tags)
    else if bool_decide (kind = str "s:") then Ret (<[str "source_type_name" := EText rest]> fields, tags)
    else
      c ← zget f 0;
      if negb (c =? 35) then Err "unknown metadata type"
      else tags ← parseDataDogTags tags (tail f); Ret (fields, tags).

Fixpoint metadata (fs : list bytes) (fields : gmap bytes evalue) (tags : tagmap) : go (gmap bytes evalue * tagmap) :=
  match fs with
  | [] => Ret (fields, tags)
  | f :: fs => x ← metadata_step f fields tags; metadata fs (fst x) (snd x)
  end.

(** A number of the header. *)
Definition length_of (s : bytes) (what : string) : go Z := match ParseInt s with inl z => Ret z | inr _ => Err what end.

Definition parseEventMessage (now : Z) (message defaultHostname : bytes) : go event :=
  match SplitN2 message 58 with
  | [header; message] =>
    if (zlen header <? 7) || (zlen message <? 3) then Err "invalid message format"
    else
      match SplitN2 (drop 3 header) 44 with
      | [len0; len1] =>
        titleLen ← length_of len0 "invalid message format, could not parse title.length";
        if zlen len1 <? 1 then Err "invalid message format, could not parse text.length"
        else
          textLen ← length_of (removelast len1) "invalid message format, could not parse text.length";
          if zlen message <? i64 (i64 (titleLen + textLen) + 1)
          then Err "invalid message format, title.length and text.length exceed total message length"
          else
            rawTitle ← zslice message 0 titleLen;
            rawText ← zslice message (i64 (titleLen + 1)) (i64 (i64 (titleLen + 1) + textLen));
            message ← zslice message (i64 (i64 (titleLen + 1) + textLen)) (zlen message);
            if bool_decide (rawTitle = []) || bool_decide (rawText = [])
            then Err "invalid event message format: empty 'title' or 'text' field"
            else
              let fields : gmap bytes evalue := <[str "priority" := EText (str "normal")]>
                (<[str "text" := EText (uncommenter rawText)]> {[str "alert_type" := EText (str "info")]}) in
              let tags : tagmap := if bool_decide (defaultHostname = []) then ∅ else {[str "source" := defaultHostname]} in
              if zlen message <? 2 then Ret (mkEvent rawTitle fields tags now)
              else
                x ← metadata (Split (tail message) 124) fields tags;
                let tags := match snd x !! str "host" with
                            | Some host => <[str "source" := host]> (delete (str "host") (snd x))
                            | None => snd x
                            end in
                Ret (mkEvent rawTitle (fst x) tags now)
      | _ => Err "invalid message format"
      end
  | _ => Err "invalid message format"
  end.

(** ** Packets *)

(** What a line gives: cached metrics or an event. *)
Inductive item := Metric (m : metric) | Event (e : event).

(** The lines of a packet; the parser goroutine ends ([false]) at an event that cannot be parsed. *)
Fixpoint parse_lines (now : Z) (addr : bytes) (lines : list bytes) : go (list item * bool) :=
  match lines with
  | [] => Ret ([], true)
  | line :: lines =>
    let line := TrimSpace line in
    if bool_decide (line = []) then parse_lines now addr lines
    else if DataDogExtensions conf && HasPrefix line (str "_e") then
      match parseEventMessage now line addr with
      | Ret e => x ← parse_lines now addr lines; Ret (Event e :: fst x, snd x)
      | Err _ => Ret ([], false)
      | Panic => Panic | Fault => Fault
      end
    else
      x ← parseStatsdLine line;
      y ← parse_lines now addr lines;
      Ret ((Metric <$> fst x) ++ fst y, snd y)
  end.
Definition parse_packet (now : Z) (addr packet : bytes) : go (list item * bool) := parse_lines now addr (Split packet 10).

End Parser.
End Statsd.
