(* ===== verification/StatsdCache.v ===== *)
(** * StatsdCache: the aggregates of the statsd plugin

    [aggregate], [Gather] and [expireCachedMetrics] of [src/plugin/statsd/statsd.go] and the running
    statistics of [running_stats.go].  All of them run under the lock of the plugin, so a run of the
    plugin is a sequence of them.  The random index of [AddValue] and the time are arguments; the time of
    an emitted point is left out, and the maps are walked in one order where Go takes any. *)
From S2P Require Import Prelude Utf8 Text Statsd.
From stdpp Require Import gmap sorting.
#[local] Open Scope Z_scope.

Module StatsdCache.
Import Text Statsd.

Section Cache.
Context `{!Floats}.

(** ** Running statistics *)

Record RunningStats := mkStats {
  rs_k : float; rs_n : Z; rs_ex : float; rs_ex2 : float; rs_perc : list float; PercLimit : Z;
  rs_sum : float; rs_lower : float; rs_upper : float; rs_sorted : bool }.

Definition defaultPercentileLimit : Z := 1000.

Definition new_stats (limit : Z) : RunningStats :=
  mkStats (float_of 0) 0 (float_of 0) (float_of 0) [] limit (float_of 0) (float_of 0) (float_of 0) false.

(** The first value sets the bounds and makes the array of the percentiles. *)
Definition first_value (v : float) (rs : RunningStats) : go RunningStats :=
  if rs_n rs =? 0 then
    let limit := if PercLimit rs =? 0 then defaultPercentileLimit else PercLimit rs in
    if limit <? 0 then Panic
    else Ret (mkStats v (rs_n rs) (rs_ex rs) (rs_ex2 rs) [] limit (rs_sum rs) v v false)
  else Ret rs.

(** [random] is the number that [rand.Intn] makes an index of. *)
Definition AddValue (random : Z) (v : float) (rs : RunningStats) : go RunningStats :=
  rs ← first_value v rs;
  perc ← (if zlen (rs_perc rs) <? PercLimit rs then Ret (rs_perc rs ++ [v])
          else zset (rs_perc rs) (random mod zlen (rs_perc rs)) v);
  let d := fsub v (rs_k rs) in
  Ret (mkStats (rs_k rs) (i64 (rs_n rs + 1)) (fadd (rs_ex rs) d) (fadd (rs_ex2 rs) (fmul d d)) perc (PercLimit rs)
         (fadd (rs_sum rs) v)
         (if fltb (rs_upper rs) v then rs_lower rs else if fltb v (rs_lower rs) then v else rs_lower rs)
         (if fltb (rs_upper rs) v then v else rs_upper rs) false).

Definition Mean (rs : RunningStats) : float := fadd (rs_k rs) (fdiv (rs_ex rs) (float_of (rs_n rs))).
Definition Variance (rs : RunningStats) : float :=
  fdiv (fsub (rs_ex2 rs) (fdiv (fmul (rs_ex rs) (rs_ex rs)) (float_of (rs_n rs)))) (float_of (rs_n rs)).
Definition Stddev (rs : RunningStats) : float := Sqrt (Variance rs).
Definition Sum (rs : RunningStats) : float := rs_sum rs.
Definition Upper (rs : RunningStats) : float := rs_upper rs.
Definition Lower (rs : RunningStats) : float := rs_lower rs.
Definition Count (rs : RunningStats) : Z := rs_n rs.

Definition clamp (i : float) (min max : Z) : Z :=
  if fltb i (float_of min) then min else if fltb (float_of max) i then max else int64_of i.

(** [sort.Float64s]: not-a-number first. *)
Definition is_nan (x : float) : bool := negb (feqb x x).
Definition float_less (x y : float) : bool := fltb x y || (is_nan x && negb (is_nan y)).
Definition float_le (x y : float) : Prop := float_less y x = false.
#[export] Instance float_le_dec x y : Decision (float_le x y).
Proof. unfold float_le. apply _. Defined.

(** The percentile, and the array, which is sorted in place. *)
Definition Percentile (n : float) (rs : RunningStats) : go (float * RunningStats) :=
  let n := if fltb (float_of 100) n then float_of 100 else n in
  let rs := if rs_sorted rs then rs
            else mkStats (rs_k rs) (rs_n rs) (rs_ex rs) (rs_ex2 rs) (merge_sort float_le (rs_perc rs)) (PercLimit rs)
                   (rs_sum rs) (rs_lower rs) (rs_upper rs) true in
  let i := fdiv (fmul (float_of (zlen (rs_perc rs))) n) (float_of 100) in
  v ← zget (rs_perc rs) (clamp i 0 (zlen (rs_perc rs) - 1));
  Ret (v, rs).

(** ** The caches *)

Record cached (A : Type) := mkCached { c_name : bytes; c_fields : gmap bytes A; c_tags : tagmap; c_expiresAt : Z }.

Record caches := mkCaches {
  gauges : gmap bytes (cached float);
  counters : gmap bytes (cached Z);
  sets : gmap bytes (cached (gset bytes));
  timings : gmap bytes (cached RunningStats);
  distributions : list (bytes * float * tagmap) }.

(** [Start]. *)
Definition new_caches : caches := mkCaches ∅ ∅ ∅ ∅ [].

Definition set_gauges x c := mkCaches x (counters c) (sets c) (timings c) (distributions c).
Definition set_counters x c := mkCaches (gauges c) x (sets c) (timings c) (distributions c).
Definition set_sets x c := mkCaches (gauges c) (counters c) x (timings c) (distributions c).
Definition set_timings x c := mkCaches (gauges c) (counters c) (sets c) x (distributions c).
Definition set_distributions x c := mkCaches (gauges c) (counters c) (sets c) (timings c) x.

(** The values under their field; the entry of a measurement that is not there yet is made of the
    metric's name and tags. *)
Definition entry {A} (m : metric) (cache : gmap bytes (cached A)) : cached A :=
  default (mkCached A (m_name m) ∅ (m_tags m) 0) (cache !! m_hash m).
Definition store {A} (m : metric) (expires : Z) (v : A) (cache : gmap bytes (cached A)) : gmap bytes (cached A) :=
  let e := entry m cache in
  <[m_hash m := mkCached A (c_name A e) (<[m_field m := v]> (c_fields A e)) (c_tags A e) expires]> cache.
Definition old_value {A} (m : metric) (d : A) (cache : gmap bytes (cached A)) : A :=
  default d (c_fields A (entry m cache) !! m_field m).

Fixpoint add_values (n : nat) (randoms : nat -> Z) (v : float) (rs : RunningStats) : go RunningStats :=
  match n with
  | O => Ret rs
  | S n => rs ← AddValue (randoms n) v rs; add_values n randoms v rs
  end.

(** How often a timing is added: [int(1.0 / m.samplerate)] times. *)
Definition repeats (rate : float) : nat :=
  if fltb (float_of 0) rate then Z.to_nat (int64_of (fdiv (float_of 1) rate)) else 1%nat.

Definition aggregate (conf : settings) (now : Z) (randoms : nat -> Z) (m : metric) (c : caches) : go caches :=
  let expires := now + MaxTTL conf in
  match m_mtype m with
  | Md =>
    Ret (if DataDogExtensions conf && DataDogDistributions conf
         then set_distributions (distributions c ++ [(m_name m, m_floatvalue m, m_tags m)]) c else c)
  | Mms | Mh =>
    rs ← add_values (repeats (m_samplerate m)) randoms (m_floatvalue m) (old_value m (new_stats (PercentileLimit conf)) (timings c));
    Ret (set_timings (store m expires rs (timings c)) c)
  | Mc => Ret (set_counters (store m expires (i64 (old_value m 0 (counters c) + m_intvalue m)) (counters c)) c)
  | Mg =>
    let v := if m_additive m then fadd (old_value m (float_of 0) (gauges c)) (m_floatvalue m) else m_floatvalue m in
    Ret (set_gauges (store m expires v (gauges c)) c)
  | Ms => Ret (set_sets (store m expires ({[m_strvalue m]} ∪ old_value m ∅ (sets c)) (sets c)) c)
  end.

(** ** Gathering *)

Inductive fvalue := FInt (z : Z) | FFloat (f : float).
Inductive emission :=
| AddFields (name : bytes) (fields : gmap bytes fvalue) (tags : tagmap)
| AddGauge (name : bytes) (fields : gmap bytes fvalue) (tags : tagmap)
| AddCounter (name : bytes) (fields : gmap bytes fvalue) (tags : tagmap).

Context (Percentiles : list float).

Fixpoint percentile_fields (prefix : bytes) (ps : list float) (rs : RunningStats) (fields : gmap bytes fvalue) :
    go (gmap bytes fvalue * RunningStats) :=
  match ps with
  | [] => Ret (fields, rs)
  | p :: ps =>
    x ← Percentile p rs;
    percentile_fields prefix ps (snd x) (<[prefix ++ fshow p ++ str "_percentile" := FFloat (fst x)]> fields)
  end.

(** The fields of one timing.  The array of the percentiles is shared with the cache and stays sorted,
    the mark that it is sorted is set on a copy. *)
Definition stats_fields (fieldName : bytes) (rs : RunningStats) (fields : gmap bytes fvalue) : go (gmap bytes fvalue * RunningStats) :=
  let prefix := if bool_decide (fieldName = str "value") then [] else fieldName ++ str "_" in
  let fields := <[prefix ++ str "count" := FInt (Count rs)]> (<[prefix ++ str "lower" := FFloat (Lower rs)]>
    (<[prefix ++ str "upper" := FFloat (Upper rs)]> (<[prefix ++ str "sum" := FFloat (Sum rs)]>
    (<[prefix ++ str "stddev" := FFloat (Stddev rs)]> (<[prefix ++ str "mean" := FFloat (Mean rs)]> fields))))) in
  x ← percentile_fields prefix Percentiles rs fields;
  Ret (fst x, mkStats (rs_k rs) (rs_n rs) (rs_ex rs) (rs_ex2 rs) (rs_perc (snd x)) (PercLimit rs) (rs_sum rs) (rs_lower rs)
                (rs_upper rs) (rs_sorted rs)).

Fixpoint timing_fields (l : list (bytes * RunningStats)) (fields : gmap bytes fvalue) (cache : gmap bytes RunningStats) :
    go (gmap bytes fvalue * gmap bytes RunningStats) :=
  match l with
  | [] => Ret (fields, cache)
  | (f, rs) :: l => x ← stats_fields f rs fields; timing_fields l (fst x) (<[f := snd x]> cache)
  end.
Definition gather_timing (e : cached RunningStats) : go (emission * cached RunningStats) :=
  x ← timing_fields (map_to_list (c_fields _ e)) ∅ (c_fields _ e);
  Ret (AddFields (c_name _ e) (fst x) (c_tags _ e), mkCached _ (c_name _ e) (snd x) (c_tags _ e) (c_expiresAt _ e)).
Fixpoint gather_timings (l : list (bytes * cached RunningStats)) (cache : gmap bytes (cached RunningStats)) :
    go (list emission * gmap bytes (cached RunningStats)) :=
  match l with
  | [] => Ret ([], cache)
  | (h, e) :: l => x ← gather_timing e; y ← gather_timings l (<[h := snd x]> cache); Ret (fst x :: fst y, snd y)
  end.

Definition gather_gauge (e : cached float) : emission := AddGauge (c_name _ e) (FFloat <$> c_fields _ e) (c_tags _ e).
Definition gather_counter (e : cached Z) : emission := AddCounter (c_name _ e) (FInt <$> c_fields _ e) (c_tags _ e).
Definition gather_set (e : cached (gset bytes)) : emission :=
  AddFields (c_name _ e) ((fun s => FInt (Z.of_nat (size s))) <$> c_fields _ e) (c_tags _ e).
Definition gather_distribution (d : bytes * float * tagmap) : emission :=
  AddFields (fst (fst d)) {[str "value" := FFloat (snd (fst d))]} (snd d).

(** The entries that have not expired. *)
Definition live {A} (now : Z) (cache : gmap bytes (cached A)) : gmap bytes (cached A) :=
  filter (fun kv => now <= c_expiresAt A (snd kv)) cache.
Definition expireCachedMetrics (conf : settings) (now : Z) (c : caches) : caches :=
  if MaxTTL conf =? 0 then c
  else mkCaches (live now (gauges c)) (live now (counters c)) (live now (sets c)) (live now (timings c)) (distributions c).

Definition Gather (conf : settings) (now : Z) (c : caches) : go (list emission * caches) :=
  t ← gather_timings (map_to_list (timings c)) (timings c);
  let out :=
    (gather_distribution <$> distributions c) ++ fst t ++
    ((fun kv => gather_gauge (snd kv)) <$> map_to_list (gauges c)) ++
    ((fun kv => gather_counter (snd kv)) <$> map_to_list (counters c)) ++
    ((fun kv => gather_set (snd kv)) <$> map_to_list (sets c)) in
  Ret (out, expireCachedMetrics conf now
    (mkCaches (if DeleteGauges conf then ∅ else gauges c) (if DeleteCounters conf then ∅ else counters c)
              (if DeleteSets conf then ∅ else sets c) (if DeleteTimings conf then ∅ else snd t) [])).

(** ** A run of the plugin *)

(** What happens to the caches, in the order in which the lock is taken: a metric arrives, or the
    caches are gathered. *)
Inductive act := Aggregate (now : Z) (randoms : nat -> Z) (m : metric) | GatherAt (now : Z).

Fixpoint run (conf : settings) (acts : list act) (c : caches) : go (list emission * caches) :=
  match acts with
  | [] => Ret ([], c)
  | Aggregate now randoms m :: acts => c ← aggregate conf now randoms m c; run conf acts c
  | GatherAt now :: acts => x ← Gather conf now c; y ← run conf acts (snd x); Ret (fst x ++ fst y, snd y)
  end.

End Cache.
Arguments c_name {A}.
Arguments c_fields {A}.
Arguments c_tags {A}.
Arguments c_expiresAt {A}.
Arguments mkCached {A}.
End StatsdCache.
