(* ===== verification/StatsdSpec.v ===== *)
(** * StatsdSpec: the theorems about the statsd line parser

    The parser returns on every line, reads the datadog tags and the counters that a client writes,
    and the exceptions: tags without a value next to each other, a tag that ends in a character of
    several bytes, and events with a negative length. *)
From S2P Require Import Prelude Utf8 Text Statsd.
From stdpp Require Import gmap sorting.
#[local] Open Scope Z_scope.

Module StatsdSpec.
Import Text Statsd.

(** ** Datadog tags *)

(** The positions of runes increase and are those of the message. *)
Lemma rune_starts_from_sorted k i s : 
  StronglySorted Z.lt (rune_starts_from k i s) /\ Forall (fun j => i <= j < i + zlen s) (rune_starts_from k i s).
Proof.
  revert k i. induction s as [|b s IH]; intros k i; cbn [rune_starts_from]; [split; constructor|].
  assert (Hw : forall k, Forall (fun j => i < j < i + zlen (b :: s)) (rune_starts_from k (i + 1) s)).
  { intros k'. eapply Forall_impl; [apply (IH k' (i + 1))|]. intros j. rewrite zlen_cons. lia. }
  destruct k as [|k].
  - split; [constructor; [apply IH|]|constructor].
    + eapply Forall_impl; [apply Hw|]. cbn. lia.
    + rewrite zlen_cons. pose proof (zlen_nonneg s). lia.
    + eapply Forall_impl; [apply Hw|]. cbn. lia.
  - split; [apply IH|]. eapply Forall_impl; [apply Hw|]. cbn. lia.
Qed.

Lemma zslice_Ret {A} (l : list A) lo hi : 0 <= lo <= hi -> hi <= zlen l -> exists x, zslice l lo hi = Ret x.
Proof. intros. unfold zslice. rewrite bool_decide_eq_true_2 by lia. eauto. Qed.
Lemma zget_in {A} (l : list A) i : 0 <= i < zlen l -> exists x, zget l i = Ret x.
Proof.
  intros H. unfold zget. rewrite bool_decide_eq_true_2 by lia. destruct (l !! Z.to_nat i) as [x|] eqn:E; [eauto|].
  apply lookup_ge_None in E. unfold zlen in H. lia.
Qed.

Lemma dd_step_total message i st : 0 <= dd_start st <= i -> i < zlen message ->
  exists st', dd_step message i st = Ret st' /\ 0 <= dd_start st' <= i + 1.
Proof.
  intros Hs Hi. unfold dd_step. destruct (zget_in message i) as [c ->]; [lia|]. rewrite go_bind_ret.
  destruct (zslice_Ret message (dd_start st) i) as [x ->]; [lia|lia|].
  destruct (c =? 44); [case_bool_decide; eexists; (split; [done|cbn; lia])|].
  destruct (_ && _); eexists; (split; [done|cbn; lia]).
Qed.

Lemma dd_loop_total message starts st : StronglySorted Z.lt starts ->
  Forall (fun i => dd_start st <= i < zlen message) starts -> 0 <= dd_start st ->
  exists st', dd_loop message starts st = Ret st' /\ 0 <= dd_start st'.
Proof.
  revert st. induction starts as [|i starts IH]; intros st Hs Hf H0; [by exists st|].
  apply StronglySorted_inv in Hs as [Hs Hi]. apply Forall_cons in Hf as [Hi' Hf]. cbn [dd_loop].
  destruct (dd_step_total message i st) as (st' & -> & Hst); [lia|lia|]. rewrite go_bind_ret. apply IH; [done| |lia].
  rewrite Forall_forall in *. intros j Hj. specialize (Hi j Hj). specialize (Hf j Hj). lia.
Qed.

Lemma parseDataDogTags_total tags message : exists tags', parseDataDogTags tags message = Ret tags'.
Proof.
  unfold parseDataDogTags. case_bool_decide as Hm; [eauto|].
  destruct (rune_starts_from_sorted 0 0 message) as [Hs Hf]. fold (rune_starts message) in *.
  destruct (dd_loop_total message (rune_starts message) (mkDD tags 0 [] false)) as (st & -> & H0); [done|exact Hf|done|].
  rewrite go_bind_ret. unfold dd_finish.
  assert (Hl : List.last (rune_starts message) 0 + 1 <= zlen message).
  { destruct message as [|b message]; [done|]. assert (Hn : rune_starts (b :: message) <> []) by done.
    apply exists_last in Hn as (l & j & E). rewrite E in *. rewrite last_last. apply Forall_app in Hf as [_ Hf].
    apply Forall_cons in Hf as [Hj _]. lia. }
  destruct (Z.ltb_spec (dd_start st) (List.last (rune_starts message) 0 + 1)) as [Hlt|Hge].
  - destruct (zslice_Ret message (dd_start st) (List.last (rune_starts message) 0 + 1)) as [v ->]; [lia|done|].
    destruct (decide (dd_k st = [])) as [Hk|Hk].
    + rewrite (bool_decide_eq_true_2 _ Hk), bool_decide_eq_false_2 by auto. cbn. eauto.
    + rewrite (bool_decide_eq_false_2 _ Hk), bool_decide_eq_true_2 by auto. cbn. eauto.
  - rewrite andb_false_r, go_bind_ret. case_bool_decide; eauto.
Qed.

(** The loop over a message of one-byte characters, with the bytes since [start] at hand. *)
Definition dd_byte (c : Z) (st : tagmap * bytes * bool * bytes) : tagmap * bytes * bool * bytes :=
  let '(tags, k, inVal, cur) := st in
  if c =? 44 then
    if bool_decide (k = []) then (<[cur := str "true"]> tags, cur, inVal, [])
    else (<[k := if bool_decide (cur = []) then str "true" else cur]> tags, [], false, [])
  else if (c =? 58) && negb inVal then (tags, cur, true, [])
  else (tags, k, inVal, cur ++ [c]).
Definition dd_bytes (s : bytes) (st : tagmap * bytes * bool * bytes) := fold_left (fun st c => dd_byte c st) s st.
Definition dd_end (st : tagmap * bytes * bool * bytes) : tagmap :=
  let '(tags, k, _, cur) := st in
  if bool_decide (k = []) then if bool_decide (cur = []) then tags else <[cur := str "true"]> tags
  else <[k := if bool_decide (cur = []) then str "true" else cur]> tags.

Definition ascii (s : bytes) : Prop := Forall (fun c => 0 <= c < 128) s.

Lemma decode_ascii b s : 0 <= b < 128 -> decode_rune (b :: s) = (b, 1%nat).
Proof. intros H. unfold decode_rune. by rewrite (proj2 (Z.ltb_lt b 128)) by lia. Qed.

Lemma rune_starts_ascii b i s : 0 <= b < 128 -> rune_starts_from 0 i (b :: s) = i :: rune_starts_from 0 (i + 1) s.
Proof. intros H. cbn [rune_starts_from]. by rewrite decode_ascii by done. Qed.

Lemma statsd_zslice_mid {A} (pre cur post : list A) hi : hi = zlen (pre ++ cur) -> zslice (pre ++ cur ++ post) (zlen pre) hi = Ret cur.
Proof.
  intros ->. unfold zslice. rewrite !zlen_app. pose proof (zlen_nonneg pre). pose proof (zlen_nonneg cur). pose proof (zlen_nonneg post).
  rewrite bool_decide_eq_true_2 by lia. f_equal. rewrite zdrop_app_len by done. rewrite ztake_app_len; [done|lia].
Qed.

Lemma dd_loop_bytes suf : forall p0 cur tags k inVal, ascii suf ->
  exists p1 tags' k' inVal' cur', dd_bytes suf (tags, k, inVal, cur) = (tags', k', inVal', cur') /\
    p0 ++ cur ++ suf = p1 ++ cur' /\
    dd_loop (p0 ++ cur ++ suf) (rune_starts_from 0 (zlen (p0 ++ cur)) suf) (mkDD tags (zlen p0) k inVal) =
    Ret (mkDD tags' (zlen p1) k' inVal').
Proof.
  induction suf as [|c suf IH]; intros p0 cur tags k inVal Ha.
  { exists p0, tags, k, inVal, cur. split; [done|]. by rewrite app_nil_r. }
  apply Forall_cons in Ha as [Hc Ha]. rewrite rune_starts_ascii by done. cbn [dd_loop].
  assert (Hz : zget (p0 ++ cur ++ c :: suf) (zlen (p0 ++ cur)) = Ret c) by (rewrite app_assoc; apply zget_middle).
  assert (Hs : zslice (p0 ++ cur ++ c :: suf) (zlen p0) (zlen (p0 ++ cur)) = Ret cur) by (by apply statsd_zslice_mid).
  assert (En : zlen (p0 ++ cur) + 1 = zlen ((p0 ++ cur ++ [c]) ++ [])).
  { rewrite app_nil_r, app_assoc, zlen_snoc. done. }
  assert (Em : p0 ++ cur ++ c :: suf = (p0 ++ cur ++ [c]) ++ [] ++ suf) by (by rewrite <- !app_assoc).
  assert (En' : zlen (p0 ++ cur) + 1 = zlen (p0 ++ cur ++ [c])) by (by rewrite app_assoc, zlen_snoc).
  unfold dd_step. cbn [dd_start dd_k dd_tags dd_inVal]. rewrite Hz, go_bind_ret, Hs.
  unfold dd_bytes. cbn [fold_left dd_byte]. fold (dd_bytes suf).
  destruct (c =? 44); [case_bool_decide|destruct ((c =? 58) && negb inVal)].
  1-3: rewrite !go_bind_ret, Em, En;
    match goal with |- context [mkDD ?t _ ?k' ?b] => destruct (IH (p0 ++ cur ++ [c]) [] t k' b Ha) as (p1 & t' & kk & bb & cc & E1 & E2 & E3) end;
    exists p1, t', kk, bb, cc; split; [exact E1|]; split; [exact E2|]; rewrite <- E3; by rewrite app_nil_r.
  rewrite go_bind_ret, En'. destruct (IH p0 (cur ++ [c]) tags k inVal Ha) as (p1 & t' & kk & bb & cc & E1 & E2 & E3).
  exists p1, t', kk, bb, cc. split; [exact E1|]. rewrite <- !app_assoc in E2, E3. split; [exact E2|]. exact E3.
Qed.

Lemma rune_starts_last i b s : ascii (b :: s) -> List.last (rune_starts_from 0 i (b :: s)) 0 + 1 = i + zlen (b :: s).
Proof.
  revert i b. induction s as [|c s IH]; intros i b Ha; pose proof Ha as [Hb Ha']%Forall_cons; rewrite rune_starts_ascii by done.
  - cbn. unfold zlen. cbn. lia.
  - apply Forall_cons in Ha' as [Hc _]. specialize (IH (i + 1) c). rewrite rune_starts_ascii in * by done.
    change (List.last (i :: ?l) 0) with (List.last l 0) in *. rewrite zlen_cons.
    replace (i + (1 + zlen (c :: s))) with (i + 1 + zlen (c :: s)) by lia. apply IH. by inversion Ha.
Qed.

Lemma parseDataDogTags_bytes tags message : ascii message -> message <> [] ->
  parseDataDogTags tags message = Ret (dd_end (dd_bytes message (tags, [], false, []))).
Proof.
  intros Ha Hm. unfold parseDataDogTags. rewrite bool_decide_eq_false_2 by done.
  destruct (dd_loop_bytes message [] [] tags [] false Ha) as (p1 & t & k & b & cur & E1 & E2 & E3). cbn [app] in *.
  change (zlen []) with 0 in E3. unfold rune_starts. rewrite E3, go_bind_ret, E1. unfold dd_finish. cbn [dd_k dd_start dd_tags].
  assert (El : List.last (rune_starts_from 0 0 message) 0 + 1 = zlen p1 + zlen cur).
  { destruct message as [|c message]; [done|]. rewrite rune_starts_last by done. rewrite E2, zlen_app. lia. }
  rewrite El. assert (Ec : (zlen p1 <? zlen p1 + zlen cur) = negb (bool_decide (cur = []))).
  { destruct cur as [|x cur]; [apply Z.ltb_ge; unfold zlen; cbn; lia|]. apply Z.ltb_lt. rewrite zlen_cons. pose proof (zlen_nonneg cur). lia. }
  rewrite Ec. assert (Es : zslice message (zlen p1) (zlen p1 + zlen cur) = Ret cur).
  { rewrite E2, <- (app_nil_r cur) at 1. apply statsd_zslice_mid. by rewrite zlen_app. }
  rewrite Es. unfold dd_end. destruct (decide (k = [])) as [Hk|Hk].
  - rewrite (bool_decide_eq_true_2 _ Hk), bool_decide_eq_false_2 by auto. by case_bool_decide.
  - rewrite (bool_decide_eq_false_2 _ Hk), bool_decide_eq_true_2 by auto. cbn. by case_bool_decide.
Qed.

(** A tag as a client writes it, and what it means. *)
Definition tag_text (t : bytes * option bytes) : bytes :=
  match snd t with None => fst t | Some v => fst t ++ 58 :: v end.
Definition tag_value (t : bytes * option bytes) : bytes :=
  match snd t with None | Some [] => str "true" | Some v => v end.
Definition tag_ok (t : bytes * option bytes) : Prop :=
  fst t <> [] /\ ascii (tag_text t) /\ 44 ∉ tag_text t /\ 58 ∉ fst t.
(** No two tags without a value stand next to each other. *)
Fixpoint spaced (ts : list (bytes * option bytes)) : bool :=
  match ts with
  | (_, None) :: (((_, None) :: _) as ts') => false
  | _ :: ts' => spaced ts'
  | [] => true
  end.
Definition set_tag (tags : tagmap) (t : bytes * option bytes) : tagmap := <[fst t := tag_value t]> tags.

Lemma dd_bytes_cons c s st : dd_bytes (c :: s) st = dd_bytes s (dd_byte c st).
Proof. done. Qed.
Lemma dd_bytes_app a b st : dd_bytes (a ++ b) st = dd_bytes b (dd_bytes a st).
Proof. apply fold_left_app. Qed.
Lemma dd_bytes_plain s tags k inVal cur : 44 ∉ s -> (58 ∉ s \/ inVal = true) ->
  dd_bytes s (tags, k, inVal, cur) = (tags, k, inVal, cur ++ s).
Proof.
  revert cur. induction s as [|c s IH]; intros cur Hc Hv; [by rewrite app_nil_r|].
  rewrite dd_bytes_cons. cbn [dd_byte]. apply not_elem_of_cons in Hc as [H1 H2].
  rewrite (proj2 (Z.eqb_neq c 44)) by done.
  assert (Hn : (c =? 58) && negb inVal = false).
  { destruct Hv as [Hv| ->]; [|by rewrite andb_false_r]. apply not_elem_of_cons in Hv as [Hv _]. by rewrite (proj2 (Z.eqb_neq c 58)) by done. }
  rewrite Hn, IH; [by rewrite <- app_assoc|done|]. destruct Hv as [Hv|Hv]; [left; by apply not_elem_of_cons in Hv as []|by right].
Qed.

(** A tag, from the start of a tag: its key is kept when it has a value, and is the text at hand when
    it has none and there is no key left over. *)
Lemma dd_bytes_tag t tags k : tag_ok t -> (snd t = None -> k = []) ->
  exists inVal cur k', dd_bytes (tag_text t) (tags, k, false, []) = (tags, k', inVal, cur) /\
    dd_end (tags, k', inVal, cur) = set_tag tags t /\
    dd_byte 44 (tags, k', inVal, cur) = (set_tag tags t, match snd t with None => fst t | Some _ => [] end, false, []).
Proof.
  destruct t as [name [v|]]; intros (Hn & _ & H44 & H58) Hk; cbn [fst snd tag_text] in *.
  - apply not_elem_of_app in H44 as [Ha [_ Hb]%not_elem_of_cons].
    exists true, v, name. rewrite dd_bytes_app, dd_bytes_plain by auto. rewrite dd_bytes_cons.
    change (dd_byte 58 (tags, k, false, [] ++ name)) with (tags, name, true, []:bytes). rewrite dd_bytes_plain by auto. split; [done|]. unfold dd_end, dd_byte, set_tag, tag_value. cbn [fst snd].
    rewrite !bool_decide_eq_false_2 by done. destruct v; done.
  - rewrite Hk by done. exists false, name, []. rewrite dd_bytes_plain by auto. split; [done|].
    unfold dd_end, dd_byte, set_tag, tag_value. cbn [fst snd]. rewrite !(bool_decide_eq_true_2 ([] = [])) by done.
    by rewrite bool_decide_eq_false_2 by done.
Qed.

Lemma dd_bytes_tags ts : forall t tags k, Forall tag_ok (t :: ts) -> spaced (t :: ts) = true -> (snd t = None -> k = []) ->
  dd_end (dd_bytes (Join (tag_text <$> t :: ts) [44]) (tags, k, false, [])) = fold_left set_tag (t :: ts) tags.
Proof.
  induction ts as [|u ts IH]; intros t tags k Hf Hs Hk; apply Forall_cons in Hf as [Ht Hf];
    destruct (dd_bytes_tag t tags k Ht Hk) as (inVal & cur & k' & E1 & E2 & E3).
  - cbn [fmap list_fmap Join fold_left]. by rewrite E1.
  - change (Join (tag_text <$> t :: u :: ts) [44]) with (tag_text t ++ 44 :: Join (tag_text <$> u :: ts) [44]).
    rewrite dd_bytes_app, E1, dd_bytes_cons, E3. cbn [fold_left]. apply (IH u); [done| |].
    + destruct t as [? [?|]]; [done|]. by destruct u as [? [?|]].
    + intros Hu. destruct t as [? [?|]]; [done|]. by destruct u as [? [?|]].
Qed.

Lemma Join_notin ps x c : x <> c -> Forall (fun p => x ∉ p) ps -> x ∉ Join ps [c].
Proof.
  intros Hx. induction ps as [|p ps IH]; intros H; [apply not_elem_of_nil|]. apply Forall_cons in H as [Hp H].
  destruct ps as [|q ps]; [done|]. change (Join (p :: q :: ps) [c]) with (p ++ c :: Join (q :: ps) [c]).
  rewrite not_elem_of_app, not_elem_of_cons. auto.
Qed.
Lemma Join_ascii ps : Forall ascii ps -> ascii (Join ps [44]).
Proof.
  induction ps as [|p ps IH]; intros H; [constructor|]. apply Forall_cons in H as [Hp H].
  destruct ps as [|q ps]; [done|]. change (Join (p :: q :: ps) [44]) with (p ++ 44 :: Join (q :: ps) [44]).
  apply Forall_app. split; [done|]. constructor; [lia|by apply IH].
Qed.

(** The tags that a client writes are those that the parser sets, the later ones over the earlier ones
    and a missing value as [true]. *)
Theorem parseDataDogTags_tags (ts : list (bytes * option bytes)) (tags : tagmap) :
  Forall tag_ok ts -> spaced ts = true ->
  parseDataDogTags tags (Join (tag_text <$> ts) [44]) = Ret (fold_left set_tag ts tags).
Proof.
  intros Hf Hs. destruct ts as [|t ts]; [done|]. rewrite parseDataDogTags_bytes.
  - f_equal. by apply dd_bytes_tags.
  - apply Join_ascii, Forall_fmap. eapply Forall_impl; [exact Hf|]. by intros x (_ & Hx & _).
  - apply Forall_cons in Hf as [(Hn & _) _]. intros E. assert (E' : tag_text t = []).
    { destruct ts as [|u ts]; [exact E|]. change (Join (tag_text <$> t :: u :: ts) [44]) with (tag_text t ++ 44 :: Join (tag_text <$> u :: ts) [44]) in E.
      by destruct (tag_text t). }
    unfold tag_text in E'. destruct (snd t); [by apply app_eq_nil in E' as []|done].
Qed.

(** Of two tags without a value next to each other the second is taken for the value of the first, and
    the third is on its own again. *)
Example parseDataDogTags_merged :
  parseDataDogTags ∅ (str "a,b,c") = Ret (<[str "c" := str "true"]> {[str "a" := str "b"]}).
Proof. vm_compute. reflexivity. Qed.
(** Of a last character of several bytes only the first one is kept. *)
Example parseDataDogTags_truncated :
  parseDataDogTags ∅ (str "city:" ++ [97; 195; 169]) = Ret {[str "city" := [97; 195]]}.
Proof. vm_compute. reflexivity. Qed.

(** ** Numbers *)

Lemma parse_digits_step d s n : 0 <= d < 10 -> 0 <= n -> n * 10 + d < 2 ^ 64 ->
  parse_digits (48 + d :: s) n = parse_digits s (n * 10 + d).
Proof.
  intros Hd H0 Hn. cbn [parse_digits]. rewrite (proj2 (Z.ltb_ge (48 + d) 48)), (proj2 (Z.ltb_ge 57 (48 + d))) by lia. cbn [orb].
  change (2 ^ 64 / 10 + 1) with 1844674407370955162. change (2 ^ 64) with 18446744073709551616 in *.
  rewrite (proj2 (Z.leb_gt _ _)) by lia. replace (48 + d - 48) with d by lia. by rewrite (proj2 (Z.ltb_ge _ _)) by lia.
Qed.

Lemma parse_digits_of fuel z s : 0 <= z < 2 ^ Z.of_nat fuel -> z < 2 ^ 64 -> (fuel <> 0)%nat ->
  parse_digits (digits_of fuel z ++ s) 0 = parse_digits s z.
Proof.
  revert z s. induction fuel as [|fuel IH]; intros z s Hz H64 Hf; [done|]. cbn [digits_of]. rewrite <- app_assoc.
  pose proof (Z.mod_pos_bound z 10 ltac:(lia)) as Hm. pose proof (Z.div_mod z 10 ltac:(lia)) as Hd.
  destruct (Z.ltb_spec z 10) as [Hs|Hs]; cbn [app].
  - rewrite parse_digits_step by lia. f_equal. rewrite Z.mod_small; lia.
  - rewrite Nat2Z.inj_succ, Z.pow_succ_r in Hz by lia.
    assert (Hq : 0 <= z / 10 < 2 ^ Z.of_nat fuel) by lia.
    assert (fuel <> 0)%nat by (intros ->; cbn in Hz; lia).
    rewrite IH by lia. rewrite parse_digits_step by lia. f_equal. lia.
Qed.

Lemma digits_of_digit fuel z : 0 <= z -> exists c s, digits_of (S fuel) z = c :: s /\ 48 <= c <= 57.
Proof.
  revert z. induction fuel as [|fuel IH]; intros z Hz; pose proof (Z.mod_pos_bound z 10 ltac:(lia)) as Hm.
  - exists (48 + z mod 10), []. split; [by cbn; destruct (z <? 10)|lia].
  - change (digits_of (S (S fuel)) z) with ((if z <? 10 then [] else digits_of (S fuel) (z / 10)) ++ [48 + z mod 10]).
    destruct (z <? 10); [exists (48 + z mod 10), []; split; [done|lia]|].
    destruct (IH (z / 10)) as (c & s & -> & Hc); [apply Z.div_pos; lia|]. by exists c, (s ++ [48 + z mod 10]).
Qed.

(** What [Itoa] writes, [ParseInt] reads. *)
Lemma ParseInt_Itoa z : in_s 64 z -> ParseInt (Itoa z) = inl z.
Proof.
  intros Hz. unfold in_s in Hz. change (64 - 1) with 63 in Hz.
  assert (Hp : forall n, 0 <= n <= 2 ^ 63 -> parse_digits (digits_of (S (Z.to_nat (Z.log2 n))) n) 0 = inl n).
  { intros n Hn. rewrite <- (app_nil_r (digits_of _ _)). rewrite parse_digits_of; [done| |lia|done].
    split; [lia|]. rewrite Nat2Z.inj_succ, Z2Nat.id by apply Z.log2_nonneg. destruct (decide (n = 0)) as [->|]; [done|].
    apply Z.log2_spec. lia. }
  unfold ParseInt, Itoa. destruct (Z.ltb_spec z 0) as [Hn|Hn].
  - destruct (digits_of_digit (Z.to_nat (Z.log2 (- z))) (- z)) as (c & s & E & Hc); [lia|].
    rewrite bool_decide_eq_false_2 by (by rewrite E). rewrite Hp by lia. cbn [negb andb].
    rewrite (proj2 (Z.ltb_ge _ _)) by lia. f_equal. lia.
  - destruct (digits_of_digit (Z.to_nat (Z.log2 z)) z) as (c & s & E & Hc); [lia|]. specialize (Hp z ltac:(lia)).
    rewrite E in *. assert (Hm : forall d, (match c :: s with 43 :: d' => (false, d') | 45 :: d' => (true, d') | _ => (false, c :: s) end) = d -> d = (false, c :: s)).
    { intros d <-. assert (c <> 43) by lia. assert (c <> 45) by lia. destruct c as [|p|p]; [done| |done].
      do 6 (destruct p as [p|p|]; try done; try lia). }
    rewrite (Hm _ eq_refl). rewrite bool_decide_eq_false_2 by done. rewrite Hp. cbn [negb andb].
    by rewrite (proj2 (Z.leb_gt _ _)) by lia.
Qed.

Lemma digits_of_digits fuel z : 0 <= z -> Forall (fun c => 48 <= c <= 57) (digits_of fuel z).
Proof.
  revert z. induction fuel as [|fuel IH]; intros z Hz; [constructor|]. cbn [digits_of].
  pose proof (Z.mod_pos_bound z 10 ltac:(lia)). apply Forall_app. split; [|by repeat constructor; lia].
  destruct (z <? 10); [constructor|]. apply IH, Z.div_pos; lia.
Qed.
Lemma Itoa_digits z : Forall (fun c => c = 45 \/ 48 <= c <= 57) (Itoa z).
Proof.
  unfold Itoa. destruct (Z.ltb_spec z 0); [constructor; [by left|]|];
    (eapply Forall_impl; [apply digits_of_digits; lia|intros c Hc; right; exact Hc]).
Qed.
Lemma Itoa_notin z c : c <> 45 -> ~ 48 <= c <= 57 -> c ∉ Itoa z.
Proof. intros H1 H2 Hin. pose proof (Itoa_digits z) as H. rewrite Forall_forall in H. destruct (H c Hin); lia. Qed.

(** ** Lines *)

Lemma Split_app_sep a s c : Split (a ++ c :: s) c = Split a c ++ Split s c.
Proof.
  induction a as [|b a IH]; cbn [app Split]; [by rewrite Z.eqb_refl|]. destruct (b =? c); [by rewrite IH|].
  rewrite IH. destruct (Split_cons a c) as (q & ps & ->). done.
Qed.
Lemma Split_sub a c x : x ∉ a -> Forall (fun p => x ∉ p) (Split a c).
Proof.
  induction a as [|b a IH]; intros Hx; cbn [Split]; [repeat constructor; by apply not_elem_of_nil|].
  apply not_elem_of_cons in Hx as [Hb Hx]. specialize (IH Hx). destruct (b =? c); [constructor; [by apply not_elem_of_nil|done]|].
  destruct (Split a c) as [|p ps]; [repeat constructor; rewrite list_elem_of_singleton; done|].
  apply Forall_cons in IH as [H1 H2]. constructor; [by rewrite not_elem_of_cons|done].
Qed.

Section Lines.
Context `{!Floats} (graphite : option (tagmap -> bytes -> bytes * tagmap * bytes)) (conf : settings).

Lemma line_tags_total segments tags : exists x, line_tags segments tags = Ret x.
Proof.
  revert tags. induction segments as [|seg segs IH]; intros tags; cbn [line_tags]; [eauto|].
  assert (Hp : exists x, (x ← line_tags segs tags; Ret (seg :: fst x, snd x)) = Ret x) by (destruct (IH tags) as (x & ->); eauto).
  destruct seg as [|[|c|c] rest]; try exact Hp. do 6 (destruct c as [c|c|]; try exact Hp).
  destruct (parseDataDogTags_total tags rest) as (tags' & ->). apply IH.
Qed.

(** A line is parsed, whatever it holds. *)
Lemma parseStatsdLine_total line : exists x, parseStatsdLine graphite conf line = Ret x.
Proof.
  unfold parseStatsdLine. destruct (DataDogExtensions conf); [|rewrite go_bind_ret; eauto].
  destruct (line_tags_total (Split line 124) ∅) as (x & ->). rewrite !go_bind_ret. eauto.
Qed.

Lemma line_tags_plain segs rest tags tags' : Forall (fun p => 35 ∉ p) segs -> parseDataDogTags tags rest = Ret tags' ->
  line_tags (segs ++ [35 :: rest]) tags = Ret (segs, tags').
Proof.
  intros Hs Hr. induction Hs as [|p segs Hp _ IH]; cbn [app line_tags]; [by rewrite Hr|].
  rewrite IH. destruct p as [|[|c|c] p]; try done. do 6 (destruct c as [c|c|]; try done).
  exfalso. apply Hp. by left.
Qed.

(** The text of a counter's values after the bucket, and the metric of one. *)
Definition counter_text (v : Z) : bytes := Itoa v ++ str "|c".
Definition counter_metric (lineTags : tagmap) (bucket : bytes) (v : Z) : metric :=
  let '(name, field, tags) := parseName graphite conf bucket in
  let tags := lineTags ∪ <[str "metric_type" := str "counter"]> tags in
  mkMetric name field bucket (hash_of name tags) v (float_of 0) [] Mc (v <? 0) (float_of 0) tags.

Lemma additive_Itoa v : HasPrefix (Itoa v) [45] || HasPrefix (Itoa v) [43] = (v <? 0).
Proof.
  unfold Itoa. destruct (Z.ltb_spec v 0); [done|]. destruct (digits_of_digit (Z.to_nat (Z.log2 v)) v) as (c & s & -> & Hc); [lia|].
  unfold HasPrefix. cbn [prefixb]. by rewrite (proj2 (Z.eqb_neq 45 c)), (proj2 (Z.eqb_neq 43 c)) by lia.
Qed.

Lemma parse_bit_counter lineTags bucket v : feqb (float_of 0) (float_of 0) = true -> in_s 64 v ->
  parse_bit graphite conf lineTags bucket (counter_text v) = Some (counter_metric lineTags bucket v).
Proof.
  intros Hf Hv. unfold parse_bit, counter_text. change (str "|c") with (124 :: str "c").
  rewrite Split_sep by (apply Itoa_notin; lia). change (Split (str "c") 124) with [str "c"].
  unfold mbind, option_bind. cbv beta iota. change (type_of (str "c")) with (Some Mc). cbv beta iota. cbn [rate_of].
  rewrite additive_Itoa.
  change (bool_decide (Mc = Mg)) with false. change (bool_decide (Mc = Mc)) with true. cbn [negb andb]. rewrite ?andb_false_r.
  unfold counter_value. rewrite ParseInt_Itoa by done. unfold mbind, option_bind. cbv beta iota. rewrite Hf. cbn [negb].
  unfold counter_metric. by destruct (parseName graphite conf bucket) as [[??]?].
Qed.

Lemma parse_bits_counter lineTags bucket vs : feqb (float_of 0) (float_of 0) = true -> Forall (in_s 64) vs ->
  parse_bits graphite conf lineTags bucket (counter_text <$> vs) = (counter_metric lineTags bucket <$> vs, true).
Proof.
  intros Hf. induction 1 as [|v vs Hv _ IH]; [done|]. cbn [fmap list_fmap parse_bits]. rewrite parse_bit_counter by done.
  by rewrite IH.
Qed.

(** C26. The values of a counter and its datadog tags: one metric for each value, in their order, all with the
    tags. *)
Theorem parseStatsdLine_counter (bucket : bytes) (vs : list Z) (ts : list (bytes * option bytes)) :
  DataDogExtensions conf = true -> feqb (float_of 0) (float_of 0) = true ->
  Forall (fun c => c ∉ bucket) [35; 58; 124] -> vs <> [] -> Forall (in_s 64) vs ->
  Forall tag_ok ts -> Forall (fun t => 124 ∉ tag_text t) ts -> spaced ts = true ->
  parseStatsdLine graphite conf (bucket ++ 58 :: Join (counter_text <$> vs) [58] ++ str "|#" ++ Join (tag_text <$> ts) [44]) =
  Ret (counter_metric (fold_left set_tag ts ∅) bucket <$> vs, true).
Proof.
  intros Hd Hf Hb Hvs Hv Ht Hp Hs. unfold parseStatsdLine. rewrite Hd.
  apply Forall_cons in Hb as [H35 [H58 [H124 _]%Forall_cons]%Forall_cons].
  set (a := bucket ++ 58 :: Join (counter_text <$> vs) [58]).
  assert (Ea : bucket ++ 58 :: Join (counter_text <$> vs) [58] ++ str "|#" ++ Join (tag_text <$> ts) [44] =
               a ++ 124 :: 35 :: Join (tag_text <$> ts) [44]) by (subst a; by rewrite <- app_assoc).
  assert (Hc : forall v x, x = 35 \/ x = 58 -> x ∉ counter_text v).
  { intros v x Hx. apply not_elem_of_app. split; [apply Itoa_notin; lia|]. destruct Hx as [-> | ->]; by apply (bool_decide_unpack _). }
  rewrite Ea, Split_app_sep, (Split_none (35 :: _)).
  2: { apply not_elem_of_cons. split; [done|]. by apply Join_notin, Forall_fmap. }
  rewrite (line_tags_plain _ _ ∅ (fold_left set_tag ts ∅)).
  2: { apply Split_sub. subst a. apply not_elem_of_app. split; [done|]. apply not_elem_of_cons. split; [done|].
       apply Join_notin; [done|]. apply Forall_fmap, Forall_true. intros v. by apply Hc; left. }
  2: by apply parseDataDogTags_tags.
  rewrite !go_bind_ret. cbn [fst snd]. rewrite Join_Split. subst a. rewrite Split_sep by done.
  rewrite Split_Join; [|by destruct vs|apply Forall_fmap, Forall_true; intros v; by apply Hc; right].
  destruct vs as [|v vs]; [done|]. cbn [fmap list_fmap]. fold (fmap (M := list) counter_text vs).
  change (counter_text v :: (counter_text <$> vs)) with (counter_text <$> v :: vs). by rewrite parse_bits_counter.
Qed.

(** Without the datadog extensions every packet is parsed to its end, and the parser goes on. *)
Lemma parse_packet_goes_on now addr packet : DataDogExtensions conf = false ->
  exists items, parse_packet graphite conf now addr packet = Ret (items, true).
Proof.
  intros Hd. unfold parse_packet. induction (Split packet 10) as [|line lines IH]; cbn [parse_lines]; [eauto|]. rewrite Hd. cbn [andb].
  case_bool_decide; [done|]. destruct (parseStatsdLine_total (TrimSpace line)) as (x & ->). destruct IH as (items & ->).
  rewrite !go_bind_ret. eauto.
Qed.

End Lines.

End StatsdSpec.
