(* ===== verification/StatsdCacheSpec.v ===== *)
(** * StatsdCacheSpec: the theorems about the aggregates of the statsd plugin

    A run of metrics and gatherings always returns, and what is emitted for a counter and left of it
    follows from what the clients counted, for both settings of [deleteCounters]. *)
From S2P Require Import Prelude Utf8 Text Statsd StatsdCache.
From stdpp Require Import gmap sorting.
#[local] Open Scope Z_scope.

Module StatsdCacheSpec.
Import Text Statsd StatsdCache.

Lemma i64_add_l a b : i64 (i64 a + b) = i64 (a + b).
Proof.
  unfold wrap_s. change (64 - 1) with 63. set (M := 2 ^ 64). set (K := 2 ^ 63).
  replace ((a + K) mod M - K + b + K) with ((a + K) mod M + b) by lia.
  rewrite Z.add_mod_idemp_l by done. f_equal. f_equal. lia.
Qed.
Lemma i64_idem a : i64 (i64 a) = i64 a.
Proof. pose proof (i64_add_l a 0) as E. by rewrite !Z.add_0_r in E. Qed.
Lemma i64_cong a b c : i64 a = i64 b -> i64 (a + c) = i64 (b + c).
Proof. intros E. by rewrite <- i64_add_l, E, i64_add_l. Qed.

Section Spec.
Context {FL : Floats} (conf : settings).

(** ** Running statistics *)

Definition stats_ok (rs : RunningStats) : Prop := 0 <= PercLimit rs /\ (rs_n rs <> 0 -> 0 < PercLimit rs).

Lemma first_value_total v rs : stats_ok rs -> exists rs', first_value v rs = Ret rs' /\ 0 < PercLimit rs'.
Proof.
  intros [H1 H2]. unfold first_value. destruct (Z.eqb_spec (rs_n rs) 0); [|eauto].
  assert (Hl : 0 < (if PercLimit rs =? 0 then defaultPercentileLimit else PercLimit rs)).
  { destruct (Z.eqb_spec (PercLimit rs) 0); [done|lia]. }
  rewrite (proj2 (Z.ltb_ge _ _)) by lia. eexists. split; [done|exact Hl].
Qed.

Lemma AddValue_total r v rs : stats_ok rs -> exists rs', AddValue r v rs = Ret rs' /\ stats_ok rs'.
Proof.
  intros H. unfold AddValue. destruct (first_value_total v rs H) as (rs1 & -> & Hl). rewrite go_bind_ret.
  assert (Hp : exists p, (if zlen (rs_perc rs1) <? PercLimit rs1 then Ret (rs_perc rs1 ++ [v])
                         else zset (rs_perc rs1) (r mod zlen (rs_perc rs1)) v) = Ret p).
  { destruct (Z.ltb_spec (zlen (rs_perc rs1)) (PercLimit rs1)); [eauto|]. unfold zset.
    pose proof (Z.mod_pos_bound r (zlen (rs_perc rs1)) ltac:(lia)). rewrite bool_decide_eq_true_2 by lia. eauto. }
  destruct Hp as (p & ->). rewrite go_bind_ret. eexists. split; [done|]. split; cbn; lia.
Qed.

Lemma add_values_total n randoms v rs : stats_ok rs -> exists rs', add_values n randoms v rs = Ret rs' /\ stats_ok rs'.
Proof.
  revert rs. induction n as [|n IH]; intros rs H; cbn [add_values]; [eauto|].
  destruct (AddValue_total (randoms n) v rs H) as (rs' & -> & H'). rewrite go_bind_ret. by apply IH.
Qed.

(** ** Totality *)

Definition fields_ok (fields : gmap bytes RunningStats) : Prop := map_Forall (fun _ rs => stats_ok rs) fields.
Definition entries_ok (cache : gmap bytes (cached RunningStats)) : Prop := map_Forall (fun _ e => fields_ok (c_fields e)) cache.

Lemma entry_fields_ok m cache : entries_ok cache -> fields_ok (c_fields (entry m cache)).
Proof. intros H. unfold entry. destruct (cache !! m_hash m) eqn:E; [by apply (H _ _ E)|apply map_Forall_empty]. Qed.
Lemma store_ok m expires rs cache : entries_ok cache -> stats_ok rs -> entries_ok (store m expires rs cache).
Proof. intros H Hr. apply map_Forall_insert_2; [|done]. apply map_Forall_insert_2; [done|by apply entry_fields_ok]. Qed.

Lemma aggregate_total now randoms m c : 0 <= PercentileLimit conf -> entries_ok (timings c) ->
  exists c', aggregate conf now randoms m c = Ret c' /\ entries_ok (timings c').
Proof.
  intros Hl H. unfold aggregate. destruct (m_mtype m); try (eexists; split; [reflexivity|exact H]).
  3: { case_match; eexists; (split; [reflexivity|exact H]). }
  all: match goal with |- context [add_values ?n ?r ?v ?o] =>
         destruct (add_values_total n r v o) as (rs & -> & Hr) end;
    [unfold old_value; destruct (_ !! m_field m) eqn:E; [exact (entry_fields_ok m _ H _ _ E)|split; cbn; lia]|];
    rewrite go_bind_ret; eexists; (split; [reflexivity|by apply store_ok]).
Qed.

Lemma stats_fields_total f rs fields : exists fields', stats_fields [] f rs fields = Ret (fields', rs).
Proof. unfold stats_fields. cbn [percentile_fields]. rewrite go_bind_ret. destruct rs. eauto. Qed.

Lemma timing_fields_total l fields cache : Forall (fun kv => stats_ok (snd kv)) l -> fields_ok cache ->
  exists x, timing_fields [] l fields cache = Ret x /\ fields_ok (snd x).
Proof.
  intros Hl. revert fields cache. induction Hl as [|[f rs] l Hr _ IH]; intros fields cache Hc; cbn [timing_fields]; [eauto|].
  destruct (stats_fields_total f rs fields) as (fields' & ->). rewrite go_bind_ret. apply IH. by apply map_Forall_insert_2.
Qed.

Lemma map_to_list_Forall {A} (P : A -> Prop) (m : gmap bytes A) : map_Forall (fun _ x => P x) m -> Forall (fun kv => P (snd kv)) (map_to_list m).
Proof. intros H. apply Forall_forall. intros [k x] Hin%elem_of_map_to_list. by apply (H k). Qed.

Definition is_AddFields (e : emission) : Prop := match e with AddFields _ _ _ => True | _ => False end.

Lemma gather_timings_total l cache : Forall (fun kv => fields_ok (c_fields (snd kv))) l -> entries_ok cache ->
  exists x, gather_timings [] l cache = Ret x /\ Forall is_AddFields (fst x) /\ entries_ok (snd x).
Proof.
  intros Hl. revert cache. induction Hl as [|[h e] l He _ IH]; intros cache Hc; cbn [gather_timings].
  { eexists. split; [done|]. split; [constructor|done]. }
  unfold gather_timing. destruct (timing_fields_total (map_to_list (c_fields e)) ∅ (c_fields e)) as ((fs & ca) & -> & Hx);
    [by apply map_to_list_Forall|done|]. rewrite !go_bind_ret. cbn [fst snd] in *.
  destruct (IH (<[h := mkCached (c_name e) ca (c_tags e) (c_expiresAt e)]> cache)) as (y & -> & Ho & Hy); [by apply map_Forall_insert_2|].
  rewrite go_bind_ret. eexists. split; [done|]. split; [by constructor|done].
Qed.

Lemma live_ok now cache : entries_ok cache -> entries_ok (live now cache).
Proof. intros H k e He. apply map_lookup_filter_Some in He as [He _]. by apply (H k). Qed.

Lemma expire_ok now c : entries_ok (timings c) -> entries_ok (timings (expireCachedMetrics conf now c)).
Proof. intros H. unfold expireCachedMetrics. destruct (_ =? 0); [done|by apply live_ok]. Qed.

(** ** Counters *)

(** What a metric adds to the counter of a hash and a field. *)
Definition adds (h f : bytes) (m : metric) : Z :=
  if bool_decide (m_mtype m = Mc /\ m_hash m = h /\ m_field m = f) then m_intvalue m else 0.
Definition added (h f : bytes) (acts : list act) : Z :=
  foldr (fun a s => match a with Aggregate _ _ m => adds h f m + s | GatherAt _ => s end) 0 acts.

(** What the cache holds for a hash and a field, and what was emitted for a name, tags and a field. *)
Definition held (h f : bytes) (c : caches) : Z :=
  match counters c !! h with Some e => default 0 (c_fields e !! f) | None => 0 end.
Definition emits (n : bytes) (t : tagmap) (f : bytes) (e : emission) : Z :=
  match e with
  | AddCounter n' fields t' =>
    if bool_decide (n' = n /\ t' = t) then match fields !! f with Some (FInt z) => z | _ => 0 end else 0
  | _ => 0
  end.
Definition emitted (n : bytes) (t : tagmap) (f : bytes) (out : list emission) : Z := foldr (fun e s => emits n t f e + s) 0 out.

Lemma emitted_app n t f a b : emitted n t f (a ++ b) = emitted n t f a + emitted n t f b.
Proof. induction a as [|e a IH]; cbn; [done|]. fold (emitted n t f (a ++ b)) (emitted n t f a). lia. Qed.
Lemma emitted_none n t f out : Forall (fun e => emits n t f e = 0) out -> emitted n t f out = 0.
Proof. induction 1 as [|e out He _ IH]; cbn; [done|]. fold (emitted n t f out). lia. Qed.

(** The hash of a metric is that of its name and tags, and no other measurement has that of [n] and
    [t]. *)
Definition hashed (n : bytes) (t : tagmap) (m : metric) : Prop :=
  m_hash m = hash_of (m_name m) (m_tags m) /\ (m_hash m = hash_of n t -> m_name m = n /\ m_tags m = t).
Definition act_hashed (n : bytes) (t : tagmap) (a : act) : Prop :=
  match a with Aggregate _ _ m => hashed n t m | GatherAt _ => True end.
Definition counters_hashed (n : bytes) (t : tagmap) (c : caches) : Prop :=
  map_Forall (fun h e => h = hash_of (c_name e) (c_tags e) /\ (h = hash_of n t -> c_name e = n /\ c_tags e = t)) (counters c).

Lemma hashed_aggregate n t now randoms m c c' : hashed n t m -> counters_hashed n t c ->
  aggregate conf now randoms m c = Ret c' -> counters_hashed n t c'.
Proof.
  intros Hm Hc E. unfold aggregate in E. destruct (m_mtype m).
  2: { injection E as <-. apply map_Forall_insert_2; [|done]. unfold entry.
       destruct (counters c !! m_hash m) as [e|] eqn:Ee; [exact (Hc _ _ Ee)|exact Hm]. }
  1,2: by injection E as <-.
  1,2: apply go_bind_Ret_inv in E as (rs & _ & E); by injection E as <-.
  case_match; by injection E as <-.
Qed.

Lemma held_aggregate h f now randoms m c c' : aggregate conf now randoms m c = Ret c' ->
  i64 (held h f c') = i64 (held h f c + adds h f m).
Proof.
  intros E. unfold adds. destruct (decide (m_mtype m = Mc)) as [Hm|Hm].
  - unfold aggregate in E. rewrite Hm in E. injection E as <-. unfold held, set_counters, store. cbn [counters].
    destruct (decide (m_hash m = h)) as [<-|Hh].
    + rewrite lookup_insert_eq. cbn [c_fields]. unfold old_value, entry. destruct (decide (m_field m = f)) as [<-|Hf].
      * rewrite lookup_insert_eq, bool_decide_eq_true_2 by done.
        cbn. rewrite i64_idem. destruct (counters c !! m_hash m) as [e|]; [done|]. cbn. by rewrite lookup_empty.
      * rewrite lookup_insert_ne by done. rewrite bool_decide_eq_false_2 by tauto. rewrite Z.add_0_r.
        by destruct (counters c !! m_hash m).
    + rewrite lookup_insert_ne by done. rewrite bool_decide_eq_false_2 by tauto. by rewrite Z.add_0_r.
  - rewrite bool_decide_eq_false_2 by tauto. rewrite Z.add_0_r. unfold aggregate in E.
    destruct (m_mtype m); try done; try (by injection E as <-).
    1,2: apply go_bind_Ret_inv in E as (rs & _ & E); by injection E as <-.
    case_match; by injection E as <-.
Qed.

(** Of a list of counters with different hashes, one is that of [n] and [t]. *)
Lemma emitted_counters n t f (l : list (bytes * cached Z)) (h := hash_of n t) :
  NoDup l.*1 ->
  Forall (fun kv => kv.1 = hash_of (c_name kv.2) (c_tags kv.2) /\ (kv.1 = h -> c_name kv.2 = n /\ c_tags kv.2 = t)) l ->
  emitted n t f ((fun kv => gather_counter kv.2) <$> l) =
  match (list_to_map l : gmap bytes (cached Z)) !! h with Some e => default 0 (c_fields e !! f) | None => 0 end.
Proof.
  intros Hn Hl. subst h. induction Hl as [|[k e] l [Hk Hh] Hl IH]; cbn [fmap list_fmap list_to_map foldr fst snd] in *.
  { by rewrite lookup_empty. }
  apply NoDup_cons in Hn as [Hk' Hn]. specialize (IH Hn). cbn [emitted foldr]. fold (emitted n t f ((fun kv => gather_counter kv.2) <$> l)).
  rewrite IH. unfold gather_counter, emits. rewrite lookup_fmap. destruct (decide (k = hash_of n t)) as [->|Hne].
  - rewrite lookup_insert_eq, bool_decide_eq_true_2 by auto. rewrite not_elem_of_list_to_map_1 by done.
    by destruct (c_fields e !! f); cbn; lia.
  - rewrite lookup_insert_ne by done. rewrite bool_decide_eq_false_2; [done|]. intros [En Et]. apply Hne. by rewrite Hk, En, Et.
Qed.
Lemma emitted_held n t f c : counters_hashed n t c ->
  emitted n t f ((fun kv => gather_counter (snd kv)) <$> map_to_list (counters c)) = held (hash_of n t) f c.
Proof.
  intros H. rewrite emitted_counters; [by rewrite list_to_map_to_list|apply NoDup_fst_map_to_list|].
  apply Forall_forall. intros [k e] Hin%elem_of_map_to_list. exact (H k e Hin).
Qed.

(** ** Runs *)

Hypothesis no_percentiles_limit : 0 <= PercentileLimit conf.

(** What a gathering emits and leaves of a counter. *)
Lemma Gather_total n t f now c : MaxTTL conf = 0 -> entries_ok (timings c) -> counters_hashed n t c ->
  exists x, Gather [] conf now c = Ret x /\ entries_ok (timings (snd x)) /\
    counters (snd x) = (if DeleteCounters conf then ∅ else counters c) /\ emitted n t f (fst x) = held (hash_of n t) f c.
Proof.
  intros Ht Ho Hh. unfold Gather.
  destruct (gather_timings_total (map_to_list (timings c)) (timings c)) as ([fs ts] & -> & Hf & Hts); [exact (map_to_list_Forall (fun e => fields_ok (c_fields e)) _ Ho)|done|].
  rewrite go_bind_ret. eexists. split; [done|]. unfold expireCachedMetrics. rewrite Ht. cbn [fst snd timings counters Z.eqb].
  split; [by destruct (DeleteTimings conf)|]. split; [done|]. rewrite !emitted_app, emitted_held by done.
  rewrite !(emitted_none n t f); [lia| | | |]; try (apply Forall_fmap, Forall_true; by intros ?).
  eapply Forall_impl; [exact Hf|]. by intros [].
Qed.

(** What the gatherings of a run report of a counter that is at [z], when they reset it, and when they
    do not; and what is left of it. *)
Fixpoint reported (reset : bool) (h f : bytes) (z : Z) (acts : list act) : Z :=
  match acts with
  | [] => 0
  | Aggregate _ _ m :: acts => reported reset h f (z + adds h f m) acts
  | GatherAt _ :: acts => z + reported reset h f (if reset then 0 else z) acts
  end.
Fixpoint left_over (reset : bool) (h f : bytes) (z : Z) (acts : list act) : Z :=
  match acts with
  | [] => z
  | Aggregate _ _ m :: acts => left_over reset h f (z + adds h f m) acts
  | GatherAt _ :: acts => left_over reset h f (if reset then 0 else z) acts
  end.

Lemma reported_all h f acts z : reported true h f z acts + left_over true h f z acts = z + added h f acts.
Proof.
  revert z. induction acts as [|[now randoms m|now] acts IH]; intros z; cbn [reported left_over added foldr]; [lia| |];
    fold (added h f acts); [rewrite IH|rewrite <- Z.add_assoc, IH]; lia.
Qed.
Lemma left_all h f acts z : left_over false h f z acts = z + added h f acts.
Proof.
  revert z. induction acts as [|[now randoms m|now] acts IH]; intros z; cbn [left_over added foldr]; [lia| |];
    fold (added h f acts); rewrite IH; lia.
Qed.

(** The counters of a run that starts from any caches. *)
Lemma run_counters n t f acts : MaxTTL conf = 0 -> Forall (act_hashed n t) acts ->
  forall c z, entries_ok (timings c) -> counters_hashed n t c -> i64 (held (hash_of n t) f c) = i64 z ->
  exists out c', run [] conf acts c = Ret (out, c') /\
    i64 (emitted n t f out) = i64 (reported (DeleteCounters conf) (hash_of n t) f z acts) /\
    i64 (held (hash_of n t) f c') = i64 (left_over (DeleteCounters conf) (hash_of n t) f z acts).
Proof.
  intros Ht. induction 1 as [|a acts Ha _ IH]; intros c z Ho Hh Hz; cbn [run reported left_over]; [by exists [], c|].
  destruct a as [now randoms m|now].
  - destruct (aggregate_total now randoms m c) as (c1 & E & Ho1); [done..|]. rewrite E, go_bind_ret.
    apply IH; [done|by eapply hashed_aggregate|]. rewrite (held_aggregate _ f _ _ _ _ _ E). by apply i64_cong.
  - destruct (Gather_total n t f now c) as ([o1 c1] & -> & Ho1 & Hc1 & He); [done..|]. rewrite go_bind_ret. cbn [fst snd] in *.
    destruct (IH c1 (if DeleteCounters conf then 0 else z)) as (out & c' & -> & E1 & E2); [done| | |].
    { unfold counters_hashed. rewrite Hc1. destruct (DeleteCounters conf); [apply map_Forall_empty|done]. }
    { unfold held in *. rewrite Hc1. destruct (DeleteCounters conf); [by rewrite lookup_empty|done]. }
    rewrite go_bind_ret. exists (o1 ++ out), c'. split; [done|]. split; [|done]. rewrite emitted_app, He.
    rewrite (i64_cong _ _ _ Hz), Z.add_comm, (i64_cong _ _ _ E1). f_equal. lia.
Qed.

(** C25. A run of metrics and gatherings, whatever it holds, returns.  When entries do not expire and the
    measurement of a counter is the only one of its hash, then modulo [2^64]: with [deleteCounters],
    what was emitted for the counter and what is left of it are together what the clients counted, so
    no count is lost and none is emitted twice; without, the counter holds all that was counted, and
    every gathering emits all that was counted until then. *)
Theorem counters_conserved (n : bytes) (t : tagmap) (f : bytes) (acts : list act) (h := hash_of n t) :
  MaxTTL conf = 0 -> Forall (act_hashed n t) acts ->
  exists out c', run [] conf acts new_caches = Ret (out, c') /\
    if DeleteCounters conf then i64 (emitted n t f out + held h f c') = i64 (added h f acts)
    else i64 (held h f c') = i64 (added h f acts) /\ i64 (emitted n t f out) = i64 (reported false h f 0 acts).
Proof.
  intros Ht Ha. destruct (run_counters n t f acts Ht Ha new_caches 0) as (out & c' & E & E1 & E2); [by apply map_Forall_empty..|done|].
  exists out, c'. split; [exact E|]. destruct (DeleteCounters conf).
  - rewrite (i64_cong _ _ _ E1), Z.add_comm, (i64_cong _ _ _ E2), Z.add_comm, reported_all. done.
  - by rewrite left_all in E2.
Qed.

End Spec.
End StatsdCacheSpec.
