(* ===== verification/StatsdStats.v ===== *)
(** * StatsdStats: the running statistics of a timing

    What the fields of [RunningStats] say of the values that were added, for floats whose comparison and
    conversion follow the laws of [float64]: nothing is assumed of their arithmetic, which rounds. *)
From S2P Require Import Prelude Utf8 Text Statsd StatsdCache StatsdCacheSpec.
From stdpp Require Import gmap sorting.
#[local] Open Scope Z_scope.

Module StatsdStats.
Import Text Statsd StatsdCache StatsdCacheSpec.

(** The comparison of floats: not-a-number is in no relation, the others are ordered.  A number between
    two small integers is converted to one between them, and the rank of a percentile is a number. *)
Class FloatLaws `{FL : Floats} : Prop := {
  lt_irrefl x : fltb x x = false;
  lt_trans x y z : fltb x y = true -> fltb y z = true -> fltb x z = true;
  lt_split x y z : is_nan y = false -> fltb x z = true -> fltb x y = true \/ fltb y z = true;
  lt_number x y : fltb x y = true -> is_nan x = false /\ is_nan y = false;
  int64_of_between i max : is_nan i = false -> 0 <= max < 2 ^ 53 -> fltb i (float_of 0) = false ->
    fltb (float_of max) i = false -> 0 <= int64_of i <= max;
  float_of_number z : is_nan (float_of z) = false;
  rank_number len n : 0 < len < 2 ^ 53 -> is_nan n = false -> is_nan (fdiv (fmul (float_of len) n) (float_of 100)) = false }.

Section Stats.
Context `{FloatLaws}.

(** ** The order of the sorted values *)

Lemma less_split x y z : float_less x z = true -> float_less x y = true \/ float_less y z = true.
Proof.
  unfold float_less. intros [Hl|[Hx Hz]%andb_true_iff]%orb_true_iff.
  - destruct (lt_number _ _ Hl) as [Hx Hz]. rewrite Hx. destruct (is_nan y) eqn:Hy; [right; rewrite Hz; by rewrite orb_true_r|].
    destruct (lt_split x y z Hy Hl) as [->| ->]; auto.
  - rewrite Hx. apply negb_true_iff in Hz. rewrite Hz. destruct (is_nan y); [right|left]; by rewrite orb_true_r.
Qed.

Lemma less_irrefl x : float_less x x = false.
Proof. unfold float_less. rewrite lt_irrefl. by destruct (is_nan x). Qed.

Lemma less_asym x y : float_less x y = true -> float_less y x = false.
Proof.
  unfold float_less. intros [Hl|[Hx Hy]%andb_true_iff]%orb_true_iff.
  - destruct (lt_number _ _ Hl) as [-> ->]. rewrite andb_false_l, orb_false_r. destruct (fltb y x) eqn:E; [|done].
    by rewrite <- (lt_irrefl x), (lt_trans x y x Hl E).
  - rewrite Hx, andb_false_r, orb_false_r. destruct (fltb y x) eqn:E; [|done]. apply lt_number in E as [_ E]. congruence.
Qed.

#[export] Instance float_le_total : Total float_le.
Proof. intros x y. unfold float_le. destruct (float_less y x) eqn:E; [right; by apply less_asym|by left]. Qed.
#[export] Instance float_le_trans : Transitive float_le.
Proof.
  intros x y z Hxy Hyz. unfold float_le in *. destruct (float_less z x) eqn:E; [|done].
  destruct (less_split z y x E); congruence.
Qed.

(** ** Values and percentiles in turn *)

(** A value is added, or a percentile read, which sorts the array in place. *)
Inductive use := Add (v : float) | Read (n : float).

Fixpoint stats_run (randoms : nat -> Z) (uses : list use) (rs : RunningStats) : go RunningStats :=
  match uses with
  | [] => Ret rs
  | Add v :: uses => rs ← AddValue (randoms (length uses)) v rs; stats_run randoms uses rs
  | Read n :: uses => x ← Percentile n rs; stats_run randoms uses (snd x)
  end.

Definition values (uses : list use) : list float := omap (fun u => match u with Add v => Some v | Read _ => None end) uses.
Definition number (u : use) : Prop := match u with Add v => is_nan v = false | Read n => is_nan n = false end.

(** How many values the array keeps. *)
Definition room (limit : Z) : Z := if limit =? 0 then defaultPercentileLimit else limit.

(** No value of [vs] is below [lower] or above [upper], which are two of them. *)
Definition bounded (vs : list float) (lower upper : float) : Prop :=
  lower ∈ vs /\ upper ∈ vs /\ Forall (fun v => fltb v lower = false /\ fltb upper v = false) vs.

(** The array has the values, or as many of them as there is room for. *)
Definition sampled (limit : Z) (vs perc : list float) : Prop :=
  if bool_decide (zlen vs <= room limit) then perc ≡ₚ vs else zlen perc = room limit /\ Forall (fun v => v ∈ vs) perc.

(** The distances of the values from the first, and their sum and that of their squares, as they come. *)
Definition distances (vs : list float) : list float := (fun x => fsub x (default (float_of 0) (head vs))) <$> vs.
Definition ex_of (vs : list float) : float := fold_left fadd (distances vs) (float_of 0).
Definition ex2_of (vs : list float) : float := fold_left fadd ((fun d => fmul d d) <$> distances vs) (float_of 0).

Lemma distances_add vs v : vs <> [] -> distances (vs ++ [v]) = distances vs ++ [fsub v (default (float_of 0) (head vs))].
Proof. unfold distances. destruct vs as [|x vs]; [done|]. intros _. by rewrite fmap_app. Qed.

Record describes (limit : Z) (vs : list float) (rs : RunningStats) : Prop := mkDescribes {
  d_count : rs_n rs = zlen vs;
  d_sum : rs_sum rs = fold_left fadd vs (float_of 0);
  d_first : head vs = Some (rs_k rs);
  d_ex : rs_ex rs = ex_of vs;
  d_ex2 : rs_ex2 rs = ex2_of vs;
  d_bounds : bounded vs (rs_lower rs) (rs_upper rs);
  d_limit : PercLimit rs = room limit;
  d_perc : sampled limit vs (rs_perc rs) }.

Lemma bounded_add vs lower upper v : Forall (fun v => is_nan v = false) (v :: vs) -> bounded vs lower upper ->
  bounded (vs ++ [v]) (if fltb upper v then lower else if fltb v lower then v else lower) (if fltb upper v then v else upper).
Proof.
  intros [Hv Hn]%Forall_cons (Hl & Hu & Hb). rewrite Forall_forall in Hb, Hn.
  assert (Hlow : forall x y z, is_nan z = false -> fltb y x = false -> fltb z x = true -> fltb y z = false).
  { intros x y z Hz Hyx Hzx. destruct (fltb y z) eqn:E; [|done]. by rewrite <- Hyx, (lt_trans y z x E Hzx). }
  destruct (fltb upper v) eqn:Eu; [|destruct (fltb v lower) eqn:El].
  - split; [set_solver|]. split; [set_solver|]. apply Forall_forall. intros x [Hx|Hx]%elem_of_app.
    + destruct (Hb x Hx) as [H1 H2]. split; [done|]. destruct (fltb v x) eqn:E; [|done]. by rewrite <- H2, (lt_trans upper v x Eu E).
    + apply list_elem_of_singleton in Hx as ->. split; [|apply lt_irrefl]. destruct (fltb v lower) eqn:E; [|done].
      destruct (Hb lower Hl) as [_ H2]. by rewrite <- H2, (lt_trans upper v lower Eu E).
  - split; [set_solver|]. split; [set_solver|]. apply Forall_forall. intros x [Hx|Hx]%elem_of_app.
    + destruct (Hb x Hx) as [H1 H2]. split; [|done]. by apply (Hlow lower).
    + apply list_elem_of_singleton in Hx as ->. split; [apply lt_irrefl|done].
  - split; [set_solver|]. split; [set_solver|]. apply Forall_forall. intros x [Hx|Hx]%elem_of_app; [by apply Hb|].
    by apply list_elem_of_singleton in Hx as ->.
Qed.

Lemma sampled_length limit vs perc : 0 <= limit -> sampled limit vs perc -> zlen perc = Z.min (zlen vs) (room limit).
Proof.
  unfold sampled. intros Hl. case_bool_decide; [intros Hp|intros [Hp _]; lia]. unfold zlen in *. rewrite Hp. lia.
Qed.

Lemma room_pos limit : 0 <= limit -> 0 < room limit.
Proof. intros Hl. unfold room. destruct (Z.eqb_spec limit 0); [done|lia]. Qed.

Lemma sampled_full limit vs perc v : 0 <= limit -> sampled limit vs perc -> zlen perc < room limit -> sampled limit (vs ++ [v]) (perc ++ [v]).
Proof.
  intros Hl Hs Hp. rewrite (sampled_length limit vs perc Hl Hs) in Hp. unfold sampled in *. rewrite zlen_snoc.
  rewrite bool_decide_eq_true_2 in Hs by lia. rewrite bool_decide_eq_true_2 by lia. by rewrite Hs.
Qed.

Lemma sampled_replace limit vs perc v (i : nat) : 0 <= limit -> sampled limit vs perc -> room limit <= zlen perc ->
  sampled limit (vs ++ [v]) (<[i := v]> perc).
Proof.
  intros Hl Hs Hp. pose proof (sampled_length limit vs perc Hl Hs) as Hlen. unfold sampled in *. rewrite zlen_snoc.
  rewrite (bool_decide_eq_false_2 (zlen vs + 1 <= room limit)) by lia. split; [unfold zlen in *; rewrite length_insert; lia|].
  assert (Hall : Forall (fun x => x ∈ vs) perc).
  { case_bool_decide; [|by destruct Hs]. apply Forall_forall. intros x. by rewrite Hs. }
  apply Forall_insert; [|set_solver]. eapply Forall_impl; [exact Hall|]. set_solver.
Qed.

Lemma AddValue_describes limit vs rs r v : 0 <= limit -> zlen vs + 1 < 2 ^ 63 -> vs <> [] ->
  Forall (fun v => is_nan v = false) (v :: vs) -> describes limit vs rs ->
  exists rs', AddValue r v rs = Ret rs' /\ describes limit (vs ++ [v]) rs'.
Proof.
  intros Hl Hz Hne Hn [D1 D2 Dk De De2 D3 D4 D5]. pose proof (sampled_length limit vs _ Hl D5) as Hlen. pose proof (room_pos limit Hl).
  assert (Hpos : 0 < zlen vs) by (destruct vs; [done|rewrite zlen_cons; pose proof (zlen_nonneg vs); lia]).
  unfold AddValue, first_value. rewrite D1, (proj2 (Z.eqb_neq _ _)) by lia. rewrite go_bind_ret, D4.
  assert (Hp : exists p, (if zlen (rs_perc rs) <? room limit then Ret (rs_perc rs ++ [v])
                         else zset (rs_perc rs) (r mod zlen (rs_perc rs)) v) = Ret p /\ sampled limit (vs ++ [v]) p).
  { destruct (Z.ltb_spec (zlen (rs_perc rs)) (room limit)); [eexists; split; [done|by apply sampled_full]|].
    pose proof (Z.mod_pos_bound r (zlen (rs_perc rs)) ltac:(lia)). rewrite zset_in by lia. eexists. split; [done|by apply sampled_replace]. }
  destruct Hp as (p & -> & Hp). rewrite go_bind_ret. eexists. split; [done|]. split; cbn;
    [|by rewrite D2, fold_left_app|by destruct vs|..|by apply bounded_add|done|done].
  2,3: unfold ex_of, ex2_of in *; by rewrite distances_add, Dk, ?fmap_app, fold_left_app, ?De, ?De2 by done.
  rewrite D1, zlen_snoc. apply wrap_s_id; [done|]. unfold in_s. change (64 - 1) with 63. lia.
Qed.

Lemma first_describes limit r v : 0 <= limit -> is_nan v = false ->
  exists rs', AddValue r v (new_stats limit) = Ret rs' /\ describes limit [v] rs'.
Proof.
  intros Hl Hv. pose proof (room_pos limit Hl) as Hr. unfold AddValue, first_value, new_stats. cbn [rs_n Z.eqb PercLimit]. fold (room limit).
  rewrite (proj2 (Z.ltb_ge (room limit) 0)) by lia. rewrite go_bind_ret. cbn [rs_perc PercLimit]. change (zlen []) with 0.
  rewrite (proj2 (Z.ltb_lt _ _)) by lia. rewrite go_bind_ret. eexists. split; [done|]. split; cbn; try done.
  - rewrite lt_irrefl. split; [by left|]. split; [by left|]. repeat constructor; apply lt_irrefl.
  - unfold sampled. rewrite bool_decide_eq_true_2 by (change (zlen [v]) with 1; lia). done.
Qed.

(** Reading a percentile: the array is sorted, and the rank is in it. *)
Definition rank (len : Z) (n : float) : Z :=
  clamp (fdiv (fmul (float_of len) (if fltb (float_of 100) n then float_of 100 else n)) (float_of 100)) 0 (len - 1).

Lemma rank_in len n : 0 < len < 2 ^ 53 -> is_nan n = false -> 0 <= rank len n < len.
Proof.
  intros Hl Hn. unfold rank, clamp. set (m := if fltb (float_of 100) n then float_of 100 else n).
  assert (Hm : is_nan m = false) by (unfold m; destruct (fltb _ n); [apply float_of_number|done]).
  pose proof (rank_number len m Hl Hm) as Hi. set (i := fdiv _ _) in *. destruct (fltb i (float_of 0)) eqn:E1; [lia|].
  destruct (fltb (float_of (len - 1)) i) eqn:E2; [lia|]. pose proof (int64_of_between i (len - 1) Hi ltac:(lia) E1 E2). lia.
Qed.

(** Once it is marked as sorted, the array is. *)
Definition marked (rs : RunningStats) : Prop := rs_sorted rs = true -> StronglySorted float_le (rs_perc rs).

Lemma Percentile_describes limit vs rs n : 0 <= limit -> room limit < 2 ^ 53 -> vs <> [] -> is_nan n = false -> describes limit vs rs -> marked rs ->
  exists p rs', Percentile n rs = Ret (p, rs') /\ describes limit vs rs' /\ marked rs' /\
    StronglySorted float_le (rs_perc rs') /\ rs_perc rs' !! Z.to_nat (rank (zlen (rs_perc rs')) n) = Some p.
Proof.
  intros Hl Hr Hne Hn [D1 D2 Dk De De2 D3 D4 D5] Hm. pose proof (sampled_length limit vs _ Hl D5) as Hlen. pose proof (room_pos limit Hl).
  assert (Hpos : 0 < zlen vs) by (destruct vs; [done|rewrite zlen_cons; pose proof (zlen_nonneg vs); lia]).
  unfold Percentile. set (rs1 := if rs_sorted rs then rs else _).
  assert (Hp : rs_perc rs1 ≡ₚ rs_perc rs /\ StronglySorted float_le (rs_perc rs1) /\ describes limit vs rs1 /\ marked rs1).
  { unfold rs1. destruct (rs_sorted rs) eqn:Es; [by split; [|split; [apply Hm|split]]|]. unfold marked. cbn [rs_perc rs_sorted].
    pose proof (merge_sort_Permutation float_le (rs_perc rs)) as Hp. pose proof (StronglySorted_merge_sort float_le (rs_perc rs)) as Hss.
    split; [done|]. split; [done|]. split; [|done]. split; cbn; try done. unfold sampled in *. case_bool_decide; [by rewrite Hp|].
    destruct D5 as [E Hf]. split; [unfold zlen in *; by rewrite Hp|]. by rewrite Hp. }
  clearbody rs1. destruct Hp as (Hp & Hss & Hd & Hm1). cbv zeta. fold (rank (zlen (rs_perc rs1)) n).
  assert (El : zlen (rs_perc rs1) = zlen (rs_perc rs)) by (unfold zlen; by rewrite Hp).
  pose proof (rank_in (zlen (rs_perc rs1)) n ltac:(lia) Hn) as Hin.
  destruct (lookup_lt_is_Some_2 (rs_perc rs1) (Z.to_nat (rank (zlen (rs_perc rs1)) n))) as [p E]; [unfold zlen in *; lia|].
  rewrite (proj2 (zget_Ret _ _ p)) by (split; [lia|done]). rewrite go_bind_ret. exists p, rs1. by split_and!.
Qed.

Lemma AddValue_marked r v rs rs' : AddValue r v rs = Ret rs' -> marked rs'.
Proof.
  unfold AddValue. intros E. apply go_bind_Ret_inv in E as (rs1 & _ & E). apply go_bind_Ret_inv in E as (perc & _ & E). by injection E as <-.
Qed.

Lemma run_describes randoms limit uses : 0 <= limit -> room limit < 2 ^ 53 -> Forall number uses -> forall vs rs, vs <> [] ->
  Forall (fun v => is_nan v = false) vs -> zlen (vs ++ values uses) < 2 ^ 63 -> describes limit vs rs -> marked rs ->
  exists rs', stats_run randoms uses rs = Ret rs' /\ describes limit (vs ++ values uses) rs' /\ marked rs'.
Proof.
  intros Hl Hr. induction 1 as [|[v|n] uses Hn _ IH]; intros vs rs Hne Hvs Hz Hd Hm; cbn [stats_run values omap list_omap] in *.
  - exists rs. by rewrite app_nil_r.
  - fold (values uses) in *. rewrite (cons_middle v vs), app_assoc in Hz. pose proof Hz as Hz'. rewrite zlen_app, zlen_snoc in Hz'.
    pose proof (zlen_nonneg (values uses)). destruct (AddValue_describes limit vs rs (randoms (length uses)) v) as (rs1 & E & Hd1);
      [done|lia|done|by constructor|done|]. rewrite E, go_bind_ret.
    rewrite (cons_middle v vs), app_assoc. apply IH; [by destruct vs|apply Forall_app; split; [done|by repeat constructor]|done|done|by eapply AddValue_marked].
  - fold (values uses) in *. destruct (Percentile_describes limit vs rs n) as (p & rs1 & -> & Hd1 & Hm1 & _); [done..|].
    rewrite go_bind_ret. by apply IH.
Qed.

(** C39. Values are added to new statistics, the first of them first, and percentiles are read in between.
    Then the count is their number, the sum theirs in the order in which they came, and the bounds are two of
    them that no value is below or above.  The mean and the variance are computed from the sums of the distances
    from the first value and of their squares, also in this order.  A percentile is the element at its rank in a sorted list: that of
    all values, or of as many of them as the limit allows.  No value and no percentile that is asked for is
    not-a-number. *)
Theorem RunningStats_values (randoms : nat -> Z) (limit : Z) (v : float) (uses : list use) (vs := v :: values uses) (len := float_of (zlen vs)) :
  0 <= limit -> room limit < 2 ^ 53 -> is_nan v = false -> Forall number uses -> zlen vs < 2 ^ 63 ->
  exists rs, stats_run randoms (Add v :: uses) (new_stats limit) = Ret rs /\
    Count rs = zlen vs /\ Sum rs = fold_left fadd vs (float_of 0) /\ bounded vs (Lower rs) (Upper rs) /\
    Mean rs = fadd v (fdiv (ex_of vs) len) /\ Variance rs = fdiv (fsub (ex2_of vs) (fdiv (fmul (ex_of vs) (ex_of vs)) len)) len /\
    forall n, is_nan n = false -> exists p rs' l, Percentile n rs = Ret (p, rs') /\ StronglySorted float_le l /\ sampled limit vs l /\
      l !! Z.to_nat (rank (zlen l) n) = Some p.
Proof.
  intros Hl Hr Hv Hu Hz. destruct (first_describes limit (randoms (length uses)) v Hl Hv) as (rs1 & E & Hd).
  destruct (run_describes randoms limit uses Hl Hr Hu [v] rs1) as (rs & Er & Hd' & Hm); [done|by repeat constructor|done|done|by eapply AddValue_marked|].
  exists rs. cbn [stats_run]. rewrite E, go_bind_ret. split; [exact Er|]. pose proof Hd' as [D1 D2 Dk De De2 D3 _ _].
  injection Dk as Dk. unfold Mean, Variance. rewrite De, De2, D1, <- Dk. do 5 (split; [done|]).
  intros n Hn. destruct (Percentile_describes limit ([v] ++ values uses) rs n) as (p & rs' & E1 & [_ _ _ _ _ _ _ D5] & _ & E3 & E4); [done..|].
  by exists p, rs', (rs_perc rs').
Qed.

End Stats.
End StatsdStats.
