(* ===== verification/StatsdServer.v ===== *)
(** * StatsdServer: the goroutines of the statsd plugin

    The listener of [src/plugin/statsd/statsd.go], TCP or UDP, a handler for each TCP connection, the
    parsers and [Stop], as steps on the state they share: the channels [done], [accept] and [in], the
    table of connections, the wait group and the sockets.  A step is the part of a goroutine between two
    operations that others can see; what a socket, the random number generator or the pool of connections
    answers is part of the action.  The parsing of a packet is a parameter, which says whether the parser
    goes on; [Statsd] has it.  The lock of the caches is only held for a while and is left out. *)
From S2P Require Import Prelude.
From stdpp Require Import gmap.
#[local] Open Scope Z_scope.

Module StatsdServer.

Abbreviation bytes := (list Z) (only parsing).

(** ** State *)

(** The listeners: the place in [tcpListen], with the accepted socket and its name, or in [udpListen]. *)
Inductive lpc :=
| LSelect | LAccept | LAuth (c : nat) | LKeep (c : nat) | LTake (c : nat) | LAdd (c : nat) | LRemember (c : nat)
| LGo (c : nat) (id : bytes)
| USelect | URead | UAuth (p : bytes) | USend (p : bytes)
| LDone.
#[export] Instance lpc_eq_dec : EqDecision lpc.
Proof. solve_decision. Defined.
(** The handler of a connection; from [HDefer] on it runs the deferred clean-up. *)
Inductive hpc :=
| HSelect | HScan | HAuth (p : bytes) | HSend (p : bytes) | HDefer | HClose | HGive | HForget | HDone.
#[export] Instance hpc_eq_dec : EqDecision hpc.
Proof. solve_decision. Defined.
Inductive ppc := PSelect | PParse (p : bytes) | PDone.
Inductive spc := SIdle | SListener | SCollect | SConns (cs : list nat) | SWait | SCloseIn | SDone.

Record handler := mkHandler { h_conn : nat; h_id : bytes; h_pc : hpc }.

Record server := mkServer {
  done : bool; listening : bool; accept : nat; conns : gmap bytes nat; sockets : list bool; wg : nat;
  inq : list bytes; in_closed : bool; drops : Z;
  listener : lpc; handlers : list handler; parsers : list ppc; stopper : spc }.

Definition set_listener x s := mkServer (done s) (listening s) (accept s) (conns s) (sockets s) (wg s) (inq s) (in_closed s) (drops s) x (handlers s) (parsers s) (stopper s).
Definition set_handlers x s := mkServer (done s) (listening s) (accept s) (conns s) (sockets s) (wg s) (inq s) (in_closed s) (drops s) (listener s) x (parsers s) (stopper s).
Definition set_parsers x s := mkServer (done s) (listening s) (accept s) (conns s) (sockets s) (wg s) (inq s) (in_closed s) (drops s) (listener s) (handlers s) x (stopper s).
Definition set_stopper x s := mkServer (done s) (listening s) (accept s) (conns s) (sockets s) (wg s) (inq s) (in_closed s) (drops s) (listener s) (handlers s) (parsers s) x.
Definition set_done x s := mkServer x (listening s) (accept s) (conns s) (sockets s) (wg s) (inq s) (in_closed s) (drops s) (listener s) (handlers s) (parsers s) (stopper s).
Definition set_listening x s := mkServer (done s) x (accept s) (conns s) (sockets s) (wg s) (inq s) (in_closed s) (drops s) (listener s) (handlers s) (parsers s) (stopper s).
Definition set_accept x s := mkServer (done s) (listening s) x (conns s) (sockets s) (wg s) (inq s) (in_closed s) (drops s) (listener s) (handlers s) (parsers s) (stopper s).
Definition set_conns x s := mkServer (done s) (listening s) (accept s) x (sockets s) (wg s) (inq s) (in_closed s) (drops s) (listener s) (handlers s) (parsers s) (stopper s).
Definition set_sockets x s := mkServer (done s) (listening s) (accept s) (conns s) x (wg s) (inq s) (in_closed s) (drops s) (listener s) (handlers s) (parsers s) (stopper s).
Definition set_wg x s := mkServer (done s) (listening s) (accept s) (conns s) (sockets s) x (inq s) (in_closed s) (drops s) (listener s) (handlers s) (parsers s) (stopper s).
Definition set_in x s := mkServer (done s) (listening s) (accept s) (conns s) (sockets s) (wg s) x (in_closed s) (drops s) (listener s) (handlers s) (parsers s) (stopper s).
Definition set_in_closed x s := mkServer (done s) (listening s) (accept s) (conns s) (sockets s) (wg s) (inq s) x (drops s) (listener s) (handlers s) (parsers s) (stopper s).
Definition set_drops x s := mkServer (done s) (listening s) (accept s) (conns s) (sockets s) (wg s) (inq s) (in_closed s) x (listener s) (handlers s) (parsers s) (stopper s).

(** A step may not be enabled, or end the process: a negative wait group, a send on a closed channel, a
    channel that is closed twice, a division by zero. *)
Inductive outcome := Next (s : server) | Stuck | Bad.
#[export] Instance outcome_inhabited : Inhabited outcome := populate Stuck.

(** ** Settings and start *)

Record config := mkConfig { isUDP : bool; MaxTCPConnections : nat; TCPKeepAlive : bool; AllowedPendingMessages : nat }.

Definition parserGoRoutines : nat := 5.

(** [Start] of a server whose address can be listened on. *)
Definition Start (cf : config) : server :=
  mkServer false true (MaxTCPConnections cf) ∅ [] (1 + parserGoRoutines) [] false 0
    (if isUDP cf then USelect else LSelect) [] (replicate parserGoRoutines PSelect) SIdle.

(** ** Steps *)

Section Steps.
Context (cf : config) (parse : bytes -> bool).

(** What the environment answers: a connection or packet, a line, an end or error, a verdict of the pool of
    connections, a random name, the parser that waits for a packet. *)
Inductive answer := AConn | APacket (p : bytes) | ALine (p : bytes) | AErr | AOk | AId (id : bytes) | AHand (k : nat).

(** [wg.Done]. *)
Definition wg_done (s : server) (next : server -> server) : outcome :=
  match wg s with O => Bad | S n => Next (next (set_wg n s)) end.
Definition close_socket (c : nat) (s : server) : server := set_sockets (<[c := false]> (sockets s)) s.

(** The send on [in], which drops the packet when the channel is full.  [guarded]: the test of
    [AllowedPendingMessages] before the remainder, which only the UDP listener has. *)
Definition send (guarded : bool) (p : bytes) (e : answer) (s : server) (next : server -> server) : outcome :=
  if in_closed s then Bad
  else if (length (inq s) <? AllowedPendingMessages cf)%nat then Next (next (set_in (inq s ++ [p]) s))
  else
    let drop :=
      let d := drops s + 1 in
      if negb (d =? 1) && negb guarded && (AllowedPendingMessages cf =? 0)%nat then Bad
      else Next (next (set_drops d s)) in
    match e with
    | AHand k =>
      match parsers s !! k with
      | Some PSelect => if bool_decide (inq s = []) then Next (next (set_parsers (<[k := PParse p]> (parsers s)) s)) else Stuck
      | _ => Stuck
      end
    | _ => drop
    end.

Definition refuser (c : nat) (s : server) : server := close_socket c s.
Definition remember (id : bytes) (c : nat) (s : server) : server := set_conns (<[id := c]> (conns s)) s.
Definition forget (id : bytes) (s : server) : server := set_conns (delete id (conns s)) s.

Definition tcpListen (e : answer) (s : server) : outcome :=
  match listener s with
  | LSelect => if done s then wg_done s (set_listener LDone) else Next (set_listener LAccept s)
  | LAccept =>
    match e with
    | AConn => if listening s then Next (set_listener (LAuth (length (sockets s))) (set_sockets (sockets s ++ [true]) s)) else Stuck
    | AErr => wg_done s (set_listener LDone)
    | _ => Stuck
    end
  | LAuth c =>
    match e with
    | AOk => Next (set_listener (if TCPKeepAlive cf then LKeep c else LTake c) s)
    | AErr => Next (set_listener LSelect (close_socket c s))
    | _ => Stuck
    end
  | LKeep c =>
    match e with
    | AOk => Next (set_listener (LTake c) s)
    | AErr => wg_done s (set_listener LDone)
    | _ => Stuck
    end
  | LTake c =>
    match accept s with
    | S n => Next (set_listener (LAdd c) (set_accept n s))
    | O => Next (set_listener LSelect (refuser c s))
    end
  | LAdd c => Next (set_listener (LRemember c) (set_wg (S (wg s)) s))
  | LRemember c => match e with AId id => Next (set_listener (LGo c id) (remember id c s)) | _ => Stuck end
  | LGo c id => Next (set_listener LSelect (set_handlers (handlers s ++ [mkHandler c id HSelect]) s))
  | _ => Stuck
  end.

Definition udpListen (e : answer) (s : server) : outcome :=
  match listener s with
  | USelect => if done s then wg_done s (set_listener LDone) else Next (set_listener URead s)
  | URead =>
    match e with
    | APacket p => if listening s then Next (set_listener (UAuth p) s) else Stuck
    | AErr => if listening s then Next (set_listener USelect s) else wg_done s (set_listener LDone)
    | _ => Stuck
    end
  | UAuth p =>
    match e with
    | AOk => Next (set_listener (USend p) s)
    | AErr => Next (set_listener USelect (set_listening false s))
    | _ => Stuck
    end
  | USend p => send true p e s (set_listener USelect)
  | _ => Stuck
  end.

Definition handle (i : nat) (e : answer) (s : server) : outcome :=
  match handlers s !! i with
  | None => Stuck
  | Some h =>
    let c := h_conn h in
    let goto pc := fun s : server => set_handlers (<[i := mkHandler c (h_id h) pc]> (handlers s)) s in
    match h_pc h with
    | HSelect => Next (goto (if done s then HDefer else HScan) s)
    | HScan =>
      match e with
      | ALine p => Next (goto (if bool_decide (p = []) then HSelect else HAuth (p ++ [10])) s)
      | AErr => Next (goto HDefer s)
      | _ => Stuck
      end
    | HAuth p =>
      match e with
      | AOk => Next (goto (HSend p) s)
      | AErr => Next (goto HDefer s)
      | _ => Stuck
      end
    | HSend p => send false p e s (goto HSelect)
    | HDefer => wg_done s (goto HClose)
    | HClose => Next (goto HGive (close_socket c s))
    | HGive => if (accept s <? MaxTCPConnections cf)%nat then Next (goto HForget (set_accept (S (accept s)) s)) else Stuck
    | HForget => Next (goto HDone (forget (h_id h) s))
    | HDone => Stuck
    end
  end.

(** [AErr] is the receive from [done], [AOk] that from [in]. *)
Definition parser (k : nat) (e : answer) (s : server) : outcome :=
  match parsers s !! k with
  | Some PSelect =>
    match e with
    | AErr => if done s then wg_done s (fun s => set_parsers (<[k := PDone]> (parsers s)) s) else Stuck
    | AOk =>
      match inq s with
      | p :: l => Next (set_parsers (<[k := PParse p]> (parsers s)) (set_in l s))
      | [] => if in_closed s then Bad else Stuck
      end
    | _ => Stuck
    end
  | Some (PParse p) =>
    if parse p then Next (set_parsers (<[k := PSelect]> (parsers s)) s)
    else wg_done s (fun s => set_parsers (<[k := PDone]> (parsers s)) s)
  | _ => Stuck
  end.

Definition Stop (s : server) : outcome :=
  match stopper s with
  | SIdle => if done s then Bad else Next (set_stopper SListener (set_done true s))
  | SListener => Next (set_stopper (if isUDP cf then SWait else SCollect) (set_listening false s))
  | SCollect => Next (set_stopper (SConns (snd <$> map_to_list (conns s))) s)
  | SConns (c :: cs) => Next (set_stopper (SConns cs) (close_socket c s))
  | SConns [] => Next (set_stopper SWait s)
  | SWait => match wg s with O => Next (set_stopper SCloseIn s) | _ => Stuck end
  | SCloseIn => if in_closed s then Bad else Next (set_stopper SDone (set_in_closed true s))
  | SDone => Stuck
  end.

Inductive action := Listen (e : answer) | Handle (i : nat) (e : answer) | Parse (k : nat) (e : answer) | StopStep.
Definition step (s : server) (a : action) : outcome :=
  match a with
  | Listen e => if isUDP cf then udpListen e s else tcpListen e s
  | Handle i e => handle i e s
  | Parse k e => parser k e s
  | StopStep => Stop s
  end.
Fixpoint run (s : server) (acts : list action) : outcome :=
  match acts with
  | [] => Next s
  | a :: acts => match step s a with Next s' => run s' acts | o => o end
  end.

End Steps.
End StatsdServer.
