(* ===== verification/StatsdServerSpec.v ===== *)
(** * StatsdServerSpec: the theorems about the goroutines of the statsd plugin

    In every interleaving the connections keep to their maximum, nothing is sent to a closed channel, and
    [Stop] ends: after it has closed the sockets no goroutine can go on forever and none is stuck. *)
From S2P Require Import Prelude StatsdServer.
From stdpp Require Import gmap.
#[local] Open Scope Z_scope.

Module StatsdServerSpec.
Import StatsdServer.

(** ** Counting *)

Lemma sum_list_insert {A} (f : A -> nat) l i x y : l !! i = Some x ->
  (sum_list_with f (<[i := y]> l) + f x = sum_list_with f l + f y)%nat.
Proof.
  revert i. induction l as [|z l IH]; intros [|i] E; try done; cbn in E; [injection E as ->; cbn; lia|].
  specialize (IH i E). change (<[S i := y]> (z :: l)) with (z :: <[i := y]> l). cbn [sum_list_with]. lia.
Qed.
Lemma sum_list_lookup {A} (f : A -> nat) l i x : l !! i = Some x -> (f x <= sum_list_with f l)%nat.
Proof. revert i. induction l as [|z l IH]; intros [|i] E; try done; cbn in *; [injection E as ->; lia|]. specialize (IH i E). lia. Qed.

(** The shares of a goroutine in the wait group and in the tokens of [accept]. *)
Definition handler_wg (h : handler) : nat := match h_pc h with HClose | HGive | HForget | HDone => 0 | _ => 1 end.
Definition handler_token (h : handler) : nat := match h_pc h with HForget | HDone => 0 | _ => 1 end.
Definition listener_wg (l : lpc) : nat := match l with LDone => 0 | LRemember _ | LGo _ _ => 2 | _ => 1 end.
Definition listener_token (l : lpc) : nat := match l with LAdd _ | LRemember _ | LGo _ _ => 1 | _ => 0 end.
Definition parser_wg (p : ppc) : nat := match p with PDone => 0 | _ => 1 end.
Definition handlers_wg (s : server) : nat := sum_list_with handler_wg (handlers s).
Definition handlers_token (s : server) : nat := sum_list_with handler_token (handlers s).
Definition parsers_wg (s : server) : nat := sum_list_with parser_wg (parsers s).

(** The listener of the protocol. *)
Definition of_kind (udp : bool) (l : lpc) : bool :=
  match l with LDone => true | USelect | URead | UAuth _ | USend _ => udp | _ => negb udp end.

Section Spec.
Context (cf : config) (parse : list Z -> bool).

Record inv (s : server) : Prop := mkInv {
  inv_token : (accept s + listener_token (listener s) + handlers_token s = MaxTCPConnections cf)%nat;
  inv_wg : (wg s = listener_wg (listener s) + handlers_wg s + parsers_wg s)%nat;
  inv_wait : match stopper s with SCloseIn | SDone => wg s = O | _ => True end;
  inv_in : in_closed s = match stopper s with SDone => true | _ => false end;
  inv_done : done s = match stopper s with SIdle => false | _ => true end;
  inv_listening : match stopper s with SIdle | SListener => True | _ => listening s = false end;
  inv_kind : of_kind (isUDP cf) (listener s) = true }.

(** ** Safety *)

(** What a send changes. *)
Record sent (s s' : server) : Prop := mkSent {
  sent_rest : exists q d ps, s' = set_in q (set_drops d (set_parsers ps s));
  sent_wg : parsers_wg s' = parsers_wg s }.

Lemma send_sent guarded p e s next :
  in_closed s = false -> guarded = true \/ AllowedPendingMessages cf <> O ->
  send cf guarded p e s next <> Bad /\
  forall s', send cf guarded p e s next = Next s' -> exists s1, s' = next s1 /\ sent s s1.
Proof.
  intros Hc Hg. unfold send. rewrite Hc.
  assert (Hd : forall d, sent s (set_drops d s)) by (intros d; split; [exists (inq s), d, (parsers s); by destruct s|done]).
  assert (Hn : negb (drops s + 1 =? 1) && negb guarded && (AllowedPendingMessages cf =? 0)%nat = false).
  { destruct Hg as [->|Hz]; [by rewrite andb_false_r|]. by rewrite (proj2 (Nat.eqb_neq _ _) Hz), andb_false_r. }
  rewrite Hn. destruct (_ <? _)%nat.
  { split; [done|]. intros s' [= <-]. eexists. split; [done|]. split; [|done]. exists (inq s ++ [p]), (drops s), (parsers s). by destruct s. }
  destruct e; try (split; [done|]; intros s' [= <-]; eexists; split; [done|apply Hd]).
  destruct (parsers s !! k) as [[| |]|] eqn:Ek; try done. case_bool_decide; [|done]. split; [done|].
  intros s' [= <-]. eexists. split; [done|]. split; [exists (inq s), (drops s), (<[k := PParse p]> (parsers s)); by destruct s|].
  unfold parsers_wg. cbn [parsers set_parsers]. pose proof (sum_list_insert parser_wg _ _ _ (PParse p) Ek). cbn in *. lia.
Qed.

Ltac flds := cbn [done listening accept conns sockets wg inq in_closed drops listener handlers parsers stopper
  set_done set_listening set_accept set_conns set_sockets set_wg set_in set_in_closed set_drops set_listener set_handlers
  set_parsers set_stopper close_socket refuser remember forget] in *.

(** A goroutine that has a share in the wait group. *)
Lemma wg_open s : inv s -> wg s <> O -> in_closed s = false /\ match stopper s with SCloseIn | SDone => False | _ => True end.
Proof. intros H Hw. pose proof (inv_wait s H). rewrite (inv_in s H). by destruct (stopper s). Qed.

(** The invariant after a step that changes shares: the equations of the counts decide. *)
Ltac counting :=
  unfold handlers_token, handlers_wg, parsers_wg in *; flds; rewrite ?sum_list_with_app in *;
  cbn [sum_list_with handler_token handler_wg h_pc listener_token listener_wg parser_wg of_kind negb] in *.
Ltac by_counting H :=
  let H1 := fresh in let H2 := fresh in let H3 := fresh in let H4 := fresh in let H5 := fresh in let H6 := fresh in let H7 := fresh in
  destruct H as [H1 H2 H3 H4 H5 H6 H7]; flds; repeat match goal with E : listener _ = _ |- _ => rewrite E in *; clear E end;
  split; counting; try congruence; try lia; (destruct (stopper _); first [done|congruence|lia]).
Ltac next_inv := split; [done|]; intros s' [= <-].

Lemma tcpListen_inv e s : isUDP cf = false -> inv s ->
  tcpListen cf e s <> Bad /\ forall s', tcpListen cf e s = Next s' -> inv s'.
Proof.
  intros Hu H. unfold tcpListen, wg_done. destruct (listener s) eqn:El; try done; pose proof (inv_wg s H) as Hw; rewrite El in Hw; cbn in Hw;
    repeat case_match; try done; try lia; next_inv; by_counting H.
Qed.

Lemma sent_inv s s1 : inv s -> sent s s1 -> inv s1.
Proof. intros H [(q & d & ps & ->) Hp]. by_counting H. Qed.

Lemma udpListen_inv e s : isUDP cf = true -> inv s ->
  udpListen cf e s <> Bad /\ forall s', udpListen cf e s = Next s' -> inv s'.
Proof.
  intros Hu H. unfold udpListen, wg_done. destruct (listener s) eqn:El; try done; pose proof (inv_wg s H) as Hw; rewrite El in Hw; cbn in Hw.
  4: { destruct (wg_open s H) as [Ho _]; [lia|]. destruct (send_sent true p e s (set_listener USelect) Ho) as [Hb Hn]; [by left|].
       split; [done|]. intros s' E. destruct (Hn s' E) as (s1 & -> & Hs). pose proof (sent_inv s s1 H Hs) as H1.
       destruct Hs as [(q & d & ps & ->) _]. flds. by_counting H1. }
  all: repeat case_match; try done; try lia; next_inv; by_counting H.
Qed.

(** The shares after a handler went from [pc] to [pc']. *)
Definition at_pc (s : server) (i : nat) (h : handler) (pc : hpc) : server :=
  set_handlers (<[i := mkHandler (h_conn h) (h_id h) pc]> (handlers s)) s.
Lemma at_pc_counts s i h pc : handlers s !! i = Some h ->
  (handlers_wg (at_pc s i h pc) + handler_wg h = handlers_wg s + handler_wg (mkHandler (h_conn h) (h_id h) pc))%nat /\
  (handlers_token (at_pc s i h pc) + handler_token h = handlers_token s + handler_token (mkHandler (h_conn h) (h_id h) pc))%nat.
Proof. intros E. split; by apply sum_list_insert. Qed.

Lemma handle_inv i e s : AllowedPendingMessages cf <> O -> inv s ->
  handle cf i e s <> Bad /\ forall s', handle cf i e s = Next s' -> inv s'.
Proof.
  intros Hp H. unfold handle, wg_done. destruct (handlers s !! i) as [h|] eqn:Ei; [|done].
  pose proof (sum_list_lookup handler_wg _ _ _ Ei) as Hw. pose proof (inv_wg s H) as Hw'. unfold handlers_wg in Hw'.
  assert (Hc : forall pc, _) by (intros pc; exact (at_pc_counts s i h pc Ei)). unfold at_pc in Hc.
  destruct (h_pc h) eqn:Eh; unfold handler_wg in Hw at 1; rewrite Eh in Hw.
  4: { destruct (wg_open s H) as [Ho _]; [lia|].
       destruct (send_sent false p e s (fun s => set_handlers (<[i := mkHandler (h_conn h) (h_id h) HSelect]> (handlers s)) s) Ho) as [Hb Hn]; [by right|].
       split; [done|]. intros s' E. destruct (Hn s' E) as (s1 & -> & Hs). pose proof (sent_inv s s1 H Hs) as H1.
       destruct Hs as [(q & d & ps & ->) _]. flds. specialize (Hc HSelect). unfold handler_wg, handler_token in Hc. rewrite Eh in Hc. by_counting H1. }
  all: repeat case_match; try done; try lia; next_inv;
    match goal with |- context [mkHandler _ _ ?pc] => specialize (Hc pc) end; unfold handler_wg, handler_token in Hc; rewrite Eh in Hc; by_counting H.
Qed.

Lemma parser_inv k e s : inv s -> parser parse k e s <> Bad /\ forall s', parser parse k e s = Next s' -> inv s'.
Proof.
  intros H. unfold parser, wg_done. destruct (parsers s !! k) as [p|] eqn:Ek; [|done].
  pose proof (sum_list_lookup parser_wg _ _ _ Ek) as Hw. pose proof (inv_wg s H) as Hw'. unfold parsers_wg in Hw'.
  assert (Hc : forall q, _) by (intros q; exact (sum_list_insert parser_wg _ _ _ q Ek)).
  destruct p; try done; cbn in Hw; (destruct (wg_open s H) as [Ho _]; [lia|]); rewrite ?Ho;
    repeat case_match; try done; try lia; next_inv;
    match goal with |- context [<[_ := ?q]> (parsers s)] => specialize (Hc q) end; by_counting H.
Qed.

Lemma Stop_inv s : inv s -> Stop cf s <> Bad /\ forall s', Stop cf s = Next s' -> inv s'.
Proof.
  intros H. unfold Stop. pose proof (inv_done s H) as Hd. pose proof (inv_in s H) as Hi.
  destruct (stopper s) eqn:Es; rewrite ?Hd, ?Hi; repeat case_match; try done; next_inv;
    destruct H as [H1 H2 H3 H4 H5 H6 H7]; rewrite Es in *; split; counting; try congruence; try done.
Qed.

Lemma server_step_inv s a : AllowedPendingMessages cf <> O -> inv s ->
  step cf parse s a <> Bad /\ forall s', step cf parse s a = Next s' -> inv s'.
Proof.
  intros Hp H. destruct a; cbn [step]; [destruct (isUDP cf) eqn:Eu|..];
    [by apply udpListen_inv|by apply tcpListen_inv|by apply handle_inv|by apply parser_inv|by apply Stop_inv].
Qed.

Lemma Start_inv : inv (Start cf).
Proof. unfold Start. destruct (isUDP cf) eqn:Eu; split; counting; try done; try lia; by rewrite Eu. Qed.

(** The states of a server, and a run of it. *)
Lemma server_run_inv acts : AllowedPendingMessages cf <> O -> forall s, inv s ->
  run cf parse s acts <> Bad /\ forall s', run cf parse s acts = Next s' -> inv s'.
Proof.
  intros Hp. induction acts as [|a acts IH]; intros s H; cbn [run]; [split; [done|by intros s' [= <-]]|].
  destruct (server_step_inv s a Hp H) as [Hb Hn]. destruct (step cf parse s a) as [s1| |]; [|done..]. by apply IH, Hn.
Qed.

(** C28. In every interleaving of the listener, the handlers, the parsers and [Stop], when messages may be pending,
    nothing ends the process, never more connections are handled than [MaxTCPConnections], and a handler can
    always give its token back. *)
Theorem server_safe (acts : list action) : AllowedPendingMessages cf <> O ->
  run cf parse (Start cf) acts <> Bad /\
  forall s, run cf parse (Start cf) acts = Next s ->
    (length (filter (fun h => handler_token h = 1%nat) (handlers s)) <= MaxTCPConnections cf)%nat /\
    forall i h, handlers s !! i = Some h -> h_pc h = HGive -> (accept s < MaxTCPConnections cf)%nat.
Proof.
  intros Hp. destruct (server_run_inv acts Hp (Start cf) Start_inv) as [Hb Hn]. split; [done|]. intros s E. specialize (Hn s E).
  pose proof (inv_token s Hn) as Ht. unfold handlers_token in Ht. split.
  - assert (Hl : forall l, (length (filter (fun h => handler_token h = 1%nat) l) <= sum_list_with handler_token l)%nat).
    { induction l as [|h l IH]; [done|]. rewrite filter_cons. case_decide as Hh; cbn [length sum_list_with]; [rewrite Hh|]; lia. }
    specialize (Hl (handlers s)). lia.
  - intros i h Ei Eh. pose proof (sum_list_lookup handler_token _ _ _ Ei) as Hh. unfold handler_token in Hh at 1. rewrite Eh in Hh. lia.
Qed.

(** ** The end of a server *)

(** The names of connections that are made are new ([RandomString] makes six random characters). *)
Definition fresh (s : server) (a : action) : Prop :=
  match a with Listen (AId id) => conns s !! id = None | _ => True end.
Inductive reachable : server -> Prop :=
| reachable_start : reachable (Start cf)
| reachable_step s a s' : reachable s -> fresh s a -> step cf parse s a = Next s' -> reachable s'.

(** The socket of a listener's connection. *)
Definition listener_conn (l : lpc) : option nat :=
  match l with LAuth c | LKeep c | LTake c | LAdd c | LRemember c | LGo c _ => Some c | _ => None end.
(** What [Stop] has still to close, once it has looked at the table. *)
Definition to_close (sp : spc) : option (list nat) :=
  match sp with SIdle | SListener | SCollect => None | SConns l => Some l | _ => Some [] end.

(** Every handler is in the table under a name of its own until it forgets it, and after [Stop] has looked at
    the table every handler that reads has a socket that is closed or will be. *)
Record ids (ks : list bool) (cs : gmap (list Z) nat) (hs : list handler) (l : lpc) (sp : spc) : Prop := mkIds {
  ids_range : forall h, h ∈ hs -> (h_conn h < length ks)%nat;
  ids_lrange : forall c, listener_conn l = Some c -> (c < length ks)%nat;
  ids_conns : forall i h, hs !! i = Some h -> h_pc h <> HDone -> cs !! h_id h = Some (h_conn h);
  ids_uniq : forall i j h h', hs !! i = Some h -> hs !! j = Some h' -> h_pc h <> HDone -> h_pc h' <> HDone -> h_id h = h_id h' -> i = j;
  ids_go : forall c id, l = LGo c id -> cs !! id = Some c /\ forall i h, hs !! i = Some h -> h_pc h <> HDone -> h_id h <> id;
  ids_stop : forall q, to_close sp = Some q -> forall h, h ∈ hs -> h_pc h = HScan -> h_conn h ∈ q \/ ks !! h_conn h = Some false;
  ids_udp : isUDP cf = true -> hs = [] }.
Definition named (s : server) : Prop := ids (sockets s) (conns s) (handlers s) (listener s) (stopper s).

(** A listener that goes on, with no new connection in the table. *)
Lemma ids_listener ks cs hs l l' sp : ids ks cs hs l sp -> (forall c id, l' <> LGo c id) ->
  (forall c, listener_conn l' = Some c -> (c < length ks)%nat) -> ids ks cs hs l' sp.
Proof. intros [H1 H2 H3 H4 H5 H6 H7] Hl Hc. split; try done. intros c id ->. by destruct (Hl c id). Qed.

(** Closing a socket, and opening one. *)
Lemma ids_close ks cs hs l sp c : ids ks cs hs l sp -> ids (<[c := false]> ks) cs hs l sp.
Proof.
  intros [H1 H2 H3 H4 H5 H6 H7]. split; try done; [intros h Hh|intros c' Hc'|]; rewrite ?length_insert; [by apply H1|by apply H2|].
  intros q Hq h Hh Hs. destruct (H6 q Hq h Hh Hs) as [?|Hf]; [by left|]. right. specialize (H1 h Hh).
  destruct (decide (c = h_conn h)) as [->|]; [by rewrite list_lookup_insert_eq|by rewrite list_lookup_insert_ne].
Qed.
Lemma ids_open ks cs hs l sp : ids ks cs hs l sp -> ids (ks ++ [true]) cs hs l sp.
Proof.
  intros [H1 H2 H3 H4 H5 H6 H7]. split; try done; [intros h Hh|intros c' Hc'|]; rewrite ?length_app; [specialize (H1 h Hh); lia|specialize (H2 c' Hc'); lia|].
  intros q Hq h Hh Hs. destruct (H6 q Hq h Hh Hs) as [?|Hf]; [by left|]. right. by apply lookup_app_l_Some.
Qed.

(** The connection gets its name, and then its handler. *)
Lemma ids_remember ks cs hs c id sp : ids ks cs hs (LRemember c) sp -> cs !! id = None ->
  ids ks (<[id := c]> cs) hs (LGo c id) sp.
Proof.
  intros [H1 H2 H3 H4 H5 H6 H7] Hf.
  assert (Hn : forall i h, hs !! i = Some h -> h_pc h <> HDone -> h_id h <> id) by (intros i h Hh Hp <-; by rewrite (H3 i h Hh Hp) in Hf).
  split; try done.
  - intros i h Hh Hp. rewrite lookup_insert_ne; [by eapply H3|]. intros ->. by eapply Hn.
  - intros c' id' [= <- <-]. split; [by rewrite lookup_insert_eq|done].
Qed.
Lemma ids_spawn ks cs hs c id sp : isUDP cf = false -> ids ks cs hs (LGo c id) sp ->
  ids ks cs (hs ++ [mkHandler c id HSelect]) LSelect sp.
Proof.
  intros Hu [H1 H2 H3 H4 H5 H6 H7]. destruct (H5 c id eq_refl) as [Hc Hn].
  assert (Hl : forall i h, (hs ++ [mkHandler c id HSelect]) !! i = Some h -> hs !! i = Some h \/ (i = length hs /\ h = mkHandler c id HSelect)).
  { intros i h [Hh|[Hi Hh]]%lookup_app_Some; [by left|]. right. apply list_lookup_singleton_Some in Hh as [E <-]. split; [lia|done]. }
  split; try done.
  - intros h [Hh| ->%list_elem_of_singleton]%elem_of_app; [by apply H1|by apply H2].
  - intros i h [Hh|[_ ->]]%Hl Hp; [by eapply H3|done].
  - intros i j h h' [Hi|[-> ->]]%Hl [Hj|[-> ->]]%Hl Hp Hp' E; [by eapply H4|by destruct (Hn i h Hi)|by destruct (Hn j h' Hj)|done].
  - intros q Hq h [Hh| ->%list_elem_of_singleton]%elem_of_app Hs; [by eapply H6|done].
  - congruence.
Qed.

(** A handler that goes on; it starts to read only before [Stop]. *)
Lemma ids_goto ks cs hs l sp i h pc : ids ks cs hs l sp -> hs !! i = Some h -> h_pc h <> HDone ->
  (pc = HScan -> to_close sp = None) ->
  ids ks (if decide (pc = HDone) then delete (h_id h) cs else cs) (<[i := mkHandler (h_conn h) (h_id h) pc]> hs) l sp.
Proof.
  intros [H1 H2 H3 H4 H5 H6 H7] Hi Hp Hs.
  assert (Hl : forall j x, <[i := mkHandler (h_conn h) (h_id h) pc]> hs !! j = Some x ->
    exists y, hs !! j = Some y /\ h_id x = h_id y /\ h_conn x = h_conn y /\ ((j = i /\ h_pc x = pc) \/ (j <> i /\ x = y))).
  { intros j x [(<- & <- & _)|[Hij Hj]]%list_lookup_insert_Some; [exists h; split_and!; by auto|exists x; split_and!; by auto]. }
  assert (Hd : forall j y, hs !! j = Some y -> h_pc y <> HDone -> j <> i -> delete (h_id h) cs !! h_id y = Some (h_conn y)).
  { intros j y Hj Hpy Hij. rewrite lookup_delete_ne; [by eapply H3|]. intros E. apply Hij. by eapply H4. }
  split.
  - intros x [j (y & Hy & _ & -> & _)%Hl]%list_elem_of_lookup. apply H1. by eapply list_elem_of_lookup_2.
  - done.
  - intros j x (y & Hy & Eid & Ec & Hx)%Hl Hpx. rewrite Eid, Ec. case_decide as Hpc.
    + destruct Hx as [[-> E]|[Hij ->]]; [by rewrite E in Hpx|]. by apply (Hd j).
    + destruct Hx as [[-> E]|[Hij ->]]; [|by eapply H3]. assert (y = h) as -> by congruence. by eapply H3.
  - intros j k x x' (y & Hy & E1 & _ & Hx)%Hl (y' & Hy' & E1' & _ & Hx')%Hl Hpx Hpx' E.
    eapply H4; [exact Hy|exact Hy'|..|by congruence]; [destruct Hx as [[-> ?]|[? ->]]|destruct Hx' as [[-> ?]|[? ->]]]; congruence.
  - intros c id E. destruct (H5 c id E) as [Hc Hn]. split.
    + case_decide; [|done]. rewrite lookup_delete_ne; [done|]. by eapply Hn.
    + intros j x (y & Hy & -> & _ & Hx)%Hl Hpx. eapply Hn; [exact Hy|]. destruct Hx as [[-> ?]|[? ->]]; congruence.
  - intros q Hq x [j (y & Hy & _ & Ec & Hx)%Hl]%list_elem_of_lookup Hsx. destruct Hx as [[-> E]|[Hij ->]].
    + rewrite Hs in Hq; [done|congruence].
    + eapply H6; [done|by eapply list_elem_of_lookup_2|done].
  - intros Hu. by rewrite (H7 Hu) in Hi.
Qed.

Lemma tcpListen_named e s s' : isUDP cf = false -> named s -> fresh s (Listen e) -> tcpListen cf e s = Next s' -> named s'.
Proof.
  intros Hu H Hf E. unfold named in *. unfold tcpListen, wg_done in E. destruct (listener s) eqn:El; try done;
    pose proof (ids_lrange _ _ _ _ _ H) as Hc; cbn [listener_conn] in Hc; repeat case_match; try done; injection E as <-; flds.
  all: try (eapply ids_listener; [try apply ids_close; exact H|done|cbn; intros ? [= <-]; rewrite ?length_insert; by apply Hc]).
  all: try (eapply ids_listener; [try apply ids_close; exact H|done|done]).
  - eapply ids_listener; [apply ids_open; exact H|done|]. intros c [= <-]. rewrite length_app. cbn. lia.
  - by apply ids_remember.
  - by apply (ids_spawn _ _ _ c id).
Qed.

Lemma udpListen_named e s s' : named s -> udpListen cf e s = Next s' -> named s'.
Proof.
  intros H E. unfold named in *. unfold udpListen, wg_done, send in E. destruct (listener s) eqn:El; try done;
    repeat case_match; try done; injection E as <-; flds; by eapply ids_listener.
Qed.

Lemma handle_named i e s s' : inv s -> named s -> handle cf i e s = Next s' -> named s'.
Proof.
  intros Hi H E. unfold named in *. unfold handle, wg_done, send in E. destruct (handlers s !! i) as [h|] eqn:Eh; [|done].
  assert (Hg : forall ks cs pc, ids ks cs (handlers s) (listener s) (stopper s) -> h_pc h <> HDone ->
    (pc = HScan -> to_close (stopper s) = None) ->
    ids ks (if decide (pc = HDone) then delete (h_id h) cs else cs) (<[i := mkHandler (h_conn h) (h_id h) pc]> (handlers s)) (listener s) (stopper s)).
  { intros ks cs pc Hk. by apply ids_goto. }
  destruct (h_pc h) eqn:Ep; repeat case_match; try done; injection E as <-; flds;
    match goal with |- context [mkHandler _ _ ?pc] => refine (Hg _ (conns s) pc _ _ _); [try apply ids_close; exact H|done|try done] end.
  intros _. pose proof (inv_done s Hi) as Hd. destruct (stopper s); [done|congruence..].
Qed.

Lemma parser_named k e s s' : named s -> parser parse k e s = Next s' -> named s'.
Proof. intros H E. unfold named in *. unfold parser, wg_done in E. repeat case_match; try done; injection E as <-; exact H. Qed.

Lemma ids_stopper ks cs hs l sp sp' : ids ks cs hs l sp ->
  (forall q, to_close sp' = Some q -> forall h, h ∈ hs -> h_pc h = HScan -> h_conn h ∈ q \/ ks !! h_conn h = Some false) ->
  ids ks cs hs l sp'.
Proof. by intros [] ?; split. Qed.

Lemma Stop_named s s' : named s -> Stop cf s = Next s' -> named s'.
Proof.
  intros H E. unfold named in *. pose proof (ids_stop _ _ _ _ _ H) as Hq. unfold Stop in E.
  destruct (stopper s) as [| | |[|c cs]| | |] eqn:Es; repeat case_match; try done; injection E as <-; flds; cbn [to_close] in Hq.
  all: try (eapply ids_stopper; [exact H|]; cbn [to_close]; try done; exact Hq).
  - eapply ids_stopper; [exact H|]. intros q _ h Hh. rewrite (ids_udp _ _ _ _ _ H) in Hh by done. by apply not_elem_of_nil in Hh.
  - eapply ids_stopper; [exact H|]. intros q [= <-] h [j Hj]%list_elem_of_lookup Hs. left.
    assert (Hc : conns s !! h_id h = Some (h_conn h)) by (eapply ids_conns; [exact H|exact Hj|congruence]).
    apply list_elem_of_fmap. exists (h_id h, h_conn h). split; [done|]. by apply elem_of_map_to_list.
  - eapply ids_stopper; [apply ids_close; exact H|]. intros q [= <-] h Hh Hs.
    pose proof (ids_range _ _ _ _ _ H h Hh) as Hr. destruct (Hq _ eq_refl h Hh Hs) as [[<-|?]%elem_of_cons|Hf].
    + right. by apply list_lookup_insert_eq.
    + by left.
    + right. destruct (decide (c = h_conn h)) as [->|]; [by apply list_lookup_insert_eq|by rewrite list_lookup_insert_ne].
Qed.

Lemma reachable_ok s : AllowedPendingMessages cf <> O -> reachable s -> inv s /\ named s.
Proof.
  intros Hp. induction 1 as [|s a s' _ [Hi Hn] Hf E].
  - split; [apply Start_inv|]. split; cbn; try done;
      intros; try set_solver; by destruct (isUDP cf).
  - split; [by apply (server_step_inv s a Hp Hi)|]. destruct a; cbn [step] in E.
    + destruct (isUDP cf) eqn:Eu; [by eapply udpListen_named|by eapply tcpListen_named].
    + by eapply handle_named.
    + by eapply parser_named.
    + by eapply Stop_named.
Qed.

(** How many steps are left once the sockets are closed. *)
Definition listener_left (l : lpc) : nat :=
  match l with
  | LDone => 0 | LSelect | LAccept | USelect | URead => 1 | USend _ => 4 | UAuth _ => 5
  | LGo _ _ => 7 | LRemember _ => 8 | LAdd _ => 9 | LTake _ => 10 | LKeep _ => 11 | LAuth _ => 12
  end.
Definition handler_left (h : handler) : nat :=
  match h_pc h with
  | HDone => 0 | HForget => 1 | HGive => 2 | HClose => 3 | HDefer => 4 | HSelect => 5 | HSend _ => 8 | HAuth _ => 9 | HScan => 10
  end.
Definition parser_left (p : ppc) : nat := match p with PDone => 0 | PSelect => 1 | PParse _ => 2 end.
Definition stopper_left (p : spc) : nat := match p with SWait => 2 | SCloseIn => 1 | _ => 0 end.
Definition steps_left (s : server) : nat :=
  listener_left (listener s) + sum_list_with handler_left (handlers s) + sum_list_with parser_left (parsers s) +
  2 * length (inq s) + stopper_left (stopper s).
Definition waits (s : server) : Prop := match stopper s with SWait | SCloseIn | SDone => True | _ => False end.

Lemma waits_closed s : inv s -> waits s -> done s = true /\ listening s = false.
Proof. intros H Hw. unfold waits in Hw. rewrite (inv_done s H). pose proof (inv_listening s H). by destruct (stopper s). Qed.

(** A send adds at most two steps. *)
Lemma send_left g p e s next s' : send cf g p e s next = Next s' ->
  exists s1, s' = next s1 /\ listener s1 = listener s /\ handlers s1 = handlers s /\ stopper s1 = stopper s /\
    (sum_list_with parser_left (parsers s1) + 2 * length (inq s1) <= sum_list_with parser_left (parsers s) + 2 * length (inq s) + 2)%nat.
Proof.
  unfold send. intros E. repeat case_match; try done; injection E as <-; eexists; (split; [reflexivity|]); flds; (split_and!; [done..|]);
    rewrite ?length_app; cbn [length]; try lia.
  match goal with Ek : parsers s !! _ = Some _ |- context [<[_ := ?q]> _] => pose proof (sum_list_insert parser_left _ _ _ q Ek) as Hp end.
  cbn [parser_left] in Hp. lia.
Qed.

Lemma step_left s a s' : inv s -> waits s -> step cf parse s a = Next s' -> (steps_left s' < steps_left s)%nat /\ waits s'.
Proof.
  intros H Hw E. destruct (waits_closed s H Hw) as [Hd Hl]. unfold steps_left.
  destruct a as [e|i e|k e|]; cbn [step] in E.
  - destruct (isUDP cf); [unfold udpListen, wg_done in E|unfold tcpListen, wg_done in E]; rewrite ?Hd, ?Hl in E; destruct (listener s) eqn:El; try done.
    4: { apply send_left in E as (s1 & -> & E1 & E2 & E3 & E4). flds. rewrite E2, E3. cbn [listener_left]. split; [lia|]. unfold waits. flds. by rewrite ?E2, ?E3. }
    all: repeat case_match; try done; injection E as <-; flds; rewrite ?sum_list_with_app; cbn [listener_left sum_list_with handler_left h_pc]; (split; [lia|exact Hw]).
  - unfold handle, wg_done in E. rewrite ?Hd in E. destruct (handlers s !! i) as [h|] eqn:Ei; [|done].
    assert (Hc : forall q, _) by (intros q; exact (sum_list_insert handler_left _ _ _ q Ei)).
    destruct (h_pc h) eqn:Ep; unfold handler_left in Hc at 2; rewrite Ep in Hc.
    4: { apply send_left in E as (s1 & -> & E1 & E2 & E3 & E4). specialize (Hc (mkHandler (h_conn h) (h_id h) HSelect)).
         flds. rewrite E1, E2, E3. cbn [handler_left h_pc] in Hc. split; [lia|]. unfold waits. flds. by rewrite E3. }
    all: repeat case_match; try done; injection E as <-; flds;
      match goal with |- context [mkHandler ?c ?d ?pc] => specialize (Hc (mkHandler c d pc)) end; cbn [handler_left h_pc] in Hc; (split; [lia|exact Hw]).
  - unfold parser, wg_done in E. rewrite ?Hd in E. destruct (parsers s !! k) as [p|] eqn:Ek; [|done].
    assert (Hc : forall q, _) by (intros q; exact (sum_list_insert parser_left _ _ _ q Ek)).
    repeat case_match; try done; injection E as <-; flds; match goal with |- context [<[_ := ?q]> (parsers s)] => specialize (Hc q) end;
      cbn [parser_left length] in *; (split; [lia|exact Hw]).
  - unfold Stop in E. unfold waits in *. destruct (stopper s); repeat case_match; try done; injection E as <-; flds; cbn [stopper_left]; split; try done; lia.
Qed.

(** The steps that need neither the client nor luck: a socket that is closed ends the read. *)
Definition own (s : server) (a : action) : Prop :=
  match a with
  | Listen e => match listener s with LAccept | URead => e = AErr /\ listening s = false | _ => True end
  | Handle i e =>
    match handlers s !! i with Some h => h_pc h = HScan -> e = AErr /\ sockets s !! h_conn h = Some false | None => True end
  | _ => True
  end.

Lemma sum_list_pos {A} (f : A -> nat) l : sum_list_with f l <> O -> exists i x, l !! i = Some x /\ f x <> O.
Proof.
  induction l as [|x l IH]; cbn [sum_list_with]; [done|]. intros H. destruct (decide (f x = O)) as [E|E]; [|by exists O, x].
  rewrite E in H. destruct (IH H) as (i & y & Hi & Hy). by exists (S i), y.
Qed.

Lemma send_goes g p s next : exists o, send cf g p AOk s next = o /\ o <> Stuck.
Proof. unfold send. repeat case_match; eexists; (split; [reflexivity|done]). Qed.

(** A step that neither waits nor goes wrong. *)
Lemma enabled s a : AllowedPendingMessages cf <> O -> inv s -> step cf parse s a <> Stuck -> exists s', step cf parse s a = Next s'.
Proof. intros Hp H Hs. destruct (server_step_inv s a Hp H) as [Hb _]. destruct (step cf parse s a); [eauto|done..]. Qed.

Lemma listener_enabled s : inv s -> waits s -> listener s <> LDone ->
  exists e, own s (Listen e) /\ fresh s (Listen e) /\ step cf parse s (Listen e) <> Stuck.
Proof.
  intros H Hw Hl. destruct (waits_closed s H Hw) as [Hd Hc]. pose proof (inv_kind s H) as Hk. pose proof (inv_wg s H) as Hg.
  cbn [own step]. unfold udpListen, tcpListen, wg_done. rewrite Hd, Hc.
  destruct (listener s) eqn:El; cbn in Hk, Hg; try done; destruct (isUDP cf); try done;
    try (exists AErr; repeat case_match; split_and!; by try done); try (exists AOk; repeat case_match; split_and!; by try done).
  - exists (AId (base.fresh (dom (conns s)))). split_and!; [done| |done]. cbn. apply not_elem_of_dom, is_fresh.
  - exists AOk. split_and!; [done|done|]. by destruct (send_goes true p s (set_listener USelect)) as (o & -> & Ho).
Qed.

Lemma handler_enabled s i h : inv s -> named s -> waits s -> handlers s !! i = Some h -> handler_wg h <> O ->
  exists e, own s (Handle i e) /\ step cf parse s (Handle i e) <> Stuck.
Proof.
  intros H Hn Hw Hi Hh. pose proof (inv_wg s H) as Hg. pose proof (sum_list_lookup handler_wg _ _ _ Hi) as Hle. unfold handlers_wg in Hg.
  cbn [own step]. unfold handle, wg_done. rewrite Hi. unfold handler_wg in Hh. destruct (h_pc h) eqn:Ep; try done.
  - by exists AOk.
  - exists AErr. split; [|done]. intros _. split; [done|]. pose proof (ids_stop _ _ _ _ _ Hn []) as Hs. unfold waits in Hw.
    destruct (stopper s); try done; (destruct (Hs eq_refl h) as [?%elem_of_nil|?]; [by eapply list_elem_of_lookup_2|done..]).
  - by exists AOk.
  - exists AOk. split; [done|]. match goal with |- send _ _ ?p _ ?s ?n <> _ => by destruct (send_goes false p s n) as (o & -> & Ho) end.
  - exists AOk. split; [done|]. by destruct (wg s).
Qed.

Lemma waits_enabled s : AllowedPendingMessages cf <> O -> inv s -> named s -> waits s -> stopper s <> SDone ->
  exists a s', own s a /\ fresh s a /\ step cf parse s a = Next s'.
Proof.
  intros Hp H Hn Hw Hs. cut (exists a, own s a /\ fresh s a /\ step cf parse s a <> Stuck).
  { intros (a & H1 & H2 & [s' Hs']%(enabled s a Hp H)). eauto. }
  destruct (decide (wg s = O)) as [Hz|Hz].
  { exists StopStep. split_and!; [done|done|]. cbn [step]. unfold Stop. rewrite Hz. unfold waits in Hw.
    pose proof (inv_in s H) as Hi. destruct (stopper s); try done. by rewrite Hi. }
  pose proof (inv_wg s H) as Hg. destruct (decide (listener s = LDone)) as [El|El].
  2: { destruct (listener_enabled s H Hw El) as (e & ?). by exists (Listen e). }
  rewrite El in Hg. cbn in Hg. destruct (decide (handlers_wg s = O)) as [Eh|Eh].
  - destruct (sum_list_pos parser_wg (parsers s)) as (k & q & Hk & Hq); [unfold parsers_wg in Hg; lia|].
    exists (Parse k AErr). split_and!; [done|done|]. cbn [step]. unfold parser, wg_done. rewrite Hk. destruct (waits_closed s H Hw) as [-> _].
    destruct q; [by destruct (wg s)|destruct (parse p); by destruct (wg s)|done].
  - destruct (sum_list_pos handler_wg (handlers s) Eh) as (i & h & Hi & Hh).
    destruct (handler_enabled s i h H Hn Hw Hi Hh) as (e & ? & ?). by exists (Handle i e).
Qed.

(** Runs in which new connections get new names. *)
Inductive exec : server -> nat -> server -> Prop :=
| exec_nil s : exec s 0 s
| exec_cons s a s1 n s2 : fresh s a -> step cf parse s a = Next s1 -> exec s1 n s2 -> exec s (S n) s2.

(** A list of steps, run with a look at the names. *)
Definition freshb (s : server) (a : action) : bool :=
  match a with Listen (AId id) => bool_decide (conns s !! id = None) | _ => true end.
Fixpoint run_fresh (s : server) (acts : list action) : option server :=
  match acts with
  | [] => Some s
  | a :: acts => if freshb s a then match step cf parse s a with Next s' => run_fresh s' acts | _ => None end else None
  end.
Lemma run_reachable acts s s' : reachable s -> run_fresh s acts = Some s' -> reachable s'.
Proof.
  revert s. induction acts as [|a acts IH]; intros s Hr E; cbn [run_fresh] in E; [by injection E as <-|].
  destruct (freshb s a) eqn:Ef; [|done]. destruct (step cf parse s a) as [s1| |] eqn:Es; [|done..]. apply (IH s1); [|done].
  eapply reachable_step; [exact Hr| |exact Es]. destruct a as [[]| | |]; try done. by apply bool_decide_eq_true in Ef.
Qed.

(** C27. [Stop] ends: once it waits for the goroutines, every run of the server is bounded, and until [Stop] is done some
    goroutine has a step that needs nothing of the clients. *)
Theorem Stop_completes (s s' : server) (n : nat) :
  AllowedPendingMessages cf <> O -> reachable s -> stopper s = SWait -> exec s n s' ->
  (n <= steps_left s)%nat /\
  (stopper s' = SDone \/ exists a s'', own s' a /\ fresh s' a /\ step cf parse s' a = Next s'').
Proof.
  intros Hp Hr Hs He. assert (Hw : waits s) by (unfold waits; by rewrite Hs). clear Hs.
  induction He as [s|s a s1 n s2 Hf E He IH]; destruct (reachable_ok s Hp Hr) as [Hi Hn].
  - split; [lia|]. destruct (stopper s) eqn:Es; unfold waits in Hw; rewrite Es in Hw; try done; [right..|by left];
      apply waits_enabled; try done; unfold waits; by rewrite Es.
  - destruct (step_left s a s1 Hi Hw E) as [Hl Hw1]. destruct IH as [IH1 IH2]; [by eapply reachable_step|done|]. split; [lia|done].
Qed.

End Spec.
End StatsdServerSpec.
