(* ===== verification/StatsdScenarios.v ===== *)
(** * StatsdScenarios: the statsd theorems at concrete inputs

    Rationals as the floats, so that everything computes, and packets that show the theorems'
    hypotheses to hold and the exceptions to be real. *)
From S2P Require Import Prelude Utf8 Text Statsd StatsdCache StatsdSpec StatsdCacheSpec StatsdStats StatsdServer StatsdServerSpec.
From stdpp Require Import gmap sorting.
From Stdlib Require Import QArith Qcanon.
#[local] Open Scope Z_scope.

Module StatsdScenarios.
Import Text Statsd StatsdCache StatsdSpec StatsdCacheSpec StatsdStats.

(** Rationals; texts and conversions are those of integers. *)
Definition Qc_of (z : Z) : Qc := Q2Qc (inject_Z z).
Definition Qc_trunc (q : Qc) : Z := Z.quot (Qnum q) (Zpos (Qden q)).
#[export] Instance rationals : Floats := {|
  float := Qc;
  ParseFloat s := match ParseInt s with inl z => Some (Qc_of z) | inr _ => None end;
  float_of := Qc_of; int64_of := Qc_trunc;
  fadd := Qcplus; fsub := Qcminus; fmul := Qcmult; fdiv := Qcdiv;
  feqb := Qc_eq_bool; fltb x y := match Qccompare x y with Lt => true | _ => false end;
  Sqrt q := Qc_of (Z.sqrt (Qc_trunc q)); fshow q := Itoa (Qc_trunc q) |}.

(** The settings that the plugin makes, with the shipped options, and with the datadog extensions. *)
Definition shipped : settings := mkSettings false false false [] 0 true true true true 0.
Definition extended : settings := mkSettings true false false [] 0 true true true true 0.
Definition plain : option (gmap (list Z) (list Z) -> list Z -> list Z * gmap (list Z) (list Z) * list Z) :=
  Some (fun tags name => (name, tags, [])).

(** ** Lines *)

Definition ex_bucket : list Z := str "hits,host=h1".
Definition ex_tags : list (list Z * option (list Z)) := [(str "env", Some (str "prod")); (str "beta", None)].

Lemma parseStatsdLine_counter_witness :
  parseStatsdLine plain extended (str "hits,host=h1:2|c:-30|c|#env:prod,beta") =
  Ret (counter_metric plain extended (fold_left set_tag ex_tags ∅) ex_bucket <$> [2; -30], true).
Proof.
  change (str "hits,host=h1:2|c:-30|c|#env:prod,beta") with
    (ex_bucket ++ 58 :: Join (counter_text <$> [2; -30]) [58] ++ str "|#" ++ Join (tag_text <$> ex_tags) [44]).
  apply parseStatsdLine_counter; try reflexivity.
  - repeat constructor; apply (bool_decide_unpack _); vm_compute; exact I.
  - discriminate.
  - repeat constructor; vm_compute; congruence.
  - repeat constructor; try discriminate; try (apply (bool_decide_unpack _); vm_compute; exact I); try (vm_compute; congruence).
  - repeat constructor; apply (bool_decide_unpack _); vm_compute; exact I.
Defined.

(** An event whose title has a negative length reaches beyond the message. *)
Example parse_packet_event_panics :
  parse_packet plain extended 0 [] (str "_e{-1,4}:abc|test") = Panic.
Proof. vm_compute. reflexivity. Qed.
(** An event that cannot be parsed ends the parser, with the lines after it. *)
Example parse_packet_event_ends :
  parse_packet plain extended 0 [] (str "_e{1" ++ [10] ++ str "hits:1|c") = Ret ([], false).
Proof. vm_compute. reflexivity. Qed.
(** With the shipped settings the same text is a line that cannot be parsed, and the next one counts. *)
Example parse_packet_event_skipped :
  parse_packet plain shipped 0 [] (str "_e{1" ++ [10] ++ str "hits:1|c") =
  Ret ([Metric (counter_metric plain shipped ∅ (str "hits") 1)], true).
Proof. vm_compute. reflexivity. Qed.

(** Two measurements, one hash: the tags [a=b] and [c=d] give the same key as [a=bc=d]. *)
Example hash_collision :
  hash_of (str "x") (<[str "a" := str "b"]> {[str "c" := str "d"]}) = hash_of (str "x") {[str "a" := str "bc=d"]}.
Proof. vm_compute. reflexivity. Qed.

(** ** Counters *)

Definition ex_counter (v : Z) : metric := counter_metric plain shipped ∅ (str "hits") v.
Definition ex_acts : list act :=
  [Aggregate 1 (fun _ => 0) (ex_counter 2); Aggregate 2 (fun _ => 0) (ex_counter 3); GatherAt 3;
   Aggregate 4 (fun _ => 0) (ex_counter 4)].
Definition counter_tags : gmap (list Z) (list Z) := {[str "metric_type" := str "counter"]}.

Lemma ex_counter_hashed v : hashed (str "hits") counter_tags (ex_counter v).
Proof.
  split; [apply (bool_decide_unpack _); vm_compute; exact I|]. intros _.
  split; apply (bool_decide_unpack _); vm_compute; exact I.
Qed.

Lemma counters_conserved_witness :
  added (hash_of (str "hits") counter_tags) (str "value") ex_acts = 9 /\
  exists out c', run [] shipped ex_acts new_caches = Ret (out, c') /\
    i64 (emitted (str "hits") counter_tags (str "value") out + held (hash_of (str "hits") counter_tags) (str "value") c') = 9.
Proof.
  split; [vm_compute; reflexivity|].
  destruct (counters_conserved shipped ltac:(vm_compute; congruence) (str "hits") counter_tags (str "value") ex_acts)
    as (out & c' & E1 & E2); [reflexivity|repeat constructor; apply ex_counter_hashed|].
  exists out, c'. split; [exact E1|]. etransitivity; [exact E2|]. vm_compute. reflexivity.
Defined.

(** Two measurements of one hash are one counter, of the first one's tags. *)
Definition ex_bucket_counter (bucket : list Z) (v : Z) : metric := counter_metric plain shipped ∅ bucket v.
Definition ex_point (r : go (list emission * caches)) :=
  match r with
  | Ret ([AddCounter n fields tags], _) => Some (n, fields !! str "value", tags !! str "a", tags !! str "c")
  | _ => None
  end.
Example collision_merges :
  ex_point (run [] shipped
     [Aggregate 1 (fun _ => 0) (ex_bucket_counter (str "x,a=b,c=d") 1);
      Aggregate 2 (fun _ => 0) (ex_bucket_counter (str "x,a=bc=d") 5); GatherAt 3] new_caches) =
  Some (str "x", Some (FInt 6), Some (str "b"), Some (str "d")).
Proof. vm_compute. reflexivity. Qed.

(** ** Timings *)

(** A timing with a rate above one is not added at all: its statistics hold no value. *)
Example rate_above_one : repeats (Qc_of 2) = 0%nat.
Proof. vm_compute. reflexivity. Qed.
(** A small rate makes one packet add its value a million million times, under the lock. *)
Example rate_small : int64_of (fdiv (float_of 1) (fdiv (float_of 1) (float_of (10 ^ 12)))) = 10 ^ 12.
Proof. vm_compute. reflexivity. Qed.

(** The rationals have the order of floats, and rationals between integers are cut to integers between them. *)
Lemma ltb_Qclt (x y : Qc) : @fltb rationals x y = true <-> (x < y)%Qc.
Proof. cbn. rewrite Qclt_alt. by destruct (x ?= y)%Qc. Qed.
Lemma ltb_Qcle (x y : Qc) : @fltb rationals x y = false <-> (y <= x)%Qc.
Proof.
  rewrite <- not_true_iff_false, ltb_Qclt. split; [apply Qcnot_lt_le|intros H H']. exact (Qclt_not_le _ _ H' H).
Qed.
Lemma rational_number (x : Qc) : @is_nan rationals x = false.
Proof. unfold is_nan. cbn. unfold Qc_eq_bool. by destruct (Qc_eq_dec x x). Qed.

Lemma Qc_trunc_between (i : Qc) max : (Qc_of 0 <= i)%Qc -> (i <= Qc_of max)%Qc -> 0 <= Qc_trunc i <= max.
Proof.
  unfold Qcle, Qc_of. cbn. rewrite Qred_correct, (Qred_correct (inject_Z max)). unfold Qle, Qc_trunc. cbn.
  intros H1 H2. rewrite Z.quot_div_nonneg by lia. split; [apply Z.div_pos; lia|].
  apply Z.div_le_upper_bound; lia.
Qed.

Lemma rational_laws : @FloatLaws rationals.
Proof.
  split.
  - intros x. apply ltb_Qcle, Qcle_refl.
  - intros x y z. rewrite !ltb_Qclt. apply Qclt_trans.
  - intros x y z _. rewrite !ltb_Qclt. intros Hxz. destruct (Qclt_le_dec x y) as [|Hyx]; [by left|right]. by eapply Qcle_lt_trans.
  - intros x y _. by rewrite !rational_number.
  - intros i max _ _ H1%ltb_Qcle H2%ltb_Qcle. by apply Qc_trunc_between.
  - intros z. apply rational_number.
  - intros len n _ _. apply rational_number.
Qed.

(** Five values are added, with room for three, and the median is read twice. *)
Definition ex_uses : list use := [Add (Qc_of 8); Read (Qc_of 50); Add (Qc_of 6); Add (Qc_of 1); Add (Qc_of 2)].
Lemma RunningStats_values_witness :
  exists rs, stats_run (fun _ => 1) (Add (Qc_of 4) :: ex_uses) (new_stats 3) = Ret rs /\
    Count rs = 5 /\ Sum rs = Qc_of 21 /\ Mean rs = Qcdiv (Qc_of 21) (Qc_of 5) /\
    bounded (Qc_of <$> [4; 8; 6; 1; 2]) (Lower rs) (Upper rs) /\
    exists p rs' l, Percentile (Qc_of 50) rs = Ret (p, rs') /\ StronglySorted float_le l /\ zlen l = 3 /\ l !! 1%nat = Some p.
Proof.
  destruct (@RunningStats_values rationals rational_laws (fun _ => 1) 3 (Qc_of 4) ex_uses) as (rs & E & E1 & E2 & E3 & E4 & _ & E5);
    [lia|by vm_compute|apply rational_number|repeat (constructor; [apply rational_number|]); constructor|by vm_compute|].
  exists rs. split; [exact E|]. split; [exact E1|]. split; [rewrite E2; apply Qc_is_canon; vm_compute; reflexivity|].
  split; [rewrite E4; apply Qc_is_canon; vm_compute; reflexivity|]. split; [exact E3|].
  destruct (E5 (Qc_of 50) (rational_number _)) as (p & rs' & l & Ep & Hl & [Hz _] & Hp).
  change (zlen l = 3) in Hz. exists p, rs', l. split; [exact Ep|]. split; [exact Hl|]. split; [exact Hz|].
  rewrite Hz in Hp. rewrite <- Hp. reflexivity.
Defined.

(** ** The server *)

Section Server.
Import StatsdServer StatsdServerSpec.

Definition tcp : config := mkConfig false 2 true 4.
Definition udp : config := mkConfig true 0 false 4.
Definition goes_on (packet : list Z) : bool :=
  match parse_packet plain shipped 0 [] packet with Ret (_, ok) => ok | _ => false end.

(** A client connects under a name, and its handler starts to read. *)
Definition connect (i : nat) (id : string) : list action :=
  [Listen AErr; Listen AConn; Listen AOk; Listen AOk; Listen AErr; Listen AErr; Listen (AId (str id)); Listen AErr; Handle i AErr].
(** A line arrives and is queued. *)
Definition line (i : nat) (text : string) : list action :=
  [Handle i (ALine (str text)); Handle i AOk; Handle i AErr; Handle i AErr].
Definition stop (n : nat) : list action := replicate n StopStep.

(** Two clients, a third that is refused, and a packet that is parsed. *)
Definition ex_run : list action :=
  connect 0 "aaaaaa" ++ connect 1 "bbbbbb" ++ [Listen AErr; Listen AConn; Listen AOk; Listen AOk; Listen AErr] ++
  line 0 "hits:1|c" ++ [Parse 0 AOk; Parse 0 AErr].
Lemma server_safe_witness :
  run tcp goes_on (Start tcp) ex_run <> Bad /\
  exists s, run tcp goes_on (Start tcp) ex_run = Next s /\ length (handlers s) = 2%nat /\
    (length (filter (fun h => handler_token h = 1%nat) (handlers s)) <= 2)%nat.
Proof.
  destruct (server_safe tcp goes_on ex_run) as [Hb Hn]; [discriminate|]. split; [exact Hb|].
  destruct (run tcp goes_on (Start tcp) ex_run) as [s| |] eqn:E; [|vm_compute in E; discriminate..].
  exists s. split; [reflexivity|]. split; [|exact (proj1 (Hn s eq_refl))].
  assert (El : match run tcp goes_on (Start tcp) ex_run with Next s => length (handlers s) | _ => O end = 2%nat) by (vm_compute; reflexivity).
  rewrite E in El. exact El.
Defined.

(** [Stop], while a client is connected, up to the wait. *)
Definition ex_stop : list action := connect 0 "aaaaaa" ++ stop 5.
Lemma Stop_completes_witness :
  exists s, run_fresh tcp goes_on (Start tcp) ex_stop = Some s /\ stopper s = SWait /\
    exists a s', own s a /\ fresh s a /\ step tcp goes_on s a = Next s'.
Proof.
  assert (Ex : match run_fresh tcp goes_on (Start tcp) ex_stop with Some s => stopper s | None => SIdle end = SWait) by (vm_compute; reflexivity).
  destruct (run_fresh tcp goes_on (Start tcp) ex_stop) as [s|] eqn:E; [|discriminate Ex].
  exists s. split; [reflexivity|]. split; [exact Ex|].
  destruct (Stop_completes tcp goes_on s s 0) as [_ [Hd|Hs]]; [discriminate| |exact Ex|constructor|rewrite Ex in Hd; discriminate Hd|exact Hs].
  eapply run_reachable; [constructor|exact E].
Defined.

(** Two connections that get the same name: [Stop] closes the second only, and waits for the first, whose handler
    waits for its client.  No goroutine has a step of its own any more. *)
Definition same_name : list action :=
  connect 0 "aaaaaa" ++ connect 1 "aaaaaa" ++ stop 5 ++
  [Listen AErr; Handle 1 AErr; Handle 1 AErr; Handle 1 AErr; Handle 1 AErr; Handle 1 AErr;
   Parse 0 AErr; Parse 1 AErr; Parse 2 AErr; Parse 3 AErr; Parse 4 AErr].
Example same_name_blocks :
  match run tcp goes_on (Start tcp) same_name with
  | Next s => (stopper s, wg s, listener s, h_pc <$> handlers s, sockets s, parsers s) =
      (SWait, 1%nat, LDone, [HScan; HDone], [true; false], replicate 5 PDone)
  | _ => False
  end.
Proof. vm_compute. reflexivity. Qed.
Lemma blocked_for_good s a s' :
  (stopper s, wg s, listener s, h_pc <$> handlers s, sockets s, parsers s) =
    (SWait, 1%nat, LDone, [HScan; HDone], [true; false], replicate 5 PDone) ->
  (forall h, handlers s !! 0%nat = Some h -> h_conn h = 0%nat) ->
  own s a -> step tcp goes_on s a <> Next s'.
Proof.
  intros [= Hs Hw Hl Hh Hk Hp] Hc Ho. destruct a as [e|i e|k e|]; cbn [step isUDP tcp].
  - unfold tcpListen. by rewrite Hl.
  - unfold handle. destruct (handlers s !! i) as [h|] eqn:Ei; [|done].
    assert (Epc : (h_pc <$> handlers s) !! i = Some (h_pc h)) by (by rewrite list_lookup_fmap, Ei).
    rewrite Hh in Epc. destruct i as [|[|i]]; cbn in Epc; [|injection Epc as Epc; by rewrite <- Epc|done].
    injection Epc as Epc. cbn [own] in Ho. rewrite Ei in Ho. destruct (Ho (eq_sym Epc)) as [_ Hf]. by rewrite (Hc h Ei), Hk in Hf.
  - unfold parser. destruct (parsers s !! k) as [p|] eqn:Ek; [|done]. rewrite Hp in Ek.
    assert (p = PDone) as ->; [|done]. do 5 (destruct k as [|k]; [by injection Ek as <-|]). done.
  - unfold Stop. by rewrite Hs, Hw.
Qed.

(** One packet of a client that is not admitted closes the UDP socket, and with it the service. *)
Example udp_rejected_packet_ends :
  match run udp goes_on (Start udp) [Listen AErr; Listen (APacket (str "x:1|c")); Listen AErr; Listen AErr; Listen AErr] with
  | Next s => (done s, listening s, listener s) = (false, false, LDone)
  | _ => False
  end.
Proof. vm_compute. reflexivity. Qed.

(** Without room for pending messages the second message that is dropped divides by zero. *)
Definition no_pending : config := mkConfig false 1 true 0.
Example second_drop_panics :
  run no_pending goes_on (Start no_pending) (connect 0 "aaaaaa" ++ line 0 "x:1|c" ++ line 0 "x:1|c") = Bad.
Proof. vm_compute. reflexivity. Qed.

End Server.

End StatsdScenarios.
